(* ===== verification/_CoqProject ===== *)
-Q . S2P
Prelude.v
Wtacc.v
AurpHeaders.v
AurpTuples.v
AurpZoneInfo.v
AurpPacket.v
AurpTransport.v
PeerPolicy.v
GoSort.v
RouteTable.v
RouteTableInv.v
RouteTableOps.v
RouteTableSpec.v
RouteExport.v
PeerState.v
PeerZones.v
PeerFSM.v
AtalkNbp.v
Atalk.v
AtalkRtmp.v
AtalkAtp.v
AtalkZip.v
Aarp.v
AarpWire.v
AarpSpec.v
AarpCable.v
Outbox.v
OutboxSpec.v
LoopProbe.v
DdpPolicy.v
PeerInv.v
PeerKeeps.v
PeerTotal.v
PeerSpec.v
PeerRecv.v
PeerSend.v
ZoneSpec.v
TunnelSpec.v
Seed.v
Router.v
Cluster.v
Rtmp.v
Zip.v
RouterSpec.v
RtmpSpec.v
ZipSpec.v
Services.v
ServicesSpec.v
EtherTalk.v
EtherTalkSpec.v
PeerTable.v
PeerTableInv.v
PeerTableSpec.v
AurpInput.v
AurpInputSpec.v
System.v
SystemSpec.v
GoParse.v
Config.v
ConfigSpec.v
ConfigText.v
Startup.v
StartupSpec.v
Health.v
Metrics.v
MetricsSpec.v
StatusPage.v
StatusPageSpec.v
Delivery.v
DeliverySpec.v
StatusItems.v
StatusItemsSpec.v
