(* ===== verification/Prelude.v ===== *)
(** * jrouter / P-AURP: a verification development

    The program is an AppleTalk router.  It joins EtherTalk cables ([src/router],
    package router, with the packet formats of [src/atalk]) and, through tunnels
    over UDP, other such routers that speak AURP ([src/aurp]).  This library
    models its protocol logic and proves what makes it correct.

    ** Parts and interaction

    A UDP datagram is parsed by [aurp.ParsePacket] and attributed to a peer of the
    table of peers ([AURPPeerTable]), which finds peers by address and by
    configured name and follows their addresses in the DNS.  A routing packet
    goes through a queue to the goroutine of its peer
    ([AURPPeer.handlePacket]), which answers, keeps the
    sequence numbers and connection identifiers of its [Transport], and installs
    what the peer announces in the [RouteTable]; the table tells its observers,
    among them every peer, when the best route of a network changes, and a peer
    turns the changes into routing updates of its own.  An AppleTalk packet is
    filtered and renumbered by the policy of the peer and routed by
    [Router.OutputFromAURP], or handled when it is for this router.  Packets from
    a cable reach the services (NBP, AEP, RTMP, ZIP) or [Router.Forward]; the
    route decides whether a port or a peer's [Forward] takes them.

    ** Files

    - [Prelude], [Wtacc]: machine integers, Go byte strings and slices, the error
      type [res] (a value, an error, or a run-time panic), shared lemmas and
      tactics; the write accumulator [aurp/wtacc.go].
    - [AurpHeaders], [AurpTuples], [AurpZoneInfo], [AurpPacket]: the AURP packet
      codec, the files of [aurp/] with [WriteTo] and parsers; [ParsePacket] at
      the end.
    - [AurpTransport]: [aurp/transport.go], with the lock-free sequence-number
      increment as interleaved load and compare-and-swap steps.
    - [PeerPolicy] (Module Policy): selectors, remap and hide rules
      ([router/aurp_remap.go], rule types and remap validation of
      [router/config.go]).
    - [GoSort]: what [slices.SortFunc] promises, as a class, and an instance.
    - [RouteTable] (Module RT): [router/route.go], [router/route_table.go],
      [router/zones.go]; [RouteTableInv] and [RouteTableOps]: the invariant and
      what each operation does to it; [RouteTableSpec]: the theorems.
    - [RouteExport] (Module Exp): [router/aurp_routing.go] and the queue of
      pending events.
    - [PeerState] (Module PS), [PeerZones] (Module Zones), [PeerFSM] (Module FSM):
      the state of a peer with its effects ([World]), the zone information
      exchange ([router/aurp_zone.go]) and the handlers, tickers and loop of
      [router/aurp_peer.go].  [PeerInv], [PeerKeeps], [PeerTotal]: invariant and
      termination per handler; [PeerSpec], [PeerRecv], [PeerSend], [ZoneSpec]:
      the theorems.
    - [AtalkNbp] (Module NBP), [Atalk] (Module DDP): [atalk/nbp/nbp.go],
      [atalk/strings.go], DDP checksums, sizes and hop counts.
    - [DdpPolicy] (Module Tunnel): the policy of a peer on DDP packets
      ([remapInboundDDP], [filterDeviceNBP], [applyAURPHopWeight]) and its
      [Forward]; [TunnelSpec]: what [Forward] sends.
    - [Seed] (Module Seed): [seedController] of [router/seed.go].
    - [Router] (Module Router): [router/router.go]; [RouterSpec]: its theorems.
    - [Services] (Module Services): [router/nbp.go], [router/nbp_aurp.go],
      [router/aep.go] and the AppleTalk branch of [AURPInput]
      ([router/aurp.go]); [ServicesSpec]: its theorems.
    - [AtalkRtmp], [AtalkAtp], [AtalkZip] (Modules RTMP, ATP, ZIP): the packet
      formats under [atalk/rtmp], [atalk/atp] and [atalk/zip].
    - [LoopProbe] (Module Loop): [router/aurp_loop.go], its goroutines as
      interleaved steps.
    - [Cluster] (Module Cluster): [router/aurp_cluster.go]; [Rtmp] (Module Rtmp):
      [router/rtmp.go], with [RtmpSpec]; [Zip] (Module ZipService):
      [router/zip.go], with [ZipSpec].
    - [Aarp] (Module Aarp): [router/aarp.go]; [AarpWire]: an implementation of
      the ethertalk and aarp packages; [AarpSpec], [AarpCable]: its theorems, the
      latter on two machines on one cable.  [Outbox] (Module Outbox): the queues
      of [router/etalk_port.go], with [OutboxSpec].
    - [EtherTalk] (Module EtherTalk): the rest of [router/etalk_port.go], with
      [Serve] as one step per frame, and the seed loop of [router/seed.go] as one
      step per turn; [EtherTalkSpec]: its theorems.
    - [PeerTable] (Module Peers): [router/aurp_peer_table.go], [PeerTableInv]: its
      invariant and steps, [PeerTableSpec]: its theorems.  [AurpInput] (Module
      Input): the loop of [router/aurp.go], the queues of the peers and the start
      of [Handle], with [AurpInputSpec].
    - [System] (Module Sys): all of it on one state, with [SystemSpec].
    - [GoParse] (Module GoParse): the number and duration parsers of Go's
      library.  [Config] (Module Config): the rest of [router/config.go], with
      [ConfigSpec] (validation) and [ConfigText] (the forms of a value).
    - [Startup] (Module Startup): [main.go] up to its goroutines and the first
      resolution of the peers, with [StartupSpec].
    - [Health] (Module Health): [router/health.go] and the summary of the table
      of peers, with its theorem.
    - [Metrics] (Module Metrics): [router/aurp_peer_metrics.go], with
      [MetricsSpec]; [StatusPage] (Module Page): the rows of the pages of the
      peers and of the routing table, with [StatusPageSpec]; [StatusItems] (Module
      Status): the registry of items and the pages of [status/status.go], with
      [StatusItemsSpec].
    - [Delivery] (Module Delivery): the router's packets handed to the ports and
      tunnels, [Forward] of [router/etalk_peer.go] included; [DeliverySpec]: from
      a tunnel to the frame on a cable.

    ** How the code is rendered

    A [uint8] or [uint16] is a [Z] with its wrap-around written out ([wrap8],
    [wrap16]); [u8], [u16] and the [_typed] predicates say that values are in
    range.  A slice expression or index that Go would refuse at run time is
    [Panic]; a function that returns an error returns [res].  A method that
    mutates its receiver returns the new state.  The peer runs in the state monad
    [PS.M] over [World] and the router in [Router.R] over [RW]: the states hold
    the route table, the clock, the outcomes of the coming socket writes and all
    packets sent so far, so a theorem can speak of every outcome of the
    environment.  The AARP machine and the outboxes of a port run in [Aarp.E] over
    [EW], and a port in [EtherTalk.P] over both.  The table of peers
    and the input loop run in [Peers.T] over [TW], a store of peers with the
    router; a step of the whole router ([Sys.sys_step]) is a step of one of the
    parts on that state.  [None] is a run that does not return: a panic, or a loop over a
    range ending at network 65535, where the [uint16] loop counter of the code
    wraps around.

    Mutexes make each route-table operation one step; what other goroutines do
    between the steps of a peer is a step of its own ([peer_step], [rt_step]).
    Go maps are finite maps where order does not matter and association lists
    where it does; a range over a map whose order shows in the result takes the
    order as an argument of the theorem or is an association list in arbitrary
    order.  Sorting and the Unicode string functions are classes ([GoSort],
    [GoStrings]), and so is the third-party DDP package ([DDP.Multitalk]), with
    the documented layout of a datagram as its laws, and the ethertalk and aarp
    packages ([Aarp.Ethertalk]); each has an instance, which
    the witnesses use.

    ** What the theorems show

    - Codecs: every packet that is written is parsed back; parsers return on
      every input and their results are in range.
    - Route table: the indexes agree in every reachable table, lookups are
      optimal, updates are exact and observers learn the best route.
    - Peer: an invariant over every interleaving; handlers return; routing
      information is streamed exactly once per acknowledgement within the
      datagram budget, installed exactly, not installed twice, and removed with
      the connection; zone lists are assembled in any order; retries end.
    - Table of peers and input loop: names, addresses and peers stay paired;
      refreshes are exact, lookups back off; every datagram reaches the one peer
      it is from, in order.
    - Whole router: the invariants of the tables and of all peers hold together
      under every interleaving, and queued packets are handled.
    - DDP: policies translate exactly and a reply finds its way back; packets
      are not reflected into the tunnel they came from; hop counts bound
      forwarding; checksums are the standard ones; a packet that leaves a tunnel
      arrives on the wire, in an outbox or in the next tunnel.
    - Services: lookups cover the zone asked for, routing tables and zone lists
      are announced and learnt exactly, echoes return.
    - Ports: an address is owned only after ten probes and by one machine of the
      cable; packets that wait for an address are neither lost nor reordered;
      every frame is handled; a soft seed takes over a silent cable.
    - Configuration and start-up: what is accepted satisfies every documented
      rule and fits the rest of the program, and the program it starts is in a
      start state of the invariants; the first resolution of the peers ends.
    - Monitoring: the health summary counts each peer once and readiness means
      what it says; the page of the peers has one row for each, status pages show
      every item once and in order, and neither depends on the order of maps; a
      scrape is complete, and refused or fatal exactly on certain labels.
    - Errors: behaviours in which the code goes wrong are theorems too, on
      concrete inputs or in general ([rirsp_65535_hangs],
      [stray_ack_locks_out], [fwdreq_first_port_only], [disabled_peer_blocks_input]
      and others).

    ** Bounds and fuel

    Loops over lists are structural recursions.  Parsing loops
    ([parse_loop], [parse_zone_loop] and the like) and [split_networks] take the
    length of their input as fuel: every step consumes at least one byte or
    network, and the theorems on them include that the fuel does not run out
    (running out would be a [Panic], which [ParsePacket_total] excludes).  The
    [uint16] loops over a network range ([Prelude.net_range]) take as many steps
    as the range has networks and give [None] exactly when they would not end.
    [Handle] and [gracefulSenderShutdown] run over the finite list of the events
    they receive.

    ** Not modelled

    Packet capture, sockets, timers and goroutine start-up; the templates of the
    status items, and the counter vectors of the other [_metrics] files; flags,
    signals and the HTTP server of [main.go], the build script and the names of
    capture devices on Windows: input, output and glue without protocol logic.
    The decoding of YAML into nodes and structs is an interface ([Config.Yaml]),
    and so are the network interfaces and the capture library ([Startup.Host]),
    [html/template] ([Html]) and the Prometheus library ([Prometheus], with its
    documentation as laws).  [DeliveryLaws] say that an EtherTalk frame carries the
    datagram it is made of.  The String methods
    for logs, logging, and the contents of the chat-log page. *)
From stdpp Require Export base list gmap sorting numbers strings.
From Stdlib Require Export ZArith Lia.

#[global] Open Scope Z_scope.

(** Go byte slices and Go strings are both byte sequences; a byte is a [Z]
    in [0, 256).  The width predicates below are what "is a uint8/uint16"
    means in the statements. *)
Abbreviation bytes := (list Z).

Definition u8 (z : Z) : Prop := 0 <= z < 256.
Definition u16 (z : Z) : Prop := 0 <= z < 65536.
Definition i16 (z : Z) : Prop := -32768 <= z < 32768.
Definition bytes_ok (b : list Z) : Prop := Forall u8 b.

Definition wrap8 (z : Z) : Z := z mod 256.
Definition wrap16 (z : Z) : Z := z mod 65536.
(** [int16(x)] of a 16-bit pattern. *)
Definition to_int16 (z : Z) : Z :=
  let w := wrap16 z in if w <? 32768 then w else w - 65536.

(** [len(b)] as a Go int. *)
Definition zlen {A} (l : list A) : Z := Z.of_nat (length l).

(** A Go string literal as bytes. *)
Fixpoint str (s : string) : list Z :=
  match s with
  | EmptyString => []
  | String c s' => Z.of_N (Ascii.N_of_ascii c) :: str s'
  end.

(** ** Errors and outcomes

    [fmt.Errorf] values keep their format string and arguments; [%w] wrapping
    keeps the inner error. *)
Inductive earg := AInt (z : Z) | AStr (s : list Z).

Inductive goerr :=
| Errorf (fmt : string) (args : list earg)
| Wrapf (fmt : string) (args : list earg) (inner : goerr).

#[global] Instance earg_eq_dec : EqDecision earg.
Proof. solve_decision. Defined.
#[global] Instance goerr_eq_dec : EqDecision goerr.
Proof. solve_decision. Defined.

(** Outcome of a Go function that returns an [error]: a value, an error, or a
    run-time panic (index or slice bounds out of range). *)
Inductive res (A : Type) :=
| Ok (a : A)
| Err (e : goerr)
| Panic.
Arguments Ok {A} a.
Arguments Err {A} e.
Arguments Panic {A}.

#[global] Instance res_ret : MRet res := λ A x, Ok x.
#[global] Instance res_bind : MBind res := λ A B f r,
  match r with Ok a => f a | Err e => Err e | Panic => Panic end.

#[global] Instance res_eq_dec {A} `{EqDecision A} : EqDecision (res A).
Proof. solve_decision. Defined.

(** Inverting a concrete run without unfolding its states. *)
Lemma some_pair_inj {A B} (a a' : A) (b b' : B) : Some (a, b) = Some (a', b') -> a = a' /\ b = b'.
Proof. intros H. by injection H. Qed.

Lemma bind_Ok {A B} (f : A -> res B) a : (Ok a ≫= f) = f a.
Proof. reflexivity. Qed.

(** [fmt.Errorf("...: %w", err)] applied to a failing call. *)
Definition wrap_err {A} (fmt : string) (args : list earg) (r : res A) : res A :=
  match r with Err e => Err (Wrapf fmt args e) | r => r end.

(** ** Slices with Go's bounds checks

    Go allows [p[:j]] up to the capacity; these check against the length, so a
    model that does not panic describes a Go run that does not either. *)
Definition idx (p : list Z) (i : Z) : res Z :=
  if (0 <=? i) then
    match p !! Z.to_nat i with Some b => Ok b | None => Panic end
  else Panic.

Definition slice_from (p : list Z) (i : Z) : res (list Z) :=
  if (0 <=? i) && (i <=? zlen p) then Ok (drop (Z.to_nat i) p) else Panic.

Definition slice_to (p : list Z) (j : Z) : res (list Z) :=
  if (0 <=? j) && (j <=? zlen p) then Ok (take (Z.to_nat j) p) else Panic.

Definition slice (p : list Z) (i j : Z) : res (list Z) :=
  if (0 <=? i) && (i <=? j) && (j <=? zlen p)
  then Ok (take (Z.to_nat (j - i)) (drop (Z.to_nat i) p)) else Panic.

(** [binary.BigEndian.Uint16(b)]: panics when [b] has fewer than two bytes. *)
Definition be16 (p : list Z) : res Z :=
  match p with
  | h :: l :: _ => Ok (Z.lor (Z.shiftl h 8) l)
  | _ => Panic
  end.

(** The two bytes [byte(x >> 8), byte(x & 0xff)]. *)
Definition put16 (x : Z) : list Z := [wrap8 (Z.shiftr x 8); wrap8 (Z.land x 255)].

(** ** uint16 counting loops

    [for n := s; n <= e; n++ { ... }] over a uint16 counter, with the
    wrap-around of [n++].  [None] is a loop that has not finished within the
    fuel; [net_range] gives it the fuel that is enough whenever the loop
    finishes at all ([net_range_spec], [range_u16_diverges]). *)
Fixpoint range_u16 (fuel : nat) (n e : Z) : option (list Z) :=
  match fuel with
  | O => None
  | S f =>
      if n <=? e then
        match range_u16 f (wrap16 (n + 1)) e with
        | Some l => Some (n :: l)
        | None => None
        end
      else Some []
  end.

Definition net_range (s e : Z) : option (list Z) :=
  range_u16 (S (S (Z.to_nat (e - s)))) s e.

(** ** Lexicographic comparison of Go strings ([cmp.Compare] on strings) *)
Fixpoint bytes_compare (a b : list Z) : comparison :=
  match a, b with
  | [], [] => Eq
  | [], _ :: _ => Lt
  | _ :: _, [] => Gt
  | x :: a', y :: b' =>
      match (x ?= y)%Z with Eq => bytes_compare a' b' | c => c end
  end.

(** [cmp.Or] on comparison results: the first one that is not equal. *)
Definition cmp_or (c1 c2 : comparison) : comparison :=
  match c1 with Eq => c2 | c => c end.

Declare Scope go_scope.
Delimit Scope go_scope with go.
Notation "c1 <|>c c2" := (cmp_or c1 c2)
  (at level 60, right associativity) : go_scope.

(** * Lemmas and automation *)

Create HintDb wire.
Create Rewrite HintDb wire.
Create HintDb widths.

#[global] Hint Unfold u8 u16 i16 : widths.

(** Destruct every boolean test in sight into its arithmetic meaning. *)
Ltac zbool :=
  repeat match goal with
  | H : (_ && _) = true |- _ => apply andb_prop in H; destruct H
  | H : (_ || _) = false |- _ => apply orb_false_elim in H; destruct H
  | H : negb _ = true |- _ => apply negb_true_iff in H
  | H : negb _ = false |- _ => apply negb_false_iff in H
  | H : (_ <=? _) = true |- _ => apply Z.leb_le in H
  | H : (_ <=? _) = false |- _ => apply Z.leb_gt in H
  | H : (_ <? _) = true |- _ => apply Z.ltb_lt in H
  | H : (_ <? _) = false |- _ => apply Z.ltb_ge in H
  | H : (_ =? _) = true |- _ => apply Z.eqb_eq in H
  | H : (_ =? _) = false |- _ => apply Z.eqb_neq in H
  end.

(** Evaluate the comparisons of the goal whose two sides are constants. *)
Ltac eval_tests :=
  repeat match goal with
  | |- context [?a =? ?b] =>
      let v := eval vm_compute in (a =? b) in
      match v with true => idtac | false => idtac end;
      change (a =? b) with v; cbv iota
  end.

(** Width facts about constants. *)
Ltac const_widths :=
  vm_compute; repeat first [ split | constructor | discriminate ].

(** Case analysis on the first [if] of the goal. *)
Ltac case_if :=
  match goal with
  | |- context [if ?b then _ else _] => let E := fresh "E" in destruct b eqn:E
  end.

Ltac case_if_in H :=
  match type of H with
  | context [if ?b then _ else _] => let E := fresh "E" in destruct b eqn:E
  end.

(** Resolve a boolean test of the goal whose value arithmetic decides. *)
Ltac zdec :=
  repeat match goal with
  | |- context [?a <=? ?b] =>
      first [ replace (a <=? b) with true by (symmetry; apply Z.leb_le; lia)
            | replace (a <=? b) with false by (symmetry; apply Z.leb_gt; lia) ]
  | |- context [?a <? ?b] =>
      first [ replace (a <? b) with true by (symmetry; apply Z.ltb_lt; lia)
            | replace (a <? b) with false by (symmetry; apply Z.ltb_ge; lia) ]
  | |- context [?a =? ?b] =>
      first [ replace (a =? b) with true by (symmetry; apply Z.eqb_eq; lia)
            | replace (a =? b) with false by (symmetry; apply Z.eqb_neq; lia) ]
  end.

Lemma zlen_nil {A} : zlen (@nil A) = 0.
Proof. reflexivity. Qed.

Lemma zlen_cons {A} (x : A) l : zlen (x :: l) = zlen l + 1.
Proof. unfold zlen. simpl. lia. Qed.

Lemma zlen_app {A} (l1 l2 : list A) : zlen (l1 ++ l2) = zlen l1 + zlen l2.
Proof. unfold zlen. rewrite length_app. lia. Qed.

Lemma zlen_nonneg {A} (l : list A) : 0 <= zlen l.
Proof. unfold zlen. lia. Qed.

Lemma zlen_put16 x : zlen (put16 x) = 2.
Proof. reflexivity. Qed.

#[global] Hint Rewrite @zlen_nil @zlen_cons @zlen_app zlen_put16 : wire.

(** Properties of all bytes, by evaluation on the 256 of them. *)
Lemma byte_all (P : Z -> bool) :
  forallb P (seqZ 0 256) = true -> forall b, u8 b -> P b = true.
Proof.
  intros H b Hb. rewrite forallb_forall in H. apply H.
  apply list_elem_of_In, elem_of_seqZ. unfold u8 in Hb. lia.
Qed.

(** [by_bytes b] proves a boolean fact on a byte [b] by evaluation. *)
Ltac by_bytes b :=
  match goal with
  | Hb : u8 b |- @eq bool ?t true =>
      let P := eval pattern b in t in
      match P with ?f _ => exact (byte_all f ltac:(vm_compute; reflexivity) b Hb) end
  end.

Lemma lor_high_small d : 0 <= d < 128 -> Z.lor d 128 = d + 128.
Proof.
  intros H. assert (Hb : u8 d) by (unfold u8; lia).
  assert (E : ((127 <? d) || (Z.lor d 128 =? d + 128)) = true) by by_bytes d.
  apply orb_prop in E as [E|E]; zbool; lia.
Qed.

Lemma ldiff_high d : u8 d -> 0 <= Z.ldiff d 128 < 128.
Proof.
  intros Hb.
  assert (E : ((0 <=? Z.ldiff d 128) && (Z.ldiff d 128 <? 128)) = true) by by_bytes d.
  zbool; lia.
Qed.

Lemma ldiff_high_add d : 0 <= d < 128 -> Z.ldiff (d + 128) 128 = d.
Proof.
  intros H. assert (Hb : u8 d) by (unfold u8; lia).
  assert (E : ((127 <? d) || (Z.ldiff (d + 128) 128 =? d)) = true) by by_bytes d.
  apply orb_prop in E as [E|E]; zbool; lia.
Qed.

Lemma land_high_zero d : u8 d -> (Z.land d 128 =? 0) = (d <? 128).
Proof.
  intros Hb. apply eqb_prop.
  by_bytes d.
Qed.

Lemma land_high_lt d : u8 d -> Z.land d 128 = 0 -> d < 128.
Proof. intros Hd H. pose proof (land_high_zero d Hd) as E. rewrite H in E. symmetry in E. by apply Z.ltb_lt in E. Qed.

(** Big-endian 16-bit fields. *)
Lemma land_shiftl_small h l k : 0 <= k -> 0 <= l < 2 ^ k -> Z.land (Z.shiftl h k) l = 0.
Proof.
  intros Hk Hl. apply Z.bits_inj'. intros n Hn. rewrite Z.land_spec, Z.bits_0.
  destruct (Z.lt_ge_cases n k); [by rewrite Z.shiftl_spec_low|].
  destruct (decide (l = 0)) as [->|]; [by rewrite Z.bits_0, andb_false_r|].
  rewrite (Z.bits_above_log2 l), andb_false_r; [done|lia|].
  apply Z.lt_le_trans with k; [|done]. apply Z.log2_lt_pow2; lia.
Qed.

Lemma ldiff_lor_disjoint a b : Z.land a b = 0 -> Z.ldiff (Z.lor a b) a = b.
Proof.
  intros H. apply Z.bits_inj'. intros n Hn. rewrite Z.ldiff_spec, Z.lor_spec.
  assert (E : Z.testbit a n && Z.testbit b n = false).
  { by rewrite <- Z.land_spec, H, Z.bits_0. }
  by destruct (Z.testbit a n), (Z.testbit b n).
Qed.

Lemma ldiff_disjoint a b : Z.land a b = 0 -> Z.ldiff b a = b.
Proof.
  intros H. apply Z.bits_inj'. intros n Hn. rewrite Z.ldiff_spec.
  assert (E : Z.testbit a n && Z.testbit b n = false).
  { by rewrite <- Z.land_spec, H, Z.bits_0. }
  by destruct (Z.testbit a n), (Z.testbit b n).
Qed.

Lemma lor_shift_add h l : u8 l -> Z.lor (Z.shiftl h 8) l = h * 256 + l.
Proof.
  unfold u8. intros Hl. rewrite <- Z.add_nocarry_lor.
  - rewrite Z.shiftl_mul_pow2 by lia. reflexivity.
  - apply land_shiftl_small; [lia|]. change (2 ^ 8) with 256. lia.
Qed.

Lemma put16_div x : u16 x -> put16 x = [x / 256; x mod 256].
Proof.
  unfold u16, put16, wrap8. intros Hx.
  rewrite Z.shiftr_div_pow2 by lia. change (2 ^ 8) with 256.
  change 255 with (Z.ones 8). rewrite Z.land_ones by lia. change (2 ^ 8) with 256.
  rewrite Z.mod_mod by lia. f_equal. apply Z.mod_small. split.
  - apply Z.div_pos; lia.
  - apply Z.div_lt_upper_bound; lia.
Qed.

Lemma be16_put16 x rest : u16 x -> be16 (put16 x ++ rest) = Ok x.
Proof.
  intros Hx. rewrite put16_div by done. unfold u16 in Hx. simpl.
  rewrite lor_shift_add by (unfold u8; apply Z.mod_pos_bound; lia).
  f_equal. pose proof (Z.div_mod x 256). lia.
Qed.

Lemma put16_ok x : bytes_ok (put16 x).
Proof.
  repeat constructor; unfold u8, wrap8; apply Z.mod_pos_bound; lia.
Qed.

Lemma put16_length x : length (put16 x) = 2%nat.
Proof. reflexivity. Qed.

Lemma be16_u16 h l p : u8 h -> u8 l -> exists x, be16 (h :: l :: p) = Ok x /\ u16 x.
Proof.
  intros Hh Hl. eexists. split; [reflexivity|].
  rewrite lor_shift_add by done. unfold u8, u16 in *. lia.
Qed.

(** ** Lists *)
Lemma foldl_concat {A B} (f : A -> list B) l b :
  foldl (fun b x => b ++ f x) b l = b ++ concat (map f l).
Proof.
  revert b. induction l as [|x l IH]; intros b; cbn [foldl map concat]; [by rewrite app_nil_r|].
  by rewrite IH, app_assoc.
Qed.

Lemma concat_length_ge {A} (enc : A -> list Z) xs :
  (forall x, x ∈ xs -> enc x <> []) -> (length xs <= length (concat (map enc xs)))%nat.
Proof.
  induction xs as [|x xs IH]; intros H; simpl; [lia|].
  rewrite length_app. specialize (H x ltac:(set_solver)) as Hx.
  destruct (enc x); [done|]. simpl. specialize (IH ltac:(set_solver)). lia.
Qed.

Lemma elem_of_concat {A} (x : A) ls : x ∈ concat ls <-> exists l, l ∈ ls /\ x ∈ l.
Proof.
  rewrite list_elem_of_In, in_concat. split; intros (l & H1 & H2); exists l;
    rewrite ?list_elem_of_In in *; done.
Qed.

(** ** Slices *)
Lemma slice_from_app p q i : i = zlen p -> slice_from (p ++ q) i = Ok q.
Proof.
  intros ->. unfold slice_from. rewrite zlen_app.
  pose proof (zlen_nonneg p). pose proof (zlen_nonneg q). zdec. simpl.
  by rewrite drop_app_length' by (unfold zlen; lia).
Qed.

Lemma slice_to_app p q i : i = zlen p -> slice_to (p ++ q) i = Ok p.
Proof.
  intros ->. unfold slice_to. rewrite zlen_app.
  pose proof (zlen_nonneg p). pose proof (zlen_nonneg q). zdec. simpl.
  by rewrite take_app_length' by (unfold zlen; lia).
Qed.

Lemma slice_from_le p i :
  0 <= i <= zlen p -> slice_from p i = Ok (drop (Z.to_nat i) p).
Proof. intros H. unfold slice_from. by zdec. Qed.

Lemma slice_to_le p i :
  0 <= i <= zlen p -> slice_to p i = Ok (take (Z.to_nat i) p).
Proof. intros H. unfold slice_to. by zdec. Qed.

Lemma idx_lt p i :
  0 <= i < zlen p -> exists b, idx p i = Ok b /\ p !! Z.to_nat i = Some b.
Proof.
  intros H. unfold idx. zdec.
  destruct (lookup_lt_is_Some_2 p (Z.to_nat i)) as [b Hb]; [unfold zlen in H; lia|].
  exists b. by rewrite Hb.
Qed.

Lemma zlen_drop {A} (p : list A) n :
  zlen (drop n p) = Z.max 0 (zlen p - Z.of_nat n).
Proof. unfold zlen. rewrite length_drop. lia. Qed.

Lemma zlen_take {A} (p : list A) n :
  zlen (take n p) = Z.min (zlen p) (Z.of_nat n).
Proof. unfold zlen. rewrite length_take. lia. Qed.

Lemma bytes_ok_drop p n : bytes_ok p -> bytes_ok (drop n p).
Proof. apply Forall_drop. Qed.

Lemma bytes_ok_take p n : bytes_ok p -> bytes_ok (take n p).
Proof. apply Forall_take. Qed.

Lemma bytes_ok_app p q : bytes_ok (p ++ q) <-> bytes_ok p /\ bytes_ok q.
Proof. apply Forall_app. Qed.

Lemma bytes_ok_lookup p i b : bytes_ok p -> p !! i = Some b -> u8 b.
Proof. intros H Hb. by eapply Forall_lookup_1. Qed.

#[global] Hint Resolve bytes_ok_drop bytes_ok_take put16_ok : wire.

Lemma Forall_snoc_2 {A} (P : A -> Prop) l x : Forall P l -> P x -> Forall P (l ++ [x]).
Proof. intros Hl Hx. apply Forall_app. by split; [|constructor]. Qed.

(** ** uint16 loops *)
Lemma range_u16_spec fuel n e :
  0 <= n -> e < 65535 -> Z.max 0 (e - n + 1) < Z.of_nat fuel ->
  range_u16 fuel n e = Some (seqZ n (e - n + 1)).
Proof.
  revert n. induction fuel as [|f IH]; intros n Hn He Hf; simpl.
  - lia.
  - case_if; zbool.
    + unfold wrap16. rewrite Z.mod_small by lia.
      rewrite IH by lia. rewrite (seqZ_cons n) by lia.
      do 2 f_equal. unfold Z.succ. f_equal; lia.
    + by rewrite seqZ_nil by lia.
Qed.

(** A loop whose bound is below 65535 terminates and visits the range. *)
Lemma net_range_spec s e :
  0 <= s -> e < 65535 -> net_range s e = Some (seqZ s (e - s + 1)).
Proof. intros. apply range_u16_spec; lia. Qed.

(** A loop whose bound is 65535 never terminates: the counter wraps to 0. *)
Lemma range_u16_diverges fuel n :
  0 <= n < 65536 -> range_u16 fuel n 65535 = None.
Proof.
  revert n. induction fuel as [|f IH]; intros n Hn; [done|]. simpl. zdec.
  rewrite IH; [done|]. unfold wrap16. apply Z.mod_pos_bound. lia.
Qed.

Lemma net_range_diverges s : 0 <= s < 65536 -> net_range s 65535 = None.
Proof. apply range_u16_diverges. Qed.

Lemma elem_of_net_range s e l n :
  0 <= s -> e < 65535 -> net_range s e = Some l -> n ∈ l <-> s <= n <= e.
Proof.
  intros Hs He. rewrite net_range_spec by done. intros [= <-].
  rewrite elem_of_seqZ. lia.
Qed.

(** ** String order *)
Lemma bytes_compare_eq a b : bytes_compare a b = Eq <-> a = b.
Proof.
  revert b. induction a as [|x a IH]; intros [|y b]; simpl; try done.
  destruct (Z.compare_spec x y) as [->|?|?].
  - rewrite IH. naive_solver.
  - split; [done|]. intros [=]. lia.
  - split; [done|]. intros [=]. lia.
Qed.

Lemma bytes_compare_antisym a b : bytes_compare b a = CompOpp (bytes_compare a b).
Proof.
  revert b. induction a as [|x a IH]; intros [|y b]; simpl; try done.
  rewrite (Z.compare_antisym x y). destruct (x ?= y)%Z; simpl; auto.
Qed.

Lemma bytes_compare_trans a b c :
  bytes_compare a b = Lt -> bytes_compare b c = Lt -> bytes_compare a c = Lt.
Proof.
  revert b c. induction a as [|x a IH]; intros [|y b] [|z c]; simpl; try done.
  destruct (Z.compare_spec x y), (Z.compare_spec y z); intros; try done; subst.
  - rewrite Z.compare_refl. eauto.
  - by rewrite (proj2 (Z.compare_lt_iff _ _)).
  - by rewrite (proj2 (Z.compare_lt_iff _ _)).
  - rewrite (proj2 (Z.compare_lt_iff x z)); [done|lia].
Qed.

(** ** Partial-correctness predicate on outcomes

    [safe Q r]: [r] is not a panic, and a value it returns satisfies [Q]. *)
Definition safe {A} (Q : A -> Prop) (r : res A) : Prop :=
  match r with Ok a => Q a | Err _ => True | Panic => False end.

Lemma safe_bind {A B} (P : A -> Prop) (Q : B -> Prop) (r : res A) (f : A -> res B) :
  safe P r -> (forall a, P a -> safe Q (f a)) -> safe Q (r ≫= f).
Proof. destruct r; simpl; eauto. Qed.

Lemma safe_mono {A} (P Q : A -> Prop) r :
  safe P r -> (forall a, P a -> Q a) -> safe Q r.
Proof. destruct r; simpl; eauto. Qed.

Lemma safe_wrap {A} (Q : A -> Prop) fmt args r :
  safe Q r -> safe Q (wrap_err fmt args r).
Proof. by destruct r. Qed.

Lemma safe_not_panic {A} (Q : A -> Prop) r : safe Q r -> r <> Panic.
Proof. by destruct r. Qed.

Lemma safe_idx p i : bytes_ok p -> 0 <= i < zlen p -> safe u8 (idx p i).
Proof.
  intros Hp Hi. destruct (idx_lt p i Hi) as (b & -> & Hb). simpl.
  eapply bytes_ok_lookup; eauto.
Qed.

Lemma safe_slice_from p i :
  bytes_ok p -> 0 <= i <= zlen p ->
  safe (fun q => bytes_ok q /\ zlen q = zlen p - i) (slice_from p i).
Proof.
  intros Hp Hi. rewrite slice_from_le by done. simpl.
  split; [auto with wire|]. rewrite zlen_drop. lia.
Qed.

Lemma safe_slice_to p i :
  bytes_ok p -> 0 <= i <= zlen p ->
  safe (fun q => bytes_ok q /\ zlen q = i) (slice_to p i).
Proof.
  intros Hp Hi. rewrite slice_to_le by done. simpl.
  split; [auto with wire|]. rewrite zlen_take. lia.
Qed.

Lemma safe_slice p i j :
  bytes_ok p -> 0 <= i <= j -> j <= zlen p ->
  safe (fun q => bytes_ok q /\ zlen q = j - i) (slice p i j).
Proof.
  intros Hp Hi Hj. unfold slice. zdec. simpl.
  split; [auto with wire|]. rewrite zlen_take, zlen_drop. lia.
Qed.

Lemma safe_be16 p : bytes_ok p -> 2 <= zlen p -> safe u16 (be16 p).
Proof.
  intros Hp Hl. destruct p as [|h [|l p]]; [unfold zlen in Hl; simpl in Hl; lia..|].
  apply Forall_cons in Hp as [Hh Hp]. apply Forall_cons in Hp as [Hl' _].
  destruct (be16_u16 h l p Hh Hl') as (x & -> & Hx). done.
Qed.

(** A 16-bit field [binary.BigEndian.Uint16(p[i:j])]. *)
Lemma safe_field p i j :
  bytes_ok p -> 0 <= i -> i + 2 <= j -> j <= zlen p -> safe u16 (slice p i j ≫= be16).
Proof.
  intros. eapply safe_bind; [apply safe_slice; [done|lia|lia]|].
  intros q [? ?]. apply safe_be16; [done|lia].
Qed.

Lemma safe_field_to p j :
  bytes_ok p -> 2 <= j <= zlen p -> safe u16 (slice_to p j ≫= be16).
Proof.
  intros. eapply safe_bind; [apply safe_slice_to; [done|lia]|].
  intros q [? ?]. apply safe_be16; [done|lia].
Qed.

(** Linear arithmetic that knows the widths. *)
Ltac width_lia := unfold u8, u16, i16 in *; lia.

(** One step of a [safe] proof about slice-handling code: split a bind whose
    head is a slice primitive, or a test. *)
Ltac safe_step :=
  match goal with
  | |- safe _ (mbind _ (mbind be16 (slice _ _ _))) =>
      eapply safe_bind; [apply safe_field; [auto with wire|try width_lia..]|intros ? ?]
  | |- safe _ (mbind _ (mbind be16 (slice_to _ _))) =>
      eapply safe_bind; [apply safe_field_to; [auto with wire|try width_lia]|intros ? ?]
  | |- safe _ (mbind _ (idx _ _)) =>
      eapply safe_bind; [apply safe_idx; [auto with wire|try width_lia]|intros ? ?]
  | |- safe _ (mbind _ (slice_from _ _)) =>
      eapply safe_bind; [apply safe_slice_from; [auto with wire|try width_lia]|intros ? [? ?]]
  | |- safe _ (mbind _ (slice_to _ _)) =>
      eapply safe_bind; [apply safe_slice_to; [auto with wire|try width_lia]|intros ? [? ?]]
  | |- safe _ (mbind _ (slice _ _ _)) =>
      eapply safe_bind; [apply safe_slice; [auto with wire|try width_lia|try width_lia]|intros ? [? ?]]
  | |- safe _ (mbind _ (be16 _)) =>
      eapply safe_bind; [apply safe_be16; [auto with wire|try width_lia]|intros ? ?]
  | |- safe _ (if ?b then _ else _) =>
      let E := fresh "E" in destruct b eqn:E; zbool
  | |- safe _ (Err _) => exact I
  end.

(** ** Evaluating slices of explicit lists *)
Lemma idx_0 x p : idx (x :: p) 0 = Ok x.
Proof. reflexivity. Qed.

Lemma idx_pos x p i : 0 < i -> idx (x :: p) i = idx p (i - 1).
Proof.
  intros Hi. unfold idx. zdec.
  replace (Z.to_nat i) with (S (Z.to_nat (i - 1))) by lia. reflexivity.
Qed.

Lemma slice_from_0 p : slice_from p 0 = Ok p.
Proof. unfold slice_from. pose proof (zlen_nonneg p). by zdec. Qed.

Lemma slice_from_pos x p i : 0 < i -> slice_from (x :: p) i = slice_from p (i - 1).
Proof.
  intros Hi. unfold slice_from. rewrite zlen_cons.
  replace (Z.to_nat i) with (S (Z.to_nat (i - 1))) by lia. simpl.
  destruct (i <=? zlen p + 1) eqn:E; zbool; zdec; reflexivity.
Qed.

Lemma slice_to_0 p : slice_to p 0 = Ok [].
Proof. unfold slice_to. pose proof (zlen_nonneg p). by zdec. Qed.

Lemma slice_to_pos x p i :
  0 < i -> slice_to (x :: p) i = q ← slice_to p (i - 1); Ok (x :: q).
Proof.
  intros Hi. unfold slice_to. rewrite zlen_cons.
  replace (Z.to_nat i) with (S (Z.to_nat (i - 1))) by lia. simpl.
  destruct (i <=? zlen p + 1) eqn:E; zbool; zdec; reflexivity.
Qed.

Lemma slice_0 p j : slice p 0 j = slice_to p j.
Proof.
  unfold slice, slice_to. rewrite Z.sub_0_r.
  destruct (0 <=? j) eqn:E; zbool; zdec; reflexivity.
Qed.

Lemma slice_pos x p i j : 0 < i -> slice (x :: p) i j = slice p (i - 1) (j - 1).
Proof.
  intros Hi. unfold slice. rewrite zlen_cons.
  replace (Z.to_nat i) with (S (Z.to_nat (i - 1))) by lia. simpl.
  replace (j - 1 - (i - 1)) with (j - i) by lia.
  destruct (i <=? j) eqn:E, (j <=? zlen p + 1) eqn:E'; zbool; zdec; reflexivity.
Qed.

(** Normalise differences of literals that the lemmas above leave behind. *)
Ltac zconst :=
  repeat match goal with
  | |- context [Z.sub (Z.pos ?a) (Z.pos ?b)] =>
      let v := eval vm_compute in (Z.pos a - Z.pos b) in
      change (Z.pos a - Z.pos b) with v
  end.

(** Evaluate index and slice expressions with literal bounds on lists whose
    first cells are explicit. *)
Ltac go_slices :=
  repeat first
    [ progress simpl
    | rewrite idx_0 | rewrite slice_from_0 | rewrite slice_to_0 | rewrite slice_0
    | rewrite idx_pos by lia; zconst
    | rewrite slice_from_pos by lia; zconst
    | rewrite slice_to_pos by lia; zconst
    | rewrite slice_pos by lia; zconst ].

Lemma fields16 x :
  u16 x -> Z.lor (Z.shiftl (wrap8 (Z.shiftr x 8)) 8) (wrap8 (Z.land x 255)) = x.
Proof. intros Hx. pose proof (be16_put16 x [] Hx) as H. by injection H. Qed.

(** Evaluate a fixed-size big-endian field layout. *)
Ltac parse_fields :=
  go_slices;
  rewrite ?fields16 by (first [eassumption | unfold u16 in *; lia]).
