(* ===== verification/Wtacc.v ===== *)
(** * The write accumulator ([aurp/wtacc.go])

    Every [WriteTo] of package aurp writes through a [wtacc]: it counts the
    bytes written, remembers the first error and stops writing after it.  The
    destination is always a [bytes.Buffer] in this program (see [send] and
    [aurpPacketSize] in package router), whose [Write] appends and never
    fails. *)
From S2P Require Import Prelude.

(** What [WriteTo(w)] does to the buffer, and the (n, err) it returns. *)
Abbreviation WriterTo := (list Z -> list Z * (Z * option goerr)).

Record wtacc := MkAcc { acc_w : list Z; acc_n : Z; acc_err : option goerr }.

Definition acc (w : list Z) : wtacc := MkAcc w 0 None.

Definition acc_ret (a : wtacc) : list Z * (Z * option goerr) :=
  (acc_w a, (acc_n a, acc_err a)).

(** [bytes.Buffer.Write]: appends, returns [len(b), nil]. *)
Definition buffer_write (w b : list Z) : list Z * (Z * option goerr) :=
  (w ++ b, (zlen b, None)).

Definition acc_write (b : list Z) (a : wtacc) : wtacc :=
  match acc_err a with
  | Some _ => a
  | None =>
      let '(w', (n, err)) := buffer_write (acc_w a) b in
      MkAcc w' (acc_n a + n) err
  end.

Definition write8 (x : Z) (a : wtacc) : wtacc := acc_write [x] a.

Definition write16 (x : Z) (a : wtacc) : wtacc := acc_write (put16 x) a.

Definition writeTo (wt : WriterTo) (a : wtacc) : wtacc :=
  match acc_err a with
  | Some _ => a
  | None =>
      let '(w', (n, err)) := wt (acc_w a) in
      MkAcc w' (acc_n a + n) err
  end.

(** [return 0, err] before anything is written. *)
Definition wt_fail (e : goerr) : WriterTo := fun w => (w, (0, Some e)).

(** [a.step1(); a.step2(); ...] in source order. *)
Notation "a |> f" := (f a) (at level 62, left associativity, only parsing) : go_scope.

(** ** Lemmas *)

(** The writer appends exactly [out], counts it and reports no error. *)
Definition emits (wt : WriterTo) (out : list Z) : Prop :=
  forall w, wt w = (w ++ out, (zlen out, None)).

(** An accumulator on [w] that has written [out] without error. *)
Definition acc_at (w out : list Z) : wtacc := MkAcc (w ++ out) (zlen out) None.

Lemma acc_start w : acc w = acc_at w [].
Proof. unfold acc_at. by rewrite app_nil_r. Qed.

Lemma acc_write_at b w out : acc_write b (acc_at w out) = acc_at w (out ++ b).
Proof. unfold acc_write, acc_at. simpl. by rewrite zlen_app, app_assoc. Qed.

Lemma write8_at x w out : write8 x (acc_at w out) = acc_at w (out ++ [x]).
Proof. apply acc_write_at. Qed.

Lemma write16_at x w out : write16 x (acc_at w out) = acc_at w (out ++ put16 x).
Proof. apply acc_write_at. Qed.

Lemma writeTo_at wt b w out :
  emits wt b -> writeTo wt (acc_at w out) = acc_at w (out ++ b).
Proof.
  intros H. unfold writeTo, acc_at. simpl. rewrite H. by rewrite zlen_app, app_assoc.
Qed.

Lemma acc_ret_at w out : acc_ret (acc_at w out) = (w ++ out, (zlen out, None)).
Proof. reflexivity. Qed.

Lemma acc_n_at w out : acc_n (acc_at w out) = zlen out.
Proof. reflexivity. Qed.

Lemma fold_write_at {A} (f : wtacc -> A -> wtacc) (enc : A -> list Z) xs w out :
  (forall x w out, x ∈ xs -> f (acc_at w out) x = acc_at w (out ++ enc x)) ->
  foldl f (acc_at w out) xs = acc_at w (out ++ concat (map enc xs)).
Proof.
  revert out. induction xs as [|x xs IH]; intros out H; simpl.
  - by rewrite app_nil_r.
  - rewrite H by set_solver. rewrite IH by set_solver. by rewrite app_assoc.
Qed.

Lemma acc_write_err b w n e :
  acc_write b (MkAcc w n (Some e)) = MkAcc w n (Some e).
Proof. reflexivity. Qed.

Create Rewrite HintDb accum.
#[global] Hint Rewrite acc_start acc_write_at write8_at write16_at acc_ret_at acc_n_at : accum.

(** Run an error-free writer symbolically. *)
Ltac run_writer :=
  autorewrite with accum;
  repeat (rewrite writeTo_at with (b := _) by eassumption; autorewrite with accum).
