(* ===== verification/AurpHeaders.v ===== *)
(** * AURP packet headers ([aurp/domain.go], [aurp/transport.go], [aurp/aurp.go])

    Domain identifiers, the domain header, the AURP-Tr header and the AURP
    header, with their encoders and parsers, and the sequence-number
    successor and predecessor. *)
From S2P Require Import Prelude Wtacc.
Local Open Scope go_scope.

(** ** Domain identifiers *)

(** The two implementations of the interface: [NullDomainIdentifier] and
    [IPDomainIdentifier] (a [net.IP]). *)
Inductive DomainIdentifier :=
| NullDomainIdentifier
| IPDomainIdentifier (ip : list Z).

#[global] Instance DomainIdentifier_eq_dec : EqDecision DomainIdentifier.
Proof. solve_decision. Defined.

(** [net.IP.To4]: a 4-byte slice is itself, a 16-byte IPv4-mapped one its last
    four bytes, anything else nil. *)
Definition To4 (ip : list Z) : option (list Z) :=
  if zlen ip =? 4 then Some ip
  else if (zlen ip =? 16) && bool_decide (take 10 ip = replicate 10 0)
          && bool_decide (take 2 (drop 10 ip) = [255; 255])
  then Some (drop 12 ip) else None.

Definition AuthorityNull : Z := 0.
Definition AuthorityIP : Z := 1.

Definition DomainIdentifier_WriteTo (di : DomainIdentifier) : WriterTo :=
  match di with
  | NullDomainIdentifier => fun w => buffer_write w [0x01; 0x00]
  | IPDomainIdentifier i =>
      match To4 i with
      | None => wt_fail (Errorf "need v4 IP address, got %v" [AStr i])
      | Some v4 => fun w =>
          acc w |> acc_write [0x07; 0x01; 0x00; 0x00] |> acc_write v4 |> acc_ret
      end
  end.

Definition parseDomainIdentifier (b : list Z) : res (DomainIdentifier * list Z) :=
  if zlen b <? 2 then
    Err (Errorf "insufficient input length %d for domain identifier" [AInt (zlen b)])
  else
  lf ← idx b 0;
  if zlen b <? 1 + lf then
    Err (Errorf "input length %d < 1+specified length %d in domain identifier"
           [AInt (zlen b); AInt lf])
  else
  authority ← idx b 1;
  if authority =? AuthorityNull then
    rest ← slice_from b 2;
    Ok (NullDomainIdentifier, rest)
  else if authority =? AuthorityIP then
    if negb (lf =? 7) then
      Err (Errorf "incorrect length %d for IP domain identifier" [AInt lf])
    else
    ip ← slice b 4 8;
    rest ← slice_from b 8;
    Ok (IPDomainIdentifier ip, rest)
  else
    Err (Errorf "unknown domain identifier authority %d" [AInt authority]).

(** ** Domain header *)

Definition PacketTypeAppleTalk : Z := 0x0002.
Definition PacketTypeRouting : Z := 0x0003.

Record DomainHeader := {
  DestinationDI : DomainIdentifier;
  SourceDI : DomainIdentifier;
  Version : Z;
  Reserved : Z;
  PacketType : Z }.

Definition DomainHeader_WriteTo (dh : DomainHeader) : WriterTo := fun w =>
  acc w
  |> writeTo (DomainIdentifier_WriteTo (DestinationDI dh))
  |> writeTo (DomainIdentifier_WriteTo (SourceDI dh))
  |> write16 (Version dh)
  |> write16 (Reserved dh)
  |> write16 (PacketType dh)
  |> acc_ret.

Definition ParseDomainHeader (b : list Z) : res (DomainHeader * list Z) :=
  '(ddi, b) ← parseDomainIdentifier b;
  '(sdi, b) ← parseDomainIdentifier b;
  if zlen b <? 6 then
    Err (Errorf "insufficient remaining input length %d < 6" [AInt (zlen b)])
  else
  v ← slice_to b 2 ≫= be16;
  r ← slice b 2 4 ≫= be16;
  pt ← slice b 4 6 ≫= be16;
  rest ← slice_from b 6;
  Ok ({| DestinationDI := ddi; SourceDI := sdi; Version := v;
         Reserved := r; PacketType := pt |}, rest).

(** ** AURP-Tr header *)

Record TrHeader := {
  TrDomainHeader : DomainHeader;
  ConnectionID : Z;
  Sequence : Z }.

Definition TrHeader_WriteTo (th : TrHeader) : WriterTo := fun w =>
  acc w
  |> writeTo (DomainHeader_WriteTo (TrDomainHeader th))
  |> write16 (ConnectionID th)
  |> write16 (Sequence th)
  |> acc_ret.

(** The parser leaves the embedded domain header for [ParsePacket] to fill;
    here it takes it as an argument. *)
Definition parseTrHeader (dh : DomainHeader) (p : list Z) : res (TrHeader * list Z) :=
  if zlen p <? 4 then
    Err (Errorf "insufficient input length %d for tr header" [AInt (zlen p)])
  else
  c ← slice_to p 2 ≫= be16;
  s ← slice p 2 4 ≫= be16;
  rest ← slice_from p 4;
  Ok ({| TrDomainHeader := dh; ConnectionID := c; Sequence := s |}, rest).

(** ** AURP header *)

Definition CmdCodeRIReq : Z := 0x0001.
Definition CmdCodeRIRsp : Z := 0x0002.
Definition CmdCodeRIAck : Z := 0x0003.
Definition CmdCodeRIUpd : Z := 0x0004.
Definition CmdCodeRD : Z := 0x0005.
Definition CmdCodeZoneReq : Z := 0x0006.
Definition CmdCodeZoneRsp : Z := 0x0007.
Definition CmdCodeOpenReq : Z := 0x0008.
Definition CmdCodeOpenRsp : Z := 0x0009.
Definition CmdCodeTickle : Z := 0x000e.
Definition CmdCodeTickleAck : Z := 0x000f.

Definition RoutingFlagSUINA : Z := 0x4000.
Definition RoutingFlagSUINDOrNRC : Z := 0x2000.
Definition RoutingFlagSUINDC : Z := 0x1000.
Definition RoutingFlagSUIZC : Z := 0x0800.
Definition RoutingFlagAllSUI : Z := 0x7800.
Definition RoutingFlagLast : Z := 0x8000.
Definition RoutingFlagRemappingActive : Z := 0x4000.
Definition RoutingFlagHopCountReduction : Z := 0x2000.
Definition RoutingFlagSendZoneInfo : Z := 0x4000.

Record Header := {
  HTrHeader : TrHeader;
  CommandCode : Z;
  Flags : Z }.

Definition Header_WriteTo (h : Header) : WriterTo := fun w =>
  acc w
  |> writeTo (TrHeader_WriteTo (HTrHeader h))
  |> write16 (CommandCode h)
  |> write16 (Flags h)
  |> acc_ret.

Definition parseHeader (tr : TrHeader) (p : list Z) : res (Header * list Z) :=
  if zlen p <? 4 then
    Err (Errorf "insufficient input length %d for header" [AInt (zlen p)])
  else
  c ← slice_to p 2 ≫= be16;
  f ← slice p 2 4 ≫= be16;
  rest ← slice_from p 4;
  Ok ({| HTrHeader := tr; CommandCode := c; Flags := f |}, rest).

#[global] Instance DomainHeader_eq_dec : EqDecision DomainHeader.
Proof. solve_decision. Defined.
#[global] Instance TrHeader_eq_dec : EqDecision TrHeader.
Proof. solve_decision. Defined.
#[global] Instance Header_eq_dec : EqDecision Header.
Proof. solve_decision. Defined.

(** ** Sequence numbers *)

(** uint16 arithmetic: [n++] and [n--] wrap. *)
Definition Succ (n : Z) : Z :=
  let n := wrap16 (n + 1) in
  if n =? 0 then wrap16 (n + 1) else n.

Definition Pred (n : Z) : Z :=
  let n := wrap16 (n - 1) in
  if n =? 0 then wrap16 (n - 1) else n.

(** ** Reference encodings and well-formedness *)

Definition enc_di (di : DomainIdentifier) : list Z :=
  match di with
  | NullDomainIdentifier => [1; 0]
  | IPDomainIdentifier ip => [7; 1; 0; 0] ++ ip
  end.

(** Identifiers as the program holds them: a 4-byte IP. *)
Definition di_wf (di : DomainIdentifier) : Prop :=
  match di with
  | NullDomainIdentifier => True
  | IPDomainIdentifier ip => length ip = 4%nat /\ bytes_ok ip
  end.

Definition enc_dh (dh : DomainHeader) : list Z :=
  enc_di (DestinationDI dh) ++ enc_di (SourceDI dh)
  ++ put16 (Version dh) ++ put16 (Reserved dh) ++ put16 (PacketType dh).

Definition dh_wf (dh : DomainHeader) : Prop :=
  di_wf (DestinationDI dh) /\ di_wf (SourceDI dh)
  /\ u16 (Version dh) /\ u16 (Reserved dh) /\ u16 (PacketType dh).

Definition enc_tr (th : TrHeader) : list Z :=
  enc_dh (TrDomainHeader th) ++ put16 (ConnectionID th) ++ put16 (Sequence th).

Definition tr_wf (th : TrHeader) : Prop :=
  dh_wf (TrDomainHeader th) /\ u16 (ConnectionID th) /\ u16 (Sequence th).

Definition enc_hdr (h : Header) : list Z :=
  enc_tr (HTrHeader h) ++ put16 (CommandCode h) ++ put16 (Flags h).

Definition hdr_wf (h : Header) : Prop :=
  tr_wf (HTrHeader h) /\ u16 (CommandCode h) /\ u16 (Flags h).

(** ** Encoders append the reference encoding *)

Lemma To4_4 ip : length ip = 4%nat -> To4 ip = Some ip.
Proof. intros H. unfold To4, zlen. by rewrite H. Qed.

Lemma di_emits di : di_wf di -> emits (DomainIdentifier_WriteTo di) (enc_di di).
Proof.
  destruct di as [|ip]; intros Hwf w; simpl; [done|].
  destruct Hwf as [Hlen _]. rewrite To4_4 by done. autorewrite with accum.
  done.
Qed.

Lemma dh_emits dh : dh_wf dh -> emits (DomainHeader_WriteTo dh) (enc_dh dh).
Proof.
  intros (Hd & Hs & _) w. apply di_emits in Hd, Hs.
  unfold DomainHeader_WriteTo. run_writer. unfold enc_dh. by rewrite <- !app_assoc.
Qed.

Lemma tr_emits th : tr_wf th -> emits (TrHeader_WriteTo th) (enc_tr th).
Proof.
  intros (Hd & _) w. apply dh_emits in Hd.
  unfold TrHeader_WriteTo. run_writer. unfold enc_tr. by rewrite <- !app_assoc.
Qed.

Lemma hdr_emits h : hdr_wf h -> emits (Header_WriteTo h) (enc_hdr h).
Proof.
  intros (Ht & _) w. apply tr_emits in Ht.
  unfold Header_WriteTo. run_writer. unfold enc_hdr. by rewrite <- !app_assoc.
Qed.

(** ** Parsers invert the reference encoding *)

Lemma parse_di_enc di rest :
  di_wf di -> parseDomainIdentifier (enc_di di ++ rest) = Ok (di, rest).
Proof.
  pose proof (zlen_nonneg rest).
  destruct di as [|ip]; intros Hwf; unfold parseDomainIdentifier.
  - simpl. autorewrite with wire. zdec. go_slices. zdec. go_slices. done.
  - destruct Hwf as [Hlen Hok].
    destruct ip as [|a [|b [|c [|d [|? ?]]]]]; try done. clear Hlen.
    simpl. autorewrite with wire. zdec. go_slices. zdec. go_slices. done.
Qed.

Lemma parse_dh_enc dh rest :
  dh_wf dh -> ParseDomainHeader (enc_dh dh ++ rest) = Ok (dh, rest).
Proof.
  intros (Hd & Hs & Hv & Hr & Hp). pose proof (zlen_nonneg rest).
  unfold ParseDomainHeader, enc_dh. rewrite <- !app_assoc.
  rewrite parse_di_enc by done. simpl. rewrite parse_di_enc by done. simpl.
  autorewrite with wire. zdec. parse_fields. by destruct dh.
Qed.

Lemma parse_tr_enc th rest :
  tr_wf th ->
  parseTrHeader (TrDomainHeader th)
    (put16 (ConnectionID th) ++ put16 (Sequence th) ++ rest) = Ok (th, rest).
Proof.
  intros (_ & Hc & Hs). pose proof (zlen_nonneg rest). unfold parseTrHeader.
  autorewrite with wire. zdec. parse_fields. by destruct th.
Qed.

Lemma parse_hdr_enc h rest :
  hdr_wf h ->
  parseHeader (HTrHeader h)
    (put16 (CommandCode h) ++ put16 (Flags h) ++ rest) = Ok (h, rest).
Proof.
  intros (_ & Hc & Hf). pose proof (zlen_nonneg rest). unfold parseHeader.
  autorewrite with wire. zdec. parse_fields. by destruct h.
Qed.

(** ** Parsers never panic, and what they return is well formed *)

Lemma parse_di_safe b :
  bytes_ok b ->
  safe (fun '(di, rest) => di_wf di /\ bytes_ok rest) (parseDomainIdentifier b).
Proof.
  intros Hb. unfold parseDomainIdentifier, AuthorityNull, AuthorityIP.
  repeat safe_step; simpl; unfold u8 in *; try done.
  split; [split|]; [|done..]. unfold zlen in *. lia.
Qed.

Lemma parse_dh_safe b :
  bytes_ok b ->
  safe (fun '(dh, rest) => dh_wf dh /\ bytes_ok rest) (ParseDomainHeader b).
Proof.
  intros Hb. unfold ParseDomainHeader.
  eapply safe_bind; [by apply parse_di_safe|]. intros [ddi b1] [Hd Hb1].
  eapply safe_bind; [by apply parse_di_safe|]. intros [sdi b2] [Hs Hb2].
  repeat safe_step. simpl. by unfold dh_wf; simpl; split_and!.
Qed.

Lemma parse_tr_safe dh b :
  dh_wf dh -> bytes_ok b ->
  safe (fun '(th, rest) => tr_wf th /\ TrDomainHeader th = dh /\ bytes_ok rest) (parseTrHeader dh b).
Proof.
  intros Hdh Hb. unfold parseTrHeader. repeat safe_step. simpl.
  by unfold tr_wf; simpl; split_and!.
Qed.

Lemma parse_hdr_safe tr b :
  tr_wf tr -> bytes_ok b ->
  safe (fun '(h, rest) => hdr_wf h /\ HTrHeader h = tr /\ bytes_ok rest) (parseHeader tr b).
Proof.
  intros Htr Hb. unfold parseHeader. repeat safe_step. simpl.
  by unfold hdr_wf; simpl; split_and!.
Qed.

(** ** Sequence-number arithmetic *)

Lemma Succ_range n : u16 n -> 1 <= Succ n < 65536.
Proof.
  unfold u16, Succ, wrap16. intros Hn.
  destruct (decide (n = 65535)) as [->|]; [by vm_compute|].
  rewrite (Z.mod_small (n + 1)) by lia. zdec. lia.
Qed.

Lemma Pred_range n : u16 n -> 1 <= Pred n < 65536.
Proof.
  unfold u16, Pred, wrap16. intros Hn.
  destruct (decide (n = 0)) as [->|]; [by vm_compute|].
  destruct (decide (n = 1)) as [->|]; [by vm_compute|].
  rewrite (Z.mod_small (n - 1)) by lia. zdec. lia.
Qed.
