(* ===== verification/AurpTuples.v ===== *)
(** * AURP payload tuples ([aurp/routing_info.go], [aurp/open.go])

    Network tuples (RI-Rsp, GZN-Rsp), event tuples (RI-Upd) and option tuples
    (Open-Req, Open-Rsp): data, encoders, parsers, the parsing loops, and the
    lemmas that relate them. *)
From S2P Require Import Prelude Wtacc.
Local Open Scope go_scope.

(** ** The [for len(p) > 0] parsing loop

    [fmt] is the format of the error that wraps a failing element; the fuel is
    the input length, and running out of it is reported as a panic, so that a
    proof of [safe] is also a proof of termination. *)
Fixpoint parse_loop {A} (fmt : string) (one : list Z -> res (A * list Z))
    (fuel : nat) (n : list A) (p : list Z) : res (list A) :=
  if 0 <? zlen p then
    match fuel with
    | O => Panic
    | S f =>
        '(t, nextp) ← wrap_err fmt [AInt (zlen n)] (one p);
        parse_loop fmt one f (n ++ [t]) nextp
    end
  else Ok n.

(** ** Network tuples *)

Record NetworkTuple := {
  nt_Extended : bool;
  nt_RangeStart : Z;
  nt_Distance : Z;
  nt_RangeEnd : Z }.

Definition NetworkTuple_WriteTo (nt : NetworkTuple) : WriterTo := fun w =>
  let a := acc w |> write16 (nt_RangeStart nt) in
  if negb (nt_Extended nt) then
    a |> write8 (nt_Distance nt) |> acc_ret
  else
    a |> write8 (Z.lor (nt_Distance nt) 0x80)
      |> write16 (nt_RangeEnd nt)
      |> write8 0x00
      |> acc_ret.

Definition NetworkTuples_WriteTo (n : list NetworkTuple) : WriterTo := fun w =>
  foldl (fun a nt => writeTo (NetworkTuple_WriteTo nt) a) (acc w) n |> acc_ret.

Definition parseNetworkTuple (p : list Z) : res (NetworkTuple * list Z) :=
  if zlen p <? 3 then
    Err (Errorf "insufficient input length %d for network tuple" [AInt (zlen p)])
  else
  start ← slice_to p 2 ≫= be16;
  d ← idx p 2;
  let extended := negb (Z.land d 0x80 =? 0) in
  if negb extended then
    rest ← slice_from p 3;
    Ok ({| nt_Extended := extended; nt_RangeStart := start;
           nt_Distance := d; nt_RangeEnd := start |}, rest)
  else
  if zlen p <? 6 then
    Err (Errorf "insufficient input length %d for extended network tuple" [AInt (zlen p)])
  else
  e ← slice p 3 5 ≫= be16;
  rest ← slice_from p 6;
  Ok ({| nt_Extended := extended; nt_RangeStart := start;
         nt_Distance := Z.ldiff d 0x80; nt_RangeEnd := e |}, rest).

Definition parseNetworkTuples (p : list Z) : res (list NetworkTuple) :=
  parse_loop "parsing network tuple %d: %w" parseNetworkTuple (length p) [] p.

(** ** Event tuples *)

Definition EventCodeNull : Z := 0.
Definition EventCodeNA : Z := 1.
Definition EventCodeND : Z := 2.
Definition EventCodeNRC : Z := 3.
Definition EventCodeNDC : Z := 4.
Definition EventCodeZC : Z := 5.

Record EventTuple := {
  et_EventCode : Z;
  et_Extended : bool;
  et_RangeStart : Z;
  et_Distance : Z;
  et_RangeEnd : Z }.

(** The zero value [EventTuple{}] with an event code. *)
Definition zero_event (code : Z) : EventTuple :=
  {| et_EventCode := code; et_Extended := false; et_RangeStart := 0;
     et_Distance := 0; et_RangeEnd := 0 |}.

Definition EventTuple_WriteTo (et : EventTuple) : WriterTo := fun w =>
  let a := acc w |> write8 (et_EventCode et) in
  if et_EventCode et =? EventCodeNull then a |> acc_ret
  else
  let a := a |> write16 (et_RangeStart et) in
  if negb (et_Extended et) then
    a |> write8 (et_Distance et) |> acc_ret
  else
    a |> write8 (Z.lor (et_Distance et) 0x80)
      |> write16 (et_RangeEnd et)
      |> acc_ret.

Definition EventTuples_WriteTo (e : list EventTuple) : WriterTo := fun w =>
  foldl (fun a et => writeTo (EventTuple_WriteTo et) a) (acc w) e |> acc_ret.

Definition parseEventTuple (p : list Z) : res (EventTuple * list Z) :=
  if zlen p <? 1 then
    Err (Errorf "insufficient input length %d for any network event tuple" [AInt (zlen p)])
  else
  code ← idx p 0;
  if code =? EventCodeNull then
    rest ← slice_from p 1;
    Ok (zero_event code, rest)
  else
  if zlen p <? 4 then
    Err (Errorf "insufficient input length %d for non-Null network event tuple" [AInt (zlen p)])
  else
  start ← slice p 1 3 ≫= be16;
  d ← idx p 3;
  let extended := negb (Z.land d 0x80 =? 0) in
  if negb extended then
    rest ← slice_from p 4;
    Ok ({| et_EventCode := code; et_Extended := extended; et_RangeStart := start;
           et_Distance := d; et_RangeEnd := start |}, rest)
  else
  if zlen p <? 6 then
    Err (Errorf "insufficient input length %d for extended network event tuple" [AInt (zlen p)])
  else
  e ← slice p 4 6 ≫= be16;
  rest ← slice_from p 6;
  Ok ({| et_EventCode := code; et_Extended := extended; et_RangeStart := start;
         et_Distance := Z.ldiff d 0x80; et_RangeEnd := e |}, rest).

Definition parseEventTuples (p : list Z) : res (list EventTuple) :=
  parse_loop "parsing event tuple %d: %w" parseEventTuple (length p) [] p.

(** ** Option tuples *)

Record OptionTuple := { ot_Type : Z; ot_Data : list Z }.

Definition OptionTypeAuthentication : Z := 0x01.

Definition OptionTuple_WriteTo (ot : OptionTuple) : WriterTo :=
  if 254 <? zlen (ot_Data ot) then
    wt_fail (Errorf "option tuple data too long [%d > 254]" [AInt (zlen (ot_Data ot))])
  else fun w =>
    acc w
    |> acc_write [wrap8 (zlen (ot_Data ot) + 1); ot_Type ot]
    |> acc_write (ot_Data ot)
    |> acc_ret.

Definition Options_WriteTo (o : list OptionTuple) : WriterTo :=
  if 255 <? zlen o then
    wt_fail (Errorf "too many options [%d > 255]" [AInt (zlen o)])
  else fun w =>
    foldl (fun a ot => writeTo (OptionTuple_WriteTo ot) a)
      (acc w |> write8 (wrap8 (zlen o))) o |> acc_ret.

Definition parseOptionTuple (p : list Z) : res (OptionTuple * list Z) :=
  if zlen p <? 2 then
    Err (Errorf "insufficient input length %d for option tuple" [AInt (zlen p)])
  else
  olen ← idx p 0;
  p ← slice_from p 1;
  if olen <? 1 then
    Err (Errorf "invalid option tuple length %d" [AInt olen])
  else
  if zlen p <? olen then
    Err (Errorf "insufficient input for option tuple remainder length %d" [AInt olen])
  else
  ty ← idx p 0;
  data ← slice p 1 olen;
  rest ← slice_from p olen;
  Ok ({| ot_Type := ty; ot_Data := data |}, rest).

(** [for i := range optc]: [i] is the index, [k] the iterations left. *)
Fixpoint parse_option_loop (k : nat) (i : Z) (opts : list OptionTuple) (p : list Z)
    : res (list OptionTuple * list Z) :=
  match k with
  | O => Ok (opts, p)
  | S k =>
      '(ot, np) ← wrap_err "parsing option %d: %w" [AInt i] (parseOptionTuple p);
      parse_option_loop k (i + 1) (opts ++ [ot]) np
  end.

Definition parseOptions (p : list Z) : res (list OptionTuple) :=
  if zlen p <? 1 then
    Err (Errorf "insufficient input length %d for options" [AInt (zlen p)])
  else
  optc ← idx p 0;
  p ← slice_from p 1;
  '(opts, p) ← parse_option_loop (Z.to_nat optc) 0 [] p;
  if negb (zlen p =? 0) then
    Err (Errorf "unexpected trailing option data length %d" [AInt (zlen p)])
  else Ok opts.

#[global] Instance NetworkTuple_eq_dec : EqDecision NetworkTuple.
Proof. solve_decision. Defined.
#[global] Instance EventTuple_eq_dec : EqDecision EventTuple.
Proof. solve_decision. Defined.
#[global] Instance OptionTuple_eq_dec : EqDecision OptionTuple.
Proof. solve_decision. Defined.

(** ** Reference encodings and well-formedness *)

Definition enc_nt (nt : NetworkTuple) : list Z :=
  put16 (nt_RangeStart nt) ++
  (if nt_Extended nt
   then [nt_Distance nt + 128] ++ put16 (nt_RangeEnd nt) ++ [0]
   else [nt_Distance nt]).

(** Distances have seven bits on the wire; a nonextended tuple has no range. *)
Definition nt_wf (nt : NetworkTuple) : Prop :=
  u16 (nt_RangeStart nt) /\ 0 <= nt_Distance nt < 128 /\ u16 (nt_RangeEnd nt)
  /\ (nt_Extended nt = false -> nt_RangeEnd nt = nt_RangeStart nt).

Definition enc_et (et : EventTuple) : list Z :=
  et_EventCode et ::
  (if et_EventCode et =? EventCodeNull then []
   else put16 (et_RangeStart et) ++
        (if et_Extended et
         then [et_Distance et + 128] ++ put16 (et_RangeEnd et)
         else [et_Distance et])).

Definition et_wf (et : EventTuple) : Prop :=
  u8 (et_EventCode et) /\ u16 (et_RangeStart et) /\ 0 <= et_Distance et < 128
  /\ u16 (et_RangeEnd et)
  /\ (et_Extended et = false -> et_RangeEnd et = et_RangeStart et)
  /\ (et_EventCode et = EventCodeNull -> et = zero_event EventCodeNull).

Definition enc_ot (ot : OptionTuple) : list Z :=
  (zlen (ot_Data ot) + 1) :: ot_Type ot :: ot_Data ot.

Definition ot_wf (ot : OptionTuple) : Prop :=
  u8 (ot_Type ot) /\ bytes_ok (ot_Data ot) /\ zlen (ot_Data ot) <= 254.

Definition enc_opts (o : list OptionTuple) : list Z :=
  zlen o :: concat (map enc_ot o).

Definition opts_wf (o : list OptionTuple) : Prop :=
  zlen o <= 255 /\ Forall ot_wf o.

#[global] Arguments enc_nt : simpl never.
#[global] Arguments enc_et : simpl never.
#[global] Arguments enc_ot : simpl never.

(** ** The parsing loop *)

Section ParseLoop.
Context {A : Type} (fmt : string) (one : list Z -> res (A * list Z)).

Lemma parse_loop_enc (enc : A -> list Z) xs n fuel :
  (forall x rest, x ∈ xs -> one (enc x ++ rest) = Ok (x, rest)) ->
  (forall x, x ∈ xs -> enc x <> []) ->
  (length xs <= fuel)%nat ->
  parse_loop fmt one fuel n (concat (map enc xs)) = Ok (n ++ xs).
Proof.
  revert n fuel. induction xs as [|x xs IH]; intros n fuel Hone Hne Hf.
  - destruct fuel; simpl; by rewrite app_nil_r.
  - destruct fuel as [|fuel]; simpl in Hf; [lia|].
    assert (0 < zlen (concat (map enc (x :: xs)))).
    { simpl. rewrite zlen_app. pose proof (zlen_nonneg (concat (map enc xs))).
      specialize (Hne x ltac:(set_solver)). destruct (enc x); [done|].
      rewrite zlen_cons. pose proof (zlen_nonneg l). lia. }
    simpl in *. zdec. rewrite Hone by set_solver. simpl.
    rewrite IH by (first [lia | set_solver]). by rewrite <- app_assoc.
Qed.

Lemma parse_loop_safe (Q : A -> Prop) n fuel p :
  (forall p, bytes_ok p -> 0 < zlen p ->
    safe (fun '(x, rest) => Q x /\ bytes_ok rest /\ zlen rest < zlen p) (one p)) ->
  bytes_ok p -> Forall Q n -> zlen p <= Z.of_nat fuel ->
  safe (Forall Q) (parse_loop fmt one fuel n p).
Proof.
  intros Hone. revert n p. induction fuel as [|fuel IH]; intros n p Hp Hn Hf; simpl.
  - case_if; zbool; [lia|done].
  - case_if; zbool; [|done].
    eapply safe_bind; [by apply safe_wrap, Hone|].
    intros [x rest] (Hx & Hrest & Hlt). apply IH; [done| |lia].
    by apply Forall_snoc_2.
Qed.
End ParseLoop.

(** ** Network tuples *)

Lemma nt_emits nt : nt_wf nt -> emits (NetworkTuple_WriteTo nt) (enc_nt nt).
Proof.
  intros (_ & Hd & _) w. unfold NetworkTuple_WriteTo, enc_nt.
  destruct (nt_Extended nt); simpl negb; cbv iota; autorewrite with accum.
  - rewrite lor_high_small by done. by rewrite <- !app_assoc.
  - done.
Qed.

Lemma nts_emits n :
  Forall nt_wf n -> emits (NetworkTuples_WriteTo n) (concat (map enc_nt n)).
Proof.
  intros Hwf w. unfold NetworkTuples_WriteTo. rewrite acc_start.
  rewrite (fold_write_at _ enc_nt); [by autorewrite with accum|].
  intros x ? ? Hx. apply writeTo_at, nt_emits. by eapply Forall_forall.
Qed.

Lemma parse_nt_enc nt rest :
  nt_wf nt -> parseNetworkTuple (enc_nt nt ++ rest) = Ok (nt, rest).
Proof.
  intros (Hs & Hd & He & Hn). pose proof (zlen_nonneg rest).
  unfold parseNetworkTuple, enc_nt.
  destruct nt as [[] s d e]; simpl in *; autorewrite with wire; zdec.
  - parse_fields. rewrite land_high_zero by (unfold u8; lia). zdec. simpl.
    parse_fields. by rewrite ldiff_high_add.
  - parse_fields. rewrite land_high_zero by (unfold u8; lia). zdec. simpl.
    parse_fields. by rewrite Hn.
Qed.

Lemma enc_nt_nonempty nt : enc_nt nt <> [].
Proof. done. Qed.

Lemma parse_nts_enc n :
  Forall nt_wf n -> parseNetworkTuples (concat (map enc_nt n)) = Ok n.
Proof.
  intros Hwf. unfold parseNetworkTuples.
  rewrite (parse_loop_enc _ _ enc_nt n []); [done| |done|].
  - intros x rest Hx. apply parse_nt_enc. by eapply Forall_forall.
  - by apply concat_length_ge.
Qed.

Lemma parse_nt_safe p :
  bytes_ok p -> 0 < zlen p ->
  safe (fun '(x, rest) => nt_wf x /\ bytes_ok rest /\ zlen rest < zlen p)
    (parseNetworkTuple p).
Proof.
  intros Hp Hl. unfold parseNetworkTuple.
  repeat safe_step; simpl; unfold nt_wf; simpl.
  - apply land_high_lt in E0; [|done]. unfold u8 in *. split_and!; done || lia.
  - pose proof (ldiff_high a0 ltac:(done)). unfold u16 in *. split_and!; done || lia.
Qed.

Lemma parse_nts_safe p :
  bytes_ok p -> safe (Forall nt_wf) (parseNetworkTuples p).
Proof.
  intros Hp. apply parse_loop_safe; [apply parse_nt_safe|done|done|unfold zlen; lia].
Qed.

(** ** Event tuples *)

Lemma et_emits et : et_wf et -> emits (EventTuple_WriteTo et) (enc_et et).
Proof.
  intros (_ & _ & Hd & _) w. unfold EventTuple_WriteTo, enc_et.
  destruct (et_EventCode et =? EventCodeNull); [by autorewrite with accum|].
  destruct (et_Extended et); simpl negb; cbv iota; autorewrite with accum.
  - rewrite lor_high_small by done. by rewrite <- !app_assoc.
  - done.
Qed.

Lemma ets_emits e :
  Forall et_wf e -> emits (EventTuples_WriteTo e) (concat (map enc_et e)).
Proof.
  intros Hwf w. unfold EventTuples_WriteTo. rewrite acc_start.
  rewrite (fold_write_at _ enc_et); [by autorewrite with accum|].
  intros x ? ? Hx. apply writeTo_at, et_emits. by eapply Forall_forall.
Qed.

Lemma parse_et_enc et rest :
  et_wf et -> parseEventTuple (enc_et et ++ rest) = Ok (et, rest).
Proof.
  intros (Hc & Hs & Hd & He & Hn & Hnull). pose proof (zlen_nonneg rest).
  unfold parseEventTuple, enc_et.
  destruct et as [c x s d e]; simpl in *.
  destruct (c =? EventCodeNull) eqn:Ec; simpl; autorewrite with wire; zdec; go_slices.
  - rewrite ?Ec. zbool. rewrite Hnull by done. go_slices. by subst c.
  - rewrite ?Ec. destruct x; simpl; autorewrite with wire; zdec; parse_fields;
      rewrite land_high_zero by (unfold u8; lia); zdec; simpl; parse_fields.
    + by rewrite ldiff_high_add.
    + by rewrite Hn.
Qed.

Lemma parse_ets_enc e :
  Forall et_wf e -> parseEventTuples (concat (map enc_et e)) = Ok e.
Proof.
  intros Hwf. unfold parseEventTuples.
  rewrite (parse_loop_enc _ _ enc_et e []); [done| |done|].
  - intros x rest Hx. apply parse_et_enc. by eapply Forall_forall.
  - by apply concat_length_ge.
Qed.

Lemma parse_et_safe p :
  bytes_ok p -> 0 < zlen p ->
  safe (fun '(x, rest) => et_wf x /\ bytes_ok rest /\ zlen rest < zlen p)
    (parseEventTuple p).
Proof.
  intros Hp Hl. unfold parseEventTuple, EventCodeNull.
  repeat safe_step; simpl; unfold et_wf, EventCodeNull; simpl.
  - subst. unfold u8, u16 in *. split_and!; done || lia.
  - apply land_high_lt in E2; [|done]. unfold u8 in *. split_and!; done || lia.
  - pose proof (ldiff_high a1 ltac:(done)). unfold u16 in *. split_and!; done || lia.
Qed.

Lemma parse_ets_safe p :
  bytes_ok p -> safe (Forall et_wf) (parseEventTuples p).
Proof.
  intros Hp. apply parse_loop_safe; [apply parse_et_safe|done|done|unfold zlen; lia].
Qed.

(** ** Option tuples *)

Lemma ot_emits ot : ot_wf ot -> emits (OptionTuple_WriteTo ot) (enc_ot ot).
Proof.
  intros (_ & _ & Hl) w. unfold OptionTuple_WriteTo, enc_ot. zdec.
  autorewrite with accum. unfold wrap8.
  rewrite Z.mod_small; [done|]. pose proof (zlen_nonneg (ot_Data ot)). lia.
Qed.

Lemma opts_emits o : opts_wf o -> emits (Options_WriteTo o) (enc_opts o).
Proof.
  intros [Hl Hwf] w. unfold Options_WriteTo. zdec. autorewrite with accum.
  rewrite (fold_write_at _ enc_ot).
  - autorewrite with accum. unfold enc_opts, wrap8.
    rewrite Z.mod_small; [done|]. pose proof (zlen_nonneg o). lia.
  - intros x ? ? Hx. apply writeTo_at, ot_emits. by eapply Forall_forall.
Qed.

Lemma parse_ot_enc ot rest :
  ot_wf ot -> parseOptionTuple (enc_ot ot ++ rest) = Ok (ot, rest).
Proof.
  intros (Ht & Hd & Hl). pose proof (zlen_nonneg rest).
  destruct ot as [t d]; unfold parseOptionTuple, enc_ot; simpl in *.
  pose proof (zlen_nonneg d).
  autorewrite with wire. zdec. go_slices. autorewrite with wire. zdec.
  rewrite Z.add_simpl_r, slice_to_app by done. simpl.
  by rewrite slice_from_app.
Qed.

Lemma parse_option_loop_enc o i acc0 rest :
  Forall ot_wf o ->
  parse_option_loop (length o) i acc0 (concat (map enc_ot o) ++ rest)
  = Ok (acc0 ++ o, rest).
Proof.
  revert i acc0. induction o as [|x o IH]; intros i acc0 Hwf;
    cbn [length parse_option_loop map concat].
  - by rewrite app_nil_r.
  - apply Forall_cons in Hwf as [Hx Ho]. rewrite <- app_assoc.
    rewrite parse_ot_enc by done. simpl. rewrite IH by done.
    by rewrite <- app_assoc.
Qed.

Lemma parse_opts_enc o : opts_wf o -> parseOptions (enc_opts o) = Ok o.
Proof.
  intros [Hl Hwf]. unfold parseOptions, enc_opts.
  pose proof (zlen_nonneg (concat (map enc_ot o))).
  autorewrite with wire. zdec. go_slices.
  replace (Z.to_nat (zlen o)) with (length o) by (unfold zlen; lia).
  rewrite <- (app_nil_r (concat (map enc_ot o))).
  by rewrite parse_option_loop_enc.
Qed.

Lemma parse_ot_safe p :
  bytes_ok p ->
  safe (fun '(x, rest) => ot_wf x /\ bytes_ok rest) (parseOptionTuple p).
Proof.
  intros Hp. unfold parseOptionTuple.
  repeat safe_step; simpl; unfold ot_wf, u8 in *; simpl; split_and!; done || lia.
Qed.

Lemma parse_option_loop_safe k i acc0 p :
  bytes_ok p -> Forall ot_wf acc0 ->
  safe (fun '(o, rest) =>
          Forall ot_wf o /\ length o = (length acc0 + k)%nat /\ bytes_ok rest)
    (parse_option_loop k i acc0 p).
Proof.
  revert i acc0 p. induction k as [|k IH]; intros i acc0 p Hp Ha; simpl.
  - split_and!; done || lia.
  - eapply safe_bind; [by apply safe_wrap, parse_ot_safe|].
    intros [x rest] [Hx Hr]. eapply safe_mono.
    + apply IH; [done|]. by apply Forall_snoc_2.
    + intros [o r]. rewrite length_app. simpl. intros (? & ? & ?). split_and!; done || lia.
Qed.

Lemma parse_opts_safe p : bytes_ok p -> safe opts_wf (parseOptions p).
Proof.
  intros Hp. unfold parseOptions. safe_step; [done|]. safe_step. safe_step.
  eapply safe_bind; [by apply parse_option_loop_safe|].
  intros [o rest] (Ho & Hlen & Hr). safe_step; [done|].
  split; [|done]. unfold u8, zlen in *. simpl in Hlen. lia.
Qed.
