(* ===== verification/AurpZoneInfo.v ===== *)
(** * AURP zone information payloads ([aurp/zone_info.go])

    Zone tuples with the writer's back-reference compression, and the payload
    codecs of ZI-Req, ZI-Rsp (both forms), GDZL and GZN packets. *)
From S2P Require Import Prelude Wtacc AurpTuples.
Local Open Scope go_scope.

Definition SubcodeZoneInfoReq : Z := 0x0001.
Definition SubcodeZoneInfoNonExt : Z := 0x0001.
Definition SubcodeZoneInfoExt : Z := 0x0002.
Definition SubcodeGetZonesNet : Z := 0x0003.
Definition SubcodeGetDomainZoneList : Z := 0x0004.

Definition parseSubcode (p : list Z) : res (Z * list Z) :=
  if zlen p <? 2 then
    Err (Errorf "insufficient input length %d for subcode" [AInt (zlen p)])
  else
  sc ← slice_to p 2 ≫= be16;
  rest ← slice_from p 2;
  Ok (sc, rest).

(** ** Zone tuples *)

Record ZoneTuple := { zt_Network : Z; zt_Name : list Z }.

(** One iteration of the writer's loop: the accumulator and the [offsets] map
    from the names already written to their offset. *)
Definition zone_tuple_step (st : wtacc * gmap (list Z) Z) (zt : ZoneTuple)
    : wtacc * gmap (list Z) Z :=
  let '(a, offsets) := st in
  let a := write16 (zt_Network zt) a in
  match offsets !! zt_Name zt with
  | Some offset => (write16 (Z.lor 0x8000 offset) a, offsets)
  | None =>
      let offsets := <[zt_Name zt := wrap16 (acc_n a - 4)]> offsets in
      (a |> write8 (wrap8 (zlen (zt_Name zt))) |> acc_write (zt_Name zt), offsets)
  end.

(** The first name over 127 bytes, if any. *)
Definition find_long_name (names : list (list Z)) : option (list Z) :=
  List.find (fun z => 127 <? zlen z) names.

Definition ZoneTuples_WriteTo (zs : list ZoneTuple) : WriterTo :=
  if 65535 <? zlen zs then
    wt_fail (Errorf "too many zone tuples [%d > 65535]" [AInt (zlen zs)])
  else
  match find_long_name (map zt_Name zs) with
  | Some z => wt_fail (Errorf "zone name %q too long" [AStr z])
  | None => fun w =>
      acc_ret (fst (foldl zone_tuple_step (acc w |> write16 (wrap16 (zlen zs)), ∅) zs))
  end.

(** The loop of [parseZoneTuples]; [fromFirst = None] is the nil slice. *)
Fixpoint parse_zone_loop (fuel : nat) (zs : list ZoneTuple)
    (fromFirst : option (list Z)) (p : list Z) : res (list ZoneTuple) :=
  if 0 <? zlen p then
    match fuel with
    | O => Panic
    | S f =>
        if zlen p <? 3 then
          Err (Errorf "insufficient remaining input length %d for another zone tuple"
                 [AInt (zlen p)])
        else
        network ← slice_to p 2 ≫= be16;
        p ← slice_from p 2;
        nameLen ← idx p 0;
        if Z.land nameLen 0x80 =? 0 then
          let fromFirst := match fromFirst with None => Some p | s => s end in
          p ← slice_from p 1;
          if zlen p <? nameLen then
            Err (Errorf "insufficient remaining input length %d for zone name of length %d"
                   [AInt (zlen p); AInt nameLen])
          else
          name ← slice_to p nameLen;
          p ← slice_from p nameLen;
          parse_zone_loop f (zs ++ [{| zt_Network := network; zt_Name := name |}])
            fromFirst p
        else
          if zlen p <? 2 then
            Err (Errorf "insufficient remaining input length %d for offset" [AInt (zlen p)])
          else
          off ← slice_to p 2 ≫= be16;
          let offset := Z.ldiff off 0x8000 in
          p ← slice_from p 2;
          let ff := default [] fromFirst in
          if zlen ff <=? offset then
            Err (Errorf "optimized zone tuple offset %d out of range" [AInt offset])
          else
          nameLen ← idx ff offset;
          tail ← slice_from ff (wrap16 (offset + 1));
          if zlen tail <? nameLen then
            Err (Errorf "insufficient remaining input length %d for zone name of length %d"
                   [AInt (zlen p); AInt nameLen])
          else
          name ← slice_to tail nameLen;
          parse_zone_loop f (zs ++ [{| zt_Network := network; zt_Name := name |}])
            fromFirst p
    end
  else Ok zs.

(** The declared count only sizes the slice; every tuple present is read. *)
Definition parseZoneTuples (p : list Z) : res (list ZoneTuple) :=
  if zlen p <? 2 then
    Err (Errorf "insufficient input length %d for zone tuples" [AInt (zlen p)])
  else
  declaredCount ← slice_to p 2 ≫= be16;
  p ← slice_from p 2;
  parse_zone_loop (length p) [] None p.

(** ** ZI-Req *)

Definition ZIReq_payload (networks : list Z) (a : wtacc) : wtacc :=
  foldl (fun a n => write16 n a) a networks.

Definition parseZIReqPacket (p : list Z) : res (list Z) :=
  if negb (zlen p mod 2 =? 0) then
    Err (Errorf "odd number of bytes %d for networks" [AInt (zlen p)])
  else
  let c := zlen p / 2 in
  mapM (fun i => (q ← slice_from p (2 * i); slice_to q 2) ≫= be16) (seqZ 0 c).

(** ** ZI-Rsp *)

(** The extended form's tuple loop: long tuples only.  A name over 127 bytes
    ends it with [return 0, err], whatever was written before. *)
Fixpoint ZIRsp_ext_loop (a : wtacc) (zones : list ZoneTuple) : list Z * (Z * option goerr) :=
  match zones with
  | [] => acc_ret a
  | zt :: zones =>
      if 127 <? zlen (zt_Name zt) then
        (acc_w a, (0, Some (Errorf "zone name %q too long" [AStr (zt_Name zt)])))
      else
        ZIRsp_ext_loop
          (a |> write16 (zt_Network zt)
             |> write8 (wrap8 (zlen (zt_Name zt)))
             |> acc_write (zt_Name zt)) zones
  end.

Fixpoint parse_ext_zone_loop (fuel : nat) (zones : list ZoneTuple) (network : Z)
    (p : list Z) : res (list ZoneTuple) :=
  if 0 <? zlen p then
    match fuel with
    | O => Panic
    | S f =>
        if zlen p <? 3 then
          Err (Errorf "insufficient remaining input length %d for extended zone tuple"
                 [AInt (zlen p)])
        else
        n ← slice_to p 2 ≫= be16;
        nameLen ← idx p 2;
        p ← slice_from p 3;
        if negb (Z.land nameLen 0x80 =? 0) then
          Err (Errorf "optimized tuple not permitted in extended ZI-Rsp" [])
        else
        if zlen p <? nameLen then
          Err (Errorf "insufficient remaining input length %d for zone name of length %d"
                 [AInt (zlen p); AInt nameLen])
        else
        if (0 <? zlen zones) && negb (n =? network) then
          Err (Errorf "extended ZI-Rsp contains multiple network numbers %d and %d"
                 [AInt network; AInt n])
        else
        name ← slice_to p nameLen;
        p ← slice_from p nameLen;
        parse_ext_zone_loop f (zones ++ [{| zt_Network := n; zt_Name := name |}]) n p
    end
  else Ok zones.

(** Returns (TotalTuples, Zones). *)
Definition parseZIRspPacket (p : list Z) (subcode : Z) : res (Z * list ZoneTuple) :=
  if negb (subcode =? SubcodeZoneInfoExt) then
    zs ← parseZoneTuples p;
    Ok (0, zs)
  else
  if zlen p <? 2 then
    Err (Errorf "insufficient input length %d for extended ZI-Rsp tuple count" [AInt (zlen p)])
  else
  total ← slice_to p 2 ≫= be16;
  p ← slice_from p 2;
  zones ← parse_ext_zone_loop (length p) [] 0 p;
  Ok (total, zones).

(** ** GDZL *)

Definition parseGDZLReqPacket (p : list Z) : res Z :=
  if zlen p <? 2 then
    Err (Errorf "insufficient input length %d for GDZL-Req packet" [AInt (zlen p)])
  else slice_to p 2 ≫= be16.

Definition pascal_step (a : wtacc) (zn : list Z) : wtacc :=
  a |> write8 (wrap8 (zlen zn)) |> acc_write zn.

Fixpoint parse_pascal_loop (fuel : nat) (names : list (list Z)) (p : list Z)
    : res (list (list Z)) :=
  if 0 <? zlen p then
    match fuel with
    | O => Panic
    | S f =>
        strLen ← idx p 0;
        p ← slice_from p 1;
        if zlen p <? strLen then
          Err (Errorf "insufficient remaining input length %d for zone name with length prefix %d"
                 [AInt (zlen p); AInt strLen])
        else
        name ← slice_to p strLen;
        p ← slice_from p strLen;
        parse_pascal_loop f (names ++ [name]) p
    end
  else Ok names.

(** Returns (StartIndex, ZoneNames). *)
Definition parseGDZLRspPacket (p : list Z) : res (Z * list (list Z)) :=
  if zlen p <? 2 then
    Err (Errorf "insufficient input length %d for GDZL-Rsp packet" [AInt (zlen p)])
  else
  s ← slice_to p 2 ≫= be16;
  let startIndex := to_int16 s in
  if startIndex =? -1 then Ok (startIndex, [])
  else
  p ← slice_from p 2;
  names ← parse_pascal_loop (length p) [] p;
  Ok (startIndex, names).

(** ** GZN *)

Definition parseGZNReqPacket (p : list Z) : res (list Z) :=
  if zlen p <? 1 then
    Err (Errorf "insufficient input length %d for GZN-Req packet" [AInt (zlen p)])
  else
  strLen ← idx p 0;
  p ← slice_from p 1;
  if zlen p <? strLen then
    Err (Errorf "insufficient remaining input length %d for zone name with length prefix %d"
           [AInt (zlen p); AInt strLen])
  else slice_to p strLen.

(** Returns (ZoneName, NotSupported, Networks). *)
Definition parseGZNRspPacket (p : list Z) : res (list Z * bool * list NetworkTuple) :=
  if zlen p <? 1 then
    Err (Errorf "insufficient input length %d for GZN-Rsp packet" [AInt (zlen p)])
  else
  strLen ← idx p 0;
  p ← slice_from p 1;
  if zlen p <? strLen then
    Err (Errorf "insufficient remaining input length %d for zone name with length prefix %d"
           [AInt (zlen p); AInt strLen])
  else
  zoneName ← slice_to p strLen;
  p ← slice_from p strLen;
  if zlen p <? 2 then
    Err (Errorf "insufficient remaining input length %d for GZN-Rsp packet" [AInt (zlen p)])
  else
  b0 ← idx p 0;
  b1 ← idx p 1;
  if (b0 =? 0xff) && (b1 =? 0xff) then Ok (zoneName, true, [])
  else
  ns ← parseNetworkTuples p;
  Ok (zoneName, false, ns).

#[global] Instance ZoneTuple_eq_dec : EqDecision ZoneTuple.
Proof. solve_decision. Defined.

(** ** Reference encodings and well-formedness *)

Definition zt_wf (zt : ZoneTuple) : Prop :=
  u16 (zt_Network zt) /\ bytes_ok (zt_Name zt) /\ zlen (zt_Name zt) <= 127.

Definition name_enc (z : list Z) : list Z := zlen z :: z.

(** The tuples from byte [pos] of the tuple area on, when [offs] holds the
    names written before it. *)
Fixpoint enc_zts (offs : gmap (list Z) Z) (pos : Z) (zs : list ZoneTuple) : list Z :=
  match zs with
  | [] => []
  | zt :: zs =>
      match offs !! zt_Name zt with
      | Some o =>
          put16 (zt_Network zt) ++ put16 (Z.lor 0x8000 o) ++ enc_zts offs (pos + 4) zs
      | None =>
          put16 (zt_Network zt) ++ name_enc (zt_Name zt) ++
          enc_zts (<[zt_Name zt := wrap16 pos]> offs) (pos + 3 + zlen (zt_Name zt)) zs
      end
  end.

Definition enc_zone_tuples (zs : list ZoneTuple) : list Z :=
  put16 (zlen zs) ++ enc_zts ∅ 0 zs.

(** What the compressed form can carry: the 15-bit offsets must reach every
    name, which a tuple area of at most 32 KiB guarantees. *)
Definition zts_wf (zs : list ZoneTuple) : Prop :=
  Forall zt_wf zs /\ zlen zs <= 65535 /\ zlen (enc_zts ∅ 0 zs) <= 32768.

Definition enc_ext_zt (zt : ZoneTuple) : list Z :=
  put16 (zt_Network zt) ++ name_enc (zt_Name zt).

(** ** 15-bit offsets *)

Lemma land_offset o : 0 <= o < 32768 -> Z.land 0x8000 o = 0.
Proof.
  intros Ho. change 0x8000 with (Z.shiftl 1 15). apply land_shiftl_small; [lia|].
  change (2 ^ 15) with 32768. lia.
Qed.

Lemma lor_offset o : 0 <= o < 32768 -> Z.lor 0x8000 o = 32768 + o.
Proof. intros Ho. rewrite <- Z.add_nocarry_lor; [lia|]. by apply land_offset. Qed.

Lemma ldiff_offset o : 0 <= o < 32768 -> Z.ldiff (32768 + o) 0x8000 = o.
Proof.
  intros Ho. rewrite <- lor_offset by done. by apply ldiff_lor_disjoint, land_offset.
Qed.

Lemma ldiff_offset_range x : u16 x -> 0 <= Z.ldiff x 0x8000 < 32768.
Proof.
  unfold u16. intros Hx. destruct (Z.lt_ge_cases x 32768).
  - rewrite ldiff_disjoint by (apply land_offset; lia). lia.
  - replace x with (32768 + (x - 32768)) by lia. rewrite ldiff_offset by lia. lia.
Qed.

(** The first byte of an offset field has its top bit set. *)
Lemma offset_flag o :
  0 <= o < 32768 -> (Z.land (wrap8 (Z.shiftr (32768 + o) 8)) 0x80 =? 0) = false.
Proof.
  intros Ho. unfold wrap8. rewrite Z.shiftr_div_pow2 by lia. change (2 ^ 8) with 256.
  assert (128 <= (32768 + o) / 256 < 256).
  { split; [apply Z.div_le_lower_bound; lia|apply Z.div_lt_upper_bound; lia]. }
  rewrite Z.mod_small by lia. rewrite land_high_zero by (unfold u8; lia).
  apply Z.ltb_ge. lia.
Qed.

(** ** The zone tuple writer produces the reference encoding *)

Lemma find_long_name_none names :
  Forall (fun z => zlen z <= 127) names -> find_long_name names = None.
Proof.
  induction 1 as [|z l Hz _ IH]; [done|]. unfold find_long_name in *. simpl. by zdec.
Qed.

Lemma zone_fold_at zs offs w out :
  2 <= zlen out -> Forall zt_wf zs ->
  fst (foldl zone_tuple_step (acc_at w out, offs) zs)
  = acc_at w (out ++ enc_zts offs (zlen out - 2) zs).
Proof.
  revert offs out. induction zs as [|zt zs IH]; intros offs out Hout Hwf.
  - simpl. by rewrite app_nil_r.
  - apply Forall_cons in Hwf as [(_ & _ & Hlen) Hwf].
    cbn [foldl enc_zts]. unfold zone_tuple_step at 2.
    pose proof (zlen_nonneg (zt_Name zt)).
    destruct (offs !! zt_Name zt) as [o|]; autorewrite with accum.
    + rewrite IH; [|autorewrite with wire; lia|done].
      autorewrite with wire. rewrite <- !app_assoc. do 5 f_equal. lia.
    + rewrite IH; [|autorewrite with wire; lia|done].
      autorewrite with wire. unfold name_enc, wrap8.
      rewrite (Z.mod_small (zlen (zt_Name zt))) by lia.
      rewrite <- !app_assoc. simpl.
      replace (zlen out + 2 - 4) with (zlen out - 2) by lia.
      do 7 f_equal. f_equal. lia.
Qed.

Lemma zts_emits zs : zts_wf zs -> emits (ZoneTuples_WriteTo zs) (enc_zone_tuples zs).
Proof.
  intros (Hwf & Hlen & _) w. unfold ZoneTuples_WriteTo. zdec.
  rewrite find_long_name_none
    by (apply Forall_map; eapply Forall_impl; [exact Hwf|]; by intros ? (_ & _ & ?)).
  autorewrite with accum. rewrite zone_fold_at; [|done|done].
  autorewrite with accum. unfold enc_zone_tuples, wrap16.
  rewrite Z.mod_small; [done|]. pose proof (zlen_nonneg zs). lia.
Qed.

(** ** The parser inverts it

    [ff_ok offs pos ff rest]: what the parser's [fromFirst] must be when the
    writer has produced [pos] bytes of the tuple area, will produce [rest]
    next, and has recorded [offs]. *)
Definition ff_ok (offs : gmap (list Z) Z) (pos : Z) (ff : option (list Z))
    (rest : list Z) : Prop :=
  (pos = 0 /\ offs = ∅ /\ ff = None) \/
  exists D, ff = Some (D ++ rest) /\ zlen D = pos - 2 /\
    forall name o, offs !! name = Some o ->
      exists pre post, D = pre ++ name_enc name ++ post /\ zlen pre = o.

Lemma ff_ok_long offs pos ff net name rest :
  u16 net -> 0 <= pos < 32768 ->
  ff_ok offs pos ff (put16 net ++ name_enc name ++ rest) ->
  ff_ok (<[name := wrap16 pos]> offs) (pos + 3 + zlen name)
    (match ff with None => Some (name_enc name ++ rest) | s => s end) rest.
Proof.
  intros Hnet Hpos Hff. unfold wrap16. rewrite Z.mod_small by lia. right.
  destruct Hff as [(-> & -> & ->)|(D & -> & HD & Hoffs)].
  - exists (name_enc name). split_and!; [done|unfold name_enc; autorewrite with wire; lia|].
    intros name' o. rewrite lookup_insert_Some, lookup_empty.
    intros [[<- <-]|[_ ?]]; [|done]. exists [], []. by rewrite app_nil_r.
  - exists (D ++ put16 net ++ name_enc name). split_and!.
    + by rewrite <- !app_assoc.
    + unfold name_enc. autorewrite with wire. lia.
    + intros name' o. rewrite lookup_insert_Some. intros [[<- <-]|[_ Ho]].
      * exists (D ++ put16 net), []. rewrite app_nil_r, <- app_assoc. split; [done|].
        autorewrite with wire. lia.
      * destruct (Hoffs _ _ Ho) as (pre & post & -> & Hpre).
        exists pre, (post ++ put16 net ++ name_enc name). by rewrite <- !app_assoc.
Qed.

Lemma ff_ok_short offs pos ff a b rest o name :
  offs !! name = Some o ->
  ff_ok offs pos ff (put16 a ++ put16 b ++ rest) ->
  ff_ok offs (pos + 4) ff rest.
Proof.
  intros Ho [(_ & -> & _)|(D & -> & HD & Hoffs)]; [done|]. right.
  exists (D ++ put16 a ++ put16 b). split_and!.
  - by rewrite <- !app_assoc.
  - autorewrite with wire. lia.
  - intros name' o' Ho'. destruct (Hoffs _ _ Ho') as (pre & post & -> & Hpre).
    exists pre, (post ++ put16 a ++ put16 b). by rewrite <- !app_assoc.
Qed.

Lemma name_at_idx pre name q : idx (pre ++ name_enc name ++ q) (zlen pre) = Ok (zlen name).
Proof.
  unfold idx. pose proof (zlen_nonneg pre). zdec.
  rewrite lookup_app_r by (unfold zlen; lia).
  replace (Z.to_nat (zlen pre) - length pre)%nat with 0%nat by (unfold zlen; lia). done.
Qed.

Lemma name_at_tail pre name q :
  slice_from (pre ++ name_enc name ++ q) (zlen pre + 1) = Ok (name ++ q).
Proof.
  replace (pre ++ name_enc name ++ q) with ((pre ++ [zlen name]) ++ name ++ q)
    by (by rewrite <- app_assoc).
  apply slice_from_app. autorewrite with wire. lia.
Qed.

(** The optimised-tuple branch finds the name the writer recorded. *)
Lemma parse_zone_short offs pos ff net name o rest n fuel :
  u16 net -> zlen name <= 127 -> offs !! name = Some o ->
  pos + 4 + zlen rest <= 32768 ->
  ff_ok offs pos ff (put16 net ++ put16 (Z.lor 0x8000 o) ++ rest) ->
  parse_zone_loop (S fuel) n ff (put16 net ++ put16 (Z.lor 0x8000 o) ++ rest)
  = parse_zone_loop fuel (n ++ [{| zt_Network := net; zt_Name := name |}]) ff rest.
Proof.
  intros Hnet Hlen Ho Hsz [(_ & -> & _)|(D & -> & HD & Hoffs)]; [done|].
  destruct (Hoffs _ _ Ho) as (pre & post & -> & Hpre).
  pose proof (zlen_nonneg rest). pose proof (zlen_nonneg name).
  pose proof (zlen_nonneg pre). pose proof (zlen_nonneg post).
  unfold name_enc in HD. autorewrite with wire in HD.
  rewrite lor_offset by lia. cbn [parse_zone_loop]. autorewrite with wire. zdec.
  set (F := (pre ++ name_enc name ++ post) ++ put16 net ++ put16 (32768 + o) ++ rest).
  assert (HF : F = pre ++ name_enc name ++ (post ++ put16 net ++ put16 (32768 + o) ++ rest))
    by (subst F; by rewrite <- !app_assoc).
  assert (HFlen : o < zlen F).
  { rewrite HF. unfold name_enc. autorewrite with wire. lia. }
  parse_fields. rewrite offset_flag by lia. autorewrite with wire. zdec. parse_fields.
  rewrite ldiff_offset by lia. zdec. unfold wrap16. rewrite Z.mod_small by lia.
  rewrite HF, <- Hpre, name_at_idx, bind_Ok, name_at_tail, bind_Ok.
  rewrite zlen_app. pose proof (zlen_nonneg (post ++ put16 net ++ put16 (32768 + o) ++ rest)).
  subst o. zdec. rewrite slice_to_app by done. done.
Qed.

Lemma parse_zone_long ff net name rest n fuel :
  u16 net -> zlen name <= 127 ->
  parse_zone_loop (S fuel) n ff (put16 net ++ name_enc name ++ rest)
  = parse_zone_loop fuel (n ++ [{| zt_Network := net; zt_Name := name |}])
      (match ff with None => Some (name_enc name ++ rest) | s => s end) rest.
Proof.
  intros Hnet Hlen. pose proof (zlen_nonneg rest). pose proof (zlen_nonneg name).
  cbn [parse_zone_loop]. unfold name_enc. autorewrite with wire. zdec. parse_fields.
  rewrite land_high_zero by (unfold u8; lia). zdec. go_slices.
  autorewrite with wire. zdec. rewrite slice_to_app by done. simpl.
  by rewrite slice_from_app by done.
Qed.

Lemma parse_zone_loop_enc zs offs pos ff n fuel :
  Forall zt_wf zs -> 0 <= pos -> pos + zlen (enc_zts offs pos zs) <= 32768 ->
  ff_ok offs pos ff (enc_zts offs pos zs) ->
  (length zs <= fuel)%nat ->
  parse_zone_loop fuel n ff (enc_zts offs pos zs) = Ok (n ++ zs).
Proof.
  revert offs pos ff n fuel.
  induction zs as [|[net name] zs IH]; intros offs pos ff n fuel Hwf Hpos Hsz Hff Hfuel.
  { destruct fuel; simpl; by rewrite app_nil_r. }
  apply Forall_cons in Hwf as [(Hnet & Hname & Hlen) Hwf].
  destruct fuel as [|fuel]; [simpl in Hfuel; lia|].
  cbn [enc_zts zt_Name zt_Network length] in *. pose proof (zlen_nonneg name).
  destruct (offs !! name) as [o|] eqn:Ho.
  - pose proof (zlen_nonneg (enc_zts offs (pos + 4) zs)). autorewrite with wire in Hsz.
    erewrite parse_zone_short; [|done|done|exact Ho| |done]; [|lia].
    rewrite IH; [by rewrite <- app_assoc|done|lia|lia| |lia]. by eapply ff_ok_short.
  - unfold name_enc in Hsz. autorewrite with wire in Hsz.
    pose proof (zlen_nonneg
      (enc_zts (<[name:=wrap16 pos]> offs) (pos + 3 + zlen name) zs)).
    rewrite parse_zone_long by done.
    rewrite IH; [by rewrite <- app_assoc|done|lia|lia| |lia].
    apply ff_ok_long with (net := net); [done|lia|done].
Qed.

Lemma enc_zts_length offs pos zs : (length zs <= length (enc_zts offs pos zs))%nat.
Proof.
  revert offs pos. induction zs as [|zt zs IH]; intros offs pos; simpl; [lia|].
  destruct (offs !! zt_Name zt); simpl; rewrite ?length_app;
    [specialize (IH offs (pos + 4))|
     specialize (IH (<[zt_Name zt:=wrap16 pos]> offs) (pos + 3 + zlen (zt_Name zt)))]; lia.
Qed.

Lemma parse_zts_enc zs : zts_wf zs -> parseZoneTuples (enc_zone_tuples zs) = Ok zs.
Proof.
  intros (Hwf & Hlen & Hsz). unfold parseZoneTuples, enc_zone_tuples.
  pose proof (zlen_nonneg (enc_zts ∅ 0 zs)). pose proof (zlen_nonneg zs).
  autorewrite with wire. zdec. go_slices.
  rewrite parse_zone_loop_enc; [done|done|lia|lia|by left|apply enc_zts_length].
Qed.

(** ** Parsers never panic *)

(** What a parser guarantees of a zone tuple (an optimised tuple may point at
    any byte, so its name length is only bounded by 255). *)
Definition zt_parsed (zt : ZoneTuple) : Prop :=
  u16 (zt_Network zt) /\ bytes_ok (zt_Name zt) /\ zlen (zt_Name zt) <= 255.

Lemma zone_tuple_parsed net name k :
  u16 net -> bytes_ok name -> zlen name = k -> u8 k ->
  zt_parsed {| zt_Network := net; zt_Name := name |}.
Proof. unfold zt_parsed, u8. simpl. intros. split_and!; done || lia. Qed.

Lemma parse_zone_loop_safe fuel n ff p :
  bytes_ok p -> bytes_ok (default [] ff) -> Forall zt_parsed n ->
  zlen p <= Z.of_nat fuel ->
  safe (Forall zt_parsed) (parse_zone_loop fuel n ff p).
Proof.
  revert n ff p. induction fuel as [|fuel IH]; intros n ff p Hp Hff Hn Hf;
    cbn [parse_zone_loop]; (case_if; zbool; [|done]); [lia|].
  safe_step; [done|]. repeat safe_step; unfold u8 in *.
  - apply IH; [done| | |lia].
    + by destruct ff.
    + apply Forall_snoc_2; [done|]. by eapply zone_tuple_parsed.
  - pose proof (ldiff_offset_range a2 ltac:(done)). lia.
  - pose proof (ldiff_offset_range a2 ltac:(done)). unfold wrap16.
    rewrite Z.mod_small by lia. lia.
  - apply IH; [done|done| |lia].
    apply Forall_snoc_2; [done|]. by eapply zone_tuple_parsed.
Qed.

Lemma parse_zts_safe p : bytes_ok p -> safe (Forall zt_parsed) (parseZoneTuples p).
Proof.
  intros Hp. unfold parseZoneTuples. repeat safe_step.
  apply parse_zone_loop_safe; [done|by constructor|done|unfold zlen; lia].
Qed.

Lemma parse_ext_zone_loop_safe fuel n net p :
  bytes_ok p -> Forall zt_parsed n -> zlen p <= Z.of_nat fuel ->
  safe (Forall zt_parsed) (parse_ext_zone_loop fuel n net p).
Proof.
  revert n net p. induction fuel as [|fuel IH]; intros n net p Hp Hn Hf;
    cbn [parse_ext_zone_loop]; (case_if; zbool; [|done]); [lia|].
  repeat safe_step; unfold u8 in *.
  apply IH; [done| |lia].
  apply Forall_snoc_2; [done|]. by eapply zone_tuple_parsed.
Qed.

Lemma parse_zirsp_safe p sc :
  bytes_ok p ->
  safe (fun '(total, zs) => u16 total /\ Forall zt_parsed zs) (parseZIRspPacket p sc).
Proof.
  intros Hp. unfold parseZIRspPacket. safe_step.
  - eapply safe_bind; [by apply parse_zts_safe|]. intros zs Hzs. by split.
  - repeat safe_step. eapply safe_bind.
    + apply parse_ext_zone_loop_safe; [done|by constructor|unfold zlen; lia].
    + intros zs Hzs. by split.
Qed.

Lemma parse_subcode_safe p :
  bytes_ok p -> safe (fun '(sc, rest) => u16 sc /\ bytes_ok rest) (parseSubcode p).
Proof. intros Hp. unfold parseSubcode. repeat safe_step. by split. Qed.

Lemma mapM_safe {A B} (P : A -> Prop) (Q : B -> Prop) (f : A -> res B) l :
  Forall P l -> (forall x, P x -> safe Q (f x)) -> safe (Forall Q) (mapM f l).
Proof.
  intros Hl Hf. induction Hl as [|x l Hx _ IH]; simpl; [constructor|].
  eapply safe_bind; [by apply Hf|]. intros y Hy.
  eapply safe_bind; [exact IH|]. intros ys Hys. by constructor.
Qed.

Lemma parse_zireq_safe p : bytes_ok p -> safe (Forall u16) (parseZIReqPacket p).
Proof.
  intros Hp. unfold parseZIReqPacket. safe_step; [done|].
  pose proof (Z.div_mod (zlen p) 2 ltac:(lia)).
  apply (mapM_safe (fun i => 0 <= i < zlen p / 2)).
  - apply Forall_forall. intros i. rewrite elem_of_seqZ. lia.
  - intros i Hi. eapply safe_bind.
    + eapply safe_bind; [apply safe_slice_from; [done|lia]|]. intros q [Hq Hl].
      apply safe_slice_to; [done|lia].
    + intros q [Hq Hl]. apply safe_be16; [done|lia].
Qed.

Lemma parse_gdzlreq_safe p : bytes_ok p -> safe u16 (parseGDZLReqPacket p).
Proof.
  intros Hp. unfold parseGDZLReqPacket. safe_step; [done|].
  apply safe_field_to; [done|lia].
Qed.

Definition name_parsed (z : list Z) : Prop := bytes_ok z /\ zlen z <= 255.

Lemma parse_pascal_loop_safe fuel n p :
  bytes_ok p -> Forall name_parsed n -> zlen p <= Z.of_nat fuel ->
  safe (Forall name_parsed) (parse_pascal_loop fuel n p).
Proof.
  revert n p. induction fuel as [|fuel IH]; intros n p Hp Hn Hf;
    cbn [parse_pascal_loop]; (case_if; zbool; [|done]); [lia|].
  repeat safe_step; unfold u8 in *.
  apply IH; [done| |lia]. apply Forall_snoc_2; [done|]. split; [done|lia].
Qed.

Lemma to_int16_range s : i16 (to_int16 s).
Proof.
  unfold i16, to_int16, wrap16. pose proof (Z.mod_pos_bound s 65536).
  case_if; zbool; lia.
Qed.

Lemma to_int16_wrap16 x : i16 x -> to_int16 (wrap16 x) = x.
Proof.
  unfold i16, to_int16, wrap16. intros Hx. rewrite Z.mod_mod by lia.
  destruct (Z.lt_ge_cases x 0).
  - rewrite <- (Z.mod_unique x 65536 (-1) (x + 65536)) by lia. zdec. lia.
  - rewrite Z.mod_small by lia. zdec. lia.
Qed.

Lemma wrap16_u16 x : u16 (wrap16 x).
Proof. unfold u16, wrap16. apply Z.mod_pos_bound. lia. Qed.

Lemma parse_gdzlrsp_safe p :
  bytes_ok p ->
  safe (fun '(s, names) => i16 s /\ Forall name_parsed names) (parseGDZLRspPacket p).
Proof.
  intros Hp. unfold parseGDZLRspPacket. safe_step; [done|]. safe_step.
  pose proof (to_int16_range a). safe_step; [by split|]. safe_step.
  eapply safe_bind; [apply parse_pascal_loop_safe; [done|done|unfold zlen; lia]|].
  intros names Hn. by split.
Qed.

Lemma parse_gznreq_safe p : bytes_ok p -> safe name_parsed (parseGZNReqPacket p).
Proof.
  intros Hp. unfold parseGZNReqPacket. repeat safe_step. unfold u8 in *.
  eapply safe_mono; [apply safe_slice_to; [done|lia]|].
  intros q [? ?]. split; [done|lia].
Qed.

Lemma parse_gznrsp_safe p :
  bytes_ok p ->
  safe (fun '(z, _, ns) => name_parsed z /\ Forall nt_wf ns) (parseGZNRspPacket p).
Proof.
  intros Hp. unfold parseGZNRspPacket.
  repeat safe_step; unfold u8 in *.
  - split; [|done]. split; [done|lia].
  - eapply safe_bind; [by apply parse_nts_safe|]. intros ns Hns.
    split; [|done]. split; [done|lia].
Qed.

(** ** Round trips of the remaining payloads *)

Lemma parse_subcode_enc sc rest : u16 sc -> parseSubcode (put16 sc ++ rest) = Ok (sc, rest).
Proof.
  intros Hsc. pose proof (zlen_nonneg rest). unfold parseSubcode.
  autorewrite with wire. zdec. by parse_fields.
Qed.

Lemma zlen_put16s ns : zlen (concat (map put16 ns)) = 2 * zlen ns.
Proof. induction ns as [|n ns IH]; [done|]. simpl. autorewrite with wire. rewrite IH. lia. Qed.

Lemma zireq_mapM_enc pre ns :
  Forall u16 ns ->
  mapM (fun i => (q ← slice_from (concat (map put16 (pre ++ ns))) (2 * i); slice_to q 2) ≫= be16)
    (seqZ (zlen pre) (zlen ns)) = Ok ns.
Proof.
  intros Hns. revert pre. induction Hns as [|n ns Hn _ IH]; intros pre; [done|].
  pose proof (zlen_nonneg ns). rewrite zlen_cons, seqZ_cons by lia. simpl mapM.
  rewrite map_app, concat_app, slice_from_app by (by rewrite zlen_put16s).
  rewrite bind_Ok. cbn [map concat]. rewrite slice_to_app by done.
  rewrite bind_Ok. rewrite <- (app_nil_r (put16 n)), be16_put16 by done.
  replace (Z.succ (zlen pre)) with (zlen (pre ++ [n])) by (autorewrite with wire; lia).
  replace (Z.pred (zlen ns + 1)) with (zlen ns) by lia.
  specialize (IH (pre ++ [n])). rewrite <- app_assoc in IH. cbn [app] in IH.
  rewrite map_app, concat_app in IH. cbn [map concat] in IH.
  rewrite !bind_Ok. rewrite app_nil_r. by rewrite IH.
Qed.

Lemma parse_zireq_enc ns :
  Forall u16 ns -> parseZIReqPacket (concat (map put16 ns)) = Ok ns.
Proof.
  intros Hns. unfold parseZIReqPacket. rewrite zlen_put16s.
  rewrite Z.mul_comm, Z.mod_mul, Z.div_mul by lia. simpl negb. cbv iota.
  exact (zireq_mapM_enc [] ns Hns).
Qed.

Lemma zirsp_ext_loop_at zs w out :
  Forall zt_wf zs ->
  ZIRsp_ext_loop (acc_at w out) zs
  = (w ++ out ++ concat (map enc_ext_zt zs), (zlen (out ++ concat (map enc_ext_zt zs)), None)).
Proof.
  intros Hwf. revert out. induction Hwf as [|zt zs (_ & _ & Hlen) _ IH]; intros out.
  - simpl. by rewrite app_nil_r.
  - cbn [ZIRsp_ext_loop map concat]. pose proof (zlen_nonneg (zt_Name zt)). zdec.
    autorewrite with accum. rewrite IH. unfold enc_ext_zt, name_enc, wrap8.
    rewrite (Z.mod_small (zlen (zt_Name zt))) by lia. by rewrite <- !app_assoc.
Qed.

Lemma parse_ext_loop_enc zs net n fuel :
  Forall zt_wf zs -> Forall (fun zt => zt_Network zt = net) zs ->
  (length zs <= fuel)%nat ->
  parse_ext_zone_loop fuel n net (concat (map enc_ext_zt zs)) = Ok (n ++ zs).
Proof.
  intros Hwf. revert n fuel.
  induction Hwf as [|[net' name] zs (Hnet & Hname & Hlen) _ IH]; intros n fuel Hsame Hf.
  { destruct fuel; simpl; by rewrite app_nil_r. }
  apply Forall_cons in Hsame as [Heq Hsame]. simpl in *. subst net'.
  destruct fuel as [|fuel]; [lia|].
  specialize (IH (n ++ [{| zt_Network := net; zt_Name := name |}]) fuel Hsame ltac:(lia)).
  revert IH. generalize (concat (map enc_ext_zt zs)). intros rest IH.
  pose proof (zlen_nonneg name). pose proof (zlen_nonneg rest).
  unfold enc_ext_zt, name_enc. simpl.
  autorewrite with wire. zdec. parse_fields.
  rewrite land_high_zero by (unfold u8; lia). zdec. simpl.
  autorewrite with wire. zdec. rewrite andb_false_r. simpl.
  rewrite slice_to_app by done. simpl. rewrite slice_from_app by done. simpl.
  rewrite IH. by rewrite <- app_assoc.
Qed.

Lemma parse_pascal_enc names n fuel :
  Forall (fun z => zlen z <= 127) names -> (length names <= fuel)%nat ->
  parse_pascal_loop fuel n (concat (map name_enc names)) = Ok (n ++ names).
Proof.
  intros Hwf. revert n fuel. induction Hwf as [|z zs Hz _ IH]; intros n fuel Hf.
  { destruct fuel; simpl; by rewrite app_nil_r. }
  destruct fuel as [|fuel]; simpl in Hf; [lia|].
  specialize (IH (n ++ [z]) fuel ltac:(lia)).
  cbn [map concat]. revert IH. generalize (concat (map name_enc zs)). intros rest IH.
  pose proof (zlen_nonneg z). pose proof (zlen_nonneg rest).
  unfold name_enc. simpl. autorewrite with wire. zdec. go_slices.
  autorewrite with wire. zdec. rewrite slice_to_app by done. simpl.
  rewrite slice_from_app by done. simpl. rewrite IH. by rewrite <- app_assoc.
Qed.

Lemma pascal_fold_at names w out :
  Forall (fun z => zlen z <= 127) names ->
  foldl pascal_step (acc_at w out) names = acc_at w (out ++ concat (map name_enc names)).
Proof.
  intros Hwf. apply fold_write_at. intros z ? ? Hz. unfold pascal_step, name_enc, wrap8.
  pose proof (zlen_nonneg z). rewrite Forall_forall in Hwf. specialize (Hwf z Hz). simpl in Hwf.
  autorewrite with accum. rewrite Z.mod_small by lia. by rewrite <- app_assoc.
Qed.
