(* ===== verification/AurpPacket.v ===== *)
(** * AURP packets ([aurp/aurp.go] and the packet files of package aurp)

    The packet types, [WriteTo] of each, and [ParsePacket], the entry point for
    every UDP datagram the router receives.  The theorems: parsing any datagram
    returns a packet or an error and never panics; parsing the encoding of a
    packet gives that packet back; and the one packet type for which it does
    not (GZN-Rsp). *)
From S2P Require Import Prelude Wtacc AurpHeaders AurpTuples AurpZoneInfo.
Local Open Scope go_scope.

Inductive Packet :=
| AppleTalkPacket (dh : DomainHeader) (data : list Z)
| OpenReqPacket (h : Header) (version : Z) (options : list OptionTuple)
| OpenRspPacket (h : Header) (rateOrErrCode : Z) (options : list OptionTuple)
| RIReqPacket (h : Header)
| RIRspPacket (h : Header) (networks : list NetworkTuple)
| RIAckPacket (h : Header)
| RIUpdPacket (h : Header) (events : list EventTuple)
| RDPacket (h : Header) (errorCode : Z)
| ZIReqPacket (h : Header) (subcode : Z) (networks : list Z)
| ZIRspPacket (h : Header) (subcode : Z) (totalTuples : Z) (zones : list ZoneTuple)
| GDZLReqPacket (h : Header) (subcode : Z) (startIndex : Z)
| GDZLRspPacket (h : Header) (subcode : Z) (startIndex : Z) (zoneNames : list (list Z))
| GZNReqPacket (h : Header) (subcode : Z) (zoneName : list Z)
| GZNRspPacket (h : Header) (subcode : Z) (zoneName : list Z) (notSupported : bool)
    (networks : list NetworkTuple)
| TicklePacket (h : Header)
| TickleAckPacket (h : Header).

#[global] Instance Packet_eq_dec : EqDecision Packet.
Proof. solve_decision. Defined.

(** ** Encoders, one per packet type *)

Definition AppleTalkPacket_WriteTo (dh : DomainHeader) (data : list Z) : WriterTo := fun w =>
  acc w |> writeTo (DomainHeader_WriteTo dh) |> acc_write data |> acc_ret.

Definition OpenReqPacket_WriteTo (h : Header) (version : Z) (options : list OptionTuple)
    : WriterTo := fun w =>
  acc w |> writeTo (Header_WriteTo h) |> write16 version
        |> writeTo (Options_WriteTo options) |> acc_ret.

Definition OpenRspPacket_WriteTo (h : Header) (rate : Z) (options : list OptionTuple)
    : WriterTo := fun w =>
  acc w |> writeTo (Header_WriteTo h) |> write16 (wrap16 rate)
        |> writeTo (Options_WriteTo options) |> acc_ret.

Definition RIRspPacket_WriteTo (h : Header) (networks : list NetworkTuple) : WriterTo := fun w =>
  acc w |> writeTo (Header_WriteTo h) |> writeTo (NetworkTuples_WriteTo networks) |> acc_ret.

Definition RIUpdPacket_WriteTo (h : Header) (events : list EventTuple) : WriterTo := fun w =>
  acc w |> writeTo (Header_WriteTo h) |> writeTo (EventTuples_WriteTo events) |> acc_ret.

Definition RDPacket_WriteTo (h : Header) (errorCode : Z) : WriterTo := fun w =>
  acc w |> writeTo (Header_WriteTo h) |> write16 (wrap16 errorCode) |> acc_ret.

Definition ZIReqPacket_WriteTo (h : Header) (subcode : Z) (networks : list Z) : WriterTo := fun w =>
  ZIReq_payload networks (acc w |> writeTo (Header_WriteTo h) |> write16 subcode) |> acc_ret.

Definition ZIRspPacket_WriteTo (h : Header) (subcode totalTuples : Z) (zones : list ZoneTuple)
    : WriterTo := fun w =>
  let a := acc w |> writeTo (Header_WriteTo h) |> write16 subcode in
  if negb (subcode =? SubcodeZoneInfoExt) then
    a |> writeTo (ZoneTuples_WriteTo zones) |> acc_ret
  else
    let total := if totalTuples =? 0 then wrap16 (zlen zones) else totalTuples in
    ZIRsp_ext_loop (write16 total a) zones.

Definition GDZLReqPacket_WriteTo (h : Header) (subcode startIndex : Z) : WriterTo := fun w =>
  acc w |> writeTo (Header_WriteTo h) |> write16 subcode |> write16 startIndex |> acc_ret.

Definition GDZLRspPacket_WriteTo (h : Header) (subcode startIndex : Z)
    (zoneNames : list (list Z)) : WriterTo :=
  match find_long_name zoneNames with
  | Some zn => wt_fail (Errorf "zone name %q too long" [AStr zn])
  | None => fun w =>
      let a := acc w |> writeTo (Header_WriteTo h) |> write16 subcode
                     |> write16 (wrap16 startIndex) in
      if startIndex =? -1 then a |> acc_ret
      else foldl pascal_step a zoneNames |> acc_ret
  end.

Definition GZNReqPacket_WriteTo (h : Header) (subcode : Z) (zoneName : list Z) : WriterTo :=
  if 127 <? zlen zoneName then
    wt_fail (Errorf "zone name %q too long" [AStr zoneName])
  else fun w =>
    acc w |> writeTo (Header_WriteTo h) |> write16 subcode
          |> write8 (wrap8 (zlen zoneName)) |> acc_write zoneName |> acc_ret.

(** The length of the zone name is written, the name itself is not. *)
Definition GZNRspPacket_WriteTo (h : Header) (subcode : Z) (zoneName : list Z)
    (notSupported : bool) (networks : list NetworkTuple) : WriterTo :=
  if 127 <? zlen zoneName then
    wt_fail (Errorf "zone name %q too long" [AStr zoneName])
  else fun w =>
    let a := acc w |> writeTo (Header_WriteTo h) |> write16 subcode
                   |> write8 (wrap8 (zlen zoneName)) in
    if notSupported then a |> write16 0xffff |> acc_ret
    else a |> writeTo (NetworkTuples_WriteTo networks) |> acc_ret.

(** [pkt.WriteTo(w)] by dynamic type. *)
Definition Packet_WriteTo (p : Packet) : WriterTo :=
  match p with
  | AppleTalkPacket dh data => AppleTalkPacket_WriteTo dh data
  | OpenReqPacket h v o => OpenReqPacket_WriteTo h v o
  | OpenRspPacket h r o => OpenRspPacket_WriteTo h r o
  | RIRspPacket h ns => RIRspPacket_WriteTo h ns
  | RIUpdPacket h es => RIUpdPacket_WriteTo h es
  | RDPacket h e => RDPacket_WriteTo h e
  | ZIReqPacket h sc ns => ZIReqPacket_WriteTo h sc ns
  | ZIRspPacket h sc t zs => ZIRspPacket_WriteTo h sc t zs
  | GDZLReqPacket h sc i => GDZLReqPacket_WriteTo h sc i
  | GDZLRspPacket h sc i zs => GDZLRspPacket_WriteTo h sc i zs
  | GZNReqPacket h sc z => GZNReqPacket_WriteTo h sc z
  | GZNRspPacket h sc z ns nets => GZNRspPacket_WriteTo h sc z ns nets
  | RIReqPacket h | RIAckPacket h | TicklePacket h | TickleAckPacket h => Header_WriteTo h
  end.

(** ** Payload parsers of the fixed-layout packets *)

Definition parseOpenReq (p : list Z) : res (Z * list OptionTuple) :=
  if zlen p <? 3 then
    Err (Errorf "insufficient input length %d for Open-Req packet" [AInt (zlen p)])
  else
  q ← slice_from p 2;
  opts ← parseOptions q;
  v ← slice_to p 2 ≫= be16;
  Ok (v, opts).

Definition parseOpenRsp (p : list Z) : res (Z * list OptionTuple) :=
  if zlen p <? 3 then
    Err (Errorf "insufficient input length %d for Open-Rsp packet" [AInt (zlen p)])
  else
  q ← slice_from p 2;
  opts ← parseOptions q;
  v ← slice_to p 2 ≫= be16;
  Ok (to_int16 v, opts).

Definition parseRD (p : list Z) : res Z :=
  if zlen p <? 2 then
    Err (Errorf "insufficient input length %d for router down packet" [AInt (zlen p)])
  else
  v ← slice_to p 2 ≫= be16;
  Ok (to_int16 v).

(** ** [ParsePacket] *)

(** The command-code switch, on the payload [p] after header [h]. *)
Definition parseRoutingPacket (h : Header) (p : list Z) : res Packet :=
  let cc := CommandCode h in
  if cc =? CmdCodeOpenReq then
    '(v, o) ← parseOpenReq p; Ok (OpenReqPacket h v o)
  else if cc =? CmdCodeOpenRsp then
    '(r, o) ← parseOpenRsp p; Ok (OpenRspPacket h r o)
  else if cc =? CmdCodeRIReq then Ok (RIReqPacket h)
  else if cc =? CmdCodeRIRsp then
    ns ← parseNetworkTuples p; Ok (RIRspPacket h ns)
  else if cc =? CmdCodeRIAck then Ok (RIAckPacket h)
  else if cc =? CmdCodeRIUpd then
    es ← parseEventTuples p; Ok (RIUpdPacket h es)
  else if cc =? CmdCodeRD then
    e ← parseRD p; Ok (RDPacket h e)
  else if cc =? CmdCodeZoneReq then
    '(sc, p) ← parseSubcode p;
    if sc =? SubcodeZoneInfoReq then
      ns ← parseZIReqPacket p; Ok (ZIReqPacket h SubcodeZoneInfoReq ns)
    else if sc =? SubcodeGetDomainZoneList then
      i ← parseGDZLReqPacket p; Ok (GDZLReqPacket h SubcodeGetDomainZoneList i)
    else if sc =? SubcodeGetZonesNet then
      z ← parseGZNReqPacket p; Ok (GZNReqPacket h SubcodeGetZonesNet z)
    else Err (Errorf "unknown subcode %d" [AInt sc])
  else if cc =? CmdCodeZoneRsp then
    '(sc, p) ← parseSubcode p;
    if (sc =? SubcodeZoneInfoNonExt) || (sc =? SubcodeZoneInfoExt) then
      '(t, zs) ← parseZIRspPacket p sc; Ok (ZIRspPacket h sc t zs)
    else if sc =? SubcodeGetDomainZoneList then
      '(i, zs) ← parseGDZLRspPacket p; Ok (GDZLRspPacket h SubcodeGetDomainZoneList i zs)
    else if sc =? SubcodeGetZonesNet then
      '(z, notSupported, ns) ← parseGZNRspPacket p;
      Ok (GZNRspPacket h SubcodeGetZonesNet z notSupported ns)
    else Err (Errorf "unknown subcode %d" [AInt sc])
  else if cc =? CmdCodeTickle then Ok (TicklePacket h)
  else if cc =? CmdCodeTickleAck then Ok (TickleAckPacket h)
  else Err (Errorf "unknown routing packet command code %d" [AInt cc]).

Definition ParsePacket (p : list Z) : res (DomainHeader * Packet) :=
  '(dh, p) ← ParseDomainHeader p;
  if negb (Version dh =? 1) then
    Err (Errorf "unsupported domain header version %d" [AInt (Version dh)])
  else if PacketType dh =? PacketTypeAppleTalk then
    Ok (dh, AppleTalkPacket dh p)
  else if PacketType dh =? PacketTypeRouting then
    '(tr, p) ← parseTrHeader dh p;
    '(h, p) ← parseHeader tr p;
    pkt ← parseRoutingPacket h p;
    Ok (dh, pkt)
  else Err (Errorf "unsupported domain header packet type %d" [AInt (PacketType dh)]).

(** ** Accessors of the packet interfaces *)

(** [AURPHeader()] of a routing packet; none for encapsulated AppleTalk. *)
Definition pkt_header (p : Packet) : option Header :=
  match p with
  | AppleTalkPacket _ _ => None
  | OpenReqPacket h _ _ | OpenRspPacket h _ _ | RIReqPacket h | RIRspPacket h _
  | RIAckPacket h | RIUpdPacket h _ | RDPacket h _ | ZIReqPacket h _ _
  | ZIRspPacket h _ _ _ | GDZLReqPacket h _ _ | GDZLRspPacket h _ _ _
  | GZNReqPacket h _ _ | GZNRspPacket h _ _ _ _ | TicklePacket h
  | TickleAckPacket h => Some h
  end.

(** [GetDomainHeader()]. *)
Definition pkt_domain_header (p : Packet) : DomainHeader :=
  match p with
  | AppleTalkPacket dh _ => dh
  | OpenReqPacket h _ _ | OpenRspPacket h _ _ | RIReqPacket h | RIRspPacket h _
  | RIAckPacket h | RIUpdPacket h _ | RDPacket h _ | ZIReqPacket h _ _
  | ZIRspPacket h _ _ _ | GDZLReqPacket h _ _ | GDZLRspPacket h _ _ _
  | GZNReqPacket h _ _ | GZNRspPacket h _ _ _ _ | TicklePacket h
  | TickleAckPacket h => TrDomainHeader (HTrHeader h)
  end.

(** ** Well-formed packets: what the program sends *)

(** A routing header with command code [cc]. *)
Definition rhdr_wf (h : Header) (cc : Z) : Prop :=
  hdr_wf h /\ CommandCode h = cc
  /\ Version (TrDomainHeader (HTrHeader h)) = 1
  /\ PacketType (TrDomainHeader (HTrHeader h)) = PacketTypeRouting.

(** GZN-Rsp is left out: its encoder loses the zone name. *)
Definition pkt_wf (p : Packet) : Prop :=
  match p with
  | AppleTalkPacket dh data =>
      dh_wf dh /\ Version dh = 1 /\ PacketType dh = PacketTypeAppleTalk
  | OpenReqPacket h v o => rhdr_wf h CmdCodeOpenReq /\ u16 v /\ opts_wf o
  | OpenRspPacket h r o => rhdr_wf h CmdCodeOpenRsp /\ i16 r /\ opts_wf o
  | RIReqPacket h => rhdr_wf h CmdCodeRIReq
  | RIRspPacket h ns => rhdr_wf h CmdCodeRIRsp /\ Forall nt_wf ns
  | RIAckPacket h => rhdr_wf h CmdCodeRIAck
  | RIUpdPacket h es => rhdr_wf h CmdCodeRIUpd /\ Forall et_wf es
  | RDPacket h e => rhdr_wf h CmdCodeRD /\ i16 e
  | ZIReqPacket h sc ns =>
      rhdr_wf h CmdCodeZoneReq /\ sc = SubcodeZoneInfoReq /\ Forall u16 ns
  | ZIRspPacket h sc t zs =>
      rhdr_wf h CmdCodeZoneRsp /\
      ((sc = SubcodeZoneInfoNonExt /\ t = 0 /\ zts_wf zs) \/
       (sc = SubcodeZoneInfoExt /\ 0 < t < 65536 /\ Forall zt_wf zs /\
        exists net, Forall (fun zt => zt_Network zt = net) zs))
  | GDZLReqPacket h sc i =>
      rhdr_wf h CmdCodeZoneReq /\ sc = SubcodeGetDomainZoneList /\ u16 i
  | GDZLRspPacket h sc i names =>
      rhdr_wf h CmdCodeZoneRsp /\ sc = SubcodeGetDomainZoneList /\ i16 i
      /\ Forall (fun z => zlen z <= 127) names /\ (i = -1 -> names = [])
  | GZNReqPacket h sc z =>
      rhdr_wf h CmdCodeZoneReq /\ sc = SubcodeGetZonesNet /\ zlen z <= 127
  | GZNRspPacket _ _ _ _ _ => False
  | TicklePacket h => rhdr_wf h CmdCodeTickle
  | TickleAckPacket h => rhdr_wf h CmdCodeTickleAck
  end.

(** The bytes of a packet after its header. *)
Definition enc_payload (p : Packet) : list Z :=
  match p with
  | AppleTalkPacket _ data => data
  | OpenReqPacket _ v o => put16 v ++ enc_opts o
  | OpenRspPacket _ r o => put16 (wrap16 r) ++ enc_opts o
  | RIRspPacket _ ns => concat (map enc_nt ns)
  | RIUpdPacket _ es => concat (map enc_et es)
  | RDPacket _ e => put16 (wrap16 e)
  | ZIReqPacket _ sc ns => put16 sc ++ concat (map put16 ns)
  | ZIRspPacket _ sc t zs =>
      put16 sc ++ (if sc =? SubcodeZoneInfoExt
                   then put16 t ++ concat (map enc_ext_zt zs)
                   else enc_zone_tuples zs)
  | GDZLReqPacket _ sc i => put16 sc ++ put16 i
  | GDZLRspPacket _ sc i names =>
      put16 sc ++ put16 (wrap16 i) ++ concat (map name_enc names)
  | GZNReqPacket _ sc z => put16 sc ++ name_enc z
  | GZNRspPacket _ sc z true _ => put16 sc ++ [zlen z] ++ put16 0xffff
  | GZNRspPacket _ sc z false ns => put16 sc ++ [zlen z] ++ concat (map enc_nt ns)
  | RIReqPacket _ | RIAckPacket _ | TicklePacket _ | TickleAckPacket _ => []
  end.

Definition enc_packet (p : Packet) : list Z :=
  match pkt_header p with
  | Some h => enc_hdr h ++ enc_payload p
  | None => enc_dh (pkt_domain_header p) ++ enc_payload p
  end.

(** ** Encoders append the reference encoding *)

Ltac emit_hdr Hh := pose proof (hdr_emits _ (proj1 Hh)).

Lemma packet_emits p : pkt_wf p -> emits (Packet_WriteTo p) (enc_packet p).
Proof.
  destruct p; simpl; intros Hwf w; unfold enc_packet; simpl.
  - destruct Hwf as [Hdh _]. apply dh_emits in Hdh.
    unfold AppleTalkPacket_WriteTo. run_writer. done.
  - destruct Hwf as (Hh & _ & Ho). emit_hdr Hh. apply opts_emits in Ho.
    unfold OpenReqPacket_WriteTo. run_writer. by rewrite <- !app_assoc.
  - destruct Hwf as (Hh & _ & Ho). emit_hdr Hh. apply opts_emits in Ho.
    unfold OpenRspPacket_WriteTo. run_writer. by rewrite <- !app_assoc.
  - rewrite app_nil_r. by apply hdr_emits, Hwf.
  - destruct Hwf as (Hh & Hn). emit_hdr Hh. apply nts_emits in Hn.
    unfold RIRspPacket_WriteTo. by run_writer.
  - rewrite app_nil_r. by apply hdr_emits, Hwf.
  - destruct Hwf as (Hh & Hn). emit_hdr Hh. apply ets_emits in Hn.
    unfold RIUpdPacket_WriteTo. by run_writer.
  - destruct Hwf as (Hh & Hn). emit_hdr Hh. unfold RDPacket_WriteTo. by run_writer.
  - destruct Hwf as (Hh & -> & Hn). emit_hdr Hh.
    unfold ZIReqPacket_WriteTo, ZIReq_payload. run_writer.
    rewrite (fold_write_at _ put16) by (intros; by autorewrite with accum).
    run_writer. by rewrite <- !app_assoc.
  - destruct Hwf as (Hh & [(-> & -> & Hz)|(-> & Ht & Hz & _)]); emit_hdr Hh;
      unfold ZIRspPacket_WriteTo; simpl.
    + apply zts_emits in Hz. run_writer. by rewrite <- !app_assoc.
    + zdec. run_writer. rewrite zirsp_ext_loop_at by done.
      simpl. by rewrite <- !app_assoc.
  - destruct Hwf as (Hh & -> & Hn). emit_hdr Hh. unfold GDZLReqPacket_WriteTo.
    run_writer. by rewrite <- !app_assoc.
  - destruct Hwf as (Hh & -> & _ & Hz & Hi). emit_hdr Hh. unfold GDZLRspPacket_WriteTo.
    rewrite find_long_name_none by done. run_writer.
    case_if; zbool.
    + rewrite Hi by done. run_writer. simpl. by rewrite <- !app_assoc.
    + rewrite pascal_fold_at by done. run_writer. by rewrite <- !app_assoc.
  - destruct Hwf as (Hh & -> & Hz). emit_hdr Hh. unfold GZNReqPacket_WriteTo. zdec.
    run_writer. pose proof (zlen_nonneg zoneName). unfold wrap8, name_enc.
    rewrite Z.mod_small by lia. by rewrite <- !app_assoc.
  - done.
  - rewrite app_nil_r. by apply hdr_emits, Hwf.
  - rewrite app_nil_r. by apply hdr_emits, Hwf.
Qed.

(** ** Payload parsers invert the reference payloads *)

Lemma parse_openreq_enc v o : u16 v -> opts_wf o -> parseOpenReq (put16 v ++ enc_opts o) = Ok (v, o).
Proof.
  intros Hv Ho. unfold parseOpenReq. autorewrite with wire.
  assert (1 <= zlen (enc_opts o)).
  { unfold enc_opts. autorewrite with wire.
    pose proof (zlen_nonneg (concat (map enc_ot o))). lia. }
  zdec. rewrite slice_from_app, bind_Ok by done. rewrite parse_opts_enc, bind_Ok by done.
  rewrite slice_to_app, bind_Ok by done. rewrite <- (app_nil_r (put16 v)).
  by rewrite be16_put16.
Qed.

Lemma parse_openrsp_enc r o :
  i16 r -> opts_wf o -> parseOpenRsp (put16 (wrap16 r) ++ enc_opts o) = Ok (r, o).
Proof.
  intros Hr Ho. pose proof (parse_openreq_enc (wrap16 r) o (wrap16_u16 r) Ho) as H.
  unfold parseOpenReq, parseOpenRsp in *.
  assert (1 <= zlen (enc_opts o)).
  { unfold enc_opts. autorewrite with wire.
    pose proof (zlen_nonneg (concat (map enc_ot o))). lia. }
  revert H. autorewrite with wire. zdec.
  rewrite slice_from_app, !bind_Ok by done. rewrite parse_opts_enc, !bind_Ok by done.
  rewrite slice_to_app, !bind_Ok by done. rewrite <- (app_nil_r (put16 (wrap16 r))).
  rewrite be16_put16 by apply wrap16_u16. rewrite !bind_Ok. intros _.
  by rewrite to_int16_wrap16.
Qed.

Lemma parse_rd_enc e : i16 e -> parseRD (put16 (wrap16 e)) = Ok e.
Proof.
  intros He. unfold parseRD. autorewrite with wire. zdec.
  rewrite <- (app_nil_r (put16 (wrap16 e))), slice_to_app, bind_Ok by done.
  rewrite <- (app_nil_r (put16 (wrap16 e))), be16_put16 by apply wrap16_u16.
  rewrite bind_Ok. by rewrite to_int16_wrap16.
Qed.

Lemma parse_zirsp_enc sc t zs :
  (sc = SubcodeZoneInfoNonExt /\ t = 0 /\ zts_wf zs) \/
  (sc = SubcodeZoneInfoExt /\ 0 < t < 65536 /\ Forall zt_wf zs /\
    exists net, Forall (fun zt => zt_Network zt = net) zs) ->
  parseZIRspPacket
    (if sc =? SubcodeZoneInfoExt then put16 t ++ concat (map enc_ext_zt zs)
     else enc_zone_tuples zs) sc = Ok (t, zs).
Proof.
  intros [(-> & -> & Hz)|(-> & Ht & Hz & net & Hnet)]; unfold parseZIRspPacket; simpl.
  - by rewrite parse_zts_enc.
  - pose proof (zlen_nonneg (concat (map enc_ext_zt zs))).
    autorewrite with wire. zdec. parse_fields.
    destruct zs as [|z zs]; [done|].
    assert (zt_Network z = net) by (by apply Forall_cons in Hnet as [? _]).
    set (l := z :: zs) in *.
    assert (E : forall fuel n0, (length l <= fuel)%nat ->
      parse_ext_zone_loop fuel [] n0 (concat (map enc_ext_zt l))
      = parse_ext_zone_loop fuel [] net (concat (map enc_ext_zt l))).
    { intros [|f] n0 Hf; [by subst l|]. cbn [parse_ext_zone_loop]. done. }
    rewrite E by (by apply concat_length_ge).
    rewrite (parse_ext_loop_enc _ net) by (done || by apply concat_length_ge). done.
Qed.

Lemma parse_gdzlrsp_enc i names :
  i16 i -> Forall (fun z => zlen z <= 127) names -> (i = -1 -> names = []) ->
  parseGDZLRspPacket (put16 (wrap16 i) ++ concat (map name_enc names)) = Ok (i, names).
Proof.
  intros Hi Hn Hnil. unfold parseGDZLRspPacket.
  pose proof (zlen_nonneg (concat (map name_enc names))).
  autorewrite with wire. zdec. rewrite slice_to_app, bind_Ok by done.
  rewrite <- (app_nil_r (put16 (wrap16 i))) at 1.
  rewrite be16_put16, bind_Ok by apply wrap16_u16. rewrite to_int16_wrap16 by done.
  case_if; zbool.
  - subst. by rewrite Hnil.
  - rewrite slice_from_app, bind_Ok by done.
    by rewrite parse_pascal_enc by (done || by apply concat_length_ge).
Qed.

Lemma parse_gznreq_enc z : zlen z <= 127 -> parseGZNReqPacket (name_enc z) = Ok z.
Proof.
  intros Hz. pose proof (zlen_nonneg z). unfold parseGZNReqPacket, name_enc.
  autorewrite with wire. zdec. go_slices. zdec.
  rewrite <- (app_nil_r z) at 1. by apply slice_to_app.
Qed.

Lemma parse_routing_enc p h :
  pkt_wf p -> pkt_header p = Some h -> parseRoutingPacket h (enc_payload p) = Ok p.
Proof.
  unfold parseRoutingPacket.
  destruct p; cbn [pkt_wf pkt_header enc_payload]; intros Hwf [= <-]; try done;
    [ destruct Hwf as ((_ & -> & _) & Hv & Ho) | destruct Hwf as ((_ & -> & _) & Hv & Ho)
    | destruct Hwf as (_ & -> & _) | destruct Hwf as ((_ & -> & _) & Hn)
    | destruct Hwf as (_ & -> & _) | destruct Hwf as ((_ & -> & _) & Hn)
    | destruct Hwf as ((_ & -> & _) & He) | destruct Hwf as ((_ & -> & _) & -> & Hn)
    | destruct Hwf as ((_ & -> & _) & Hz) | destruct Hwf as ((_ & -> & _) & -> & Hn)
    | destruct Hwf as ((_ & -> & _) & -> & Hi & Hz & Hnil)
    | destruct Hwf as ((_ & -> & _) & -> & Hz)
    | destruct Hwf as (_ & -> & _) | destruct Hwf as (_ & -> & _) ];
    cbv zeta; eval_tests; try done.
  - by rewrite parse_openreq_enc.
  - by rewrite parse_openrsp_enc.
  - by rewrite parse_nts_enc.
  - by rewrite parse_ets_enc.
  - by rewrite parse_rd_enc.
  - rewrite parse_subcode_enc, bind_Ok by done. eval_tests. by rewrite parse_zireq_enc.
  - assert (Hsc : u16 subcode /\ (subcode =? SubcodeZoneInfoNonExt)
               || (subcode =? SubcodeZoneInfoExt) = true)
      by (by destruct Hz as [(-> & _)|(-> & _)]).
    destruct Hsc as [Hsc E]. rewrite parse_subcode_enc, bind_Ok by done. cbv beta iota.
    rewrite E. by rewrite parse_zirsp_enc.
  - rewrite parse_subcode_enc, bind_Ok by done. eval_tests. unfold parseGDZLReqPacket.
    autorewrite with wire. zdec. rewrite <- (app_nil_r (put16 startIndex)).
    rewrite slice_to_app, bind_Ok by done. rewrite <- (app_nil_r (put16 startIndex)).
    by rewrite be16_put16.
  - rewrite parse_subcode_enc, bind_Ok by done. eval_tests. by rewrite parse_gdzlrsp_enc.
  - rewrite parse_subcode_enc, bind_Ok by done. eval_tests. by rewrite parse_gznreq_enc.
Qed.

(** ** Decomposition of [ParsePacket] on a well-formed header *)

Lemma parse_packet_routing h payload :
  hdr_wf h -> Version (TrDomainHeader (HTrHeader h)) = 1 ->
  PacketType (TrDomainHeader (HTrHeader h)) = PacketTypeRouting ->
  ParsePacket (enc_hdr h ++ payload)
  = (pkt ← parseRoutingPacket h payload; Ok (TrDomainHeader (HTrHeader h), pkt)).
Proof.
  intros Hh Hv Hpt. unfold ParsePacket, enc_hdr, enc_tr. rewrite <- !app_assoc.
  rewrite parse_dh_enc by apply Hh. rewrite bind_Ok. cbv iota beta.
  rewrite Hv, Hpt. eval_tests. simpl negb. cbv iota.
  rewrite parse_tr_enc by apply Hh. rewrite bind_Ok. cbv iota beta.
  rewrite parse_hdr_enc by apply Hh. by rewrite bind_Ok.
Qed.

Lemma pkt_wf_header p h :
  pkt_wf p -> pkt_header p = Some h ->
  exists cc, rhdr_wf h cc /\ pkt_domain_header p = TrDomainHeader (HTrHeader h).
Proof. destruct p; simpl; intros Hwf [= <-]; naive_solver. Qed.

Lemma parse_packet_enc p :
  pkt_wf p -> ParsePacket (enc_packet p) = Ok (pkt_domain_header p, p).
Proof.
  intros Hwf. unfold enc_packet. destruct (pkt_header p) as [h|] eqn:Eh.
  - destruct (pkt_wf_header p h Hwf Eh) as (cc & (Hh & _ & Hv & Hpt) & ->).
    rewrite parse_packet_routing by done. by rewrite parse_routing_enc.
  - destruct p; try done. simpl in *. destruct Hwf as (Hdh & Hv & Hpt).
    unfold ParsePacket. rewrite parse_dh_enc by done. rewrite bind_Ok. cbv iota beta.
    by rewrite Hv, Hpt.
Qed.

(** What [ParsePacket] guarantees of the packet it returns. *)
Definition pkt_parsed (p : Packet) : Prop :=
  dh_wf (pkt_domain_header p) /\ Version (pkt_domain_header p) = 1 /\
  (forall h, pkt_header p = Some h -> hdr_wf h) /\
  match p with
  | AppleTalkPacket _ data => bytes_ok data
  | OpenReqPacket _ v o => u16 v /\ opts_wf o
  | OpenRspPacket _ r o => i16 r /\ opts_wf o
  | RIRspPacket _ ns => Forall nt_wf ns
  | RIUpdPacket _ es => Forall et_wf es
  | RDPacket _ e => i16 e
  | ZIReqPacket _ _ ns => Forall u16 ns
  | ZIRspPacket _ _ t zs => u16 t /\ Forall zt_parsed zs
  | GDZLReqPacket _ _ i => u16 i
  | GDZLRspPacket _ _ i names => i16 i /\ Forall name_parsed names
  | GZNReqPacket _ _ z => name_parsed z
  | GZNRspPacket _ _ z _ ns => name_parsed z /\ Forall nt_wf ns
  | RIReqPacket _ | RIAckPacket _ | TicklePacket _ | TickleAckPacket _ => True
  end.

Lemma parse_openreq_safe p :
  bytes_ok p -> safe (fun '(v, o) => u16 v /\ opts_wf o) (parseOpenReq p).
Proof.
  intros Hp. unfold parseOpenReq. safe_step; [done|]. safe_step.
  eapply safe_bind; [by apply parse_opts_safe|]. intros o Ho. safe_step. by split.
Qed.

Lemma parse_openrsp_safe p :
  bytes_ok p -> safe (fun '(v, o) => i16 v /\ opts_wf o) (parseOpenRsp p).
Proof.
  intros Hp. unfold parseOpenRsp. safe_step; [done|]. safe_step.
  eapply safe_bind; [by apply parse_opts_safe|]. intros o Ho. safe_step.
  split; [apply to_int16_range|done].
Qed.

Lemma parse_rd_safe p : bytes_ok p -> safe i16 (parseRD p).
Proof. intros Hp. unfold parseRD. repeat safe_step. apply to_int16_range. Qed.

#[global] Hint Resolve parse_openreq_safe parse_openrsp_safe parse_rd_safe parse_nts_safe
  parse_ets_safe parse_subcode_safe parse_zireq_safe parse_gdzlreq_safe parse_gznreq_safe
  parse_zirsp_safe parse_gdzlrsp_safe parse_gznrsp_safe : wire.

Lemma parse_routing_safe h p :
  hdr_wf h -> Version (TrDomainHeader (HTrHeader h)) = 1 -> bytes_ok p ->
  safe (fun pkt => pkt_parsed pkt /\ pkt_header pkt = Some h) (parseRoutingPacket h p).
Proof.
  intros Hh Hv Hp. assert (Hdh : dh_wf (TrDomainHeader (HTrHeader h))) by apply Hh.
  unfold parseRoutingPacket, pkt_parsed.
  repeat match goal with
  | |- safe _ (if ?b then _ else _) => destruct b
  | |- safe _ (mbind _ _) => eapply safe_bind; [by eauto with wire|intros]
  | x : (_ * _)%type |- _ => destruct x
  | |- safe _ (Err _) => exact I
  | |- safe _ (Ok _) => simpl; naive_solver
  | H : _ /\ _ |- _ => destruct H
  end.
Qed.

Lemma parse_packet_safe b :
  bytes_ok b ->
  safe (fun '(dh, pkt) => pkt_parsed pkt /\ dh = pkt_domain_header pkt) (ParsePacket b).
Proof.
  intros Hb. unfold ParsePacket.
  eapply safe_bind; [by apply parse_dh_safe|]. intros [dh p] [Hdh Hp].
  safe_step; [done|]. safe_step; [by repeat split; try apply Hdh|].
  safe_step; [|done].
  eapply safe_bind; [by apply parse_tr_safe|]. intros [tr p'] (Htr & <- & Hp').
  eapply safe_bind; [by apply parse_hdr_safe|]. intros [h p''] (Hh & <- & Hp'').
  eapply safe_bind; [by apply parse_routing_safe|].
  intros pkt [Hpkt Heq]. split; [done|]. by destruct pkt; simplify_eq/=.
Qed.

Lemma gznrsp_payload_err k :
  1 <= k <= 127 -> exists e, parseGZNRspPacket (k :: put16 0xffff) = Err e.
Proof.
  intros Hk. unfold parseGZNRspPacket. go_slices.
  change (zlen [wrap8 (65535 ≫ 8); wrap8 (Z.land 65535 255)]) with 2.
  case_if; [by eexists|]. zbool.
  assert (k = 1 \/ k = 2) as [->| ->] by lia; by eexists.
Qed.

(** * Properties *)

(** C1: decoding inverts encoding.  For every well-formed packet (every packet
    type except GZN-Rsp), [WriteTo] appends some bytes [out] to the buffer,
    returns their number and no error, and [ParsePacket] on exactly those bytes
    returns the packet's domain header and the packet itself, including zone
    lists written with back-references. *)
Theorem packet_roundtrip (p : Packet) :
  pkt_wf p ->
  exists out,
    (forall w, Packet_WriteTo p w = (w ++ out, (zlen out, None))) /\
    ParsePacket out = Ok (pkt_domain_header p, p).
Proof.
  intros Hwf. exists (enc_packet p). split; [by apply packet_emits|].
  by apply parse_packet_enc.
Qed.

(** C9: no datagram can crash the parser.  On every byte sequence [ParsePacket]
    returns a packet or an error, never an index or slice panic (and never runs
    out of fuel, so every loop terminates); a packet it returns carries the
    returned domain header, version 1, and fields within their widths. *)
Theorem ParsePacket_total (b : list Z) :
  bytes_ok b ->
  match ParsePacket b with
  | Ok (dh, p) => dh = pkt_domain_header p /\ pkt_parsed p
  | Err _ => True
  | Panic => False
  end.
Proof.
  intros Hb. pose proof (parse_packet_safe b Hb) as H.
  destruct (ParsePacket b) as [[dh p]| |]; naive_solver.
Qed.

(** The GZN-Rsp encoder writes the zone name's length but not the name, so
    the "not supported" reply the router sends to every GZN-Req with a nonempty
    zone name is a datagram its own parser rejects. *)
Theorem gznrsp_not_supported_unparseable (h : Header) (z : list Z) (ns : list NetworkTuple) :
  rhdr_wf h CmdCodeZoneRsp -> 1 <= zlen z <= 127 ->
  exists out e,
    (forall w, Packet_WriteTo (GZNRspPacket h SubcodeGetZonesNet z true ns) w
               = (w ++ out, (zlen out, None))) /\
    ParsePacket out = Err e.
Proof.
  intros (Hh & Hcc & Hv & Hpt) Hz.
  destruct (gznrsp_payload_err (zlen z) Hz) as [e He].
  exists (enc_hdr h ++ put16 SubcodeGetZonesNet ++ [zlen z] ++ put16 0xffff), e. split.
  - intros w. simpl. unfold GZNRspPacket_WriteTo. zdec. pose proof (hdr_emits h Hh).
    run_writer. unfold wrap8. rewrite Z.mod_small by lia. by rewrite <- !app_assoc.
  - rewrite parse_packet_routing by done. unfold parseRoutingPacket. rewrite Hcc.
    cbv zeta. eval_tests. rewrite parse_subcode_enc, bind_Ok by done. eval_tests.
    cbn [orb]. change ([zlen z] ++ put16 0xffff) with (zlen z :: put16 0xffff).
    by rewrite He.
Qed.

(** ** Witnesses *)

Definition wit_dh (pt : Z) : DomainHeader :=
  {| DestinationDI := IPDomainIdentifier [10; 0; 0; 1]; SourceDI := NullDomainIdentifier;
     Version := 1; Reserved := 0; PacketType := pt |}.

Definition wit_hdr (cc flags : Z) : Header :=
  {| HTrHeader := {| TrDomainHeader := wit_dh PacketTypeRouting;
                     ConnectionID := 7; Sequence := 1 |};
     CommandCode := cc; Flags := flags |}.

Lemma wit_rhdr cc : u16 cc -> rhdr_wf (wit_hdr cc 0) cc.
Proof.
  intros Hcc. unfold rhdr_wf, hdr_wf, tr_wf, dh_wf, u16 in *. simpl.
  split_and!; try lia; try done. repeat constructor; unfold u8; lia.
Qed.

(** A ZI-Rsp whose second tuple is a back-reference to the first one's name. *)
Definition wit_zirsp : Packet :=
  ZIRspPacket (wit_hdr CmdCodeZoneRsp 0) SubcodeZoneInfoNonExt 0
    [{| zt_Network := 3; zt_Name := str "home" |};
     {| zt_Network := 4; zt_Name := str "home" |}].

Lemma wit_zirsp_wf : pkt_wf wit_zirsp.
Proof.
  split; [apply wit_rhdr; unfold u16, CmdCodeZoneRsp; lia|].
  left. split; [done|]. split; [done|]. const_widths.
Qed.

Lemma packet_roundtrip_witness :
  exists out,
    (forall w, Packet_WriteTo wit_zirsp w = (w ++ out, (zlen out, None))) /\
    ParsePacket out = Ok (pkt_domain_header wit_zirsp, wit_zirsp).
Proof.
  apply (packet_roundtrip wit_zirsp). exact wit_zirsp_wf.
Defined.

Lemma ParsePacket_total_witness :
  match ParsePacket [7; 1; 0; 0; 10; 0; 0; 1; 1; 0; 0; 1; 0; 0; 0; 2; 9] with
  | Ok (dh, p) => dh = pkt_domain_header p /\ pkt_parsed p
  | Err _ => True
  | Panic => False
  end.
Proof.
  apply (ParsePacket_total [7; 1; 0; 0; 10; 0; 0; 1; 1; 0; 0; 1; 0; 0; 0; 2; 9]).
  repeat constructor; unfold u8; lia.
Defined.

Lemma gznrsp_not_supported_unparseable_witness :
  exists out e,
    (forall w, Packet_WriteTo
       (GZNRspPacket (wit_hdr CmdCodeZoneRsp 0) SubcodeGetZonesNet (str "home") true []) w
               = (w ++ out, (zlen out, None))) /\
    ParsePacket out = Err e.
Proof.
  apply (gznrsp_not_supported_unparseable (wit_hdr CmdCodeZoneRsp 0) (str "home") []).
  - apply wit_rhdr. unfold u16, CmdCodeZoneRsp. lia.
  - vm_compute. split; discriminate.
Defined.
