(* ===== verification/AurpTransport.v ===== *)
(** * The AURP-Tr transport ([aurp/transport.go])

    Identifiers, connection IDs and sequence numbers of a pair of one-way
    connections, and the packets built from them.  The theorems: sequence
    numbers avoid the reserved 0 under every operation and every interleaving
    of concurrent increments; sequenced and transaction packets are
    distinguishable; every packet the transport builds is parsed back unchanged
    by the peer; and the stored identifier panics on a change of type. *)
From S2P Require Import Prelude Wtacc AurpHeaders AurpTuples AurpZoneInfo AurpPacket.

Record Transport := {
  localDI : DomainIdentifier;
  remoteDI : DomainIdentifier;
  localConnID : Z;
  remoteConnID : Z;
  localSeq : Z;
  remoteSeq : Z }.

#[global] Instance Transport_eq_dec : EqDecision Transport.
Proof. solve_decision. Defined.

Definition NewTransport (ldi rdi : DomainIdentifier) (lconn rconn : Z) : Transport :=
  {| localDI := ldi; remoteDI := rdi; localConnID := lconn; remoteConnID := rconn;
     localSeq := 1; remoteSeq := 1 |}.

(** [atomic.Value.Store] panics when the dynamic type of the new value differs
    from the stored one's; the two identifier types are distinct types. *)
Definition same_di_type (a b : DomainIdentifier) : bool :=
  match a, b with
  | NullDomainIdentifier, NullDomainIdentifier => true
  | IPDomainIdentifier _, IPDomainIdentifier _ => true
  | _, _ => false
  end.

Definition SetRemoteDI (di : DomainIdentifier) (tr : Transport) : res Transport :=
  if same_di_type (remoteDI tr) di then
    Ok {| localDI := localDI tr; remoteDI := di; localConnID := localConnID tr;
          remoteConnID := remoteConnID tr; localSeq := localSeq tr; remoteSeq := remoteSeq tr |}
  else Panic.

Definition SetRemoteConnID (id : Z) (tr : Transport) : Transport :=
  {| localDI := localDI tr; remoteDI := remoteDI tr; localConnID := localConnID tr;
     remoteConnID := id; localSeq := localSeq tr; remoteSeq := remoteSeq tr |}.

Definition with_localSeq (s : Z) (tr : Transport) : Transport :=
  {| localDI := localDI tr; remoteDI := remoteDI tr; localConnID := localConnID tr;
     remoteConnID := remoteConnID tr; localSeq := s; remoteSeq := remoteSeq tr |}.

Definition with_remoteSeq (s : Z) (tr : Transport) : Transport :=
  {| localDI := localDI tr; remoteDI := remoteDI tr; localConnID := localConnID tr;
     remoteConnID := remoteConnID tr; localSeq := localSeq tr; remoteSeq := s |}.

Definition ResetLocalSeq (tr : Transport) : Transport := with_localSeq 1 tr.
Definition ResetRemoteSeq (tr : Transport) : Transport := with_remoteSeq 1 tr.

(** The uncontended effect of [incAtomic]; the concurrent loop is below. *)
Definition IncLocalConnID (tr : Transport) : Transport :=
  {| localDI := localDI tr; remoteDI := remoteDI tr;
     localConnID := Succ (wrap16 (localConnID tr));
     remoteConnID := remoteConnID tr; localSeq := localSeq tr; remoteSeq := remoteSeq tr |}.
Definition IncLocalSeq (tr : Transport) : Transport :=
  with_localSeq (Succ (wrap16 (localSeq tr))) tr.
Definition IncRemoteSeq (tr : Transport) : Transport :=
  with_remoteSeq (Succ (wrap16 (remoteSeq tr))) tr.

(** ** Headers *)

Definition domainHeader (tr : Transport) (pt : Z) : DomainHeader :=
  {| DestinationDI := remoteDI tr; SourceDI := localDI tr;
     Version := 1; Reserved := 0; PacketType := pt |}.

Definition transaction (tr : Transport) (connID : Z) : TrHeader :=
  {| TrDomainHeader := domainHeader tr PacketTypeRouting;
     ConnectionID := connID; Sequence := 0 |}.

Definition sequenced (tr : Transport) (connID seq : Z) : TrHeader :=
  {| TrDomainHeader := domainHeader tr PacketTypeRouting;
     ConnectionID := connID; Sequence := seq |}.

Definition mkHeader (th : TrHeader) (cc flags : Z) : Header :=
  {| HTrHeader := th; CommandCode := cc; Flags := flags |}.

(** ** Packet constructors *)

Definition NewAppleTalkPacket (tr : Transport) (data : list Z) : Packet :=
  AppleTalkPacket (domainHeader tr PacketTypeAppleTalk) data.

Definition NewOpenReqPacket (tr : Transport) (opts : list OptionTuple) : Packet :=
  OpenReqPacket (mkHeader (transaction tr (localConnID tr)) CmdCodeOpenReq RoutingFlagAllSUI)
    1 opts.

Definition NewOpenRspPacket (tr : Transport) (envFlags rateOrErr : Z)
    (opts : list OptionTuple) : Packet :=
  OpenRspPacket (mkHeader (transaction tr (remoteConnID tr)) CmdCodeOpenRsp envFlags)
    rateOrErr opts.

Definition NewRIReqPacket (tr : Transport) : Packet :=
  RIReqPacket (mkHeader (transaction tr (localConnID tr)) CmdCodeRIReq RoutingFlagAllSUI).

Definition NewRIRspPacket (tr : Transport) (last : Z) (nets : list NetworkTuple) : Packet :=
  RIRspPacket (mkHeader (sequenced tr (remoteConnID tr) (localSeq tr)) CmdCodeRIRsp last) nets.

Definition NewRIAckPacket (tr : Transport) (connID seq szi : Z) : Packet :=
  RIAckPacket (mkHeader (sequenced tr connID seq) CmdCodeRIAck szi).

Definition NewRIUpdPacket (tr : Transport) (events : list EventTuple) : Packet :=
  RIUpdPacket (mkHeader (sequenced tr (remoteConnID tr) (localSeq tr)) CmdCodeRIUpd 0) events.

Definition NewZIReqPacket (tr : Transport) (networks : list Z) : Packet :=
  ZIReqPacket (mkHeader (transaction tr (localConnID tr)) CmdCodeZoneReq 0)
    SubcodeZoneInfoReq networks.

(** The map is given as the list of its entries in iteration order. *)
Definition NewZIRspPacket (tr : Transport) (zoneLists : list (Z * list (list Z))) : Packet :=
  ZIRspPacket (mkHeader (transaction tr (remoteConnID tr)) CmdCodeZoneRsp 0)
    SubcodeZoneInfoNonExt 0
    (concat (map (fun '(nn, zl) =>
       map (fun z => {| zt_Network := nn; zt_Name := z |}) zl) zoneLists)).

Definition NewExtendedZIRspPacket (tr : Transport) (totalTuples : Z)
    (zones : list ZoneTuple) : Packet :=
  ZIRspPacket (mkHeader (transaction tr (remoteConnID tr)) CmdCodeZoneRsp 0)
    SubcodeZoneInfoExt totalTuples zones.

Definition NewGDZLReqPacket (tr : Transport) (startIdx : Z) : Packet :=
  GDZLReqPacket (mkHeader (transaction tr (localConnID tr)) CmdCodeZoneReq 0)
    SubcodeGetDomainZoneList startIdx.

Definition NewGDZLRspPacket (tr : Transport) (startIdx : Z) (zoneNames : list (list Z)) : Packet :=
  GDZLRspPacket (mkHeader (transaction tr (remoteConnID tr)) CmdCodeZoneRsp 0)
    SubcodeGetDomainZoneList startIdx zoneNames.

Definition NewGZNReqPacket (tr : Transport) (zoneName : list Z) : Packet :=
  GZNReqPacket (mkHeader (transaction tr (localConnID tr)) CmdCodeZoneReq 0)
    SubcodeGetZonesNet zoneName.

Definition NewGZNRspPacket (tr : Transport) (zoneName : list Z) (notSupported : bool)
    (nets : list NetworkTuple) : Packet :=
  GZNRspPacket (mkHeader (transaction tr (remoteConnID tr)) CmdCodeZoneRsp 0)
    SubcodeGetZonesNet zoneName notSupported nets.

Definition NewRDPacket (tr : Transport) (errCode : Z) : Packet :=
  RDPacket (mkHeader (transaction tr (localConnID tr)) CmdCodeRD 0) errCode.

Definition NewSenderRDPacket (tr : Transport) (errCode : Z) : Packet :=
  RDPacket (mkHeader (sequenced tr (remoteConnID tr) (localSeq tr)) CmdCodeRD 0) errCode.

Definition NewTicklePacket (tr : Transport) : Packet :=
  TicklePacket (mkHeader (transaction tr (localConnID tr)) CmdCodeTickle 0).

Definition NewTickleAckPacket (tr : Transport) : Packet :=
  TickleAckPacket (mkHeader (transaction tr (remoteConnID tr)) CmdCodeTickleAck 0).

(** ** [incAtomic] under contention

    Several goroutines run the load / compare-and-swap loop on one cell. *)
Inductive inc_pc := PcLoad | PcCas (n : Z) | PcDone.

Record inc_state := { inc_cell : Z; inc_threads : list inc_pc }.

(** One atomic step of goroutine [i]: the load, or the compare-and-swap, which
    goes back to the load when the cell has changed. *)
Inductive inc_step : inc_state -> inc_state -> Prop :=
| inc_load i cell ts :
    ts !! i = Some PcLoad ->
    inc_step {| inc_cell := cell; inc_threads := ts |}
             {| inc_cell := cell; inc_threads := <[i := PcCas (wrap16 cell)]> ts |}
| inc_cas_ok i cell ts n :
    ts !! i = Some (PcCas n) -> cell = n ->
    inc_step {| inc_cell := cell; inc_threads := ts |}
             {| inc_cell := Succ n; inc_threads := <[i := PcDone]> ts |}
| inc_cas_fail i cell ts n :
    ts !! i = Some (PcCas n) -> cell <> n ->
    inc_step {| inc_cell := cell; inc_threads := ts |}
             {| inc_cell := cell; inc_threads := <[i := PcLoad]> ts |}.

Definition count_done (ts : list inc_pc) : nat :=
  length (List.filter (fun t => match t with PcDone => true | _ => false end) ts).

(** * Invariant *)

Definition transport_ok (tr : Transport) : Prop :=
  di_wf (localDI tr) /\ di_wf (remoteDI tr) /\
  u16 (localConnID tr) /\ u16 (remoteConnID tr) /\
  1 <= localSeq tr < 65536 /\ 1 <= remoteSeq tr < 65536.

(** The operations the rest of the program applies to a transport. *)
Inductive transport_op :=
| OpSetRemoteDI (di : DomainIdentifier)
| OpSetRemoteConnID (id : Z)
| OpResetLocalSeq | OpResetRemoteSeq
| OpIncLocalConnID | OpIncLocalSeq | OpIncRemoteSeq.

Definition transport_run (op : transport_op) (tr : Transport) : res Transport :=
  match op with
  | OpSetRemoteDI di => SetRemoteDI di tr
  | OpSetRemoteConnID id => Ok (SetRemoteConnID id tr)
  | OpResetLocalSeq => Ok (ResetLocalSeq tr)
  | OpResetRemoteSeq => Ok (ResetRemoteSeq tr)
  | OpIncLocalConnID => Ok (IncLocalConnID tr)
  | OpIncLocalSeq => Ok (IncLocalSeq tr)
  | OpIncRemoteSeq => Ok (IncRemoteSeq tr)
  end.

Definition transport_op_ok (op : transport_op) : Prop :=
  match op with
  | OpSetRemoteDI di => di_wf di
  | OpSetRemoteConnID id => u16 id
  | _ => True
  end.

Fixpoint transport_runs (ops : list transport_op) (tr : Transport) : res Transport :=
  match ops with
  | [] => Ok tr
  | op :: ops => tr' ← transport_run op tr; transport_runs ops tr'
  end.

Lemma wrap16_small n : u16 n -> wrap16 n = n.
Proof. unfold u16, wrap16. apply Z.mod_small. Qed.

Lemma transport_run_ok op tr :
  transport_ok tr -> transport_op_ok op ->
  match transport_run op tr with
  | Ok tr' => transport_ok tr'
  | Err _ => False
  | Panic => exists di, op = OpSetRemoteDI di /\ same_di_type (remoteDI tr) di = false
  end.
Proof.
  intros (? & ? & Hl & Hr & Hls & Hrs) Hop.
  assert (Hl' : u16 (localSeq tr)) by width_lia.
  assert (Hr' : u16 (remoteSeq tr)) by width_lia.
  pose proof (Succ_range _ Hl). pose proof (Succ_range _ Hl'). pose proof (Succ_range _ Hr').
  destruct op; simpl in *; unfold transport_ok; simpl; rewrite ?wrap16_small by done;
    [unfold SetRemoteDI; case_if; [|by eauto]|..];
    simpl; split_and!; done || width_lia.
Qed.

(** * Sequence numbers form a cycle of length 65535 *)

Lemma Succ_cases n : 1 <= n < 65536 -> Succ n = if n =? 65535 then 1 else n + 1.
Proof.
  intros Hn. unfold Succ, wrap16. destruct (decide (n = 65535)) as [->|]; [done|].
  zdec. rewrite (Z.mod_small (n + 1)) by lia. by zdec.
Qed.

Lemma Pred_cases n : 1 <= n < 65536 -> Pred n = if n =? 1 then 65535 else n - 1.
Proof.
  intros Hn. unfold Pred, wrap16. destruct (decide (n = 1)) as [->|]; [done|].
  zdec. rewrite (Z.mod_small (n - 1)) by lia. by zdec.
Qed.

Lemma Succ_iter_ge1 k n : 1 <= n < 65536 -> 1 <= Nat.iter k Succ n < 65536.
Proof.
  intros Hn. induction k as [|k IH]; simpl; [done|]. apply Succ_range. width_lia.
Qed.

Lemma Succ_iter k n :
  1 <= n < 65536 -> Nat.iter k Succ n = (n - 1 + Z.of_nat k) mod 65535 + 1.
Proof.
  intros Hn. induction k as [|k IH].
  - simpl. rewrite Z.mod_small by lia. lia.
  - rewrite Nat.iter_succ, IH.
    set (m := n - 1 + Z.of_nat k). replace (n - 1 + Z.of_nat (S k)) with (m + 1) by lia.
    pose proof (Z.mod_pos_bound m 65535).
    rewrite Succ_cases by lia. rewrite <- (Z.add_mod_idemp_l m 1) by lia.
    case_if; zbool.
    + replace (m mod 65535) with 65534 by lia. reflexivity.
    + rewrite (Z.mod_small (m mod 65535 + 1)) by lia. lia.
Qed.

(** * Packets built by a transport *)

(** The packets the constructors build from in-range arguments (GZN-Rsp, whose
    encoder is not invertible, is treated in [AurpPacket]). *)
Inductive built_by (tr : Transport) : Packet -> Prop :=
| built_atalk data : built_by tr (NewAppleTalkPacket tr data)
| built_openreq o : opts_wf o -> built_by tr (NewOpenReqPacket tr o)
| built_openrsp f r o :
    u16 f -> i16 r -> opts_wf o -> built_by tr (NewOpenRspPacket tr f r o)
| built_rireq : built_by tr (NewRIReqPacket tr)
| built_rirsp f ns : u16 f -> Forall nt_wf ns -> built_by tr (NewRIRspPacket tr f ns)
| built_riack c s f : u16 c -> 1 <= s < 65536 -> u16 f -> built_by tr (NewRIAckPacket tr c s f)
| built_riupd es : Forall et_wf es -> built_by tr (NewRIUpdPacket tr es)
| built_zireq ns : Forall u16 ns -> built_by tr (NewZIReqPacket tr ns)
| built_zirsp zl p :
    p = NewZIRspPacket tr zl ->
    zts_wf (concat (map (fun '(nn, zl) =>
       map (fun z => {| zt_Network := nn; zt_Name := z |}) zl) zl)) ->
    built_by tr p
| built_extzirsp t zs net :
    0 < t < 65536 -> Forall zt_wf zs -> Forall (fun zt => zt_Network zt = net) zs ->
    built_by tr (NewExtendedZIRspPacket tr t zs)
| built_gdzlreq i : u16 i -> built_by tr (NewGDZLReqPacket tr i)
| built_gdzlrsp i names :
    i16 i -> Forall (fun z => zlen z <= 127) names -> (i = -1 -> names = []) ->
    built_by tr (NewGDZLRspPacket tr i names)
| built_gznreq z : zlen z <= 127 -> built_by tr (NewGZNReqPacket tr z)
| built_rd e : i16 e -> built_by tr (NewRDPacket tr e)
| built_senderrd e : i16 e -> built_by tr (NewSenderRDPacket tr e)
| built_tickle : built_by tr (NewTicklePacket tr)
| built_tickleack : built_by tr (NewTickleAckPacket tr).

Lemma mkHeader_wf tr th cc f :
  transport_ok tr -> TrDomainHeader th = domainHeader tr PacketTypeRouting ->
  u16 (ConnectionID th) -> u16 (Sequence th) -> u16 cc -> u16 f ->
  rhdr_wf (mkHeader th cc f) cc.
Proof.
  intros (? & ? & _) Hth ? ? ? ?. unfold rhdr_wf, hdr_wf, tr_wf, dh_wf. simpl. rewrite Hth.
  unfold domainHeader. simpl. split_and!; done || const_widths.
Qed.

Lemma built_by_wf tr p : transport_ok tr -> built_by tr p -> pkt_wf p.
Proof.
  intros Htr Hb. pose proof Htr as (Hd & Hd' & Hl & Hr & Hls & Hrs).
  assert (Hh : forall c s cc f, u16 c -> u16 s -> u16 cc -> u16 f ->
    rhdr_wf (mkHeader (sequenced tr c s) cc f) cc)
    by (intros; by eapply mkHeader_wf).
  assert (Hh0 : forall c cc f, u16 c -> u16 cc -> u16 f ->
    rhdr_wf (mkHeader (transaction tr c) cc f) cc)
    by (intros; eapply mkHeader_wf; eauto; const_widths).
  assert (Hs : u16 (localSeq tr)) by width_lia.
  destruct Hb; subst; simpl;
    lazymatch goal with
    | |- dh_wf _ /\ _ => unfold dh_wf; simpl; unfold PacketTypeAppleTalk
    | |- rhdr_wf _ _ /\ (_ \/ _) => split
    | |- rhdr_wf _ _ => idtac
    | |- _ => split_and!
    end;
    try lazymatch goal with
    | |- rhdr_wf _ ?cc => unfold cc; first [apply Hh|apply Hh0];
        unfold RoutingFlagAllSUI, RoutingFlagSUINA, RoutingFlagSUINDOrNRC, RoutingFlagSUINDC,
          RoutingFlagSUIZC; try done; simpl; width_lia
    end; try done; try width_lia.
  - by left.
  - right. eauto.
Qed.

(** Which packet kinds carry data of the sender's sequence. *)
Definition carries_sequence (p : Packet) : bool :=
  match p with
  | RIRspPacket _ _ | RIUpdPacket _ _ | RIAckPacket _ => true
  | _ => false
  end.

Lemma built_by_sequence tr p h :
  transport_ok tr -> built_by tr p -> pkt_header p = Some h ->
  (carries_sequence p = true -> Sequence (HTrHeader h) <> 0) /\
  (carries_sequence p = false -> (forall e, p <> NewSenderRDPacket tr e) ->
     Sequence (HTrHeader h) = 0).
Proof.
  intros (_ & _ & _ & _ & Hls & _) Hb Hh.
  destruct Hb; simplify_eq/=; split; intros; try done; try lia.
  match goal with Hn : forall _, _ <> _ |- _ => by destruct (Hn e) end.
Qed.

(** * Interleaved increments *)

Lemma count_done_insert ts i t t' :
  ts !! i = Some t ->
  (count_done (<[i := t']> ts) + (match t with PcDone => 1 | _ => 0 end)
   = count_done ts + (match t' with PcDone => 1 | _ => 0 end))%nat.
Proof.
  unfold count_done. revert i. induction ts as [|u ts IH]; intros [|i] H; simplify_eq/=.
  - destruct t, t'; simpl; lia.
  - specialize (IH _ H). destruct u; simpl; lia.
Qed.

Definition inc_inv (v0 : Z) (s : inc_state) : Prop :=
  inc_cell s = Nat.iter (count_done (inc_threads s)) Succ v0.

Lemma inc_step_inv v0 s s' :
  inc_step s s' -> inc_inv v0 s -> inc_inv v0 s'.
Proof.
  intros Hs. unfold inc_inv.
  destruct Hs as [i cell ts Hi|i cell ts n Hi ->|i cell ts n Hi _]; simpl; intros ->;
    [pose proof (count_done_insert _ _ _ (PcCas (wrap16 (Nat.iter (count_done ts) Succ v0))) Hi)
    |pose proof (count_done_insert _ _ _ PcDone Hi)
    |pose proof (count_done_insert _ _ _ PcLoad Hi)]; simpl in *.
  - f_equal. lia.
  - replace (count_done (<[i:=PcDone]> ts)) with (S (count_done ts)) by lia. done.
  - f_equal. lia.
Qed.

(** Some goroutine can always make progress while one has not finished. *)
Lemma inc_progress s i t :
  inc_threads s !! i = Some t -> t <> PcDone -> exists s', inc_step s s'.
Proof.
  destruct s as [cell ts]. simpl. intros Hi Ht. destruct t as [|n|]; [| |done].
  - eexists. by apply (inc_load i).
  - destruct (decide (cell = n)); eexists; [by eapply (inc_cas_ok i)|by eapply (inc_cas_fail i)].
Qed.

(** * Properties *)

(** The sequence discipline is an invariant of the transport.  From a
    transport in the invariant (identifiers well-formed, connection IDs 16 bits
    wide, both sequence numbers in 1..65535, so never the reserved 0), any run
    of operations either ends in a transport in the invariant or stops at a
    [SetRemoteDI] of the other identifier type. *)
Theorem transport_runs_invariant (ops : list transport_op) (tr : Transport) :
  transport_ok tr -> Forall transport_op_ok ops ->
  match transport_runs ops tr with
  | Ok tr' => transport_ok tr'
  | Err _ => False
  | Panic => exists di, OpSetRemoteDI di ∈ ops
  end.
Proof.
  intros Htr Hops. revert tr Htr. induction Hops as [|op ops Hop Hops IH]; intros tr Htr; [done|].
  simpl. pose proof (transport_run_ok op tr Htr Hop) as H.
  destruct (transport_run op tr) as [tr'| |]; simpl; [|done|].
  - specialize (IH tr' H). destruct (transport_runs ops tr'); [done..|].
    destruct IH as [di Hdi]. exists di. by right.
  - destruct H as (di & -> & _). exists di. by left.
Qed.

(** Every packet a transport builds reaches the peer's parser unchanged:
    [ParsePacket] of the bytes written is the packet, with the transport's
    identifiers in its domain header; and data-carrying packets (RI-Rsp,
    RI-Upd, RI-Ack) have a nonzero sequence number while transactions have
    sequence 0, so the receiver can tell them apart. *)
Theorem built_packets_roundtrip (tr : Transport) (p : Packet) :
  transport_ok tr -> built_by tr p ->
  exists out,
    (forall w, Packet_WriteTo p w = (w ++ out, (zlen out, None))) /\
    ParsePacket out = Ok (domainHeader tr (PacketType (pkt_domain_header p)), p) /\
    forall h, pkt_header p = Some h ->
      (carries_sequence p = true -> Sequence (HTrHeader h) <> 0) /\
      (carries_sequence p = false -> (forall e, p <> NewSenderRDPacket tr e) ->
         Sequence (HTrHeader h) = 0).
Proof.
  intros Htr Hb. pose proof (built_by_wf tr p Htr Hb) as Hwf.
  exists (enc_packet p). split_and!; [by apply packet_emits| |by intros; eapply built_by_sequence].
  rewrite parse_packet_enc by done. do 2 f_equal. by destruct Hb; subst.
Qed.

(** [incAtomic] is linearizable.  From a cell holding [v0] and [n]
    goroutines about to increment it, in every reachable state of every
    interleaving of their loads and compare-and-swaps the cell holds [v0]
    advanced once per finished goroutine - no increment is lost or doubled -
    and it is never the reserved 0. *)
Theorem incAtomic_linearizable (v0 : Z) (n : nat) (s : inc_state) :
  1 <= v0 < 65536 ->
  rtc inc_step {| inc_cell := v0; inc_threads := replicate n PcLoad |} s ->
  inc_cell s = (v0 - 1 + Z.of_nat (count_done (inc_threads s))) mod 65535 + 1.
Proof.
  intros Hv Hr.
  assert (Hinit : inc_inv v0 {| inc_cell := v0; inc_threads := replicate n PcLoad |}).
  { unfold inc_inv. simpl. replace (count_done (replicate n PcLoad)) with 0%nat; [done|].
    clear. unfold count_done. induction n; [done|]. by simpl. }
  rewrite <- Succ_iter by done.
  induction Hr as [s|s1 s2 s3 Hs _ IH]; [done|]. eauto using inc_step_inv.
Qed.

(** Sequence arithmetic.  On 1..65535 [Succ] and [Pred] are mutually
    inverse, stay in the range, and the current, next and previous numbers are
    three different numbers, so the receiver's comparison with the expected and
    the previous sequence number is unambiguous. *)
Lemma sequence_cycle (n : Z) :
  1 <= n < 65536 ->
  1 <= Succ n < 65536 /\ 1 <= Pred n < 65536 /\
  Pred (Succ n) = n /\ Succ (Pred n) = n /\
  Succ n <> n /\ Pred n <> n /\ Pred n <> Succ n.
Proof.
  intros Hn. assert (Hu : u16 n) by width_lia.
  pose proof (Succ_range n Hu) as Hs. pose proof (Pred_range n Hu) as Hp.
  rewrite (Pred_cases (Succ n)), (Succ_cases (Pred n)) by done.
  rewrite (Pred_cases n), (Succ_cases n) in * by done.
  destruct (n =? 65535) eqn:E, (n =? 1) eqn:E'; zbool; split_and!; zdec; lia.
Qed.

(** A change of identifier type crashes the process.  A well-formed routing
    datagram whose source identifier is the null identifier is accepted by
    [ParsePacket], and storing that source identifier in a transport created
    with an IP identifier for the peer panics. *)
Theorem null_source_crashes (tr : Transport) (ip : list Z) (p : Packet) :
  remoteDI tr = IPDomainIdentifier ip -> pkt_wf p ->
  SourceDI (pkt_domain_header p) = NullDomainIdentifier ->
  exists out dh,
    (forall w, Packet_WriteTo p w = (w ++ out, (zlen out, None))) /\
    ParsePacket out = Ok (dh, p) /\ SetRemoteDI (SourceDI dh) tr = Panic.
Proof.
  intros Htr Hwf Hsrc. exists (enc_packet p), (pkt_domain_header p).
  split_and!; [by apply packet_emits|by apply parse_packet_enc|].
  unfold SetRemoteDI. by rewrite Hsrc, Htr.
Qed.

(** ** Witnesses *)

Definition wit_tr : Transport :=
  NewTransport (IPDomainIdentifier [10; 0; 0; 1]) (IPDomainIdentifier [10; 0; 0; 2]) 7 9.

Lemma wit_tr_ok : transport_ok wit_tr.
Proof. const_widths. Qed.

Lemma transport_runs_invariant_witness :
  match transport_runs [OpIncLocalSeq; OpSetRemoteConnID 12; OpResetRemoteSeq] wit_tr with
  | Ok tr' => transport_ok tr'
  | Err _ => False
  | Panic =>
      exists di, OpSetRemoteDI di ∈ [OpIncLocalSeq; OpSetRemoteConnID 12; OpResetRemoteSeq]
  end.
Proof.
  apply (transport_runs_invariant [OpIncLocalSeq; OpSetRemoteConnID 12; OpResetRemoteSeq]).
  - exact wit_tr_ok.
  - repeat constructor; unfold transport_op_ok, u16; lia.
Defined.

Lemma built_packets_roundtrip_witness :
  exists out,
    (forall w, Packet_WriteTo (NewOpenReqPacket wit_tr []) w = (w ++ out, (zlen out, None))) /\
    ParsePacket out = Ok (domainHeader wit_tr PacketTypeRouting, NewOpenReqPacket wit_tr []) /\
    forall h, pkt_header (NewOpenReqPacket wit_tr []) = Some h ->
      (carries_sequence (NewOpenReqPacket wit_tr []) = true -> Sequence (HTrHeader h) <> 0) /\
      (carries_sequence (NewOpenReqPacket wit_tr []) = false ->
         (forall e, NewOpenReqPacket wit_tr [] <> NewSenderRDPacket wit_tr e) ->
         Sequence (HTrHeader h) = 0).
Proof.
  apply (built_packets_roundtrip wit_tr (NewOpenReqPacket wit_tr [])).
  - exact wit_tr_ok.
  - constructor. const_widths.
Defined.

Lemma incAtomic_linearizable_witness :
  inc_cell {| inc_cell := 1; inc_threads := [PcCas 65535; PcDone] |}
  = (65535 - 1 + Z.of_nat (count_done [PcCas 65535; PcDone])) mod 65535 + 1.
Proof.
  apply (incAtomic_linearizable 65535 2
           {| inc_cell := 1; inc_threads := [PcCas 65535; PcDone] |}); [lia|].
  eapply rtc_l; [by apply (inc_load 0)|]. eapply rtc_l; [by apply (inc_load 1)|].
  eapply rtc_l; [by apply (inc_cas_ok 1)|]. apply rtc_refl.
Defined.

Lemma null_source_crashes_witness :
  exists out dh,
    (forall w, Packet_WriteTo wit_zirsp w = (w ++ out, (zlen out, None))) /\
    ParsePacket out = Ok (dh, wit_zirsp) /\ SetRemoteDI (SourceDI dh) wit_tr = Panic.
Proof.
  apply (null_source_crashes wit_tr [10; 0; 0; 2] wit_zirsp); [reflexivity|exact wit_zirsp_wf|reflexivity].
Defined.
