(* ===== verification/PeerPolicy.v ===== *)
(** * Per-peer policy: selectors, remapping and hiding
      ([router/aurp_remap.go], the rule types and remap validation of
      [router/config.go])

    Network numbers are [uint16], so the remapped number is computed modulo
    2^16.  [strings.ToLower], [strings.TrimSpace] and [strings.EqualFold] are
    the operations of an interface; the theorems hold for any of them and the
    witnesses use the ASCII ones. *)
From S2P Require Import Prelude AurpHeaders AurpTuples.

Class GoStrings := {
  ToLower : list Z -> list Z;
  TrimSpace : list Z -> list Z;
  EqualFold : list Z -> list Z -> bool }.

(** The three functions on ASCII strings. *)
Definition ascii_lower (b : Z) : Z := if (65 <=? b) && (b <=? 90) then b + 32 else b.
Definition ascii_space (b : Z) : bool := (b =? 32) || ((9 <=? b) && (b <=? 13)).
Fixpoint drop_spaces (s : list Z) : list Z :=
  match s with
  | b :: s' => if ascii_space b then drop_spaces s' else s
  | [] => []
  end.
Definition ascii_strings : GoStrings := {|
  ToLower := map ascii_lower;
  TrimSpace s := rev (drop_spaces (rev (drop_spaces s)));
  EqualFold a b := bool_decide (map ascii_lower a = map ascii_lower b) |}.

Module Policy.

(** ** Rules ([config.go]) *)

Record AURPNetworkRange := { nr_Start : Z; nr_End : Z }.

Definition contains (r : AURPNetworkRange) (network : Z) : bool :=
  (nr_Start r <=? network) && (network <=? nr_End r).

Definition overlaps (r : AURPNetworkRange) (start end_ : Z) : bool :=
  (start <=? nr_End r) && (nr_Start r <=? end_).

Record AURPRemapRule := {
  rr_Peer : list Z; RemoteStart : Z; RemoteEnd : Z; LocalStart : Z; LocalEnd : Z }.

Definition remoteRange (r : AURPRemapRule) : AURPNetworkRange :=
  {| nr_Start := RemoteStart r; nr_End := RemoteEnd r |}.
Definition localRange (r : AURPRemapRule) : AURPNetworkRange :=
  {| nr_Start := LocalStart r; nr_End := LocalEnd r |}.

Record AURPDeviceHideRule := {
  dh_Peer : list Z; dh_Object : list Z; dh_Type : list Z; dh_Direction : list Z }.

(** [AURPExportHideRule] and [AURPImportHideRule] have the same fields. *)
Record AURPHideRule := { hr_Peer : list Z; hr_Start : Z; hr_End : Z }.

Record AURPBackupPeerRule := { bp_Peer : list Z; bp_Penalty : Z }.

Record AURPClusterRule := { cl_Start : Z; cl_End : Z }.

Definition cluster_contains (c : AURPClusterRule) (network : Z) : bool :=
  (cl_Start c <=? network) && (network <=? cl_End c).

(** Durations in nanoseconds. *)
Record AURPConfig := {
  LastHeardFromTimeout : Z;
  RetryInterval : Z;
  SendRetryLimit : Z;
  TickleRetryLimit : Z;
  ZoneInfoRetryInterval : Z;
  UpdateInterval : Z;
  HiddenNetworks : list AURPNetworkRange;
  HopCountReduction : bool;
  HopCountWeight : Z;
  RemapRules : list AURPRemapRule;
  HiddenDevices : list AURPDeviceHideRule;
  Clusters : list AURPClusterRule;
  BackupPeers : list AURPBackupPeerRule;
  HiddenImportNetworks : list AURPHideRule;
  HiddenExportNetworks : list AURPHideRule }.

Definition networkHidden (c : AURPConfig) (network : Z) : bool :=
  existsb (fun r => contains r network) (HiddenNetworks c).

Definition rangeHidden (c : AURPConfig) (start end_ : Z) : bool :=
  existsb (fun r => overlaps r start end_) (HiddenNetworks c).

(** The identity of a peer that selectors refer to. *)
Record PeerIdent := { tunnelID : list Z; ConfiguredAddr : list Z }.

Section Policy.
Context {GStr : GoStrings}.

(** The errors [LoadConfig] reports for one remap rule. *)
Definition remap_rule_ok (r : AURPRemapRule) : bool :=
  negb ((RemoteStart r =? 0) || (LocalStart r =? 0)) &&
  negb (RemoteEnd r <? RemoteStart r) &&
  negb (LocalEnd r <? LocalStart r) &&
  (RemoteEnd r - RemoteStart r =? LocalEnd r - LocalStart r) &&
  negb ((0xff00 <=? LocalStart r) || (0xff00 <=? LocalEnd r)).

(** ... and for a pair of rules: overlapping local ranges, or overlapping
    remote ranges for selectors that are equal up to case. *)
Definition remap_pair_ok (a b : AURPRemapRule) : bool :=
  negb (overlaps (localRange a) (LocalStart b) (LocalEnd b)) &&
  negb (EqualFold (rr_Peer a) (rr_Peer b) &&
        overlaps (remoteRange a) (RemoteStart b) (RemoteEnd b)).

Fixpoint remap_pairs_ok (rules : list AURPRemapRule) : bool :=
  match rules with
  | [] => true
  | a :: rest => forallb (remap_pair_ok a) rest && remap_pairs_ok rest
  end.

Definition validate_remap (rules : list AURPRemapRule) : bool :=
  forallb remap_rule_ok rules && remap_pairs_ok rules.

(** ** Selectors and remapping ([aurp_remap.go]) *)

Definition peerSelectorMatches (selector : list Z) (peer : PeerIdent) : bool :=
  if bool_decide (TrimSpace selector = []) then true
  else
    let selector := ToLower (TrimSpace selector) in
    if bool_decide (selector = ToLower (tunnelID peer)) then true
    else if bool_decide (ConfiguredAddr peer <> []) then
      let configured := ToLower (ConfiguredAddr peer) in
      bool_decide (selector = configured) || bool_decide (selector = str "cfg:" ++ configured)
    else false.

Definition rule_matchesPeer (r : AURPRemapRule) (p : PeerIdent) : bool :=
  peerSelectorMatches (rr_Peer r) p.

Definition hasRemapRuleForPeer (c : AURPConfig) (p : PeerIdent) : bool :=
  existsb (fun r => rule_matchesPeer r p) (RemapRules c).

Definition remapNetworkNumber (network fromStart fromEnd toStart : Z) : Z * bool :=
  if (network <? fromStart) || (fromEnd <? network) then (network, false)
  else (wrap16 (toStart + wrap16 (network - fromStart)), true).

Fixpoint remap_with (range : AURPRemapRule -> Z * Z * Z) (p : PeerIdent)
    (rules : list AURPRemapRule) (network : Z) : Z * bool :=
  match rules with
  | [] => (network, false)
  | rule :: rules =>
      if negb (rule_matchesPeer rule p) then remap_with range p rules network
      else
        let '(fromStart, fromEnd, toStart) := range rule in
        let '(mapped, ok) := remapNetworkNumber network fromStart fromEnd toStart in
        if ok then (mapped, true) else remap_with range p rules network
  end.

Definition remapInboundNetwork (c : AURPConfig) (p : PeerIdent) (network : Z) : Z * bool :=
  remap_with (fun r => (RemoteStart r, RemoteEnd r, LocalStart r)) p (RemapRules c) network.

Definition remapOutboundNetwork (c : AURPConfig) (p : PeerIdent) (network : Z) : Z * bool :=
  remap_with (fun r => (LocalStart r, LocalEnd r, RemoteStart r)) p (RemapRules c) network.

(** The error result is always nil. *)
Fixpoint remap_range_with (p : PeerIdent) (rules : list AURPRemapRule) (start end_ : Z) :
    Z * Z * bool :=
  match rules with
  | [] => (start, end_, false)
  | rule :: rules =>
      if negb (rule_matchesPeer rule p) then remap_range_with p rules start end_
      else if (start <? RemoteStart rule) || (RemoteEnd rule <? end_)
           then remap_range_with p rules start end_
           else (wrap16 (LocalStart rule + wrap16 (start - RemoteStart rule)),
                 wrap16 (LocalStart rule + wrap16 (end_ - RemoteStart rule)), true)
  end.

Definition remapInboundRange (c : AURPConfig) (p : PeerIdent) (start end_ : Z) : Z * Z * bool :=
  remap_range_with p (RemapRules c) start end_.

Definition remapInboundNetworkTuple (c : AURPConfig) (p : PeerIdent) (t : NetworkTuple) :
    NetworkTuple :=
  let '(start, end_, mapped) := remapInboundRange c p (nt_RangeStart t) (nt_RangeEnd t) in
  if mapped then
    {| nt_Extended := nt_Extended t; nt_RangeStart := start; nt_Distance := nt_Distance t;
       nt_RangeEnd := end_ |}
  else t.

Definition et_with_range (start end_ : Z) (e : EventTuple) : EventTuple :=
  {| et_EventCode := et_EventCode e; et_Extended := et_Extended e; et_RangeStart := start;
     et_Distance := et_Distance e; et_RangeEnd := end_ |}.

Definition remapInboundEvent (c : AURPConfig) (p : PeerIdent) (e : EventTuple) : EventTuple :=
  let code := et_EventCode e in
  if (code =? EventCodeNA) || (code =? EventCodeNDC) then
    let '(start, end_, mapped) := remapInboundRange c p (et_RangeStart e) (et_RangeEnd e) in
    if mapped then et_with_range start end_ e else e
  else if (code =? EventCodeND) || (code =? EventCodeNRC) then
    let '(mapped, ok) := remapInboundNetwork c p (et_RangeStart e) in
    if ok then et_with_range mapped (et_RangeEnd e) e else e
  else e.

(** ** Hiding *)

Definition hide_matches (p : PeerIdent) (test : AURPHideRule -> bool)
    (rules : list AURPHideRule) : bool :=
  existsb (fun r => peerSelectorMatches (hr_Peer r) p && test r) rules.

Definition exportNetworkHidden (c : AURPConfig) (p : PeerIdent) (network : Z) : bool :=
  networkHidden c network ||
  hide_matches p (fun r => (hr_Start r <=? network) && (network <=? hr_End r))
    (HiddenExportNetworks c).

Definition exportRangeHidden (c : AURPConfig) (p : PeerIdent) (start end_ : Z) : bool :=
  rangeHidden c start end_ ||
  hide_matches p (fun r => (start <=? hr_End r) && (hr_Start r <=? end_))
    (HiddenExportNetworks c).

Definition importNetworkHidden (c : AURPConfig) (p : PeerIdent) (network : Z) : bool :=
  hide_matches p (fun r => (hr_Start r <=? network) && (network <=? hr_End r))
    (HiddenImportNetworks c).

Definition importRangeHidden (c : AURPConfig) (p : PeerIdent) (start end_ : Z) : bool :=
  hide_matches p (fun r => (start <=? hr_End r) && (hr_Start r <=? end_))
    (HiddenImportNetworks c).

End Policy.
End Policy.

Import Policy.

(** * Lemmas *)

Definition rule_widths (r : AURPRemapRule) : Prop :=
  u16 (RemoteStart r) /\ u16 (RemoteEnd r) /\ u16 (LocalStart r) /\ u16 (LocalEnd r).

Section Lemmas.
Context {GStr : GoStrings}.

Lemma remap_number_in n a b c :
  a <= n <= b -> 0 <= a -> b < 65536 -> 0 <= c -> c + (b - a) < 65536 ->
  remapNetworkNumber n a b c = (c + (n - a), true).
Proof.
  intros. unfold remapNetworkNumber. zdec. simpl. unfold wrap16.
  rewrite (Z.mod_small (n - a)) by lia. by rewrite Z.mod_small by lia.
Qed.

Lemma remap_number_out n a b c : ~ (a <= n <= b) -> remapNetworkNumber n a b c = (n, false).
Proof.
  intros. unfold remapNetworkNumber.
  destruct (n <? a) eqn:E1, (b <? n) eqn:E2; zbool; simpl; done || lia.
Qed.

(** A remapped number comes from the first matching rule that contains it. *)
Lemma remap_with_inv range p rules n m :
  remap_with range p rules n = (m, true) ->
  exists pre r post, rules = pre ++ r :: post /\ rule_matchesPeer r p = true /\
    (let '(a, b, c) := range r in remapNetworkNumber n a b c = (m, true)).
Proof.
  induction rules as [|r rules IH]; cbn [remap_with]; [done|].
  destruct (rule_matchesPeer r p) eqn:Em; cbn [negb].
  - destruct (range r) as [[a b] c] eqn:Er.
    destruct (remapNetworkNumber n a b c) as [k ok] eqn:En. destruct ok.
    + intros [= ->]. exists [], r, rules. rewrite Er. done.
    + intros (pre & r' & post & -> & H)%IH. by exists (r :: pre), r', post.
  - intros (pre & r' & post & -> & H)%IH. by exists (r :: pre), r', post.
Qed.

Lemma remap_with_skip range p pre rules n :
  (forall r, r ∈ pre -> let '(a, b, c) := range r in ~ (a <= n <= b)) ->
  remap_with range p (pre ++ rules) n = remap_with range p rules n.
Proof.
  induction pre as [|r pre IH]; intros H; [done|]. cbn [remap_with app].
  rewrite IH by (intros; apply H; by right).
  destruct (rule_matchesPeer r p); cbn [negb]; [|done].
  specialize (H r (list_elem_of_here _ _)). destruct (range r) as [[a b] c].
  by rewrite remap_number_out.
Qed.

Lemma remap_with_hit range p r rules n m :
  rule_matchesPeer r p = true ->
  (let '(a, b, c) := range r in remapNetworkNumber n a b c = (m, true)) ->
  remap_with range p (r :: rules) n = (m, true).
Proof.
  intros Hm H. cbn [remap_with]. rewrite Hm. cbn [negb]. destruct (range r) as [[a b] c].
  by rewrite H.
Qed.

Lemma remap_pairs_ok_app pre r post a :
  remap_pairs_ok (pre ++ r :: post) = true -> a ∈ pre -> remap_pair_ok a r = true.
Proof.
  induction pre as [|b pre IH]; cbn [remap_pairs_ok app]; [by intros _ ?%elem_of_nil|].
  intros [Hb H]%andb_prop [->|Ha]%elem_of_cons; [|auto].
  rewrite forallb_forall in Hb. apply Hb. apply in_app_iff. right. by left.
Qed.

Lemma existsb_ex {A} (f : A -> bool) l : existsb f l = true <-> exists x, x ∈ l /\ f x = true.
Proof. rewrite existsb_exists. by setoid_rewrite list_elem_of_In. Qed.
End Lemmas.

(** * Properties *)

Section Theorems.
Context {GStr : GoStrings} (c : AURPConfig) (p : PeerIdent).

(** With a validated configuration remapping is reversible, and the local
    number is a legal one, outside the startup range. *)
Lemma remap_back (n m : Z) :
  validate_remap (RemapRules c) = true -> Forall rule_widths (RemapRules c) ->
  remapInboundNetwork c p n = (m, true) ->
  remapOutboundNetwork c p m = (n, true) /\ 1 <= m < 0xff00.
Proof.
  unfold remapInboundNetwork, remapOutboundNetwork, validate_remap.
  intros [Hok Hpairs]%andb_prop Hw (pre & r & post & Hr & Hm & Hn)%remap_with_inv.
  rewrite Hr in *. apply Forall_app in Hw as [Hwpre (Hwr & _)%Forall_cons].
  rewrite forallb_app in Hok. apply andb_prop in Hok as [Hokpre Hokr]. cbn in Hokr.
  apply andb_prop in Hokr as [Hokr _]. unfold remap_rule_ok, rule_widths, u16 in *. zbool.
  assert (Hin : RemoteStart r <= n <= RemoteEnd r).
  { destruct (decide (RemoteStart r <= n <= RemoteEnd r)); [done|].
    by rewrite remap_number_out in Hn. }
  rewrite remap_number_in in Hn by lia. injection Hn as <-. split; [|lia].
  rewrite remap_with_skip.
  - apply remap_with_hit; [done|]. rewrite remap_number_in by lia. f_equal. lia.
  - intros a Ha. pose proof (remap_pairs_ok_app _ _ _ _ Hpairs Ha) as Hp.
    unfold remap_pair_ok, overlaps in Hp. cbn in Hp. apply andb_prop in Hp as [Hp _].
    apply negb_true_iff, andb_false_iff in Hp as [?|?]; zbool; lia.
Qed.

(** A range inside the remote range of a rule is moved as a whole: the
    remapped range has the same length and lies inside the rule's local range,
    and so never wraps around. *)
Theorem remap_range_shift (s e s' e' : Z) :
  validate_remap (RemapRules c) = true -> Forall rule_widths (RemapRules c) ->
  0 <= s <= e -> remapInboundRange c p s e = (s', e', true) ->
  e' - s' = e - s /\
  exists r, r ∈ RemapRules c /\ LocalStart r <= s' /\ e' <= LocalEnd r /\ e' < 0xff00.
Proof.
  unfold validate_remap, remapInboundRange. intros [Hok _]%andb_prop Hw Hs.
  induction Hw as [|r rules Hwr Hw IH]; [done|]. cbn in Hok. apply andb_prop in Hok as [Hokr Hok].
  cbn [remap_range_with].
  assert (Hrec : remap_range_with p rules s e = (s', e', true) ->
    e' - s' = e - s /\
    exists r0, r0 ∈ r :: rules /\ LocalStart r0 <= s' /\ e' <= LocalEnd r0 /\ e' < 0xff00).
  { intros H. destruct (IH Hok H) as (? & r0 & ? & ?). split; [done|].
    exists r0. split; [by right|done]. }
  destruct (rule_matchesPeer r p); cbn [negb]; [|done].
  destruct (_ || _) eqn:E; [done|]. intros [= <- <-]. unfold remap_rule_ok, rule_widths, u16 in *. zbool.
  unfold wrap16. rewrite (Z.mod_small (s - _)), (Z.mod_small (e - _)) by lia.
  rewrite !Z.mod_small by lia. split; [lia|]. exists r. split; [by left|]. lia.
Qed.

(** The range test for hiding is exact: with rules whose ranges are not
    reversed (as [LoadConfig] demands), a range is hidden from (or not imported
    from) a peer exactly when one of its networks is. *)
Theorem hidden_range_exact (s e : Z) :
  Forall (fun r => nr_Start r <= nr_End r) (HiddenNetworks c) ->
  Forall (fun r => hr_Start r <= hr_End r) (HiddenExportNetworks c) ->
  Forall (fun r => hr_Start r <= hr_End r) (HiddenImportNetworks c) -> s <= e ->
  (exportRangeHidden c p s e = true <->
     exists n, s <= n <= e /\ exportNetworkHidden c p n = true) /\
  (importRangeHidden c p s e = true <->
     exists n, s <= n <= e /\ importNetworkHidden c p n = true).
Proof.
  rewrite !Forall_forall. intros H1 H2 H3 Hse.
  assert (Hh : forall rules, (forall r, r ∈ rules -> hr_Start r <= hr_End r) ->
    hide_matches p (fun r => (s <=? hr_End r) && (hr_Start r <=? e)) rules = true <->
    exists n, s <= n <= e /\
      hide_matches p (fun r => (hr_Start r <=? n) && (n <=? hr_End r)) rules = true).
  { intros rules Hr. unfold hide_matches. setoid_rewrite existsb_ex. split.
    - intros (r & Hin & H). specialize (Hr r Hin). zbool. exists (Z.max s (hr_Start r)).
      split; [lia|]. exists r. split; [done|]. rewrite H. simpl. by zdec.
    - intros (n & Hn & r & Hin & H). exists r. split; [done|]. zbool. rewrite H. simpl. by zdec. }
  split; [|by apply Hh]. unfold exportRangeHidden, exportNetworkHidden.
  setoid_rewrite orb_true_iff. rewrite Hh by done. unfold rangeHidden, networkHidden.
  setoid_rewrite existsb_ex. split.
  - intros [(r & Hin & H)|(n & Hn & H)]; [|by exists n; auto]. specialize (H1 r Hin).
    unfold overlaps in H. zbool. exists (Z.max s (nr_Start r)). split; [lia|]. left.
    exists r. split; [done|]. unfold contains. by zdec.
  - intros (n & Hn & [(r & Hin & H)|H]); [|by eauto]. left. exists r. split; [done|].
    unfold contains in H. unfold overlaps. zbool. by zdec.
Qed.

(** A network range that straddles the end of a remap rule is imported
    and withdrawn under different numbers: its NA event is not remapped, while
    the ND event for the same network is, so the deletion names another network
    than the one installed. *)
Theorem straddling_withdrawal_misses (r : AURPRemapRule) (s e d : Z) (ext : bool) :
  RemapRules c = [r] -> rule_matchesPeer r p = true ->
  remap_rule_ok r = true -> rule_widths r ->
  RemoteStart r <= s <= RemoteEnd r -> RemoteEnd r < e -> RemoteStart r <> LocalStart r ->
  et_RangeStart (remapInboundEvent c p {| et_EventCode := EventCodeNA; et_Extended := ext;
     et_RangeStart := s; et_Distance := d; et_RangeEnd := e |}) = s /\
  et_RangeStart (remapInboundEvent c p {| et_EventCode := EventCodeND; et_Extended := ext;
     et_RangeStart := s; et_Distance := 0; et_RangeEnd := e |}) <> s.
Proof.
  intros Hrs Hm Hok Hw Hs He Hne. unfold rule_widths, u16, remap_rule_ok in *. zbool.
  unfold remapInboundEvent, remapInboundRange, remapInboundNetwork. rewrite Hrs. cbn [et_EventCode].
  eval_tests. cbn [orb et_RangeStart et_RangeEnd remap_range_with remap_with]. rewrite Hm. cbn [negb].
  split.
  - by replace ((s <? RemoteStart r) || (RemoteEnd r <? e)) with true
      by (symmetry; apply orb_true_iff; right; apply Z.ltb_lt; lia).
  - rewrite remap_number_in by lia. simpl. lia.
Qed.
End Theorems.

(** Validation does not compare the remote ranges of rules with different
    selectors, although both can match one peer: there is a configuration it
    accepts in which a local number goes out as a remote number that comes back
    as a different local number. *)
Theorem remap_selectors_ambiguous :
  exists (c : AURPConfig) (p : PeerIdent) (m n m' : Z),
    validate_remap (GStr := ascii_strings) (RemapRules c) = true /\
    remapOutboundNetwork (GStr := ascii_strings) c p m = (n, true) /\
    remapInboundNetwork (GStr := ascii_strings) c p n = (m', true) /\ m <> m'.
Proof.
  exists {| LastHeardFromTimeout := 0; RetryInterval := 0; SendRetryLimit := 0;
    TickleRetryLimit := 0; ZoneInfoRetryInterval := 0; UpdateInterval := 0; HiddenNetworks := [];
    HopCountReduction := false; HopCountWeight := 0;
    RemapRules := [{| rr_Peer := []; RemoteStart := 10; RemoteEnd := 19; LocalStart := 100;
                      LocalEnd := 109 |};
                   {| rr_Peer := str "cfg:peer"; RemoteStart := 15; RemoteEnd := 24;
                      LocalStart := 200; LocalEnd := 209 |}];
    HiddenDevices := []; Clusters := []; BackupPeers := []; HiddenImportNetworks := [];
    HiddenExportNetworks := [] |}.
  exists {| tunnelID := str "cfg:peer"; ConfiguredAddr := str "peer" |}, 200, 15, 105.
  vm_compute. split_and!; done.
Qed.

(** ** Witnesses *)

Definition wit_rule : AURPRemapRule :=
  {| rr_Peer := []; RemoteStart := 10; RemoteEnd := 19; LocalStart := 100; LocalEnd := 109 |}.

Definition wit_config : AURPConfig :=
  {| LastHeardFromTimeout := 0; RetryInterval := 0; SendRetryLimit := 0;
     TickleRetryLimit := 0; ZoneInfoRetryInterval := 0; UpdateInterval := 0;
     HiddenNetworks := [{| nr_Start := 50; nr_End := 60 |}];
     HopCountReduction := false; HopCountWeight := 0; RemapRules := [wit_rule];
     HiddenDevices := []; Clusters := []; BackupPeers := []; HiddenImportNetworks := [];
     HiddenExportNetworks := [{| hr_Peer := []; hr_Start := 5; hr_End := 7 |}] |}.

Definition wit_ident : PeerIdent := {| tunnelID := str "cfg:peer"; ConfiguredAddr := str "peer" |}.

Lemma wit_rule_widths : Forall rule_widths [wit_rule].
Proof. repeat constructor; vm_compute; done. Qed.

Lemma remap_range_shift_witness :
  103 - 101 = 13 - 11 /\
  exists r, r ∈ RemapRules wit_config /\ LocalStart r <= 101 /\ 103 <= LocalEnd r /\ 103 < 0xff00.
Proof.
  apply (remap_range_shift (GStr := ascii_strings) wit_config wit_ident 11 13 101 103);
    [vm_compute; reflexivity|exact wit_rule_widths|lia|vm_compute; reflexivity].
Defined.

Lemma hidden_range_exact_witness :
  (exportRangeHidden (GStr := ascii_strings) wit_config wit_ident 6 9 = true <->
     exists n, 6 <= n <= 9 /\ exportNetworkHidden (GStr := ascii_strings) wit_config wit_ident n = true).
Proof.
  apply (hidden_range_exact (GStr := ascii_strings) wit_config wit_ident 6 9);
    [repeat constructor; simpl; lia|repeat constructor; simpl; lia|constructor|lia].
Defined.

Lemma straddling_withdrawal_misses_witness :
  et_RangeStart (remapInboundEvent (GStr := ascii_strings) wit_config wit_ident
    {| et_EventCode := EventCodeNA; et_Extended := true;
       et_RangeStart := 15; et_Distance := 1; et_RangeEnd := 25 |}) = 15 /\
  et_RangeStart (remapInboundEvent (GStr := ascii_strings) wit_config wit_ident
    {| et_EventCode := EventCodeND; et_Extended := true;
       et_RangeStart := 15; et_Distance := 0; et_RangeEnd := 25 |}) <> 15.
Proof.
  apply (straddling_withdrawal_misses (GStr := ascii_strings) wit_config wit_ident wit_rule 15 25 1 true);
    [reflexivity|reflexivity|reflexivity|repeat constructor; vm_compute; done
    |simpl; lia|simpl; lia|simpl; lia].
Defined.
