(* ===== verification/GoSort.v ===== *)
(** * [slices.SortFunc] and the range over a map as interfaces

    Go's pattern-defeating quicksort is not stable, so the code may rely only
    on what the documentation promises: the result is a permutation of the
    input, in ascending order of a comparison that is a strict weak ordering.
    [GoSort] states that promise; the components that sort are proved against
    it, and [insertion_sort] (the algorithm Go uses up to twelve elements)
    discharges it.

    A range over a map or set visits the entries in an order the program does
    not control: [MapOrder] is that order, any permutation of the entries. *)
From stdpp Require Import sorting.
From S2P Require Import Prelude.

(** A three-way comparison that orders its type, ties allowed. *)
Record StrictWeak {A} (cmp : A -> A -> comparison) : Prop := {
  sw_antisym a b : cmp b a = CompOpp (cmp a b);
  sw_trans a b c : cmp a b <> Gt -> cmp b c <> Gt -> cmp a c <> Gt }.
Arguments sw_antisym {A cmp}.
Arguments sw_trans {A cmp}.

Definition cmp_le {A} (cmp : A -> A -> comparison) (a b : A) : Prop := cmp a b <> Gt.

#[global] Instance cmp_le_dec {A} (cmp : A -> A -> comparison) a b : Decision (cmp_le cmp a b).
Proof. unfold cmp_le. apply _. Defined.

Class GoSort := {
  sort_func {A} (cmp : A -> A -> comparison) : list A -> list A;
  sort_func_perm {A} (cmp : A -> A -> comparison) l :
    StrictWeak cmp -> sort_func cmp l ≡ₚ l;
  sort_func_sorted {A} (cmp : A -> A -> comparison) l :
    StrictWeak cmp -> Sorted (cmp_le cmp) (sort_func cmp l) }.

Class MapOrder := {
  map_range {V} : gmap Z V -> list (Z * V);
  map_range_perm {V} (m : gmap Z V) : map_range m ≡ₚ map_to_list m;
  set_range : gset (list Z) -> list (list Z);
  set_range_perm s : set_range s ≡ₚ elements s }.

#[export] Instance ascending_order : MapOrder := {|
  map_range V m := map_to_list m; map_range_perm V m := reflexivity (map_to_list m);
  set_range := elements; set_range_perm s := reflexivity (elements s) |}.

(** ** The instance *)

Fixpoint insert_sorted {A} (cmp : A -> A -> comparison) (x : A) (l : list A) : list A :=
  match l with
  | [] => [x]
  | y :: l' => match cmp x y with Gt => y :: insert_sorted cmp x l' | _ => x :: l end
  end.

Definition insertion_sort_list {A} (cmp : A -> A -> comparison) (l : list A) : list A :=
  foldr (insert_sorted cmp) [] l.

Lemma insert_sorted_perm {A} (cmp : A -> A -> comparison) x l :
  insert_sorted cmp x l ≡ₚ x :: l.
Proof.
  induction l as [|y l IH]; simpl; [done|].
  destruct (cmp x y); [done..|]. rewrite IH. apply Permutation_swap.
Qed.

Lemma insertion_sort_perm {A} (cmp : A -> A -> comparison) l :
  insertion_sort_list cmp l ≡ₚ l.
Proof. induction l as [|x l IH]; simpl; [done|]. by rewrite insert_sorted_perm, IH. Qed.

Section SortedInsert.
Context {A : Type} (cmp : A -> A -> comparison) (Hsw : StrictWeak cmp).

Lemma cmp_le_total a b : cmp a b = Gt -> cmp_le cmp b a.
Proof. intros H. unfold cmp_le. rewrite (sw_antisym Hsw a b), H. done. Qed.

#[local] Instance cmp_le_trans : Transitive (cmp_le cmp).
Proof. intros a b c. apply (sw_trans Hsw). Qed.

Lemma sorted_strongly l : Sorted (cmp_le cmp) l -> StronglySorted (cmp_le cmp) l.
Proof. apply Sorted_StronglySorted. apply _. Qed.

Lemma insert_sorted_sorted x l :
  Sorted (cmp_le cmp) l -> Sorted (cmp_le cmp) (insert_sorted cmp x l).
Proof.
  intros Hl. induction Hl as [|y l Hl IH Hhd]; simpl; [by repeat constructor|].
  destruct (cmp x y) eqn:E.
  1,2: constructor; [by constructor|constructor; unfold cmp_le; by rewrite E].
  constructor; [done|]. destruct Hhd as [|z l Hz]; simpl.
  - constructor. by apply cmp_le_total.
  - destruct (cmp x z); constructor; try done; by apply cmp_le_total.
Qed.

Lemma insertion_sort_sorted l : Sorted (cmp_le cmp) (insertion_sort_list cmp l).
Proof.
  induction l as [|x l IH]; simpl; [constructor|]. by apply insert_sorted_sorted.
Qed.
End SortedInsert.

(** Local, so that clients stay generic and witnesses choose it explicitly. *)
Definition insertion_sort : GoSort := {|
  sort_func := @insertion_sort_list;
  sort_func_perm A cmp l _ := insertion_sort_perm cmp l;
  sort_func_sorted A cmp l H := insertion_sort_sorted cmp H l |}.

(** ** Building comparisons *)

Lemma sw_Z : StrictWeak Z.compare.
Proof.
  split; [intros; apply Z.compare_antisym|].
  intros a b c. rewrite !Z.compare_ngt_iff. lia.
Qed.

Lemma sw_bytes : StrictWeak bytes_compare.
Proof.
  split; [intros; apply bytes_compare_antisym|].
  intros a b c Hab Hbc.
  destruct (bytes_compare a b) eqn:E1; [apply bytes_compare_eq in E1 as ->; done| |done].
  destruct (bytes_compare b c) eqn:E2; [apply bytes_compare_eq in E2 as <-; by rewrite E1| |done].
  by rewrite (bytes_compare_trans a b c).
Qed.

(** [cmp.Compare(f(a), f(b))]. *)
Lemma sw_proj {A B} (f : A -> B) cmp :
  StrictWeak cmp -> StrictWeak (fun a b => cmp (f a) (f b)).
Proof. intros [H1 H2]. split; eauto. Qed.

Lemma sw_eq_l {A} (cmp : A -> A -> comparison) a b c :
  StrictWeak cmp -> cmp a b = Eq -> cmp a c = cmp b c.
Proof.
  intros Hsw Hab. pose proof (sw_antisym Hsw) as Hs. pose proof (sw_trans Hsw) as Ht.
  assert (Hba : cmp b a = Eq) by (by rewrite Hs, Hab).
  pose proof (Ht a b c). pose proof (Ht b a c). pose proof (Ht c a b). pose proof (Ht c b a).
  rewrite (Hs a c) in *. rewrite (Hs b c) in *.
  destruct (cmp a c), (cmp b c); simpl in *; try done; exfalso;
    rewrite ?Hab, ?Hba in *; naive_solver.
Qed.

(** [cmp.Or]: lexicographic combination. *)
Lemma sw_or {A} (c1 c2 : A -> A -> comparison) :
  StrictWeak c1 -> StrictWeak c2 -> StrictWeak (fun a b => cmp_or (c1 a b) (c2 a b)).
Proof.
  intros H1 H2. split.
  - intros a b. rewrite (sw_antisym H1 a b). destruct (c1 a b); simpl; [|done..].
    apply (sw_antisym H2).
  - intros a b c. destruct (c1 a b) eqn:E1; simpl; [| |done].
    + rewrite (sw_eq_l _ a b c H1 E1). destruct (c1 b c); simpl; [|done..].
      apply (sw_trans H2).
    + intros _ Hbc. destruct (c1 a c) eqn:E; simpl; [|done|].
      * exfalso. assert (c1 b c = Gt) as Hg; [|by rewrite Hg in Hbc].
        rewrite (sw_antisym H1 c b), <- (sw_eq_l _ a c b H1 E), E1. done.
      * exfalso. assert (Hle : c1 b c <> Gt) by (by destruct (c1 b c)).
        apply (sw_trans H1 a b c); [by rewrite E1|done|done].
Qed.

Create HintDb sorting.
#[global] Hint Resolve sw_Z sw_bytes sw_proj sw_or : sorting.

(** Facts about sorted lists that the components use. *)
Lemma strongly_sorted_sublist {A} (R : relation A) l1 l2 :
  l1 `sublist_of` l2 -> StronglySorted R l2 -> StronglySorted R l1.
Proof.
  intros Hsub. induction Hsub as [|x l1 l2 Hsub IH|x l1 l2 Hsub IH]; intros Hs; [done|..];
    apply StronglySorted_inv in Hs as [Hs Hf]; [|auto].
  constructor; [auto|]. eapply Forall_forall. intros y Hy. rewrite Forall_forall in Hf.
  apply Hf. by eapply elem_of_sublist.
Qed.

Section Sorted.
Context {GS : GoSort} {A : Type} (cmp : A -> A -> comparison) (Hsw : StrictWeak cmp).

Lemma elem_of_sort_func l x : x ∈ sort_func cmp l <-> x ∈ l.
Proof. by rewrite (sort_func_perm cmp l Hsw). Qed.

Lemma sorted_head_le x l y : Sorted (cmp_le cmp) (x :: l) -> y ∈ l -> cmp_le cmp x y.
Proof.
  intros Hs Hy. apply (sorted_strongly cmp Hsw) in Hs.
  apply StronglySorted_inv in Hs as [_ Hf]. rewrite Forall_forall in Hf. auto.
Qed.

Lemma sorted_filter P `{!forall x, Decision (P x)} l :
  Sorted (cmp_le cmp) l -> Sorted (cmp_le cmp) (filter P l).
Proof.
  intros Hs. apply (sorted_strongly cmp Hsw) in Hs. apply StronglySorted_Sorted.
  induction Hs as [|x l Hs IH Hf]; [constructor|].
  rewrite filter_cons. case_decide; [|done]. constructor; [done|].
  rewrite Forall_forall in *. intros y Hy. apply list_elem_of_filter in Hy as [_ Hy]. auto.
Qed.
End Sorted.

(** An order whose ties are equal elements fixes the result. *)
Lemma sort_func_unique {GS : GoSort} {A} (cmp : A -> A -> comparison) (l1 l2 : list A) :
  StrictWeak cmp -> l1 ≡ₚ l2 -> (forall x y, x ∈ l1 -> y ∈ l1 -> cmp x y = Eq -> x = y) ->
  sort_func cmp l1 = sort_func cmp l2.
Proof.
  intros Hsw Hp Heq. apply (StronglySorted_unique_strong (cmp_le cmp)).
  - intros x y Hx Hy Hxy Hyx. rewrite elem_of_sort_func in Hx, Hy by done. rewrite <- Hp in Hy.
    apply Heq; [done..|]. unfold cmp_le in *. rewrite (sw_antisym Hsw x y) in Hyx. by destruct (cmp x y).
  - apply sorted_strongly; [done|]. by apply sort_func_sorted.
  - apply sorted_strongly; [done|]. by apply sort_func_sorted.
  - by rewrite !sort_func_perm.
Qed.
