(* ===== verification/RouteTable.v ===== *)
(** * The route table ([router/route.go], [router/route_table.go],
      [router/zones.go])

    Routes, targets, the class, network and zone indexes, and every operation
    on them.  Mutexes guard single operations, which are modelled as atomic; the
    clock is an argument ([now], in nanoseconds), read once per operation.  A
    [network] pointer is an index into [byNetwork], so the zone names a route
    sees are those of the table at the time it looks, and a [*routeTraffic]
    pointer is an index into a heap of counters.  An operation that contains a
    loop over a network range returns [None] when the loop never ends. *)
From S2P Require Import Prelude GoSort.
From stdpp Require Import pretty.
#[local] Open Scope Z_scope.

Module RT.

(** ** Targets and routes ([route.go]) *)

Definition maxRouteAge : Z := 10 * 60 * 1000000000.
Definition maxRouteDistance : Z := 15.

Inductive RouteOriginKind := RouteOriginDirect | RouteOriginAppleTalk | RouteOriginAURP.

#[global] Instance RouteOriginKind_eq_dec : EqDecision RouteOriginKind.
Proof. solve_decision. Defined.

Record RouteOrigin := { o_Kind : RouteOriginKind; o_ID : list Z }.

#[global] Instance RouteOrigin_eq_dec : EqDecision RouteOrigin.
Proof. solve_decision. Defined.

Inductive TargetClass := TargetClassDirect | TargetClassAURPPeer | TargetClassAppleTalkPeer.

#[global] Instance TargetClass_eq_dec : EqDecision TargetClass.
Proof. solve_decision. Defined.
#[global] Instance TargetClass_countable : Countable TargetClass.
Proof.
  refine (inj_countable'
    (fun c => match c with TargetClassDirect => 0%nat | TargetClassAURPPeer => 1%nat
              | TargetClassAppleTalkPeer => 2%nat end)
    (fun n => match n with 0%nat => TargetClassDirect | 1%nat => TargetClassAURPPeer
              | _ => TargetClassAppleTalkPeer end) _).
  by intros [].
Defined.

(** The implementations of [RouteTarget]: a directly attached port, an AURP
    peer (identified by its tunnel ID) and a router behind a port. *)
Inductive RouteTarget :=
| EtherTalkPort (device : list Z)
| AURPPeer (tunnelID : list Z)
| EtherTalkPeer (device : list Z) (net node : Z).

#[global] Instance RouteTarget_eq_dec : EqDecision RouteTarget.
Proof. solve_decision. Defined.

(** [fmt.Sprintf("%d", n)]. *)
Definition decimal (n : Z) : list Z := str (pretty n).

Definition RouteTargetKey (t : RouteTarget) : list Z :=
  match t with
  | EtherTalkPort dev => str "EtherTalkPort|" ++ dev
  | AURPPeer id => str "AURPPeer|" ++ id
  | EtherTalkPeer dev net node =>
      str "EtherTalkPeer|" ++ dev ++ str "|" ++ decimal net ++ str "." ++ decimal node
  end.

Definition Class_ (t : RouteTarget) : TargetClass :=
  match t with
  | EtherTalkPort _ => TargetClassDirect
  | AURPPeer _ => TargetClassAURPPeer
  | EtherTalkPeer _ _ _ => TargetClassAppleTalkPeer
  end.

Definition routeOriginForTarget (target : option RouteTarget) : RouteOrigin :=
  match target with
  | None => {| o_Kind := RouteOriginDirect; o_ID := [] |}
  | Some t =>
      match Class_ t with
      | TargetClassAURPPeer =>
          let id := match t with AURPPeer tid => tid | _ => RouteTargetKey t end in
          {| o_Kind := RouteOriginAURP; o_ID := id |}
      | TargetClassAppleTalkPeer =>
          {| o_Kind := RouteOriginAppleTalk; o_ID := RouteTargetKey t |}
      | TargetClassDirect =>
          {| o_Kind := RouteOriginDirect; o_ID := RouteTargetKey t |}
      end
  end.

Record RouteKey := { TargetKey : list Z; NetStart : Z }.

#[global] Instance RouteKey_eq_dec : EqDecision RouteKey.
Proof. solve_decision. Defined.
#[global] Instance RouteKey_countable : Countable RouteKey.
Proof.
  refine (inj_countable' (fun k => (TargetKey k, NetStart k))
                         (fun p => {| TargetKey := p.1; NetStart := p.2 |}) _).
  by intros [].
Defined.

Record Route := {
  rkey : RouteKey;
  Extended : bool;
  NetEnd : Z;
  Target : option RouteTarget;
  Origin : RouteOrigin;
  Distance : Z;
  LastSeen : Z;
  network_ptr : option Z;
  traffic : option nat }.

#[global] Instance Route_eq_dec : EqDecision Route.
Proof. solve_decision. Defined.

(** The zero value [Route{}]. *)
Definition zero_route : Route :=
  {| rkey := {| TargetKey := []; NetStart := 0 |}; Extended := false; NetEnd := 0;
     Target := None; Origin := {| o_Kind := RouteOriginDirect; o_ID := [] |};
     Distance := 0; LastSeen := 0; network_ptr := None; traffic := None |}.

Definition Zero (r : Route) : bool :=
  match Target r, network_ptr r with Some _, Some _ => false | _, _ => true end.

Definition expiredAt (r : Route) (now : Z) : bool :=
  match Target r with
  | Some t => bool_decide (Class_ t = TargetClassAppleTalkPeer)
              && (maxRouteAge <? now - LastSeen r)
  | None => false
  end.

(** The method [RouteOrigin]. *)
Definition route_origin (r : Route) : RouteOrigin :=
  match Target r with
  | None => Origin r
  | Some t => if bool_decide (o_ID (Origin r) <> []) then Origin r
              else routeOriginForTarget (Some t)
  end.

Definition LearnedVia (r : Route) : list Z :=
  match o_Kind (route_origin r) with
  | RouteOriginDirect => str "local"
  | RouteOriginAppleTalk => str "rtmp"
  | RouteOriginAURP => str "aurp"
  end.

(** ** The table ([route_table.go]) *)

Record network := { Routes : list Route; ZoneNames : gset (list Z) }.

Definition empty_network : network := {| Routes := []; ZoneNames := ∅ |}.

(** Counters of [routeTraffic]. *)
Record routeTraffic := { ddpBytesIn : Z; ddpBytesOut : Z }.

(** Observer notifications. *)
Inductive Note :=
| NetworkAdded (best : Route)
| NetworkDeleted (oldBest : Route)
| BestNetworkChanged (from to : Route).

(** [byNetwork] is the array of 65536 networks, untouched entries absent;
    [byClass] the array of maps, keyed by class and route key. *)
Record RouteTable := {
  byNetwork : gmap Z network;
  byClass : gmap (TargetClass * RouteKey) Route;
  networksByZone : gmap (list Z) (list Z);
  observers : gset positive;
  traffic_heap : list routeTraffic }.

Definition NewRouteTable : RouteTable :=
  {| byNetwork := ∅; byClass := ∅; networksByZone := ∅; observers := ∅; traffic_heap := [] |}.

Definition net_at (rt : RouteTable) (n : Z) : network := default empty_network (byNetwork rt !! n).

Definition set_net (n : Z) (nw : network) (rt : RouteTable) : RouteTable :=
  {| byNetwork := <[n := nw]> (byNetwork rt); byClass := byClass rt;
     networksByZone := networksByZone rt; observers := observers rt;
     traffic_heap := traffic_heap rt |}.

Definition set_routes (n : Z) (f : list Route -> list Route) (rt : RouteTable) : RouteTable :=
  set_net n {| Routes := f (Routes (net_at rt n)); ZoneNames := ZoneNames (net_at rt n) |} rt.

Definition set_zones (n : Z) (zs : gset (list Z)) (rt : RouteTable) : RouteTable :=
  set_net n {| Routes := Routes (net_at rt n); ZoneNames := zs |} rt.

Definition set_byClass (m : gmap (TargetClass * RouteKey) Route) (rt : RouteTable) : RouteTable :=
  {| byNetwork := byNetwork rt; byClass := m; networksByZone := networksByZone rt;
     observers := observers rt; traffic_heap := traffic_heap rt |}.

Definition set_nbz (m : gmap (list Z) (list Z)) (rt : RouteTable) : RouteTable :=
  {| byNetwork := byNetwork rt; byClass := byClass rt; networksByZone := m;
     observers := observers rt; traffic_heap := traffic_heap rt |}.

Definition set_heap (h : list routeTraffic) (rt : RouteTable) : RouteTable :=
  {| byNetwork := byNetwork rt; byClass := byClass rt; networksByZone := networksByZone rt;
     observers := observers rt; traffic_heap := h |}.

Definition set_observers (o : gset positive) (rt : RouteTable) : RouteTable :=
  {| byNetwork := byNetwork rt; byClass := byClass rt; networksByZone := networksByZone rt;
     observers := o; traffic_heap := traffic_heap rt |}.

Definition AddObserver (obs : positive) (rt : RouteTable) : RouteTable :=
  set_observers ({[obs]} ∪ observers rt) rt.
Definition RemoveObserver (obs : positive) (rt : RouteTable) : RouteTable :=
  set_observers (observers rt ∖ {[obs]}) rt.

(** *** Validity: looks through the [network] pointer into the table *)

Definition validIgnoringAge (rt : RouteTable) (r : Route) : bool :=
  negb (Zero r) &&
  match network_ptr r with
  | Some i => bool_decide (ZoneNames (net_at rt i) <> ∅)
  | None => false
  end.

Definition Valid (rt : RouteTable) (now : Z) (r : Route) : bool :=
  validIgnoringAge rt r && negb (expiredAt r now).

(** The method [Route.ZoneNames]. *)
Definition route_zone_names (rt : RouteTable) (r : Route) : list (list Z) :=
  if Zero r then []
  else match network_ptr r with
       | Some i => elements (ZoneNames (net_at rt i))
       | None => []
       end.

(** *** Traffic counters *)

Definition wrap64 (z : Z) : Z := z mod 2 ^ 64.

Definition DDPBytesIn (rt : RouteTable) (r : Route) : Z :=
  match traffic r with
  | None => 0
  | Some i => match traffic_heap rt !! i with Some t => ddpBytesIn t | None => 0 end
  end.

Definition DDPBytesOut (rt : RouteTable) (r : Route) : Z :=
  match traffic r with
  | None => 0
  | Some i => match traffic_heap rt !! i with Some t => ddpBytesOut t | None => 0 end
  end.

Definition noteDDPBytesIn (r : Route) (bytes : Z) (rt : RouteTable) : RouteTable :=
  match traffic r with
  | Some i =>
      if negb (bytes =? 0) then
        set_heap (alter (fun t => {| ddpBytesIn := wrap64 (ddpBytesIn t + bytes);
                                     ddpBytesOut := ddpBytesOut t |}) i (traffic_heap rt)) rt
      else rt
  | None => rt
  end.

Definition noteDDPBytesOut (r : Route) (bytes : Z) (rt : RouteTable) : RouteTable :=
  match traffic r with
  | Some i =>
      if negb (bytes =? 0) then
        set_heap (alter (fun t => {| ddpBytesIn := ddpBytesIn t;
                                     ddpBytesOut := wrap64 (ddpBytesOut t + bytes) |}) i
                        (traffic_heap rt)) rt
      else rt
  | None => rt
  end.

(** *** Preference *)

Definition routePreferenceClass (r : Route) : Z :=
  match Target r with
  | None => 3
  | Some t => match Class_ t with
              | TargetClassDirect => 0
              | TargetClassAppleTalkPeer => 1
              | TargetClassAURPPeer => 2
              end
  end.

Definition compareRoutePreference (a b : Route) : comparison :=
  (Z.compare (Distance a) (Distance b)
   <|>c Z.compare (routePreferenceClass a) (routePreferenceClass b)
   <|>c bytes_compare (o_ID (route_origin a)) (o_ID (route_origin b))
   <|>c bytes_compare (TargetKey (rkey a)) (TargetKey (rkey b)))%go.

(** *** Lookups *)

Definition first_route (p : Route -> bool) (l : list Route) : Route :=
  match List.find p l with Some r => r | None => zero_route end.

Definition Lookup (rt : RouteTable) (now : Z) (n : Z) : Route :=
  first_route (Valid rt now) (Routes (net_at rt n)).

Definition lookupForTarget (rt : RouteTable) (now : Z) (n : Z)
    (target : option RouteTarget) : Route :=
  match target with
  | None => zero_route
  | Some t =>
      first_route (fun r => bool_decide (TargetKey (rkey r) = RouteTargetKey t) && Valid rt now r)
        (Routes (net_at rt n))
  end.

Definition LookupAvoidingAURPTunnel (rt : RouteTable) (now : Z) (n : Z)
    (tunnelID : list Z) : Route :=
  first_route (fun r =>
      Valid rt now r &&
      negb (bool_decide (tunnelID <> []) &&
            bool_decide (o_Kind (route_origin r) = RouteOriginAURP) &&
            bool_decide (o_ID (route_origin r) = tunnelID)))
    (Routes (net_at rt n)).

Definition lookupIgnoringAge (rt : RouteTable) (n : Z) : Route :=
  first_route (validIgnoringAge rt) (Routes (net_at rt n)).

Definition find (rt : RouteTable) (target : RouteTarget) (netStart : Z) : Route :=
  default zero_route
    (byClass rt !! (Class_ target, {| TargetKey := RouteTargetKey target; NetStart := netStart |})).

(** All stored routes, class by class. *)
Definition Dump (rt : RouteTable) : list Route := (map_to_list (byClass rt)).*2.

Definition ValidRoutesForClass (rt : RouteTable) (now : Z) (class : TargetClass) : list Route :=
  List.filter (Valid rt now)
    (map_to_list (filter (fun e => e.1.1 = class) (byClass rt))).*2.

Definition ValidRoutes (rt : RouteTable) (now : Z) : list Route :=
  ValidRoutesForClass rt now TargetClassDirect
  ++ ValidRoutesForClass rt now TargetClassAURPPeer
  ++ ValidRoutesForClass rt now TargetClassAppleTalkPeer.

(** *** Observers *)

Definition notify (rt : RouteTable) (e : Note) : list (positive * Note) :=
  map (fun o => (o, e)) (elements (observers rt)).

Definition best_changed (oldBest newBest : Route) : bool :=
  negb (bool_decide (TargetKey (rkey oldBest) = TargetKey (rkey newBest)))
  || negb (Distance oldBest =? Distance newBest)
  || negb (Bool.eqb (Extended oldBest) (Extended newBest))
  || negb (NetEnd oldBest =? NetEnd newBest).

Definition informObservers (rt : RouteTable) (oldBest newBest : Route) : list (positive * Note) :=
  if Zero oldBest && Zero newBest then []
  else if Zero oldBest then notify rt (NetworkAdded newBest)
  else if Zero newBest then notify rt (NetworkDeleted oldBest)
  else if best_changed oldBest newBest then notify rt (BestNetworkChanged oldBest newBest)
  else [].

(** ** Zones ([zones.go]) *)

(** [slices.DeleteFunc(networks, network == n)]; a name left without networks
    is deleted from the map. *)
Definition drop_from_zone (n : Z) (m : gmap (list Z) (list Z)) (zn : list Z) :
    gmap (list Z) (list Z) :=
  let networks := List.filter (fun k => negb (k =? n)) (default [] (m !! zn)) in
  match networks with
  | [] => delete zn m
  | _ => <[zn := networks]> m
  end.

Definition add_to_zone (n : Z) (m : gmap (list Z) (list Z)) (zn : list Z) :
    gmap (list Z) (list Z) :=
  <[zn := default [] (m !! zn) ++ [n]]> m.

(** The loop of [AddZonesToNetwork]: the new set and the names added, in order. *)
Fixpoint add_zone_names (zones : gset (list Z)) (zs added : list (list Z)) :
    gset (list Z) * list (list Z) :=
  match zs with
  | [] => (zones, added)
  | zn :: zs =>
      if bool_decide (zn ∈ zones) then add_zone_names zones zs added
      else add_zone_names ({[zn]} ∪ zones) zs (added ++ [zn])
  end.

Definition AddZonesToNetwork (now : Z) (n : Z) (zs : list (list Z)) (rt : RouteTable) :
    RouteTable * list (positive * Note) :=
  let oldBest := Lookup rt now n in
  let '(zones, added) := add_zone_names (ZoneNames (net_at rt n)) zs [] in
  let rt' := set_nbz (foldl (add_to_zone n) (networksByZone rt) added) (set_zones n zones rt) in
  (rt', informObservers rt' oldBest (Lookup rt' now n)).

Definition ReplaceZonesForNetwork (now : Z) (n : Z) (zs : list (list Z)) (rt : RouteTable) :
    RouteTable * list (positive * Note) :=
  let oldBest := Lookup rt now n in
  let next : gset (list Z) := list_to_set (filter (fun zn => zn <> []) zs) in
  let old := ZoneNames (net_at rt n) in
  let m1 := foldl (drop_from_zone n) (networksByZone rt) (elements (old ∖ next)) in
  let m2 := foldl (add_to_zone n) m1 (elements (next ∖ old)) in
  let rt' := set_nbz m2 (set_zones n next rt) in
  (rt', informObservers rt' oldBest (Lookup rt' now n)).

Definition clearZonesForNetworkIfNoRoutes (n : Z) (rt : RouteTable) : RouteTable :=
  let nw := net_at rt n in
  if negb (bool_decide (Routes nw = [])) || bool_decide (ZoneNames nw = ∅) then rt
  else set_nbz (foldl (drop_from_zone n) (networksByZone rt) (elements (ZoneNames nw)))
         (set_zones n ∅ rt).

Definition ZonesForNetworks (rt : RouteTable) (now : Z) (networks : list Z) :
    gmap Z (list (list Z)) :=
  foldl (fun zs n =>
    if Zero (Lookup rt now n) then zs
    else <[n := default [] (zs !! n) ++ elements (ZoneNames (net_at rt n))]> zs) ∅ networks.

Definition networksForZone (rt : RouteTable) (zone : list Z) : list Z :=
  default [] (networksByZone rt !! zone).

Fixpoint routes_for (rt : RouteTable) (now : Z) (zone : list Z) (ns : list Z) : list Route :=
  match ns with
  | [] => []
  | n :: ns =>
      let rest := routes_for rt now zone ns in
      if negb (bool_decide (zone ∈ ZoneNames (net_at rt n))) then rest
      else let r := Lookup rt now n in
           if Zero r then rest else r :: rest
  end.

Definition RoutesForZone (rt : RouteTable) (now : Z) (zone : list Z) : list Route :=
  routes_for rt now zone (networksForZone rt zone).

(** ** Updates *)

Section Updates.
Context {GS : GoSort}.

Definition AllZoneNames (rt : RouteTable) : list (list Z) :=
  sort_func bytes_compare (map_to_list (networksByZone rt)).*1.

(** [slices.DeleteFunc(Routes, RouteKey == key)]. *)
Definition delete_key (key : RouteKey) (l : list Route) : list Route :=
  filter (fun r => rkey r <> key) l.

Definition DeleteRoute (now : Z) (target : RouteTarget) (netStart : Z) (rt : RouteTable) :
    option (res unit * RouteTable * list (positive * Note)) :=
  let class := Class_ target in
  let routeKey := {| TargetKey := RouteTargetKey target; NetStart := netStart |} in
  let oldBest := Lookup rt now netStart in
  match byClass rt !! (class, routeKey) with
  | None => Some (Err (Errorf "route %v not found" [AStr (RouteTargetKey target); AInt netStart]),
                  rt, [])
  | Some route =>
      let rt1 := set_byClass (delete (class, routeKey) (byClass rt)) rt in
      ns ← net_range (NetStart (rkey route)) (NetEnd route);
      let rt2 := foldl (fun rt n =>
        clearZonesForNetworkIfNoRoutes n (set_routes n (delete_key routeKey) rt)) rt1 ns in
      let newBest := Lookup rt2 now (NetStart (rkey route)) in
      Some (Ok tt, rt2, informObservers rt2 oldBest newBest)
  end.

(** The deferred notifications of the bulk deletions: one per range start, in
    ascending order. *)
Definition inform_starts (rt : RouteTable) (now : Z) (oldBest : gmap Z Route) :
    list (positive * Note) :=
  concat (map (fun n => informObservers rt (default zero_route (oldBest !! n)) (Lookup rt now n))
              (sort_func Z.compare (map_to_list oldBest).*1)).

Definition of_target (class : TargetClass) (targetKey : list Z)
    (e : (TargetClass * RouteKey) * Route) : Prop :=
  e.1.1 = class /\ TargetKey (rkey e.2) = targetKey.

#[global] Instance of_target_dec class targetKey e : Decision (of_target class targetKey e).
Proof. unfold of_target. apply _. Defined.

Definition DeleteTarget (now : Z) (target : RouteTarget) (rt : RouteTable) :
    option (RouteTable * list (positive * Note)) :=
  let class := Class_ target in
  let targetKey := RouteTargetKey target in
  let deleted := (map_to_list (filter (of_target class targetKey) (byClass rt))).*2 in
  let rt1 := set_byClass (filter (fun e => ~ of_target class targetKey e) (byClass rt)) rt in
  match deleted with
  | [] => Some (rt1, [])
  | _ =>
      let oldBest := foldl (fun m r =>
        <[NetStart (rkey r) := Lookup rt1 now (NetStart (rkey r))]> m) ∅ deleted in
      ranges ← mapM (fun r => net_range (NetStart (rkey r)) (NetEnd r)) deleted;
      let affectedNetworks : gset Z := list_to_set (concat ranges) in
      let rt2 := foldl (fun rt n =>
        clearZonesForNetworkIfNoRoutes n
          (set_routes n (filter (fun r => TargetKey (rkey r) <> targetKey)) rt))
        rt1 (elements affectedNetworks) in
      Some (rt2, inform_starts rt2 now oldBest)
  end.

Definition expired_entry (now : Z) (e : (TargetClass * RouteKey) * Route) : Prop :=
  e.1.1 = TargetClassAppleTalkPeer /\ expiredAt e.2 now = true.

#[global] Instance expired_entry_dec now e : Decision (expired_entry now e).
Proof. unfold expired_entry. apply _. Defined.

(** [stale && !candidate.LastSeen.After(lastSeen)]. *)
Definition stale_copy (expiredAt_ : gmap RouteKey Z) (candidate : Route) : bool :=
  match expiredAt_ !! rkey candidate with
  | Some lastSeen => negb (lastSeen <? LastSeen candidate)
  | None => false
  end.

(** [now] is the argument, [clock] what [time.Now] returns in the lookups. *)
Definition PruneExpiredRoutes (clock now : Z) (rt : RouteTable) :
    option (Z * RouteTable * list (positive * Note)) :=
  let expired := (map_to_list (filter (expired_entry now) (byClass rt))).*2 in
  let rt1 := set_byClass (filter (fun e => ~ expired_entry now e) (byClass rt)) rt in
  match expired with
  | [] => Some (0, rt1, [])
  | _ =>
      let expiredAt_ := foldl (fun m r => <[rkey r := LastSeen r]> m) ∅ expired in
      let oldBest := foldl (fun m r =>
        match m !! NetStart (rkey r) with
        | Some _ => m
        | None => <[NetStart (rkey r) := lookupIgnoringAge rt1 (NetStart (rkey r))]> m
        end) ∅ expired in
      ranges ← mapM (fun r => net_range (NetStart (rkey r)) (NetEnd r)) expired;
      let affectedNetworks : gset Z := list_to_set (concat ranges) in
      let rt2 := foldl (fun rt n =>
        clearZonesForNetworkIfNoRoutes n
          (set_routes n (List.filter (fun c => negb (stale_copy expiredAt_ c))) rt))
        rt1 (elements affectedNetworks) in
      Some (zlen expired, rt2, inform_starts rt2 clock oldBest)
  end.

Definition with_distance (d now : Z) (r : Route) : Route :=
  {| rkey := rkey r; Extended := Extended r; NetEnd := NetEnd r; Target := Target r;
     Origin := Origin r; Distance := d; LastSeen := now; network_ptr := network_ptr r;
     traffic := traffic r |}.

(** Error messages print the target with [%v]; its key stands for it. *)
Definition UpdateDistance (now : Z) (target : RouteTarget) (netStart distance : Z)
    (rt : RouteTable) : option (res unit * RouteTable * list (positive * Note)) :=
  if maxRouteDistance <? distance then
    Some (Err (Errorf "route distance too high (%d > %d)"
                 [AInt distance; AInt maxRouteDistance]), rt, [])
  else
    let class := Class_ target in
    let oldBest := Lookup rt now netStart in
    let oldRoute := find rt target netStart in
    if Zero oldRoute then
      Some (Err (Errorf "route (%v,%d) not found"
                   [AStr (RouteTargetKey target); AInt netStart]), rt, [])
    else
      let newRoute := with_distance
        (if negb (distance =? Distance oldRoute) then distance else Distance oldRoute)
        now oldRoute in
      let rt1 := set_byClass (<[(class, rkey oldRoute) := newRoute]> (byClass rt)) rt in
      ns ← net_range (NetStart (rkey oldRoute)) (NetEnd oldRoute);
      let rt2 := foldl (fun rt n =>
        set_routes n (fun l => sort_func compareRoutePreference
          (map (fun r => if bool_decide (rkey r = rkey oldRoute) then newRoute else r) l)) rt)
        rt1 ns in
      let newBest := Lookup rt2 now (NetStart (rkey oldRoute)) in
      Some (Ok tt, rt2, informObservers rt2 oldBest newBest).

Definition UpsertRoute (now : Z) (target : RouteTarget) (extended : bool)
    (netStart netEnd distance : Z) (rt : RouteTable) :
    option (res Route * RouteTable * list (positive * Note)) :=
  if netEnd <? netStart then
    Some (Err (Errorf "invalid network range [%d, %d]" [AInt netStart; AInt netEnd]), rt, [])
  else if negb (netStart =? netEnd) && negb extended then
    Some (Err (Errorf "invalid network range [%d, %d] for nonextended network"
                 [AInt netStart; AInt netEnd]), rt, [])
  else if maxRouteDistance <? distance then
    Some (Err (Errorf "route distance too high (%d > %d)"
                 [AInt distance; AInt maxRouteDistance]), rt, [])
  else
    let oldBest := Lookup rt now netStart in
    let class := Class_ target in
    let key := {| TargetKey := RouteTargetKey target; NetStart := netStart |} in
    let oldRoute := find rt target netStart in
    let '(tr, rt0) :=
      match traffic oldRoute with
      | Some t => (t, rt)
      | None => (length (traffic_heap rt),
                 set_heap (traffic_heap rt ++ [{| ddpBytesIn := 0; ddpBytesOut := 0 |}]) rt)
      end in
    let newRoute :=
      {| rkey := key; Extended := extended; NetEnd := netEnd; Target := Some target;
         Origin := routeOriginForTarget (Some target); Distance := distance; LastSeen := now;
         network_ptr := Some netStart; traffic := Some tr |} in
    let update := negb (Zero oldRoute) in
    let rt1 := set_byClass (<[(class, key) := newRoute]> (byClass rt0)) rt0 in
    olds ← (if update then net_range (NetStart (rkey oldRoute)) (NetEnd oldRoute) else Some []);
    let rt2 := foldl (fun rt n => set_routes n (delete_key key) rt) rt1 olds in
    ns ← net_range netStart netEnd;
    let rt3 := foldl (fun rt n =>
      set_routes n (fun l => sort_func compareRoutePreference (l ++ [newRoute])) rt) rt2 ns in
    let rt4 := foldl (fun rt n =>
      if (n <? netStart) || (netEnd <? n) then clearZonesForNetworkIfNoRoutes n rt else rt)
      rt3 olds in
    let newBest := Lookup rt4 now netStart in
    Some (Ok newRoute, rt4, informObservers rt4 oldBest newBest).

End Updates.
End RT.
