(* ===== verification/RouteTableInv.v ===== *)
(** * The route table: invariant and index synchronisation

    The table stores each route once per class and copies it into the list of
    every network of its range.  This file states when the copies, the
    preference order, the zone index and the traffic counters are consistent
    ([rt_inv]), and shows how each operation changes the stored routes and the
    per-network lists; [RouteTableSpec] draws the conclusions. *)
From S2P Require Import Prelude GoSort RouteTable.
Import RT.

(** Decide membership tests on a list and its tail against each other. *)
Ltac decide_cons :=
  repeat case_decide;
  repeat match goal with H : context [_ ∈ _ :: _] |- _ => rewrite elem_of_cons in H end;
  destruct_and?; destruct_or?; subst; try done; try tauto; try congruence;
  exfalso; tauto.

(** ** Keys determine classes *)

Lemma key_class t1 t2 : RouteTargetKey t1 = RouteTargetKey t2 -> Class_ t1 = Class_ t2.
Proof. destruct t1, t2; cbn; intros H; try done; by simplify_eq. Qed.

(** ** Preference is a strict weak ordering *)

Lemma sw_preference : StrictWeak compareRoutePreference.
Proof.
  unfold compareRoutePreference.
  apply (sw_or (fun a b => Z.compare (Distance a) (Distance b))); [by apply sw_proj, sw_Z|].
  apply (sw_or (fun a b => Z.compare (routePreferenceClass a) (routePreferenceClass b)));
    [by apply sw_proj, sw_Z|].
  apply (sw_or (fun a b => bytes_compare (o_ID (route_origin a)) (o_ID (route_origin b))));
    by apply (sw_proj _ bytes_compare), sw_bytes.
Qed.

(** ** Field access through the setters *)

Lemma net_at_set_net rt n nw m :
  net_at (set_net n nw rt) m = if decide (m = n) then nw else net_at rt m.
Proof.
  unfold net_at, set_net. simpl. case_decide; subst;
    [by rewrite lookup_insert_eq|by rewrite lookup_insert_ne].
Qed.

Lemma Routes_set_routes rt n f m :
  Routes (net_at (set_routes n f rt) m)
  = if decide (m = n) then f (Routes (net_at rt m)) else Routes (net_at rt m).
Proof. unfold set_routes. rewrite net_at_set_net. by case_decide; subst. Qed.

Lemma ZoneNames_set_routes rt n f m :
  ZoneNames (net_at (set_routes n f rt) m) = ZoneNames (net_at rt m).
Proof. unfold set_routes. rewrite net_at_set_net. by case_decide; subst. Qed.

Lemma Routes_set_zones rt n zs m :
  Routes (net_at (set_zones n zs rt) m) = Routes (net_at rt m).
Proof. unfold set_zones. rewrite net_at_set_net. by case_decide; subst. Qed.

Lemma ZoneNames_set_zones rt n zs m :
  ZoneNames (net_at (set_zones n zs rt) m) = if decide (m = n) then zs else ZoneNames (net_at rt m).
Proof. unfold set_zones. rewrite net_at_set_net. by case_decide; subst. Qed.

(** ** The zone index *)

Definition zone_inv (rt : RouteTable) : Prop :=
  (forall n z, z ∈ ZoneNames (net_at rt n) <-> n ∈ networksForZone rt z) /\
  (forall z l, networksByZone rt !! z = Some l -> NoDup l /\ l <> []).

Definition nbz_at (m : gmap (list Z) (list Z)) (z : list Z) : list Z := default [] (m !! z).

Definition nbz_ok (m : gmap (list Z) (list Z)) : Prop :=
  forall z l, m !! z = Some l -> NoDup l /\ l <> [].

Lemma elem_of_drop_from_zone n m zn z k :
  k ∈ nbz_at (drop_from_zone n m zn) z <-> k ∈ nbz_at m z /\ ~ (k = n /\ z = zn).
Proof.
  unfold drop_from_zone, nbz_at.
  set (f := List.filter (fun k => negb (k =? n)) (default [] (m !! zn))).
  assert (Hf : forall k, k ∈ f <-> k ∈ default [] (m !! zn) /\ k <> n).
  { intros k'. subst f. rewrite !list_elem_of_In, filter_In, negb_true_iff, Z.eqb_neq. done. }
  destruct (decide (z = zn)) as [->|Hz].
  - transitivity (k ∈ f); [|rewrite Hf; naive_solver].
    destruct f; [by rewrite lookup_delete_eq|by rewrite lookup_insert_eq].
  - destruct f; rewrite ?lookup_delete_ne, ?lookup_insert_ne by done; naive_solver.
Qed.

Lemma nbz_ok_drop n m zn : nbz_ok m -> nbz_ok (drop_from_zone n m zn).
Proof.
  intros Hm z l. unfold drop_from_zone.
  set (f := List.filter (fun k => negb (k =? n)) (default [] (m !! zn))).
  assert (Hnd : NoDup f).
  { subst f. destruct (m !! zn) as [l'|] eqn:E; simpl; [|constructor].
    apply NoDup_ListNoDup, List.NoDup_filter, NoDup_ListNoDup. by apply (Hm zn). }
  destruct f eqn:Ef.
  - rewrite lookup_delete_Some. intros [_ ?]. eauto.
  - rewrite lookup_insert_Some. intros [[_ <-]|[_ ?]]; [done|eauto].
Qed.

Lemma elem_of_add_to_zone n m zn z k :
  k ∈ nbz_at (add_to_zone n m zn) z <-> k ∈ nbz_at m z \/ (k = n /\ z = zn).
Proof.
  unfold add_to_zone, nbz_at. destruct (decide (z = zn)) as [->|Hz].
  - rewrite lookup_insert_eq. simpl. rewrite elem_of_app, list_elem_of_singleton. naive_solver.
  - rewrite lookup_insert_ne by done. naive_solver.
Qed.

Lemma nbz_ok_add n m zn :
  nbz_ok m -> n ∉ nbz_at m zn -> nbz_ok (add_to_zone n m zn).
Proof.
  intros Hm Hn z l. unfold add_to_zone. rewrite lookup_insert_Some.
  intros [[_ <-]|[_ ?]]; [|eauto]. split; [|by destruct (default [] (m !! zn))].
  apply NoDup_app. split_and!; [|set_solver|apply NoDup_singleton].
  destruct (m !! zn) eqn:E; simpl; [by apply (Hm zn)|constructor].
Qed.

Lemma fold_drop n zs m :
  (forall z k, k ∈ nbz_at (foldl (drop_from_zone n) m zs) z
               <-> k ∈ nbz_at m z /\ ~ (k = n /\ z ∈ zs)) /\
  (nbz_ok m -> nbz_ok (foldl (drop_from_zone n) m zs)).
Proof.
  revert m. induction zs as [|zn zs IH]; intros m; simpl; [set_solver|].
  destruct (IH (drop_from_zone n m zn)) as [IH1 IH2]. split.
  - intros z k. rewrite IH1, elem_of_drop_from_zone. set_solver.
  - eauto using nbz_ok_drop.
Qed.

Lemma fold_add n zs m :
  (forall z k, k ∈ nbz_at (foldl (add_to_zone n) m zs) z
               <-> k ∈ nbz_at m z \/ (k = n /\ z ∈ zs)) /\
  (nbz_ok m -> NoDup zs -> (forall z, z ∈ zs -> n ∉ nbz_at m z) ->
   nbz_ok (foldl (add_to_zone n) m zs)).
Proof.
  revert m. induction zs as [|zn zs IH]; intros m; simpl; [set_solver|].
  destruct (IH (add_to_zone n m zn)) as [IH1 IH2]. split.
  - intros z k. rewrite IH1, elem_of_add_to_zone. set_solver.
  - intros Hm Hnd Hfresh. apply NoDup_cons in Hnd as [Hzn Hnd]. apply IH2; [|done|].
    + apply nbz_ok_add; [done|]. apply Hfresh. by left.
    + intros z Hz. rewrite elem_of_add_to_zone. intros [?|[_ ->]]; [|done].
      apply (Hfresh z); [by right|done].
Qed.

Lemma add_zone_names_spec zones zs added :
  let r := add_zone_names zones zs added in
  r.1 = zones ∪ list_to_set zs /\
  exists new, r.2 = added ++ new /\ NoDup new /\
    forall z, z ∈ new <-> z ∈ zs /\ z ∉ zones.
Proof.
  revert zones added. induction zs as [|zn zs IH]; intros zones added; cbn [add_zone_names].
  - split; [set_solver|]. exists []. rewrite app_nil_r. split; [done|]. split; [constructor|].
    set_solver.
  - case_bool_decide as Hin.
    + destruct (IH zones added) as (H1 & new & H2 & H3 & H4). split; [rewrite H1; set_solver|].
      exists new. split; [done|]. split; [done|]. set_solver.
    + destruct (IH ({[zn]} ∪ zones) (added ++ [zn])) as (H1 & new & H2 & H3 & H4).
      split; [rewrite H1; set_solver|]. exists (zn :: new).
      rewrite H2, <- app_assoc. split; [done|]. split.
      * constructor; [|done]. rewrite H4. set_solver.
      * intros z. rewrite !elem_of_cons, H4, not_elem_of_union, not_elem_of_singleton.
        destruct (decide (z = zn)) as [->|]; tauto.
Qed.

(** Changing the zones of network [n] from [old] to [new] together with an
    index that says the same keeps the indexes in step. *)
Lemma zone_inv_change rt n new m :
  zone_inv rt -> nbz_ok m ->
  (forall z k, k ∈ nbz_at m z <->
     if decide (k = n) then z ∈ new else k ∈ networksForZone rt z) ->
  zone_inv (set_nbz m (set_zones n new rt)).
Proof.
  intros [Hz _] Hm Hspec. split; [|done]. intros k z.
  change (networksForZone (set_nbz m (set_zones n new rt)) z) with (nbz_at m z).
  change (net_at (set_nbz m (set_zones n new rt)) k) with (net_at (set_zones n new rt) k).
  rewrite ZoneNames_set_zones, Hspec. case_decide; subst; [done|apply Hz].
Qed.

Lemma zone_inv_set_routes rt n f : zone_inv rt -> zone_inv (set_routes n f rt).
Proof.
  intros [Hz Hm]. split; [|done]. intros k z. rewrite ZoneNames_set_routes. apply Hz.
Qed.

Lemma zone_inv_clear rt n : zone_inv rt -> zone_inv (clearZonesForNetworkIfNoRoutes n rt).
Proof.
  intros Hrt. unfold clearZonesForNetworkIfNoRoutes. case_if; [done|].
  destruct (fold_drop n (elements (ZoneNames (net_at rt n))) (networksByZone rt)) as [H1 H2].
  apply zone_inv_change; [done|by apply H2; destruct Hrt|]. intros z k. rewrite H1, elem_of_elements.
  change (nbz_at (networksByZone rt) z) with (networksForZone rt z).
  destruct Hrt as [Hz _]. destruct (decide (k = n)) as [->|Hk]; [|clear -Hk; naive_solver].
  rewrite (Hz n z), elem_of_empty. tauto.
Qed.

Lemma Routes_clear rt n m :
  Routes (net_at (clearZonesForNetworkIfNoRoutes n rt) m) = Routes (net_at rt m).
Proof.
  unfold clearZonesForNetworkIfNoRoutes. case_if; [done|]. apply Routes_set_zones.
Qed.

Lemma ZoneNames_clear rt n m :
  ZoneNames (net_at (clearZonesForNetworkIfNoRoutes n rt) m)
  = if decide (m = n /\ Routes (net_at rt m) = []) then ∅ else ZoneNames (net_at rt m).
Proof.
  unfold clearZonesForNetworkIfNoRoutes. destruct (bool_decide _) eqn:E1; simpl.
  - apply bool_decide_eq_true in E1. destruct (bool_decide (ZoneNames _ = ∅)) eqn:E2; simpl.
    + apply bool_decide_eq_true in E2. case_decide as Hd; [|done]. by destruct Hd as [-> _].
    + change (ZoneNames (net_at (set_zones n ∅ rt) m)
        = if decide (m = n ∧ Routes (net_at rt m) = []) then ∅ else ZoneNames (net_at rt m)).
      rewrite ZoneNames_set_zones. repeat case_decide; naive_solver.
  - apply bool_decide_eq_false in E1. case_decide as Hd; [|done]. destruct Hd as [-> ?]. done.
Qed.

(** The fields an operation on networks leaves alone. *)
Definition same_store (rt rt' : RouteTable) : Prop :=
  byClass rt' = byClass rt /\ observers rt' = observers rt /\ traffic_heap rt' = traffic_heap rt.

Lemma same_store_refl rt : same_store rt rt.
Proof. done. Qed.

Lemma same_store_trans rt1 rt2 rt3 : same_store rt1 rt2 -> same_store rt2 rt3 -> same_store rt1 rt3.
Proof. unfold same_store. naive_solver congruence. Qed.

Lemma same_store_clear n rt : same_store rt (clearZonesForNetworkIfNoRoutes n rt).
Proof. unfold clearZonesForNetworkIfNoRoutes. by case_if. Qed.

(** ** Loops over networks *)

Lemma net_range_Some s e l :
  0 <= s < 65536 -> e < 65536 -> net_range s e = Some l ->
  e < 65535 /\ NoDup l /\ forall n, n ∈ l <-> s <= n <= e.
Proof.
  intros Hs He Hl. destruct (decide (e = 65535)) as [->|].
  { by rewrite net_range_diverges in Hl. }
  split; [lia|]. rewrite net_range_spec in Hl by lia. injection Hl as <-.
  split; [apply NoDup_seqZ|]. intros m. rewrite elem_of_seqZ. lia.
Qed.

(** A loop that rewrites the route list of each visited network and then
    clears its zones when no routes are left. *)
Lemma fold_routes_clear f ns rt :
  NoDup ns ->
  let rt' := foldl (fun rt n => clearZonesForNetworkIfNoRoutes n (set_routes n f rt)) rt ns in
  same_store rt rt' /\ (zone_inv rt -> zone_inv rt') /\
  (forall m, Routes (net_at rt' m)
     = if decide (m ∈ ns) then f (Routes (net_at rt m)) else Routes (net_at rt m)) /\
  (forall m, ZoneNames (net_at rt' m)
     = if decide (m ∈ ns /\ f (Routes (net_at rt m)) = []) then ∅ else ZoneNames (net_at rt m)).
Proof.
  intros Hnd. revert rt. induction Hnd as [|n ns Hn Hnd IH]; intros rt; simpl.
  { by split_and!. }
  set (rt1 := clearZonesForNetworkIfNoRoutes n (set_routes n f rt)).
  destruct (IH rt1) as (I1 & I2 & I3 & I4). split_and!.
  - eapply same_store_trans; [|exact I1]. apply (same_store_clear n (set_routes n f rt)).
  - intros Hz. by apply I2, zone_inv_clear, zone_inv_set_routes.
  - intros m. rewrite I3. subst rt1. rewrite !Routes_clear, Routes_set_routes.
    clear IH I1 I2 I3 I4. decide_cons.
  - intros m. rewrite I4. subst rt1.
    rewrite ZoneNames_clear, Routes_clear, Routes_set_routes, ZoneNames_set_routes.
    clear IH I1 I2 I3 I4. decide_cons.
Qed.

Lemma fold_routes f ns rt :
  NoDup ns ->
  let rt' := foldl (fun rt n => set_routes n f rt) rt ns in
  same_store rt rt' /\ (zone_inv rt -> zone_inv rt') /\
  (forall m, Routes (net_at rt' m)
     = if decide (m ∈ ns) then f (Routes (net_at rt m)) else Routes (net_at rt m)) /\
  (forall m, ZoneNames (net_at rt' m) = ZoneNames (net_at rt m)).
Proof.
  intros Hnd. revert rt. induction Hnd as [|n ns Hn Hnd IH]; intros rt; simpl.
  { by split_and!. }
  destruct (IH (set_routes n f rt)) as (I1 & I2 & I3 & I4). split_and!.
  - by eapply same_store_trans; [|exact I1].
  - intros Hz. by apply I2, zone_inv_set_routes.
  - intros m. rewrite I3, Routes_set_routes. clear IH I1 I2 I3 I4. decide_cons.
  - intros m. by rewrite I4, ZoneNames_set_routes.
Qed.

Lemma fold_clear (p : Z -> bool) ns rt :
  let rt' := foldl (fun rt n => if p n then clearZonesForNetworkIfNoRoutes n rt else rt) rt ns in
  same_store rt rt' /\ (zone_inv rt -> zone_inv rt') /\
  (forall m, Routes (net_at rt' m) = Routes (net_at rt m)) /\
  (forall m, ZoneNames (net_at rt' m)
     = if decide (m ∈ ns /\ p m = true /\ Routes (net_at rt m) = [])
       then ∅ else ZoneNames (net_at rt m)).
Proof.
  revert rt. induction ns as [|n ns IH]; intros rt; simpl.
  { by split_and!. }
  set (rt1 := if p n then clearZonesForNetworkIfNoRoutes n rt else rt).
  destruct (IH rt1) as (I1 & I2 & I3 & I4). split_and!.
  - eapply same_store_trans; [|exact I1]. subst rt1. destruct (p n); [apply same_store_clear|done].
  - intros Hz. apply I2. subst rt1. destruct (p n); [by apply zone_inv_clear|done].
  - intros m. rewrite I3. subst rt1. destruct (p n); [apply Routes_clear|done].
  - intros m. rewrite I4. subst rt1.
    clear IH I1 I2 I3 I4.
    destruct (p n) eqn:Ep; rewrite ?Routes_clear, ?ZoneNames_clear; decide_cons.
Qed.

(** ** The invariant *)

Definition covers (r : Route) (n : Z) : Prop := NetStart (rkey r) <= n <= NetEnd r.

#[global] Instance covers_dec r n : Decision (covers r n).
Proof. unfold covers. apply _. Defined.

(** The route is a record of the class index. *)
Definition stored (rt : RouteTable) (r : Route) : Prop :=
  exists c, byClass rt !! (c, rkey r) = Some r.

Record stored_ok (c : TargetClass) (k : RouteKey) (r : Route) : Prop := {
  so_key : rkey r = k;
  so_target : exists t, Target r = Some t /\ Class_ t = c /\ RouteTargetKey t = TargetKey k
                        /\ Origin r = routeOriginForTarget (Some t);
  so_ptr : network_ptr r = Some (NetStart k);
  so_range : 0 <= NetStart k <= NetEnd r /\ NetEnd r < 65535;
  so_ext : NetStart k <> NetEnd r -> Extended r = true;
  so_dist : 0 <= Distance r <= maxRouteDistance }.

(** Every stored route has its own live traffic counters. *)
Definition traffic_inv (rt : RouteTable) : Prop :=
  (forall ck r, byClass rt !! ck = Some r ->
     exists i, traffic r = Some i /\ (i < length (traffic_heap rt))%nat) /\
  (forall ck1 ck2 r1 r2, byClass rt !! ck1 = Some r1 -> byClass rt !! ck2 = Some r2 ->
     traffic r1 = traffic r2 -> ck1 = ck2).

Record rt_inv (rt : RouteTable) : Prop := {
  inv_stored c k r : byClass rt !! (c, k) = Some r -> stored_ok c k r;
  inv_index n r : r ∈ Routes (net_at rt n) <-> stored rt r /\ covers r n;
  inv_nodup n : NoDup (rkey <$> Routes (net_at rt n));
  inv_sorted n : Sorted (cmp_le compareRoutePreference) (Routes (net_at rt n));
  inv_zone : zone_inv rt;
  inv_traffic : traffic_inv rt }.

Lemma empty_inv : rt_inv NewRouteTable.
Proof.
  split.
  - intros c k r. simpl. by rewrite lookup_empty.
  - intros n r. unfold stored. simpl. setoid_rewrite lookup_empty. split; [by intros ?%elem_of_nil|].
    by intros [[? ?] _].
  - intros n. constructor.
  - intros n. constructor.
  - split; [intros n z; split; [by intros ?%elem_of_empty|by intros ?%elem_of_nil]|]. intros z l. simpl. by rewrite lookup_empty.
  - split; intros *; simpl; by rewrite lookup_empty.
Qed.

Section Inv.
Context (rt : RouteTable) (Hinv : rt_inv rt).

Lemma stored_class c1 c2 k r1 r2 :
  byClass rt !! (c1, k) = Some r1 -> byClass rt !! (c2, k) = Some r2 -> c1 = c2 /\ r1 = r2.
Proof.
  intros H1 H2. pose proof (inv_stored rt Hinv _ _ _ H1) as [_ (t1 & _ & E1 & K1 & _) _ _ _ _].
  pose proof (inv_stored rt Hinv _ _ _ H2) as [_ (t2 & _ & E2 & K2 & _) _ _ _ _].
  assert (c1 = c2) as -> by (subst; apply key_class; congruence). split; [done|congruence].
Qed.

Lemma stored_unique r1 r2 : stored rt r1 -> stored rt r2 -> rkey r1 = rkey r2 -> r1 = r2.
Proof.
  intros [c1 H1] [c2 H2] E. rewrite E in H1. by destruct (stored_class _ _ _ _ _ H1 H2).
Qed.

Lemma stored_Zero r : stored rt r -> Zero r = false.
Proof.
  intros [c H]. destruct (inv_stored rt Hinv _ _ _ H) as [_ (t & Ht & _) Hp _ _ _].
  unfold Zero. by rewrite Ht, Hp.
Qed.

(** A lookup by target and start reads the class index. *)
Lemma find_stored t n r :
  byClass rt !! (Class_ t, {| TargetKey := RouteTargetKey t; NetStart := n |}) = Some r ->
  find rt t n = r /\ stored rt r /\ Zero r = false /\
  rkey r = {| TargetKey := RouteTargetKey t; NetStart := n |}.
Proof.
  intros H. assert (Hk : rkey r = {| TargetKey := RouteTargetKey t; NetStart := n |})
    by apply (inv_stored rt Hinv _ _ _ H).
  assert (Hs : stored rt r) by (exists (Class_ t); by rewrite Hk).
  split_and!; [unfold find; by rewrite H|done|by apply stored_Zero|done].
Qed.

Lemma find_none t n :
  byClass rt !! (Class_ t, {| TargetKey := RouteTargetKey t; NetStart := n |}) = None ->
  find rt t n = zero_route.
Proof. intros H. unfold find. by rewrite H. Qed.
End Inv.

Lemma fmap_sublist {A B} (f : A -> B) l1 l2 :
  l1 `sublist_of` l2 -> f <$> l1 `sublist_of` f <$> l2.
Proof. induction 1; simpl; by constructor. Qed.

(** *** Removing stored routes

    The routes satisfying [gone] leave the class index and every list. *)
Lemma removal_inv rt rt' (gone : Route -> bool) :
  rt_inv rt -> zone_inv rt' -> traffic_heap rt' = traffic_heap rt ->
  (forall c k r, byClass rt' !! (c, k) = Some r
     <-> byClass rt !! (c, k) = Some r /\ gone r = false) ->
  (forall m, Routes (net_at rt' m) `sublist_of` Routes (net_at rt m)) ->
  (forall m r, r ∈ Routes (net_at rt' m) <-> r ∈ Routes (net_at rt m) /\ gone r = false) ->
  rt_inv rt'.
Proof.
  intros Hinv Hz Hheap Hcls Hsub Hmem. split; [| | | |done|].
  - intros c k r [H _]%Hcls. by apply Hinv.
  - intros n r. rewrite Hmem, (inv_index rt Hinv). unfold stored. setoid_rewrite Hcls. naive_solver.
  - intros n. eapply sublist_NoDup; [apply (inv_nodup rt Hinv n)|]. by apply fmap_sublist.
  - intros n. pose proof (inv_sorted rt Hinv n) as Hs.
    apply (sorted_strongly _ sw_preference) in Hs. apply StronglySorted_Sorted.
    by apply (strongly_sorted_sublist _ _ _ (Hsub n)).
  - destruct (inv_traffic rt Hinv) as [Ht Hi]. split.
    + intros [c k] r [H _]%Hcls. rewrite Hheap. eauto.
    + intros [c1 k1] [c2 k2] r1 r2 [H1 _]%Hcls [H2 _]%Hcls. eauto.
Qed.

(** *** Storing a route, replacing the one with its key *)
Lemma put_inv rt rt' c r :
  rt_inv rt -> zone_inv rt' -> traffic_inv rt' ->
  stored_ok c (rkey r) r ->
  byClass rt' = <[(c, rkey r) := r]> (byClass rt) ->
  (forall m, Sorted (cmp_le compareRoutePreference) (Routes (net_at rt' m))) ->
  (forall m, Routes (net_at rt' m) ≡ₚ
     (if decide (covers r m) then [r] else []) ++ delete_key (rkey r) (Routes (net_at rt m))) ->
  rt_inv rt'.
Proof.
  intros Hinv Hz Ht Hok Hcls Hsorted Hperm.
  assert (Hc : forall c' r', byClass rt !! (c', rkey r) = Some r' -> c' = c).
  { intros c' r' H. destruct (so_target _ _ _ Hok) as (t & _ & <- & K & _).
    destruct (inv_stored rt Hinv _ _ _ H) as [_ (t' & _ & <- & K' & _) _ _ _ _].
    apply key_class. congruence. }
  assert (Hst : forall r', stored rt' r' <-> r' = r \/ (rkey r' <> rkey r /\ stored rt r')).
  { intros r'. unfold stored. rewrite Hcls. setoid_rewrite lookup_insert_Some. split.
    - intros [c' [[[= <- E] <-]|[Hne H]]]; [by left|].
      destruct (decide (rkey r' = rkey r)) as [E|]; [|naive_solver].
      rewrite E in H. by rewrite (Hc _ _ H), E in Hne.
    - intros [->|[Hne [c' H]]]; [by exists c; left|]. exists c'. right. split; [naive_solver|done]. }
  split; [| | |done..].
  - intros c' k r'. rewrite Hcls, lookup_insert_Some.
    intros [[[= <- <-] <-]|[_ H]]; [done|]. by apply Hinv.
  - intros n r'. rewrite Hperm, elem_of_app, Hst. unfold delete_key.
    rewrite list_elem_of_filter, (inv_index rt Hinv).
    case_decide as Hcov; rewrite ?list_elem_of_singleton, ?elem_of_nil; naive_solver.
  - intros n. rewrite Hperm, fmap_app. apply NoDup_app. split_and!.
    + case_decide; simpl; [apply NoDup_singleton|constructor].
    + intros k. case_decide as Hcov; simpl; [|by intros ?%elem_of_nil].
      rewrite list_elem_of_singleton. intros -> (r' & E & [H _]%list_elem_of_filter)%list_elem_of_fmap.
      done.
    + eapply sublist_NoDup; [apply (inv_nodup rt Hinv n)|].
      apply fmap_sublist, sublist_filter.
Qed.

(** ** What each operation does

    The zones of a network change only by being cleared, which happens to the
    touched networks that end up without routes. *)
Definition zones_cleared (rt rt' : RouteTable) (touched : Z -> Prop) : Prop :=
  forall m, (touched m -> Routes (net_at rt' m) = [] -> ZoneNames (net_at rt' m) = ∅) /\
            (ZoneNames (net_at rt' m) <> ZoneNames (net_at rt m) ->
             touched m /\ Routes (net_at rt' m) = [] /\ ZoneNames (net_at rt' m) = ∅).

Section Operations.
Context {GS : GoSort}.

Lemma delete_loop_inv rt rt1 f ns (gone : Route -> bool) :
  rt_inv rt ->
  net_at rt1 = net_at rt -> networksByZone rt1 = networksByZone rt ->
  traffic_heap rt1 = traffic_heap rt ->
  (forall c k r, byClass rt1 !! (c, k) = Some r
     <-> byClass rt !! (c, k) = Some r /\ gone r = false) ->
  (forall l, f l `sublist_of` l) ->
  (forall r l, stored rt r -> r ∈ f l <-> r ∈ l /\ gone r = false) ->
  (forall r m, stored rt r -> gone r = true -> covers r m -> m ∈ ns) ->
  NoDup ns ->
  let rt2 := foldl (fun rt n => clearZonesForNetworkIfNoRoutes n (set_routes n f rt)) rt1 ns in
  rt_inv rt2 /\ byClass rt2 = byClass rt1 /\ observers rt2 = observers rt1 /\
  zones_cleared rt rt2 (fun m => m ∈ ns).
Proof.
  intros Hinv Hnet Hnbz Hheap Hcls Hsub Hf Hns Hnd.
  destruct (fold_routes_clear f ns rt1 Hnd) as ((S1 & S2 & S3) & Hz & HR & HZ).
  set (rt2 := foldl _ _ _) in *. cbv zeta. rewrite Hnet in *.
  split_and!; [|done|done|].
  - apply (removal_inv rt rt2 gone); [done| |congruence| | |].
    + apply Hz. pose proof (inv_zone rt Hinv) as Hzi. unfold zone_inv, networksForZone in *.
      by rewrite Hnet, Hnbz.
    + intros c k r. rewrite S1. apply Hcls.
    + intros m. rewrite HR. by case_decide.
    + intros m r. rewrite HR. destruct (decide (m ∈ ns)) as [Hm|Hm].
      * split.
        -- intros Hr. assert (Hr' : r ∈ Routes (net_at rt m)) by (by eapply elem_of_sublist).
           apply Hf; [|done]. by apply (inv_index rt Hinv) in Hr' as [? _].
        -- intros [Hr Hg]. apply Hf; [|done]. by apply (inv_index rt Hinv) in Hr as [? _].
      * split; [|naive_solver]. intros Hr. split; [done|].
        apply (inv_index rt Hinv) in Hr as [Hs Hc]. destruct (gone r) eqn:E; [|done].
        exfalso. eauto.
  - intros m. rewrite HZ, HR. clear. case_decide as Hd; case_decide as Hm; naive_solver.
Qed.

Lemma delete_key_spec key r l : r ∈ delete_key key l <-> r ∈ l /\ rkey r <> key.
Proof. unfold delete_key. rewrite list_elem_of_filter. tauto. Qed.

Lemma DeleteRoute_found rt now target s route :
  rt_inv rt ->
  byClass rt !! (Class_ target, {| TargetKey := RouteTargetKey target; NetStart := s |})
    = Some route ->
  exists rt' notes,
    DeleteRoute now target s rt = Some (Ok tt, rt', notes) /\
    rt_inv rt' /\
    byClass rt' = delete (Class_ target, {| TargetKey := RouteTargetKey target; NetStart := s |})
                    (byClass rt) /\
    observers rt' = observers rt /\
    notes = informObservers rt' (Lookup rt now s) (Lookup rt' now s) /\
    zones_cleared rt rt' (covers route).
Proof.
  intros Hinv Hr. set (key := {| TargetKey := RouteTargetKey target; NetStart := s |}) in *.
  pose proof (inv_stored rt Hinv _ _ _ Hr) as [Hkey _ _ Hrange _ _].
  unfold DeleteRoute. fold key. rewrite Hr. rewrite Hkey. change (NetStart key) with s in *.
  rewrite net_range_spec by lia. simpl.
  assert (Hns : forall m, m ∈ seqZ s (NetEnd route - s + 1) <-> covers route m).
  { intros m. unfold covers. rewrite Hkey, elem_of_seqZ. simpl. lia. }
  destruct (delete_loop_inv rt (set_byClass (delete (Class_ target, key) (byClass rt)) rt)
    (delete_key key) (seqZ s (NetEnd route - s + 1)) (fun r => bool_decide (rkey r = key)))
    as (I1 & I2 & I3 & I4); try done.
  - intros c k r. simpl. rewrite lookup_delete_Some, bool_decide_eq_false. split.
    + intros [Hne H]. split; [done|]. intros E.
      pose proof (so_key _ _ _ (inv_stored rt Hinv _ _ _ H)) as E'.
      assert (k = key) as -> by congruence.
      by destruct (stored_class rt Hinv _ _ _ _ _ H Hr) as [-> _].
    + intros [H E]. split; [|done]. intros [= <- <-]. apply E.
      apply (so_key _ _ _ (inv_stored rt Hinv _ _ _ H)).
  - intros l. apply sublist_filter.
  - intros r l _. rewrite bool_decide_eq_false. apply delete_key_spec.
  - intros r m Hs E Hc. apply bool_decide_eq_true in E. apply Hns.
    replace route with r; [done|]. apply (stored_unique rt Hinv); [done| |congruence].
    exists (Class_ target). by rewrite Hkey.
  - apply NoDup_seqZ.
  - eexists _, _. split; [reflexivity|]. split_and!; [done..|].
    intros m. specialize (I4 m). rewrite Hns in I4. done.
Qed.
End Operations.
