(* ===== verification/RouteTableOps.v ===== *)
(** * The route table: effect of the bulk and updating operations

    For each operation of [RouteTable.RT]: from a consistent table it returns
    (no loop diverges), the resulting table is consistent, and the stored
    routes, the zones and the observer notifications are as stated. *)
From S2P Require Import Prelude GoSort RouteTable RouteTableInv.
Import RT.

(** ** Collections computed by the bulk deletions *)

Definition range_of (r : Route) : list Z :=
  seqZ (NetStart (rkey r)) (NetEnd r - NetStart (rkey r) + 1).

Lemma elem_of_range_of r n : n ∈ range_of r <-> covers r n.
Proof. unfold range_of, covers. rewrite elem_of_seqZ. lia. Qed.

Lemma mapM_net_range l :
  Forall (fun r => 0 <= NetStart (rkey r) /\ NetEnd r < 65535) l ->
  mapM (fun r => net_range (NetStart (rkey r)) (NetEnd r)) l = Some (range_of <$> l).
Proof.
  induction 1 as [|r l [H1 H2] _ IH]; [done|]. simpl. rewrite net_range_spec, IH by lia. done.
Qed.

Lemma elem_of_affected l n :
  n ∈ elements (list_to_set (concat (range_of <$> l)) : gset Z) <-> exists r, r ∈ l /\ covers r n.
Proof.
  rewrite elem_of_elements, elem_of_list_to_set, list_elem_of_In, in_concat.
  setoid_rewrite <- list_elem_of_In. setoid_rewrite list_elem_of_fmap.
  setoid_rewrite <- elem_of_range_of. naive_solver.
Qed.

(** The routes of a filtered class index, in iteration order. *)
Lemma elem_of_filtered (P : (TargetClass * RouteKey) * Route -> Prop)
    `{!forall e, Decision (P e)} (m : gmap (TargetClass * RouteKey) Route) r :
  r ∈ (map_to_list (filter P m)).*2 <-> exists ck, m !! ck = Some r /\ P (ck, r).
Proof.
  rewrite list_elem_of_fmap. split.
  - intros ([ck r'] & -> & Hr%elem_of_map_to_list). apply map_lookup_filter_Some in Hr. eauto.
  - intros (ck & Hr & HP). exists (ck, r). split; [done|].
    apply elem_of_map_to_list, map_lookup_filter_Some. done.
Qed.

Lemma fold_insert_lookup {A V} `{Countable K} (key : A -> K) (v : A -> V) l (m : gmap K V) k :
  (forall a b, a ∈ l -> b ∈ l -> key a = key b -> v a = v b) ->
  foldl (fun m a => <[key a := v a]> m) m l !! k
  = match List.find (fun a => bool_decide (key a = k)) l with
    | Some a => Some (v a)
    | None => m !! k
    end.
Proof.
  revert m. induction l as [|a l IH]; intros m Huniq; [done|]. simpl.
  rewrite IH by (intros; apply Huniq; [by right|by right|done]).
  destruct (List.find _ l) as [b|] eqn:E; case_bool_decide as Hk.
  - apply List.find_some in E as [Hb E]. apply bool_decide_eq_true in E. f_equal.
    apply Huniq; [right; by apply list_elem_of_In|by left|congruence].
  - done.
  - subst. by rewrite lookup_insert_eq.
  - by rewrite lookup_insert_ne.
Qed.

Lemma find_key {A K} `{EqDecision K} (key : A -> K) l k :
  match List.find (fun a => bool_decide (key a = k)) l with
  | Some a => a ∈ l /\ key a = k
  | None => forall a, a ∈ l -> key a <> k
  end.
Proof.
  destruct (List.find _ l) as [a|] eqn:E.
  - apply List.find_some in E as [Ha E]. apply bool_decide_eq_true in E.
    by rewrite list_elem_of_In.
  - intros a Ha. pose proof (List.find_none _ _ E a) as Hn.
    eapply bool_decide_eq_false_1, Hn. by apply list_elem_of_In.
Qed.

(** [oldBest] of [PruneExpiredRoutes]: filled only where absent. *)
Lemma fold_fill_lookup {A V} `{Countable K} (key : A -> K) (g : K -> V) l (m : gmap K V) :
  (forall k v, m !! k = Some v -> v = g k) ->
  let m' := foldl (fun m a =>
    match m !! key a with Some _ => m | None => <[key a := g (key a)]> m end) m l in
  (forall k v, m' !! k = Some v -> v = g k) /\
  (forall k, is_Some (m' !! k) <-> is_Some (m !! k) \/ exists a, a ∈ l /\ key a = k).
Proof.
  revert m. induction l as [|a l IH]; intros m Hm; simpl.
  - split; [done|]. intros k. split; [by left|]. intros [?|(? & ?%elem_of_nil & _)]; done.
  - destruct (m !! key a) as [v|] eqn:E.
    + destruct (IH m Hm) as [I1 I2]. split; [done|]. intros k. rewrite I2.
      setoid_rewrite elem_of_cons. split; [naive_solver|].
      intros [?|(b & [->|Hb] & <-)]; [by left| |naive_solver]. left. by rewrite E.
    + destruct (IH (<[key a := g (key a)]> m)) as [I1 I2].
      { intros k v. rewrite lookup_insert_Some. intros [[<- <-]|[_ ?]]; eauto. }
      split; [done|]. intros k. rewrite I2, lookup_insert_is_Some'.
      setoid_rewrite elem_of_cons. naive_solver.
Qed.

Section Bulk.
Context {GS : GoSort}.

(** One notification step per key of [oldBest], in ascending order. *)
Lemma inform_starts_spec rt now m (g : Z -> Route) :
  (forall n r, m !! n = Some r -> r = g n) ->
  exists starts, NoDup starts /\ Sorted Z.le starts /\
    (forall n, n ∈ starts <-> is_Some (m !! n)) /\
    inform_starts rt now m
    = concat (map (fun n => informObservers rt (g n) (Lookup rt now n)) starts).
Proof.
  intros Hg. set (starts := sort_func Z.compare (map_to_list m).*1). exists starts.
  assert (Hp : starts ≡ₚ (map_to_list m).*1) by (apply sort_func_perm, sw_Z).
  assert (Hel : forall n, n ∈ starts <-> is_Some (m !! n)).
  { intros n. rewrite Hp, list_elem_of_fmap. split.
    - intros ([n' r] & -> & H%elem_of_map_to_list). by eexists.
    - intros [r H]. exists (n, r). split; [done|]. by apply elem_of_map_to_list. }
  split_and!; [rewrite Hp; apply NoDup_fst_map_to_list| |done|].
  - eapply Sorted_ind with (P := fun l => Sorted Z.le l);
      [constructor| |apply (sort_func_sorted Z.compare _ sw_Z)].
    intros a l _ IH Hhd. constructor; [done|]. destruct Hhd as [|b l Hab]; constructor.
    unfold cmp_le in Hab. rewrite Z.compare_ngt_iff in Hab. lia.
  - unfold inform_starts. fold starts. f_equal. apply map_ext_in. intros n Hn.
    rewrite <- list_elem_of_In in Hn. apply Hel in Hn as [r Hr]. rewrite Hr. simpl. by rewrite (Hg n r).
Qed.

(** ** [DeleteTarget] *)

Definition target_route (rt : RouteTable) (t : RouteTarget) (r : Route) : Prop :=
  stored rt r /\ TargetKey (rkey r) = RouteTargetKey t.

(** The notifications of a bulk operation: one comparison of the old best and
    the new best per start of a removed range. *)
Definition bulk_notes (rt' : RouteTable) (now : Z) (removed : Route -> Prop) (old : Z -> Route)
    (notes : list (positive * Note)) : Prop :=
  exists starts, NoDup starts /\ Sorted Z.le starts /\
    (forall n, n ∈ starts <-> exists r, removed r /\ NetStart (rkey r) = n) /\
    notes = concat (map (fun n => informObservers rt' (old n) (Lookup rt' now n)) starts).

Lemma insert_notes rt' now removed old deleted :
  (forall r, r ∈ deleted <-> removed r) ->
  bulk_notes rt' now removed old
    (inform_starts rt' now
       (foldl (fun m r => <[NetStart (rkey r) := old (NetStart (rkey r))]> m) ∅ deleted)).
Proof.
  intros Hdel.
  assert (Hm : forall n, foldl (fun m r => <[NetStart (rkey r) := old (NetStart (rkey r))]> m)
      (∅ : gmap Z Route) deleted !! n
    = match List.find (fun r => bool_decide (NetStart (rkey r) = n)) deleted with
      | Some r => Some (old (NetStart (rkey r))) | None => None end).
  { intros n. rewrite (fold_insert_lookup (fun r => NetStart (rkey r))
      (fun r => old (NetStart (rkey r)))); [by rewrite lookup_empty|]. by intros ? ? _ _ ->. }
  set (m := foldl _ _ _) in *.
  destruct (inform_starts_spec rt' now m old) as (starts & S1 & S2 & S3 & S4).
  { intros n r. rewrite Hm. pose proof (find_key (fun r => NetStart (rkey r)) deleted n) as Hf.
    destruct (List.find _ _); [|done]. destruct Hf as [_ <-]. by intros [= <-]. }
  exists starts. split_and!; [done..| |exact S4]. intros n. rewrite S3, Hm.
  pose proof (find_key (fun r => NetStart (rkey r)) deleted n) as Hf.
  setoid_rewrite <- Hdel. destruct (List.find _ _) as [r|]; [by split; [exists r|eauto]|].
  split; [by intros [? ?]|]. intros (r & Hr & E). by destruct (Hf r).
Qed.

Lemma fill_notes rt' now removed old deleted :
  (forall r, r ∈ deleted <-> removed r) ->
  bulk_notes rt' now removed old
    (inform_starts rt' now
       (foldl (fun m r => match m !! NetStart (rkey r) with
          | Some _ => m
          | None => <[NetStart (rkey r) := old (NetStart (rkey r))]> m
          end) ∅ deleted)).
Proof.
  intros Hdel.
  destruct (fold_fill_lookup (fun r => NetStart (rkey r)) old deleted (∅ : gmap Z Route))
    as [F1 F2]; [intros k v; by rewrite lookup_empty|].
  destruct (inform_starts_spec rt' now _ old F1) as (starts & S1 & S2 & S3 & S4).
  exists starts. split_and!; [done..| |exact S4]. intros n. rewrite S3, F2, lookup_empty.
  setoid_rewrite <- Hdel. split; [|by right]. intros [[? ?]|?]; done.
Qed.

Section Targets.
Context (rt : RouteTable) (Hinv : rt_inv rt).

Lemma of_target_stored t ck r :
  byClass rt !! ck = Some r ->
  of_target (Class_ t) (RouteTargetKey t) (ck, r) <-> TargetKey (rkey r) = RouteTargetKey t.
Proof.
  destruct ck as [c k]. intros Hr. unfold of_target. simpl. split; [tauto|]. intros E.
  split; [|done]. destruct (inv_stored rt Hinv _ _ _ Hr) as [Hk (t' & _ & <- & K & _) _ _ _ _].
  apply key_class. congruence.
Qed.

Lemma stored_ranges l :
  (forall r, r ∈ l -> stored rt r) ->
  Forall (fun r => 0 <= NetStart (rkey r) /\ NetEnd r < 65535) l.
Proof.
  intros H. apply Forall_forall. intros r [c Hr]%H.
  pose proof (so_range _ _ _ (inv_stored rt Hinv _ _ _ Hr)). lia.
Qed.

Lemma stored_lookup ck r : byClass rt !! ck = Some r -> ck.2 = rkey r /\ stored rt r.
Proof.
  destruct ck as [c k]. intros Hr. assert (E : rkey r = k) by apply (inv_stored rt Hinv _ _ _ Hr).
  split; [done|]. exists c. by rewrite E.
Qed.

Lemma DeleteTarget_spec now t :
  exists rt' notes,
    DeleteTarget now t rt = Some (rt', notes) /\ rt_inv rt' /\
    byClass rt' = filter (fun e => ~ of_target (Class_ t) (RouteTargetKey t) e) (byClass rt) /\
    observers rt' = observers rt /\
    bulk_notes rt' now (target_route rt t) (Lookup rt now) notes /\
    zones_cleared rt rt' (fun m => exists r, target_route rt t r /\ covers r m).
Proof.
  set (tk := RouteTargetKey t). set (P := of_target (Class_ t) tk).
  set (deleted := (map_to_list (filter P (byClass rt))).*2).
  set (rt1 := set_byClass (filter (fun e => ~ P e) (byClass rt)) rt).
  assert (Hdel : forall r, r ∈ deleted <-> target_route rt t r).
  { intros r. subst deleted. rewrite elem_of_filtered. split.
    - intros (ck & Hr & HP). apply (of_target_stored t ck r Hr) in HP.
      split; [by eapply stored_lookup|done].
    - intros [[c Hr] E]. exists (c, rkey r). split; [done|]. by apply of_target_stored. }
  assert (Hns : forall m, m ∈ elements (list_to_set (concat (range_of <$> deleted)) : gset Z)
                <-> exists r, target_route rt t r /\ covers r m).
  { intros m. rewrite elem_of_affected. by setoid_rewrite Hdel. }
  destruct (delete_loop_inv rt rt1 (filter (fun r => TargetKey (rkey r) <> tk))
    (elements (list_to_set (concat (range_of <$> deleted)) : gset Z))
    (fun r => bool_decide (TargetKey (rkey r) = tk))) as (I1 & I2 & I3 & I4); try done.
  - intros c k r. simpl. rewrite map_lookup_filter_Some, bool_decide_eq_false. split.
    + intros [Hr HP]. split; [done|]. intros E.
      exact (HP (proj2 (of_target_stored t (c, k) r Hr) E)).
    + intros [Hr HP]. split; [done|]. intros E.
      exact (HP (proj1 (of_target_stored t (c, k) r Hr) E)).
  - intros l. apply sublist_filter.
  - intros r l _. rewrite list_elem_of_filter, bool_decide_eq_false. tauto.
  - intros r m Hs Hg Hc. apply bool_decide_eq_true in Hg. apply Hns. by exists r.
  - apply NoDup_elements.
  - unfold DeleteTarget. fold tk P. fold deleted. fold rt1.
    destruct deleted as [|r0 l0] eqn:Ed.
    + eexists _, _. split; [reflexivity|]. split_and!; [done..| |].
      * exists []. split_and!; [constructor..| |done]. intros n. split; [by intros ?%elem_of_nil|].
        intros (r & Hr & _). by apply Hdel, elem_of_nil in Hr.
      * intros m. specialize (I4 m). rewrite Hns in I4. done.
    + rewrite <- Ed in *. rewrite mapM_net_range
        by (apply stored_ranges; by intros r [? _]%Hdel).
      eexists _, _. split; [reflexivity|]. split_and!; [done..| |].
      * by apply insert_notes.
      * intros m. specialize (I4 m). rewrite Hns in I4. done.
Qed.

Lemma DeleteTarget_stored rt' now t notes :
  DeleteTarget now t rt = Some (rt', notes) ->
  forall r, stored rt' r <-> stored rt r /\ TargetKey (rkey r) <> RouteTargetKey t.
Proof.
  intros E. destruct (DeleteTarget_spec now t) as (rt1 & n1 & E1 & _ & Hc & _).
  rewrite E in E1. injection E1 as <- <-. intros r. unfold stored. rewrite Hc.
  setoid_rewrite map_lookup_filter_Some. split.
  - intros [c [Hr Hn]]. split; [by exists c|]. intros E'. by apply Hn, of_target_stored.
  - intros [[c Hr] Hn]. exists c. split; [done|]. by intros ?%of_target_stored.
Qed.

(** ** [PruneExpiredRoutes] *)

Definition expired_route (now : Z) (r : Route) : Prop := stored rt r /\ expiredAt r now = true.

Lemma expired_entry_stored now ck r :
  byClass rt !! ck = Some r -> expired_entry now (ck, r) <-> expiredAt r now = true.
Proof.
  destruct ck as [c k]. intros Hr. unfold expired_entry. simpl. split; [tauto|]. intros E.
  split; [|done]. destruct (inv_stored rt Hinv _ _ _ Hr) as [_ (t & Ht & <- & _) _ _ _ _].
  unfold expiredAt in E. rewrite Ht in E. apply andb_prop in E as [E _].
  by apply bool_decide_eq_true in E.
Qed.

Lemma stale_copy_stored now expired r :
  (forall r, r ∈ expired <-> expired_route now r) -> stored rt r ->
  stale_copy (foldl (fun m r => <[rkey r := LastSeen r]> m) ∅ expired) r = expiredAt r now.
Proof.
  intros Hexp Hs. unfold stale_copy.
  rewrite (fold_insert_lookup rkey LastSeen).
  2: { intros a b [Ha _]%Hexp [Hb _]%Hexp E. f_equal. by apply (stored_unique rt Hinv). }
  pose proof (find_key rkey expired (rkey r)) as Hf. destruct (List.find _ _) as [r'|].
  - destruct Hf as [[Hs' He]%Hexp E]. assert (r' = r) as -> by (by apply (stored_unique rt Hinv)).
    by rewrite He, Z.ltb_irrefl.
  - rewrite lookup_empty. destruct (expiredAt r now) eqn:E; [|done].
    exfalso. apply (Hf r); [|done]. by apply Hexp.
Qed.

Lemma PruneExpiredRoutes_spec clock now :
  exists rt' notes,
    PruneExpiredRoutes clock now rt
    = Some (Z.of_nat (size (filter (expired_entry now) (byClass rt))), rt', notes) /\
    rt_inv rt' /\
    byClass rt' = filter (fun e => ~ expired_entry now e) (byClass rt) /\
    observers rt' = observers rt /\
    bulk_notes rt' clock (expired_route now) (lookupIgnoringAge rt) notes /\
    zones_cleared rt rt' (fun m => exists r, expired_route now r /\ covers r m).
Proof.
  set (P := expired_entry now). set (expired := (map_to_list (filter P (byClass rt))).*2).
  set (rt1 := set_byClass (filter (fun e => ~ P e) (byClass rt)) rt).
  assert (Hexp : forall r, r ∈ expired <-> expired_route now r).
  { intros r. subst expired. rewrite elem_of_filtered. split.
    - intros (ck & Hr & HP). split; [by eapply stored_lookup|].
      by apply (expired_entry_stored now ck r Hr) in HP.
    - intros [[c Hr] E]. exists (c, rkey r). split; [done|]. by apply expired_entry_stored. }
  assert (Hns : forall m, m ∈ elements (list_to_set (concat (range_of <$> expired)) : gset Z)
                <-> exists r, expired_route now r /\ covers r m).
  { intros m. rewrite elem_of_affected. by setoid_rewrite Hexp. }
  assert (Hlen : zlen expired = Z.of_nat (size (filter P (byClass rt)))).
  { unfold zlen, expired. by rewrite length_fmap, length_map_to_list. }
  destruct (delete_loop_inv rt rt1 (List.filter (fun c => negb (stale_copy
      (foldl (fun m r => <[rkey r := LastSeen r]> m) ∅ expired) c)))
    (elements (list_to_set (concat (range_of <$> expired)) : gset Z))
    (fun r => expiredAt r now)) as (I1 & I2 & I3 & I4); try done.
  - intros c k r. simpl. rewrite map_lookup_filter_Some. split.
    + intros [Hr HP]. split; [done|]. destruct (expiredAt r now) eqn:E; [|done].
      destruct HP. by apply (expired_entry_stored now (c, k) r Hr).
    + intros [Hr E]. split; [done|]. intros HP%(expired_entry_stored now (c, k) r Hr).
      by rewrite HP in E.
  - intros l. induction l as [|a l IH]; simpl; [constructor|]. case_match; by constructor.
  - intros r l Hs. rewrite !list_elem_of_In, filter_In, (stale_copy_stored now) by done.
    by rewrite negb_true_iff.
  - intros r m Hs Hg Hc. apply Hns. by exists r.
  - apply NoDup_elements.
  - unfold PruneExpiredRoutes. fold P. fold expired. fold rt1. rewrite <- Hlen.
    destruct expired as [|r0 l0] eqn:Ed.
    + eexists _, _. split; [reflexivity|]. split_and!; [done..| |].
      * exists []. split_and!; [constructor..| |done]. intros n. split; [by intros ?%elem_of_nil|].
        intros (r & Hr & _). by apply Hexp, elem_of_nil in Hr.
      * intros m. specialize (I4 m). rewrite Hns in I4. done.
    + rewrite <- Ed in *. rewrite mapM_net_range
        by (apply stored_ranges; by intros r [? _]%Hexp).
      eexists _, _. split; [reflexivity|]. split_and!; [done..| |].
      * by apply fill_notes.
      * intros m. specialize (I4 m). rewrite Hns in I4. done.
Qed.
End Targets.
End Bulk.

(** ** Storing a route *)

(** Replacing the copies of one route in a list, up to order. *)
Lemma replace_perm key new l :
  NoDup (rkey <$> l) -> rkey new = key ->
  (exists old, old ∈ l /\ rkey old = key) ->
  map (fun r => if bool_decide (rkey r = key) then new else r) l ≡ₚ new :: delete_key key l.
Proof.
  intros Hnd Hnew. induction l as [|a l IH]; [intros (? & ?%elem_of_nil & _); done|].
  simpl in Hnd. apply NoDup_cons in Hnd as [Ha Hnd]. intros (old & Hold & Hk). simpl.
  unfold delete_key. rewrite filter_cons. case_bool_decide as E.
  - rewrite decide_False by tauto. f_equiv.
    rewrite <- (list_fmap_id l) at 1.
    assert (Hno : forall r, r ∈ l -> rkey r <> key).
    { intros r Hr Er. apply Ha. rewrite E, <- Er. by apply list_elem_of_fmap_2. }
    clear -Hno. induction l as [|b l IH]; [done|]. simpl. rewrite bool_decide_eq_false_2
      by (apply Hno; by left). rewrite filter_cons, decide_True by (apply Hno; by left).
    f_equiv. apply IH. intros r Hr. apply Hno. by right.
  - rewrite decide_True by done. rewrite IH; [apply Permutation_swap|done|].
    apply elem_of_cons in Hold as [->|Hold]; [done|eauto].
Qed.

Lemma delete_key_absent key l : (forall r, r ∈ l -> rkey r <> key) -> delete_key key l = l.
Proof.
  intros H. induction l as [|a l IH]; [done|]. unfold delete_key in *.
  rewrite filter_cons, decide_True by (apply H; by left). f_equal. apply IH. intros r Hr.
  apply H. by right.
Qed.

Section Store.
Context {GS : GoSort} (rt : RouteTable) (Hinv : rt_inv rt).

Definition key_of (t : RouteTarget) (s : Z) : RouteKey :=
  {| TargetKey := RouteTargetKey t; NetStart := s |}.

(** Replacing a stored route by one with the same counters. *)
Lemma traffic_inv_replace rt' ck old new :
  traffic_heap rt' = traffic_heap rt -> byClass rt !! ck = Some old ->
  byClass rt' = <[ck := new]> (byClass rt) -> traffic new = traffic old -> traffic_inv rt'.
Proof.
  intros Hh Hold Hc Ht. destruct (inv_traffic rt Hinv) as [H1 H2].
  assert (Hb : forall ck' r, byClass rt' !! ck' = Some r ->
    exists r', byClass rt !! ck' = Some r' /\ traffic r = traffic r').
  { intros ck' r. rewrite Hc, lookup_insert_Some. intros [[<- <-]|[_ ?]]; eauto. }
  split.
  - intros ck' r (r' & Hr & ->)%Hb. rewrite Hh. eauto.
  - intros ck1 ck2 r1 r2 (r1' & Hr1 & ->)%Hb (r2' & Hr2 & ->)%Hb. eauto.
Qed.

(** Storing a new route with counters just allocated. *)
Lemma traffic_inv_fresh rt' ck new z :
  traffic_heap rt' = traffic_heap rt ++ [z] -> byClass rt !! ck = None ->
  byClass rt' = <[ck := new]> (byClass rt) -> traffic new = Some (length (traffic_heap rt)) ->
  traffic_inv rt'.
Proof.
  intros Hh Hnone Hc Ht. destruct (inv_traffic rt Hinv) as [H1 H2]. split.
  - intros ck' r. rewrite Hc, lookup_insert_Some, Hh, length_app. simpl.
    intros [[_ <-]|[_ Hr]]; [eexists; split; [done|lia]|].
    destruct (H1 _ _ Hr) as (i & ? & ?). exists i. split; [done|lia].
  - intros ck1 ck2 r1 r2. rewrite Hc, !lookup_insert_Some.
    intros [[<- <-]|[_ Hr1]] [[<- <-]|[_ Hr2]] E; [done| | |eauto].
    + destruct (H1 _ _ Hr2) as (i & ? & ?). simplify_eq. assert (i = length (traffic_heap rt)) by congruence. lia.
    + destruct (H1 _ _ Hr1) as (i & ? & ?). simplify_eq. assert (i = length (traffic_heap rt)) by congruence. lia.
Qed.

(** A stored route's copies are in its range only. *)
Lemma old_copies old r m :
  stored rt old -> r ∈ Routes (net_at rt m) -> rkey r = rkey old -> r = old /\ covers old m.
Proof.
  intros Ho [Hs Hc]%(inv_index rt Hinv) E.
  assert (r = old) as -> by (by apply (stored_unique rt Hinv)). done.
Qed.

Lemma UpdateDistance_found now t s d old :
  byClass rt !! (Class_ t, key_of t s) = Some old -> 0 <= d <= maxRouteDistance ->
  exists rt' notes,
    UpdateDistance now t s d rt = Some (Ok tt, rt', notes) /\ rt_inv rt' /\
    byClass rt' = <[(Class_ t, key_of t s) := with_distance d now old]> (byClass rt) /\
    observers rt' = observers rt /\
    (forall m, ZoneNames (net_at rt' m) = ZoneNames (net_at rt m)) /\
    notes = informObservers rt' (Lookup rt now s) (Lookup rt' now s).
Proof.
  intros Hold Hd. pose proof (inv_stored rt Hinv _ _ _ Hold) as Hok.
  destruct (find_stored rt Hinv t s old Hold) as (Hf & Hst & Hz & Hk). fold (key_of t s) in Hk.
  pose proof (so_range _ _ _ Hok) as Hrange. change (NetStart (key_of t s)) with s in Hrange.
  unfold UpdateDistance. zdec. rewrite Hf, Hz, Hk. change (NetStart (key_of t s)) with s.
  replace (if negb (d =? Distance old) then d else Distance old) with d
    by (destruct (d =? Distance old) eqn:E; zbool; done).
  rewrite net_range_spec by lia. simpl.
  set (new := with_distance d now old).
  set (f := fun l => sort_func compareRoutePreference
    (map (fun r => if bool_decide (rkey r = key_of t s) then new else r) l)).
  set (rt1 := set_byClass (<[(Class_ t, key_of t s) := new]> (byClass rt)) rt).
  destruct (fold_routes f (seqZ s (NetEnd old - s + 1)) rt1 (NoDup_seqZ _ _))
    as ((S1 & S2 & S3) & Sz & SR & SZ).
  set (rt2 := foldl _ _ _) in *. exists rt2. eexists. split; [reflexivity|].
  assert (Hcov : forall m, covers new m <-> m ∈ seqZ s (NetEnd old - s + 1)).
  { intros m. unfold covers. simpl. rewrite Hk, elem_of_seqZ. simpl. lia. }
  assert (Hnk : rkey new = key_of t s) by done.
  split_and!; [|done|done|done|done].
  apply (put_inv rt rt2 (Class_ t) new); [done|by apply Sz, Hinv| | | | |].
  - by apply (traffic_inv_replace rt2 (Class_ t, key_of t s) old new).
  - rewrite Hnk. destruct Hok. by split.
  - by rewrite S1, Hnk.
  - intros m. rewrite SR. case_decide; [|apply Hinv]. apply sort_func_sorted, sw_preference.
  - intros m. rewrite SR, Hnk. change (net_at rt1 m) with (net_at rt m).
    destruct (decide (covers new m)) as [Hc|Hc].
    + rewrite decide_True by (by apply Hcov). unfold f.
      rewrite sort_func_perm by apply sw_preference. apply replace_perm; [apply Hinv|done|].
      exists old. split; [|done]. by apply (inv_index rt Hinv).
    + rewrite decide_False by (by rewrite <- Hcov). rewrite delete_key_absent; [done|].
      intros r Hr E. destruct (old_copies old r m Hst Hr); [congruence|]. by apply Hc.
Qed.

(** The route list of a network after the three loops of [UpsertRoute]. *)
Definition upserted (key : RouteKey) (new : Route) (olds : list Z) (m : Z) (l : list Route) :
    list Route :=
  let l' := if decide (m ∈ olds) then delete_key key l else l in
  if decide (covers new m) then sort_func compareRoutePreference (l' ++ [new]) else l'.

Lemma upsert_loops rt1 new olds :
  NoDup olds ->
  let key := rkey new in
  let s := NetStart key in
  let e := NetEnd new in
  let rt4 :=
    foldl (fun rt n =>
      if (n <? s) || (e <? n) then clearZonesForNetworkIfNoRoutes n rt else rt)
      (foldl (fun rt n =>
         set_routes n (fun l => sort_func compareRoutePreference (l ++ [new])) rt)
         (foldl (fun rt n => set_routes n (delete_key key) rt) rt1 olds)
         (seqZ s (e - s + 1))) olds in
  same_store rt1 rt4 /\ (zone_inv rt1 -> zone_inv rt4) /\
  (forall m, Routes (net_at rt4 m) = upserted key new olds m (Routes (net_at rt1 m))) /\
  (forall m, ZoneNames (net_at rt4 m)
     = if decide (m ∈ olds /\ (m <? s) || (e <? m) = true /\ Routes (net_at rt4 m) = [])
       then ∅ else ZoneNames (net_at rt1 m)).
Proof.
  intros Hnd key s e. cbv zeta.
  destruct (fold_routes (delete_key key) olds rt1 Hnd) as (A1 & A2 & A3 & A4).
  set (rt2 := foldl (fun rt n => set_routes n (delete_key key) rt) rt1 olds) in *.
  destruct (fold_routes (fun l => sort_func compareRoutePreference (l ++ [new]))
    (seqZ s (e - s + 1)) rt2 (NoDup_seqZ _ _)) as (B1 & B2 & B3 & B4).
  set (rt3 := foldl _ rt2 _) in *.
  destruct (fold_clear (fun n => (n <? s) || (e <? n)) olds rt3) as (C1 & C2 & C3 & C4).
  set (rt4 := foldl _ rt3 _) in *. cbv beta in *.
  split_and!.
  - eapply same_store_trans; [exact A1|]. by eapply same_store_trans.
  - by intros H%A2%B2%C2.
  - intros m. rewrite C3, B3, A3. unfold upserted.
    destruct (decide (covers new m)) as [Hc|Hc]; [rewrite decide_True|rewrite decide_False]; try done;
      unfold covers in Hc; fold key s e in Hc; rewrite elem_of_seqZ; lia.
  - intros m. by rewrite C4, C3, B4, A4.
Qed.

(** What [UpsertRoute] finds under the key: the counters it will use and the
    networks the previous route covered. *)
Lemma upsert_old t s :
  match byClass rt !! (Class_ t, key_of t s) with
  | Some o => find rt t s = o /\ stored rt o /\ Zero o = false /\ rkey o = key_of t s /\
              (exists i, traffic o = Some i) /\
              net_range (NetStart (rkey o)) (NetEnd o) = Some (range_of o)
  | None => find rt t s = zero_route
  end.
Proof.
  destruct (byClass rt !! _) as [o|] eqn:Eo; [|by apply find_none].
  destruct (find_stored rt Hinv t s o Eo) as (Hf & Hst & Hz & Hk).
  destruct (inv_traffic rt Hinv) as [Ht _]. destruct (Ht _ _ Eo) as (i & Hi & _).
  pose proof (so_range _ _ _ (inv_stored rt Hinv _ _ _ Eo)) as Hr.
  split_and!; [done..|by exists i|]. apply net_range_spec; rewrite ?Hk; simpl in *; lia.
Qed.

(** The shared conclusion: from the loops to the invariant. *)
Lemma upsert_finish rt1 c new olds :
  zone_inv rt1 -> traffic_inv rt1 -> net_at rt1 = net_at rt ->
  byClass rt1 = <[(c, rkey new) := new]> (byClass rt) -> stored_ok c (rkey new) new ->
  (forall o m, stored rt o -> rkey o = rkey new -> covers o m -> m ∈ olds) ->
  forall rt4, same_store rt1 rt4 -> zone_inv rt4 ->
  (forall m, Routes (net_at rt4 m) = upserted (rkey new) new olds m (Routes (net_at rt1 m))) ->
  rt_inv rt4.
Proof.
  intros Hz1 Ht1 Hnet Hc Hok Holds rt4 (S1 & S2 & S3) Hz4 HR.
  assert (Hdel : forall m, (if decide (m ∈ olds) then delete_key (rkey new) (Routes (net_at rt m))
     else Routes (net_at rt m)) = delete_key (rkey new) (Routes (net_at rt m))).
  { intros m. case_decide as Hm; [done|]. symmetry. apply delete_key_absent.
    intros r [Hs Hcov]%(inv_index rt Hinv) E. eauto. }
  apply (put_inv rt rt4 c new); try done.
  - unfold traffic_inv in *. by rewrite S1, S3.
  - by rewrite S1.
  - intros m. rewrite HR, Hnet. unfold upserted. rewrite Hdel.
    case_decide; [apply sort_func_sorted, sw_preference|].
    apply sorted_filter; [apply sw_preference|apply Hinv].
  - intros m. rewrite HR, Hnet. unfold upserted. rewrite Hdel. case_decide; [|done].
    rewrite sort_func_perm by apply sw_preference. by rewrite Permutation_app_comm.
Qed.

(** The record [UpsertRoute] stores. *)
Definition upsert_record (now : Z) (t : RouteTarget) (ext : bool) (s e d : Z) (tr : nat) : Route :=
  {| rkey := key_of t s; Extended := ext; NetEnd := e; Target := Some t;
     Origin := routeOriginForTarget (Some t); Distance := d; LastSeen := now;
     network_ptr := Some s; traffic := Some tr |}.

Lemma upsert_record_ok now t ext s e d tr :
  0 <= s <= e -> e < 65535 -> (s <> e -> ext = true) -> 0 <= d <= maxRouteDistance ->
  stored_ok (Class_ t) (key_of t s) (upsert_record now t ext s e d tr).
Proof. intros. split; try done. exists t. done. Qed.

Lemma zone_inv_ext rt0 :
  net_at rt0 = net_at rt -> networksByZone rt0 = networksByZone rt -> zone_inv rt0.
Proof.
  intros E1 E2. pose proof (inv_zone rt Hinv) as Hzi. unfold zone_inv, networksForZone in *.
  by rewrite E1, E2.
Qed.

(** The loops of [UpsertRoute], started once the class index holds the new
    route and the counters are in place. *)
Lemma upsert_run rt1 now t ext s e d tr olds :
  0 <= s <= e -> e < 65535 -> (s <> e -> ext = true) -> 0 <= d <= maxRouteDistance ->
  let old := byClass rt !! (Class_ t, key_of t s) in
  let r := upsert_record now t ext s e d tr in
  net_at rt1 = net_at rt -> networksByZone rt1 = networksByZone rt -> traffic_inv rt1 ->
  byClass rt1 = <[(Class_ t, key_of t s) := r]> (byClass rt) ->
  NoDup olds -> (forall m, m ∈ olds <-> exists o, old = Some o /\ covers o m) ->
  let rt4 :=
    foldl (fun rt n =>
      if (n <? s) || (e <? n) then clearZonesForNetworkIfNoRoutes n rt else rt)
      (foldl (fun rt n =>
         set_routes n (fun l => sort_func compareRoutePreference (l ++ [r])) rt)
         (foldl (fun rt n => set_routes n (delete_key (key_of t s)) rt) rt1 olds)
         (seqZ s (e - s + 1))) olds in
  rt_inv rt4 /\ same_store rt1 rt4 /\
  zones_cleared rt rt4 (fun m => (exists o, old = Some o /\ covers o m) /\ ~ (s <= m <= e)).
Proof.
  intros Hs He Hext Hd old r Hnet Hnbz Ht1 Hc Hnd Holds. cbv zeta.
  destruct (upsert_loops rt1 r olds Hnd) as (L1 & L2 & L3 & L4). simpl in L1, L2, L3, L4.
  set (rt4 := foldl _ (foldl _ _ _) _) in *. pose proof (zone_inv_ext rt1 Hnet Hnbz) as Hz1.
  split; [|split; [done|]].
  - apply (upsert_finish rt1 (Class_ t) r olds); auto; [by apply upsert_record_ok|].
    intros o m [c Ho] E Hcov. apply Holds. exists o. split; [|done]. subst old.
    rewrite E in Ho. change (rkey r) with (key_of t s) in Ho.
    destruct (inv_stored rt Hinv _ _ _ Ho) as [_ (t' & _ & <- & K & _) _ _ _ _].
    by rewrite <- (key_class t' t K).
  - intros m. rewrite L4, Hnet, <- (Holds m).
    assert (Hb : (m <? s) || (e <? m) = true <-> ~ (s <= m <= e))
      by (rewrite orb_true_iff, !Z.ltb_lt; lia).
    rewrite <- Hb. clear. case_decide; naive_solver.
Qed.

Lemma UpsertRoute_ok now t ext s e d :
  0 <= s <= e -> e < 65535 -> (s <> e -> ext = true) -> 0 <= d <= maxRouteDistance ->
  let old := byClass rt !! (Class_ t, key_of t s) in
  exists tr rt' notes,
    let r := upsert_record now t ext s e d tr in
    UpsertRoute now t ext s e d rt = Some (Ok r, rt', notes) /\ rt_inv rt' /\
    (forall o, old = Some o -> traffic r = traffic o /\ traffic_heap rt' = traffic_heap rt) /\
    byClass rt' = <[(Class_ t, key_of t s) := r]> (byClass rt) /\
    observers rt' = observers rt /\
    zones_cleared rt rt' (fun m => (exists o, old = Some o /\ covers o m) /\ ~ (s <= m <= e)) /\
    notes = informObservers rt' (Lookup rt now s) (Lookup rt' now s).
Proof.
  intros Hs He Hext Hd old. unfold UpsertRoute. zdec.
  replace (negb (s =? e) && negb ext) with false
    by (destruct (s =? e) eqn:E, ext; simpl; try done; zbool; naive_solver).
  fold (key_of t s). pose proof (upsert_old t s) as Hold. fold old in Hold.
  destruct old as [o|] eqn:Eo; subst old.
  - destruct Hold as (-> & Hst & -> & Hk & (tr & Htr) & ->). rewrite Htr. simpl.
    rewrite net_range_spec by lia. simpl. fold (upsert_record now t ext s e d tr).
    set (rt1 := set_byClass (<[(Class_ t, key_of t s) := upsert_record now t ext s e d tr]> (byClass rt)) rt).
    destruct (upsert_run rt1 now t ext s e d tr (range_of o)) as (R1 & (R2 & R3 & R4) & R5);
      try done; [by apply (traffic_inv_replace rt1 (Class_ t, key_of t s) o (upsert_record now t ext s e d tr))
      |apply NoDup_seqZ|intros m; rewrite elem_of_range_of, Eo; naive_solver|].
    rewrite Eo in R5. exists tr. eexists _, _. split; [reflexivity|]. split_and!; try done.
    intros o' [= <-]. by rewrite Htr.
  - rewrite Hold. simpl. rewrite net_range_spec by lia. simpl.
    set (tr := length (traffic_heap rt)). fold (upsert_record now t ext s e d tr).
    set (rt0 := set_heap _ rt).
    set (rt1 := set_byClass (<[(Class_ t, key_of t s) := upsert_record now t ext s e d tr]> (byClass rt)) rt0).
    destruct (upsert_run rt1 now t ext s e d tr []) as (R1 & (R2 & R3 & R4) & R5); try done.
    + by eapply (traffic_inv_fresh rt1 (Class_ t, key_of t s)).
    + constructor.
    + intros m. rewrite Eo. split; [by intros ?%elem_of_nil|naive_solver].
    + rewrite Eo in R5. exists tr. eexists _, _. split; [reflexivity|]. by split_and!.
Qed.
End Store.

(** ** Zones *)

(** Rewriting the zones of one network leaves routes and counters alone. *)
Lemma zones_inv rt n zs m :
  rt_inv rt -> zone_inv (set_nbz m (set_zones n zs rt)) -> rt_inv (set_nbz m (set_zones n zs rt)).
Proof.
  intros Hinv Hz. set (rt' := set_nbz m (set_zones n zs rt)) in *.
  assert (HR : forall k, Routes (net_at rt' k) = Routes (net_at rt k)) by apply Routes_set_zones.
  destruct Hinv. by split; intros; rewrite ?HR; auto.
Qed.

Section Zones.
Context (rt : RouteTable) (Hinv : rt_inv rt) (now n : Z) (zs : list (list Z)).

Lemma AddZones_spec :
  let '(rt', notes) := AddZonesToNetwork now n zs rt in
  rt_inv rt' /\ same_store rt rt' /\
  (forall m, Routes (net_at rt' m) = Routes (net_at rt m)) /\
  (forall m, ZoneNames (net_at rt' m) = if decide (m = n) then ZoneNames (net_at rt n) ∪ list_to_set zs
                                        else ZoneNames (net_at rt m)) /\
  notes = informObservers rt' (Lookup rt now n) (Lookup rt' now n).
Proof.
  unfold AddZonesToNetwork.
  pose proof (add_zone_names_spec (ZoneNames (net_at rt n)) zs []) as Hadd.
  destruct (add_zone_names _ zs []) as [zones added]. simpl in Hadd.
  destruct Hadd as (-> & new & -> & Hnd & Hnew).
  destruct (fold_add n new (networksByZone rt)) as [H1 H2].
  destruct (inv_zone rt Hinv) as [Hz Hm]. pose proof (conj Hz Hm : zone_inv rt) as Hzi.
  split; [|split; [done|split; [apply Routes_set_zones|split; [apply ZoneNames_set_zones|done]]]].
  apply zones_inv; [done|]. apply zone_inv_change; [done| |].
  - apply H2; [done..|]. intros z [_ Hn]%Hnew. by rewrite (Hz n z) in Hn.
  - intros z k. rewrite H1, Hnew. change (nbz_at (networksByZone rt) z) with (networksForZone rt z).
    destruct (decide (k = n)) as [->|Hk]; [|clear -Hk; tauto].
    rewrite elem_of_union, elem_of_list_to_set, (Hz n z).
    destruct (decide (n ∈ networksForZone rt z)); tauto.
Qed.

Lemma ReplaceZones_spec :
  let '(rt', notes) := ReplaceZonesForNetwork now n zs rt in
  rt_inv rt' /\ same_store rt rt' /\
  (forall m, Routes (net_at rt' m) = Routes (net_at rt m)) /\
  (forall m, ZoneNames (net_at rt' m)
     = if decide (m = n) then list_to_set (filter (fun zn => zn <> []) zs)
       else ZoneNames (net_at rt m)) /\
  notes = informObservers rt' (Lookup rt now n) (Lookup rt' now n).
Proof.
  unfold ReplaceZonesForNetwork. set (next := list_to_set _). set (old := ZoneNames (net_at rt n)).
  destruct (fold_drop n (elements (old ∖ next)) (networksByZone rt)) as [D1 D2].
  destruct (fold_add n (elements (next ∖ old))
    (foldl (drop_from_zone n) (networksByZone rt) (elements (old ∖ next)))) as [A1 A2].
  destruct (inv_zone rt Hinv) as [Hz Hm]. pose proof (conj Hz Hm : zone_inv rt) as Hzi.
  split; [|split; [done|split; [apply Routes_set_zones|split; [apply ZoneNames_set_zones|done]]]].
  apply zones_inv; [done|]. apply zone_inv_change; [done| |].
  - apply A2; [by apply D2|apply NoDup_elements|]. intros z. rewrite elem_of_elements, elem_of_difference.
    intros [_ Hn]. rewrite D1. intros [Hin _]. apply Hn, Hz, Hin.
  - intros z k. rewrite A1, D1, !elem_of_elements, !elem_of_difference.
    change (nbz_at (networksByZone rt) z) with (networksForZone rt z).
    destruct (decide (k = n)) as [->|Hk]; [|clear -Hk; tauto].
    rewrite <- (Hz n z). fold old. destruct (decide (z ∈ old)), (decide (z ∈ next)); tauto.
Qed.
End Zones.
