(* ===== verification/RouteTableSpec.v ===== *)
(** * The route table: theorems

    [reachable] tables are those the program can build from the empty table by
    any sequence of route-table operations, failed ones and counter updates
    included.  The theorems: the indexes always agree; lookups return an
    optimal valid route of the stored ones, or none exactly when there is none;
    updates, deletions and pruning change exactly the routes they should and
    report the change of the best route; zone queries are exact; traffic
    counters survive refreshes; and ranges ending at 65535 hang the caller. *)
From S2P Require Import Prelude GoSort RouteTable RouteTableInv RouteTableOps.
Import RT.

Section Steps.
Context {GS : GoSort}.

Inductive rt_step (rt : RouteTable) : RouteTable -> Prop :=
| step_upsert now t ext s e d r rt' notes :
    u16 s -> u16 e -> u8 d ->
    UpsertRoute now t ext s e d rt = Some (r, rt', notes) -> rt_step rt rt'
| step_update now t s d r rt' notes :
    u16 s -> u8 d -> UpdateDistance now t s d rt = Some (r, rt', notes) -> rt_step rt rt'
| step_delete now t s r rt' notes :
    u16 s -> DeleteRoute now t s rt = Some (r, rt', notes) -> rt_step rt rt'
| step_delete_target now t rt' notes :
    DeleteTarget now t rt = Some (rt', notes) -> rt_step rt rt'
| step_prune clock now k rt' notes :
    PruneExpiredRoutes clock now rt = Some (k, rt', notes) -> rt_step rt rt'
| step_add_zones now n zs : u16 n -> rt_step rt (AddZonesToNetwork now n zs rt).1
| step_replace_zones now n zs : u16 n -> rt_step rt (ReplaceZonesForNetwork now n zs rt).1
| step_add_observer o : rt_step rt (AddObserver o rt)
| step_remove_observer o : rt_step rt (RemoveObserver o rt)
| step_bytes_in r b : rt_step rt (noteDDPBytesIn r b rt)
| step_bytes_out r b : rt_step rt (noteDDPBytesOut r b rt).

Definition reachable (rt : RouteTable) : Prop := rtc rt_step NewRouteTable rt.

(** ** Every step keeps the table consistent *)

Lemma upsert_error_or_ok now t ext s e d rt :
  u16 s -> u16 e -> u8 d ->
  (exists err, UpsertRoute now t ext s e d rt = Some (Err err, rt, [])) \/
  (0 <= s <= e /\ (s <> e -> ext = true) /\ 0 <= d <= maxRouteDistance).
Proof.
  intros Hs He Hd. unfold UpsertRoute.
  destruct (e <? s) eqn:E1; [left; by eexists|].
  destruct (negb (s =? e) && negb ext) eqn:E2; [left; by eexists|].
  destruct (maxRouteDistance <? d) eqn:E3; [left; by eexists|]. right.
  unfold u16, u8 in *. zbool. split_and!; try lia.
  intros Hne. destruct ext; [done|]. rewrite andb_true_r in E2. zbool. done.
Qed.

(** The [None] cases: the range loop does not end. *)
Lemma upsert_diverges now t ext s d rt :
  rt_inv rt -> u16 s -> (s <> 65535 -> ext = true) -> 0 <= d <= maxRouteDistance ->
  UpsertRoute now t ext s 65535 d rt = None.
Proof.
  intros Hinv Hs Hext Hd. unfold UpsertRoute. unfold u16 in Hs. zdec.
  replace (negb (s =? 65535) && negb ext) with false
    by (destruct (s =? 65535) eqn:E, ext; simpl; try done; zbool; naive_solver).
  pose proof (upsert_old rt Hinv t s) as Hold. fold (key_of t s).
  assert (Hn : net_range s 65535 = None) by (by apply net_range_diverges).
  destruct (byClass rt !! _) as [o|] eqn:Eo.
  - destruct Hold as (-> & _ & -> & _ & (tr & ->) & ->). simpl. by rewrite Hn.
  - rewrite Hold. simpl. by rewrite Hn.
Qed.

Lemma heap_inv rt h :
  rt_inv rt -> length h = length (traffic_heap rt) -> rt_inv (set_heap h rt).
Proof.
  intros [H1 H2 H3 H4 H5 [H6 H7]] Hlen. split; try done. split; [|done].
  intros ck r Hr. simpl. rewrite Hlen. eauto.
Qed.

Lemma step_inv rt rt' : rt_inv rt -> rt_step rt rt' -> rt_inv rt'.
Proof.
  intros Hinv Hs.
  destruct Hs as [now t ext s e d r rt' notes Hs He Hd H|now t s d r rt' notes Hs Hd H
    |now t s r rt' notes Hs H|now t rt' notes H|clock now k rt' notes H|now n zs Hn|now n zs Hn
    |o|o|r b|r b].
  - destruct (upsert_error_or_ok now t ext s e d rt Hs He Hd) as [[err E]|(Hr & Hext & Hd')];
      [congruence|].
    destruct (decide (e = 65535)) as [->|]; [by rewrite upsert_diverges in H|].
    destruct (UpsertRoute_ok rt Hinv now t ext s e d) as (tr & rt1 & n1 & E & Hi & _);
      [done|width_lia|done..|]. congruence.
  - destruct (maxRouteDistance <? d) eqn:E1; [unfold UpdateDistance in H; rewrite E1 in H; congruence|].
    zbool. unfold u8 in Hd. destruct (byClass rt !! (Class_ t, key_of t s)) as [old|] eqn:Eo.
    + destruct (UpdateDistance_found rt Hinv now t s d old Eo) as (rt1 & n1 & E & Hi & _); [lia|].
      congruence.
    + unfold UpdateDistance in H. revert H. zdec. rewrite (find_none rt t s Eo). simpl. congruence.
  - destruct (byClass rt !! (Class_ t, key_of t s)) as [route|] eqn:Er.
    + destruct (DeleteRoute_found rt now t s route Hinv Er) as (rt1 & n1 & E & Hi & _). congruence.
    + unfold DeleteRoute in H. unfold key_of in Er. rewrite Er in H. congruence.
  - destruct (DeleteTarget_spec rt Hinv now t) as (rt1 & n1 & E & Hi & _). congruence.
  - destruct (PruneExpiredRoutes_spec rt Hinv clock now) as (rt1 & n1 & E & Hi & _). congruence.
  - pose proof (AddZones_spec rt Hinv now n zs) as H. destruct (AddZonesToNetwork _ _ _ _). apply H.
  - pose proof (ReplaceZones_spec rt Hinv now n zs) as H.
    destruct (ReplaceZonesForNetwork _ _ _ _). apply H.
  - by destruct Hinv.
  - by destruct Hinv.
  - unfold noteDDPBytesIn. destruct (traffic r); [|done]. case_if; [|done].
    apply heap_inv; [done|apply length_alter].
  - unfold noteDDPBytesOut. destruct (traffic r); [|done]. case_if; [|done].
    apply heap_inv; [done|apply length_alter].
Qed.

Lemma reachable_inv rt : reachable rt -> rt_inv rt.
Proof.
  intros H. unfold reachable in H. pose proof empty_inv as H0. revert H0.
  induction H as [rt|rt1 rt2 rt3 Hs _ IH]; [done|]. eauto using step_inv.
Qed.

(** ** Lookups over a sorted list *)

Lemma first_route_spec (p : Route -> bool) l :
  (forall r, r ∈ l -> Zero r = false) ->
  Sorted (cmp_le compareRoutePreference) l ->
  let r := first_route p l in
  (r = zero_route /\ forall r', r' ∈ l -> p r' = false) \/
  (r ∈ l /\ p r = true /\ forall r', r' ∈ l -> p r' = true -> cmp_le compareRoutePreference r r').
Proof.
  intros Hz Hs. unfold first_route. induction l as [|a l IH]; simpl.
  { left. split; [done|]. by intros ? ?%elem_of_nil. }
  destruct (p a) eqn:Ea.
  - right. split; [by left|]. split; [done|]. intros r' [->|Hr]%elem_of_cons _.
    + unfold cmp_le. pose proof (sw_antisym sw_preference a a) as H.
      by destruct (compareRoutePreference a a).
    + by eapply sorted_head_le; [apply sw_preference|..].
  - apply Sorted_inv in Hs as [Hs _].
    destruct IH as [[-> H]|(H1 & H2 & H3)]; [intros; apply Hz; by right|done| |].
    + left. split; [done|]. intros r' [->|Hr]%elem_of_cons; auto.
    + right. split; [by right|]. split; [done|]. intros r' [->|Hr]%elem_of_cons Hp; [congruence|auto].
Qed.

Lemma preference_distance a b : cmp_le compareRoutePreference a b -> Distance a <= Distance b.
Proof.
  unfold cmp_le, compareRoutePreference, cmp_or.
  destruct (Z.compare_spec (Distance a) (Distance b)); [lia|lia|done].
Qed.

(** What an optimal answer to a lookup is: the best of the stored routes of
    network [n] that satisfy [p], or the zero route when there is none. *)
Definition optimal (rt : RouteTable) (n : Z) (p : Route -> Prop) (r : Route) : Prop :=
  (r = zero_route /\ forall r', stored rt r' -> covers r' n -> ~ p r') \/
  (stored rt r /\ covers r n /\ p r /\
   forall r', stored rt r' -> covers r' n -> p r' ->
     cmp_le compareRoutePreference r r' /\ Distance r <= Distance r').

Lemma first_route_optimal rt n (p : Route -> bool) :
  rt_inv rt -> optimal rt n (fun r => p r = true) (first_route p (Routes (net_at rt n))).
Proof.
  intros Hinv. destruct (first_route_spec p (Routes (net_at rt n))) as [[-> H]|(H1 & H2 & H3)].
  - intros r Hr. apply (inv_index rt Hinv) in Hr as [Hs _]. by apply (stored_Zero rt Hinv).
  - apply Hinv.
  - left. split; [done|]. intros r' Hs Hc. rewrite H; [done|]. by apply (inv_index rt Hinv).
  - right. pose proof H1 as [Hs Hc]%(inv_index rt Hinv). split_and!; [done..|].
    intros r' Hs' Hc' Hp. assert (cmp_le compareRoutePreference (first_route p (Routes (net_at rt n))) r').
    { apply H3; [|done]. by apply (inv_index rt Hinv). }
    split; [done|by apply preference_distance].
Qed.

Lemma optimal_ext rt n p q r : (forall r, p r <-> q r) -> optimal rt n p r -> optimal rt n q r.
Proof. intros H. unfold optimal. setoid_rewrite H. done. Qed.

(** ** Observer views *)

(** What an observer knows about a network: the attributes of its best route. *)
Definition view_of (r : Route) : option (list Z * Z * bool * Z) :=
  if Zero r then None else Some (TargetKey (rkey r), Distance r, Extended r, NetEnd r).

Definition apply_note (v : option (list Z * Z * bool * Z)) (e : Note) :=
  match e with
  | NetworkAdded r => view_of r
  | NetworkDeleted _ => None
  | BestNetworkChanged _ r => view_of r
  end.

Definition notes_for (o : positive) (l : list (positive * Note)) : list Note :=
  (filter (fun p => p.1 = o) l).*2.

Lemma notes_for_notify o rt e :
  o ∈ observers rt -> notes_for o (notify rt e) = [e].
Proof.
  intros Ho. unfold notes_for, notify. apply elem_of_elements in Ho.
  pose proof (NoDup_elements (observers rt)) as Hnd.
  induction Hnd as [|a l Ha Hnd IH]; [by apply elem_of_nil in Ho|].
  cbn [map]. rewrite filter_cons. cbn [fst]. destruct (decide (a = o)) as [->|Hne].
  - cbn. f_equal. clear -Ha. induction l as [|b l IH]; [done|]. cbn [map].
    rewrite filter_cons. cbn [fst]. rewrite decide_False by set_solver. apply IH. set_solver.
  - apply IH. by apply elem_of_cons in Ho as [?|?].
Qed.

Lemma inform_view o rt a b :
  o ∈ observers rt ->
  foldl apply_note (view_of a) (notes_for o (informObservers rt a b)) = view_of b.
Proof.
  intros Ho. unfold informObservers. unfold view_of at 1 2.
  destruct (Zero a) eqn:Ea, (Zero b) eqn:Eb; simpl.
  - done.
  - rewrite notes_for_notify by done. simpl. unfold view_of. by rewrite Eb.
  - rewrite notes_for_notify by done. done.
  - destruct (best_changed a b) eqn:Ec.
    + rewrite notes_for_notify by done. simpl. unfold view_of. by rewrite Eb.
    + unfold best_changed in Ec.
      repeat match goal with H : (_ || _) = false |- _ => apply orb_false_elim in H as [? ?] end.
      rewrite !negb_false_iff in *. rewrite bool_decide_eq_true in *. zbool.
      match goal with H : eqb _ _ = true |- _ => apply eqb_prop in H end. simpl. congruence.
Qed.

(** ** Zone queries *)

Lemma elem_of_routes_for rt now z ns r :
  r ∈ routes_for rt now z ns <->
  exists n, n ∈ ns /\ z ∈ ZoneNames (net_at rt n) /\ Lookup rt now n = r /\ Zero r = false.
Proof.
  induction ns as [|n ns IH]; simpl; [split; [by intros ?%elem_of_nil|by intros (? & ?%elem_of_nil & _)]|].
  case_bool_decide as Hz; simpl; [destruct (Zero (Lookup rt now n)) eqn:E|];
    rewrite ?elem_of_cons, IH; setoid_rewrite elem_of_cons; naive_solver congruence.
Qed.

(** ** Traffic counters *)

Lemma bytes_in_other rt r1 r2 b :
  traffic r1 <> traffic r2 -> DDPBytesIn (noteDDPBytesIn r1 b rt) r2 = DDPBytesIn rt r2.
Proof.
  intros Hne. unfold DDPBytesIn, noteDDPBytesIn.
  destruct (traffic r1) as [i|], (traffic r2) as [j|]; try done; try (by case_if).
  case_if; [|done]. simpl. rewrite list_lookup_alter_ne by congruence. done.
Qed.

Lemma bytes_in_same rt r b i :
  traffic r = Some i -> (i < length (traffic_heap rt))%nat ->
  DDPBytesIn (noteDDPBytesIn r b rt) r
  = if b =? 0 then DDPBytesIn rt r else wrap64 (DDPBytesIn rt r + b).
Proof.
  intros Hi Hlt. unfold DDPBytesIn, noteDDPBytesIn. rewrite Hi.
  destruct (b =? 0); simpl; [done|]. rewrite list_lookup_alter_eq.
  by destruct (lookup_lt_is_Some_2 _ _ Hlt) as [t ->].
Qed.
End Steps.

(** * Properties *)

Section Theorems.
Context {GS : GoSort} (rt : RouteTable).

(** C3: in every reachable table the indexes are consistent: the routes listed
    under a network are exactly the stored routes whose range covers it, each
    once, in preference order; stored routes agree with their key, target and
    class and have a range below 65535 and a distance of at most 15; the zone
    names of networks and the networks of zones are converse relations; and
    every stored route has traffic counters of its own. *)
Theorem route_table_consistent : reachable rt -> rt_inv rt.
Proof. apply reachable_inv. Qed.

(** [Lookup] returns the most preferred of the valid stored routes that
    cover the network - in particular one of minimal distance - and the zero
    route exactly when no valid stored route covers it; [lookupForTarget] does
    the same among the routes of one target. *)
Theorem Lookup_optimal (now n : Z) (t : RouteTarget) :
  reachable rt ->
  optimal rt n (fun r => Valid rt now r = true) (Lookup rt now n) /\
  optimal rt n (fun r => TargetKey (rkey r) = RouteTargetKey t /\ Valid rt now r = true)
    (lookupForTarget rt now n (Some t)).
Proof.
  intros Hinv%reachable_inv. split; [by apply first_route_optimal|].
  eapply optimal_ext; [|by apply first_route_optimal]. intros r. simpl.
  by rewrite andb_true_iff, bool_decide_eq_true.
Qed.

(** Split horizon.  [LookupAvoidingAURPTunnel] never returns a route
    learned through the given tunnel, and among the others it is optimal. *)
Theorem LookupAvoiding_optimal (now n : Z) (tunnelID : list Z) :
  reachable rt ->
  optimal rt n (fun r => Valid rt now r = true /\
      ~ (tunnelID <> [] /\ o_Kind (route_origin r) = RouteOriginAURP
         /\ o_ID (route_origin r) = tunnelID))
    (LookupAvoidingAURPTunnel rt now n tunnelID).
Proof.
  intros Hinv%reachable_inv. eapply optimal_ext; [|by apply first_route_optimal].
  intros r. simpl. rewrite andb_true_iff, negb_true_iff.
  rewrite <- not_true_iff_false, !andb_true_iff, !bool_decide_eq_true. tauto.
Qed.

(** A valid [UpsertRoute] returns and stores exactly the new route: it is
    found under its target and start, it is listed under exactly the networks
    of its range, the route it replaces is listed nowhere, every other route
    stays where it was, and only networks the old range had and the new one has
    not can lose their zones. *)
Theorem UpsertRoute_stores (now : Z) (t : RouteTarget) (ext : bool) (s e d : Z) :
  reachable rt ->
  0 <= s <= e -> e < 65535 -> (s <> e -> ext = true) -> 0 <= d <= maxRouteDistance ->
  exists tr rt' notes,
    let r := upsert_record now t ext s e d tr in
    UpsertRoute now t ext s e d rt = Some (Ok r, rt', notes) /\
    find rt' t s = r /\
    (forall n r', r' ∈ Routes (net_at rt' n) <->
       (r' = r /\ s <= n <= e) \/ (rkey r' <> key_of t s /\ r' ∈ Routes (net_at rt n))) /\
    (forall n, ZoneNames (net_at rt' n) <> ZoneNames (net_at rt n) ->
       Routes (net_at rt' n) = [] /\ ~ (s <= n <= e)).
Proof.
  intros Hinv%reachable_inv Hs He Hext Hd.
  destruct (UpsertRoute_ok rt Hinv now t ext s e d Hs He Hext Hd)
    as (tr & rt' & notes & E & Hinv' & _ & Hc & _ & Hz & _).
  set (r := upsert_record now t ext s e d tr) in *. exists tr, rt', notes. split_and!; [done|..].
  - unfold find. fold (key_of t s). by rewrite Hc, lookup_insert_eq.
  - intros n r'. rewrite (inv_index rt' Hinv'), (inv_index rt Hinv). unfold stored. rewrite Hc.
    setoid_rewrite lookup_insert_Some. split.
    + intros [[c [[[= <- E1] <-]|[Hne Hr]]] Hcov]; [by left|]. right.
      split; [|by split; [exists c|]]. intros E1. apply Hne. rewrite E1 in Hr |- *. f_equal.
      destruct (inv_stored rt Hinv _ _ _ Hr) as [_ (t' & _ & <- & K & _) _ _ _ _].
      symmetry. by apply key_class.
    + intros [[-> Hcov]|(Hne & [c Hr] & Hcov)]; [split; [exists (Class_ t); by left|done]|].
      split; [|done]. exists c. right. split; [congruence|done].
  - intros n Hn. destruct (Hz n) as [_ Hz']. by destruct (Hz' Hn) as ([_ ?] & ? & _).
Qed.

(** An invalid [UpsertRoute] - an inverted range, a range on a nonextended
    network, a distance above 15 - and an [UpdateDistance] that is too high or
    has no route to update, return an error, change nothing and notify
    nobody. *)
Theorem updates_reject (now : Z) (t : RouteTarget) (ext : bool) (s e d : Z) :
  (e < s \/ (s <> e /\ ext = false) \/ maxRouteDistance < d ->
   exists err, UpsertRoute now t ext s e d rt = Some (Err err, rt, [])) /\
  (maxRouteDistance < d \/ byClass rt !! (Class_ t, key_of t s) = None ->
   exists err, UpdateDistance now t s d rt = Some (Err err, rt, [])) /\
  (byClass rt !! (Class_ t, key_of t s) = None ->
   exists err, DeleteRoute now t s rt = Some (Err err, rt, [])).
Proof.
  split_and!.
  - intros H. unfold UpsertRoute. destruct (e <? s) eqn:E1; [by eexists|].
    destruct (negb (s =? e) && negb ext) eqn:E2; [by eexists|].
    destruct (maxRouteDistance <? d) eqn:E3; [by eexists|]. exfalso. zbool.
    destruct H as [?|[[Hne ->]|?]]; [lia| |lia]. rewrite andb_true_r in E2. zbool. done.
  - intros H. unfold UpdateDistance. destruct (maxRouteDistance <? d) eqn:E; [by eexists|]. zbool.
    destruct H as [?|H]; [lia|]. rewrite (find_none rt t s H). simpl. by eexists.
  - intros H. unfold DeleteRoute. fold (key_of t s). rewrite H. by eexists.
Qed.

(** A route whose range ends at network 65535 hangs the caller: the
    counter of the range loop wraps to 0 and [UpsertRoute] never returns. *)
Theorem UpsertRoute_hangs_at_65535 (now : Z) (t : RouteTarget) (ext : bool) (s d : Z) :
  reachable rt -> u16 s -> (s <> 65535 -> ext = true) -> 0 <= d <= maxRouteDistance ->
  UpsertRoute now t ext s 65535 d rt = None.
Proof. intros Hinv%reachable_inv. by apply upsert_diverges. Qed.

(** [DeleteTarget] returns and leaves no trace of the target: no stored
    route and no listed route has its key, all other routes are kept, and a
    network that loses its last route loses its zone names too, so that a later
    route for it is not valid before fresh zone information arrives. *)
Theorem DeleteTarget_purges (now : Z) (t : RouteTarget) :
  reachable rt ->
  exists rt' notes,
    DeleteTarget now t rt = Some (rt', notes) /\
    (forall r, stored rt' r <-> stored rt r /\ TargetKey (rkey r) <> RouteTargetKey t) /\
    (forall n r, r ∈ Routes (net_at rt' n) <->
       r ∈ Routes (net_at rt n) /\ TargetKey (rkey r) <> RouteTargetKey t) /\
    (forall n r, stored rt r -> TargetKey (rkey r) = RouteTargetKey t -> covers r n ->
       Routes (net_at rt' n) = [] -> ZoneNames (net_at rt' n) = ∅).
Proof.
  intros Hinv%reachable_inv.
  destruct (DeleteTarget_spec rt Hinv now t) as (rt' & notes & E & Hinv' & Hc & _ & _ & Hz).
  pose proof (DeleteTarget_stored rt Hinv rt' now t notes E) as Hst.
  exists rt', notes. split_and!; [done..| |].
  - intros n r. rewrite (inv_index rt' Hinv'), (inv_index rt Hinv), Hst. tauto.
  - intros n r Hs Hk Hcov. apply (Hz n). exists r. done.
Qed.

(** [PruneExpiredRoutes] removes exactly the AppleTalk-learned routes not
    refreshed for more than ten minutes, from both indexes, and returns their
    number; afterwards no stored route is expired at that time, so age no
    longer makes a difference to lookups. *)
Theorem PruneExpiredRoutes_exact (clock now : Z) :
  reachable rt ->
  exists rt' notes,
    PruneExpiredRoutes clock now rt
    = Some (Z.of_nat (size (filter (expired_entry now) (byClass rt))), rt', notes) /\
    (forall r, stored rt' r <-> stored rt r /\ expiredAt r now = false) /\
    (forall n r, r ∈ Routes (net_at rt' n) <->
       r ∈ Routes (net_at rt n) /\ expiredAt r now = false) /\
    (forall n, optimal rt' n (fun r => Valid rt' now r = true) (lookupIgnoringAge rt' n)).
Proof.
  intros Hinv%reachable_inv.
  destruct (PruneExpiredRoutes_spec rt Hinv clock now)
    as (rt' & notes & E & Hinv' & Hc & _ & _ & Hz).
  assert (Hst : forall r, stored rt' r <-> stored rt r /\ expiredAt r now = false).
  { intros r. unfold stored. rewrite Hc. setoid_rewrite map_lookup_filter_Some. split.
    - intros [c [Hr Hn]]. split; [by exists c|]. apply not_true_is_false. intros E'.
      by apply Hn, (expired_entry_stored rt Hinv).
    - intros [[c Hr] Hn]. exists c. split; [done|].
      intros E'%(expired_entry_stored rt Hinv); [|done]. congruence. }
  exists rt', notes. split_and!; [done..| |].
  - intros n r. rewrite (inv_index rt' Hinv'), (inv_index rt Hinv), Hst. tauto.
  - intros n. pose proof (first_route_optimal rt' n (validIgnoringAge rt') Hinv') as Ho.
    fold (lookupIgnoringAge rt' n) in Ho. unfold optimal in *. unfold Valid.
    setoid_rewrite andb_true_iff. setoid_rewrite negb_true_iff.
    destruct Ho as [[H1 H2]|(H1 & H2 & H3 & H4)]; [left|right].
    + split; [done|]. intros r' Hs Hcov [Hv _]. by apply (H2 r').
    + split_and!; [done..|by apply Hst in H1 as [_ ?]|]. intros r' Hs Hcov [Hv _]. auto.
Qed.

(** C7: observers can follow the best route of a network.  For an update of
    network [s] by any of the single-route and zone operations, an observer
    that knew the best route before (its target, distance, kind and range end)
    and applies the notifications sent to it knows the best route after. *)
Theorem observers_track_best (o : positive) (now : Z) (t : RouteTarget) (ext : bool)
    (s e d : Z) (zs : list (list Z)) (rt' : RouteTable) (notes : list (positive * Note)) :
  reachable rt -> o ∈ observers rt -> u16 s -> u16 e -> u8 d ->
  (exists r, UpsertRoute now t ext s e d rt = Some (Ok r, rt', notes)) \/
  UpdateDistance now t s d rt = Some (Ok tt, rt', notes) \/
  DeleteRoute now t s rt = Some (Ok tt, rt', notes) \/
  AddZonesToNetwork now s zs rt = (rt', notes) \/
  ReplaceZonesForNetwork now s zs rt = (rt', notes) ->
  foldl apply_note (view_of (Lookup rt now s)) (notes_for o notes) = view_of (Lookup rt' now s).
Proof.
  intros Hinv%reachable_inv Ho Hs He Hd Hop.
  cut (notes = informObservers rt' (Lookup rt now s) (Lookup rt' now s) /\
       observers rt' = observers rt); [intros [-> Hobs]; apply inform_view; by rewrite Hobs|].
  destruct Hop as [[r H]|[H|[H|[H|H]]]].
  - destruct (upsert_error_or_ok now t ext s e d rt Hs He Hd) as [[err E]|(Hr & Hext & Hd')];
      [congruence|].
    destruct (decide (e = 65535)) as [->|]; [by rewrite upsert_diverges in H|].
    destruct (UpsertRoute_ok rt Hinv now t ext s e d) as (tr & rt1 & n1 & E & _ & _ & _ & Hobs & _ & Hn);
      [done|width_lia|done..|]. by simplify_eq.
  - destruct (maxRouteDistance <? d) eqn:E1; [unfold UpdateDistance in H; by rewrite E1 in H|].
    zbool. unfold u8 in Hd. destruct (byClass rt !! (Class_ t, key_of t s)) as [old|] eqn:Eo.
    + destruct (UpdateDistance_found rt Hinv now t s d old Eo) as (rt1 & n1 & E & _ & _ & Hobs & _ & Hn);
        [lia|]. by simplify_eq.
    + unfold UpdateDistance in H. revert H. zdec. by rewrite (find_none rt t s Eo).
  - destruct (byClass rt !! (Class_ t, key_of t s)) as [route|] eqn:Er.
    + destruct (DeleteRoute_found rt now t s route Hinv Er) as (rt1 & n1 & E & _ & _ & Hobs & Hn & _).
      by simplify_eq.
    + unfold DeleteRoute in H. unfold key_of in Er. by rewrite Er in H.
  - pose proof (AddZones_spec rt Hinv now s zs) as HA. rewrite H in HA.
    by destruct HA as (_ & (_ & Hobs & _) & _ & _ & Hn).
  - pose proof (ReplaceZones_spec rt Hinv now s zs) as HA. rewrite H in HA.
    by destruct HA as (_ & (_ & Hobs & _) & _ & _ & Hn).
Qed.

(** Zone queries are exact.  [RoutesForZone] returns the best route of
    every network in the zone that has one, and nothing else;
    [ReplaceZonesForNetwork] makes the zones of one network exactly the
    nonempty names given and changes no other network; and [AllZoneNames] lists
    in ascending order exactly the names some network has. *)
Theorem zone_queries_exact (now n : Z) (zs : list (list Z)) (z : list Z) (r : Route) :
  reachable rt ->
  (r ∈ RoutesForZone rt now z <->
     exists m, z ∈ ZoneNames (net_at rt m) /\ Lookup rt now m = r /\ Zero r = false) /\
  (let rt' := (ReplaceZonesForNetwork now n zs rt).1 in
   (z ∈ ZoneNames (net_at rt' n) <-> z ∈ zs /\ z <> []) /\
   (forall m, m <> n -> ZoneNames (net_at rt' m) = ZoneNames (net_at rt m))) /\
  Sorted (cmp_le bytes_compare) (AllZoneNames rt) /\
  (z ∈ AllZoneNames rt <-> exists m, z ∈ ZoneNames (net_at rt m)).
Proof.
  intros Hinv%reachable_inv. destruct (inv_zone rt Hinv) as [Hz Hm]. split_and!.
  - unfold RoutesForZone. rewrite elem_of_routes_for. setoid_rewrite <- Hz. naive_solver.
  - pose proof (ReplaceZones_spec rt Hinv now n zs) as HA.
    destruct (ReplaceZonesForNetwork now n zs rt) as [rt' notes]. simpl.
    destruct HA as (_ & _ & _ & HZ & _). split; [|intros m Hne; by rewrite HZ, decide_False].
    rewrite HZ, decide_True by done. rewrite elem_of_list_to_set, list_elem_of_filter. tauto.
  - apply sort_func_sorted, sw_bytes.
  - unfold AllZoneNames. rewrite elem_of_sort_func by apply sw_bytes. rewrite list_elem_of_fmap.
    setoid_rewrite Hz. unfold networksForZone. split.
    + intros ([z' l] & -> & Hl%elem_of_map_to_list). simpl. rewrite Hl. simpl.
      destruct (Hm _ _ Hl) as [_ Hne]. destruct l as [|k l]; [done|]. exists k. by left.
    + intros [m Hin]. destruct (networksByZone rt !! z) as [l|] eqn:El; [|by apply elem_of_nil in Hin].
      exists (z, l). split; [done|]. by apply elem_of_map_to_list.
Qed.

(** Traffic accounting.  Refreshing a route with [UpsertRoute] keeps its
    byte counters; counting bytes on a stored route adds them, modulo 2^64, to
    that route and to no other stored route. *)
Theorem traffic_accounting (now : Z) (t : RouteTarget) (ext : bool) (s e d : Z)
    (old r2 : Route) (b : Z) :
  reachable rt ->
  byClass rt !! (Class_ t, key_of t s) = Some old ->
  0 <= s <= e -> e < 65535 -> (s <> e -> ext = true) -> 0 <= d <= maxRouteDistance ->
  stored rt r2 -> rkey r2 <> rkey old ->
  (exists r rt' notes, UpsertRoute now t ext s e d rt = Some (Ok r, rt', notes) /\
     DDPBytesIn rt' r = DDPBytesIn rt old /\ DDPBytesOut rt' r = DDPBytesOut rt old) /\
  DDPBytesIn (noteDDPBytesIn old b rt) old
    = (if b =? 0 then DDPBytesIn rt old else wrap64 (DDPBytesIn rt old + b)) /\
  DDPBytesIn (noteDDPBytesIn old b rt) r2 = DDPBytesIn rt r2.
Proof.
  intros Hinv%reachable_inv Hold Hs He Hext Hd [c2 Hr2] Hne.
  destruct (inv_traffic rt Hinv) as [Ht Hi]. split_and!.
  - destruct (UpsertRoute_ok rt Hinv now t ext s e d Hs He Hext Hd)
      as (tr & rt' & notes & E & _ & Htr & _). destruct (Htr old Hold) as [E1 E2].
    eexists _, _, _. split; [exact E|]. unfold DDPBytesIn, DDPBytesOut. by rewrite E1, E2.
  - destruct (Ht _ _ Hold) as (i & ? & ?). by eapply bytes_in_same.
  - apply bytes_in_other. intros E. apply Hne.
    pose proof (Hi _ _ _ _ Hold Hr2 E) as [= _ E']. rewrite <- E'.
    symmetry. apply (so_key _ _ _ (inv_stored rt Hinv _ _ _ Hold)).
Qed.
End Theorems.

(** ** Witnesses

    A table with two routes to network 3 and a zone, built by a run. *)
Definition run_upsert {GS : GoSort} (now : Z) (t : RouteTarget) (ext : bool) (s e d : Z)
    (rt : RouteTable) : RouteTable :=
  match UpsertRoute now t ext s e d rt with Some (_, rt', _) => rt' | None => rt end.

Lemma run_upsert_reachable {GS : GoSort} now t ext s e d rt :
  u16 s -> u16 e -> u8 d -> reachable rt -> reachable (run_upsert now t ext s e d rt).
Proof.
  intros Hs He Hd Hrt. unfold run_upsert.
  destruct (UpsertRoute now t ext s e d rt) as [[[r rt'] notes]|] eqn:E; [|done].
  eapply rtc_r; [exact Hrt|]. by apply (step_upsert rt now t ext s e d r rt' notes).
Qed.

Definition wit_peer : RouteTarget := AURPPeer (str "b").
Definition wit_gw : RouteTarget := EtherTalkPeer (str "en0") 1 7.

Definition wit_rt0 : RouteTable :=
  run_upsert (GS := insertion_sort) 0 wit_gw false 3 3 1
    (run_upsert (GS := insertion_sort) 0 wit_peer true 3 5 2 (AddObserver 1 NewRouteTable)).

Definition wit_rt : RouteTable := (AddZonesToNetwork 0 3 [str "home"] wit_rt0).1.

Lemma wit_reachable : reachable (GS := insertion_sort) wit_rt.
Proof.
  eapply rtc_r; [|apply step_add_zones; unfold u16; lia].
  do 2 (apply run_upsert_reachable; [unfold u16; lia|unfold u16; lia|unfold u8; lia|]).
  apply rtc_once, step_add_observer.
Qed.

Lemma route_table_consistent_witness : rt_inv wit_rt.
Proof. apply (route_table_consistent (GS := insertion_sort)). exact wit_reachable. Defined.

Lemma Lookup_optimal_witness :
  (optimal wit_rt 3 (fun r => Valid wit_rt 5 r = true) (Lookup wit_rt 5 3) /\
   optimal wit_rt 3 (fun r => TargetKey (rkey r) = RouteTargetKey wit_peer
                              /\ Valid wit_rt 5 r = true)
     (lookupForTarget wit_rt 5 3 (Some wit_peer))) /\
  Distance (Lookup wit_rt 5 3) = 1.
Proof.
  split; [|vm_compute; reflexivity].
  apply (Lookup_optimal (GS := insertion_sort) wit_rt 5 3 wit_peer). exact wit_reachable.
Defined.

Lemma LookupAvoiding_optimal_witness :
  optimal wit_rt 4 (fun r => Valid wit_rt 5 r = true /\
      ~ (str "b" <> [] /\ o_Kind (route_origin r) = RouteOriginAURP
         /\ o_ID (route_origin r) = str "b"))
    (LookupAvoidingAURPTunnel wit_rt 5 4 (str "b")).
Proof.
  apply (LookupAvoiding_optimal (GS := insertion_sort) wit_rt 5 4 (str "b")). exact wit_reachable.
Defined.

Lemma UpsertRoute_stores_witness :
  exists tr rt' notes,
    let r := upsert_record 9 wit_peer true 4 6 3 tr in
    UpsertRoute (GS := insertion_sort) 9 wit_peer true 4 6 3 wit_rt = Some (Ok r, rt', notes) /\
    find rt' wit_peer 4 = r /\
    (forall n r', r' ∈ Routes (net_at rt' n) <->
       (r' = r /\ 4 <= n <= 6) \/ (rkey r' <> key_of wit_peer 4 /\ r' ∈ Routes (net_at wit_rt n))) /\
    (forall n, ZoneNames (net_at rt' n) <> ZoneNames (net_at wit_rt n) ->
       Routes (net_at rt' n) = [] /\ ~ (4 <= n <= 6)).
Proof.
  apply (UpsertRoute_stores (GS := insertion_sort) wit_rt 9 wit_peer true 4 6 3);
    [exact wit_reachable|lia|lia|reflexivity|unfold maxRouteDistance; lia].
Defined.

Lemma updates_reject_witness :
  exists err, UpsertRoute (GS := insertion_sort) 9 wit_peer false 4 6 3 wit_rt
              = Some (Err err, wit_rt, []).
Proof.
  apply (updates_reject (GS := insertion_sort) wit_rt 9 wit_peer false 4 6 3).
  right. left. split; [lia|reflexivity].
Defined.

Lemma UpsertRoute_hangs_at_65535_witness :
  UpsertRoute (GS := insertion_sort) 9 wit_peer true 65000 65535 3 wit_rt = None.
Proof.
  apply (UpsertRoute_hangs_at_65535 (GS := insertion_sort) wit_rt 9 wit_peer true 65000 3);
    [exact wit_reachable|unfold u16; lia|reflexivity|unfold maxRouteDistance; lia].
Defined.

Lemma DeleteTarget_purges_witness :
  exists rt' notes,
    DeleteTarget (GS := insertion_sort) 9 wit_peer wit_rt = Some (rt', notes) /\
    (forall r, stored rt' r <-> stored wit_rt r /\ TargetKey (rkey r) <> RouteTargetKey wit_peer) /\
    (forall n r, r ∈ Routes (net_at rt' n) <->
       r ∈ Routes (net_at wit_rt n) /\ TargetKey (rkey r) <> RouteTargetKey wit_peer) /\
    (forall n r, stored wit_rt r -> TargetKey (rkey r) = RouteTargetKey wit_peer -> covers r n ->
       Routes (net_at rt' n) = [] -> ZoneNames (net_at rt' n) = ∅).
Proof.
  apply (DeleteTarget_purges (GS := insertion_sort) wit_rt 9 wit_peer). exact wit_reachable.
Defined.

Lemma PruneExpiredRoutes_exact_witness :
  exists rt' notes,
    PruneExpiredRoutes (GS := insertion_sort) 700000000000 700000000000 wit_rt
    = Some (Z.of_nat (size (filter (expired_entry 700000000000) (byClass wit_rt))), rt', notes) /\
    (forall r, stored rt' r <-> stored wit_rt r /\ expiredAt r 700000000000 = false) /\
    (forall n r, r ∈ Routes (net_at rt' n) <->
       r ∈ Routes (net_at wit_rt n) /\ expiredAt r 700000000000 = false) /\
    (forall n, optimal rt' n (fun r => Valid rt' 700000000000 r = true) (lookupIgnoringAge rt' n)).
Proof.
  apply (PruneExpiredRoutes_exact (GS := insertion_sort) wit_rt 700000000000 700000000000).
  exact wit_reachable.
Defined.

Lemma observers_track_best_witness :
  foldl apply_note (view_of (Lookup wit_rt 5 3))
    (notes_for 1 (ReplaceZonesForNetwork 5 3 [] wit_rt).2)
  = view_of (Lookup (ReplaceZonesForNetwork 5 3 [] wit_rt).1 5 3).
Proof.
  apply (observers_track_best (GS := insertion_sort) wit_rt 1 5 wit_peer true 3 3 0 []).
  - exact wit_reachable.
  - vm_compute. reflexivity.
  - unfold u16; lia.
  - unfold u16; lia.
  - unfold u8; lia.
  - right. right. right. right. symmetry. apply surjective_pairing.
Defined.

Lemma zone_queries_exact_witness :
  (Lookup wit_rt 5 3 ∈ RoutesForZone wit_rt 5 (str "home") <->
     exists m, str "home" ∈ ZoneNames (net_at wit_rt m) /\ Lookup wit_rt 5 m = Lookup wit_rt 5 3
               /\ Zero (Lookup wit_rt 5 3) = false).
Proof.
  apply (zone_queries_exact (GS := insertion_sort) wit_rt 5 3 [] (str "home") (Lookup wit_rt 5 3)).
  exact wit_reachable.
Defined.

Lemma traffic_accounting_witness :
  exists r rt' notes,
    UpsertRoute (GS := insertion_sort) 9 wit_peer true 3 5 2 wit_rt = Some (Ok r, rt', notes) /\
    DDPBytesIn rt' r = DDPBytesIn wit_rt (find wit_rt wit_peer 3) /\
    DDPBytesOut rt' r = DDPBytesOut wit_rt (find wit_rt wit_peer 3).
Proof.
  apply (traffic_accounting (GS := insertion_sort) wit_rt 9 wit_peer true 3 5 2
           (find wit_rt wit_peer 3) (find wit_rt wit_gw 3) 100).
  - exact wit_reachable.
  - vm_compute. reflexivity.
  - lia.
  - lia.
  - reflexivity.
  - unfold maxRouteDistance; lia.
  - exists TargetClassAppleTalkPeer. vm_compute. reflexivity.
  - vm_compute. discriminate.
Defined.
