(* ===== verification/RouteExport.v ===== *)
(** * Exporting routes to AURP peers ([router/aurp_routing.go] and the pending
      event queue of [router/aurp_peer.go])

    A peer's view of our internet is, per network, the attributes of the best
    route when that route is local and nearer than 15 hops, and nothing
    otherwise.  The theorems: one event moves the peer from the old view to the
    new one; events coalesced in the queue do the same for a whole sequence of
    changes; the exported routes are exactly the best local ones that are not
    hidden; and chunking loses nothing and keeps every datagram within the
    budget. *)
From S2P Require Import Prelude Wtacc AurpHeaders AurpTuples AurpZoneInfo AurpPacket.
From S2P Require Import AurpTransport PeerPolicy GoSort RouteTable RouteTableInv RouteTableOps.
From S2P Require Import RouteTableSpec.
Import RT Policy.

Module Exp.

Definition aurpRoutingDatagramBudget : Z := 1400.

Record pendingAURPChange := { before : Route; after : Route }.

Definition aurpRouteIsLocal (r : Route) : bool :=
  negb (Zero r) && negb (bool_decide (o_Kind (route_origin r) = RouteOriginAURP)).

Definition aurpRouteIsAdvertisable (r : Route) : bool :=
  aurpRouteIsLocal r && (Distance r <? maxRouteDistance).

Definition aurpEventTupleFromRoute (code : Z) (r : Route) : EventTuple :=
  {| et_EventCode := code; et_Extended := Extended r; et_RangeStart := NetStart (rkey r);
     et_Distance := if (code =? EventCodeND) || (code =? EventCodeNRC) then 0 else Distance r;
     et_RangeEnd := NetEnd r |}.

(** [None] when the second result is false. *)
Definition aurpEventForBestTransition (before after : Route) : option EventTuple :=
  let beforeAdvertised := aurpRouteIsAdvertisable before in
  let afterAdvertised := aurpRouteIsAdvertisable after in
  if negb beforeAdvertised && afterAdvertised then
    Some (aurpEventTupleFromRoute EventCodeNA after)
  else if beforeAdvertised && afterAdvertised then
    if negb (Distance before =? Distance after)
       || negb (Bool.eqb (Extended before) (Extended after))
       || negb (NetEnd before =? NetEnd after)
    then Some (aurpEventTupleFromRoute EventCodeNDC after)
    else None
  else if beforeAdvertised && aurpRouteIsLocal after && (maxRouteDistance <=? Distance after) then
    Some (aurpEventTupleFromRoute EventCodeNDC after)
  else if beforeAdvertised && negb (Zero after)
          && bool_decide (o_Kind (route_origin after) = RouteOriginAURP) then
    Some (aurpEventTupleFromRoute EventCodeNRC before)
  else if beforeAdvertised then Some (aurpEventTupleFromRoute EventCodeND before)
  else None.

(** ** The queue of pending changes ([aurp_peer.go]) *)

Record EventQueue := { pendingEvents : gmap Z pendingAURPChange; suiFlags : Z }.

Definition setSUIFlags (flags : Z) (q : EventQueue) : EventQueue :=
  {| pendingEvents := pendingEvents q; suiFlags := Z.land flags RoutingFlagAllSUI |}.

Definition allowsUpdateEvent (q : EventQueue) (code : Z) : bool :=
  let ok required := negb (Z.land (wrap16 (suiFlags q)) required =? 0) in
  if code =? EventCodeNA then ok RoutingFlagSUINA
  else if (code =? EventCodeND) || (code =? EventCodeNRC) then ok RoutingFlagSUINDOrNRC
  else if code =? EventCodeNDC then ok RoutingFlagSUINDC
  else if code =? EventCodeZC then ok RoutingFlagSUIZC
  else true.

Definition set_pending (m : gmap Z pendingAURPChange) (q : EventQueue) : EventQueue :=
  {| pendingEvents := m; suiFlags := suiFlags q |}.

Section Queue.
Context {GStr : GoStrings} {GS : GoSort}.

(** [unconnected] is [p.SenderState() == SenderUnconnected]. *)
Definition queueBestNetworkTransition (c : AURPConfig) (p : PeerIdent) (unconnected : bool)
    (oldBest newBest : Route) (q : EventQueue) : EventQueue :=
  if unconnected then q
  else if Zero oldBest && Zero newBest then q
  else
    let netStart := if negb (Zero oldBest) then NetStart (rkey oldBest)
                    else NetStart (rkey newBest) in
    let netEnd := if negb (Zero newBest) then NetEnd newBest
                  else if negb (Zero oldBest) then NetEnd oldBest else netStart in
    if exportRangeHidden c p netStart netEnd then q
    else
      let change :=
        {| before := match pendingEvents q !! netStart with
                     | Some ch => before ch | None => oldBest end;
           after := newBest |} in
      match aurpEventForBestTransition (before change) (after change) with
      | Some event =>
          if negb (allowsUpdateEvent q (et_EventCode event))
          then set_pending (delete netStart (pendingEvents q)) q
          else set_pending (<[netStart := change]> (pendingEvents q)) q
      | None => set_pending (delete netStart (pendingEvents q)) q
      end.

(** The observer methods [NetworkAdded], [NetworkDeleted] and
    [BestNetworkChanged]. *)
Definition observe (c : AURPConfig) (p : PeerIdent) (unconnected : bool) (e : Note)
    (q : EventQueue) : EventQueue :=
  match e with
  | NetworkAdded newBest => queueBestNetworkTransition c p unconnected zero_route newBest q
  | NetworkDeleted oldBest => queueBestNetworkTransition c p unconnected oldBest zero_route q
  | BestNetworkChanged oldBest newBest =>
      queueBestNetworkTransition c p unconnected oldBest newBest q
  end.

Definition aurpEventsForPendingChanges (changes : gmap Z pendingAURPChange) : list EventTuple :=
  omap (fun n => ch ← changes !! n; aurpEventForBestTransition (before ch) (after ch))
    (sort_func Z.compare (map_to_list changes).*1).

Definition takePendingEvents (q : EventQueue) : list EventTuple * EventQueue :=
  (aurpEventsForPendingChanges (pendingEvents q), set_pending ∅ q).

(** ** Exported routes *)

Definition compareExported (a b : Route) : comparison :=
  (Z.compare (NetStart (rkey a)) (NetStart (rkey b))
   <|>c Z.compare (NetEnd a) (NetEnd b)
   <|>c Z.compare (Distance a) (Distance b)
   <|>c bytes_compare (TargetKey (rkey a)) (TargetKey (rkey b)))%go.

Fixpoint exported_loop (rt : RouteTable) (now : Z) (seen : gset RouteKey) (l : list Route) :
    list Route :=
  match l with
  | [] => []
  | r :: l =>
      let best := Lookup rt now (NetStart (rkey r)) in
      if negb (aurpRouteIsAdvertisable best) || negb (bool_decide (rkey best = rkey r))
      then exported_loop rt now seen l
      else if bool_decide (rkey best ∈ seen) then exported_loop rt now seen l
      else best :: exported_loop rt now ({[rkey best]} ∪ seen) l
  end.

Definition table_exported_routes (rt : RouteTable) (now : Z) : list Route :=
  sort_func compareExported
    (exported_loop rt now ∅ (ValidRoutesForClass rt now TargetClassDirect
                             ++ ValidRoutesForClass rt now TargetClassAppleTalkPeer)).

Definition aurpExportedRoutes (c : AURPConfig) (p : PeerIdent) (rt : RouteTable) (now : Z) :
    list Route :=
  List.filter (fun r => negb (exportRangeHidden c p (NetStart (rkey r)) (NetEnd r)))
    (table_exported_routes rt now).
End Queue.

(** ** Chunking *)

Definition aurpNetworkTupleSize (nt : NetworkTuple) : Z := if nt_Extended nt then 6 else 3.

Definition aurpEventTupleSize (et : EventTuple) : Z :=
  if et_EventCode et =? EventCodeNull then 1
  else if et_Extended et then 6 else 4.

(** [pkt.WriteTo] into an empty buffer; a write error is passed on. *)
Definition aurpPacketSize (pkt : Packet) : res Z :=
  let '(buf, (_, err)) := Packet_WriteTo pkt [] in
  match err with Some e => Err e | None => Ok (zlen buf) end.

Definition aurpRoutingPayloadBudget (pkt : Packet) : res Z :=
  len ← aurpPacketSize pkt;
  let budget := aurpRoutingDatagramBudget - len in
  if budget <=? 0 then
    Err (Errorf "AURP routing header size %d exceeds datagram budget %d"
           [AInt len; AInt aurpRoutingDatagramBudget])
  else Ok budget.

(** The loop the two chunkers share. *)
Fixpoint chunk_loop {A} (fmt : string) (sizeof : A -> Z) (maxBytes : Z)
    (chunks : list (list A)) (chunk : list A) (size : Z) (tuples : list A) :
    res (list (list A)) :=
  match tuples with
  | [] => Ok (if 0 <? zlen chunk then chunks ++ [chunk] else chunks)
  | t :: tuples =>
      let n := sizeof t in
      if maxBytes <? n then Err (Errorf fmt [AInt n; AInt maxBytes])
      else if (0 <? zlen chunk) && (maxBytes <? size + n)
           then chunk_loop fmt sizeof maxBytes (chunks ++ [chunk]) [t] n tuples
           else chunk_loop fmt sizeof maxBytes chunks (chunk ++ [t]) (size + n) tuples
  end.

Definition chunkAURPNetworkTuples (tuples : list NetworkTuple) (maxBytes : Z) :
    res (list (list NetworkTuple)) :=
  if maxBytes <=? 0 then
    Err (Errorf "invalid network tuple payload budget %d" [AInt maxBytes])
  else if zlen tuples =? 0 then Ok [[]]
  else chunk_loop "network tuple size %d exceeds payload budget %d" aurpNetworkTupleSize maxBytes
         [] [] 0 tuples.

Definition chunkAURPEventTuples (events : list EventTuple) (maxBytes : Z) :
    res (list (list EventTuple)) :=
  if maxBytes <=? 0 then
    Err (Errorf "invalid event tuple payload budget %d" [AInt maxBytes])
  else chunk_loop "event tuple size %d exceeds payload budget %d" aurpEventTupleSize maxBytes
         [] [] 0 events.

End Exp.

Import Exp.

(** * The peer's view *)

(** What a peer knows of a network whose best route here is [r]. *)
Definition export_view (r : Route) : option (bool * Z * Z) :=
  if aurpRouteIsAdvertisable r then Some (Extended r, NetEnd r, Distance r) else None.

(** What a receiver does with an event: additions and distance changes carry the
    new attributes, a distance of 15 or more and deletions remove the network. *)
Definition apply_event (v : option (bool * Z * Z)) (e : EventTuple) : option (bool * Z * Z) :=
  let code := et_EventCode e in
  if (code =? EventCodeND) || (code =? EventCodeNRC) then None
  else if (code =? EventCodeNA) || (code =? EventCodeNDC) then
    if maxRouteDistance <=? et_Distance e then None
    else Some (et_Extended e, et_RangeEnd e, et_Distance e)
  else v.

Lemma transition_view b a :
  match aurpEventForBestTransition b a with
  | Some e => apply_event (export_view b) e = export_view a /\
              (et_EventCode e = EventCodeNA \/ et_EventCode e = EventCodeND \/
               et_EventCode e = EventCodeNRC \/ et_EventCode e = EventCodeNDC)
  | None => export_view b = export_view a
  end.
Proof.
  unfold aurpEventForBestTransition, export_view.
  destruct (aurpRouteIsAdvertisable b) eqn:Eb, (aurpRouteIsAdvertisable a) eqn:Ea; simpl.
  - destruct (_ || _ || _) eqn:Ec.
    + split; [|tauto]. unfold apply_event. simpl. eval_tests. simpl.
      unfold aurpRouteIsAdvertisable in Ea. zbool. by zdec.
    + apply orb_false_elim in Ec as [[E1 E2]%orb_false_elim E3].
      rewrite negb_false_iff in *. apply eqb_prop in E2. zbool. congruence.
  - unfold aurpRouteIsAdvertisable in Ea.
    destruct (aurpRouteIsLocal a) eqn:El; simpl in Ea |- *.
    + zbool. zdec. split; [|tauto]. unfold apply_event. simpl. eval_tests. simpl. by zdec.
    + destruct (negb (Zero a) && _); (split; [done|tauto]).
  - split; [|tauto]. unfold apply_event. simpl. eval_tests. simpl.
    unfold aurpRouteIsAdvertisable in Ea. zbool. by zdec.
  - done.
Qed.

Section QueueLemmas.
Context {GStr : GoStrings} {GS : GoSort} (c : AURPConfig) (p : PeerIdent) (s : Z).

(** The best routes of one exported network over time. *)
Definition best_of (r : Route) : Prop :=
  Zero r = true \/ (NetStart (rkey r) = s /\ exportRangeHidden c p s (NetEnd r) = false).

Fixpoint queue_run (r : Route) (rs : list Route) (q : EventQueue) : EventQueue :=
  match rs with
  | [] => q
  | r' :: rs => queue_run r' rs (queueBestNetworkTransition c p false r r' q)
  end.

(** The queue holds at most the change of network [s], from [r0] to [r]. *)
Definition queue_inv (r0 r : Route) (q : EventQueue) : Prop :=
  suiFlags q = RoutingFlagAllSUI /\
  ((pendingEvents q = ∅ /\ export_view r0 = export_view r) \/
   exists ch e, pendingEvents q = {[s := ch]} /\
     export_view (before ch) = export_view r0 /\ export_view (after ch) = export_view r /\
     aurpEventForBestTransition (before ch) (after ch) = Some e).

Lemma zero_view r : Zero r = true -> export_view r = None.
Proof.
  intros H. unfold export_view, aurpRouteIsAdvertisable, aurpRouteIsLocal. by rewrite H.
Qed.

Lemma allows_all q code :
  suiFlags q = RoutingFlagAllSUI ->
  code = EventCodeNA \/ code = EventCodeND \/ code = EventCodeNRC \/ code = EventCodeNDC ->
  allowsUpdateEvent q code = true.
Proof.
  intros Hf Hc. unfold allowsUpdateEvent. rewrite Hf. by destruct Hc as [-> | [-> | [-> | ->]]].
Qed.

Lemma queue_step r0 r r' q :
  best_of r -> best_of r' -> queue_inv r0 r q ->
  queue_inv r0 r' (queueBestNetworkTransition c p false r r' q).
Proof.
  intros Hr Hr' (Hf & Hq). unfold queueBestNetworkTransition.
  destruct (Zero r && Zero r') eqn:Ez.
  { zbool. split; [done|]. rewrite (zero_view r') by done. rewrite (zero_view r) in Hq by done. done. }
  set (ns := if negb (Zero r) then _ else _). set (ne := if negb (Zero r') then _ else _).
  assert (Hns : ns = s /\ exportRangeHidden c p ns ne = false).
  { subst ns ne. unfold best_of in *.
    destruct (Zero r) eqn:E, (Zero r') eqn:E'; simpl in *; try done;
      destruct Hr as [?|[Hr1 Hr2]], Hr' as [?|[Hr1' Hr2']]; try done; by rewrite ?Hr1, ?Hr1'. }
  destruct Hns as [Ens Ehid]. rewrite Ehid. clear Ehid. rewrite Ens. clear ns ne Ens. simpl.
  set (b := match pendingEvents q !! s with Some ch => before ch | None => r end).
  assert (Hb : export_view b = export_view r0).
  { subst b. destruct Hq as [[-> ->]|(ch & e & -> & ? & _)];
      [by rewrite lookup_empty|by rewrite lookup_singleton_eq]. }
  assert (Hdel : delete s (pendingEvents q) = ∅).
  { destruct Hq as [[-> _]|(ch & e & -> & _)]; [apply delete_empty|apply delete_singleton_eq]. }
  assert (Hins : forall ch, <[s := ch]> (pendingEvents q) = {[s := ch]}).
  { intros ch. by rewrite <- insert_delete_eq, Hdel, insert_empty. }
  pose proof (transition_view b r') as Ht.
  destruct (aurpEventForBestTransition b r') as [e|] eqn:Ee.
  - destruct Ht as [_ Hcode]. rewrite (allows_all q _ Hf Hcode). simpl. split; [done|]. right.
    exists {| before := b; after := r' |}, e. simpl. by rewrite Hins.
  - split; [done|]. left. simpl. split; [done|]. congruence.
Qed.

Lemma queue_run_inv r0 r rs q :
  best_of r -> Forall best_of rs -> queue_inv r0 r q ->
  queue_inv r0 (List.last rs r) (queue_run r rs q).
Proof.
  intros Hr Hrs. revert r Hr q. induction Hrs as [|r' rs Hr' Hrs IH]; intros r Hr q Hq; [done|].
  cbn [queue_run]. replace (List.last (r' :: rs) r) with (List.last rs r').
  - apply IH; [done|]. by apply queue_step.
  - revert r' Hr' IH Hq. induction rs as [|a rs _]; intros; [done|]. simpl.
    clear. revert a. induction rs as [|b rs IH]; intros a; [done|]. simpl. apply (IH b).
Qed.

Lemma queue_events r0 r q :
  queue_inv r0 r q ->
  (length (takePendingEvents q).1 <= 1)%nat /\
  foldl apply_event (export_view r0) (takePendingEvents q).1 = export_view r.
Proof.
  intros (_ & Hq). unfold takePendingEvents, aurpEventsForPendingChanges. simpl.
  set (keys := sort_func _ _).
  assert (Hp : keys ≡ₚ (map_to_list (pendingEvents q)).*1) by (apply sort_func_perm, sw_Z).
  destruct Hq as [[Hq Hv]|(ch & e & Hq & Hb & Ha & He)]; rewrite Hq in *.
  - rewrite map_to_list_empty in Hp. apply Permutation_nil_r in Hp. rewrite Hp. simpl. split; [lia|done].
  - rewrite map_to_list_singleton in Hp. apply Permutation_singleton_r in Hp. rewrite Hp. simpl.
    rewrite lookup_singleton_eq. simpl. rewrite He. simpl. split; [lia|].
    pose proof (transition_view (before ch) (after ch)) as Ht. rewrite He in Ht.
    destruct Ht as [Ht _]. by rewrite <- Hb, Ht.
Qed.
End QueueLemmas.

(** * Exported routes *)

Section ExportLemmas.
Context {GStr : GoStrings} {GS : GoSort}.

Lemma elem_of_exported_loop rt now seen l r :
  r ∈ exported_loop rt now seen l <->
  exists r0, r0 ∈ l /\ Lookup rt now (NetStart (rkey r0)) = r /\
    aurpRouteIsAdvertisable r = true /\ rkey r = rkey r0 /\ rkey r ∉ seen.
Proof.
  revert seen. induction l as [|a l IH]; intros seen; cbn [exported_loop].
  { split; [by intros ?%elem_of_nil|by intros (? & ?%elem_of_nil & _)]. }
  set (best := Lookup rt now (NetStart (rkey a))).
  setoid_rewrite elem_of_cons.
  destruct (aurpRouteIsAdvertisable best) eqn:Ea; cbn [negb orb].
  - case_bool_decide as Ek; cbn [negb].
    + case_bool_decide as Es.
      * rewrite IH. split; [naive_solver|]. intros (r0 & [->|Hr0] & Hl & Hadv & Hk & Hs); [|by eauto 10].
        by subst best r.
      * rewrite elem_of_cons, IH. split.
        -- intros [->|(r0 & Hr0 & Hl & Hadv & Hk & Hs)]; [by eauto 10|].
           exists r0. split_and!; try done; [by right|set_solver].
        -- intros (r0 & [->|Hr0] & Hl & Hadv & Hk & Hs); [by left|].
           destruct (decide (rkey r = rkey best)) as [E|E].
           ++ left. subst best. rewrite <- Hl. do 2 f_equal. congruence.
           ++ right. exists r0. split_and!; try done. set_solver.
    + rewrite IH. split; [naive_solver|]. intros (r0 & [->|Hr0] & Hl & Hadv & Hk & Hs); [|by eauto 10].
      by subst best r.
  - rewrite IH. split; [naive_solver|]. intros (r0 & [->|Hr0] & Hl & Hadv & Hk & Hs); [|by eauto 10].
    subst best r. congruence.
Qed.

Lemma exported_loop_nodup rt now seen l : NoDup (rkey <$> exported_loop rt now seen l).
Proof.
  revert seen. induction l as [|a l IH]; intros seen; cbn [exported_loop]; [constructor|].
  destruct (_ || _); [apply IH|]. case_bool_decide; [apply IH|]. cbn. constructor; [|apply IH].
  intros (r & E & Hr)%list_elem_of_fmap. apply elem_of_exported_loop in Hr as (_ & _ & _ & _ & _ & Hs).
  set_solver.
Qed.

Lemma elem_of_ValidRoutesForClass rt now cl r :
  r ∈ ValidRoutesForClass rt now cl <->
  Valid rt now r = true /\ exists k, byClass rt !! (cl, k) = Some r.
Proof.
  unfold ValidRoutesForClass. rewrite !list_elem_of_In, filter_In, <- list_elem_of_In.
  rewrite elem_of_filtered. split.
  - intros [([c k] & Hr & E) Hv]. simpl in E. subst. eauto.
  - intros [Hv [k Hr]]. split; [|done]. exists (cl, k). done.
Qed.

Lemma stored_origin rt r :
  rt_inv rt -> stored rt r -> exists t c, byClass rt !! (c, rkey r) = Some r /\
    Target r = Some t /\ Class_ t = c /\ route_origin r = routeOriginForTarget (Some t).
Proof.
  intros Hinv [c Hr]. destruct (inv_stored rt Hinv _ _ _ Hr) as [_ (t & Ht & Hc & _ & Ho) _ _ _ _].
  exists t, c. split_and!; [done..|]. unfold route_origin. rewrite Ht, Ho. by case_bool_decide.
Qed.

Lemma local_class rt r :
  rt_inv rt -> stored rt r -> aurpRouteIsLocal r = true ->
  byClass rt !! (TargetClassDirect, rkey r) = Some r \/
  byClass rt !! (TargetClassAppleTalkPeer, rkey r) = Some r.
Proof.
  intros Hinv Hs Hl. destruct (stored_origin rt r Hinv Hs) as (t & c & Hr & Ht & Hc & Ho).
  unfold aurpRouteIsLocal in Hl. rewrite Ho in Hl.
  destruct t; simpl in *; subst c; [by left|by rewrite andb_false_r in Hl|by right].
Qed.

Lemma sw_exported : StrictWeak compareExported.
Proof.
  unfold compareExported.
  apply (sw_or (fun a b => Z.compare (NetStart (rkey a)) (NetStart (rkey b))));
    [by apply (sw_proj (fun r => NetStart (rkey r))), sw_Z|].
  apply (sw_or (fun a b => Z.compare (NetEnd a) (NetEnd b))); [by apply sw_proj, sw_Z|].
  apply (sw_or (fun a b => Z.compare (Distance a) (Distance b))); [by apply sw_proj, sw_Z|].
  by apply (sw_proj (fun r => TargetKey (rkey r)) bytes_compare), sw_bytes.
Qed.

Lemma elem_of_table_exported rt now r :
  rt_inv rt ->
  r ∈ table_exported_routes rt now <->
  stored rt r /\ Lookup rt now (NetStart (rkey r)) = r /\ aurpRouteIsAdvertisable r = true.
Proof.
  intros Hinv. unfold table_exported_routes.
  rewrite elem_of_sort_func by apply sw_exported. rewrite elem_of_exported_loop.
  setoid_rewrite elem_of_app. setoid_rewrite elem_of_ValidRoutesForClass. split.
  - intros (r0 & _ & Hl & Hadv & Hk & _). rewrite Hk. split_and!; [|done..].
    pose proof (first_route_optimal rt (NetStart (rkey r0)) (Valid rt now) Hinv) as Ho.
    fold (Lookup rt now (NetStart (rkey r0))) in Ho. rewrite Hl in Ho.
    destruct Ho as [[-> _]|[Hs _]]; [done|done].
  - intros (Hs & Hl & Hadv). exists r. split; [|split_and!; [done..|set_solver]].
    assert (Hv : Valid rt now r = true).
    { pose proof (first_route_optimal rt (NetStart (rkey r)) (Valid rt now) Hinv) as Ho.
      fold (Lookup rt now (NetStart (rkey r))) in Ho. rewrite Hl in Ho.
      destruct Ho as [[-> _]|(_ & _ & Hv & _)]; [done|done]. }
    unfold aurpRouteIsAdvertisable in Hadv. apply andb_prop in Hadv as [Hloc _].
    destruct (local_class rt r Hinv Hs Hloc); eauto.
Qed.
End ExportLemmas.

(** * Chunks *)

Fixpoint total_size {A} (sizeof : A -> Z) (l : list A) : Z :=
  match l with [] => 0 | x :: l => sizeof x + total_size sizeof l end.

Lemma total_size_app {A} (sizeof : A -> Z) l1 l2 :
  total_size sizeof (l1 ++ l2) = total_size sizeof l1 + total_size sizeof l2.
Proof. induction l1 as [|x l1 IH]; simpl; lia. Qed.

Lemma chunk_loop_spec {A} fmt (sizeof : A -> Z) maxBytes chunks chunk tuples :
  Forall (fun t => sizeof t <= maxBytes) tuples ->
  Forall (fun c => total_size sizeof c <= maxBytes) chunks ->
  total_size sizeof chunk <= maxBytes ->
  exists cs,
    chunk_loop fmt sizeof maxBytes chunks chunk (total_size sizeof chunk) tuples = Ok cs /\
    concat cs = concat chunks ++ chunk ++ tuples /\
    Forall (fun c => total_size sizeof c <= maxBytes) cs.
Proof.
  intros Ht. revert chunks chunk.
  induction Ht as [|t tuples Ht Hts IH]; intros chunks chunk Hc Hs; cbn [chunk_loop].
  - destruct chunk as [|x chunk]; simpl.
    + eexists. split; [done|]. by rewrite app_nil_r.
    + eexists. split; [done|]. rewrite concat_app. simpl. rewrite !app_nil_r.
      split; [done|]. apply Forall_app. split; [done|]. by constructor.
  - zdec. destruct ((0 <? zlen chunk) && _) eqn:E.
    + destruct (IH (chunks ++ [chunk]) [t]) as (cs & H1 & H2 & H3).
      { apply Forall_app. split; [done|]. by constructor. }
      { simpl. lia. }
      simpl in H1. rewrite Z.add_0_r in H1. exists cs. split_and!; [done| |done].
      rewrite H2, concat_app. simpl. by rewrite app_nil_r, <- app_assoc.
    + destruct (IH chunks (chunk ++ [t])) as (cs & H1 & H2 & H3); [done| |].
      { rewrite total_size_app. simpl. apply andb_false_iff in E as [E|E]; zbool; [|lia].
        destruct chunk; [simpl; lia|]. rewrite zlen_cons in E. pose proof (zlen_nonneg chunk). lia. }
      rewrite total_size_app in H1. simpl in H1. rewrite Z.add_0_r in H1.
      exists cs. split_and!; [done| |done]. by rewrite H2, <- app_assoc.
Qed.

(** ** Datagram sizes *)

Lemma packet_size p : pkt_wf p -> aurpPacketSize p = Ok (zlen (enc_packet p)).
Proof. intros H. unfold aurpPacketSize. by rewrite (packet_emits p H []). Qed.

Lemma zlen_enc_di di : di_wf di -> 2 <= zlen (enc_di di) <= 8.
Proof.
  destruct di as [|ip]; simpl; [intros _; unfold zlen; simpl; lia|].
  intros [Hl _]. unfold enc_di. autorewrite with wire. unfold zlen. rewrite Hl. lia.
Qed.

Definition header_size (tr : Transport) : Z := zlen (enc_dh (domainHeader tr PacketTypeRouting)) + 8.

Lemma header_size_bound tr : transport_ok tr -> 18 <= header_size tr <= 30.
Proof.
  intros (Hl & Hr & _). unfold header_size, enc_dh, domainHeader. simpl. autorewrite with wire.
  pose proof (zlen_enc_di _ Hl). pose proof (zlen_enc_di _ Hr). lia.
Qed.

Lemma zlen_enc_hdr tr th cc f :
  TrDomainHeader th = domainHeader tr PacketTypeRouting ->
  zlen (enc_hdr (mkHeader th cc f)) = header_size tr.
Proof.
  intros H. unfold enc_hdr, enc_tr, header_size. simpl. rewrite H. autorewrite with wire. lia.
Qed.

Lemma zlen_enc_nts ns : zlen (concat (map enc_nt ns)) = total_size aurpNetworkTupleSize ns.
Proof.
  induction ns as [|n ns IH]; [done|]. cbn [map concat total_size]. rewrite zlen_app, IH.
  unfold enc_nt, aurpNetworkTupleSize. destruct (nt_Extended n); autorewrite with wire; lia.
Qed.

Lemma zlen_enc_ets es : zlen (concat (map enc_et es)) = total_size aurpEventTupleSize es.
Proof.
  induction es as [|e es IH]; [done|]. cbn [map concat total_size]. rewrite zlen_app, IH.
  unfold enc_et, aurpEventTupleSize. rewrite zlen_cons.
  destruct (et_EventCode e =? EventCodeNull); [autorewrite with wire; lia|].
  destruct (et_Extended e); autorewrite with wire; lia.
Qed.

Lemma rirsp_size tr f ns :
  transport_ok tr -> u16 f -> Forall nt_wf ns ->
  aurpPacketSize (NewRIRspPacket tr f ns) = Ok (header_size tr + total_size aurpNetworkTupleSize ns).
Proof.
  intros Htr Hf Hns. rewrite packet_size by (apply (built_by_wf tr); [done|by constructor]).
  unfold enc_packet. simpl. rewrite zlen_app, (zlen_enc_hdr tr) by done. by rewrite zlen_enc_nts.
Qed.

Lemma riupd_size tr es :
  transport_ok tr -> Forall et_wf es ->
  aurpPacketSize (NewRIUpdPacket tr es) = Ok (header_size tr + total_size aurpEventTupleSize es).
Proof.
  intros Htr Hes. rewrite packet_size by (apply (built_by_wf tr); [done|by constructor]).
  unfold enc_packet. simpl. rewrite zlen_app, (zlen_enc_hdr tr) by done. by rewrite zlen_enc_ets.
Qed.

Lemma payload_budget p n :
  aurpPacketSize p = Ok n -> n < aurpRoutingDatagramBudget ->
  aurpRoutingPayloadBudget p = Ok (aurpRoutingDatagramBudget - n).
Proof. intros H Hn. unfold aurpRoutingPayloadBudget. rewrite H. simpl. by zdec. Qed.

Lemma concat_Forall {A} (P : A -> Prop) cs c : Forall P (concat cs) -> c ∈ cs -> Forall P c.
Proof.
  intros H Hc. induction cs as [|a cs IH]; [by apply elem_of_nil in Hc|].
  simpl in H. apply Forall_app in H as [Ha H]. apply elem_of_cons in Hc as [->|?]; auto.
Qed.

Lemma bool_filter_sublist {A} (f : A -> bool) l : List.filter f l `sublist_of` l.
Proof. induction l as [|a l IH]; simpl; [constructor|]. by case_match; constructor. Qed.

Lemma rirsp_chunks tr ns f :
  transport_ok tr -> Forall nt_wf ns -> u16 f ->
  exists budget cs,
    aurpRoutingPayloadBudget (NewRIRspPacket tr 0 []) = Ok budget /\
    chunkAURPNetworkTuples ns budget = Ok cs /\ concat cs = ns /\ cs <> [] /\
    forall c, c ∈ cs -> exists n, aurpPacketSize (NewRIRspPacket tr f c) = Ok n /\ n <= 1400.
Proof.
  intros Htr Hns Hf. pose proof (header_size_bound tr Htr) as Hh.
  rewrite (payload_budget _ (header_size tr));
    [|rewrite rirsp_size by (done || unfold u16; lia); f_equal; apply Z.add_0_r
     |unfold aurpRoutingDatagramBudget; lia].
  set (b := aurpRoutingDatagramBudget - header_size tr). exists b.
  assert (Hb : 1370 <= b) by (subst b; unfold aurpRoutingDatagramBudget; lia).
  destruct (chunk_loop_spec "network tuple size %d exceeds payload budget %d"
    aurpNetworkTupleSize b [] [] ns) as (cs & H1 & H2 & H3); [|constructor|simpl; lia|].
  { apply Forall_forall. intros t _. unfold aurpNetworkTupleSize. destruct (nt_Extended t); lia. }
  unfold chunkAURPNetworkTuples. zdec. destruct (zlen ns =? 0) eqn:Ez; zbool.
  - exists [[]]. split_and!; [done..| |done|].
    + destruct ns; [done|]. rewrite zlen_cons in Ez. pose proof (zlen_nonneg ns). lia.
    + intros c ->%list_elem_of_singleton. eexists. split; [by apply rirsp_size|]. simpl. lia.
  - exists cs. split_and!; [done..| |].
    { intros ->. simpl in H2. by subst ns. }
    intros c Hc. eexists. split.
    + apply rirsp_size; [done..|]. apply (concat_Forall _ cs); [by rewrite H2|done].
    + rewrite Forall_forall in H3. specialize (H3 c Hc). subst b.
      unfold aurpRoutingDatagramBudget in *. lia.
Qed.

Lemma riupd_chunks tr es :
  transport_ok tr -> Forall et_wf es ->
  exists budget cs,
    aurpRoutingPayloadBudget (NewRIUpdPacket tr []) = Ok budget /\
    chunkAURPEventTuples es budget = Ok cs /\ concat cs = es /\
    forall c, c ∈ cs -> exists n, aurpPacketSize (NewRIUpdPacket tr c) = Ok n /\ n <= 1400.
Proof.
  intros Htr Hes. pose proof (header_size_bound tr Htr) as Hh.
  rewrite (payload_budget _ (header_size tr));
    [|rewrite riupd_size by done; f_equal; apply Z.add_0_r
     |unfold aurpRoutingDatagramBudget; lia].
  set (b := aurpRoutingDatagramBudget - header_size tr). exists b.
  assert (Hb : 1370 <= b) by (subst b; unfold aurpRoutingDatagramBudget; lia).
  destruct (chunk_loop_spec "event tuple size %d exceeds payload budget %d"
    aurpEventTupleSize b [] [] es) as (cs & H1 & H2 & H3); [|constructor|simpl; lia|].
  { apply Forall_forall. intros t _. unfold aurpEventTupleSize. destruct (_ =? _), (et_Extended t); lia. }
  unfold chunkAURPEventTuples. zdec.
  exists cs. split_and!; [done..|]. intros c Hc. eexists. split.
  + apply riupd_size; [done|]. apply (concat_Forall _ cs); [by rewrite H2|done].
  + rewrite Forall_forall in H3. specialize (H3 c Hc). subst b.
    unfold aurpRoutingDatagramBudget in *. lia.
Qed.

(** * Properties *)

(** The single AURP event computed for a change of the best route moves
    the peer's view of the network from the old exported view to the new one;
    when no event is computed the two views are the same. *)
Lemma event_moves_view (b a : Route) :
  match aurpEventForBestTransition b a with
  | Some e => apply_event (export_view b) e = export_view a
  | None => export_view b = export_view a
  end.
Proof.
  pose proof (transition_view b a) as H. by destruct (aurpEventForBestTransition b a); [destruct H|].
Qed.

(** C8: coalescing loses nothing.  For a connected peer subscribed to all
    update events, after any sequence of best-route changes of a network that is
    not hidden from it, the pending events contain at most one event for the
    network, and it moves the peer from the view at the start of the sequence
    to the view at its end. *)
Theorem pending_events_coalesce {GStr : GoStrings} {GS : GoSort} (c : AURPConfig) (p : PeerIdent)
    (s : Z) (r : Route) (rs : list Route) :
  best_of c p s r -> Forall (best_of c p s) rs ->
  let q := queue_run c p r rs {| pendingEvents := ∅; suiFlags := RoutingFlagAllSUI |} in
  let events := (takePendingEvents q).1 in
  (length events <= 1)%nat /\
  foldl apply_event (export_view r) events = export_view (List.last rs r).
Proof.
  intros Hr Hrs q events. apply (queue_events s). apply queue_run_inv; [done..|].
  split; [done|]. by left.
Qed.

(** The routes exported to a peer are exactly the stored routes that are
    the best route of the start of their range, were not learned over AURP
    (split horizon), are nearer than 15 hops and are not hidden from the peer;
    each is exported once, in ascending order. *)
Theorem exported_routes_exact {GStr : GoStrings} {GS : GoSort} (c : AURPConfig) (p : PeerIdent)
    (rt : RouteTable) (now : Z) (r : Route) :
  reachable rt ->
  (r ∈ aurpExportedRoutes c p rt now <->
     stored rt r /\ Lookup rt now (NetStart (rkey r)) = r /\ Zero r = false /\
     o_Kind (route_origin r) <> RouteOriginAURP /\ Distance r < 15 /\
     exportRangeHidden c p (NetStart (rkey r)) (NetEnd r) = false) /\
  NoDup (rkey <$> aurpExportedRoutes c p rt now) /\
  Sorted (cmp_le compareExported) (aurpExportedRoutes c p rt now).
Proof.
  intros Hinv%reachable_inv. unfold aurpExportedRoutes. split_and!.
  - rewrite list_elem_of_In, filter_In, <- list_elem_of_In, elem_of_table_exported by done.
    rewrite negb_true_iff. unfold aurpRouteIsAdvertisable, aurpRouteIsLocal, maxRouteDistance.
    rewrite !andb_true_iff, !negb_true_iff, bool_decide_eq_false, Z.ltb_lt. tauto.
  - eapply sublist_NoDup; [|apply fmap_sublist, bool_filter_sublist].
    unfold table_exported_routes. rewrite sort_func_perm by apply sw_exported.
    apply exported_loop_nodup.
  - apply StronglySorted_Sorted. eapply strongly_sorted_sublist; [apply bool_filter_sublist|].
    apply (sorted_strongly _ sw_exported), sort_func_sorted, sw_exported.
Qed.

(** C12: the initial routing information fits.  Whatever the number of
    networks, the payload budget of an RI-Rsp is positive, chunking succeeds,
    the chunks concatenate to the original list, and every RI-Rsp datagram
    built from a chunk is at most 1400 bytes long; the same holds for the event
    lists of RI-Upd. *)
Theorem routing_info_fits (tr : Transport) (ns : list NetworkTuple) (es : list EventTuple) (f : Z) :
  transport_ok tr -> Forall nt_wf ns -> Forall et_wf es -> u16 f ->
  (exists budget cs,
     aurpRoutingPayloadBudget (NewRIRspPacket tr 0 []) = Ok budget /\
     chunkAURPNetworkTuples ns budget = Ok cs /\ concat cs = ns /\
     forall c, c ∈ cs -> exists n, aurpPacketSize (NewRIRspPacket tr f c) = Ok n /\ n <= 1400) /\
  (exists budget cs,
     aurpRoutingPayloadBudget (NewRIUpdPacket tr []) = Ok budget /\
     chunkAURPEventTuples es budget = Ok cs /\ concat cs = es /\
     forall c, c ∈ cs -> exists n, aurpPacketSize (NewRIUpdPacket tr c) = Ok n /\ n <= 1400).
Proof.
  intros Htr Hns Hes Hf. split; [|by apply riupd_chunks].
  destruct (rirsp_chunks tr ns f Htr Hns Hf) as (b & cs & H1 & H2 & H3 & _ & H4). by exists b, cs.
Qed.

(** ** Witnesses *)

Lemma pending_events_coalesce_witness :
  let r := Lookup wit_rt 5 3 in
  let q := queue_run (GStr := ascii_strings) wit_config wit_ident zero_route [r; zero_route; r]
             {| pendingEvents := ∅; suiFlags := RoutingFlagAllSUI |} in
  let events := (takePendingEvents (GS := insertion_sort) q).1 in
  ((length events <= 1)%nat /\ foldl apply_event (export_view zero_route) events = export_view r) /\
  length events = 1%nat.
Proof.
  split; [|vm_compute; reflexivity].
  apply (pending_events_coalesce (GStr := ascii_strings) (GS := insertion_sort) wit_config wit_ident 3
           zero_route [Lookup wit_rt 5 3; zero_route; Lookup wit_rt 5 3]).
  - left. reflexivity.
  - apply Forall_cons_2; [right; vm_compute; auto|].
    apply Forall_cons_2; [left; reflexivity|].
    apply Forall_cons_2; [right; vm_compute; auto|apply Forall_nil_2].
Defined.

Lemma exported_routes_exact_witness :
  (Lookup wit_rt 5 3 ∈ aurpExportedRoutes (GStr := ascii_strings) (GS := insertion_sort)
       wit_config wit_ident wit_rt 5 <->
     stored wit_rt (Lookup wit_rt 5 3) /\
     Lookup wit_rt 5 (NetStart (rkey (Lookup wit_rt 5 3))) = Lookup wit_rt 5 3 /\
     Zero (Lookup wit_rt 5 3) = false /\
     o_Kind (route_origin (Lookup wit_rt 5 3)) <> RouteOriginAURP /\
     Distance (Lookup wit_rt 5 3) < 15 /\
     exportRangeHidden (GStr := ascii_strings) wit_config wit_ident
       (NetStart (rkey (Lookup wit_rt 5 3))) (NetEnd (Lookup wit_rt 5 3)) = false).
Proof.
  apply (exported_routes_exact (GStr := ascii_strings) (GS := insertion_sort)
           wit_config wit_ident wit_rt 5 (Lookup wit_rt 5 3)).
  exact wit_reachable.
Defined.

Lemma routing_info_fits_witness :
  exists budget cs,
     aurpRoutingPayloadBudget (NewRIRspPacket wit_tr 0 []) = Ok budget /\
     chunkAURPNetworkTuples
       [{| nt_Extended := true; nt_RangeStart := 3; nt_Distance := 1; nt_RangeEnd := 5 |}] budget
       = Ok cs /\
     concat cs = [{| nt_Extended := true; nt_RangeStart := 3; nt_Distance := 1; nt_RangeEnd := 5 |}] /\
     forall c, c ∈ cs -> exists n, aurpPacketSize (NewRIRspPacket wit_tr 0 c) = Ok n /\ n <= 1400.
Proof.
  apply (routing_info_fits wit_tr
    [{| nt_Extended := true; nt_RangeStart := 3; nt_Distance := 1; nt_RangeEnd := 5 |}] [] 0).
  - exact wit_tr_ok.
  - repeat constructor; simpl; lia || discriminate.
  - constructor.
  - unfold u16. lia.
Defined.
