(* ===== verification/PeerState.v ===== *)
(** * The AURP peer: state, effects and zone information
      ([router/aurp_peer.go], [router/aurp_zone.go])

    One peer's [Handle] loop owns the fields of [Peer]; a handler runs in a
    [World] that also has the route table, the packets sent, the outcome of the
    coming UDP writes ([io], a write past the end of the list succeeds), the
    clock, a random number, the notifications for other observers and the loop
    investigations started.  A handler that never returns (a range loop of the
    route table that does not end) is [None].  Logging and Prometheus metrics
    are left out; the peer's own counters are a log of increments. *)
From S2P Require Import Prelude Wtacc AurpHeaders AurpTuples AurpZoneInfo AurpPacket.
From S2P Require Import AurpTransport PeerPolicy GoSort RouteTable RouteTableInv RouteTableOps.
From S2P Require Import RouteTableSpec RouteExport.
Import RT Policy Exp.

Module PS.

Inductive ReceiverState :=
| ReceiverUnconnected | ReceiverConnected | ReceiverWaitForOpenRsp
| ReceiverWaitForRIRsp | ReceiverWaitForTickleAck.

Inductive SenderState :=
| SenderUnconnected | SenderConnected | SenderWaitForRIRspAck
| SenderWaitForRIUpdAck | SenderWaitForRDAck.

#[global] Instance ReceiverState_eq_dec : EqDecision ReceiverState.
Proof. solve_decision. Defined.
#[global] Instance SenderState_eq_dec : EqDecision SenderState.
Proof. solve_decision. Defined.

(** The diagnostic counters a peer increments. *)
Inductive Counter :=
| duplicateRoutingPackets | reacksSent | staleRoutingPackets | futureRoutingPackets
| connectionIDMismatches | lateTickleAcks | senderRouterDowns | receiverRouterDowns
| routerDownAcks | earlyRIUpdates | earlyRIUpdateAcks | extendedZIFragments
| extendedZICompleted | zoneTuplesAccepted | zoneTuplesIgnored | loopIndicativeRoutes
| ddpPacketsOut | ddpBytesOut | hopCountWeightedPackets.

Record ChatLogEntry := { cl_Packet : Packet; cl_Sent : bool; cl_Timestamp : Z }.

(** [pi_lastActivity] is never the zero time. *)
Record pendingAURPZoneInfo := {
  pi_total : Z; pi_zones : gset (list Z); pi_lastActivity : Z }.

(** Times are [option Z]: [None] is the zero [time.Time]. *)
Record Timers := {
  lastReconnect : option Z;
  lastHeardFrom : option Z;
  lastSend : option Z;
  lastUpdate : option Z;
  lastSuccess : option Z;
  nextReconnect : option Z;
  sendRetries : Z;
  reconnectFailures : Z }.

Definition with_lastReconnect (v : option Z) (x : Timers) : Timers :=
  {| lastReconnect := v; lastHeardFrom := lastHeardFrom x; lastSend := lastSend x;
     lastUpdate := lastUpdate x; lastSuccess := lastSuccess x; nextReconnect := nextReconnect x;
     sendRetries := sendRetries x; reconnectFailures := reconnectFailures x |}.
Definition with_lastHeardFrom (v : option Z) (x : Timers) : Timers :=
  {| lastReconnect := lastReconnect x; lastHeardFrom := v; lastSend := lastSend x;
     lastUpdate := lastUpdate x; lastSuccess := lastSuccess x; nextReconnect := nextReconnect x;
     sendRetries := sendRetries x; reconnectFailures := reconnectFailures x |}.
Definition with_lastSend (v : option Z) (x : Timers) : Timers :=
  {| lastReconnect := lastReconnect x; lastHeardFrom := lastHeardFrom x; lastSend := v;
     lastUpdate := lastUpdate x; lastSuccess := lastSuccess x; nextReconnect := nextReconnect x;
     sendRetries := sendRetries x; reconnectFailures := reconnectFailures x |}.
Definition with_lastUpdate (v : option Z) (x : Timers) : Timers :=
  {| lastReconnect := lastReconnect x; lastHeardFrom := lastHeardFrom x;
     lastSend := lastSend x; lastUpdate := v; lastSuccess := lastSuccess x;
     nextReconnect := nextReconnect x; sendRetries := sendRetries x;
     reconnectFailures := reconnectFailures x |}.
Definition with_lastSuccess (v : option Z) (x : Timers) : Timers :=
  {| lastReconnect := lastReconnect x; lastHeardFrom := lastHeardFrom x;
     lastSend := lastSend x; lastUpdate := lastUpdate x; lastSuccess := v;
     nextReconnect := nextReconnect x; sendRetries := sendRetries x;
     reconnectFailures := reconnectFailures x |}.
Definition with_nextReconnect (v : option Z) (x : Timers) : Timers :=
  {| lastReconnect := lastReconnect x; lastHeardFrom := lastHeardFrom x;
     lastSend := lastSend x; lastUpdate := lastUpdate x; lastSuccess := lastSuccess x;
     nextReconnect := v; sendRetries := sendRetries x; reconnectFailures := reconnectFailures x
     |}.
Definition with_sendRetries (v : Z) (x : Timers) : Timers :=
  {| lastReconnect := lastReconnect x; lastHeardFrom := lastHeardFrom x;
     lastSend := lastSend x; lastUpdate := lastUpdate x; lastSuccess := lastSuccess x;
     nextReconnect := nextReconnect x; sendRetries := v; reconnectFailures := reconnectFailures x
     |}.
Definition with_reconnectFailures (v : Z) (x : Timers) : Timers :=
  {| lastReconnect := lastReconnect x; lastHeardFrom := lastHeardFrom x;
     lastSend := lastSend x; lastUpdate := lastUpdate x; lastSuccess := lastSuccess x;
     nextReconnect := nextReconnect x; sendRetries := sendRetries x; reconnectFailures := v |}.

(** Our side as data sender: the outstanding sequenced packet, the chunks still to
    be sent and the queue of changes. *)
Record Sender := {
  sstate : SenderState;
  queue : EventQueue;
  pendingRIRsp : list (list NetworkTuple);
  pendingRIUpd : list (list EventTuple);
  lastRISent : option Packet;
  restartProbe : bool }.

Definition with_sstate (v : SenderState) (x : Sender) : Sender :=
  {| sstate := v; queue := queue x; pendingRIRsp := pendingRIRsp x;
     pendingRIUpd := pendingRIUpd x; lastRISent := lastRISent x; restartProbe := restartProbe x
     |}.
Definition with_queue (v : EventQueue) (x : Sender) : Sender :=
  {| sstate := sstate x; queue := v; pendingRIRsp := pendingRIRsp x;
     pendingRIUpd := pendingRIUpd x; lastRISent := lastRISent x; restartProbe := restartProbe x
     |}.
Definition with_pendingRIRsp (v : list (list NetworkTuple)) (x : Sender) : Sender :=
  {| sstate := sstate x; queue := queue x; pendingRIRsp := v; pendingRIUpd := pendingRIUpd x;
     lastRISent := lastRISent x; restartProbe := restartProbe x |}.
Definition with_pendingRIUpd (v : list (list EventTuple)) (x : Sender) : Sender :=
  {| sstate := sstate x; queue := queue x; pendingRIRsp := pendingRIRsp x; pendingRIUpd := v;
     lastRISent := lastRISent x; restartProbe := restartProbe x |}.
Definition with_lastRISent (v : option Packet) (x : Sender) : Sender :=
  {| sstate := sstate x; queue := queue x; pendingRIRsp := pendingRIRsp x;
     pendingRIUpd := pendingRIUpd x; lastRISent := v; restartProbe := restartProbe x |}.
Definition with_restartProbe (v : bool) (x : Sender) : Sender :=
  {| sstate := sstate x; queue := queue x; pendingRIRsp := pendingRIRsp x;
     pendingRIUpd := pendingRIUpd x; lastRISent := lastRISent x; restartProbe := v |}.

(** Our side as data receiver. *)
Record Receiver := {
  rstate : ReceiverState;
  pendingZoneInfo : gmap Z pendingAURPZoneInfo }.

Definition with_rstate (v : ReceiverState) (x : Receiver) : Receiver :=
  {| rstate := v; pendingZoneInfo := pendingZoneInfo x |}.
Definition with_pendingZoneInfo (v : gmap Z pendingAURPZoneInfo) (x : Receiver) : Receiver :=
  {| rstate := rstate x; pendingZoneInfo := v |}.

Record Diagnostics := {
  counters : list (Counter * Z);
  chatLog : list ChatLogEntry }.

Definition with_counters (v : list (Counter * Z)) (x : Diagnostics) : Diagnostics :=
  {| counters := v; chatLog := chatLog x |}.
Definition with_chatLog (v : list ChatLogEntry) (x : Diagnostics) : Diagnostics :=
  {| counters := counters x; chatLog := v |}.

(** The struct [AURPPeer]; [pid] names it as a route-table observer. *)
Record Peer := {
  pid : positive;
  ident : PeerIdent;
  timing : AURPConfig;
  tr : Transport;
  snd : Sender;
  rcv : Receiver;
  tm : Timers;
  diag : Diagnostics;
  loopDisabled : bool }.

Definition with_tr (v : Transport) (x : Peer) : Peer :=
  {| pid := pid x; ident := ident x; timing := timing x; tr := v; snd := snd x; rcv := rcv x;
     tm := tm x; diag := diag x; loopDisabled := loopDisabled x |}.
Definition with_snd (v : Sender) (x : Peer) : Peer :=
  {| pid := pid x; ident := ident x; timing := timing x; tr := tr x; snd := v; rcv := rcv x;
     tm := tm x; diag := diag x; loopDisabled := loopDisabled x |}.
Definition with_rcv (v : Receiver) (x : Peer) : Peer :=
  {| pid := pid x; ident := ident x; timing := timing x; tr := tr x; snd := snd x; rcv := v;
     tm := tm x; diag := diag x; loopDisabled := loopDisabled x |}.
Definition with_tm (v : Timers) (x : Peer) : Peer :=
  {| pid := pid x; ident := ident x; timing := timing x; tr := tr x; snd := snd x;
     rcv := rcv x; tm := v; diag := diag x; loopDisabled := loopDisabled x |}.
Definition with_diag (v : Diagnostics) (x : Peer) : Peer :=
  {| pid := pid x; ident := ident x; timing := timing x; tr := tr x; snd := snd x;
     rcv := rcv x; tm := tm x; diag := v; loopDisabled := loopDisabled x |}.
Definition with_loopDisabled (v : bool) (x : Peer) : Peer :=
  {| pid := pid x; ident := ident x; timing := timing x; tr := tr x; snd := snd x;
     rcv := rcv x; tm := tm x; diag := diag x; loopDisabled := v |}.

Record World := {
  pr : Peer;
  rtab : RouteTable;
  sent : list Packet;
  io : list bool;
  now : Z;
  rnd : Z;
  others : list (positive * Note);
  loops : list (Route * Route) }.

Definition with_pr (v : Peer) (x : World) : World :=
  {| pr := v; rtab := rtab x; sent := sent x; io := io x; now := now x; rnd := rnd x;
     others := others x; loops := loops x |}.
Definition with_rtab (v : RouteTable) (x : World) : World :=
  {| pr := pr x; rtab := v; sent := sent x; io := io x; now := now x; rnd := rnd x;
     others := others x; loops := loops x |}.
Definition with_sent (v : list Packet) (x : World) : World :=
  {| pr := pr x; rtab := rtab x; sent := v; io := io x; now := now x; rnd := rnd x;
     others := others x; loops := loops x |}.
Definition with_io (v : list bool) (x : World) : World :=
  {| pr := pr x; rtab := rtab x; sent := sent x; io := v; now := now x; rnd := rnd x;
     others := others x; loops := loops x |}.
Definition with_now (v : Z) (x : World) : World :=
  {| pr := pr x; rtab := rtab x; sent := sent x; io := io x; now := v; rnd := rnd x;
     others := others x; loops := loops x |}.
Definition with_rnd (v : Z) (x : World) : World :=
  {| pr := pr x; rtab := rtab x; sent := sent x; io := io x; now := now x; rnd := v;
     others := others x; loops := loops x |}.
Definition with_others (v : list (positive * Note)) (x : World) : World :=
  {| pr := pr x; rtab := rtab x; sent := sent x; io := io x; now := now x; rnd := rnd x;
     others := v; loops := loops x |}.
Definition with_loops (v : list (Route * Route)) (x : World) : World :=
  {| pr := pr x; rtab := rtab x; sent := sent x; io := io x; now := now x; rnd := rnd x;
     others := others x; loops := v |}.


(** ** The monad *)

Definition M (A : Type) : Type := World -> option (World * A).

#[global] Instance M_ret : MRet M := fun A a w => Some (w, a).
#[global] Instance M_bind : MBind M := fun A B f m w =>
  match m w with Some (w', a) => f a w' | None => None end.

(** A Go [error] result: [None] is nil. *)
Abbreviation error := (option goerr).

Definition get {A} (f : World -> A) : M A := fun w => Some (w, f w).
Definition getp {A} (f : Peer -> A) : M A := fun w => Some (w, f (pr w)).
Definition modw (f : World -> World) : M unit := fun w => Some (f w, tt).
Definition modp (f : Peer -> Peer) : M unit := modw (fun w => with_pr (f (pr w)) w).
Definition mods (f : Sender -> Sender) : M unit := modp (fun p => with_snd (f (snd p)) p).
Definition modr (f : Receiver -> Receiver) : M unit := modp (fun p => with_rcv (f (rcv p)) p).
Definition modtm (f : Timers -> Timers) : M unit := modp (fun p => with_tm (f (tm p)) p).
Definition modtr (f : Transport -> Transport) : M unit := modp (fun p => with_tr (f (tr p)) p).
Definition modq (f : EventQueue -> EventQueue) : M unit :=
  mods (fun s => with_queue (f (queue s)) s).
Definition bump (c : Counter) (n : Z) : M unit :=
  modp (fun p => with_diag (with_counters (counters (diag p) ++ [(c, n)]) (diag p)) p).

(** [if err := e; err != nil { return err }; k]. *)
Notation "'try' e ;; k" :=
  (e ≫= fun err : error => match err with Some er => mret (Some er) | None => k end)
  (at level 100, e at level 90, k at level 200, right associativity) : go_scope.
#[local] Open Scope go_scope.

Definition setRState (s : ReceiverState) : M unit := modr (with_rstate s).
Definition setSState (s : SenderState) : M unit := mods (with_sstate s).
Definition storeSendRetries (n : Z) : M unit := modtm (with_sendRetries n).
Definition storeLastSend : M unit :=
  n ← get now; modtm (with_lastSend (Some n)).
Definition markReceiverAlive : M unit :=
  n ← get now; modtm (with_lastHeardFrom (Some n)).

(** ** Configuration values *)

Definition second : Z := 1000000000.
Definition lastHeardFromTimer : Z := 90 * second.
Definition tickleRetryLimit : Z := 10.
Definition sendRetryTimer : Z := 10 * second.
Definition sendRetryLimit : Z := 5.
Definition reconnectBackoffBase : Z := 10 * 60 * second.
Definition reconnectBackoffCap : Z := 2 * 60 * 60 * second.
Definition reconnectJitterPct : Z := 10.
Definition updateRateUnit : Z := 10 * second.
Definition updateTimer : Z := updateRateUnit.
Definition tickleBeforeDataTime : Z := 2 * 60 * second.
Definition aurpZoneInfoRetryTimer : Z := 10 * second.
Definition chatLogLimit : Z := 200.

Definition lastHeardTimeout (p : Peer) : Z :=
  if 0 <? LastHeardFromTimeout (timing p) then LastHeardFromTimeout (timing p)
  else lastHeardFromTimer.
Definition retryInterval (p : Peer) : Z :=
  if 0 <? RetryInterval (timing p) then RetryInterval (timing p) else sendRetryTimer.
Definition routingRetryLimit (p : Peer) : Z :=
  if 0 <? SendRetryLimit (timing p) then SendRetryLimit (timing p) else sendRetryLimit.
Definition tickleRetriesLimit (p : Peer) : Z :=
  if 0 <? TickleRetryLimit (timing p) then TickleRetryLimit (timing p) else tickleRetryLimit.
Definition zoneInfoRetryInterval (p : Peer) : Z :=
  if 0 <? ZoneInfoRetryInterval (timing p) then ZoneInfoRetryInterval (timing p)
  else aurpZoneInfoRetryTimer.
Definition updateInterval (p : Peer) : Z :=
  if 0 <? UpdateInterval (timing p) then UpdateInterval (timing p) else updateTimer.

(** Go's integer division truncates towards zero. *)
Definition openResponseRate (p : Peer) : Z :=
  let units := Z.quot (updateInterval p) updateRateUnit in
  let units := if units <? 1 then 1 else units in
  if 0x7fff <? units then 0x7fff else units.

(** [time.Since(t) > d]; a zero time is longer ago than any interval. *)
Definition elapsed (now : Z) (t : option Z) (d : Z) : bool :=
  match t with Some t => d <? now - t | None => true end.

(** ** Sending *)

Definition addToChatLog (pkt : Packet) (sent_ : bool) : M unit :=
  n ← get now;
  modp (fun p =>
    let l := chatLog (diag p)
             ++ [{| cl_Packet := pkt; cl_Sent := sent_; cl_Timestamp := n |}] in
    with_diag (with_chatLog (drop (Z.to_nat (Z.max 0 (zlen l - chatLogLimit))) l) (diag p)) p).

Definition is_routing (pkt : Packet) : bool :=
  match pkt with AppleTalkPacket _ _ => false | _ => true end.

(** The UDP write: it takes the next outcome from [io]. *)
Definition udp_write (pkt : Packet) : M error := fun w =>
  match io w with
  | false :: rest => Some (with_io rest w, Some (Errorf "write udp" []))
  | true :: rest => Some (with_sent (sent w ++ [pkt]) (with_io rest w), None)
  | [] => Some (with_sent (sent w ++ [pkt]) w, None)
  end.

Definition send (pkt : Packet) : M error :=
  _ ← (if is_routing pkt then addToChatLog pkt true else mret tt);
  let '(_, (_, err)) := Packet_WriteTo pkt [] in
  match err with
  | Some e => mret (Some e)
  | None => _ ← storeLastSend; udp_write pkt
  end.

(** Send a packet built from the transport. *)
Definition send_tr (f : Transport -> Packet) : M error :=
  t ← getp tr; send (f t).

(** ** The route table seen from the peer *)

Definition self (p : Peer) : RouteTarget := AURPPeer (tunnelID (ident p)).

Section Peer.
Context {GStr : GoStrings} {GS : GoSort}.

Definition openResponseEnvironmentFlags (p : Peer) : Z :=
  let flags := if hasRemapRuleForPeer (timing p) (ident p)
               then Z.lor 0 RoutingFlagRemappingActive else 0 in
  if HopCountReduction (timing p) then Z.lor flags RoutingFlagHopCountReduction else flags.

Definition deliver (e : Note) (p : Peer) : Peer :=
  with_snd (with_queue
    (observe (timing p) (ident p) (bool_decide (sstate (snd p) = SenderUnconnected)) e
       (queue (snd p))) (snd p)) p.

(** Notifications reach this peer's queue at once; those of other observers
    are recorded. *)
Fixpoint deliver_all (notes : list (positive * Note)) (w : World) : World :=
  match notes with
  | [] => w
  | (o, e) :: notes =>
      deliver_all notes
        (if bool_decide (o = pid (pr w)) then with_pr (deliver e (pr w)) w
         else with_others (others w ++ [(o, e)]) w)
  end.

(** Run a route-table operation that may not return. *)
Definition table_op {A} (f : Z -> RouteTarget -> RouteTable -> option (A * RouteTable * list (positive * Note)))
    : M A := fun w =>
  match f (now w) (self (pr w)) (rtab w) with
  | Some (a, rt', notes) => Some (deliver_all notes (with_rtab rt' w), a)
  | None => None
  end.

Definition table_upsert (ext : bool) (s e d : Z) : M (res Route) :=
  table_op (fun n t rt => UpsertRoute n t ext s e d rt).
Definition table_delete (s : Z) : M (res unit) := table_op (fun n t rt => DeleteRoute n t s rt).
Definition table_update (s d : Z) : M (res unit) := table_op (fun n t rt => UpdateDistance n t s d rt).
Definition table_delete_target : M unit :=
  table_op (fun n t rt =>
    match DeleteTarget n t rt with Some (rt', notes) => Some (tt, rt', notes) | None => None end).
Definition table_replace_zones (net : Z) (zs : list (list Z)) : M unit :=
  table_op (fun n _ rt => let '(rt', notes) := ReplaceZonesForNetwork n net zs rt in
                          Some (tt, rt', notes)).
Definition table_find (s : Z) : M Route := get (fun w => find (rtab w) (self (pr w)) s).

Definition RemoveObserver_self : M unit :=
  modw (fun w => with_rtab (RemoveObserver (pid (pr w)) (rtab w)) w).
Definition AddObserver_self : M unit :=
  modw (fun w => with_rtab (AddObserver (pid (pr w)) (rtab w)) w).

(** ** Distances and reconnection *)

Fixpoint first_penalty (p : PeerIdent) (rules : list AURPBackupPeerRule) : Z :=
  match rules with
  | [] => 0
  | r :: rules => if peerSelectorMatches (bp_Peer r) p then bp_Penalty r else first_penalty p rules
  end.

Definition backupRoutePenalty (p : Peer) : Z := first_penalty (ident p) (BackupPeers (timing p)).

Definition weightedAURPDistance (p : Peer) (advertised : Z) : option Z :=
  if maxRouteDistance <=? advertised then None
  else
    let distance := wrap16 (wrap16 (wrap16 (advertised + 1) + HopCountWeight (timing p))
                            + backupRoutePenalty p) in
    if maxRouteDistance <? distance then None else Some (wrap8 distance).

(** The doubling loop; [failures - 1] iterations at most. *)
Fixpoint backoff_loop (k : nat) (d : Z) : Z :=
  match k with
  | O => Z.min d reconnectBackoffCap
  | S k =>
      if d <? reconnectBackoffCap then
        let d := d * 2 in
        if reconnectBackoffCap <=? d then reconnectBackoffCap else backoff_loop k d
      else Z.min d reconnectBackoffCap
  end.

Definition reconnectBackoff (failures : Z) : Z :=
  if failures <=? 0 then 0 else backoff_loop (Z.to_nat (failures - 1)) reconnectBackoffBase.

(** [rand.Int64N(2*span+1)] is [r mod (2*span+1)] for the random number [r]. *)
Definition jitterReconnectBackoff (r d : Z) : Z :=
  if d <=? 0 then 0
  else
    let span := Z.quot (d * reconnectJitterPct) 100 in
    if span <=? 0 then d else d + (r mod (2 * span + 1) - span).

(** [atomic.Int32] wraps around. *)
Definition wrap_i32 (z : Z) : Z := (z + 2147483648) mod 4294967296 - 2147483648.

Definition noteReconnectFailure : M unit :=
  n ← get now; r ← get rnd;
  _ ← modtm (fun t => with_reconnectFailures (wrap_i32 (reconnectFailures t + 1)) t);
  failures ← getp (fun p => reconnectFailures (tm p));
  let delay := jitterReconnectBackoff r (reconnectBackoff failures) in
  modtm (with_nextReconnect (Some (n + delay))).

Definition resetReconnectBackoff : M unit :=
  modtm (fun t => with_nextReconnect None (with_reconnectFailures 0 t)).

Definition reconnectReady (now : Z) (p : Peer) : bool :=
  match nextReconnect (tm p) with None => true | Some next => negb (now <? next) end.

(** ** Disconnecting *)

Definition disconnectReceiver : M unit :=
  _ ← table_delete_target;
  _ ← modtr ResetRemoteSeq;
  _ ← modtr IncLocalConnID;
  _ ← modr (with_pendingZoneInfo ∅);
  setRState ReceiverUnconnected.

Definition disconnectSender : M unit :=
  _ ← modtr ResetLocalSeq;
  _ ← modtr (SetRemoteConnID 0);
  _ ← mods (with_pendingRIRsp []);
  _ ← mods (with_pendingRIUpd []);
  _ ← mods (with_lastRISent None);
  _ ← mods (with_restartProbe false);
  _ ← modq (set_pending ∅);
  setSState SenderUnconnected.

Definition disconnect : M unit := _ ← disconnectReceiver; disconnectSender.
End Peer.
End PS.
