(* ===== verification/PeerZones.v ===== *)
(** * Zone information exchange ([router/aurp_zone.go])

    Building ZI-Req and ZI-Rsp datagrams within the budget, and assembling the
    zone lists of networks learned from the peer. *)
From S2P Require Import Prelude Wtacc AurpHeaders AurpTuples AurpZoneInfo AurpPacket.
From S2P Require Import AurpTransport PeerPolicy GoSort RouteTable RouteTableInv RouteTableOps.
From S2P Require Import RouteTableSpec RouteExport PeerState.
Import RT Policy Exp PS.
#[local] Open Scope go_scope.

Module Zones.
Section Zones.
Context {GStr : GoStrings} {GS : GoSort}.

Definition markZoneInfoPending (network : Z) : M unit :=
  n ← get now;
  modr (fun r =>
    match pendingZoneInfo r !! network with
    | Some _ => r
    | None => with_pendingZoneInfo
        (<[network := {| pi_total := 0; pi_zones := ∅; pi_lastActivity := n |}]>
           (pendingZoneInfo r)) r
    end).

Definition clearPendingZoneInfo (network : Z) : M unit :=
  modr (fun r => with_pendingZoneInfo (delete network (pendingZoneInfo r)) r).

(** [slices.Compact]: drop repeated neighbours. *)
Fixpoint compact (l : list Z) : list Z :=
  match l with
  | a :: (b :: _) as l' => if a =? b then compact l' else a :: compact l'
  | l => l
  end.

(** The splitting loop of [buildZIReqPackets]. *)
Fixpoint split_networks (fuel : nat) (maxNetworks : Z) (networks : list Z) : list (list Z) :=
  match fuel with
  | O => []
  | S f =>
      if 0 <? zlen networks then
        let n := Z.to_nat (Z.min (zlen networks) maxNetworks) in
        take n networks :: split_networks f maxNetworks (drop n networks)
      else []
  end.

Definition buildZIReqPackets (t : Transport) (networks : list Z) : res (list Packet) :=
  if zlen networks =? 0 then Ok []
  else
    let networks := compact (sort_func Z.compare networks) in
    baseSize ← aurpPacketSize (NewZIReqPacket t []);
    let maxNetworks := Z.quot (aurpRoutingDatagramBudget - baseSize) 2 in
    if maxNetworks <=? 0 then
      Err (Errorf "ZI-Req header size %d exceeds datagram budget %d"
             [AInt baseSize; AInt aurpRoutingDatagramBudget])
    else Ok (map (NewZIReqPacket t) (split_networks (length networks) maxNetworks networks)).

Definition dedupeSortedZones (zones : list (list Z)) : list (list Z) :=
  sort_func bytes_compare
    (elements (list_to_set (filter (fun z => z <> []) zones) : gset (list Z))).

(** The chunking loop of an extended ZI-Rsp, with its [flush]. *)
Fixpoint ext_zone_chunks (network budget : Z) (chunk : list ZoneTuple) (chunkSize : Z)
    (zones : list (list Z)) : res (list (list ZoneTuple)) :=
  match zones with
  | [] => Ok (if zlen chunk =? 0 then [] else [chunk])
  | zone :: zones =>
      let tupleSize := 3 + zlen zone in
      if budget <? tupleSize then
        Err (Errorf "zone %q tuple size %d exceeds extended ZI-Rsp payload budget %d"
               [AStr zone; AInt tupleSize; AInt budget])
      else
        let zt := {| zt_Network := network; zt_Name := zone |} in
        if (0 <? zlen chunk) && (budget <? chunkSize + tupleSize) then
          rest ← ext_zone_chunks network budget [zt] tupleSize zones; Ok (chunk :: rest)
        else ext_zone_chunks network budget (chunk ++ [zt]) (chunkSize + tupleSize) zones
  end.

(** The packets for one network. *)
Definition network_zi_rsp (t : Transport) (network : Z) (zones : list (list Z)) :
    res (list Packet) :=
  let zones := dedupeSortedZones zones in
  if zlen zones =? 0 then Ok []
  else
    let nonext := NewZIRspPacket t [(network, zones)] in
    size ← aurpPacketSize nonext;
    if size <=? aurpRoutingDatagramBudget then Ok [nonext]
    else
      let total := zlen zones in
      if 65535 <? total then
        Err (Errorf "network %d has too many zones for extended ZI-Rsp: %d"
               [AInt network; AInt total])
      else
        baseSize ← aurpPacketSize (NewExtendedZIRspPacket t (wrap16 total) []);
        let budget := aurpRoutingDatagramBudget - baseSize in
        if budget <=? 0 then
          Err (Errorf "extended ZI-Rsp header size %d exceeds datagram budget %d"
                 [AInt baseSize; AInt aurpRoutingDatagramBudget])
        else
          chunks ← ext_zone_chunks network budget [] 0 zones;
          Ok (map (NewExtendedZIRspPacket t (wrap16 total)) chunks).

Fixpoint zi_rsp_networks (t : Transport) (zoneLists : gmap Z (list (list Z)))
    (networks : list Z) : res (list Packet) :=
  match networks with
  | [] => Ok []
  | n :: networks =>
      ps ← network_zi_rsp t n (default [] (zoneLists !! n));
      rest ← zi_rsp_networks t zoneLists networks;
      Ok (ps ++ rest)
  end.

Definition buildZIRspPackets (t : Transport) (zoneLists : gmap Z (list (list Z))) :
    res (list Packet) :=
  zi_rsp_networks t zoneLists (sort_func Z.compare (map_to_list zoneLists).*1).

Fixpoint send_all (pkts : list Packet) : M error :=
  match pkts with
  | [] => mret None
  | p :: pkts => try send p;; send_all pkts
  end.

(** The builders return a value or an error, never a panic. *)
Definition send_built (r : res (list Packet)) : M error :=
  match r with
  | Ok pkts => send_all pkts
  | Err e => mret (Some e)
  | Panic => fun _ => None
  end.

Definition sendZIRspPackets (zoneLists : gmap Z (list (list Z))) : M error :=
  t ← getp tr; send_built (buildZIRspPackets t zoneLists).

Definition ownsAURPNetwork (w : World) (network : Z) : bool :=
  negb (Zero (find (rtab w) (self (pr w)) network)).

Definition needsZoneInfo (w : World) (network : Z) : bool :=
  let route := find (rtab w) (self (pr w)) network in
  negb (Zero route) && (zlen (route_zone_names (rtab w) route) =? 0).

Definition routeRangeSize (r : Route) : Z :=
  if Zero r || (NetEnd r <? NetStart (rkey r)) then 0
  else NetEnd r - NetStart (rkey r) + 1.

Definition loopIndicativeMatch (w : World) (network : Z) : option (Route * Route) :=
  let remote := find (rtab w) (self (pr w)) network in
  if Zero remote || (routeRangeSize remote =? 0) then None
  else
    let remoteZones := dedupeSortedZones (route_zone_names (rtab w) remote) in
    if zlen remoteZones =? 0 then None
    else
      match List.find (fun local =>
        (routeRangeSize local =? routeRangeSize remote) &&
        bool_decide (dedupeSortedZones (route_zone_names (rtab w) local) = remoteZones))
        (ValidRoutesForClass (rtab w) (now w) TargetClassDirect) with
      | Some local => Some (remote, local)
      | None => None
      end.

(** The investigation itself ([aurp_loop.go]) is not modelled. *)
Definition noteLoopIndicativeNetwork (network : Z) : M bool :=
  m ← get (fun w => loopIndicativeMatch w network);
  match m with
  | None => mret false
  | Some rl =>
      _ ← bump loopIndicativeRoutes 1;
      _ ← modw (fun w => with_loops (loops w ++ [rl]) w);
      mret true
  end.

(** ** Retrying *)

(** The scan of [pendingZoneInfo]: entries of networks no longer owned are
    dropped; the result lists the entries due, as (remote, local) numbers. *)
Fixpoint scan_pending (entries : list (Z * pendingAURPZoneInfo)) : M (list (Z * Z)) :=
  match entries with
  | [] => mret []
  | (network, pending) :: entries =>
      owns ← get (fun w => ownsAURPNetwork w network);
      if negb owns then _ ← clearPendingZoneInfo network; scan_pending entries
      else
        n ← get now; p ← getp id;
        if n - pi_lastActivity pending <? zoneInfoRetryInterval p then scan_pending entries
        else
          let '(remote, _) := remapOutboundNetwork (timing p) (ident p) network in
          rest ← scan_pending entries;
          mret ((remote, network) :: rest)
  end.

Definition touch_pending (n : Z) (network : Z) (m : gmap Z pendingAURPZoneInfo) :
    gmap Z pendingAURPZoneInfo :=
  alter (fun pi => {| pi_total := pi_total pi; pi_zones := pi_zones pi; pi_lastActivity := n |})
    network m.

Definition retryIncompleteZoneInfo : M error :=
  pend ← getp (fun p => pendingZoneInfo (rcv p));
  if bool_decide (pend = ∅) then mret None
  else
    due ← scan_pending (map_to_list pend);
    if zlen due =? 0 then mret None
    else
      t ← getp tr;
      try send_built (buildZIReqPackets t due.*1);;
      n ← get now;
      _ ← modr (fun r => with_pendingZoneInfo
            (foldl (fun m net => touch_pending n net m) (pendingZoneInfo r) due.*2) r);
      mret None.

(** ** Applying ZI-Rsp *)

(** The grouping loop: tuples of networks not owned are counted as ignored. *)
Fixpoint group_zones (w : World) (zones : list ZoneTuple)
    (grouped : gmap Z (list (list Z))) (ignored : Z) : gmap Z (list (list Z)) * Z :=
  match zones with
  | [] => (grouped, ignored)
  | zt :: zones =>
      let '(network, _) := remapInboundNetwork (timing (pr w)) (ident (pr w)) (zt_Network zt) in
      if negb (ownsAURPNetwork w network) then group_zones w zones grouped (ignored + 1)
      else group_zones w zones
             (<[network := default [] (grouped !! network) ++ [zt_Name zt]]> grouped) ignored
  end.

Fixpoint apply_groups (groups : list (Z * list (list Z))) (accepted : Z) : M Z :=
  match groups with
  | [] => mret accepted
  | (network, zones) :: groups =>
      _ ← table_replace_zones network (dedupeSortedZones zones);
      _ ← clearPendingZoneInfo network;
      _ ← noteLoopIndicativeNetwork network;
      apply_groups groups (accepted + zlen zones)
  end.

(** Returns (accepted, ignored). *)
Definition applyNonExtendedZIRsp (zones : list ZoneTuple) : M (Z * Z) :=
  g ← get (fun w => group_zones w zones ∅ 0);
  let '(grouped, ignored) := g in
  accepted ← apply_groups (map_to_list grouped) 0;
  mret (accepted, ignored).

(** The end of [applyExtendedZIRsp]: store the assembled set and, once it has the
    declared number of names, install it. *)
Definition assemble (network total : Z) (zones : gset (list Z)) (n : Z) : M (bool * Z * error) :=
  _ ← modr (fun r => with_pendingZoneInfo
        (<[network := {| pi_total := total; pi_zones := zones; pi_lastActivity := n |}]>
           (pendingZoneInfo r)) r);
  let count := Z.of_nat (size zones) in
  if total <? count then
    _ ← clearPendingZoneInfo network;
    mret (false, network, Some (Errorf
      "extended ZI-Rsp for network %d exceeded declared tuple count %d"
      [AInt network; AInt total]))
  else if count <? total then mret (false, network, None)
  else
    _ ← table_replace_zones network (sort_func bytes_compare (elements zones));
    _ ← clearPendingZoneInfo network;
    _ ← noteLoopIndicativeNetwork network;
    mret (true, network, None).

(** Returns (complete, network, error). *)
Definition applyExtendedZIRsp (totalTuples : Z) (zones : list ZoneTuple) : M (bool * Z * error) :=
  match zones with
  | [] => mret (false, 0, None)
  | zt0 :: _ =>
      p ← getp id;
      let remap n := (remapInboundNetwork (timing p) (ident p) n).1 in
      let network := remap (zt_Network zt0) in
      owns ← get (fun w => ownsAURPNetwork w network);
      if negb owns then mret (false, network, None)
      else if totalTuples =? 0 then
        mret (false, network, Some (Errorf
          "extended ZI-Rsp for network %d has zero total tuple count" [AInt network]))
      else
        match List.find (fun zt => negb (remap (zt_Network zt) =? network)) zones with
        | Some zt => mret (false, network, Some (Errorf
            "extended ZI-Rsp mixed network %d with %d"
            [AInt network; AInt (remap (zt_Network zt))]))
        | None =>
            let pending := pendingZoneInfo (rcv p) !! network in
            n ← get now;
            match pending with
            | Some pi =>
                if negb (pi_total pi =? 0) && negb (pi_total pi =? totalTuples) then
                  mret (false, network, Some (Errorf
                    "extended ZI-Rsp for network %d changed total tuple count from %d to %d"
                    [AInt network; AInt (pi_total pi); AInt totalTuples]))
                else
                  let total := if pi_total pi =? 0 then totalTuples else pi_total pi in
                  assemble network total
                    (pi_zones pi ∪ list_to_set (filter (fun z => z <> []) (map zt_Name zones))) n
            | None =>
                assemble network totalTuples
                  (list_to_set (filter (fun z => z <> []) (map zt_Name zones))) n
            end
        end
  end.
End Zones.
End Zones.
