(* ===== verification/PeerFSM.v ===== *)
(** * The AURP peer state machine ([router/aurp_peer.go])

    The packet handlers, the two tickers and the events of the [Handle] loop,
    each as one definition, and [Handle] itself over the events it receives. *)
From S2P Require Import Prelude Wtacc AurpHeaders AurpTuples AurpZoneInfo AurpPacket.
From S2P Require Import AurpTransport PeerPolicy GoSort RouteTable RouteTableInv RouteTableOps.
From S2P Require Import RouteTableSpec RouteExport PeerState PeerZones.
Import RT Policy Exp PS Zones.
#[local] Open Scope go_scope.

Module FSM.

(** Outcome of the header checks: continue, [errDropPacket], or another error. *)
Inductive check := CkOk | CkDrop | CkErr (e : goerr).

Section FSM.
Context {GStr : GoStrings} {GS : GoSort}.

(** [if err := check; err != nil { if err == errDropPacket { return nil }; return err }]. *)
Definition checked (c : M check) (k : M error) : M error :=
  r ← c;
  match r with CkOk => k | CkDrop => mret None | CkErr e => mret (Some e) end.

Definition checkLocalConnID (h : TrHeader) : M check :=
  want ← getp (fun p => localConnID (tr p));
  if negb (ConnectionID h =? want) then _ ← bump connectionIDMismatches 1; mret CkDrop
  else mret CkOk.

Definition checkRemoteConnID (h : TrHeader) : M check :=
  want ← getp (fun p => remoteConnID (tr p));
  if want =? 0 then mret CkOk
  else if negb (ConnectionID h =? want) then _ ← bump connectionIDMismatches 1; mret CkDrop
  else mret CkOk.

Definition checkRemoteSeqWithAckFlags (h : TrHeader) (duplicateAckFlags : Z) : M check :=
  want ← getp (fun p => remoteSeq (tr p));
  let got := Sequence h in
  if got =? Pred want then
    _ ← bump duplicateRoutingPackets 1;
    err ← send_tr (fun t => NewRIAckPacket t (ConnectionID h) (Sequence h) duplicateAckFlags);
    match err with
    | Some e => mret (CkErr e)
    | None => _ ← bump reacksSent 1; mret CkDrop
    end
  else if got =? want then mret CkOk
  else if got =? Succ want then
    _ ← bump futureRoutingPackets 1;
    _ ← disconnectReceiver;
    mret CkDrop
  else _ ← bump staleRoutingPackets 1; mret CkDrop.

Definition checkRemoteSeq (h : TrHeader) : M check :=
  checkRemoteSeqWithAckFlags h RoutingFlagSendZoneInfo.

(** ** Data sender *)

(** An RI-Upd with a single null event probes the connection. *)
Definition null_update (t : Transport) : Packet := NewRIUpdPacket t [zero_event EventCodeNull].

Definition nextRIRspPacket (advanceSequence : bool) : M (res Packet) :=
  chunks ← getp (fun p => pendingRIRsp (snd p));
  match chunks with
  | [] => mret (Err (Errorf "no RI-Rsp chunks pending" []))
  | chunk :: rest =>
      _ ← (if advanceSequence then modtr IncLocalSeq else mret tt);
      _ ← mods (with_pendingRIRsp rest);
      let flags := if zlen rest =? 0 then RoutingFlagLast else 0 in
      t ← getp tr;
      mret (Ok (NewRIRspPacket t flags chunk))
  end.

(** [p.lastRISent = pkt; send; setSState]. *)
Definition send_outstanding (r : res Packet) (next : SenderState) : M error :=
  match r with
  | Ok pkt =>
      _ ← mods (with_lastRISent (Some pkt));
      try send pkt;;
      _ ← setSState next;
      mret None
  | Err e => mret (Some e)
  | Panic => fun _ => None
  end.

Definition sendNextRIRsp (advanceSequence : bool) : M error :=
  r ← nextRIRspPacket advanceSequence; send_outstanding r SenderWaitForRIRspAck.

Definition nextRIUpdPacket (advanceSequence : bool) : M (res Packet) :=
  chunks ← getp (fun p => pendingRIUpd (snd p));
  match chunks with
  | [] => mret (Err (Errorf "no RI-Upd chunks pending" []))
  | chunk :: rest =>
      _ ← (if advanceSequence then modtr IncLocalSeq else mret tt);
      _ ← mods (with_pendingRIUpd rest);
      t ← getp tr;
      mret (Ok (NewRIUpdPacket t chunk))
  end.

Definition sendNextRIUpd (advanceSequence : bool) : M error :=
  r ← nextRIUpdPacket advanceSequence; send_outstanding r SenderWaitForRIUpdAck.

(** The tail of [handleOpenReq] and [handleRIAck]: start the other direction. *)
Definition send_open_req : M error :=
  try send_tr (fun t => NewOpenReqPacket t []);;
  _ ← setRState ReceiverWaitForOpenRsp;
  mret None.

Definition ErrCodeNormalClose : Z := -1.
Definition ErrCodeRoutingLoop : Z := -2.
Definition ErrCodeInvalidVersion : Z := -5.

(** Accept the connection and answer. *)
Definition accept_open_req (h : Header) (version : Z) : M error :=
  _ ← modtr (SetRemoteConnID (ConnectionID (HTrHeader h)));
  _ ← modq (setSUIFlags (Flags h));
  p ← getp id;
  let '(envFlags, rateOrErr) :=
    if negb (version =? 1) then (0, ErrCodeInvalidVersion)
    else (openResponseEnvironmentFlags p, openResponseRate p) in
  try send_tr (fun t => NewOpenRspPacket t envFlags rateOrErr []);;
  _ ← (if 0 <=? rateOrErr then _ ← setSState SenderConnected; AddObserver_self else mret tt);
  rs ← getp (fun p => rstate (rcv p));
  if bool_decide (rs = ReceiverUnconnected) then
    _ ← storeSendRetries 0;
    _ ← storeLastSend;
    send_open_req
  else mret None.

Definition handleOpenReq (h : Header) (version : Z) : M error :=
  ss ← getp (fun p => sstate (snd p));
  currentConnID ← getp (fun p => remoteConnID (tr p));
  let connID := ConnectionID (HTrHeader h) in
  if bool_decide (ss <> SenderUnconnected) then
    if currentConnID =? 0 then mret None
    else if connID =? currentConnID then
      if bool_decide (ss <> SenderConnected) then mret None
      else accept_open_req h version
    else if bool_decide (ss <> SenderConnected) then mret None
    else
      _ ← storeSendRetries 0;
      _ ← modtr IncLocalSeq;
      _ ← mods (with_restartProbe true);
      t ← getp tr;
      let pkt := null_update t in
      _ ← mods (with_lastRISent (Some pkt));
      _ ← storeLastSend;
      err ← send pkt;
      match err with
      | Some e =>
          _ ← mods (with_restartProbe false);
          _ ← mods (with_lastRISent None);
          mret (Some e)
      | None => _ ← setSState SenderWaitForRIUpdAck; mret None
      end
  else accept_open_req h version.

Definition network_tuple (r : Route) : NetworkTuple :=
  {| nt_Extended := Extended r; nt_RangeStart := NetStart (rkey r); nt_Distance := Distance r;
     nt_RangeEnd := NetEnd r |}.

Definition handleRIReq (h : Header) : M error :=
  checked (checkRemoteConnID (HTrHeader h)) (
    ss ← getp (fun p => sstate (snd p));
    if bool_decide (ss <> SenderConnected) then mret None
    else
      _ ← modq (setSUIFlags (Flags h));
      routes ← get (fun w => aurpExportedRoutes (timing (pr w)) (ident (pr w)) (rtab w) (now w));
      let nets := map network_tuple routes in
      _ ← modtr ResetLocalSeq;
      t ← getp tr;
      match (budget ← aurpRoutingPayloadBudget (NewRIRspPacket t 0 []);
             chunkAURPNetworkTuples nets budget) with
      | Err e => mret (Some e)
      | Panic => fun _ => None
      | Ok chunks =>
          _ ← mods (with_pendingRIRsp chunks);
          sendNextRIRsp false
      end).

(** The networks whose zones an RI-Ack with SZI asks for. *)
Definition acked_networks (last : option Packet) : list Z :=
  match last with
  | Some (RIRspPacket _ ns) => map nt_RangeStart ns
  | Some (RIUpdPacket _ es) =>
      map et_RangeStart (List.filter (fun et => et_EventCode et =? EventCodeNA) es)
  | _ => []
  end.

(** The part of [handleRIAck] after the state-specific cases. *)
Definition advance_sender (ss : SenderState) (flags : Z) : M error :=
  _ ← (if negb (Z.land flags RoutingFlagSendZoneInfo =? 0) then
         last ← getp (fun p => lastRISent (snd p));
         zones ← get (fun w => ZonesForNetworks (rtab w) (now w) (acked_networks last));
         sendZIRspPackets zones
       else mret None);
  _ ← storeSendRetries 0;
  rsps ← getp (fun p => pendingRIRsp (snd p));
  upds ← getp (fun p => pendingRIUpd (snd p));
  if bool_decide (ss = SenderWaitForRIRspAck) && (0 <? zlen rsps) then sendNextRIRsp true
  else if bool_decide (ss = SenderWaitForRIUpdAck) && (0 <? zlen upds) then sendNextRIUpd true
  else
    _ ← setSState SenderConnected;
    _ ← AddObserver_self;
    rs ← getp (fun p => rstate (rcv p));
    if bool_decide (rs = ReceiverUnconnected) then
      _ ← storeSendRetries 0;
      send_open_req
    else mret None.

Definition handleRIAck (h : Header) : M error :=
  checked (checkRemoteConnID (HTrHeader h)) (
    want ← getp (fun p => localSeq (tr p));
    if negb (Sequence (HTrHeader h) =? want) then mret None
    else
      ss ← getp (fun p => sstate (snd p));
      probe ← getp (fun p => restartProbe (snd p));
      if bool_decide (ss = SenderWaitForRIUpdAck) && probe then
        _ ← storeSendRetries 0;
        _ ← mods (with_restartProbe false);
        _ ← mods (with_lastRISent None);
        _ ← setSState SenderConnected;
        mret None
      else if bool_decide (ss = SenderWaitForRDAck) then
        _ ← storeSendRetries 0;
        _ ← RemoveObserver_self;
        _ ← disconnectSender;
        mret None
      else advance_sender ss (Flags h)).

Definition handleZIReq (h : Header) (networks : list Z) : M error :=
  checked (checkRemoteConnID (HTrHeader h)) (
    p ← getp id;
    let visible := List.filter (fun n => negb (exportNetworkHidden (timing p) (ident p) n)) networks in
    zones ← get (fun w => ZonesForNetworks (rtab w) (now w) visible);
    sendZIRspPackets zones).

Definition handleGDZLReq (h : Header) : M error :=
  checked (checkRemoteConnID (HTrHeader h)) (send_tr (fun t => NewGDZLRspPacket t (-1) [])).

Definition handleGZNReq (h : Header) (zoneName : list Z) : M error :=
  checked (checkRemoteConnID (HTrHeader h)) (send_tr (fun t => NewGZNRspPacket t zoneName true [])).

Definition handleTickle (h : Header) : M error :=
  checked (checkRemoteConnID (HTrHeader h)) (send_tr NewTickleAckPacket).

(** ** Data receiver *)

Definition handleOpenRsp (h : Header) (rateOrErr : Z) : M error :=
  checked (checkLocalConnID (HTrHeader h)) (
    if rateOrErr <? 0 then
      _ ← disconnectReceiver;
      _ ← noteReconnectFailure;
      mret None
    else
      _ ← setRState ReceiverConnected;
      _ ← storeSendRetries 0;
      try send_tr NewRIReqPacket;;
      _ ← setRState ReceiverWaitForRIRsp;
      _ ← modtr ResetRemoteSeq;
      mret None).

Definition validateAURPRouteTuple (extended : bool) (start end_ : Z) : error :=
  if end_ <? start then Some (Errorf "network range is reversed (%d-%d)" [AInt start; AInt end_])
  else if negb extended && negb (start =? end_) then
    Some (Errorf "non-extended tuple has range %d-%d" [AInt start; AInt end_])
  else None.

(** Result of a table update as (value, error). *)
Definition res_error {A} (r : res A) : error := match r with Err e => Some e | _ => None end.

Definition applyRIRspNetworkTuple (nt : NetworkTuple) : M (bool * error) :=
  match validateAURPRouteTuple (nt_Extended nt) (nt_RangeStart nt) (nt_RangeEnd nt) with
  | Some e => mret (false, Some e)
  | None =>
      p ← getp id;
      if importRangeHidden (timing p) (ident p) (nt_RangeStart nt) (nt_RangeEnd nt)
      then mret (false, None)
      else
        let nt := remapInboundNetworkTuple (timing p) (ident p) nt in
        match weightedAURPDistance p (nt_Distance nt) with
        | None => mret (false, None)
        | Some distance =>
            r ← table_upsert (nt_Extended nt) (nt_RangeStart nt) (nt_RangeEnd nt) distance;
            match r with
            | Ok _ => mret (true, None)
            | r => mret (false, res_error r)
            end
        end
  end.

(** The loop over the tuples of an RI-Rsp; the result is the RI-Ack flag. *)
Fixpoint apply_networks (nts : list NetworkTuple) (ackFlag : Z) : M Z :=
  match nts with
  | [] => mret ackFlag
  | nt :: nts =>
      r ← applyRIRspNetworkTuple nt;
      match r with
      | (true, None) =>
          needs ← get (fun w => needsZoneInfo w (nt_RangeStart nt));
          if needs : bool then
            _ ← markZoneInfoPending (nt_RangeStart nt);
            apply_networks nts RoutingFlagSendZoneInfo
          else
            _ ← clearPendingZoneInfo (nt_RangeStart nt);
            apply_networks nts ackFlag
      | _ => apply_networks nts ackFlag
      end
  end.

Definition handleRIRsp (h : Header) (networks : list NetworkTuple) : M error :=
  let th := HTrHeader h in
  checked (checkLocalConnID th) (
    _ ← markReceiverAlive;
    checked (checkRemoteSeq th) (
      ackFlag ← apply_networks networks 0;
      try send_tr (fun t => NewRIAckPacket t (ConnectionID th) (Sequence th) ackFlag);;
      _ ← (if negb (Z.land (Flags h) RoutingFlagLast =? 0) then
             _ ← setRState ReceiverConnected;
             n ← get now;
             _ ← modtm (with_lastSuccess (Some n));
             resetReconnectBackoff
           else mret tt);
      _ ← modtr IncRemoteSeq;
      mret None)).

(** Install a route carried by an event; the result says whether its zones are
    needed. *)
Definition install_event (et : EventTuple) (distance : Z) : M (bool * error) :=
  r ← table_upsert (et_Extended et) (et_RangeStart et) (et_RangeEnd et) distance;
  match r with
  | Ok _ => needs ← get (fun w => needsZoneInfo w (et_RangeStart et)); mret (needs, None)
  | r => mret (false, res_error r)
  end.

Definition delete_event (et : EventTuple) : M (bool * error) :=
  r ← table_delete (et_RangeStart et); mret (false, res_error r).

Definition event_hidden (p : Peer) (et : EventTuple) : bool :=
  let code := et_EventCode et in
  if (code =? EventCodeNA) || (code =? EventCodeNDC)
  then importRangeHidden (timing p) (ident p) (et_RangeStart et) (et_RangeEnd et)
  else if (code =? EventCodeND) || (code =? EventCodeNRC)
  then importNetworkHidden (timing p) (ident p) (et_RangeStart et)
  else false.

(** The NDC case of [applyRIUpdEvent]. *)
Definition apply_ndc (p : Peer) (et : EventTuple) : M (bool * error) :=
  existing ← table_find (et_RangeStart et);
  match (if maxRouteDistance <=? et_Distance et then None
         else weightedAURPDistance p (et_Distance et)) with
  | None =>
      _ ← clearPendingZoneInfo (et_RangeStart et);
      if Zero existing then mret (false, None) else delete_event et
  | Some distance =>
      if Zero existing then install_event et distance
      else if negb (Bool.eqb (Extended existing) (et_Extended et))
              || negb (NetEnd existing =? et_RangeEnd et)
      then install_event et distance
      else r ← table_update (et_RangeStart et) distance; mret (false, res_error r)
  end.

Definition applyRIUpdEvent (et : EventTuple) : M (bool * error) :=
  p ← getp id;
  if event_hidden p et then mret (false, None)
  else
    let et := remapInboundEvent (timing p) (ident p) et in
    let code := et_EventCode et in
    match (if (code =? EventCodeNA) || (code =? EventCodeNDC)
           then validateAURPRouteTuple (et_Extended et) (et_RangeStart et) (et_RangeEnd et)
           else None) with
    | Some e => mret (false, Some e)
    | None =>
        if code =? EventCodeNA then
          match weightedAURPDistance p (et_Distance et) with
          | None => mret (false, None)
          | Some distance => install_event et distance
          end
        else if (code =? EventCodeND) || (code =? EventCodeNRC) then
          existing ← table_find (et_RangeStart et);
          _ ← clearPendingZoneInfo (et_RangeStart et);
          if Zero existing then mret (false, None) else delete_event et
        else if code =? EventCodeNDC then apply_ndc p et
        else mret (false, None)
    end.

(** The loop over the events of an RI-Upd. *)
Fixpoint apply_events (ets : list EventTuple) (ackFlag : Z) : M Z :=
  match ets with
  | [] => mret ackFlag
  | et :: ets =>
      r ← applyRIUpdEvent et;
      match r with
      | (_, Some _) => apply_events ets ackFlag
      | (true, None) =>
          _ ← markZoneInfoPending (et_RangeStart et);
          apply_events ets RoutingFlagSendZoneInfo
      | (false, None) =>
          _ ← (if (et_EventCode et =? EventCodeNA) || (et_EventCode et =? EventCodeNDC)
               then clearPendingZoneInfo (et_RangeStart et) else mret tt);
          apply_events ets ackFlag
      end
  end.

(** The normal processing of an RI-Upd. *)
Definition process_update (th : TrHeader) (events : list EventTuple) : M error :=
  checked (checkRemoteSeq th) (
    ackFlag ← apply_events events 0;
    try send_tr (fun t => NewRIAckPacket t (ConnectionID th) (Sequence th) ackFlag);;
    _ ← modtr IncRemoteSeq;
    mret None).

Definition handleRIUpd (h : Header) (events : list EventTuple) : M error :=
  let th := HTrHeader h in
  checked (checkLocalConnID th) (
    _ ← markReceiverAlive;
    rs ← getp (fun p => rstate (rcv p));
    match rs with
    | ReceiverConnected => process_update th events
    | ReceiverWaitForTickleAck => _ ← setRState ReceiverConnected; process_update th events
    | ReceiverUnconnected | ReceiverWaitForOpenRsp =>
        _ ← bump earlyRIUpdates 1;
        _ ← send_tr NewRIReqPacket;
        _ ← setRState ReceiverWaitForRIRsp;
        _ ← modtr ResetRemoteSeq;
        _ ← storeSendRetries 0;
        _ ← storeLastSend;
        mret None
    | ReceiverWaitForRIRsp =>
        _ ← bump earlyRIUpdates 1;
        checked (checkRemoteSeq th) (
          try send_tr (fun t => NewRIAckPacket t (ConnectionID th) (Sequence th) 0);;
          _ ← bump earlyRIUpdateAcks 1;
          _ ← modtr IncRemoteSeq;
          _ ← storeSendRetries 0;
          try send_tr NewRIReqPacket;;
          _ ← storeLastSend;
          mret None)
    end).

Definition handleRD (h : Header) : M error :=
  let th := HTrHeader h in
  if Sequence th =? 0 then
    _ ← bump receiverRouterDowns 1;
    checked (checkRemoteConnID th) (
      _ ← RemoveObserver_self;
      _ ← disconnectSender;
      mret None)
  else
    _ ← bump senderRouterDowns 1;
    checked (checkLocalConnID th) (
      checked (checkRemoteSeqWithAckFlags th 0) (
        _ ← markReceiverAlive;
        try send_tr (fun t => NewRIAckPacket t (ConnectionID th) (Sequence th) 0);;
        _ ← bump routerDownAcks 1;
        _ ← modtr IncRemoteSeq;
        _ ← disconnectReceiver;
        mret None)).

Definition handleZIRsp (h : Header) (subcode totalTuples : Z) (zones : list ZoneTuple) : M error :=
  checked (checkLocalConnID (HTrHeader h)) (
    _ ← markReceiverAlive;
    if subcode =? SubcodeZoneInfoNonExt then
      r ← applyNonExtendedZIRsp zones;
      _ ← bump zoneTuplesAccepted r.1;
      _ ← bump zoneTuplesIgnored r.2;
      mret None
    else if subcode =? SubcodeZoneInfoExt then
      _ ← bump extendedZIFragments 1;
      r ← applyExtendedZIRsp totalTuples zones;
      match r with
      | (_, _, Some _) => mret None
      | (true, _, None) => _ ← bump extendedZICompleted 1; mret None
      | (false, _, None) => mret None
      end
    else mret None).

Definition handleTickleAck (h : Header) : M error :=
  checked (checkLocalConnID (HTrHeader h)) (
    rs ← getp (fun p => rstate (rcv p));
    match rs with
    | ReceiverWaitForTickleAck =>
        _ ← markReceiverAlive;
        _ ← storeSendRetries 0;
        _ ← setRState ReceiverConnected;
        mret None
    | ReceiverConnected =>
        _ ← bump lateTickleAcks 1;
        _ ← markReceiverAlive;
        mret None
    | _ => _ ← bump lateTickleAcks 1; mret None
    end).

(** GDZL-Rsp and GZN-Rsp only have their connection ID checked. *)
Definition handle_unexpected_rsp (h : Header) : M error :=
  checked (checkLocalConnID (HTrHeader h)) (mret None).

Definition handlePacket (pkt : Packet) : M error :=
  _ ← addToChatLog pkt false;
  match pkt with
  | OpenReqPacket h v _ => handleOpenReq h v
  | OpenRspPacket h r _ => handleOpenRsp h r
  | RIReqPacket h => handleRIReq h
  | RIRspPacket h ns => handleRIRsp h ns
  | RIAckPacket h => handleRIAck h
  | RIUpdPacket h es => handleRIUpd h es
  | RDPacket h _ => handleRD h
  | ZIReqPacket h _ ns => handleZIReq h ns
  | ZIRspPacket h sc t zs => handleZIRsp h sc t zs
  | GDZLReqPacket h _ _ => handleGDZLReq h
  | GDZLRspPacket h _ _ _ => handle_unexpected_rsp h
  | GZNReqPacket h _ z => handleGZNReq h z
  | GZNRspPacket h _ _ _ _ => handle_unexpected_rsp h
  | TicklePacket h => handleTickle h
  | TickleAckPacket h => handleTickleAck h
  | AppleTalkPacket _ _ => mret None
  end.

(** ** Tickers *)

Definition count_retry : M unit :=
  modtm (fun t => with_sendRetries (wrap_i32 (sendRetries t + 1)) t).

(** The retry branch the waiting receiver states share: give up at the limit,
    otherwise send again. *)
Definition receiver_retry (limit : Z) (abandon : M unit) (again : Transport -> Packet) : M error :=
  n ← get now; p ← getp id;
  if negb (elapsed n (lastSend (tm p)) (retryInterval p)) then mret None
  else if limit <=? sendRetries (tm p) then _ ← abandon; mret None
  else
    _ ← count_retry;
    _ ← storeLastSend;
    send_tr again.

Definition abandon_receiver : M unit := _ ← disconnectReceiver; noteReconnectFailure.

Definition rticker_receiver : M error :=
  n ← get now; p ← getp id;
  match rstate (rcv p) with
  | ReceiverWaitForOpenRsp =>
      receiver_retry (routingRetryLimit p) abandon_receiver (fun t => NewOpenReqPacket t [])
  | ReceiverConnected =>
      if negb (elapsed n (lastHeardFrom (tm p)) (lastHeardTimeout p)) then mret None
      else
        try send_tr NewTicklePacket;;
        _ ← setRState ReceiverWaitForTickleAck;
        _ ← storeSendRetries 0;
        _ ← storeLastSend;
        mret None
  | ReceiverWaitForTickleAck =>
      receiver_retry (tickleRetriesLimit p) abandon_receiver NewTicklePacket
  | ReceiverWaitForRIRsp =>
      receiver_retry (routingRetryLimit p)
        (_ ← disconnectReceiver; _ ← table_delete_target; noteReconnectFailure) NewRIReqPacket
  | ReceiverUnconnected =>
      if bool_decide (sstate (snd p) = SenderConnected)
         && elapsed n (lastSend (tm p)) (retryInterval p) then
        _ ← count_retry;
        _ ← storeLastSend;
        _ ← modtr IncLocalSeq;
        t ← getp tr;
        send_outstanding (Ok (null_update t)) SenderWaitForRIUpdAck
      else mret None
  end.

Definition rtickerTasks : M error :=
  try rticker_receiver;;
  rs ← getp (fun p => rstate (rcv p));
  match rs with
  | ReceiverConnected | ReceiverWaitForTickleAck => retryIncompleteZoneInfo
  | _ => mret None
  end.

Definition send_last : M error :=
  last ← getp (fun p => lastRISent (snd p));
  match last with Some pkt => send pkt | None => mret None end.

Definition stickerTasks : M error :=
  n ← get now; p ← getp id;
  match sstate (snd p) with
  | SenderUnconnected => mret None
  | SenderConnected =>
      if negb (elapsed n (lastUpdate (tm p)) (updateInterval p)) then mret None
      else
        let '(events, q) := takePendingEvents (queue (snd p)) in
        _ ← mods (with_queue q);
        if zlen events =? 0 then mret None
        else
          match (budget ← aurpRoutingPayloadBudget (NewRIUpdPacket (tr p) []);
                 chunkAURPEventTuples events budget) with
          | Err e => mret (Some e)
          | Panic => fun _ => None
          | Ok chunks =>
              _ ← mods (with_pendingRIUpd chunks);
              _ ← modtm (with_lastUpdate (Some n));
              sendNextRIUpd true
          end
  | SenderWaitForRIRspAck | SenderWaitForRIUpdAck =>
      if negb (elapsed n (lastSend (tm p)) (retryInterval p)) then mret None
      else if bool_decide (lastRISent (snd p) = None) then mret None
      else if routingRetryLimit p <=? sendRetries (tm p) then
        if restartProbe (snd p) then
          _ ← RemoveObserver_self;
          _ ← disconnectSender;
          mret None
        else
          _ ← setSState SenderUnconnected;
          _ ← RemoveObserver_self;
          mret None
      else
        _ ← count_retry;
        _ ← storeLastSend;
        send_last
  | SenderWaitForRDAck =>
      if negb (elapsed n (lastSend (tm p)) (retryInterval p)) then mret None
      else if bool_decide (lastRISent (snd p) = None)
              || (routingRetryLimit p <=? sendRetries (tm p)) then
        _ ← RemoveObserver_self;
        _ ← disconnectSender;
        mret None
      else
        _ ← count_retry;
        send_last
  end.

(** ** The [Handle] loop *)

(** What [Handle] does before its loop. *)
Definition handle_start : M error :=
  _ ← disconnect;
  n ← get now;
  _ ← modtm (fun t => with_sendRetries 0 (with_lastUpdate (Some n) (with_lastSend (Some n)
        (with_lastHeardFrom (Some n) (with_lastReconnect (Some n) t)))));
  send_open_req.

(** The [reconnectCh] case. *)
Definition handle_reconnect : M error :=
  n ← get now; p ← getp id;
  if loopDisabled p || bool_decide (rstate (rcv p) <> ReceiverUnconnected)
     || negb (reconnectReady n p) then mret None
  else
    _ ← modtm (fun t => with_sendRetries 0 (with_lastSend (Some n) (with_lastReconnect (Some n) t)));
    send_open_req.

Definition startSenderShutdown : M error :=
  ss ← getp (fun p => sstate (snd p));
  if bool_decide (ss <> SenderConnected) then mret None
  else
    _ ← modtr IncLocalSeq;
    t ← getp tr;
    _ ← mods (with_lastRISent (Some (NewSenderRDPacket t ErrCodeNormalClose)));
    _ ← storeSendRetries 0;
    try send_last;;
    _ ← setSState SenderWaitForRDAck;
    mret None.

Definition handleConfirmedRoutingLoop : M unit :=
  p ← getp id;
  if loopDisabled p then mret tt
  else
    _ ← modp (with_loopDisabled true);
    _ ← (if bool_decide (sstate (snd p) <> SenderUnconnected) then
           _ ← modtr IncLocalSeq;
           send_tr (fun t => NewSenderRDPacket t ErrCodeRoutingLoop)
         else mret None);
    disconnect.

(** What the [select] of the two loops can receive, with the time it does. *)
Inductive loop_event :=
| EvPacket (pkt : Packet) | EvRTick | EvSTick | EvReconnect | EvLoopDetected | EvDone.

(** How far a loop got: returned with an error value, or waiting in [select]. *)
Inductive loop_result := Returned (err : error) | Waiting.

(** The [switch] at the top of the shutdown loop. *)
Definition shutdown_switch (k : M loop_result) : M loop_result :=
  ss ← getp (fun p => sstate (snd p));
  match ss with
  | SenderUnconnected => mret (Returned None)
  | SenderConnected =>
      err ← startSenderShutdown;
      match err with
      | Some e => _ ← disconnectSender; mret (Returned (Some e))
      | None => k
      end
  | _ => k
  end.

(** [gracefulSenderShutdown]: it only takes packets and sender ticks. *)
Fixpoint gracefulSenderShutdown (evs : list (Z * loop_event)) : M loop_result :=
  match evs with
  | [] => shutdown_switch (mret Waiting)
  | (n, ev) :: evs =>
      shutdown_switch (
        _ ← modw (with_now n);
        let next (err : error) :=
          match err with Some e => mret (Returned (Some e)) | None => gracefulSenderShutdown evs end in
        match ev with
        | EvPacket pkt => err ← handlePacket pkt; next err
        | EvSTick => err ← stickerTasks; next err
        | _ => gracefulSenderShutdown evs
        end)
  end.

(** The [for] loop of [Handle]. *)
Fixpoint handle_loop (evs : list (Z * loop_event)) : M loop_result :=
  match evs with
  | [] => mret Waiting
  | (n, ev) :: evs =>
      _ ← modw (with_now n);
      let next (err : error) :=
        match err with Some e => mret (Returned (Some e)) | None => handle_loop evs end in
      match ev with
      | EvDone => gracefulSenderShutdown evs
      | EvLoopDetected => _ ← handleConfirmedRoutingLoop; mret (Returned None)
      | EvReconnect => err ← handle_reconnect; next err
      | EvRTick => err ← rtickerTasks; next err
      | EvSTick => err ← stickerTasks; next err
      | EvPacket pkt => err ← handlePacket pkt; next err
      end
  end.

(** [Handle]; the deferred [RemoveObserver] runs when it returns. *)
Definition Handle (evs : list (Z * loop_event)) : M loop_result :=
  disabled ← getp loopDisabled;
  if disabled : bool then mret (Returned None)
  else
    err ← handle_start;
    r ← match err with Some e => mret (Returned (Some e)) | None => handle_loop evs end;
    _ ← match r with Returned _ => RemoveObserver_self | Waiting => mret tt end;
    mret r.

(** The keep-alive before data ([Forward]). *)
Definition needsTickleBeforeData (n : Z) (p : Peer) : bool :=
  if (lastHeardTimeout p <=? tickleBeforeDataTime)
     || bool_decide (rstate (rcv p) <> ReceiverConnected) then false
  else match lastHeardFrom (tm p) with
       | None => false
       | Some t => if n <? t then false else tickleBeforeDataTime <=? n - t
       end.

Definition sendTickleBeforeDataIfNeeded : M error :=
  n ← get now; p ← getp id;
  if negb (needsTickleBeforeData n p) then mret None
  else
    try send_tr NewTicklePacket;;
    _ ← storeSendRetries 0;
    _ ← setRState ReceiverWaitForTickleAck;
    mret None.

End FSM.
End FSM.
