(* ===== verification/AtalkNbp.v ===== *)
(** * NBP packets ([atalk/nbp/nbp.go])

    The Name Binding Protocol codec.  A [bytes.Buffer] is the list of the bytes
    written to it; a Go string is its bytes.  Module NBP has the packet type,
    [Marshal] and [Unmarshal]; the theorems are the round trips and that
    [Unmarshal] never runs past the end of its input. *)
From S2P Require Import Prelude.

Module NBP.

Definition FunctionBrRq : Z := 1.
Definition FunctionLkUp : Z := 2.
Definition FunctionLkUpReply : Z := 3.
Definition FunctionFwdReq : Z := 4.

Definition Function_String (f : Z) : list Z :=
  if f =? FunctionBrRq then str "BrRq"
  else if f =? FunctionLkUp then str "LkUp"
  else if f =? FunctionLkUpReply then str "LkUp-Reply"
  else if f =? FunctionFwdReq then str "FwdReq"
  else str "unknown".

Record Tuple := MkTuple {
  Network : Z; Node : Z; Socket : Z; Enumerator : Z;
  Object : list Z; Type_ : list Z; Zone : list Z }.

Record Packet := MkPacket { Function_ : Z; NBPID : Z; Tuples : list Tuple }.

#[global] Instance Tuple_eq_dec : EqDecision Tuple.
Proof. solve_decision. Defined.
#[global] Instance Packet_eq_dec : EqDecision Packet.
Proof. solve_decision. Defined.

Definition with_Network (n : Z) (t : Tuple) : Tuple :=
  MkTuple n (Node t) (Socket t) (Enumerator t) (Object t) (Type_ t) (Zone t).
Definition with_Zone (z : list Z) (t : Tuple) : Tuple :=
  MkTuple (Network t) (Node t) (Socket t) (Enumerator t) (Object t) (Type_ t) z.
Definition with_Tuples (ts : list Tuple) (p : Packet) : Packet :=
  MkPacket (Function_ p) (NBPID p) ts.
Definition with_Function (f : Z) (p : Packet) : Packet := MkPacket f (NBPID p) (Tuples p).

(** ** Writing *)

Definition Tuple_writeTo (t : Tuple) (b : list Z) : res (list Z) :=
  if 32 <? zlen (Object t) then
    Err (Errorf "object field too long (%d > 32)" [AInt (zlen (Object t))])
  else if 32 <? zlen (Type_ t) then
    Err (Errorf "type field too long (%d > 32)" [AInt (zlen (Type_ t))])
  else if 32 <? zlen (Zone t) then
    Err (Errorf "zone field too long (%d > 32)" [AInt (zlen (Zone t))])
  else
    Ok (b ++ put16 (Network t) ++ [Node t] ++ [Socket t] ++ [Enumerator t]
          ++ [wrap8 (zlen (Object t))] ++ Object t
          ++ [wrap8 (zlen (Type_ t))] ++ Type_ t
          ++ [wrap8 (zlen (Zone t))] ++ Zone t).

Fixpoint write_tuples (i : Z) (ts : list Tuple) (b : list Z) : res (list Z) :=
  match ts with
  | [] => Ok b
  | t :: ts =>
      b ← wrap_err "marshaling NBP tuple %d: %w" [AInt i] (Tuple_writeTo t b);
      write_tuples (i + 1) ts b
  end.

Definition Marshal (p : Packet) : res (list Z) :=
  if (Function_ p <? 1) || (4 <? Function_ p) then
    Err (Errorf "invalid NBP function %d" [AInt (Function_ p)])
  else if 15 <? zlen (Tuples p) then
    Err (Errorf "too many NBP tuples (%d > 15)" [AInt (zlen (Tuples p))])
  else
    write_tuples 0 (Tuples p)
      ([Z.lor (wrap8 (Z.shiftl (Function_ p) 4)) (wrap8 (zlen (Tuples p)))] ++ [NBPID p]).

(** ** Reading *)

Definition readLV (data : list Z) : res (list Z * list Z) :=
  if zlen data <? 1 then
    Err (Errorf "insufficient input length %d for length-prefixed string" [AInt (zlen data)])
  else
    slen ← idx data 0;
    data ← slice_from data 1;
    if zlen data <? slen then
      Err (Errorf "insufficient remaining input length %d for length-prefixed string of length %d"
             [AInt (zlen data); AInt slen])
    else
      s ← slice_to data slen;
      rest ← slice_from data slen;
      Ok (s, rest).

Definition read_tuple (data : list Z) : res (Tuple * list Z) :=
  if zlen data <? 8 then
    Err (Errorf "insufficient remaining input length %d for NBP tuple" [AInt (zlen data)])
  else
    network ← slice_to data 2 ≫= be16;
    node ← idx data 2;
    socket ← idx data 3;
    enumerator ← idx data 4;
    data ← slice_from data 5;
    '(object, data) ← wrap_err "reading NBP tuple Object: %w" [] (readLV data);
    '(type, data) ← wrap_err "reading NBP tuple Type: %w" [] (readLV data);
    '(zone, data) ← wrap_err "reading NBP tuple Zone: %w" [] (readLV data);
    Ok (MkTuple network node socket enumerator object type zone, data).

Fixpoint read_tuples (k : nat) (data : list Z) (ts : list Tuple) : res (list Tuple) :=
  match k with
  | O => Ok ts
  | S k => '(t, data) ← read_tuple data; read_tuples k data (ts ++ [t])
  end.

Definition Unmarshal (data : list Z) : res Packet :=
  if zlen data <? 2 then
    Err (Errorf "insufficient input length %d for NBP packet" [AInt (zlen data)])
  else
    b0 ← idx data 0;
    nbpid ← idx data 1;
    let function := Z.shiftr b0 4 in
    let tupleCount := Z.land b0 0x0F in
    if tupleCount =? 0 then Err (Errorf "no tuples" [])
    else if (1 <? tupleCount) && negb (function =? FunctionLkUpReply) then
      Err (Errorf "wrong number of tuples %d for function %s"
             [AInt tupleCount; AStr (Function_String function)])
    else
      data ← slice_from data 2;
      ts ← read_tuples (Z.to_nat tupleCount) data [];
      Ok (MkPacket function nbpid ts).

(** ** Well-formedness *)

(** A tuple with its Go types. *)
Definition tuple_typed (t : Tuple) : Prop :=
  u16 (Network t) /\ u8 (Node t) /\ u8 (Socket t) /\ u8 (Enumerator t) /\
  bytes_ok (Object t) /\ bytes_ok (Type_ t) /\ bytes_ok (Zone t).

Definition tuple_fits (t : Tuple) : Prop :=
  zlen (Object t) <= 32 /\ zlen (Type_ t) <= 32 /\ zlen (Zone t) <= 32.

Definition pkt_typed (p : Packet) : Prop :=
  u8 (Function_ p) /\ u8 (NBPID p) /\ Forall tuple_typed (Tuples p).

(** The number of tuples a function may carry. *)
Definition count_ok (p : Packet) : Prop :=
  1 <= zlen (Tuples p) <= 15 /\ (1 < zlen (Tuples p) -> Function_ p = FunctionLkUpReply).

Definition pkt_valid (p : Packet) : Prop :=
  1 <= Function_ p <= 4 /\ count_ok p /\ Forall tuple_fits (Tuples p).

End NBP.

Import NBP.

(** * Lemmas *)

Definition enc_tuple (t : Tuple) : list Z :=
  put16 (Network t) ++ [Node t; Socket t; Enumerator t]
  ++ (zlen (Object t) :: Object t) ++ (zlen (Type_ t) :: Type_ t) ++ (zlen (Zone t) :: Zone t).

Lemma wrap8_small x : u8 x -> wrap8 x = x.
Proof. intros. unfold wrap8. apply Z.mod_small. done. Qed.

Lemma Tuple_writeTo_ok t b : tuple_fits t -> Tuple_writeTo t b = Ok (b ++ enc_tuple t).
Proof.
  intros (Ho & Ht & Hz). pose proof (zlen_nonneg (Object t)). pose proof (zlen_nonneg (Type_ t)).
  pose proof (zlen_nonneg (Zone t)).
  unfold Tuple_writeTo. zdec. rewrite !wrap8_small by (unfold u8; lia). done.
Qed.

Lemma Tuple_writeTo_inv t b b' : Tuple_writeTo t b = Ok b' -> tuple_fits t.
Proof. unfold Tuple_writeTo, tuple_fits. repeat case_if; try done. intros _. zbool. lia. Qed.

Lemma write_tuples_ok i ts b :
  Forall tuple_fits ts -> write_tuples i ts b = Ok (b ++ concat (map enc_tuple ts)).
Proof.
  intros H. revert i b. induction H as [|t ts Ht _ IH]; intros i b; cbn [write_tuples map concat].
  - by rewrite app_nil_r.
  - rewrite Tuple_writeTo_ok by done. cbn [wrap_err]. rewrite bind_Ok, IH. by rewrite app_assoc.
Qed.

Lemma write_tuples_inv i ts b b' : write_tuples i ts b = Ok b' -> Forall tuple_fits ts.
Proof.
  revert i b. induction ts as [|t ts IH]; intros i b; cbn [write_tuples]; [by constructor|].
  destruct (Tuple_writeTo t b) as [b1| |] eqn:E; cbn [wrap_err]; [|done..].
  rewrite bind_Ok. intros H%IH. constructor; [by eapply Tuple_writeTo_inv|done].
Qed.

Lemma readLV_ok s rest : readLV ((zlen s :: s) ++ rest) = Ok (s, rest).
Proof.
  unfold readLV. cbn [app]. pose proof (zlen_nonneg (s ++ rest)).
  rewrite zlen_cons. zdec. rewrite idx_0, bind_Ok, slice_from_pos by lia.
  cbn [Z.sub Z.add Z.opp Z.pos_sub]. rewrite slice_from_0, bind_Ok, zlen_app.
  pose proof (zlen_nonneg rest). zdec. by rewrite slice_to_app, bind_Ok, slice_from_app.
Qed.

Lemma read_tuple_ok t rest :
  tuple_typed t -> read_tuple (enc_tuple t ++ rest) = Ok (t, rest).
Proof.
  intros (Hn & _). unfold read_tuple.
  assert (E : zlen (enc_tuple t ++ rest) <? 8 = false).
  { apply Z.ltb_ge. unfold enc_tuple. rewrite !zlen_app, !zlen_cons, zlen_put16, zlen_nil.
    pose proof (zlen_nonneg (Object t)). pose proof (zlen_nonneg (Type_ t)).
    pose proof (zlen_nonneg (Zone t)). pose proof (zlen_nonneg rest). lia. }
  rewrite E. unfold enc_tuple. rewrite <- !app_assoc.
  cbn [put16 app]. go_slices. rewrite fields16 by done.
  change (zlen (Object t) :: Object t ++ ?x) with ((zlen (Object t) :: Object t) ++ x).
  rewrite readLV_ok. simpl.
  change (zlen (Type_ t) :: Type_ t ++ ?x) with ((zlen (Type_ t) :: Type_ t) ++ x).
  rewrite readLV_ok. simpl.
  change (zlen (Zone t) :: Zone t ++ ?x) with ((zlen (Zone t) :: Zone t) ++ x).
  rewrite readLV_ok. simpl. by destruct t.
Qed.

Lemma readLV_safe data :
  bytes_ok data -> safe (fun '(s, rest) => data = (zlen s :: s) ++ rest) (readLV data).
Proof.
  intros Hd. unfold readLV. case_if; [done|]. zbool.
  destruct data as [|n d]; [done|]. rewrite idx_0, bind_Ok, slice_from_pos by lia.
  cbn [Z.sub Z.add Z.opp Z.pos_sub]. rewrite slice_from_0, bind_Ok.
  apply Forall_cons in Hd as [Hn _]. unfold u8 in Hn. case_if; [done|]. zbool.
  rewrite slice_to_le, bind_Ok, slice_from_le, bind_Ok by lia. simpl.
  rewrite zlen_take, take_drop. f_equal. lia.
Qed.

Lemma be16_put16_inv a b : u8 a -> u8 b -> put16 (Z.lor (Z.shiftl a 8) b) = [a; b].
Proof.
  intros Ha Hb. rewrite lor_shift_add by done. unfold u8 in *.
  rewrite put16_div by (unfold u16; lia). f_equal; [|f_equal].
  - rewrite Z.div_add_l by lia. rewrite Z.div_small by lia. lia.
  - rewrite Z.add_comm, Z.mod_add by lia. apply Z.mod_small. lia.
Qed.

Lemma read_tuple_safe data :
  bytes_ok data ->
  safe (fun '(t, rest) => data = enc_tuple t ++ rest /\ tuple_typed t) (read_tuple data).
Proof.
  intros Hd. unfold read_tuple. case_if; [done|]. zbool.
  destruct data as [|a [|b [|c [|d [|e r]]]]]; [exfalso; unfold zlen in E; simpl in E; lia..|].
  go_slices. repeat (apply Forall_cons in Hd as [? Hd]).
  eapply safe_bind; [apply safe_wrap, readLV_safe; exact Hd|]. intros [o r1] ->.
  apply bytes_ok_app in Hd as [Ho Hd].
  eapply safe_bind; [apply safe_wrap, readLV_safe; exact Hd|]. intros [ty r2] ->.
  apply bytes_ok_app in Hd as [Ht Hd].
  eapply safe_bind; [apply safe_wrap, readLV_safe; exact Hd|]. intros [z r3] ->.
  apply bytes_ok_app in Hd as [Hz Hd]. cbn [safe].
  unfold enc_tuple, tuple_typed; cbn [Network Node Socket Enumerator Object Type_ Zone].
  pose proof (be16_put16_inv a b ltac:(done) ltac:(done)) as [= -> ->]. split.
  - cbn [app]. rewrite <- !app_assoc. cbn [app]. by rewrite <- !app_assoc.
  - apply Forall_cons in Ho as [_ Ho]. apply Forall_cons in Ht as [_ Ht].
    apply Forall_cons in Hz as [_ Hz].
    destruct (be16_u16 a b [] ltac:(done) ltac:(done)) as (x & [= Ex] & Hx). subst x. done.
Qed.

Lemma read_tuples_ok ts rest acc :
  Forall tuple_typed ts ->
  read_tuples (length ts) (concat (map enc_tuple ts) ++ rest) acc = Ok (acc ++ ts).
Proof.
  intros H. revert acc. induction H as [|t ts Ht _ IH]; intros acc; cbn [length read_tuples map concat].
  - by rewrite app_nil_r.
  - rewrite <- app_assoc, read_tuple_ok by done. cbn [mbind res_bind].
    by rewrite IH, <- app_assoc.
Qed.

Lemma read_tuples_safe k data acc :
  bytes_ok data ->
  safe (fun ts => exists new rest, ts = acc ++ new /\ length new = k /\
          Forall tuple_typed new /\ data = concat (map enc_tuple new) ++ rest)
       (read_tuples k data acc).
Proof.
  revert data acc. induction k as [|k IH]; intros data acc Hd; cbn [read_tuples].
  - exists [], data. by rewrite app_nil_r.
  - eapply safe_bind; [by apply read_tuple_safe|]. intros [t rest] [-> Ht].
    apply bytes_ok_app in Hd as [_ Hd]. eapply safe_mono; [by apply IH|].
    intros ts (new & rest' & -> & Hl & Hf & ->). exists (t :: new), rest'.
    split; [by rewrite <- app_assoc|]. split; [simpl; lia|]. split; [by constructor|].
    cbn [map concat]. by rewrite app_assoc.
Qed.

(** The first byte holds the function and the number of tuples. *)
Lemma nibbles f n :
  0 <= f < 16 -> 0 <= n < 16 ->
  Z.lor (wrap8 (Z.shiftl f 4)) (wrap8 n) = f * 16 + n /\
  Z.shiftr (f * 16 + n) 4 = f /\ Z.land (f * 16 + n) 0x0F = n.
Proof.
  intros Hf Hn. rewrite Z.shiftl_mul_pow2 by lia. unfold wrap8. change (2 ^ 4) with 16.
  rewrite !Z.mod_small by lia. split; [|split].
  - rewrite <- Z.add_nocarry_lor; [done|]. change (f * 16) with (f * 2 ^ 4).
    rewrite <- Z.shiftl_mul_pow2 by lia. apply land_shiftl_small; lia.
  - rewrite Z.shiftr_div_pow2 by lia. change (2 ^ 4) with 16.
    rewrite Z.div_add_l, (Z.div_small n) by lia. lia.
  - change 15 with (Z.ones 4). rewrite Z.land_ones by lia. change (2 ^ 4) with 16.
    rewrite Z.add_comm, Z.mod_add by lia. apply Z.mod_small. lia.
Qed.

Lemma nibbles_inv b : u8 b ->
  0 <= Z.shiftr b 4 < 16 /\ 0 <= Z.land b 0x0F < 16 /\ Z.shiftr b 4 * 16 + Z.land b 0x0F = b.
Proof.
  unfold u8. intros Hb. rewrite Z.shiftr_div_pow2 by lia. change 0x0F with (Z.ones 4).
  rewrite Z.land_ones by lia. change (2 ^ 4) with 16.
  pose proof (Z.div_mod b 16). pose proof (Z.mod_pos_bound b 16).
  pose proof (Z.div_lt_upper_bound b 16 16). pose proof (Z.div_pos b 16). lia.
Qed.

Lemma count_nonempty p : count_ok p -> Tuples p <> [].
Proof. intros [Hl _] E. rewrite E in Hl. unfold zlen in Hl. simpl in Hl. lia. Qed.

(** The encoding of a packet. *)
Definition enc_nbp (p : Packet) : list Z :=
  [Function_ p * 16 + zlen (Tuples p); NBPID p] ++ concat (map enc_tuple (Tuples p)).

Lemma Marshal_ok p :
  1 <= Function_ p <= 4 -> zlen (Tuples p) <= 15 -> Forall tuple_fits (Tuples p) ->
  Marshal p = Ok (enc_nbp p).
Proof.
  intros Hf Hl Hts. pose proof (zlen_nonneg (Tuples p)). unfold Marshal. zdec. cbn [orb].
  rewrite write_tuples_ok by done.
  destruct (nibbles (Function_ p) (zlen (Tuples p))) as (-> & _ & _); [lia..|]. done.
Qed.

Lemma Marshal_inv p b :
  Marshal p = Ok b ->
  1 <= Function_ p <= 4 /\ zlen (Tuples p) <= 15 /\ Forall tuple_fits (Tuples p) /\ b = enc_nbp p.
Proof.
  intros H. assert (Hc : 1 <= Function_ p <= 4 /\ zlen (Tuples p) <= 15 /\
    Forall tuple_fits (Tuples p)).
  { revert H. unfold Marshal. case_if; [done|]. case_if; [done|]. intros H%write_tuples_inv.
    zbool. repeat split; (done || lia). }
  destruct Hc as (Hf & Hl & Ht). rewrite Marshal_ok in H by done. injection H as <-. done.
Qed.

Lemma Marshal_no_panic p : Marshal p <> Panic.
Proof.
  unfold Marshal. do 2 (case_if; [done|]). generalize 0 as i.
  match goal with |- forall _, write_tuples _ _ ?b0 <> _ => generalize b0 as b end. clear.
  induction (Tuples p) as [|t ts IH]; intros b i; cbn [write_tuples]; [done|].
  unfold Tuple_writeTo. do 3 (case_if; [done|]). cbn [wrap_err]. rewrite bind_Ok. apply IH.
Qed.

Lemma Unmarshal_enc p rest :
  pkt_typed p -> 0 <= Function_ p < 16 -> count_ok p -> Unmarshal (enc_nbp p ++ rest) = Ok p.
Proof.
  intros (_ & _ & Hts) Hf (Hl & Hc). unfold Unmarshal, enc_nbp. rewrite <- app_assoc. cbn [app].
  destruct (nibbles (Function_ p) (zlen (Tuples p))) as (_ & E1 & E2); [lia..|].
  set (body := concat _ ++ rest). rewrite !zlen_cons. pose proof (zlen_nonneg body).
  zdec. go_slices. rewrite E1, E2. zdec.
  assert (Hb : (1 <? zlen (Tuples p)) && negb (Function_ p =? FunctionLkUpReply) = false).
  { destruct (1 <? zlen (Tuples p)) eqn:E; [|done]. zbool. rewrite Hc by done. done. }
  rewrite Hb. unfold zlen at 1. rewrite Nat2Z.id. unfold body. rewrite read_tuples_ok by done.
  by destruct p.
Qed.

Lemma Unmarshal_safe data :
  bytes_ok data ->
  safe (fun p => pkt_typed p /\ 0 <= Function_ p < 16 /\ count_ok p /\
          exists rest, data = enc_nbp p ++ rest) (Unmarshal data).
Proof.
  intros Hd. unfold Unmarshal. case_if; [done|]. zbool.
  destruct data as [|b [|i data]]; [exfalso; unfold zlen in E; simpl in E; lia..|].
  apply Forall_cons in Hd as [Hb Hd]. apply Forall_cons in Hd as [Hi Hd]. go_slices.
  destruct (nibbles_inv b Hb) as (Hf & Hn & Hs). case_if; [done|]. case_if; [done|].
  eapply safe_bind; [by apply read_tuples_safe|]. intros ts (new & rest & -> & Hl & Ht & ->).
  zbool. simpl. unfold enc_nbp, pkt_typed, count_ok. simpl.
  assert (El : zlen new = Z.land b 15) by (unfold zlen; lia).
  split; [unfold u8 in *; split; [lia|done]|]. split; [done|]. rewrite El. split.
  - split; [lia|]. intros Hgt. apply andb_false_iff in E1 as [E1|E1]; zbool; [lia|done].
  - exists rest. by rewrite Hs.
Qed.

(** * Properties *)

(** The NBP codec is a bijection between valid packets and their
    encodings: a valid packet marshals, and the inputs that unmarshal to it are
    exactly those that begin with its encoding (a datagram may be padded). *)
Theorem nbp_codec_exact (p : Packet) :
  pkt_typed p -> pkt_valid p ->
  exists b, Marshal p = Ok b /\
    forall data, bytes_ok data -> (Unmarshal data = Ok p <-> exists rest, data = b ++ rest).
Proof.
  intros Hty (Hf & Hc & Hts). exists (enc_nbp p).
  split; [apply Marshal_ok; [done|by destruct Hc as [[]]|done]|].
  intros data Hd. pose proof (Unmarshal_safe data Hd) as Hs. split.
  - intros E. rewrite E in Hs. cbn [safe] in Hs. tauto.
  - intros (rest & ->). apply Unmarshal_enc; [done|lia|done].
Qed.

Definition wit_tuple : Tuple :=
  MkTuple 3 7 128 1 (str "Mac") (str "AFPServer") (str "*").
Definition wit_reply : Packet :=
  MkPacket FunctionLkUpReply 42 [wit_tuple; with_Network 9 wit_tuple].

Lemma wit_reply_typed : pkt_typed wit_reply.
Proof. split; [const_widths|split; [const_widths|]]. repeat constructor; const_widths. Qed.

Lemma wit_reply_valid : pkt_valid wit_reply.
Proof. split; [const_widths|]. split; [split; [const_widths|done]|]. repeat constructor; const_widths. Qed.

Example nbp_codec_exact_witness :
  exists b, Marshal wit_reply = Ok b /\
    forall data, bytes_ok data -> (Unmarshal data = Ok wit_reply <-> exists rest, data = b ++ rest).
Proof. apply (nbp_codec_exact wit_reply); [apply wit_reply_typed|apply wit_reply_valid]. Defined.

(** [Unmarshal] never reads past its input, whatever arrives, and what it
    returns has its Go types, between 1 and 15 tuples and more than one only in
    a LkUp-Reply; such a packet can be marshalled again exactly when its
    function is one of the four and its names are at most 32 bytes, which
    [Unmarshal] does not check. *)
Theorem nbp_Unmarshal_typed (data : list Z) :
  bytes_ok data ->
  Unmarshal data <> Panic /\
  forall p, Unmarshal data = Ok p ->
    pkt_typed p /\ count_ok p /\
    ((exists b, Marshal p = Ok b) <-> 1 <= Function_ p <= 4 /\ Forall tuple_fits (Tuples p)).
Proof.
  intros Hd. pose proof (Unmarshal_safe data Hd) as Hs.
  split; [by apply safe_not_panic in Hs|]. intros p E. rewrite E in Hs. cbn [safe] in Hs.
  destruct Hs as (Ht & _ & Hc & _). split; [done|]. split; [done|]. split.
  - intros (b & (? & _ & ? & _)%Marshal_inv). done.
  - intros [Hf Hts]. eexists. apply Marshal_ok; [done|by destruct Hc as [[]]|done].
Qed.

Example nbp_Unmarshal_typed_witness :
  let data := [65; 7; 0; 3; 7; 2; 0; 1; 61; 1; 61; 1; 42] in
  Unmarshal data <> Panic /\
  forall p, Unmarshal data = Ok p ->
    pkt_typed p /\ count_ok p /\
    ((exists b, Marshal p = Ok b) <-> 1 <= Function_ p <= 4 /\ Forall tuple_fits (Tuples p)).
Proof. intros data. apply (nbp_Unmarshal_typed data). repeat constructor; const_widths. Defined.
