(* ===== verification/Atalk.v ===== *)
(** * AppleTalk names and DDP packets ([atalk/strings.go], [atalk/raw.go],
      [router/ddp_checksum.go], the hop-count helpers of [router/router.go])

    The DDP packet struct, its marshalling and the protocol numbers belong to
    the multitalk package: the struct is the record [ExtPacket], the rest the
    class [Multitalk], and [MultitalkLaws] states the documented layout of a
    long-header DDP datagram.  The theorems hold for every implementation with
    that layout; [wire_multitalk] is one. *)
From S2P Require Import Prelude AtalkNbp.

Module DDP.

(** ** Addresses *)

Record Addr := MkAddr { a_Network : Z; a_Node : Z }.

#[global] Instance Addr_eq_dec : EqDecision Addr.
Proof. solve_decision. Defined.

#[global] Instance Addr_countable : Countable Addr.
Proof.
  refine (inj_countable' (fun a => (a_Network a, a_Node a)) (fun '(n, d) => MkAddr n d) _). by intros [].
Defined.

(** ** DDP packets *)

Record ExtPacket := MkExt {
  Size : Z; Cksum : Z;
  DstNet : Z; SrcNet : Z; DstNode : Z; SrcNode : Z; DstSocket : Z; SrcSocket : Z;
  Proto : Z; Data : list Z }.

#[global] Instance ExtPacket_eq_dec : EqDecision ExtPacket.
Proof. solve_decision. Defined.

Definition with_Size (v : Z) (p : ExtPacket) : ExtPacket :=
  MkExt v (Cksum p) (DstNet p) (SrcNet p) (DstNode p) (SrcNode p) (DstSocket p) (SrcSocket p)
    (Proto p) (Data p).
Definition with_Cksum (v : Z) (p : ExtPacket) : ExtPacket :=
  MkExt (Size p) v (DstNet p) (SrcNet p) (DstNode p) (SrcNode p) (DstSocket p) (SrcSocket p)
    (Proto p) (Data p).
Definition with_DstNet (v : Z) (p : ExtPacket) : ExtPacket :=
  MkExt (Size p) (Cksum p) v (SrcNet p) (DstNode p) (SrcNode p) (DstSocket p) (SrcSocket p)
    (Proto p) (Data p).
Definition with_SrcNet (v : Z) (p : ExtPacket) : ExtPacket :=
  MkExt (Size p) (Cksum p) (DstNet p) v (DstNode p) (SrcNode p) (DstSocket p) (SrcSocket p)
    (Proto p) (Data p).
Definition with_DstNode (v : Z) (p : ExtPacket) : ExtPacket :=
  MkExt (Size p) (Cksum p) (DstNet p) (SrcNet p) v (SrcNode p) (DstSocket p) (SrcSocket p)
    (Proto p) (Data p).
Definition with_Data (v : list Z) (p : ExtPacket) : ExtPacket :=
  MkExt (Size p) (Cksum p) (DstNet p) (SrcNet p) (DstNode p) (SrcNode p) (DstSocket p)
    (SrcSocket p) (Proto p) v.

(** The Go types of the fields. *)
Definition ext_typed (p : ExtPacket) : Prop :=
  u16 (Size p) /\ u16 (Cksum p) /\ u16 (DstNet p) /\ u16 (SrcNet p) /\ u8 (DstNode p) /\
  u8 (SrcNode p) /\ u8 (DstSocket p) /\ u8 (SrcSocket p) /\ u8 (Proto p) /\ bytes_ok (Data p).

(** ** The multitalk package *)

Class Multitalk := {
  ExtMarshal : ExtPacket -> res (list Z);
  ExtUnmarshal : list Z -> res ExtPacket;
  ProtoRTMPResp : Z; ProtoNBP : Z; ProtoATP : Z; ProtoAEP : Z; ProtoRTMPReq : Z; ProtoZIP : Z;
  AppleTalkBroadcast : list Z }.

(** The part of a long-header datagram that follows the length and the
    checksum. *)
Definition covered (p : ExtPacket) : list Z :=
  put16 (DstNet p) ++ put16 (SrcNet p) ++
  [DstNode p; SrcNode p; DstSocket p; SrcSocket p; Proto p] ++ Data p.

Definition wire (p : ExtPacket) : list Z := put16 (Size p) ++ put16 (Cksum p) ++ covered p.

Class MultitalkLaws `{Multitalk} := {
  ExtMarshal_layout : forall p raw, ExtMarshal p = Ok raw -> raw = wire p;
  ExtMarshal_returns : forall p, ext_typed p -> exists raw, ExtMarshal p = Ok raw;
  ExtUnmarshal_typed : forall data, bytes_ok data -> safe ext_typed (ExtUnmarshal data);
  AppleTalkBroadcast_addr : length AppleTalkBroadcast = 6%nat;
  Proto_distinct :
    NoDup [ProtoRTMPResp; ProtoNBP; ProtoATP; ProtoAEP; ProtoRTMPReq; ProtoZIP] }.

(** ** Checksums *)

Definition DDPExtHeaderSize : Z := 13.
Definition DDPMaxDataSize : Z := 586.

(** [ddp.ExtHeader] of a packet with [data] that this router originates. *)
Definition originate (src : Addr) (srcSocket dstNet dstNode dstSocket proto : Z)
    (data : list Z) : ExtPacket :=
  {| Size := wrap16 (wrap16 (zlen data) + DDPExtHeaderSize); Cksum := 0;
     DstNet := dstNet; SrcNet := a_Network src; DstNode := dstNode; SrcNode := a_Node src;
     DstSocket := dstSocket; SrcSocket := srcSocket; Proto := proto; Data := data |}.

(** [bits.RotateLeft16]. *)
Definition RotateLeft16 (x k : Z) : Z :=
  let s := Z.land k 15 in Z.lor (wrap16 (Z.shiftl x s)) (Z.shiftr x (16 - s)).

Definition ddp_step (checksum value : Z) : Z := RotateLeft16 (wrap16 (checksum + value)) 1.

Section Checksum.
Context `{MT : Multitalk}.

Definition computeDDPChecksum (packet : option ExtPacket) : res Z :=
  match packet with
  | None => Err (Errorf "nil DDP packet" [])
  | Some packet =>
      raw ← wrap_err "marshal DDP for checksum: %w" [] (ExtMarshal packet);
      if zlen raw <? 4 then Err (Errorf "DDP packet too short for checksum" [])
      else
        rest ← slice_from raw 4;
        let checksum := foldl ddp_step 0 rest in
        if checksum =? 0 then Ok 0xffff else Ok checksum
  end.

Definition verifyDDPChecksum (packet : option ExtPacket) : res unit :=
  match packet with
  | None => Ok tt
  | Some p =>
      if Cksum p =? 0 then Ok tt
      else
        let want := Cksum p in
        got ← computeDDPChecksum packet;
        if negb (got =? want) then
          Err (Errorf "invalid DDP checksum: got 0x%04x want 0x%04x" [AInt want; AInt got])
        else Ok tt
  end.

(** ** Hop counts and sizes *)

Definition ddpHopCount (p : ExtPacket) : Z := Z.shiftr (Z.land (Size p) 0x3C00) 10.

Definition setDDPHopCount (hopCount : Z) (p : ExtPacket) : ExtPacket :=
  let size := Z.ldiff (Size p) 0x3C00 in
  with_Size (Z.lor size (wrap16 (Z.shiftl (Z.land hopCount 0x0f) 10))) p.

Definition ddpPacketBytes (p : option ExtPacket) : Z :=
  match p with None => 0 | Some p => 13 + zlen (Data p) end.

Definition setDDPDataSize (dataLen : Z) (p : ExtPacket) : ExtPacket :=
  let hops := Z.land (Size p) 0x3c00 in
  with_Size (Z.lor hops (Z.land (wrap16 (wrap16 dataLen + DDPExtHeaderSize)) 0x03ff)) p.

(** [nbp_aurp_compat.go]; the log line is left out. *)
Definition normalizeAURPNBPFwdReqChecksum (ddpkt : option ExtPacket) : option ExtPacket :=
  match ddpkt with
  | None => ddpkt
  | Some p =>
      if (Cksum p =? 0) || negb (Proto p =? ProtoNBP) then ddpkt
      else
        match NBP.Unmarshal (Data p) with
        | Ok nbpkt =>
            if negb (NBP.Function_ nbpkt =? NBP.FunctionFwdReq) then ddpkt
            else Some (with_Cksum 0 p)
        | _ => ddpkt
        end
  end.

End Checksum.

(** ** Names ([strings.go]) *)

(** The entries of [toUpperMap] that are not zero. *)
Definition toUpperMap (b : Z) : Z :=
  if (0x61 <=? b) && (b <=? 0x7A) then b - 0x20
  else if b =? 0x88 then 0xCB else if b =? 0x8A then 0x80 else if b =? 0x8B then 0xCC
  else if b =? 0x8C then 0x81 else if b =? 0x8D then 0x82 else if b =? 0x8E then 0x83
  else if b =? 0x96 then 0x84 else if b =? 0x9A then 0x85 else if b =? 0x9B then 0xCD
  else if b =? 0x9F then 0x86 else if b =? 0xBE then 0xAE else if b =? 0xBF then 0xAF
  else if b =? 0xCF then 0xCE else 0.

Definition zone_step (cksum b : Z) : Z := RotateLeft16 (wrap16 (cksum + b)) (-1).

Definition Checksum (s : list Z) : Z :=
  let cksum := foldl zone_step 0 s in
  if cksum =? 0 then 0xFFFF else cksum.

Definition ToUpper (s : list Z) : list Z :=
  map (fun b => let u := toUpperMap b in if negb (u =? 0) then u else b) s.

Definition MulticastAddr `{Multitalk} (zone : list Z) : list Z :=
  if bool_decide (zone = []) || bool_decide (zone = str "*") then AppleTalkBroadcast
  else
    let h := Checksum (ToUpper zone) in
    [0x09; 0x00; 0x07; 0x00; 0x00; wrap8 (h mod 0xFD)].

End DDP.

Import DDP.

(** * Lemmas *)

Lemma land_shifted_mask x k n :
  0 <= k -> 0 <= n ->
  Z.land x (Z.shiftl (Z.ones n) k) = (x / 2 ^ k) mod 2 ^ n * 2 ^ k.
Proof.
  intros Hk Hn. rewrite <- Z.shiftr_div_pow2, <- Z.land_ones, <- Z.shiftl_mul_pow2 by done.
  apply Z.bits_inj'. intros i Hi. rewrite Z.land_spec. destruct (decide (i < k)).
  - by rewrite !Z.shiftl_spec_low, andb_false_r.
  - rewrite !Z.shiftl_spec, Z.land_spec, Z.shiftr_spec by lia. do 2 f_equal. lia.
Qed.

Lemma ldiff_land x m : 0 <= m -> Z.ldiff x m = x - Z.land x m.
Proof.
  intros Hm. pose proof (Z.lor_ldiff_and x m) as E.
  rewrite <- Z.add_nocarry_lor in E; [lia|].
  apply Z.bits_inj'. intros i Hi. rewrite !Z.land_spec, Z.ldiff_spec, Z.bits_0.
  by destruct (Z.testbit x i), (Z.testbit m i).
Qed.

Lemma land_hops x : Z.land x 0x3C00 = (x / 1024) mod 16 * 1024.
Proof. exact (land_shifted_mask x 10 4 ltac:(lia) ltac:(lia)). Qed.

Lemma ldiff_hops x : Z.ldiff x 0x3C00 = x - (x / 1024) mod 16 * 1024.
Proof. by rewrite ldiff_land, land_hops. Qed.

Lemma RotateLeft16_1 x : u16 x -> RotateLeft16 x 1 = (2 * x) mod 65536 + x / 32768.
Proof.
  unfold u16. intros Hx. unfold RotateLeft16. change (Z.land 1 15) with 1. cbn zeta.
  rewrite Z.shiftl_mul_pow2, Z.shiftr_div_pow2 by lia. change (2 ^ 1) with 2.
  change (2 ^ (16 - 1)) with 32768. unfold wrap16.
  replace (x * 2) with (2 * x) by lia. rewrite <- Z.add_nocarry_lor; [done|].
  replace ((2 * x) mod 65536) with (Z.shiftl (x mod 32768) 1).
  2: { rewrite Z.shiftl_mul_pow2 by lia. change 65536 with (2 * 32768).
       rewrite Z.mul_mod_distr_l by lia. change (2 ^ 1) with 2. lia. }
  apply land_shiftl_small; [lia|]. change (2 ^ 1) with 2.
  pose proof (Z.div_lt_upper_bound x 32768 2). pose proof (Z.div_pos x 32768). lia.
Qed.

Lemma RotateLeft16_u16 x : u16 x -> u16 (RotateLeft16 x 1).
Proof.
  intros Hx. rewrite RotateLeft16_1 by done. unfold u16 in *.
  Z.to_euclidean_division_equations. lia.
Qed.

Lemma RotateLeft16_inj x y :
  u16 x -> u16 y -> RotateLeft16 x 1 = RotateLeft16 y 1 -> x = y.
Proof.
  intros Hx Hy. rewrite !RotateLeft16_1 by done. unfold u16 in *.
  intros H. Z.to_euclidean_division_equations. lia.
Qed.

(** The checksum's state after some bytes determines them one at a time. *)
Lemma ddp_step_u16 c b : u16 (ddp_step c b).
Proof. apply RotateLeft16_u16. unfold u16, wrap16. apply Z.mod_pos_bound. lia. Qed.

Lemma ddp_step_inj c b c' b' :
  u16 c -> u16 c' -> u8 b -> u8 b' -> ddp_step c b = ddp_step c' b' ->
  (c = c' <-> b = b').
Proof.
  unfold ddp_step. intros Hc Hc' Hb Hb' H%RotateLeft16_inj;
    [|unfold u16, wrap16; apply Z.mod_pos_bound; lia..].
  unfold u16, u8, wrap16 in *. Z.to_euclidean_division_equations. lia.
Qed.

Lemma ddp_sum_u16 l c : u16 c -> u16 (foldl ddp_step c l).
Proof. revert c. induction l; intros c Hc; [done|]. apply IHl, ddp_step_u16. Qed.

Lemma ddp_sum_inj l c c' :
  bytes_ok l -> u16 c -> u16 c' -> foldl ddp_step c l = foldl ddp_step c' l -> c = c'.
Proof.
  intros Hl. revert c c'. induction Hl as [|b l Hb _ IH]; intros c c' Hc Hc' H; [done|].
  apply IH in H; [|apply ddp_step_u16..]. by eapply (ddp_step_inj c b c' b).
Qed.

Lemma ddp_sum_detects l1 a b l2 :
  bytes_ok l2 -> u8 a -> u8 b -> a <> b ->
  foldl ddp_step 0 (l1 ++ a :: l2) <> foldl ddp_step 0 (l1 ++ b :: l2).
Proof.
  intros Hl Ha Hb Hab. rewrite !foldl_app. cbn [foldl].
  intros H%ddp_sum_inj; [|done|apply ddp_step_u16..]. apply Hab.
  assert (u16 (foldl ddp_step 0 l1)) by (apply ddp_sum_u16; unfold u16; lia).
  by apply (ddp_step_inj _ a _ b) in H; [apply H|..].
Qed.

(** ** Sizes and hop counts *)

Lemma hops_bound p : 0 <= ddpHopCount p <= 15.
Proof.
  unfold ddpHopCount. rewrite land_hops, Z.shiftr_div_pow2 by lia. change (2 ^ 10) with 1024.
  rewrite Z.div_mul by lia. pose proof (Z.mod_pos_bound (Size p / 1024) 16). lia.
Qed.

Lemma hop_bits h : 0 <= h <= 15 -> wrap16 (Z.shiftl (Z.land h 0x0f) 10) = h * 1024.
Proof.
  intros Hh. change 0x0f with (Z.ones 4). rewrite Z.land_ones, Z.shiftl_mul_pow2 by lia.
  change (2 ^ 4) with 16. change (2 ^ 10) with 1024. unfold wrap16.
  rewrite (Z.mod_small h), Z.mod_small by lia. done.
Qed.

(** Setting the hop count changes bits 10 to 13 of the size and no others. *)
Lemma setDDPHopCount_size h p :
  u16 (Size p) -> 0 <= h <= 15 ->
  Size (setDDPHopCount h p) = Size p + (h - ddpHopCount p) * 1024.
Proof.
  intros Hs Hh. unfold setDDPHopCount, ddpHopCount. cbn [Size with_Size].
  rewrite hop_bits by done. rewrite <- Z.add_nocarry_lor.
  - rewrite ldiff_hops, land_hops, Z.shiftr_div_pow2 by lia. change (2 ^ 10) with 1024.
    rewrite Z.div_mul by lia. lia.
  - rewrite <- (hop_bits h) by done. unfold wrap16.
    replace (Z.shiftl (Z.land h 15) 10 mod 65536) with (Z.land (Z.shiftl h 10) 0x3C00).
    + apply Z.bits_inj'. intros i Hi. rewrite !Z.land_spec, Z.ldiff_spec, Z.bits_0.
      destruct (Z.testbit 0x3C00 i); by rewrite ?andb_false_r, ?andb_true_r.
    + rewrite land_hops. change 15 with (Z.ones 4). rewrite Z.land_ones, !Z.shiftl_mul_pow2 by lia.
      change (2 ^ 10) with 1024. change (2 ^ 4) with 16. rewrite Z.div_mul by lia.
      rewrite (Z.mod_small h), Z.mod_small by lia. done.
Qed.

Lemma setDDPHopCount_u16 h p :
  u16 (Size p) -> 0 <= h <= 15 -> u16 (Size (setDDPHopCount h p)).
Proof.
  intros Hs Hh. rewrite setDDPHopCount_size by done. pose proof (hops_bound p).
  unfold ddpHopCount in *. rewrite land_hops, Z.shiftr_div_pow2 in * by lia.
  change (2 ^ 10) with 1024 in *. rewrite Z.div_mul in * by lia. unfold u16 in *.
  Z.to_euclidean_division_equations. lia.
Qed.

Lemma setDDPHopCount_get h p :
  u16 (Size p) -> 0 <= h <= 15 -> ddpHopCount (setDDPHopCount h p) = h.
Proof.
  intros Hs Hh. unfold ddpHopCount at 1. rewrite setDDPHopCount_size by done.
  unfold ddpHopCount. rewrite !land_hops, !Z.shiftr_div_pow2 by lia.
  change (2 ^ 10) with 1024. rewrite !Z.div_mul by lia.
  unfold u16 in Hs. Z.to_euclidean_division_equations. lia.
Qed.

(** The length in the low bits is left alone. *)
Lemma setDDPHopCount_low h p :
  u16 (Size p) -> 0 <= h <= 15 -> Z.land (Size (setDDPHopCount h p)) 0x3FF = Z.land (Size p) 0x3FF.
Proof.
  intros Hs Hh. rewrite setDDPHopCount_size by done. change 0x3FF with (Z.ones 10).
  rewrite !Z.land_ones by lia. change (2 ^ 10) with 1024. by rewrite Z.mod_add.
Qed.

(** * Properties *)

(** The DDP checksum as Inside AppleTalk describes it: add the byte, then
    shift left, the bit that falls out becoming the lowest one. *)
Definition ref_step (c b : Z) : Z :=
  let s := (c + b) mod 65536 in if s <? 32768 then 2 * s else 2 * s - 65536 + 1.

Definition ref_checksum (l : list Z) : Z :=
  let s := foldl ref_step 0 l in if s =? 0 then 65535 else s.

Lemma ddp_step_ref c b : ddp_step c b = ref_step c b.
Proof.
  unfold ddp_step, ref_step, wrap16. pose proof (Z.mod_pos_bound (c + b) 65536).
  rewrite RotateLeft16_1 by (unfold u16; lia). cbn zeta. set (s := (c + b) mod 65536) in *.
  case_if; zbool; Z.to_euclidean_division_equations; lia.
Qed.

Lemma ddp_sum_ref l c : foldl ddp_step c l = foldl ref_step c l.
Proof. revert c. induction l as [|b l IH]; intros c; [done|]. cbn [foldl]. by rewrite ddp_step_ref. Qed.

Section Theorems.
Context `{MT : Multitalk} {ML : MultitalkLaws}.

Lemma MulticastAddr_length zone : length (MulticastAddr zone) = 6%nat.
Proof. unfold MulticastAddr. case_if; [apply AppleTalkBroadcast_addr|done]. Qed.

Lemma computeDDPChecksum_ok p :
  ext_typed p -> computeDDPChecksum (Some p) = Ok (ref_checksum (covered p)).
Proof.
  intros Hp. destruct (ExtMarshal_returns p Hp) as (raw & E).
  pose proof (ExtMarshal_layout p raw E) as ->. unfold computeDDPChecksum. rewrite E.
  cbn [wrap_err]. rewrite bind_Ok. unfold wire. rewrite !zlen_app, !zlen_put16.
  pose proof (zlen_nonneg (covered p)). zdec.
  rewrite app_assoc, slice_from_app by (by rewrite zlen_app, !zlen_put16).
  rewrite bind_Ok. unfold ref_checksum. rewrite ddp_sum_ref. cbn zeta. by case_if.
Qed.

Lemma verify_spec p :
  ext_typed p ->
  (verifyDDPChecksum (Some p) = Ok tt <-> Cksum p = 0 \/ Cksum p = ref_checksum (covered p)).
Proof.
  intros Hp. unfold verifyDDPChecksum. case_if; zbool; [tauto|].
  rewrite computeDDPChecksum_ok by done. rewrite bind_Ok. case_if; zbool.
  - split; [done|]. intros [?|?]; congruence.
  - split; [by right|done].
Qed.

Lemma verify_cases p :
  ext_typed p -> verifyDDPChecksum (Some p) = Ok tt \/ exists e, verifyDDPChecksum (Some p) = Err e.
Proof.
  intros Hp. unfold verifyDDPChecksum. case_if; [by left|].
  rewrite computeDDPChecksum_ok, bind_Ok by done. case_if; [|by left]. right. by eexists.
Qed.

Lemma covered_ok p : ext_typed p -> bytes_ok (covered p).
Proof.
  intros (_ & _ & _ & _ & ? & ? & ? & ? & ? & ?). unfold covered, bytes_ok.
  apply Forall_app; split; [apply put16_ok|]. apply Forall_app; split; [apply put16_ok|].
  cbn [app]. by do 5 (apply Forall_cons; split; [done|]).
Qed.

Lemma setDDPHopCount_typed h p : ext_typed p -> 0 <= h <= 15 -> ext_typed (setDDPHopCount h p).
Proof. intros (Hs & H) Hh. split; [by apply setDDPHopCount_u16|exact H]. Qed.

(** C23: the optimized checksum (a 16-bit addition and a one-bit rotation) is
    the one Inside AppleTalk defines, verification accepts exactly the packets
    that carry it or carry no checksum (zero), and the length and hop-count
    fields are not covered, so that a router can count hops without touching
    the checksum. *)
Theorem ddp_checksum_reference (p : ExtPacket) :
  ext_typed p ->
  computeDDPChecksum (Some p) = Ok (ref_checksum (covered p)) /\
  (verifyDDPChecksum (Some p) = Ok tt <-> Cksum p = 0 \/ Cksum p = ref_checksum (covered p)) /\
  (forall h, 0 <= h <= 15 ->
     (verifyDDPChecksum (Some (setDDPHopCount h p)) = Ok tt <-> verifyDDPChecksum (Some p) = Ok tt)).
Proof.
  intros Hp. split; [by apply computeDDPChecksum_ok|]. split; [by apply verify_spec|].
  intros h Hh. by rewrite !verify_spec by auto using setDDPHopCount_typed.
Qed.

(** A checksummed packet (the checksum neither 0, which means none, nor
    0xffff, which also stands for a sum of 0) in which a single byte of the
    addresses, the type or the data is corrupted is rejected. *)
Theorem ddp_checksum_detects (p q : ExtPacket) (l1 l2 : list Z) (a b : Z) :
  ext_typed p -> ext_typed q -> Cksum q = Cksum p -> Cksum p <> 0 -> Cksum p <> 0xffff ->
  covered p = l1 ++ a :: l2 -> covered q = l1 ++ b :: l2 -> a <> b ->
  verifyDDPChecksum (Some p) = Ok tt ->
  exists e, verifyDDPChecksum (Some q) = Err e.
Proof.
  intros Hp Hq Hc H0 H1 Ep Eq Hab Hv.
  destruct (verify_cases q Hq) as [Hv'|He]; [exfalso|exact He].
  apply (verify_spec p Hp) in Hv as [?|Hv]; [done|].
  apply (verify_spec q Hq) in Hv' as [?|Hv']; [congruence|].
  pose proof (covered_ok p Hp) as Op. pose proof (covered_ok q Hq) as Oq.
  rewrite Ep, Eq in *. apply bytes_ok_app in Op as [_ [Ha Ol]%Forall_cons].
  apply bytes_ok_app in Oq as [_ [Hb _]%Forall_cons].
  apply (ddp_sum_detects l1 a b l2); [done..|]. rewrite !ddp_sum_ref.
  unfold ref_checksum in Hv, Hv'. repeat case_if_in Hv; repeat case_if_in Hv'; congruence.
Qed.

End Theorems.

(** An implementation of the multitalk functions with the documented layout. *)
Definition wire_unmarshal (b : list Z) : res ExtPacket :=
  if zlen b <? 13 then Err (Errorf "short DDP packet" [])
  else
    size ← be16 b; cksum ← slice_from b 2 ≫= be16; dst ← slice_from b 4 ≫= be16;
    src ← slice_from b 6 ≫= be16; dn ← idx b 8; sn ← idx b 9; ds ← idx b 10; ss ← idx b 11;
    proto ← idx b 12; data ← slice_from b 13;
    Ok (MkExt size cksum dst src dn sn ds ss proto data).

#[export] Instance wire_multitalk : Multitalk := {|
  ExtMarshal p := Ok (wire p); ExtUnmarshal := wire_unmarshal;
  ProtoRTMPResp := 1; ProtoNBP := 2; ProtoATP := 3; ProtoAEP := 4; ProtoRTMPReq := 5;
  ProtoZIP := 6; AppleTalkBroadcast := [9; 0; 7; 255; 255; 255] |}.

Lemma safe_field_from p i :
  bytes_ok p -> 0 <= i -> i + 2 <= zlen p -> safe u16 (slice_from p i ≫= be16).
Proof.
  intros. eapply safe_bind; [apply safe_slice_from; [done|lia]|].
  intros q [? ?]. apply safe_be16; [done|lia].
Qed.

Lemma wire_unmarshal_typed data : bytes_ok data -> safe ext_typed (wire_unmarshal data).
Proof.
  intros Hd. unfold wire_unmarshal. safe_step; [done|].
  safe_step. do 3 (eapply safe_bind; [apply safe_field_from; [done|lia|lia]|intros ? ?]).
  repeat safe_step. cbn [safe]. unfold ext_typed. by repeat (split; [done|]).
Qed.

#[export] Instance wire_laws : MultitalkLaws.
Proof.
  split; [intros p raw [= <-]; reflexivity|intros p _; by eexists|apply wire_unmarshal_typed|done|].
  apply (bool_decide_unpack _). by vm_compute.
Qed.

Definition wit_ext : ExtPacket :=
  MkExt 0x0411 0x53b4 3 7 1 2 4 4 4 [1; 2; 3; 4].

Lemma wit_ext_typed : ext_typed wit_ext.
Proof. const_widths. Qed.

Example wit_checksum : computeDDPChecksum (Some wit_ext) = Ok (ref_checksum (covered wit_ext)).
Proof. reflexivity. Qed.

Example ddp_checksum_reference_witness :
  computeDDPChecksum (Some wit_ext) = Ok (ref_checksum (covered wit_ext)) /\
  (verifyDDPChecksum (Some wit_ext) = Ok tt <->
     Cksum wit_ext = 0 \/ Cksum wit_ext = ref_checksum (covered wit_ext)) /\
  (forall h, 0 <= h <= 15 ->
     (verifyDDPChecksum (Some (setDDPHopCount h wit_ext)) = Ok tt <->
      verifyDDPChecksum (Some wit_ext) = Ok tt)).
Proof. apply (ddp_checksum_reference wit_ext wit_ext_typed). Defined.

Example ddp_checksum_detects_witness :
  verifyDDPChecksum (Some wit_ext) = Ok tt /\
  exists e, verifyDDPChecksum (Some (with_Data [1; 2; 9; 4] wit_ext)) = Err e.
Proof.
  split; [reflexivity|].
  apply (ddp_checksum_detects wit_ext (with_Data [1; 2; 9; 4] wit_ext)
    [0; 3; 0; 7; 1; 2; 4; 4; 4; 1; 2] [4] 3 9); try reflexivity; try const_widths.
Defined.

(** ** Zone multicast addresses *)

Definition up (b : Z) : Z := let u := toUpperMap b in if negb (u =? 0) then u else b.

Lemma up_idem b : u8 b -> (up (up b) =? up b) = true.
Proof. intros Hb. by_bytes b. Qed.

Lemma up_star b : u8 b -> (negb (up b =? 42) || (b =? 42)) = true.
Proof. intros Hb. by_bytes b. Qed.

Lemma ToUpper_idem s : bytes_ok s -> ToUpper (ToUpper s) = ToUpper s.
Proof.
  intros Hs. change ToUpper with (map up). rewrite map_map.
  induction Hs as [|b s Hb _ IH]; [done|].
  cbn [map]. rewrite IH. f_equal. by apply Z.eqb_eq, up_idem.
Qed.

Lemma ToUpper_nil s : ToUpper s = [] <-> s = [].
Proof. by destruct s. Qed.

Lemma ToUpper_star s : bytes_ok s -> ToUpper s = str "*" <-> s = str "*".
Proof.
  intros Hs. split; [|by intros ->]. destruct s as [|b [|c s]]; try done.
  apply Forall_cons in Hs as [Hb _]. change (ToUpper [b]) with [up b]. intros [= E].
  pose proof (up_star b Hb) as [Eb|Eb]%orb_prop; zbool; [done|by subst].
Qed.

(** The Ethernet multicast address of a zone is one of the 253 of the
    AppleTalk block, the broadcast address stands for the default zone, and
    zone names that are equal up to case - AppleTalk's case mapping - get the
    same address. *)
Theorem zone_multicast_well_defined `{Multitalk} (z z' : list Z) :
  bytes_ok z -> bytes_ok z' -> ToUpper z = ToUpper z' ->
  MulticastAddr z = MulticastAddr z' /\
  (MulticastAddr z = AppleTalkBroadcast \/
   exists k, 0 <= k < 253 /\ MulticastAddr z = [0x09; 0x00; 0x07; 0x00; 0x00; k]).
Proof.
  intros Hz Hz' E. split.
  - pose proof (ToUpper_nil z) as N. pose proof (ToUpper_star z Hz) as S.
    rewrite E, ToUpper_nil in N. rewrite E, ToUpper_star in S by done.
    unfold MulticastAddr. rewrite E.
    by rewrite (bool_decide_ext (z = []) (z' = []) (iff_sym N)),
      (bool_decide_ext (z = str "*") (z' = str "*") (iff_sym S)).
  - unfold MulticastAddr. case_if; [by left|]. right. cbn zeta.
    pose proof (Z.mod_pos_bound (Checksum (ToUpper z)) 0xFD ltac:(lia)).
    exists (Checksum (ToUpper z) mod 0xFD). split; [lia|]. rewrite wrap8_small; [done|unfold u8; lia].
Qed.

Example zone_multicast_well_defined_witness :
  MulticastAddr (str "Ethernet") = MulticastAddr (str "ETHERNET") /\
  (MulticastAddr (str "Ethernet") = AppleTalkBroadcast \/
   exists k, 0 <= k < 253 /\ MulticastAddr (str "Ethernet") = [0x09; 0x00; 0x07; 0x00; 0x00; k]).
Proof. apply zone_multicast_well_defined; [const_widths|const_widths|reflexivity]. Defined.
