(* ===== verification/AtalkRtmp.v ===== *)
(** * RTMP packets ([atalk/rtmp/data.go], [request.go], [response.go])

    The Routing Table Maintenance Protocol codec: Data packets with their
    network tuples, Requests (among them the loop probe of AURP) and Responses.
    The loop of [UnmarshalDataPacket] has the input length as fuel; running out
    would be a [Panic], so the totality theorem is also termination. *)
From S2P Require Import Prelude AtalkNbp Atalk.
Import DDP.

Module RTMP.

(** ** Data packets *)

Record NetworkTuple := MkTuple {
  Extended : bool; RangeStart : Z; RangeEnd : Z; Distance : Z }.

Record DataPacket := MkData {
  RouterAddr : Addr; dp_Extended : bool; NetworkTuples : list NetworkTuple }.

#[global] Instance NetworkTuple_eq_dec : EqDecision NetworkTuple.
Proof. solve_decision. Defined.
#[global] Instance DataPacket_eq_dec : EqDecision DataPacket.
Proof. solve_decision. Defined.

Definition NetworkTuple_Size (nt : NetworkTuple) : Z := if Extended nt then 6 else 3.

(** The body of the loop over the tuples: what one of them appends. *)
Definition write_tuple (nt : NetworkTuple) : list Z :=
  put16 (RangeStart nt) ++
  if negb (Extended nt) then [Distance nt]
  else [Z.lor (Distance nt) 0x80] ++ put16 (RangeEnd nt) ++ [0x82].

Definition DataPacket_Marshal (dp : DataPacket) : res (list Z) :=
  let b := put16 (a_Network (RouterAddr dp)) ++ [8] ++ [a_Node (RouterAddr dp)] in
  let b := if negb (dp_Extended dp) then b ++ put16 0 ++ [0x82] else b in
  Ok (foldl (fun b nt => b ++ write_tuple nt) b (NetworkTuples dp)).

(** The loop of [UnmarshalDataPacket]; the flags are [first] and [dp.Extended]. *)
Fixpoint read_data_tuples (fuel : nat) (first ext : bool) (nts : list NetworkTuple)
    (data : list Z) : res (bool * list NetworkTuple) :=
  if 0 <? zlen data then
    match fuel with
    | O => Panic
    | S fuel =>
        if zlen data <? 3 then
          Err (Errorf "insufficient remaining input length %d for RTMP Data network tuple"
                 [AInt (zlen data)])
        else
          start ← slice_to data 2 ≫= be16;
          distance ← idx data 2;
          data ← slice_from data 3;
          if start =? 0 then
            if negb first then Err (Errorf "invalid RTMP network tuple range start 0" [])
            else if negb (distance =? 0x82) then
              Err (Errorf "unsupported RTMP version %x" [AInt distance])
            else read_data_tuples fuel false false nts data
          else if negb (negb (Z.land distance 0x80 =? 0)) then
            if first && negb (start =? 0) then
              Err (Errorf "first RTMP network tuple is not version tuple" [])
            else read_data_tuples fuel first ext (nts ++ [MkTuple false start start distance]) data
          else if zlen data <? 3 then
            Err (Errorf "insufficient remaining input length %d for RTMP Data extended network tuple"
                   [AInt (zlen data)])
          else
            rangeEnd ← slice_to data 2 ≫= be16;
            version ← idx data 2;
            if first && negb (version =? 0x82) then
              Err (Errorf "unsupported RTMP version %x" [AInt version])
            else
              data ← slice_from data 3;
              read_data_tuples fuel false ext
                (nts ++ [MkTuple true start rangeEnd (Z.ldiff distance 0x80)]) data
    end
  else Ok (ext, nts).

Definition UnmarshalDataPacket (data : list Z) : res DataPacket :=
  if (zlen data <? 7) || negb (Z.rem (zlen data - 4) 3 =? 0) then
    Err (Errorf "invalid input length %d for RTMP Data packet" [AInt (zlen data)])
  else
    idlen ← idx data 2;
    if negb (idlen =? 8) then
      Err (Errorf "unsupported node ID length %d for RTMP Data packet" [AInt idlen])
    else
      network ← slice_to data 2 ≫= be16;
      node ← idx data 3;
      data ← slice_from data 4;
      '(ext, nts) ← read_data_tuples (length data) true true [] data;
      Ok (MkData (MkAddr network node) ext nts).

(** ** Requests *)

Definition FunctionRequest : Z := 1.
Definition FunctionRDRSplitHorizon : Z := 2.
Definition FunctionRDRComplete : Z := 3.
Definition FunctionLoopProbe : Z := 4.

Record RequestPacket := MkRequest { Function_ : Z; Data : list Z }.

#[global] Instance RequestPacket_eq_dec : EqDecision RequestPacket.
Proof. solve_decision. Defined.

Definition RequestPacket_Marshal (rp : RequestPacket) : res (list Z) :=
  if (Function_ rp <? 1) || (4 <? Function_ rp) then
    Err (Errorf "invalid RTMP request function %d" [AInt (Function_ rp)])
  else if Function_ rp =? FunctionLoopProbe then
    Ok ([Function_ rp; 0x00; 0x00; 0x00; 0x00] ++ Data rp)
  else if 0 <? zlen (Data rp) then
    Err (Errorf "data field only valid for RTMP Loop Probe" [])
  else Ok [Function_ rp].

Definition UnmarshalRequestPacket (data : list Z) : res RequestPacket :=
  if zlen data <? 1 then
    Err (Errorf "invalid data length %d for RTMP request packet" [AInt (zlen data)])
  else
    f ← idx data 0;
    if f =? FunctionLoopProbe then
      if zlen data <? 5 then
        Err (Errorf "insufficient data length %d for RTMP Loop Probe" [AInt (zlen data)])
      else d ← slice_from data 5; Ok (MkRequest f d)
    else Ok (MkRequest f []).

(** ** Responses *)

Record ResponsePacket := MkResponse {
  SenderAddr : Addr; rp_Extended : bool; rp_RangeStart : Z; rp_RangeEnd : Z }.

#[global] Instance ResponsePacket_eq_dec : EqDecision ResponsePacket.
Proof. solve_decision. Defined.

Definition ResponsePacket_Marshal (rp : ResponsePacket) : res (list Z) :=
  let b := put16 (a_Network (SenderAddr rp)) ++ [8] ++ [a_Node (SenderAddr rp)] in
  if negb (rp_Extended rp) then Ok b
  else Ok (b ++ put16 (rp_RangeStart rp) ++ [0x80] ++ put16 (rp_RangeEnd rp) ++ [0x82]).

(** The code never sets the field [Extended] of the result. *)
Definition UnmarshalResponsePacket (data : list Z) : res ResponsePacket :=
  if negb (zlen data =? 4) && negb (zlen data =? 10) then
    Err (Errorf "invalid input length %d for RTMP Response packet" [AInt (zlen data)])
  else
    idlen ← idx data 2;
    if negb (idlen =? 8) then
      Err (Errorf "unsupported node ID length %d for RTMP Response packet" [AInt idlen])
    else
      network ← slice_to data 2 ≫= be16;
      node ← idx data 3;
      if zlen data =? 4 then Ok (MkResponse (MkAddr network node) false 0 0)
      else
        start ← slice data 4 6 ≫= be16;
        b6 ← idx data 6;
        if negb (b6 =? 0x80) then
          Err (Errorf "invalid intermediate byte %x for RTMP Response packet" [AInt b6])
        else
          rangeEnd ← slice data 7 9 ≫= be16;
          b9 ← idx data 9;
          if negb (b9 =? 0x82) then
            Err (Errorf "unsupported version %x for RTMP Response packet" [AInt b9])
          else Ok (MkResponse (MkAddr network node) false start rangeEnd).

(** ** Well-formedness *)

Definition addr_typed (a : Addr) : Prop := u16 (a_Network a) /\ u8 (a_Node a).

Definition nt_typed (nt : NetworkTuple) : Prop :=
  u16 (RangeStart nt) /\ u16 (RangeEnd nt) /\ u8 (Distance nt).

Definition data_typed (dp : DataPacket) : Prop :=
  addr_typed (RouterAddr dp) /\ Forall nt_typed (NetworkTuples dp).

(** A tuple the format can express. *)
Definition nt_valid (nt : NetworkTuple) : Prop :=
  RangeStart nt <> 0 /\ Distance nt < 128 /\
  (Extended nt = false -> RangeEnd nt = RangeStart nt).

(** On an extended network the first tuple is the cable range, and is extended. *)
Definition data_valid (dp : DataPacket) : Prop :=
  Forall nt_valid (NetworkTuples dp) /\
  (dp_Extended dp = true -> exists nt nts, NetworkTuples dp = nt :: nts /\ Extended nt = true).

End RTMP.

Import RTMP.

(** * Lemmas *)

Lemma Marshal_data dp :
  DataPacket_Marshal dp = Ok (put16 (a_Network (RouterAddr dp)) ++ [8; a_Node (RouterAddr dp)]
    ++ (if dp_Extended dp then [] else put16 0 ++ [0x82])
    ++ concat (map write_tuple (NetworkTuples dp))).
Proof.
  unfold DataPacket_Marshal. rewrite foldl_concat. by destruct (dp_Extended dp).
Qed.

(** A byte tuple whose distance byte has the high bit clear is non-extended. *)
Lemma ext_bit_clear d : 0 <= d < 128 -> Z.land d 128 =? 0 = true.
Proof. intros H. rewrite land_high_zero by (unfold u8; lia). by zdec. Qed.

Lemma ext_bit_set d : 0 <= d < 128 -> Z.land (d + 128) 128 =? 0 = false.
Proof. intros H. rewrite land_high_zero by (unfold u8; lia). by zdec. Qed.

Lemma read_extended fuel first ext acc nt rest :
  nt_typed nt -> nt_valid nt -> Extended nt = true ->
  read_data_tuples (S fuel) first ext acc (write_tuple nt ++ rest)
  = read_data_tuples fuel false ext (acc ++ [nt]) rest.
Proof.
  intros (Hs & He & Hd) (Hz & Hlt & _) Hx. unfold write_tuple. rewrite Hx. cbn [negb].
  unfold u8 in Hd. rewrite lor_high_small by lia. rewrite <- !app_assoc.
  cbn [read_data_tuples]. autorewrite with wire. pose proof (zlen_nonneg rest). zdec.
  cbn [put16 app]. go_slices. rewrite !fields16 by done. autorewrite with wire. zdec.
  rewrite ext_bit_set, ldiff_high_add by lia. cbn [negb andb Z.eqb Pos.eqb]. rewrite andb_false_r.
  f_equal. destruct nt. simpl in *. by subst.
Qed.

Lemma read_plain fuel ext acc nt rest :
  nt_typed nt -> nt_valid nt -> Extended nt = false ->
  read_data_tuples (S fuel) false ext acc (write_tuple nt ++ rest)
  = read_data_tuples fuel false ext (acc ++ [nt]) rest.
Proof.
  intros (Hs & He & Hd) (Hz & Hlt & Hr) Hx. unfold write_tuple. rewrite Hx. cbn [negb].
  unfold u8 in Hd. rewrite <- !app_assoc.
  cbn [read_data_tuples]. autorewrite with wire. pose proof (zlen_nonneg rest). zdec.
  cbn [put16 app]. go_slices. rewrite !fields16 by done. autorewrite with wire. zdec.
  rewrite ext_bit_clear by lia. cbn [negb andb].
  f_equal. specialize (Hr Hx). destruct nt. simpl in *. by subst.
Qed.

Lemma read_version fuel ext acc rest :
  read_data_tuples (S fuel) true ext acc (put16 0 ++ [0x82] ++ rest)
  = read_data_tuples fuel false false acc rest.
Proof.
  cbn [read_data_tuples]. autorewrite with wire. pose proof (zlen_nonneg rest). zdec.
  cbn [put16 app]. by go_slices.
Qed.

Lemma read_all nts fuel ext acc :
  Forall nt_typed nts -> Forall nt_valid nts -> (length nts <= fuel)%nat ->
  read_data_tuples fuel false ext acc (concat (map write_tuple nts)) = Ok (ext, acc ++ nts).
Proof.
  revert fuel acc. induction nts as [|nt nts IH]; intros fuel acc Ht Hv Hf.
  - rewrite app_nil_r. by destruct fuel.
  - destruct fuel as [|fuel]; [simpl in Hf; lia|]. simpl in Hf.
    apply Forall_cons in Ht as [Ht1 Ht]. apply Forall_cons in Hv as [Hv1 Hv]. cbn [map concat].
    destruct (Extended nt) eqn:Hx; [rewrite read_extended by done|rewrite read_plain by done];
      rewrite IH, <- app_assoc by (done || lia); done.
Qed.

Lemma write_tuple_length nt : (3 <= length (write_tuple nt))%nat.
Proof. unfold write_tuple. destruct (Extended nt); cbn -[put16]; rewrite length_app; cbn; lia. Qed.

Lemma tuples_length nts :
  (3 * length nts <= length (concat (map write_tuple nts)))%nat /\
  zlen (concat (map write_tuple nts)) mod 3 = 0.
Proof.
  induction nts as [|nt nts [IH1 IH2]]; [done|]. cbn [map concat]. rewrite length_app, zlen_app. split.
  - pose proof (write_tuple_length nt). cbn [length]. lia.
  - assert (E : zlen (write_tuple nt) = 3 \/ zlen (write_tuple nt) = 6)
      by (unfold write_tuple; destruct (Extended nt); [right|left]; done).
    rewrite Z.add_mod, IH2 by lia. by destruct E as [-> | ->].
Qed.

Lemma data_roundtrip dp b :
  data_typed dp -> data_valid dp -> DataPacket_Marshal dp = Ok b -> UnmarshalDataPacket b = Ok dp.
Proof.
  intros [[Hn _] Hty] [Hv Hfst] H. rewrite Marshal_data in H. injection H as <-.
  set (nts := NetworkTuples dp) in *. set (body := _ ++ concat _).
  pose proof (tuples_length nts) as [Hl Hm].
  assert (Hb : zlen body mod 3 = 0 /\ 3 <= zlen body /\ (length nts < length body)%nat).
  { unfold body. rewrite zlen_app, length_app. destruct (dp_Extended dp).
    - destruct (Hfst eq_refl) as (nt & nts' & E & _). fold nts in E. rewrite E in *.
      rewrite zlen_nil. cbn [length] in *. unfold zlen in *. split; [done|]. lia.
    - rewrite !zlen_cons, zlen_nil. cbn [length]. pose proof (zlen_nonneg (concat (map write_tuple nts))).
      split; [by rewrite Z.add_mod, Hm by lia|lia]. }
  destruct Hb as (Hb & H3 & Hlb).
  unfold UnmarshalDataPacket. rewrite !zlen_cons.
  replace (zlen body + 1 + 1 + 1 + 1 - 4) with (zlen body) by lia.
  rewrite Z.rem_mod_nonneg, Hb by lia. zdec. cbn [put16 app orb negb Z.eqb]. go_slices.
  rewrite fields16 by done. cbn [negb].
  assert (E : read_data_tuples (length body) true true [] body = Ok (dp_Extended dp, nts)).
  { destruct (length body) as [|f] eqn:El; [lia|]. unfold body.
    destruct (dp_Extended dp) eqn:Ex.
    - destruct (Hfst eq_refl) as (nt & nts' & E & Hx). fold nts in E. rewrite E in *.
      apply Forall_cons in Hty as [Ht1 Ht]. apply Forall_cons in Hv as [Hv1 Hv].
      cbn [app map concat]. rewrite read_extended, read_all by (done || (simpl in Hlb; lia)). done.
    - etransitivity; [apply (read_version f true [])|]. apply read_all; (done || lia). }
  rewrite E. simpl. by destruct dp as [[]].
Qed.

(** What the loop returns, whatever it reads. *)
Lemma read_safe fuel first ext acc data :
  bytes_ok data -> zlen data <= Z.of_nat fuel ->
  safe (fun '(e, nts) => exists new, nts = acc ++ new /\ Forall nt_typed new /\ Forall nt_valid new /\
          (ext = false -> e = false) /\
          (first = true -> data <> [] -> e = true -> exists nt l, new = nt :: l /\ Extended nt = true))
       (read_data_tuples fuel first ext acc data).
Proof.
  revert first ext acc data. induction fuel as [|fuel IH]; intros first ext acc data Hd Hf.
  { destruct data; [|unfold zlen in Hf; simpl in Hf; lia]. exists []. by rewrite app_nil_r. }
  cbn [read_data_tuples]. case_if; zbool.
  2: { destruct data; [|unfold zlen in E; simpl in E; lia]. exists []. by rewrite app_nil_r. }
  case_if; [done|]. zbool.
  destruct data as [|h [|l [|d data]]]; [unfold zlen in *; simpl in *; lia..|].
  do 3 (apply Forall_cons in Hd as [? Hd]). go_slices.
  destruct (be16_u16 h l [] ltac:(done) ltac:(done)) as (start & [= ->] & Hstart).
  rewrite !zlen_cons in Hf. case_if; zbool.
  - destruct first; cbn [negb]; [|done]. case_if; [done|].
    eapply safe_mono; [apply IH; [done|lia]|]. intros [e nts] (new & -> & Ht & Hv & He & _).
    exists new. split; [done|]. split; [done|]. split; [done|]. split; [intros; by apply He|].
    intros _ _ Ee. rewrite He in Ee; done.
  - rewrite land_high_zero by done. destruct (d <? 128) eqn:Ed; zbool; cbn [negb].
    + destruct first; cbn [andb negb]; [done|].
      eapply safe_mono; [apply IH; [done|lia]|]. intros [e nts] (new & -> & Ht & Hv & He & _).
      eexists (_ :: new). split; [by rewrite <- app_assoc|].
      split; [by constructor|]. split; [constructor; [|done]; done|]. split; [done|done].
    + case_if; [done|]. zbool. destruct data as [|x [|y [|v data]]]; [unfold zlen in *; simpl in *; lia..|].
      do 3 (apply Forall_cons in Hd as [? Hd]). go_slices.
      destruct (be16_u16 x y [] ltac:(done) ltac:(done)) as (end_ & [= ->] & Hend).
      rewrite !zlen_cons in Hf. case_if; [done|].
      eapply safe_mono; [apply IH; [done|lia]|]. intros [e nts] (new & -> & Ht & Hv & He & _).
      pose proof (ldiff_high d ltac:(done)) as Hdl.
      eexists (_ :: new). split; [by rewrite <- app_assoc|].
      split; [constructor; [|done]; split; [done|split; [done|unfold u8; simpl; lia]]|].
      split; [constructor; [|done]; split; [done|split; [simpl; lia|done]]|].
      split; [done|]. intros. eexists _, _. split; [done|done].
Qed.

Lemma UnmarshalData_safe data :
  bytes_ok data -> safe (fun dp => data_typed dp /\ data_valid dp) (UnmarshalDataPacket data).
Proof.
  intros Hd. unfold UnmarshalDataPacket. case_if; [done|]. zbool.
  destruct data as [|h [|l [|k [|n data]]]]; [unfold zlen in *; simpl in *; lia..|].
  do 4 (apply Forall_cons in Hd as [? Hd]). go_slices. case_if; [done|].
  destruct (be16_u16 h l [] ltac:(done) ltac:(done)) as (net & [= ->] & Hnet).
  eapply safe_bind; [apply read_safe; [done|unfold zlen; lia]|].
  intros [e nts] (new & -> & Ht & Hv & _ & Hx). split; [by split|]. split; [done|].
  intros He. apply Hx; [done|intros ->; unfold zlen in *; simpl in *; lia|done].
Qed.

Lemma lor_high_u8 d : u8 d -> u8 (Z.lor d 128).
Proof.
  intros Hd. assert (E : ((0 <=? Z.lor d 128) && (Z.lor d 128 <? 256)) = true) by by_bytes d.
  zbool. unfold u8. lia.
Qed.

Lemma request_roundtrip rp b :
  RequestPacket_Marshal rp = Ok b -> UnmarshalRequestPacket b = Ok rp.
Proof.
  unfold RequestPacket_Marshal. case_if; [done|]. case_if; zbool.
  - intros [= <-]. unfold UnmarshalRequestPacket. rewrite !zlen_cons.
    pose proof (zlen_nonneg (Data rp)). zdec. go_slices. rewrite E0. destruct rp. simpl in *. by subst.
  - case_if; [done|]. zbool. intros [= <-]. unfold UnmarshalRequestPacket. go_slices.
    apply Z.eqb_neq in E0. rewrite E0. destruct rp as [f d]. simpl in *.
    destruct d as [|x d]; [done|]. exfalso. pose proof (zlen_nonneg d).
    match goal with H : zlen (x :: d) <= 0 |- _ => rewrite zlen_cons in H; lia end.
Qed.

Lemma request_safe data : bytes_ok data ->
  safe (fun rp => u8 (Function_ rp) /\ bytes_ok (Data rp)) (UnmarshalRequestPacket data).
Proof.
  intros Hd. unfold UnmarshalRequestPacket. case_if; [done|]. zbool.
  destruct data as [|f data]; [unfold zlen in E; simpl in E; lia|].
  apply Forall_cons in Hd as [Hf Hd]. go_slices. case_if; [|by split; [|constructor]].
  case_if; [done|]. zbool. rewrite zlen_cons in *. rewrite slice_from_le by lia.
  cbn [mbind res_bind safe]. split; [done|]. by apply bytes_ok_drop.
Qed.

(** * Properties *)

(** The RTMP Data codec is exact.  Every Data packet with its Go types
    marshals; unmarshalling the bytes gives it back exactly when the format can
    express it (nonzero range starts, distances below 128, non-extended ranges of
    one network, an extended first tuple on an extended network); and
    [UnmarshalDataPacket] returns on every input, with a packet of that kind or
    an error. *)
Theorem rtmp_data_codec_exact (dp : DataPacket) (data : list Z) :
  data_typed dp -> bytes_ok data ->
  (exists b, DataPacket_Marshal dp = Ok b /\ (UnmarshalDataPacket b = Ok dp <-> data_valid dp)) /\
  UnmarshalDataPacket data <> Panic /\
  (forall dp', UnmarshalDataPacket data = Ok dp' -> data_typed dp' /\ data_valid dp').
Proof.
  intros Hty Hd. pose proof (UnmarshalData_safe data Hd) as Hs. split; [|split].
  - eexists. split; [apply Marshal_data|]. split.
    + intros E. match type of E with UnmarshalDataPacket ?b = _ => assert (Hb : bytes_ok b) end.
      { destruct Hty as [[Hn Hnode] Hts]. repeat (apply bytes_ok_app; split); auto with wire.
        - constructor; [unfold u8; lia|]. by constructor.
        - destruct (dp_Extended dp); [constructor|]. apply bytes_ok_app. split; [auto with wire|].
          constructor; [unfold u8; lia|constructor].
        - clear -Hts. induction Hts as [|nt nts Ht _ IH]; cbn [map concat]; [constructor|].
          apply bytes_ok_app. split; [|done]. destruct Ht as (_ & _ & Hdist). unfold write_tuple.
          apply bytes_ok_app. split; [auto with wire|]. destruct (Extended nt); cbn [negb].
          + constructor; [|apply bytes_ok_app; split; [auto with wire|]; constructor; [unfold u8; lia|constructor]].
            by apply lor_high_u8.
          + by constructor. }
      pose proof (UnmarshalData_safe _ Hb) as H. rewrite E in H. apply H.
    + intros Hv. eapply data_roundtrip; [done|done|apply Marshal_data].
  - by apply safe_not_panic in Hs.
  - intros dp' E. rewrite E in Hs. exact Hs.
Qed.

(** A cable range, a network range behind another router, and a non-extended
    network. *)
Definition wit_data : DataPacket :=
  MkData (MkAddr 3 9) true [MkTuple true 3 5 0; MkTuple true 20 22 1; MkTuple false 40 40 2].

Lemma wit_data_typed : data_typed wit_data.
Proof. split; [const_widths|]. repeat constructor; const_widths. Qed.

Example rtmp_data_codec_exact_witness :
  (exists b, DataPacket_Marshal wit_data = Ok b /\
     (UnmarshalDataPacket b = Ok wit_data <-> data_valid wit_data)) /\
  UnmarshalDataPacket [0; 3; 8; 9; 0; 0; 0x82; 0; 7; 1] <> Panic /\
  (forall dp', UnmarshalDataPacket [0; 3; 8; 9; 0; 0; 0x82; 0; 7; 1] = Ok dp' ->
     data_typed dp' /\ data_valid dp').
Proof.
  apply (rtmp_data_codec_exact wit_data); [exact wit_data_typed|const_widths].
Defined.

Example wit_data_valid : UnmarshalDataPacket [0; 3; 8; 9; 0; 0; 0x82; 0; 7; 1]
  = Ok (MkData (MkAddr 3 9) false [MkTuple false 7 7 1]).
Proof. reflexivity. Qed.

(** The receiver of an RTMP Response cannot tell an extended network from
    a non-extended one: [UnmarshalResponsePacket] accepts the bytes of every
    Response and returns its addresses, but never with [Extended] set. *)
Theorem rtmp_response_loses_extended (rp : ResponsePacket) :
  addr_typed (SenderAddr rp) -> u16 (rp_RangeStart rp) -> u16 (rp_RangeEnd rp) ->
  exists b, ResponsePacket_Marshal rp = Ok b /\
    UnmarshalResponsePacket b = Ok (MkResponse (SenderAddr rp) false
      (if rp_Extended rp then rp_RangeStart rp else 0) (if rp_Extended rp then rp_RangeEnd rp else 0)).
Proof.
  intros [Hn Hnode] Hs He. unfold ResponsePacket_Marshal. destruct rp as [[n d] [] s e]; cbn in *.
  - eexists. split; [reflexivity|]. unfold UnmarshalResponsePacket. go_slices. by rewrite !fields16.
  - eexists. split; [reflexivity|]. unfold UnmarshalResponsePacket. go_slices. by rewrite !fields16.
Qed.

Example rtmp_response_loses_extended_witness :
  exists b, ResponsePacket_Marshal (MkResponse (MkAddr 3 9) true 3 5) = Ok b /\
    UnmarshalResponsePacket b = Ok (MkResponse (MkAddr 3 9) false 3 5).
Proof.
  apply (rtmp_response_loses_extended (MkResponse (MkAddr 3 9) true 3 5)); const_widths.
Defined.
