(* ===== verification/AtalkAtp.v ===== *)
(** * ATP packets ([atalk/atp/atp.go])

    The AppleTalk Transaction Protocol header, which carries the zone lists of
    ZIP.  [UserBytes] is a [[4]byte]; conversions from a slice check its length. *)
From S2P Require Import Prelude AtalkNbp Atalk.
Import DDP.

Module ATP.

Definition HeaderSize : Z := 8.
Definition MaxDataSize : Z := DDPMaxDataSize - HeaderSize.
Definition ciFuncMask : Z := 0xC0.
Definition ciFuncTReq : Z := 0x40.
Definition ciFuncTResp : Z := 0x80.
Definition ciFuncTRel : Z := 0xC0.
Definition ciXOBit : Z := 0x20.
Definition ciEOMBit : Z := 0x10.
Definition ciSTSBit : Z := 0x08.
Definition ciTRelTOMask : Z := 0x07.

Record TReq := MkTReq {
  ExactlyOnce : bool; TRelTimeoutIndicator : Z; Bitmap : Z; tq_TransactionID : Z;
  tq_UserBytes : list Z; tq_Data : list Z }.

Record TResp := MkTResp {
  EndOfMessage : bool; SendTransactionStatus : bool; Sequence : Z; tr_TransactionID : Z;
  tr_UserBytes : list Z; tr_Data : list Z }.

Record TRel := MkTRel { tl_TransactionID : Z }.

Inductive Packet := PTReq (p : TReq) | PTResp (p : TResp) | PTRel (p : TRel).

Definition TReq_Marshal (p : TReq) : res (list Z) :=
  if negb (TRelTimeoutIndicator p =? 0) && negb (ExactlyOnce p) then
    Err (Errorf "TRel timeout indicator %d only valid for XO TReq" [AInt (TRelTimeoutIndicator p)])
  else if 4 <? TRelTimeoutIndicator p then
    Err (Errorf "invalid TRel timeout indicator [%d > 4]" [AInt (TRelTimeoutIndicator p)])
  else if MaxDataSize <? zlen (tq_Data p) then
    Err (Wrapf "%w [%d > %d]" [AInt (zlen (tq_Data p)); AInt MaxDataSize] (Errorf "data too big" []))
  else
    let ci := ciFuncTReq in
    let ci := if ExactlyOnce p then Z.lor ci ciXOBit else ci in
    let ci := Z.lor ci (TRelTimeoutIndicator p) in
    Ok ([ci] ++ [Bitmap p] ++ put16 (tq_TransactionID p) ++ tq_UserBytes p ++ tq_Data p).

Definition TResp_Marshal (p : TResp) : res (list Z) :=
  let ci := ciFuncTResp in
  let ci := if EndOfMessage p then Z.lor ci ciEOMBit else ci in
  let ci := if SendTransactionStatus p then Z.lor ci ciSTSBit else ci in
  Ok ([ci] ++ [Sequence p] ++ put16 (tr_TransactionID p) ++ tr_UserBytes p ++ tr_Data p).

Definition TRel_Marshal (p : TRel) : res (list Z) :=
  Ok ([ciFuncTRel; 0] ++ put16 (tl_TransactionID p) ++ [0; 0; 0; 0]).

Definition UnmarshalPacket (data : list Z) : res Packet :=
  if zlen data <? 8 then
    Err (Errorf "insufficient input length %d for ATP packet" [AInt (zlen data)])
  else
    ci ← idx data 0;
    let f := Z.land ci ciFuncMask in
    if f =? ciFuncTReq then
      bitmap ← idx data 1; tid ← slice data 2 4 ≫= be16;
      ub ← slice data 4 8; d ← slice_from data 8;
      Ok (PTReq (MkTReq (negb (Z.land ci ciXOBit =? 0)) (Z.land ci ciTRelTOMask) bitmap tid ub d))
    else if f =? ciFuncTResp then
      seq ← idx data 1; tid ← slice data 2 4 ≫= be16;
      ub ← slice data 4 8; d ← slice_from data 8;
      Ok (PTResp (MkTResp (negb (Z.land ci ciEOMBit =? 0)) (negb (Z.land ci ciSTSBit =? 0)) seq tid ub d))
    else if f =? ciFuncTRel then
      tid ← slice data 2 4 ≫= be16;
      Ok (PTRel (MkTRel tid))
    else Err (Errorf "unknown ATP function in control information byte %b" [AInt ci]).

End ATP.

(** * Lemmas *)

Definition user_bytes_ok (ub : list Z) : Prop := length ub = 4%nat.

Lemma four_bytes ub : user_bytes_ok ub -> exists a b c d, ub = [a; b; c; d].
Proof. destruct ub as [|a [|b [|c [|d [|]]]]]; try done. by exists a, b, c, d. Qed.

Lemma tresp_roundtrip p b :
  u16 (ATP.tr_TransactionID p) -> user_bytes_ok (ATP.tr_UserBytes p) ->
  ATP.TResp_Marshal p = Ok b -> ATP.UnmarshalPacket b = Ok (ATP.PTResp p).
Proof.
  intros Ht Hu H. unfold ATP.TResp_Marshal in H.
  destruct p as [eom sts seq tid ub d]. cbn in Ht, Hu.
  destruct (four_bytes ub Hu) as (u0 & u1 & u2 & u3 & ->).
  unfold ATP.UnmarshalPacket.
  destruct eom, sts; injection H as <-; rewrite !zlen_cons; pose proof (zlen_nonneg d); zdec; go_slices;
    by rewrite fields16.
Qed.

Lemma treq_safe data : bytes_ok data ->
  safe (fun p => forall q, p = ATP.PTReq q ->
    u16 (ATP.tq_TransactionID q) /\ user_bytes_ok (ATP.tq_UserBytes q) /\ bytes_ok (ATP.tq_UserBytes q))
    (ATP.UnmarshalPacket data).
Proof.
  intros Hd. unfold ATP.UnmarshalPacket. case_if; [done|]. zbool.
  eapply safe_bind; [apply safe_idx; [done|lia]|]. intros f _. case_if; [|case_if; [|case_if; [|done]]].
  - eapply safe_bind; [apply safe_idx; [done|lia]|]. intros bm _.
    eapply safe_bind; [apply safe_field; [done|lia..]|]. intros tid Ht. cbv beta in Ht.
    eapply safe_bind; [apply safe_slice; [done|lia..]|]. intros ub [Hub Hul].
    eapply safe_bind; [apply safe_slice_from; [done|lia]|]. intros q _ q' [= <-]. cbn.
    split; [done|]. split; [unfold user_bytes_ok; unfold zlen in Hul; lia|done].
  - eapply safe_bind; [apply safe_idx; [done|lia]|]. intros bm _.
    eapply safe_bind; [apply safe_field; [done|lia..]|]. intros tid Ht. cbv beta in Ht.
    eapply safe_bind; [apply safe_slice; [done|lia..]|]. intros ub [Hub Hul].
    eapply safe_bind; [apply safe_slice_from; [done|lia]|]. intros q _ q' [=].
  - eapply safe_bind; [apply safe_field; [done|lia..]|]. intros tid _ q' [=].
Qed.
