(* ===== verification/AtalkZip.v ===== *)
(** * ZIP packets ([atalk/zip/zip.go], [query_reply.go], [getzonelist.go],
      [getnetinfo.go])

    The Zone Information Protocol codecs.  The zone lists of a Reply are a Go
    map, which is written in whatever order ([MapOrder]).  Reading loops take the input
    length as fuel; running out would be a [Panic]. *)
From S2P Require Import Prelude GoSort AtalkNbp Atalk AtalkAtp.
Import DDP.

Module ZIP.

Definition FunctionQuery : Z := 1.
Definition FunctionReply : Z := 2.
Definition FunctionGetNetInfo : Z := 5.
Definition FunctionGetNetInfoReply : Z := 6.
Definition FunctionNotify : Z := 7.
Definition FunctionExtendedReply : Z := 8.
Definition FunctionGetMyZone : Z := 7.
Definition FunctionGetZoneList : Z := 8.
Definition FunctionGetLocalZones : Z := 9.

(** ** Query and Reply *)

Record QueryPacket := MkQuery { q_Networks : list Z }.

Definition QueryPacket_Marshal (p : QueryPacket) : res (list Z) :=
  if 255 <? zlen (q_Networks p) then
    Err (Errorf "too many networks [%d > 255]" [AInt (zlen (q_Networks p))])
  else
    Ok (foldl (fun b n => b ++ put16 n)
          ([FunctionQuery] ++ [wrap8 (zlen (q_Networks p))]) (q_Networks p)).

(** [for range data[1]]; each round first drops the two bytes before. *)
Fixpoint read_networks (k : nat) (data : list Z) (ns : list Z) : res (list Z) :=
  match k with
  | O => Ok ns
  | S k =>
      data ← slice_from data 2;
      if zlen data <? 2 then
        Err (Errorf "insufficient remaining input length %d for network number" [AInt (zlen data)])
      else n ← slice_to data 2 ≫= be16; read_networks k data (ns ++ [n])
  end.

Definition UnmarshalQueryPacket (data : list Z) : res QueryPacket :=
  if zlen data <? 2 then
    Err (Errorf "insufficient input length %d for ZIP Query packet" [AInt (zlen data)])
  else
    f ← idx data 0;
    if negb (f =? FunctionQuery) then
      Err (Errorf "not a ZIP Query packet (funciton = %d)" [AInt f])
    else
      count ← idx data 1;
      ns ← read_networks (Z.to_nat count) data [];
      Ok (MkQuery ns).

Record ReplyPacket := MkReply {
  Extended : bool; NetworkCount : Z; Networks : gmap Z (list (list Z)) }.

(** The two loops of [ReplyPacket.Marshal]. *)
Fixpoint write_names (n : Z) (zs : list (list Z)) (b : list Z) : res (list Z) :=
  match zs with
  | [] => Ok b
  | z :: zs =>
      if 32 <? zlen z then Err (Errorf "len(%q) > 32" [AStr z])
      else write_names n zs (b ++ put16 n ++ [wrap8 (zlen z)] ++ z)
  end.

Fixpoint write_lists (ext : bool) (nzs : list (Z * list (list Z))) (b : list Z) : res (list Z) :=
  match nzs with
  | [] => Ok b
  | (n, zs) :: nzs =>
      if ext && (255 <? zlen zs) then
        Err (Errorf "too many zone names [%d > 255]" [AInt (zlen zs)])
      else b ← write_names n zs b; write_lists ext nzs b
  end.

Definition ReplyPacket_Marshal `{MapOrder} (p : ReplyPacket) : res (list Z) :=
  if (255 <? Z.of_nat (size (Networks p))) then
    Err (Errorf "too many networks [%d > 255]" [AInt (Z.of_nat (size (Networks p)))])
  else if (1 <? Z.of_nat (size (Networks p))) && Extended p then
    Err (Errorf "extended reply can only contain 1 network" [])
  else
    write_lists (Extended p) (map_range (Networks p))
      ([if Extended p then FunctionExtendedReply else FunctionReply] ++ [NetworkCount p]).

Fixpoint read_lists (fuel : nat) (m : gmap Z (list (list Z))) (data : list Z) :
    res (gmap Z (list (list Z))) :=
  if 0 <? zlen data then
    match fuel with
    | O => Panic
    | S fuel =>
        if zlen data <? 3 then
          Err (Errorf "insufficinet remaining input length %d for zone tuple" [AInt (zlen data)])
        else
          network ← slice_to data 2 ≫= be16;
          slen ← idx data 2;
          data ← slice_from data 3;
          if zlen data <? slen then
            Err (Errorf "insufficient remaining input length %d for length-%d prefixed string"
                   [AInt (zlen data); AInt slen])
          else
            z ← slice_to data slen;
            data ← slice_from data slen;
            read_lists fuel (<[network := default [] (m !! network) ++ [z]]> m) data
    end
  else Ok m.

(** The network count of the header is not kept. *)
Definition UnmarshalReplyPacket (data : list Z) : res ReplyPacket :=
  if zlen data <? 2 then
    Err (Errorf "insufficient input length %d for ZIP Reply packet" [AInt (zlen data)])
  else
    f ← idx data 0;
    if negb (f =? FunctionReply) && negb (f =? FunctionExtendedReply) then
      Err (Errorf "not a Reply or an Extended Reply (function = %d)" [AInt f])
    else
      data ← slice_from data 2;
      m ← read_lists (length data) ∅ data;
      Ok (MkReply (f =? FunctionExtendedReply) 0 m).

(** ** GetNetInfo *)

Record GetNetInfoPacket := MkGetNetInfo { gi_ZoneName : list Z }.

Definition GetNetInfoPacket_Marshal (p : GetNetInfoPacket) : res (list Z) :=
  if 32 <? zlen (gi_ZoneName p) then
    Err (Errorf "zone name too long [%d > 32]" [AInt (zlen (gi_ZoneName p))])
  else Ok ([FunctionGetNetInfo] ++ [0; 0; 0; 0; 0] ++ [wrap8 (zlen (gi_ZoneName p))] ++ gi_ZoneName p).

Definition UnmarshalGetNetInfoPacket (data : list Z) : res GetNetInfoPacket :=
  if zlen data <? 7 then
    Err (Errorf "insufficient input length %d for GetNetInfo packet" [AInt (zlen data)])
  else
    f ← idx data 0;
    if negb (f =? FunctionGetNetInfo) then
      Err (Errorf "not a GetNetInfo packet (ZIP command %d != %d)" [AInt f; AInt FunctionGetNetInfo])
    else
      slen ← idx data 6;
      data ← slice_from data 7;
      if negb (zlen data =? slen) then
        Err (Errorf "wrong remaining input length %d for length=%d-prefixed string"
               [AInt (zlen data); AInt slen])
      else Ok (MkGetNetInfo data).

Record GetNetInfoReplyPacket := MkNetInfo {
  ZoneInvalid : bool; UseBroadcast : bool; OnlyOneZone : bool;
  NetStart : Z; NetEnd : Z; ZoneName : list Z; MulticastAddr : list Z; DefaultZoneName : list Z }.

Definition UnmarshalGetNetInfoReplyPacket (data : list Z) : res GetNetInfoReplyPacket :=
  if zlen data <? 14 then
    Err (Errorf "insufficient input length %d for GetNetInfo Reply" [AInt (zlen data)])
  else
    f ← idx data 0;
    if negb (f =? FunctionGetNetInfoReply) then
      Err (Errorf "not a GetNetInfo Reply (ZIP command %d != %d)"
             [AInt f; AInt FunctionGetNetInfoReply])
    else
      flags ← idx data 1;
      start ← slice data 2 4 ≫= be16;
      end_ ← slice data 4 6 ≫= be16;
      let invalid := negb (Z.land flags 0x80 =? 0) in
      data ← slice_from data 6;
      if zlen data <? 1 then Err (Errorf "missing zone name length" [])
      else
        zoneLen ← idx data 0;
        data ← slice_from data 1;
        if zlen data <? zoneLen + 1 then Err (Errorf "insufficient input for zone name" [])
        else
          zone ← slice_to data zoneLen;
          data ← slice_from data zoneLen;
          mcastLen ← idx data 0;
          data ← slice_from data 1;
          if negb (mcastLen =? 6) || (zlen data <? mcastLen) then
            Err (Errorf "invalid multicast address length %d" [AInt mcastLen])
          else
            mcast ← slice_to data mcastLen;
            data ← slice_from data mcastLen;
            let p dz := MkNetInfo invalid (negb (Z.land flags 0x40 =? 0))
                          (negb (Z.land flags 0x20 =? 0)) start end_ zone mcast dz in
            if invalid : bool then
              if zlen data <? 1 then Err (Errorf "missing default zone name length" [])
              else
                defaultLen ← idx data 0;
                data ← slice_from data 1;
                if negb (zlen data =? defaultLen) then
                  Err (Errorf "wrong remaining input length %d for default zone length %d"
                         [AInt (zlen data); AInt defaultLen])
                else Ok (p data)
            else if negb (zlen data =? 0) then
              Err (Errorf "unexpected trailing data length %d" [AInt (zlen data)])
            else Ok (p []).

Definition GetNetInfoReplyPacket_Marshal (p : GetNetInfoReplyPacket) : res (list Z) :=
  if 32 <? zlen (ZoneName p) then
    Err (Errorf "zone name too long [%d > 32]" [AInt (zlen (ZoneName p))])
  else if 32 <? zlen (DefaultZoneName p) then
    Err (Errorf "default zone name too long [%d > 32]" [AInt (zlen (DefaultZoneName p))])
  else
    let flags := 0 in
    let flags := if ZoneInvalid p then Z.lor flags 0x80 else flags in
    let flags := if UseBroadcast p then Z.lor flags 0x40 else flags in
    let flags := if OnlyOneZone p then Z.lor flags 0x20 else flags in
    Ok ([FunctionGetNetInfoReply] ++ [flags] ++ put16 (NetStart p) ++ put16 (NetEnd p)
        ++ [wrap8 (zlen (ZoneName p))] ++ ZoneName p ++ [6] ++ MulticastAddr p
        ++ (if ZoneInvalid p then [wrap8 (zlen (DefaultZoneName p))] ++ DefaultZoneName p else [])).

(** ** ZIP packets that are not ATP *)

Inductive Packet :=
| PQuery (p : QueryPacket) | PReply (p : ReplyPacket)
| PGetNetInfo (p : GetNetInfoPacket) | PGetNetInfoReply (p : GetNetInfoReplyPacket).

Definition UnmarshalPacket (data : list Z) : res Packet :=
  if zlen data <? 1 then
    Err (Errorf "insufficient input length %d for any ZIP packet" [AInt (zlen data)])
  else
    f ← idx data 0;
    if f =? FunctionQuery then p ← UnmarshalQueryPacket data; Ok (PQuery p)
    else if (f =? FunctionReply) || (f =? FunctionExtendedReply) then
      p ← UnmarshalReplyPacket data; Ok (PReply p)
    else if f =? FunctionGetNetInfo then p ← UnmarshalGetNetInfoPacket data; Ok (PGetNetInfo p)
    else if f =? FunctionGetNetInfoReply then
      p ← UnmarshalGetNetInfoReplyPacket data; Ok (PGetNetInfoReply p)
    else if f =? FunctionNotify then Err (Errorf "ZIP Notify unmarshaling unimplemented" [])
    else Err (Errorf "unknown ZIP function %d" [AInt f]).

(** ** Zone lists over ATP *)

Record GetZonesPacket := MkGetZones { gz_TID : Z; Function_ : Z; StartIndex : Z }.

Definition MarshalTReq (p : GetZonesPacket) : ATP.TReq :=
  ATP.MkTReq false 0 1 (gz_TID p)
    [Function_ p; 0; wrap8 (Z.shiftr (StartIndex p) 8); wrap8 (Z.land (StartIndex p) 0xFF)] [].

Record GetZonesReplyPacket := MkGetZonesReply { gr_TID : Z; LastFlag : bool; Zones : list (list Z) }.

Fixpoint write_zones (zs : list (list Z)) (b : list Z) : res (list Z) :=
  match zs with
  | [] => Ok b
  | z :: zs =>
      if 32 <? zlen z then
        Err (Errorf "zone name %q too long [%d > 32]" [AStr z; AInt (zlen z)])
      else write_zones zs (b ++ [wrap8 (zlen z)] ++ z)
  end.

Definition MarshalTResp (p : GetZonesReplyPacket) : res ATP.TResp :=
  let zc := wrap16 (zlen (Zones p)) in
  let ub := [if LastFlag p then 1 else 0; 0; wrap8 (Z.shiftr zc 8); wrap8 (Z.land zc 0xFF)] in
  data ← write_zones (Zones p) [];
  if ATP.MaxDataSize <? zlen data then
    Err (Wrapf "%w [%d > %d]" [AInt (zlen data); AInt ATP.MaxDataSize] (Errorf "data too big" []))
  else Ok (ATP.MkTResp true false 0 (gr_TID p) ub data).

Definition UnmarshalTReq (treq : option ATP.TReq) : res GetZonesPacket :=
  match treq with
  | None => Err (Errorf "nil *TReq" [])
  | Some treq =>
      fn ← idx (ATP.tq_UserBytes treq) 0;
      if negb (fn =? FunctionGetZoneList) && negb (fn =? FunctionGetLocalZones)
         && negb (fn =? FunctionGetMyZone) then
        Err (Errorf "invalid ZIP function %d" [AInt fn])
      else
        start ← slice (ATP.tq_UserBytes treq) 2 4 ≫= be16;
        Ok (MkGetZones (ATP.tq_TransactionID treq) fn start)
  end.

Fixpoint read_zones (k : nat) (data : list Z) (zs : list (list Z)) : res (list (list Z) * list Z) :=
  match k with
  | O => Ok (zs, data)
  | S k =>
      if zlen data <? 1 then
        Err (Errorf "insufficient remaining TResp data length %d for length-prefixed string"
               [AInt (zlen data)])
      else
        slen ← idx data 0;
        data ← slice_from data 1;
        if zlen data <? slen then
          Err (Errorf "insufficient remaining TResp data length %d for length-%d prefixed string"
                 [AInt (zlen data); AInt slen])
        else
          z ← slice_to data slen;
          data ← slice_from data slen;
          read_zones k data (zs ++ [z])
  end.

Definition UnmarshalTResp (tresp : option ATP.TResp) : res GetZonesReplyPacket :=
  match tresp with
  | None => Err (Errorf "nil *TResp" [])
  | Some tresp =>
      last ← idx (ATP.tr_UserBytes tresp) 0;
      zc ← slice (ATP.tr_UserBytes tresp) 2 4 ≫= be16;
      '(zs, data) ← read_zones (Z.to_nat zc) (ATP.tr_Data tresp) [];
      if 0 <? zlen data then
        Err (Errorf "%d bytes left over at end of packet" [AInt (zlen data)])
      else Ok (MkGetZonesReply (ATP.tr_TransactionID tresp) (negb (last =? 0)) zs)
  end.

End ZIP.

Import ZIP.

(** * Lemmas *)

(** ** Zone lists in a Reply *)

(** A length-prefixed zone name preceded by its network. *)
Definition enc_entry (e : Z * list Z) : list Z := put16 e.1 ++ (zlen e.2 :: e.2).

(** The pairs of a Reply, in the order they are written. *)
Definition entries (nzs : list (Z * list (list Z))) : list (Z * list Z) :=
  concat (map (fun nz => map (pair nz.1) nz.2) nzs).

Definition add_entry (m : gmap Z (list (list Z))) (e : Z * list Z) : gmap Z (list (list Z)) :=
  <[e.1 := default [] (m !! e.1) ++ [e.2]]> m.

Definition names_for (n : Z) (es : list (Z * list Z)) : list (list Z) :=
  map snd (filter (fun e => e.1 = n) es).

Definition name_fits (z : list Z) : Prop := zlen z <= 32.

Lemma write_names_ok n zs b :
  Forall name_fits zs -> write_names n zs b = Ok (b ++ concat (map enc_entry (map (pair n) zs))).
Proof.
  intros H. revert b. induction H as [|z zs Hz _ IH]; intros b; cbn [write_names map concat].
  - by rewrite app_nil_r.
  - unfold name_fits in Hz. pose proof (zlen_nonneg z). zdec. rewrite IH. f_equal.
    rewrite wrap8_small by (unfold u8; lia). unfold enc_entry at 2. cbn [fst snd].
    by rewrite <- !app_assoc.
Qed.

Lemma write_names_inv n zs b b' : write_names n zs b = Ok b' -> Forall name_fits zs.
Proof.
  revert b. induction zs as [|z zs IH]; intros b; cbn [write_names]; [by constructor|].
  case_if; [done|]. zbool. intros H. constructor; [done|by eapply IH].
Qed.

Lemma write_lists_ok ext nzs b :
  Forall (fun nz => Forall name_fits nz.2 /\ (ext = true -> zlen nz.2 <= 255)) nzs ->
  write_lists ext nzs b = Ok (b ++ concat (map enc_entry (entries nzs))).
Proof.
  intros H. revert b. induction H as [|[n zs] nzs [Hz Hc] _ IH]; intros b; cbn [write_lists].
  - by rewrite app_nil_r.
  - cbn [snd] in *. assert (E : ext && (255 <? zlen zs) = false).
    { destruct ext; [cbn [andb]; specialize (Hc eq_refl); by zdec|done]. }
    rewrite E, write_names_ok by done. rewrite bind_Ok, IH. unfold entries. cbn [map concat fst snd].
    by rewrite map_app, concat_app, app_assoc.
Qed.

Lemma write_lists_inv ext nzs b b' :
  write_lists ext nzs b = Ok b' ->
  Forall (fun nz => Forall name_fits nz.2 /\ (ext = true -> zlen nz.2 <= 255)) nzs.
Proof.
  revert b. induction nzs as [|[n zs] nzs IH]; intros b; cbn [write_lists]; [by constructor|].
  case_if; [done|]. destruct (write_names n zs b) as [b1| |] eqn:E1; [|done..].
  rewrite bind_Ok. intros H. constructor; [|by eapply IH]. split; [by eapply write_names_inv|].
  cbn [snd]. intros ->. cbn [andb] in E. by zbool.
Qed.

Lemma read_lists_entry fuel m e rest :
  u16 e.1 -> read_lists (S fuel) m (enc_entry e ++ rest) = read_lists fuel (add_entry m e) rest.
Proof.
  intros He. destruct e as [n z]. unfold enc_entry. cbn [fst snd] in *. rewrite <- app_assoc.
  cbn [read_lists put16 app]. pose proof (zlen_nonneg (z ++ rest)). pose proof (zlen_nonneg rest).
  pose proof (zlen_nonneg z). rewrite !zlen_cons. zdec. go_slices. rewrite fields16 by done.
  rewrite zlen_app. zdec. by rewrite slice_to_app, bind_Ok, slice_from_app, bind_Ok.
Qed.

Lemma read_lists_all fuel m es :
  Forall (fun e => u16 e.1) es -> (length es <= fuel)%nat ->
  read_lists fuel m (concat (map enc_entry es)) = Ok (foldl add_entry m es).
Proof.
  intros H. revert fuel m. induction H as [|e es He _ IH]; intros fuel m Hf; cbn [map concat foldl].
  - by destruct fuel.
  - destruct fuel as [|fuel]; [simpl in Hf; lia|]. simpl in Hf.
    rewrite read_lists_entry, IH by (done || lia). done.
Qed.

Lemma entries_lookup es m n :
  foldl add_entry m es !! n =
    match names_for n es with [] => m !! n | zs => Some (default [] (m !! n) ++ zs) end.
Proof.
  revert m. induction es as [|[k z] es IH]; intros m; cbn [foldl]; [done|].
  rewrite IH. unfold names_for. rewrite filter_cons. unfold add_entry at 1 2. cbn [fst snd].
  case_decide as Hk; [subst k; rewrite !lookup_insert_eq|rewrite !lookup_insert_ne by done; done].
  cbn [map]. fold (names_for n es). destruct (names_for n es); cbn; by rewrite <- ?app_assoc.
Qed.

Lemma names_for_app n es1 es2 : names_for n (es1 ++ es2) = names_for n es1 ++ names_for n es2.
Proof. unfold names_for. by rewrite filter_app, map_app. Qed.

Lemma names_for_pair n k zs : names_for n (map (pair k) zs) = if decide (k = n) then zs else [].
Proof.
  unfold names_for. induction zs as [|z zs IH]; cbn [map]; [by case_decide|].
  rewrite filter_cons. cbn [fst]. case_decide; [|done]. cbn [map snd]. by rewrite IH.
Qed.

(** Writing the entries of a map, in any order, keeps each list. *)
Lemma names_for_entries (m : gmap Z (list (list Z))) nzs n :
  nzs ≡ₚ map_to_list m -> names_for n (entries nzs) = default [] (m !! n).
Proof.
  intros Hp. assert (Hnd : NoDup nzs.*1) by (rewrite Hp; apply NoDup_fst_map_to_list).
  assert (E : names_for n (entries nzs) = default [] ((list_to_map nzs : gmap Z (list (list Z))) !! n)).
  { clear -Hnd. induction nzs as [|[k zs] nzs IH]; [done|].
    cbn [fmap list_fmap fst] in Hnd. apply NoDup_cons in Hnd as [Hk Hnd].
    unfold entries. cbn [map concat fst snd list_to_map foldr curry]. fold (entries nzs).
    rewrite names_for_app, names_for_pair, IH by done. case_decide as Hkn.
    - subst k. cbn. rewrite lookup_insert_eq. rewrite not_elem_of_list_to_map_1 by done. cbn. apply app_nil_r.
    - cbn. by rewrite lookup_insert_ne. }
  rewrite E. by rewrite (list_to_map_proper nzs (map_to_list m)), list_to_map_to_list.
Qed.

Definition reply_typed (p : ReplyPacket) : Prop :=
  u8 (NetworkCount p) /\ map_Forall (fun n zs => u16 n /\ Forall bytes_ok zs) (Networks p).

Lemma entries_typed nzs :
  Forall (fun nz => u16 nz.1) nzs -> Forall (fun e => u16 e.1) (entries nzs).
Proof.
  intros H. induction H as [|[n zs] nzs Hn _ IH]; [constructor|]. unfold entries. cbn [map concat fst snd].
  apply Forall_app. split; [|done]. apply Forall_map, Forall_true. done.
Qed.

Lemma range_typed `{MapOrder} p :
  reply_typed p -> Forall (fun nz => u16 nz.1) (map_range (Networks p)).
Proof.
  intros [_ Hp]. rewrite map_range_perm. apply map_Forall_to_list in Hp.
  eapply Forall_impl; [exact Hp|]. intros [n zs] [Hn _]. exact Hn.
Qed.

Definition reply_bytes (nzs : list (Z * list (list Z))) : list Z :=
  concat (map enc_entry (entries nzs)).

Definition reply_writable (p : ReplyPacket) : Prop :=
  Z.of_nat (size (Networks p)) <= 255 /\
  (Extended p = true -> (size (Networks p) <= 1)%nat) /\
  map_Forall (fun _ zs => Forall name_fits zs /\ (Extended p = true -> zlen zs <= 255)) (Networks p).

Lemma Reply_Marshal_spec `{MapOrder} p :
  (reply_writable p ->
   ReplyPacket_Marshal p = Ok ([if Extended p then FunctionExtendedReply else FunctionReply;
                                NetworkCount p] ++ reply_bytes (map_range (Networks p)))) /\
  (forall b, ReplyPacket_Marshal p = Ok b -> reply_writable p).
Proof.
  split.
  - intros (Hl & Hx & Hall). unfold ReplyPacket_Marshal. zdec.
    assert (E : (1 <? Z.of_nat (size (Networks p))) && Extended p = false).
    { destruct (Extended p); [specialize (Hx eq_refl); zdec; done|by rewrite andb_false_r]. }
    rewrite E. rewrite write_lists_ok; [done|]. rewrite map_range_perm.
    apply map_Forall_to_list in Hall. eapply Forall_impl; [exact Hall|]. by intros [n zs].
  - intros b. unfold ReplyPacket_Marshal. case_if; [done|]. case_if; [done|]. zbool.
    intros Hw%write_lists_inv. split; [done|]. split.
    + intros Hx. rewrite Hx, andb_true_r in *. zbool. lia.
    + apply map_Forall_to_list. rewrite <- map_range_perm.
      eapply Forall_impl; [exact Hw|]. by intros [n zs].
Qed.

(** What the reader of a Reply sees: no network count, no empty lists. *)
Definition as_read (p : ReplyPacket) : ReplyPacket :=
  MkReply (Extended p) 0 (filter (fun nz => nz.2 <> []) (Networks p)).

Lemma reply_bytes_read m nzs :
  nzs ≡ₚ map_to_list m -> Forall (fun nz => u16 nz.1) nzs ->
  read_lists (length (reply_bytes nzs)) ∅ (reply_bytes nzs) = Ok (filter (fun nz => nz.2 <> []) m).
Proof.
  intros Hp Ht. unfold reply_bytes.
  rewrite read_lists_all; [|by apply entries_typed|by apply concat_length_ge].
  f_equal. apply map_eq. intros n. rewrite entries_lookup, (names_for_entries m) by done.
  rewrite lookup_empty. destruct (m !! n) as [zs|] eqn:E; cbn [default].
  - destruct zs as [|z zs]; cbn.
    + symmetry. apply map_lookup_filter_None. right. intros zs Hz. rewrite E in Hz. injection Hz as <-.
      intros []. done.
    + symmetry. by apply map_lookup_filter_Some.
  - symmetry. apply map_lookup_filter_None. by left.
Qed.

Lemma reply_roundtrip `{MapOrder} p b :
  reply_typed p -> ReplyPacket_Marshal p = Ok b -> UnmarshalReplyPacket b = Ok (as_read p).
Proof.
  intros Hty Hm. destruct (Reply_Marshal_spec p) as [Hok Hinv].
  rewrite Hok in Hm by (by eapply Hinv). injection Hm as <-.
  set (body := reply_bytes (map_range (Networks p))).
  unfold UnmarshalReplyPacket. cbn [app]. rewrite !zlen_cons. pose proof (zlen_nonneg body). zdec.
  go_slices. unfold body. rewrite reply_bytes_read with (m := Networks p);
    [|apply map_range_perm|by apply range_typed].
  unfold as_read. by destruct (Extended p).
Qed.

(** ** Queries *)

Lemma query_bytes p : zlen (q_Networks p) <= 255 ->
  QueryPacket_Marshal p = Ok ([FunctionQuery; zlen (q_Networks p)] ++ concat (map put16 (q_Networks p))).
Proof.
  intros Hl. pose proof (zlen_nonneg (q_Networks p)). unfold QueryPacket_Marshal. zdec.
  by rewrite wrap8_small, foldl_concat by (unfold u8; lia).
Qed.

(** A round begins two bytes before the number it reads. *)
Lemma read_networks_all ns a b rest acc :
  Forall u16 ns ->
  read_networks (length ns) (a :: b :: concat (map put16 ns) ++ rest) acc = Ok (acc ++ ns).
Proof.
  intros H. revert a b acc. induction H as [|n ns Hn _ IH]; intros a b acc; cbn [length read_networks].
  - by rewrite app_nil_r.
  - cbn [map concat put16 app]. pose proof (zlen_nonneg (concat (map put16 ns) ++ rest)).
    go_slices. rewrite !zlen_cons. zdec. go_slices. rewrite fields16 by done.
    rewrite IH. by rewrite <- app_assoc.
Qed.

Lemma query_roundtrip p b :
  Forall u16 (q_Networks p) -> QueryPacket_Marshal p = Ok b -> UnmarshalQueryPacket b = Ok p.
Proof.
  intros Ht. destruct (decide (zlen (q_Networks p) <= 255)) as [Hl|Hl].
  2: { unfold QueryPacket_Marshal. by zdec. }
  rewrite query_bytes by done. intros [= <-]. unfold UnmarshalQueryPacket. cbn [app].
  set (body := concat _). rewrite !zlen_cons. pose proof (zlen_nonneg body). zdec. go_slices.
  unfold zlen at 1. rewrite Nat2Z.id. unfold body. rewrite <- (app_nil_r (concat _)).
  rewrite read_networks_all by done. by destruct p.
Qed.

(** ** GetNetInfo *)

Lemma netinfo_roundtrip p b :
  GetNetInfoPacket_Marshal p = Ok b -> UnmarshalGetNetInfoPacket b = Ok p.
Proof.
  unfold GetNetInfoPacket_Marshal. case_if; [done|]. zbool. pose proof (zlen_nonneg (gi_ZoneName p)).
  rewrite wrap8_small by (unfold u8; lia). intros [= <-]. unfold UnmarshalGetNetInfoPacket.
  rewrite !zlen_cons. zdec. go_slices. rewrite Z.eqb_refl. by destruct p.
Qed.

Definition netinfo_typed (p : GetNetInfoReplyPacket) : Prop :=
  u16 (NetStart p) /\ u16 (NetEnd p) /\ length (MulticastAddr p) = 6%nat.

(** The default zone name travels only with the invalid flag. *)
Definition netinfo_as_read (p : GetNetInfoReplyPacket) : GetNetInfoReplyPacket :=
  MkNetInfo (ZoneInvalid p) (UseBroadcast p) (OnlyOneZone p) (NetStart p) (NetEnd p) (ZoneName p)
    (MulticastAddr p) (if ZoneInvalid p then DefaultZoneName p else []).

Lemma netinfo_reply_roundtrip p b :
  netinfo_typed p -> GetNetInfoReplyPacket_Marshal p = Ok b ->
  UnmarshalGetNetInfoReplyPacket b = Ok (netinfo_as_read p).
Proof.
  intros (Hs & He & Hm). unfold GetNetInfoReplyPacket_Marshal. case_if; [done|]. case_if; [done|]. zbool.
  destruct p as [inv bc one s e z m d]. cbn [ZoneInvalid UseBroadcast OnlyOneZone NetStart NetEnd ZoneName
    MulticastAddr DefaultZoneName] in *.
  pose proof (zlen_nonneg z). pose proof (zlen_nonneg d).
  assert (Hml : zlen m = 6) by (unfold zlen; lia).
  rewrite !wrap8_small by (unfold u8; lia).
  set (fl := if one then _ else _). set (dz := if inv then [zlen d] ++ d else []).
  intros H1. assert (Eb : b = [6; fl] ++ put16 s ++ put16 e ++ [zlen z] ++ z ++ [6] ++ m ++ dz)
    by (injection H1 as <-; done). subst b.
  unfold UnmarshalGetNetInfoReplyPacket. pose proof (zlen_nonneg dz).
  rewrite !zlen_app, !zlen_cons, !zlen_nil, !zlen_put16. zdec.
  cbn [put16 app]. go_slices. rewrite !fields16 by done.
  rewrite zlen_cons, !zlen_app, zlen_cons, zlen_app. zdec. go_slices.
  rewrite slice_to_app, bind_Ok, slice_from_app, bind_Ok by done. go_slices.
  rewrite zlen_app, Hml. zdec. cbn [orb]. rewrite slice_to_app, bind_Ok, slice_from_app, bind_Ok by done.
  unfold netinfo_as_read. cbn. unfold dz, fl.
  destruct inv, bc, one; cbn [Z.lor]; go_slices; rewrite ?zlen_cons; zdec; go_slices; rewrite ?Z.eqb_refl; try done.
Qed.

(** ** Reading anything *)

Lemma read_networks_safe k data acc :
  bytes_ok data -> 2 <= zlen data -> Forall u16 acc -> safe (Forall u16) (read_networks k data acc).
Proof.
  revert data acc. induction k as [|k IH]; intros data acc Hd Hl Ha; cbn [read_networks]; [done|].
  eapply safe_bind; [apply safe_slice_from; [done|lia]|]. intros q [Hq Hql].
  case_if; [done|]. zbool.
  eapply safe_bind; [apply safe_field_to; [done|lia]|]. intros n Hn. cbv beta in Hn.
  apply IH; [done|done|]. by apply Forall_snoc_2.
Qed.

Lemma query_safe data : bytes_ok data -> safe (fun p => Forall u16 (q_Networks p)) (UnmarshalQueryPacket data).
Proof.
  intros Hd. unfold UnmarshalQueryPacket. case_if; [done|]. zbool.
  eapply safe_bind; [apply safe_idx; [done|lia]|]. intros f _. case_if; [done|].
  eapply safe_bind; [apply safe_idx; [done|lia]|]. intros c _.
  eapply safe_bind; [by apply read_networks_safe|]. done.
Qed.

Definition lists_typed (m : gmap Z (list (list Z))) : Prop :=
  map_Forall (fun n zs => u16 n /\ zs <> [] /\ Forall (fun z => bytes_ok z /\ zlen z <= 255) zs) m.

Lemma add_entry_typed m n z :
  lists_typed m -> u16 n -> bytes_ok z -> zlen z <= 255 -> lists_typed (add_entry m (n, z)).
Proof.
  intros Hm Hn Hz Hl. unfold add_entry. cbn [fst snd]. apply map_Forall_insert_2; [|done].
  split; [done|]. split; [by destruct (default [] (m !! n))|]. apply Forall_snoc_2; [|done].
  destruct (m !! n) as [zs|] eqn:E; [|constructor]. by destruct (Hm n zs E) as (_ & _ & ?).
Qed.

Lemma read_lists_safe fuel m data :
  bytes_ok data -> zlen data <= Z.of_nat fuel -> lists_typed m ->
  safe lists_typed (read_lists fuel m data).
Proof.
  revert m data. induction fuel as [|fuel IH]; intros m data Hd Hf Hm; cbn [read_lists]; case_if; zbool;
    try done; [lia|].
  case_if; [done|]. zbool.
  eapply safe_bind; [apply safe_field_to; [done|lia]|]. intros n Hn. cbv beta in Hn.
  eapply safe_bind; [apply safe_idx; [done|lia]|]. intros l Hl. unfold u8 in Hl.
  eapply safe_bind; [apply safe_slice_from; [done|lia]|]. intros q [Hq Hql].
  case_if; [done|]. zbool.
  eapply safe_bind; [apply safe_slice_to; [done|lia]|]. intros z [Hz Hzl].
  eapply safe_bind; [apply safe_slice_from; [done|lia]|]. intros q' [Hq' Hql'].
  apply IH; [done|lia|]. apply (add_entry_typed m n z); [done|done|done|lia].
Qed.

Lemma reply_safe data :
  bytes_ok data -> safe (fun p => lists_typed (Networks p)) (UnmarshalReplyPacket data).
Proof.
  intros Hd. unfold UnmarshalReplyPacket. case_if; [done|]. zbool.
  eapply safe_bind; [apply safe_idx; [done|lia]|]. intros f _. case_if; [done|].
  eapply safe_bind; [apply safe_slice_from; [done|lia]|]. intros q [Hq Hql].
  eapply safe_bind; [apply read_lists_safe; [done|unfold zlen; lia|apply map_Forall_empty]|]. done.
Qed.

Lemma netinfo_safe data :
  bytes_ok data -> safe (fun p => bytes_ok (gi_ZoneName p)) (UnmarshalGetNetInfoPacket data).
Proof.
  intros Hd. unfold UnmarshalGetNetInfoPacket. case_if; [done|]. zbool.
  eapply safe_bind; [apply safe_idx; [done|lia]|]. intros f _. case_if; [done|].
  eapply safe_bind; [apply safe_idx; [done|lia]|]. intros l _.
  eapply safe_bind; [apply safe_slice_from; [done|lia]|]. intros q [Hq _]. by case_if.
Qed.

Lemma netinfo_reply_safe data :
  bytes_ok data -> safe netinfo_typed (UnmarshalGetNetInfoReplyPacket data).
Proof.
  intros Hd. unfold UnmarshalGetNetInfoReplyPacket. case_if; [done|]. zbool.
  eapply safe_bind; [apply safe_idx; [done|lia]|]. intros f _. case_if; [done|].
  eapply safe_bind; [apply safe_idx; [done|lia]|]. intros flags _.
  eapply safe_bind; [apply safe_field; [done|lia..]|]. intros s Hs. cbv beta in Hs.
  eapply safe_bind; [apply safe_field; [done|lia..]|]. intros e He. cbv beta in He.
  eapply safe_bind; [apply safe_slice_from; [done|lia]|]. intros q [Hq Hql].
  case_if; [done|]. zbool.
  eapply safe_bind; [apply safe_idx; [done|lia]|]. intros l Hl. unfold u8 in Hl.
  eapply safe_bind; [apply safe_slice_from; [done|lia]|]. intros q1 [Hq1 Hql1].
  case_if; [done|]. zbool.
  eapply safe_bind; [apply safe_slice_to; [done|lia]|]. intros z [Hz Hzl].
  eapply safe_bind; [apply safe_slice_from; [done|lia]|]. intros q2 [Hq2 Hql2].
  eapply safe_bind; [apply safe_idx; [done|lia]|]. intros ml Hml. unfold u8 in Hml.
  eapply safe_bind; [apply safe_slice_from; [done|lia]|]. intros q3 [Hq3 Hql3].
  case_if; [done|]. zbool. subst ml.
  eapply safe_bind; [apply safe_slice_to; [done|lia]|]. intros m [Hm Hmln].
  eapply safe_bind; [apply safe_slice_from; [done|lia]|]. intros q4 [Hq4 Hql4].
  assert (Ht : length m = 6%nat) by (unfold zlen in Hmln; lia).
  case_if; [|by case_if]. case_if; [done|]. zbool.
  eapply safe_bind; [apply safe_idx; [done|lia]|]. intros dl _.
  eapply safe_bind; [apply safe_slice_from; [done|lia]|]. intros q5 _. by case_if.
Qed.

(** The Go types of what arrives. *)
Definition packet_typed (p : Packet) : Prop :=
  match p with
  | PQuery p => Forall u16 (q_Networks p)
  | PReply p => lists_typed (Networks p)
  | PGetNetInfo p => bytes_ok (gi_ZoneName p)
  | PGetNetInfoReply p => netinfo_typed p
  end.

Lemma UnmarshalPacket_safe data : bytes_ok data -> safe packet_typed (UnmarshalPacket data).
Proof.
  intros Hd. unfold UnmarshalPacket. case_if; [done|]. zbool.
  eapply safe_bind; [apply safe_idx; [done|lia]|]. intros f _.
  case_if; [eapply safe_bind; [by apply query_safe|done]|].
  case_if; [eapply safe_bind; [by apply reply_safe|done]|].
  case_if; [eapply safe_bind; [by apply netinfo_safe|done]|].
  case_if; [eapply safe_bind; [by apply netinfo_reply_safe|done]|]. by case_if.
Qed.

(** ** Zone lists over ATP *)

Definition enc_name (z : list Z) : list Z := zlen z :: z.

Lemma write_zones_ok zs b :
  Forall name_fits zs -> write_zones zs b = Ok (b ++ concat (map enc_name zs)).
Proof.
  intros H. revert b. induction H as [|z zs Hz _ IH]; intros b; cbn [write_zones map concat].
  - by rewrite app_nil_r.
  - unfold name_fits in Hz. pose proof (zlen_nonneg z). zdec. rewrite IH.
    rewrite wrap8_small by (unfold u8; lia). by rewrite <- app_assoc.
Qed.

Lemma write_zones_inv zs b d : write_zones zs b = Ok d -> Forall name_fits zs.
Proof.
  revert b. induction zs as [|z zs IH]; intros b; cbn [write_zones]; [constructor|].
  case_if; [done|]. zbool. intros H. constructor; [done|by eapply IH].
Qed.

Lemma read_zones_all zs rest acc :
  read_zones (length zs) (concat (map enc_name zs) ++ rest) acc = Ok (acc ++ zs, rest).
Proof.
  revert acc. induction zs as [|z zs IH]; intros acc; cbn [length read_zones map concat].
  - by rewrite app_nil_r.
  - rewrite <- app_assoc. unfold enc_name at 1 3 5. cbn [app]. rewrite zlen_cons.
    set (r := concat _ ++ rest). pose proof (zlen_nonneg (z ++ r)). pose proof (zlen_nonneg r). zdec.
    go_slices. rewrite zlen_app. zdec. rewrite slice_to_app, bind_Ok, slice_from_app, bind_Ok by done.
    unfold r. rewrite IH. by rewrite <- app_assoc.
Qed.

Lemma getzones_roundtrip p t :
  u16 (gr_TID p) -> zlen (Zones p) < 65536 -> MarshalTResp p = Ok t -> UnmarshalTResp (Some t) = Ok p.
Proof.
  intros Ht Hl. unfold MarshalTResp. pose proof (zlen_nonneg (Zones p)).
  destruct (write_zones (Zones p) []) as [d| |] eqn:E; [|done..]. pose proof (write_zones_inv _ _ _ E) as Hf.
  rewrite write_zones_ok in E by done. injection E as <-. rewrite bind_Ok. case_if; [done|]. intros [= <-].
  unfold UnmarshalTResp. cbn [ATP.tr_UserBytes ATP.tr_Data ATP.tr_TransactionID].
  assert (Ez : wrap16 (zlen (Zones p)) = zlen (Zones p)) by (unfold wrap16; apply Z.mod_small; lia).
  rewrite Ez. go_slices. rewrite fields16 by (unfold u16; lia).
  replace (Z.to_nat (zlen (Zones p))) with (length (Zones p)) by (unfold zlen; lia).
  rewrite <- (app_nil_r (concat _)), read_zones_all. cbn. by destruct p as [? [] ?].
Qed.

(** * Properties *)

Section Theorems.
Context {MO : MapOrder}.

(** [Marshal] of each packet type. *)
Definition packet_bytes (p : Packet) : res (list Z) :=
  match p with
  | PQuery p => QueryPacket_Marshal p
  | PReply p => ReplyPacket_Marshal p
  | PGetNetInfo p => GetNetInfoPacket_Marshal p
  | PGetNetInfoReply p => GetNetInfoReplyPacket_Marshal p
  end.

(** The Go types of what is sent. *)
Definition packet_sendable (p : Packet) : Prop :=
  match p with
  | PQuery p => Forall u16 (q_Networks p)
  | PReply p => reply_typed p
  | PGetNetInfo _ => True
  | PGetNetInfoReply p => netinfo_typed p
  end.

Definition packet_as_read (p : Packet) : Packet :=
  match p with
  | PReply p => PReply (as_read p)
  | PGetNetInfoReply p => PGetNetInfoReply (netinfo_as_read p)
  | p => p
  end.

(** ZIP packets survive the wire.  Whatever order the zone lists of a
    Reply are written in, [UnmarshalPacket] of the bytes of a packet is that
    packet: every zone list with its names in order, less the empty lists and
    the network count of a Reply, and less the default zone of a GetNetInfo reply
    that does not have the invalid flag.  And [UnmarshalPacket] returns on every
    input, with in-range fields and no empty zone list. *)
Theorem zip_codec_roundtrip (p : Packet) (b data : list Z) :
  packet_sendable p -> packet_bytes p = Ok b -> bytes_ok data ->
  UnmarshalPacket b = Ok (packet_as_read p) /\
  UnmarshalPacket data <> Panic /\
  forall p', UnmarshalPacket data = Ok p' -> packet_typed p'.
Proof.
  intros Ht Hb Hd. pose proof (UnmarshalPacket_safe data Hd) as Hs. split; [|split].
  - assert (Hf : forall f rest, b = f :: rest -> idx b 0 = Ok f /\ zlen b <? 1 = false).
    { intros f rest ->. rewrite idx_0, zlen_cons. pose proof (zlen_nonneg rest). by zdec. }
    unfold UnmarshalPacket. destruct p as [p|p|p|p]; cbn [packet_bytes packet_sendable packet_as_read] in *.
    + rewrite (query_roundtrip p b) by done. unfold QueryPacket_Marshal in Hb. case_if_in Hb; [done|].
      rewrite foldl_concat in Hb. injection Hb as <-. by destruct (Hf _ _ eq_refl) as [-> ->].
    + rewrite (reply_roundtrip p b) by done. destruct (Reply_Marshal_spec p) as [Hok Hinv].
      rewrite Hok in Hb by (by eapply Hinv). injection Hb as <-.
      destruct (Hf _ _ eq_refl) as [-> ->]. by destruct (Extended p).
    + rewrite (netinfo_roundtrip p b) by done. unfold GetNetInfoPacket_Marshal in Hb.
      case_if_in Hb; [done|]. injection Hb as <-. by destruct (Hf _ _ eq_refl) as [-> ->].
    + rewrite (netinfo_reply_roundtrip p b) by done. unfold GetNetInfoReplyPacket_Marshal in Hb.
      case_if_in Hb; [done|]. case_if_in Hb; [done|]. injection Hb as <-.
      by destruct (Hf _ _ eq_refl) as [-> ->].
  - by apply safe_not_panic in Hs.
  - intros p' E. by rewrite E in Hs.
Qed.

End Theorems.

Definition wit_zones : ReplyPacket :=
  MkReply false 2 {[ 3 := [str "Home"; str "Lab"]; 20 := [str "Attic"] ]}.

Example zip_codec_roundtrip_witness :
  UnmarshalPacket ([2; 2] ++ reply_bytes [(3, [str "Home"; str "Lab"]); (20, [str "Attic"])])
    = Ok (PReply (as_read wit_zones)) /\
  UnmarshalPacket [8; 1; 0; 3; 9] <> Panic /\
  forall p', UnmarshalPacket [8; 1; 0; 3; 9] = Ok p' -> packet_typed p'.
Proof.
  apply (zip_codec_roundtrip (PReply wit_zones)); [|reflexivity|const_widths].
  split; [const_widths|]. apply map_Forall_insert_2; [split; [const_widths|repeat constructor; const_widths]|].
  apply map_Forall_singleton. split; [const_widths|repeat constructor; const_widths].
Defined.
