(* ===== verification/Aarp.v ===== *)
(** * AARP on an EtherTalk port ([router/aarp.go]) and the packets that wait
      for it (the outboxes of [router/etalk_port.go])

    The address mapping table, the machine that acquires and defends the
    address of a port, and the queues of packets whose next hop is not resolved
    yet.  A step runs in an [EW]: the machine, the table, the channels that were
    closed, the outboxes, the clock, the random draws to come and the frames
    written so far.  [None] is a run that does not return: a run-time panic, or
    draws that run out. *)
From S2P Require Import Prelude AtalkNbp Atalk.
Import DDP.

Module Aarp.

Abbreviation HWAddr := (list Z).

(** ** The multitalk packages aarp and ethertalk *)

Record AddrPair := MkPair { Hardware : HWAddr; PairProto : Addr }.

(** The fields of [aarp.Packet] that are read here. *)
Record Packet := MkPacket { Opcode : Z; Src : AddrPair; Dst : AddrPair }.

(** The fields of [ethertalk.Packet] that are read or written here. *)
Record Frame := MkFrame { FrameDst : HWAddr; FrameSrc : HWAddr; SNAPProto : list Z; Payload : list Z }.

Definition with_FrameDst (v : HWAddr) (f : Frame) : Frame :=
  MkFrame v (FrameSrc f) (SNAPProto f) (Payload f).

Class Ethertalk := {
  RequestOp : Z; ResponseOp : Z; ProbeOp : Z;
  Request : AddrPair -> Addr -> Packet;
  Response : AddrPair -> AddrPair -> Packet;
  Probe : HWAddr -> Addr -> Packet;
  Unmarshal : list Z -> res Packet;
  AARPProto : list Z; AppleTalkProto : list Z;
  AARP : HWAddr -> Packet -> res Frame;
  AppleTalk : HWAddr -> ExtPacket -> res Frame;
  EthMarshal : Frame -> res (list Z);
  EthUnmarshal : list Z -> res Frame }.

(** Addresses as the Go types have them: six bytes; a 16-bit network, an 8-bit node. *)
Definition hw_ok (h : HWAddr) : Prop := length h = 6%nat /\ bytes_ok h.
Definition addr_ok (a : Addr) : Prop := u16 (a_Network a) /\ u8 (a_Node a).
Definition pair_ok (p : AddrPair) : Prop := hw_ok (Hardware p) /\ addr_ok (PairProto p).

(** The documented behaviour of the two packages: an AARP packet is framed with
    a body of 28 bytes and read back; a frame is read back from its bytes,
    whatever zeros pad it; a probe names the tentative address as the one asked
    for; nothing panics. *)
Class EthertalkLaws `{Ethertalk} := {
  ops_distinct : NoDup [RequestOp; ResponseOp; ProbeOp];
  Response_fields : forall src dst,
    Opcode (Response src dst) = ResponseOp /\ Src (Response src dst) = src /\
    Dst (Response src dst) = dst;
  Probe_fields : forall hw a,
    Opcode (Probe hw a) = ProbeOp /\ Src (Probe hw a) = MkPair hw a /\
    PairProto (Dst (Probe hw a)) = a /\ hw_ok (Hardware (Dst (Probe hw a)));
  AARP_returns : forall hw p, pair_ok (Src p) -> pair_ok (Dst p) -> hw_ok hw ->
    exists f, AARP hw p = Ok f;
  AARP_frame : forall hw p f, AARP hw p = Ok f ->
    Unmarshal (Payload f) = Ok p /\ zlen (Payload f) = 28 /\
    FrameSrc f = hw /\ hw_ok (FrameDst f) /\ SNAPProto f = AARPProto;
  AARP_marshal : forall hw p f dst, AARP hw p = Ok f -> hw_ok dst ->
    exists raw, EthMarshal (with_FrameDst dst f) = Ok raw;
  Eth_reads : forall f raw n, EthMarshal f = Ok raw ->
    exists tail, EthUnmarshal (raw ++ replicate n 0) =
                 Ok (MkFrame (FrameDst f) (FrameSrc f) (SNAPProto f) (Payload f ++ tail));
  Eth_bytes : forall raw f, bytes_ok raw -> EthUnmarshal raw = Ok f -> bytes_ok (Payload f);
  AARP_safe : forall hw p, AARP hw p <> Panic;
  AppleTalk_safe : forall hw p, AppleTalk hw p <> Panic;
  Unmarshal_safe : forall data, Unmarshal data <> Panic;
  EthMarshal_safe : forall f, EthMarshal f <> Panic;
  EthUnmarshal_safe : forall raw, EthUnmarshal raw <> Panic }.

(** ** State *)

Definition Second : Z := 1000000000.
Definition maxAMTEntryAge : Z := 30 * Second.
Definition aarpRequestRetransmit : Z := 1 * Second.
Definition aarpBodyLength : Z := 28.
Definition phase2StartupStart : Z := 0xff00.
Definition phase2StartupEnd : Z := 0xfffe.

Definition isPhase2StartupRange (start end_ : Z) : bool :=
  (phase2StartupStart <=? start) && (end_ <=? phase2StartupEnd).

(** Channels are numbered in the order they are made. *)
Abbreviation chan := Z.

(** [LastUpdated] is [None] for the zero time. *)
Record AMTEntry := { e_HWAddr : HWAddr; LastUpdated : option Z; updated : chan }.

Definition Valid (now : Z) (e : AMTEntry) : bool :=
  match LastUpdated e with Some t => now - t <? maxAMTEntryAge | None => false end.

(** The status message is left out; [ticker] is whether the probe ticker runs;
    [rangeCh] is the content of the channel of that name. *)
Record AARPMachine := {
  myAddr : AddrPair;
  probes : Z;
  assigned : bool;
  rangeStart : Z; rangeEnd : Z;
  rangeCh : option (Z * Z);
  assignedSignaled : bool; assignedCh : chan;
  operational : bool;
  operationalSignaled : bool; operationalCh : chan;
  ticker : bool }.

Record outbox := { packets : list ExtPacket; ob_addr : Addr; lastTS : Z }.

(** [changed] is whether [outboxesChangedCh] holds its token. *)
Record EW := {
  machine : AARPMachine;
  amt : gmap Addr AMTEntry;
  next_chan : chan;
  closed : gset chan;
  outboxes : gmap chan outbox;
  changed : bool;
  clock : Z;
  draws : list Z;
  written : list (list Z);
  writes : list bool }.

Definition with_machine (v : AARPMachine) (w : EW) : EW :=
  {| machine := v; amt := amt w; next_chan := next_chan w; closed := closed w;
     outboxes := outboxes w; changed := changed w; clock := clock w; draws := draws w;
     written := written w; writes := writes w |}.
Definition with_amt (v : gmap Addr AMTEntry) (w : EW) : EW :=
  {| machine := machine w; amt := v; next_chan := next_chan w; closed := closed w;
     outboxes := outboxes w; changed := changed w; clock := clock w; draws := draws w;
     written := written w; writes := writes w |}.
Definition with_chans (next : chan) (cl : gset chan) (w : EW) : EW :=
  {| machine := machine w; amt := amt w; next_chan := next; closed := cl;
     outboxes := outboxes w; changed := changed w; clock := clock w; draws := draws w;
     written := written w; writes := writes w |}.
Definition with_outboxes (v : gmap chan outbox) (w : EW) : EW :=
  {| machine := machine w; amt := amt w; next_chan := next_chan w; closed := closed w;
     outboxes := v; changed := changed w; clock := clock w; draws := draws w;
     written := written w; writes := writes w |}.
Definition with_changed (v : bool) (w : EW) : EW :=
  {| machine := machine w; amt := amt w; next_chan := next_chan w; closed := closed w;
     outboxes := outboxes w; changed := v; clock := clock w; draws := draws w;
     written := written w; writes := writes w |}.
Definition with_clock (v : Z) (w : EW) : EW :=
  {| machine := machine w; amt := amt w; next_chan := next_chan w; closed := closed w;
     outboxes := outboxes w; changed := changed w; clock := v; draws := draws w;
     written := written w; writes := writes w |}.
Definition with_draws (v : list Z) (w : EW) : EW :=
  {| machine := machine w; amt := amt w; next_chan := next_chan w; closed := closed w;
     outboxes := outboxes w; changed := changed w; clock := clock w; draws := v;
     written := written w; writes := writes w |}.
Definition with_written (v : list (list Z)) (rest : list bool) (w : EW) : EW :=
  {| machine := machine w; amt := amt w; next_chan := next_chan w; closed := closed w;
     outboxes := outboxes w; changed := changed w; clock := clock w; draws := draws w;
     written := v; writes := rest |}.

Definition E (A : Type) : Type := EW -> option (EW * A).

#[global] Instance E_ret : MRet E := fun A a w => Some (w, a).
#[global] Instance E_bind : MBind E := fun A B f m w =>
  match m w with Some (w', a) => f a w' | None => None end.

Abbreviation error := (option goerr).

Definition getw {A} (f : EW -> A) : E A := fun w => Some (w, f w).
Definition modw (f : EW -> EW) : E unit := fun w => Some (f w, tt).
Definition modm (f : AARPMachine -> AARPMachine) : E unit := modw (fun w => with_machine (f (machine w)) w).
Definition panic {A} : E A := fun _ => None.

(** [if err != nil { return err }] on a pure call. *)
Definition checke {A} (r : res A) (k : A -> E error) : E error :=
  match r with Ok a => k a | Err e => mret (Some e) | Panic => panic end.

(** [make(chan struct{})] and [close]: closing twice panics. *)
Definition make_chan : E chan := fun w =>
  Some (with_chans (next_chan w + 1) (closed w) w, next_chan w).
Definition close_chan (c : chan) : E unit := fun w =>
  if bool_decide (c ∈ closed w) then None
  else Some (with_chans (next_chan w) ({[c]} ∪ closed w) w, tt).

(** [rand.N(n)]. *)
Definition draw (n : Z) : E Z := fun w =>
  if n <=? 0 then None
  else match draws w with d :: ds => Some (with_draws ds w, d mod n) | [] => None end.

(** [pcapHandle.WritePacketData]: the next outcome says whether the frame was
    written; past the end of the list it is. *)
Definition WritePacketData (raw : list Z) : E error := fun w =>
  match writes w with
  | false :: rest => Some (with_written (written w) rest w, Some (Errorf "write failed" []))
  | true :: rest => Some (with_written (written w ++ [raw]) rest w, None)
  | [] => Some (with_written (written w ++ [raw]) [] w, None)
  end.

(** ** The address mapping table *)

Definition learn (ddpAddr : Addr) (hwAddr : HWAddr) : E unit :=
  t ← getw amt; now ← getw clock;
  match t !! ddpAddr with
  | None =>
      ch ← make_chan;
      modw (fun w => with_amt
        (<[ddpAddr := {| e_HWAddr := hwAddr; LastUpdated := Some now; updated := ch |}]> (amt w)) w)
  | Some oldEnt =>
      _ ← close_chan (updated oldEnt);
      ch ← make_chan;
      modw (fun w => with_amt
        (<[ddpAddr := {| e_HWAddr := hwAddr; LastUpdated := Some now; updated := ch |}]> (amt w)) w)
  end.

(** [ethernet.Addr{}]. *)
Definition noHWAddr : HWAddr := [0; 0; 0; 0; 0; 0].

Definition lookupOrWait (ddpAddr : Addr) : E (HWAddr * option chan) :=
  t ← getw amt; now ← getw clock;
  match t !! ddpAddr with
  | None =>
      ch ← make_chan;
      _ ← modw (fun w => with_amt
            (<[ddpAddr := {| e_HWAddr := noHWAddr; LastUpdated := None; updated := ch |}]> (amt w)) w);
      mret (noHWAddr, Some ch)
  | Some ent =>
      if negb (Valid now ent) then mret (e_HWAddr ent, Some (updated ent))
      else mret (e_HWAddr ent, None)
  end.

(** ** The machine *)

Definition with_addr (addr : Addr) (p : Z) (a : AARPMachine) : AARPMachine :=
  {| myAddr := MkPair (Hardware (myAddr a)) addr; probes := p; assigned := assigned a;
     rangeStart := rangeStart a; rangeEnd := rangeEnd a; rangeCh := rangeCh a;
     assignedSignaled := assignedSignaled a; assignedCh := assignedCh a;
     operational := operational a; operationalSignaled := operationalSignaled a;
     operationalCh := operationalCh a; ticker := ticker a |}.
Definition with_range (start end_ : Z) (a : AARPMachine) : AARPMachine :=
  {| myAddr := myAddr a; probes := probes a; assigned := assigned a;
     rangeStart := start; rangeEnd := end_; rangeCh := rangeCh a;
     assignedSignaled := assignedSignaled a; assignedCh := assignedCh a;
     operational := operational a; operationalSignaled := operationalSignaled a;
     operationalCh := operationalCh a; ticker := ticker a |}.
Definition with_rangeCh (v : option (Z * Z)) (a : AARPMachine) : AARPMachine :=
  {| myAddr := myAddr a; probes := probes a; assigned := assigned a;
     rangeStart := rangeStart a; rangeEnd := rangeEnd a; rangeCh := v;
     assignedSignaled := assignedSignaled a; assignedCh := assignedCh a;
     operational := operational a; operationalSignaled := operationalSignaled a;
     operationalCh := operationalCh a; ticker := ticker a |}.
Definition with_phase (asg ope tick : bool) (a : AARPMachine) : AARPMachine :=
  {| myAddr := myAddr a; probes := probes a; assigned := asg;
     rangeStart := rangeStart a; rangeEnd := rangeEnd a; rangeCh := rangeCh a;
     assignedSignaled := assignedSignaled a; assignedCh := assignedCh a;
     operational := ope; operationalSignaled := operationalSignaled a;
     operationalCh := operationalCh a; ticker := tick |}.
Definition with_signaled (asg ope : bool) (a : AARPMachine) : AARPMachine :=
  {| myAddr := myAddr a; probes := probes a; assigned := assigned a;
     rangeStart := rangeStart a; rangeEnd := rangeEnd a; rangeCh := rangeCh a;
     assignedSignaled := asg; assignedCh := assignedCh a;
     operational := operational a; operationalSignaled := ope;
     operationalCh := operationalCh a; ticker := ticker a |}.

(** [NewAARPMachine]: the two channels are the first ones made. *)
Definition NewAARPMachine (myHWAddr : HWAddr) : AARPMachine :=
  {| myAddr := MkPair myHWAddr (MkAddr 0 0); probes := 0; assigned := false;
     rangeStart := 0; rangeEnd := 0; rangeCh := None;
     assignedSignaled := false; assignedCh := 0;
     operational := false; operationalSignaled := false; operationalCh := 1;
     ticker := false |}.

Definition new_world (myHWAddr : HWAddr) (now : Z) (rand : list Z) : EW :=
  {| machine := NewAARPMachine myHWAddr; amt := ∅; next_chan := 2; closed := ∅;
     outboxes := ∅; changed := false; clock := now; draws := rand; written := []; writes := [] |}.

Definition Address (a : AARPMachine) : AddrPair * bool := (myAddr a, assigned a).

(** [rangeCh] has room for one range; another is dropped. *)
Definition Rebind (start end_ : Z) (a : AARPMachine) : AARPMachine :=
  if (start =? 0) || (end_ =? 0) || (end_ <? start) || isPhase2StartupRange start end_ then a
  else match rangeCh a with None => with_rangeCh (Some (start, end_)) a | Some _ => a end.

Definition OperationalRange (a : AARPMachine) : Z * Z * bool :=
  (rangeStart a, rangeEnd a, operational a && assigned a).

(** [Run] before its loop. *)
Definition start_run (start end_ : Z) (a : AARPMachine) : AARPMachine :=
  let a := with_addr (MkAddr start 1) 0 (with_range start end_ a) in
  with_phase (assigned a) (operational a) true a.

Section Machine.
Context `{ET : Ethertalk}.

(** [append(frameRaw, make([]byte, 64-len(frameRaw))...)] of a short frame. *)
Definition pad_frame (frameRaw : list Z) : list Z :=
  if zlen frameRaw <? 64 then frameRaw ++ replicate (Z.to_nat (64 - zlen frameRaw)) 0 else frameRaw.

Definition send (pkt : Frame) : E error :=
  checke (EthMarshal pkt) (fun frameRaw => WritePacketData (pad_frame frameRaw)).

Definition heyThatsMe (targ : AddrPair) : E error :=
  a ← getw machine;
  checke (AARP (Hardware (myAddr a)) (Response (myAddr a) targ)) (fun respFrame =>
    send (with_FrameDst (Hardware targ) respFrame)).

Definition probe : E error :=
  a ← getw machine;
  checke (AARP (Hardware (myAddr a)) (Probe (Hardware (myAddr a)) (PairProto (myAddr a)))) send.

Definition request (ddpAddr : Addr) : E error :=
  a ← getw machine;
  checke (AARP (Hardware (myAddr a)) (Request (myAddr a) ddpAddr)) send.

(** [for newNode == a.myAddr.Proto.Node]: each turn takes one draw. *)
Fixpoint new_node (fuel : nat) (node : Z) : E Z :=
  match fuel with
  | O => panic
  | S fuel =>
      d ← draw 0xfd;
      if d + 1 =? node then new_node fuel node else mret (d + 1)
  end.

Definition new_network : E Z :=
  a ← getw machine;
  if negb (rangeStart a =? rangeEnd a) then
    d ← draw (wrap16 (wrap16 (rangeEnd a - rangeStart a) + 1));
    mret (wrap16 (d + rangeStart a))
  else mret (a_Network (PairProto (myAddr a))).

Definition reroll : E unit :=
  network ← new_network;
  a ← getw machine;
  ds ← getw draws;
  node ← new_node (length ds) (a_Node (PairProto (myAddr a)));
  modm (with_addr (MkAddr network node) 0).

(** ** One turn of the loop of [Run] *)

(** [case rng := <-a.rangeCh]. *)
Definition on_range (start end_ : Z) : E unit :=
  _ ← modm (with_rangeCh None);
  a ← getw machine;
  if (rangeStart a =? start) && (rangeEnd a =? end_) && operational a then mret tt
  else modm (fun a => with_phase false false true (with_addr (MkAddr start 1) 0 (with_range start end_ a))).

(** [case <-ticker]. *)
Definition on_tick : E unit :=
  a ← getw machine;
  if 10 <=? probes a then
    _ ← modm (fun a => with_phase true (operational a) (ticker a) a);
    _ ← (if negb (assignedSignaled a) then
           _ ← close_chan (assignedCh a);
           modm (fun a => with_signaled true (operationalSignaled a) a)
         else mret tt);
    _ ← (if negb (isPhase2StartupRange (rangeStart a) (rangeEnd a)) && negb (operational a) then
           _ ← modm (fun a => with_phase (assigned a) true (ticker a) a);
           if negb (operationalSignaled a) then
             _ ← close_chan (operationalCh a);
             modm (fun a => with_signaled (assignedSignaled a) true a)
           else mret tt
         else mret tt);
    modm (fun a => with_phase (assigned a) (operational a) false a)
  else
    _ ← modm (fun a => with_addr (PairProto (myAddr a)) (probes a + 1) a);
    _ ← probe;
    mret tt.

(** Junk after an AARP body is cut off. *)
Definition trim_body (payload : list Z) : list Z :=
  if aarpBodyLength <? zlen payload then take (Z.to_nat aarpBodyLength) payload else payload.

(** [case ethFrame := <-a.incomingCh], with the payload of the frame; the
    channel is never closed.  Errors are logged. *)
Definition on_frame (payload : list Z) : E unit :=
  match Unmarshal (trim_body payload) with
  | Panic => panic
  | Err _ => mret tt
  | Ok aapkt =>
      if Opcode aapkt =? RequestOp then
        _ ← learn (PairProto (Src aapkt)) (Hardware (Src aapkt));
        a ← getw machine;
        if negb (bool_decide (PairProto (Dst aapkt) = PairProto (myAddr a))) then mret tt
        else if negb (assigned a) then mret tt
        else _ ← heyThatsMe (Src aapkt); mret tt
      else if Opcode aapkt =? ResponseOp then
        _ ← learn (PairProto (Dst aapkt)) (Hardware (Dst aapkt));
        a ← getw machine;
        if negb (bool_decide (PairProto (Dst aapkt) = PairProto (myAddr a))) then mret tt
        else if negb (assigned a) then reroll
        else mret tt
      else if Opcode aapkt =? ProbeOp then
        a ← getw machine;
        if negb (bool_decide (PairProto (Dst aapkt) = PairProto (myAddr a))) then mret tt
        else if negb (assigned a) then reroll
        else _ ← heyThatsMe (Src aapkt); mret tt
      else mret tt
  end.

(** What the machine runs: turns of the loop of [Run], and the calls of other
    goroutines between them.  A stopped ticker and an empty channel deliver
    nothing. *)
Inductive Event :=
| ETick | ERange | EFrame (payload : list Z)
| ERebind (start end_ : Z) | ELearn (addr : Addr) (hw : HWAddr) | EClock (now : Z).

Definition turn (e : Event) : E unit :=
  a ← getw machine;
  match e with
  | ETick => if ticker a then on_tick else mret tt
  | ERange => match rangeCh a with Some (start, end_) => on_range start end_ | None => mret tt end
  | EFrame payload => on_frame payload
  | ERebind start end_ => modm (Rebind start end_)
  | ELearn addr hw => learn addr hw
  | EClock now => modw (with_clock now)
  end.

Fixpoint run (es : list Event) : E unit :=
  match es with [] => mret tt | e :: es => _ ← turn e; run es end.

End Machine.
End Aarp.
