(* ===== verification/AarpWire.v ===== *)
(** * An implementation of the ethertalk and aarp packages

    [wire_ethertalk] reads and writes frames with the documented layout; it shows
    that the laws [EthertalkLaws] can hold, and the concrete runs use it. *)
From S2P Require Import Prelude AtalkNbp Atalk Aarp.
Import DDP Aarp.

Definition byteb (b : Z) : bool := (0 <=? b) && (b <? 256).
Definition hw_okb (h : HWAddr) : bool := bool_decide (length h = 6%nat) && forallb byteb h.
Definition addr_okb (a : Addr) : bool :=
  (0 <=? a_Network a) && (a_Network a <? 65536) && (0 <=? a_Node a) && (a_Node a <? 256).
Definition pair_okb (p : AddrPair) : bool := hw_okb (Hardware p) && addr_okb (PairProto p).

Lemma forallb_bytes l : forallb byteb l = true <-> bytes_ok l.
Proof.
  unfold bytes_ok. rewrite forallb_forall, Forall_forall. unfold byteb, u8.
  split; intros H x Hx.
  - apply list_elem_of_In in Hx. specialize (H x Hx). zbool. lia.
  - apply list_elem_of_In in Hx. specialize (H x Hx). zdec. done.
Qed.

Lemma hw_okb_spec h : hw_okb h = true <-> hw_ok h.
Proof. unfold hw_okb, hw_ok. by rewrite andb_true_iff, bool_decide_eq_true, forallb_bytes. Qed.

Lemma pair_okb_spec p : pair_okb p = true <-> pair_ok p.
Proof.
  unfold pair_okb, pair_ok, addr_okb, addr_ok, u16, u8.
  rewrite andb_true_iff, hw_okb_spec, !andb_true_iff, !Z.leb_le, !Z.ltb_lt. intuition.
Qed.

(** A protocol address in an AARP body: a zero, the network, the node. *)
Definition enc_addr (a : Addr) : list Z := 0 :: put16 (a_Network a) ++ [a_Node a].
Definition enc_pair (p : AddrPair) : list Z := Hardware p ++ enc_addr (PairProto p).
Definition aarp_body (p : Packet) : list Z :=
  [0; 1; 0x80; 0x9B; 6; 4; 0; Opcode p] ++ enc_pair (Src p) ++ enc_pair (Dst p).

Definition dec_pair (b : list Z) : AddrPair :=
  MkPair (take 6 b)
    (match drop 6 b with
     | [_; h; l; n] => MkAddr (Z.lor (Z.shiftl h 8) l) n
     | _ => MkAddr 0 0
     end).

Definition wire_Unmarshal (b : list Z) : res Packet :=
  if negb (bool_decide (length b = 28%nat)) then Err (Errorf "size" [])
  else
    match drop 7 b with
    | op :: pairs => Ok (MkPacket op (dec_pair (take 10 pairs)) (dec_pair (drop 10 pairs)))
    | [] => Err (Errorf "size" [])
    end.

Definition wire_broadcast : HWAddr := [9; 0; 7; 255; 255; 255].
Definition aarp_snap : list Z := [0; 0; 0; 0x80; 0xF3].
Definition atalk_snap : list Z := [8; 0; 7; 0x80; 0x9B].

Definition wire_AARP (hw : HWAddr) (p : Packet) : res Frame :=
  if hw_okb hw && pair_okb (Src p) && pair_okb (Dst p)
  then Ok (MkFrame wire_broadcast hw aarp_snap (aarp_body p))
  else Err (Errorf "address" []).

Definition wire_EthMarshal (f : Frame) : res (list Z) :=
  if bool_decide (length (FrameDst f) = 6%nat) && bool_decide (length (FrameSrc f) = 6%nat) &&
     bool_decide (length (SNAPProto f) = 5%nat)
  then Ok (FrameDst f ++ FrameSrc f ++ SNAPProto f ++ Payload f)
  else Err (Errorf "address" []).

Definition wire_EthUnmarshal (raw : list Z) : res Frame :=
  if zlen raw <? 17 then Err (Errorf "size" [])
  else Ok (MkFrame (take 6 raw) (take 6 (drop 6 raw)) (take 5 (drop 12 raw)) (drop 17 raw)).

#[export] Instance wire_ethertalk `{MT : Multitalk} : Ethertalk := {|
  RequestOp := 1; ResponseOp := 2; ProbeOp := 3;
  Request src a := MkPacket 1 src (MkPair noHWAddr a);
  Response src dst := MkPacket 2 src dst;
  Probe hw a := MkPacket 3 (MkPair hw a) (MkPair noHWAddr a);
  Unmarshal := wire_Unmarshal;
  AARPProto := aarp_snap; AppleTalkProto := atalk_snap;
  AARP := wire_AARP;
  AppleTalk hw pkt :=
    match ExtMarshal pkt with
    | Ok raw => Ok (MkFrame wire_broadcast hw atalk_snap raw)
    | _ => Err (Errorf "marshal" [])
    end;
  EthMarshal := wire_EthMarshal;
  EthUnmarshal := wire_EthUnmarshal |}.

Lemma pair_roundtrip p : pair_ok p -> length (enc_pair p) = 10%nat /\ dec_pair (enc_pair p) = p.
Proof.
  intros [[Hl Hb] [Hn Hd]]. destruct p as [h [n d]]. cbn in *. unfold enc_pair, dec_pair.
  cbn [Hardware PairProto enc_addr a_Network a_Node]. split.
  - rewrite length_app, Hl. reflexivity.
  - rewrite take_app_length' by done. rewrite drop_app_length' by done. cbn [put16 app enc_addr].
    do 2 f_equal. by apply fields16.
Qed.

Lemma aarp_body_ok p : pair_ok (Src p) -> pair_ok (Dst p) ->
  length (aarp_body p) = 28%nat /\ wire_Unmarshal (aarp_body p) = Ok p.
Proof.
  intros Hs Hd. destruct (pair_roundtrip _ Hs) as [Ls Rs]. destruct (pair_roundtrip _ Hd) as [Ld Rd].
  assert (L : length (aarp_body p) = 28%nat) by (unfold aarp_body; rewrite !length_app, Ls, Ld; done).
  split; [done|]. unfold wire_Unmarshal. rewrite bool_decide_true by done. cbn [negb].
  unfold aarp_body. cbn [app drop]. rewrite take_app_length', drop_app_length' by done.
  rewrite Rs, Rd. by destruct p.
Qed.

#[export] Instance wire_ethertalk_laws `{MT : Multitalk} : EthertalkLaws.
Proof.
  split.
  - cbn. apply (bool_decide_unpack _). exact I.
  - done.
  - intros hw a. split_and!; [done..|]. by apply hw_okb_spec.
  - intros hw p Hs Hd Hh. cbn. unfold wire_AARP.
    rewrite (proj2 (hw_okb_spec _) Hh), (proj2 (pair_okb_spec _) Hs), (proj2 (pair_okb_spec _) Hd). by eexists.
  - intros hw p f. cbn. unfold wire_AARP. destruct (hw_okb hw) eqn:Eh; [|done].
    destruct (pair_okb (Src p)) eqn:Es; [|done]. destruct (pair_okb (Dst p)) eqn:Ed; [|done].
    cbn [andb]. intros [= <-]. apply pair_okb_spec in Es, Ed.
    destruct (aarp_body_ok p Es Ed) as [L U]. cbn [Payload FrameSrc FrameDst SNAPProto].
    split; [done|]. split; [by unfold zlen; rewrite L|]. split; [done|]. split; [|done].
    by apply hw_okb_spec.
  - intros hw p f dst. cbn. unfold wire_AARP. destruct (hw_okb hw) eqn:Eh; [|done].
    destruct (_ && _); [|done]. intros [= <-] [Hd _]. apply hw_okb_spec in Eh as [Hh _].
    unfold wire_EthMarshal. cbn. rewrite !bool_decide_true by done. by eexists.
  - intros [d s pr pl] raw n. cbn. unfold wire_EthMarshal. cbn [FrameDst FrameSrc SNAPProto Payload].
    destruct (decide (length d = 6%nat)) as [Ld|]; [rewrite (bool_decide_true _ Ld)|by rewrite bool_decide_false].
    destruct (decide (length s = 6%nat)) as [Ls|]; [rewrite (bool_decide_true _ Ls)|by rewrite bool_decide_false].
    destruct (decide (length pr = 5%nat)) as [Lp|]; [rewrite (bool_decide_true _ Lp)|by rewrite bool_decide_false].
    cbn [andb]. intros [= <-]. exists (replicate n 0). unfold wire_EthUnmarshal. case_if.
    { zbool. unfold zlen in *. rewrite !length_app in *. lia. }
    rewrite <- !app_assoc.
    change 17%nat with (6 + (6 + 5))%nat. change 12%nat with (6 + 6)%nat.
    rewrite <- !drop_drop. rewrite !(take_app_length' d), !(drop_app_length' d) by done.
    rewrite !(take_app_length' s), !(drop_app_length' s) by done.
    by rewrite !(take_app_length' pr), !(drop_app_length' pr) by done.
  - intros raw f Hb. cbn. unfold wire_EthUnmarshal. case_if; [done|]. intros [= <-]. by apply Forall_drop.
  - intros hw p. cbn. unfold wire_AARP. by destruct (_ && _).
  - intros hw p. cbn. by destruct (ExtMarshal p).
  - intros data. cbn. unfold wire_Unmarshal. destruct (negb _); [done|]. by destruct (drop 7 data).
  - intros f. cbn. unfold wire_EthMarshal. by destruct (_ && _).
  - intros raw. cbn. unfold wire_EthUnmarshal. by destruct (_ <? _).
Qed.
