(* ===== verification/AarpSpec.v ===== *)
(** * What the AARP machine guarantees ([router/aarp.go])

    The machine never closes a channel twice nor panics; without contest it owns
    an address after ten probes; its address is always one of its cable range;
    and two machines on one cable never own the same address. *)
From S2P Require Import Prelude AtalkNbp Atalk Aarp AarpWire.
Import DDP Aarp.

(** ** Runs that return *)

(** From every state of [P] the run returns, with [Q] of its result. *)
Definition fine {A} (P : EW -> Prop) (m : E A) (Q : A -> EW -> Prop) : Prop :=
  forall w, P w -> exists w' a, m w = Some (w', a) /\ Q a w'.

Lemma e_bind {A B} (m : E A) (f : A -> E B) w w' a : m w = Some (w', a) -> (m ≫= f) w = f a w'.
Proof. intros H. unfold mbind, E_bind. by rewrite H. Qed.

Lemma fine_ret {A} (P : EW -> Prop) (a : A) : fine P (mret a) (fun _ => P).
Proof. intros w H. by exists w, a. Qed.

Lemma fine_bind {A B} P (Q : A -> EW -> Prop) (R : B -> EW -> Prop) (m : E A) f :
  fine P m Q -> (forall a, fine (Q a) (f a) R) -> fine P (m ≫= f) R.
Proof.
  intros Hm Hf w Hw. destruct (Hm w Hw) as (w1 & a & H1 & HQ). rewrite (e_bind _ _ _ _ _ H1).
  by apply Hf.
Qed.

Lemma fine_getw {A B} P (Q : B -> EW -> Prop) (g : EW -> A) (f : A -> E B) :
  (forall a, fine (fun w => P w /\ g w = a) (f a) Q) -> fine P (getw g ≫= f) Q.
Proof. intros Hf w Hw. rewrite (e_bind _ _ w w (g w)) by done. by apply Hf. Qed.

Lemma fine_modw (P Q : EW -> Prop) f : (forall w, P w -> Q (f w)) -> fine P (modw f) (fun _ => Q).
Proof. intros H w Hw. exists (f w), tt. split; [done|by apply H]. Qed.

Lemma fine_weaken {A} (P P' : EW -> Prop) (m : E A) (Q Q' : A -> EW -> Prop) :
  fine P' m Q' -> (forall w, P w -> P' w) -> (forall a w, Q' a w -> Q a w) -> fine P m Q.
Proof. intros H HP HQ w Hw. destruct (H w (HP w Hw)) as (w' & a & E & HQ'). exists w', a. auto. Qed.

(** ** The channels *)

(** Each entry of the table waits on an open channel of its own; the signal
    channels of the machine are closed at most once. *)
Record chans_ok (w : EW) : Prop := {
  co_next : 2 <= next_chan w;
  co_closed : forall c, c ∈ closed w -> 0 <= c < next_chan w;
  co_entry : forall a e, amt w !! a = Some e -> 2 <= updated e < next_chan w /\ updated e ∉ closed w;
  co_own : forall a e a' e', amt w !! a = Some e -> amt w !! a' = Some e' ->
    updated e = updated e' -> a = a';
  co_assigned : assignedCh (machine w) = 0 /\ (assignedSignaled (machine w) = false -> 0 ∉ closed w);
  co_operational : operationalCh (machine w) = 1 /\
    (operationalSignaled (machine w) = false -> 1 ∉ closed w) }.

(** What a change of the machine must keep for its channels. *)
Definition same_signals (a a' : AARPMachine) : Prop :=
  assignedSignaled a' = assignedSignaled a /\ assignedCh a' = assignedCh a /\
  operationalSignaled a' = operationalSignaled a /\ operationalCh a' = operationalCh a.

Lemma chans_machine w m : same_signals (machine w) m -> chans_ok w -> chans_ok (with_machine m w).
Proof.
  intros (E1 & E2 & E3 & E4) [H1 H2 H3 H4 H5 H6]. split; try done; cbn [machine with_machine closed].
  - by rewrite E1, E2.
  - by rewrite E3, E4.
Qed.

Lemma chans_entry w a e :
  chans_ok w -> 2 <= updated e < next_chan w -> updated e ∉ closed w ->
  (forall a' e', amt w !! a' = Some e' -> a' <> a -> updated e' <> updated e) ->
  chans_ok (with_amt (<[a := e]> (amt w)) w).
Proof.
  intros [H1 H2 H3 H4 H5 H6] He Ho Hd. split; try done; cbn [amt with_amt closed next_chan].
  - intros a' e'. rewrite lookup_insert_Some. intros [[<- <-]|[_ E]]; [done|eauto].
  - intros a1 e1 a2 e2. rewrite !lookup_insert_Some.
    intros [[<- <-]|[N1 E1]] [[<- <-]|[N2 E2]] Eu; [done| | |by eauto].
    + by destruct (Hd a2 e2 E2 (not_eq_sym N2)).
    + by destruct (Hd a1 e1 E1 (not_eq_sym N1)).
Qed.

(** A new channel belongs to nobody. *)
Lemma make_chan_fresh w :
  chans_ok w -> let c := next_chan w in
  make_chan w = Some (with_chans (c + 1) (closed w) w, c) /\
  chans_ok (with_chans (c + 1) (closed w) w) /\ 2 <= c /\ c ∉ closed w /\
  (forall a e, amt w !! a = Some e -> updated e <> c).
Proof.
  intros [H1 H2 H3 H4 H5 H6] c. split; [done|]. subst c. split_and!; [|done| |].
  - split; cbn [next_chan closed amt machine with_chans]; try done; [lia| |].
    + intros c Hc. specialize (H2 c Hc). lia.
    + intros a e Ha. destruct (H3 a e Ha). split; [lia|done].
  - intros Hc. specialize (H2 _ Hc). lia.
  - intros a e Ha. specialize (H3 a e Ha). lia.
Qed.

Lemma close_chan_runs c w :
  c ∉ closed w -> close_chan c w = Some (with_chans (next_chan w) ({[c]} ∪ closed w) w, tt).
Proof. intros H. unfold close_chan. by rewrite bool_decide_false. Qed.

(** The world after [learn]. *)
Definition learnt (a : Addr) (hw : HWAddr) (w : EW) : EW :=
  let cl := match amt w !! a with Some e => {[updated e]} ∪ closed w | None => closed w end in
  with_amt (<[a := {| e_HWAddr := hw; LastUpdated := Some (clock w); updated := next_chan w |}]> (amt w))
    (with_chans (next_chan w + 1) cl w).

Lemma learn_runs a hw w : chans_ok w -> learn a hw w = Some (learnt a hw w, tt).
Proof.
  intros [H1 H2 H3 H4 H5 H6]. unfold learn, learnt.
  erewrite (e_bind (getw amt)) by done. erewrite (e_bind (getw clock)) by done.
  destruct (amt w !! a) as [e|] eqn:Ea; [|reflexivity].
  erewrite (e_bind (close_chan _)) by (apply close_chan_runs, (H3 a e Ea)). reflexivity.
Qed.

Lemma chans_learnt a hw w : chans_ok w -> chans_ok (learnt a hw w).
Proof.
  intros H. pose proof H as [H1 H2 H3 H4 H5 H6]. unfold learnt.
  split; cbn [next_chan closed amt machine with_amt with_chans]; try lia.
  - intros c Hc. assert (c ∈ closed w \/ exists e, amt w !! a = Some e /\ c = updated e) as [Hc'|(e & Ea & ->)].
    { destruct (amt w !! a) eqn:Ea; [|by left]. apply elem_of_union in Hc as [->%elem_of_singleton|]; eauto. }
    + specialize (H2 c Hc'). lia.
    + specialize (H3 a e Ea). lia.
  - intros a' e'. rewrite lookup_insert_Some. intros [[<- <-]|[Na Ea']]; cbn [updated].
    + split; [lia|]. intros Hc. destruct (amt w !! a) as [e|] eqn:Ea.
      * apply elem_of_union in Hc as [Eu%elem_of_singleton|Hc].
        { specialize (H3 a e Ea). lia. } { specialize (H2 _ Hc). lia. }
      * specialize (H2 _ Hc). lia.
    + destruct (H3 a' e' Ea') as [Hr Ho]. split; [lia|]. destruct (amt w !! a) as [e|] eqn:Ea; [|done].
      intros [E%elem_of_singleton|]%elem_of_union; [|done]. by apply Na, (H4 a e a' e').
  - intros a1 e1 a2 e2. rewrite !lookup_insert_Some.
    intros [[<- <-]|[N1 E1]] [[<- <-]|[N2 E2]] Eu; cbn [updated] in Eu; [done| | |by eauto].
    + specialize (H3 _ _ E2). lia.
    + specialize (H3 _ _ E1). lia.
  - split; [apply H5|]. intros Hs Hc. destruct H5 as [_ H5]. destruct (amt w !! a) as [e|] eqn:Ea; [|by apply H5].
    apply elem_of_union in Hc as [E%elem_of_singleton|]; [|by apply H5]. specialize (H3 a e Ea). lia.
  - split; [apply H6|]. intros Hs Hc. destruct H6 as [_ H6]. destruct (amt w !! a) as [e|] eqn:Ea; [|by apply H6].
    apply elem_of_union in Hc as [E%elem_of_singleton|]; [|by apply H6]. specialize (H3 a e Ea). lia.
Qed.

(** ** The machine *)

Section Machine.
Context `{ET : Ethertalk} {EL : EthertalkLaws}.

(** [w'] is [w] but for what was written. *)
Definition wrote (w w' : EW) : Prop :=
  exists l rest, w' = with_written (written w ++ l) rest w /\ (writes w = [] -> rest = []).

Lemma wrote_refl w : wrote w w.
Proof. exists [], (writes w). rewrite app_nil_r. split; [by destruct w|done]. Qed.

Lemma WritePacketData_wrote raw w : exists w' err, WritePacketData raw w = Some (w', err) /\ wrote w w'.
Proof.
  unfold WritePacketData. destruct (writes w) as [|[] rest] eqn:Ew.
  - eexists _, _; split; [done|]. by exists [raw], [].
  - eexists _, _; split; [done|]. exists [raw], rest. by rewrite Ew.
  - eexists _, _; split; [done|]. exists [], rest. by rewrite app_nil_r, Ew.
Qed.

Lemma send_wrote f w : exists w' err, send f w = Some (w', err) /\ wrote w w'.
Proof.
  unfold send, checke. destruct (EthMarshal f) as [raw|e|] eqn:Em.
  - apply WritePacketData_wrote.
  - exists w, (Some e). split; [done|apply wrote_refl].
  - by destruct (EthMarshal_safe f).
Qed.

Lemma framed_wrote (m : AARPMachine -> HWAddr) pkt g w :
  exists w' err,
    (a ← getw machine; checke (AARP (m a) (pkt a)) (fun f => send (g f))) w = Some (w', err) /\ wrote w w'.
Proof.
  erewrite (e_bind (getw machine)) by done. unfold checke at 1.
  destruct (AARP _ _) as [f|e|] eqn:Ea; [apply send_wrote| |by destruct (AARP_safe _ _ Ea)].
  exists w, (Some e). split; [done|apply wrote_refl].
Qed.

Lemma heyThatsMe_wrote targ w : exists w' err, heyThatsMe targ w = Some (w', err) /\ wrote w w'.
Proof. apply (framed_wrote (fun a => Hardware (myAddr a)) (fun a => Response (myAddr a) targ)). Qed.
Lemma probe_wrote w : exists w' err, probe w = Some (w', err) /\ wrote w w'.
Proof. apply (framed_wrote (fun a => Hardware (myAddr a)) _ (fun f => f)). Qed.
Lemma request_wrote addr w : exists w' err, request addr w = Some (w', err) /\ wrote w w'.
Proof. apply (framed_wrote (fun a => Hardware (myAddr a)) _ (fun f => f)). Qed.

Lemma chans_wrote w w' : wrote w w' -> chans_ok w -> chans_ok w'.
Proof. intros (l & rest & -> & _) []. by split. Qed.

(** A new draw: a network of the range and another node number. *)
Definition rolled (a a' : AARPMachine) : Prop :=
  exists n d, a' = with_addr (MkAddr n d) 0 a /\ rangeStart a <= n <= rangeEnd a /\
              1 <= d <= 253 /\ d <> a_Node (PairProto (myAddr a)).

Definition valid_range (s e : Z) : Prop := 1 <= s <= e /\ e <= 65535.

(** The [uint16] width of a range is not zero. *)
Lemma range_width s e : valid_range s e -> wrap16 (wrap16 (e - s) + 1) = e - s + 1.
Proof. intros [H1 H2]. unfold wrap16. by rewrite !Z.mod_small by (rewrite ?Z.mod_small by lia; lia). Qed.

(** What holds of the address at all times. *)
Record address_ok (a : AARPMachine) : Prop := {
  ao_range : valid_range (rangeStart a) (rangeEnd a);
  ao_network : rangeStart a <= a_Network (PairProto (myAddr a)) <= rangeEnd a;
  ao_node : 1 <= a_Node (PairProto (myAddr a)) <= 253;
  ao_pending : match rangeCh a with Some (s, e) => valid_range s e | None => True end;
  ao_probed : assigned a = true -> probes a = 10;
  ao_probes : 0 <= probes a <= 10;
  ao_ticking : assigned a = negb (ticker a);
  ao_operational : operational a = assigned a && negb (isPhase2StartupRange (rangeStart a) (rangeEnd a)) }.

(** Two of the draws to come, after the first one, give different nodes. *)
Definition lucky (ds : list Z) : Prop := forall node, Exists (fun d => d mod 253 + 1 <> node) (tail ds).

Lemma new_node_some fuel node w w' d :
  new_node fuel node w = Some (w', d) -> (exists ds, w' = with_draws ds w) /\ 1 <= d <= 253 /\ d <> node.
Proof.
  revert w. induction fuel as [|fuel IH]; intros w; cbn [new_node]; [done|].
  unfold mbind, E_bind, draw. change (0xfd <=? 0) with false. cbv iota.
  destruct (draws w) as [|x ds]; [done|]. pose proof (Z.mod_pos_bound x 253).
  destruct (Z.eqb_spec (x mod 253 + 1) node) as [_|Hn].
  - intros H'. destruct (IH _ H') as ((ds' & ->) & Hd). split; [|done]. exists ds'. by destruct w.
  - intros [= <- <-]. split; [by exists ds|lia].
Qed.

Lemma new_node_none node w :
  new_node (length (draws w)) node w = None -> Forall (fun d => d mod 253 + 1 = node) (draws w).
Proof.
  remember (draws w) as ds eqn:Hw. revert w Hw.
  induction ds as [|x ds IH]; intros w Hw; [constructor|]. cbn [length new_node].
  unfold mbind, E_bind, draw at 1. change (0xfd <=? 0) with false. cbv iota. rewrite <- Hw.
  destruct (Z.eqb_spec (x mod 253 + 1) node) as [E|Hn]; [|done].
  intros H'. constructor; [done|]. by apply (IH (with_draws ds w)).
Qed.

Lemma new_network_some w w' n :
  address_ok (machine w) -> new_network w = Some (w', n) ->
  rangeStart (machine w) <= n <= rangeEnd (machine w) /\
  exists ds, w' = with_draws ds w /\ (ds = draws w \/ ds = tail (draws w)).
Proof.
  intros A. pose proof (ao_range _ A) as [Hr1 Hr2]. pose proof (ao_network _ A) as Hnet.
  unfold new_network. rewrite (e_bind (getw machine) _ w w (machine w)) by done.
  destruct (Z.eqb_spec (rangeStart (machine w)) (rangeEnd (machine w))) as [Er|Er]; cbn [negb].
  - intros [= <- <-]. split; [done|]. exists (draws w). split; [by destruct w|by left].
  - rewrite range_width by done. unfold mbind, E_bind, draw. zdec. destruct (draws w) as [|x ds]; [done|].
    set (m := rangeEnd (machine w) - rangeStart (machine w) + 1).
    assert (0 <= x mod m < m) by (apply Z.mod_pos_bound; subst m; lia).
    intros [= <- <-]. unfold wrap16. rewrite Z.mod_small by (subst m; lia).
    split; [subst m; lia|]. exists ds. split; [done|by right].
Qed.

Lemma new_network_runs w :
  address_ok (machine w) -> draws w <> [] -> exists w' n, new_network w = Some (w', n).
Proof.
  intros A Hd. pose proof (ao_range _ A) as [Hr1 Hr2].
  unfold new_network. rewrite (e_bind (getw machine) _ w w (machine w)) by done.
  destruct (Z.eqb_spec (rangeStart (machine w)) (rangeEnd (machine w))) as [Er|Er]; cbn [negb];
    [by eexists _, _|].
  rewrite range_width by done. unfold mbind, E_bind, draw. zdec. destruct (draws w); [done|]. by eexists _, _.
Qed.

(** A new address is drawn from the range, unless the draws run out. *)
Lemma reroll_some w w' :
  address_ok (machine w) -> reroll w = Some (w', tt) ->
  exists a' ds, w' = with_draws ds (with_machine a' w) /\ rolled (machine w) a'.
Proof.
  intros A. unfold reroll. unfold mbind at 1, E_bind at 1.
  destruct (new_network w) as [[w1 n]|] eqn:Hn; [|done].
  apply new_network_some in Hn as (Hr & ds & -> & _); [|done].
  rewrite (e_bind (getw machine) _ _ (with_draws ds w) (machine w)) by done.
  rewrite (e_bind (getw draws) _ _ (with_draws ds w) ds) by done.
  unfold mbind at 1, E_bind at 1. destruct (new_node _ _ _) as [[w1 d]|] eqn:En; [|done].
  apply new_node_some in En as ((ds' & ->) & Hd & Hdn). intros [= <-].
  exists (with_addr (MkAddr n d) 0 (machine w)), ds'. split; [by destruct w|].
  eexists _, _. split; [reflexivity|done].
Qed.

Lemma reroll_runs w :
  address_ok (machine w) -> lucky (draws w) -> exists w', reroll w = Some (w', tt).
Proof.
  intros A L. specialize (L (a_Node (PairProto (myAddr (machine w))))).
  destruct (draws w) as [|x ds] eqn:Ed; [by apply Exists_nil in L|]. cbn [tail] in L.
  destruct (new_network_runs w A) as (w1 & n & Hn); [by rewrite Ed|].
  unfold reroll. rewrite (e_bind _ _ _ _ _ Hn).
  apply new_network_some in Hn as (_ & ds' & -> & Hds); [|done]. rewrite Ed in Hds.
  rewrite (e_bind (getw machine) _ _ (with_draws ds' w) (machine w)) by done.
  rewrite (e_bind (getw draws) _ _ (with_draws ds' w) ds') by done.
  unfold mbind at 1, E_bind at 1. destruct (new_node _ _ _) as [[w1 d]|] eqn:En; [by eexists|].
  apply (new_node_none _ (with_draws ds' w)) in En. cbn [draws with_draws] in En. exfalso.
  apply Exists_exists in L as (d & Hd & Hne). rewrite Forall_forall in En. apply Hne, En.
  destruct Hds as [->| ->]; [by right|done].
Qed.

(** A frame that takes a tentative address away. *)
Definition contests (payload : list Z) (a : Addr) : bool :=
  match Unmarshal (trim_body payload) with
  | Ok pk => ((Opcode pk =? ResponseOp) || (Opcode pk =? ProbeOp)) && bool_decide (PairProto (Dst pk) = a)
  | _ => false
  end.

(** The world once the sender or the target of a frame was learnt. *)
Definition gleaned (w w1 : EW) : Prop := w1 = w \/ exists a hw, w1 = learnt a hw w.

Lemma gleaned_machine w w1 : gleaned w w1 -> machine w1 = machine w /\ draws w1 = draws w /\
  written w1 = written w /\ writes w1 = writes w /\ outboxes w1 = outboxes w.
Proof. by intros [->|(a & hw & ->)]. Qed.

Lemma gleaned_chans w w1 : gleaned w w1 -> chans_ok w -> chans_ok w1.
Proof. intros [->|(a & hw & ->)]; [done|apply chans_learnt]. Qed.

Lemma ops_apart : RequestOp <> ResponseOp /\ RequestOp <> ProbeOp /\ ResponseOp <> ProbeOp.
Proof.
  pose proof ops_distinct as H. rewrite !NoDup_cons, !not_elem_of_cons in H. naive_solver.
Qed.

(** Every frame: some gleaning, then a new address, or an answer, or nothing. *)
Lemma on_frame_spec payload w :
  chans_ok w -> let mine := PairProto (myAddr (machine w)) in
  exists w1, gleaned w w1 /\
    (contests payload mine && negb (assigned (machine w)) = true /\ on_frame payload w = reroll w1 \/
     contests payload mine && negb (assigned (machine w)) = false /\
     exists w', on_frame payload w = Some (w', tt) /\ wrote w1 w').
Proof.
  intros C mine. unfold on_frame, contests.
  destruct (Unmarshal (trim_body payload)) as [pk|e|] eqn:Eu; cbv iota;
    [|exists w; split; [by left|right]; split; [done|]; exists w; split; [done|apply wrote_refl]
     |by destruct (Unmarshal_safe _ Eu)].
  destruct ops_apart as (N1 & N2 & N3).
  assert (Hanswer : forall w1 targ,
    exists w', (_ ← heyThatsMe targ; mret tt) w1 = Some (w', tt) /\ wrote w1 w').
  { intros w1 targ. destruct (heyThatsMe_wrote targ w1) as (w' & err & E1 & Hw').
    exists w'. by rewrite (e_bind _ _ _ _ _ E1). }
  destruct (Z.eqb_spec (Opcode pk) RequestOp) as [Eo|Eo]; [|destruct (Z.eqb_spec (Opcode pk) ResponseOp) as [Ep|Ep]].
  - rewrite (e_bind _ _ _ _ _ (learn_runs _ _ w C)). set (w1 := learnt _ _ _).
    rewrite (e_bind (getw machine) _ w1 w1 (machine w)) by done.
    exists w1. split; [right; by eexists _, _|]. right.
    rewrite Eo, (proj2 (Z.eqb_neq _ _) N1), (proj2 (Z.eqb_neq _ _) N2). cbn [orb andb]. split; [done|].
    destruct (negb (bool_decide _)); [exists w1; split; [done|apply wrote_refl]|].
    destruct (negb (assigned _)); [exists w1; split; [done|apply wrote_refl]|].
    apply Hanswer.
  - rewrite (e_bind _ _ _ _ _ (learn_runs _ _ w C)). set (w1 := learnt _ _ _).
    rewrite (e_bind (getw machine) _ w1 w1 (machine w)) by done.
    exists w1. split; [right; by eexists _, _|]. cbn [orb andb]. fold mine.
    destruct (bool_decide (PairProto (Dst pk) = mine)); cbn [negb andb];
      [destruct (assigned (machine w)); cbn [negb]; [right|by left]|right];
      (split; [done|]; exists w1; split; [done|apply wrote_refl]).
  - exists w. split; [by left|]. cbn [orb].
    destruct (Z.eqb_spec (Opcode pk) ProbeOp); cbn [andb].
    2: { right. split; [done|]. exists w. split; [done|apply wrote_refl]. }
    rewrite (e_bind (getw machine) _ w w (machine w)) by done. fold mine.
    destruct (bool_decide (PairProto (Dst pk) = mine)); cbn [negb andb].
    2: { right. split; [done|]. exists w. split; [done|apply wrote_refl]. }
    destruct (assigned (machine w)); cbn [negb]; [right|by left]. split; [done|].
    apply Hanswer.
Qed.

(** ** Ticks *)

Lemma on_tick_probes w :
  probes (machine w) < 10 ->
  exists w', on_tick w = Some (w', tt) /\
    wrote (with_machine (with_addr (PairProto (myAddr (machine w))) (probes (machine w) + 1) (machine w)) w) w'.
Proof.
  intros H. unfold on_tick. rewrite (e_bind (getw machine) _ w w (machine w)) by done. zdec.
  set (w1 := with_machine _ _). rewrite (e_bind (modm _) _ w w1 tt) by done.
  destruct (probe_wrote w1) as (w' & err & E1 & Hw'). exists w'. by rewrite (e_bind _ _ _ _ _ E1).
Qed.

Lemma chans_signals w m cl :
  chans_ok w -> (forall c, c ∈ cl -> c ∈ closed w \/ c = 0 \/ c = 1) ->
  assignedCh m = 0 -> operationalCh m = 1 -> (assignedSignaled m = false -> 0 ∉ cl) ->
  (operationalSignaled m = false -> 1 ∉ cl) ->
  chans_ok (with_machine m (with_chans (next_chan w) cl w)).
Proof.
  intros [H1 H2 H3 H4 H5 H6] Hcl E0 E1 Ha Ho. split; cbn; try done.
  - intros c Hc. destruct (Hcl c Hc) as [Hc'|[->| ->]]; [by apply H2|lia|lia].
  - intros a e He. destruct (H3 a e He) as [Hr Hn]. split; [done|]. intros Hc.
    destruct (Hcl _ Hc) as [|[E|E]]; [done|lia|lia].
Qed.

(** The machine once its address is its own. *)
Definition owning (a : AARPMachine) : AARPMachine :=
  let startup := isPhase2StartupRange (rangeStart a) (rangeEnd a) in
  with_signaled true (operationalSignaled a || negb startup) (with_phase true (negb startup) false a).

Lemma on_tick_owns w :
  chans_ok w -> 10 <= probes (machine w) -> operational (machine w) = false ->
  exists cl, let w' := with_machine (owning (machine w)) (with_chans (next_chan w) cl w) in
    on_tick w = Some (w', tt) /\ chans_ok w' /\ closed w ⊆ cl.
Proof.
  intros C Hp Hop. pose proof (co_assigned _ C) as [E0 H0]. pose proof (co_operational _ C) as [E1 H1].
  destruct w as [a t nx cl0 obs ch n ds wr ws]. destruct a as [my p asg rs re rc sa ca op so co tk].
  cbn in Hp, Hop, E0, H0, E1, H1. subst.
  exists ((if negb (isPhase2StartupRange rs re) && negb so then {[1]} else ∅) ∪
          ((if sa then ∅ else {[0]}) ∪ cl0)).
  intros w'. split.
  - unfold on_tick, mbind, E_bind, getw, modm, modw, mret, E_ret, close_chan. cbn [machine probes]. zdec.
    subst w'. unfold owning. cbn -[isPhase2StartupRange].
    destruct sa, (isPhase2StartupRange rs re), so; cbn; rewrite ?(left_id_L ∅ (∪));
      repeat (rewrite bool_decide_false by set_solver; cbn); reflexivity.
  - split; [|cbn; set_solver]. apply (chans_signals _ _ _ C); try done; cbn.
    + intros c. destruct (_ && _), sa; set_solver.
    + destruct (isPhase2StartupRange rs re), so; cbn; try done. intros _.
      rewrite (left_id_L ∅ (∪)). destruct sa; set_solver.
Qed.

(** ** The invariant *)

Record inv (w : EW) : Prop := { inv_chans : chans_ok w; inv_addr : address_ok (machine w) }.

(** The arguments of [Rebind] are 16-bit numbers. *)
Definition event_ok (e : Event) : Prop :=
  match e with ERebind start end_ => u16 start /\ u16 end_ | _ => True end.

Lemma inv_wrote w w' : wrote w w' -> inv w -> inv w'.
Proof. intros H [C A]. split; [by eapply chans_wrote|]. by destruct H as (l & r & -> & _). Qed.

Lemma inv_gleaned w w1 : gleaned w w1 -> inv w -> inv w1.
Proof.
  intros H [C A]. split; [by eapply gleaned_chans|]. by destruct (gleaned_machine _ _ H) as [-> _].
Qed.

Lemma rolled_ok a a' : assigned a = false -> rolled a a' -> address_ok a -> address_ok a'.
Proof.
  intros Ha (n & d & -> & Hn & Hd & _) []. split; cbn; first [done|congruence|lia].
Qed.

Lemma rolled_chans w a' ds :
  rolled (machine w) a' -> chans_ok w -> chans_ok (with_draws ds (with_machine a' w)).
Proof. intros (n & d & -> & _) C. apply (chans_machine w (with_addr (MkAddr n d) 0 (machine w))) in C; [|done]. by destruct C. Qed.

Lemma owning_ok a : address_ok a -> 10 <= probes a -> address_ok (owning a).
Proof. intros [] Hp. split; cbn; first [done|lia]. Qed.

Lemma rebind_ok start end_ a : u16 start -> u16 end_ -> address_ok a -> address_ok (Rebind start end_ a).
Proof.
  intros Hs He A. unfold Rebind. case_if; [done|]. destruct (rangeCh a) eqn:Er; [done|].
  destruct A. zbool. unfold u16 in *. split; cbn; first [done|split; lia].
Qed.

Lemma on_range_runs start end_ w :
  valid_range start end_ -> inv w ->
  exists a', on_range start end_ w = Some (with_machine a' w, tt) /\ inv (with_machine a' w) /\
    (a' = with_rangeCh None (machine w) \/ assigned a' = false /\ probes a' = 0) /\
    Hardware (myAddr a') = Hardware (myAddr (machine w)).
Proof.
  intros Hv [C A]. unfold on_range.
  rewrite (e_bind (modm _) _ w (with_machine (with_rangeCh None (machine w)) w) tt) by done.
  erewrite (e_bind (getw machine)) by done. cbn [machine with_machine].
  case_if; eexists; (split; [reflexivity|]); (split; [split; [by apply chans_machine|]|split; [|done]]).
  - destruct A. by split.
  - by left.
  - destruct A. destruct Hv. split; cbn; first [done|lia].
  - by right.
Qed.

Lemma on_tick_inv w :
  inv w -> ticker (machine w) = true ->
  exists w', on_tick w = Some (w', tt) /\ inv w' /\
    (probes (machine w) < 10 /\
       wrote (with_machine (with_addr (PairProto (myAddr (machine w))) (probes (machine w) + 1) (machine w)) w) w'
     \/ probes (machine w) = 10 /\ machine w' = owning (machine w) /\
        written w' = written w /\ writes w' = writes w /\ draws w' = draws w).
Proof.
  intros [C A] Ht. pose proof (ao_probes _ A) as Hp. pose proof (ao_ticking _ A) as Ha.
  rewrite Ht in Ha. cbn in Ha.
  destruct (Z.lt_ge_cases (probes (machine w)) 10) as [Hlt|Hge].
  - destruct (on_tick_probes w Hlt) as (w' & E1 & Hw). exists w'. split; [done|]. split; [|by left].
    eapply inv_wrote; [exact Hw|]. split; [by apply chans_machine|].
    destruct A. split; cbn; first [done|congruence|lia].
  - destruct (on_tick_owns w C Hge) as (cl & E1 & C' & _).
    { pose proof (ao_operational _ A) as Ho. by rewrite Ha in Ho. }
    eexists. split; [exact E1|]. split; [split; [done|by apply owning_ok]|].
    right. split; [lia|done].
Qed.

Lemma on_frame_inv payload w w' : inv w -> on_frame payload w = Some (w', tt) -> inv w'.
Proof.
  intros [C A]. destruct (on_frame_spec payload w C) as (w1 & G & [[Hc ->]|(_ & w2 & -> & Hw)]).
  - apply andb_prop in Hc as [_ Ha]. destruct (gleaned_machine _ _ G) as (Em & _).
    intros (a' & ds & -> & Hr)%reroll_some; [|by rewrite Em]. split.
    + apply rolled_chans; [done|by eapply gleaned_chans].
    + apply (rolled_ok (machine w1)); rewrite ?Em in *; [|done|done]. by destruct (assigned _).
  - intros [= <-]. eapply inv_wrote; [done|]. eapply inv_gleaned; [done|by split].
Qed.

Lemma turn_inv e w w' : event_ok e -> inv w -> turn e w = Some (w', tt) -> inv w'.
Proof.
  intros He I. unfold turn. rewrite (e_bind (getw machine) _ w w (machine w)) by done.
  destruct e as [| |payload|start end_|addr hw|now].
  - destruct (ticker (machine w)) eqn:Et; [|by intros [= <-]].
    destruct (on_tick_inv w I Et) as (w1 & -> & I1 & _). by intros [= <-].
  - destruct (rangeCh (machine w)) as [[s e]|] eqn:Er; [|by intros [= <-]].
    pose proof (ao_pending _ (inv_addr _ I)) as Hv. rewrite Er in Hv.
    destruct (on_range_runs s e w Hv I) as (a' & -> & I1 & _). by intros [= <-].
  - by apply on_frame_inv.
  - intros [= <-]. destruct I as [C A]. destruct He. split; [|by apply rebind_ok].
    apply chans_machine; [|done]. unfold Rebind. case_if; [done|]. by destruct (rangeCh (machine w)).
  - rewrite learn_runs by apply I. intros [= <-]. destruct I. split; [by apply chans_learnt|done].
  - intros [= <-]. destruct I as [[] A]. by split.
Qed.

Lemma turn_runs e w : inv w -> lucky (draws w) -> exists w', turn e w = Some (w', tt).
Proof.
  intros I L. unfold turn. rewrite (e_bind (getw machine) _ w w (machine w)) by done.
  destruct e as [| |payload|start end_|addr hw|now]; try by eexists.
  - destruct (ticker (machine w)) eqn:Et; [|by eexists].
    destruct (on_tick_inv w I Et) as (w1 & -> & _). by eexists.
  - destruct (rangeCh (machine w)) as [[s e]|] eqn:Er; [|by eexists].
    pose proof (ao_pending _ (inv_addr _ I)) as Hv. rewrite Er in Hv.
    destruct (on_range_runs s e w Hv I) as (a' & -> & _). by eexists.
  - destruct (on_frame_spec payload w (inv_chans _ I)) as (w1 & G & [[_ ->]|(_ & w2 & -> & _)]); [|by eexists].
    destruct (gleaned_machine _ _ G) as (Em & Ed & _). apply reroll_runs; [rewrite Em; apply I|by rewrite Ed].
  - rewrite learn_runs by apply I. by eexists.
Qed.

(** ** Probing *)

(** The bytes of a probe for an address. *)
Definition probe_raw (hw : HWAddr) (a : Addr) : option (list Z) :=
  match AARP hw (Probe hw a) with
  | Ok f => match EthMarshal f with Ok raw => Some (pad_frame raw) | _ => None end
  | _ => None
  end.

Lemma frame_dst f : with_FrameDst (FrameDst f) f = f.
Proof. by destruct f. Qed.

Lemma probe_raw_some hw a : hw_ok hw -> addr_ok a -> is_Some (probe_raw hw a).
Proof.
  intros Hh Ha. destruct (Probe_fields hw a) as (_ & E1 & E2 & E3). unfold probe_raw.
  destruct (AARP_returns hw (Probe hw a)) as [f Ef]; [by rewrite E1| |done|].
  { split; [done|by rewrite E2]. }
  rewrite Ef. destruct (AARP_frame _ _ _ Ef) as (_ & _ & _ & Hd & _).
  destruct (AARP_marshal _ _ _ _ Ef Hd) as [raw Er]. rewrite frame_dst in Er. rewrite Er. by eexists.
Qed.

Lemma address_typed a : address_ok a -> addr_ok (PairProto (myAddr a)).
Proof. intros []. destruct ao_range0. split; unfold u16, u8; lia. Qed.

Lemma probe_sends w raw :
  writes w = [] -> probe_raw (Hardware (myAddr (machine w))) (PairProto (myAddr (machine w))) = Some raw ->
  probe w = Some (with_written (written w ++ [raw]) [] w, None).
Proof.
  intros Hw. unfold probe_raw, probe, send, checke, WritePacketData.
  rewrite (e_bind (getw machine) _ w w (machine w)) by done.
  destruct (AARP _ _) as [f| |]; [|done..]. destruct (EthMarshal f); [|done..]. intros [= <-]. by rewrite Hw.
Qed.

(** How often a frame was written. *)
Definition times (raw : list Z) (l : list (list Z)) : Z := zlen (filter (fun r => r = raw) l).

Lemma times_app raw l l' : times raw (l ++ l') = times raw l + times raw l'.
Proof. unfold times. by rewrite filter_app, zlen_app. Qed.
Lemma times_nonneg raw l : 0 <= times raw l.
Proof. apply zlen_nonneg. Qed.
Lemma times_one raw : times raw [raw] = 1.
Proof. unfold times. by rewrite filter_cons_True. Qed.

(** Every probe that was counted has been written. *)
Definition probes_written (w : EW) : Prop :=
  writes w = [] /\ hw_ok (Hardware (myAddr (machine w))) /\
  forall raw, probe_raw (Hardware (myAddr (machine w))) (PairProto (myAddr (machine w))) = Some raw ->
    probes (machine w) <= times raw (written w).

Lemma probes_written_mono w w' :
  probes_written w -> writes w' = [] -> (exists l, written w' = written w ++ l) ->
  Hardware (myAddr (machine w')) = Hardware (myAddr (machine w)) ->
  (probes (machine w') = 0 \/
   PairProto (myAddr (machine w')) = PairProto (myAddr (machine w)) /\
   probes (machine w') = probes (machine w)) -> probes_written w'.
Proof.
  intros (Hw & Hh & Hp) Hw' [l El] Eh Hcase. split; [done|]. rewrite Eh. split; [done|].
  intros raw Er. rewrite El, times_app. pose proof (times_nonneg raw (written w)).
  pose proof (times_nonneg raw l). destruct Hcase as [->|[Ea ->]]; [lia|].
  rewrite Ea in Er. specialize (Hp raw Er). lia.
Qed.

Lemma probes_written_wrote w w' : wrote w w' -> probes_written w -> probes_written w'.
Proof.
  intros (l & rest & -> & Hr) P. pose proof P as (Hw & _).
  apply (probes_written_mono w); [done|by apply Hr|by exists l|done|by right].
Qed.

Lemma probes_written_gleaned w w1 : gleaned w w1 -> probes_written w -> probes_written w1.
Proof. by intros [->|(a & hw & ->)]. Qed.

Lemma turn_probes_written e w w' :
  event_ok e -> inv w -> turn e w = Some (w', tt) -> probes_written w -> probes_written w'.
Proof.
  intros He I H P. revert H. unfold turn. rewrite (e_bind (getw machine) _ w w (machine w)) by done.
  destruct e as [| |payload|start end_|addr hw|now].
  - destruct (ticker (machine w)) eqn:Et; [|by intros [= <-]].
    destruct (on_tick_inv w I Et) as (w1 & E1 & _ & Hcase). rewrite E1. intros [= <-].
    destruct Hcase as [[Hlt _]|(Hp & Em & Ew & Es & _)].
    + pose proof P as (Hw & Hh & Hc).
      destruct (probe_raw_some _ _ Hh (address_typed _ (inv_addr _ I))) as [raw Er].
      revert E1. unfold on_tick. rewrite (e_bind (getw machine) _ w w (machine w)) by done. zdec.
      set (w2 := with_machine (with_addr (PairProto (myAddr (machine w))) (probes (machine w) + 1) (machine w)) w).
      rewrite (e_bind (modm _) _ w w2 tt) by done.
      rewrite (e_bind _ _ _ _ _ (probe_sends w2 raw Hw Er)). intros [= <-]. split; [done|]. split; [done|].
      intros raw' Er'. cbn in Er'. assert (raw' = raw) as -> by congruence.
      cbn. rewrite times_app, times_one. specialize (Hc raw Er). lia.
    + apply (probes_written_mono w); [done| | | |].
      * rewrite Es. apply P.
      * exists []. by rewrite Ew, app_nil_r.
      * by rewrite Em.
      * right. by rewrite Em.
  - destruct (rangeCh (machine w)) as [[s e]|] eqn:Er; [|by intros [= <-]].
    pose proof (ao_pending _ (inv_addr _ I)) as Hv. rewrite Er in Hv.
    destruct (on_range_runs s e w Hv I) as (a' & -> & _ & Ha & Eh). intros [= <-].
    apply (probes_written_mono w); [done|apply P|by exists []; rewrite app_nil_r|done|].
    destruct Ha as [->|[_ Hp]]; [by right|by left].
  - destruct (on_frame_spec payload w (inv_chans _ I)) as (w1 & G & Hcase).
    pose proof (probes_written_gleaned _ _ G P) as P1. destruct (gleaned_machine _ _ G) as (Em & _).
    destruct Hcase as [[_ ->]|(_ & w2 & -> & Hw)].
    + intros (a' & ds & -> & n & d & -> & _)%reroll_some; [|rewrite Em; apply I].
      apply (probes_written_mono w1); [done|apply P1|by exists []; rewrite app_nil_r|done|by left].
    + intros [= <-]. by eapply probes_written_wrote.
  - intros [= <-]. apply (probes_written_mono w); [done|apply P|by exists []; rewrite app_nil_r| |];
      unfold Rebind; (case_if; [|destruct (rangeCh (machine w))]); first [done|by right].
  - rewrite learn_runs by apply I. by intros [= <-].
  - by intros [= <-].
Qed.

Lemma run_invariant es w w' :
  Forall event_ok es -> inv w -> probes_written w -> run es w = Some (w', tt) -> inv w' /\ probes_written w'.
Proof.
  intros H. revert w. induction H as [|e es He _ IH]; intros w I P; cbn [run]; [by intros [= <-]|].
  unfold mbind, E_bind. destruct (turn e w) as [[w1 []]|] eqn:E1; [|done].
  apply IH; [by eapply turn_inv|by eapply turn_probes_written].
Qed.

(** The world in which [Run] of a new port starts its loop. *)
Definition started (hw : HWAddr) (start end_ now : Z) (rand : list Z) : EW :=
  let w := new_world hw now rand in with_machine (start_run start end_ (machine w)) w.

Lemma started_inv hw start end_ now rand :
  hw_ok hw -> valid_range start end_ ->
  inv (started hw start end_ now rand) /\ probes_written (started hw start end_ now rand).
Proof.
  intros Hh [H1 H2]. split; [split; split; cbn; try done; try lia; by intros []|].
  split; [done|split; [done|]]. intros raw _. apply times_nonneg.
Qed.

(** The hardware address never changes. *)
Lemma turn_hardware e w w' :
  inv w -> turn e w = Some (w', tt) ->
  Hardware (myAddr (machine w')) = Hardware (myAddr (machine w)).
Proof.
  intros I. unfold turn. rewrite (e_bind (getw machine) _ w w (machine w)) by done.
  destruct e as [| |payload|start end_|addr hw|now].
  - destruct (ticker (machine w)) eqn:Et; [|by intros [= <-]].
    destruct (on_tick_inv w I Et) as (w1 & -> & _ & [[_ (l & r & -> & _)]|(_ & Em & _)]);
      intros [= <-]; [done|by rewrite Em].
  - destruct (rangeCh (machine w)) as [[s e]|] eqn:Er; [|by intros [= <-]].
    pose proof (ao_pending _ (inv_addr _ I)) as Hv. rewrite Er in Hv.
    destruct (on_range_runs s e w Hv I) as (a' & -> & _ & _ & Eh). by intros [= <-].
  - destruct (on_frame_spec payload w (inv_chans _ I)) as (w1 & G & Hcase).
    destruct (gleaned_machine _ _ G) as (Em & _). rewrite <- Em.
    destruct Hcase as [[_ ->]|(_ & w2 & -> & l & r & -> & _)]; [|by intros [= <-]].
    intros (a' & ds & -> & n & d & -> & _)%reroll_some; [done|rewrite Em; apply I].
  - intros [= <-]. cbn. unfold Rebind. case_if; [done|]. by destruct (rangeCh (machine w)).
  - rewrite learn_runs by apply I. by intros [= <-].
  - by intros [= <-].
Qed.

Lemma run_hardware es w w' :
  Forall event_ok es -> inv w -> run es w = Some (w', tt) ->
  Hardware (myAddr (machine w')) = Hardware (myAddr (machine w)).
Proof.
  intros H. revert w. induction H as [|e es He _ IH]; intros w I; cbn [run]; [by intros [= <-]|].
  unfold mbind, E_bind. destruct (turn e w) as [[w1 []]|] eqn:E1; [|done].
  intros H1. rewrite (IH w1); [by apply (turn_hardware e)|by eapply turn_inv|done].
Qed.

(** An AARP machine only uses an address it may use.  Whatever frames,
    ticks, range changes and learnt addresses a port sees, its address is a node
    from 1 to 253 of a network of its cable range; when it calls the address
    assigned, at least ten probes for exactly that address were written to the
    cable; and it is operational exactly when the assigned address is in a range
    that is not the start-up range. *)
Theorem aarp_address_owned (hw : HWAddr) (start end_ now : Z) (rand : list Z) (es : list Event)
    (w : EW) (raw : list Z) :
  hw_ok hw -> valid_range start end_ -> Forall event_ok es ->
  run es (started hw start end_ now rand) = Some (w, tt) ->
  let a := machine w in
  rangeStart a <= a_Network (PairProto (myAddr a)) <= rangeEnd a /\
  1 <= a_Node (PairProto (myAddr a)) <= 253 /\
  (Address a = (myAddr a, true) -> probe_raw hw (PairProto (myAddr a)) = Some raw ->
   10 <= times raw (written w)) /\
  (OperationalRange a).2 = assigned a && negb (isPhase2StartupRange (rangeStart a) (rangeEnd a)).
Proof.
  intros Hh Hv He H a. destruct (started_inv hw start end_ now rand Hh Hv) as [I0 P0].
  destruct (run_invariant es _ w He I0 P0 H) as [[_ A] (_ & _ & Hp)].
  split; [apply A|]. split; [apply A|]. split.
  2: { unfold OperationalRange. subst a. cbn [snd]. rewrite (ao_operational _ A). by destruct (assigned _), (negb _). }
  intros [= Ha] Er. rewrite <- (ao_probed _ A Ha). apply Hp. by rewrite (run_hardware _ _ _ He I0 H).
Qed.

(** ** Without contest the address is acquired *)

(** Nothing that takes the tentative address away, no change of the range. *)
Definition undisturbed (a : Addr) (e : Event) : Prop :=
  match e with
  | EFrame payload => contests payload a = false
  | ERange | ERebind _ _ => False
  | _ => True
  end.

Definition is_tick (e : Event) : bool := match e with ETick => true | _ => false end.
Definition ticks (es : list Event) : Z := zlen (List.filter is_tick es).

(** What an undisturbed machine keeps: its address and range. *)
Definition steady (a a' : AARPMachine) : Prop :=
  myAddr a' = myAddr a /\ rangeStart a' = rangeStart a /\ rangeEnd a' = rangeEnd a.

(** The ticks an address still needs. *)
Definition ticks_left (a : AARPMachine) : Z := if assigned a then 0 else 11 - probes a.

Lemma undisturbed_turn e w :
  undisturbed (PairProto (myAddr (machine w))) e -> inv w ->
  exists w', turn e w = Some (w', tt) /\ inv w' /\ steady (machine w) (machine w') /\
    ticks_left (machine w') <= Z.max 0 (ticks_left (machine w) - ticks [e]).
Proof.
  intros He I. unfold turn. rewrite (e_bind (getw machine) _ w w (machine w)) by done.
  pose proof (inv_addr _ I) as A. pose proof (ao_ticking _ A) as Ht. pose proof (ao_probes _ A) as Hp.
  destruct e as [| |payload|start end_|addr hw|now]; try done.
  - destruct (ticker (machine w)) eqn:Et; cbn in Ht.
    + destruct (on_tick_inv w I Et) as (w' & E1 & I' & Hcase). exists w'. split; [done|]. split; [done|].
      unfold ticks_left at 2. rewrite Ht. change (ticks [ETick]) with 1.
      destruct Hcase as [[Hlt (l & r & -> & _)]|(Hp' & -> & _)].
      * split; [by destruct (myAddr (machine w)) eqn:Ea; repeat split; cbn; rewrite ?Ea|].
        unfold ticks_left. cbn. rewrite Ht. lia.
      * split; [done|]. unfold ticks_left. cbn. lia.
    + exists w. split; [done|]. split; [done|]. split; [done|]. unfold ticks_left. rewrite Ht. lia.
  - destruct (on_frame_spec payload w (inv_chans _ I)) as (w1 & G & [[Hc _]|(_ & w2 & E2 & Hw)]).
    { cbn in He. by rewrite He in Hc. }
    exists w2. split; [done|]. destruct (gleaned_machine _ _ G) as (Em & _).
    pose proof (inv_wrote _ _ Hw (inv_gleaned _ _ G I)). destruct Hw as (l & r & -> & _). cbn [machine with_written].
    rewrite Em. split; [done|]. split; [done|]. change (ticks [EFrame payload]) with 0. lia.
  - rewrite learn_runs by apply I. eexists. split; [done|]. split; [|split; [done|change (ticks [ELearn addr hw]) with 0; cbn; lia]].
    destruct I. split; [by apply chans_learnt|done].
  - eexists. split; [done|]. split; [|split; [done|change (ticks [EClock now]) with 0; cbn; lia]]. destruct I as [[] ?]. by split.
Qed.

Lemma ticks_cons e es : ticks (e :: es) = ticks [e] + ticks es.
Proof. unfold ticks. cbn [List.filter]. destruct (is_tick e); cbn [length]; rewrite ?zlen_cons; unfold zlen; cbn; lia. Qed.

Lemma undisturbed_run es w :
  Forall (undisturbed (PairProto (myAddr (machine w)))) es -> inv w ->
  exists w', run es w = Some (w', tt) /\ inv w' /\ steady (machine w) (machine w') /\
    ticks_left (machine w') <= Z.max 0 (ticks_left (machine w) - ticks es).
Proof.
  revert w. induction es as [|e es IH]; intros w He I.
  - exists w. split; [done|]. split; [done|]. split; [done|]. change (ticks []) with 0. lia.
  - apply Forall_cons in He as [He Hes].
    destruct (undisturbed_turn e w He I) as (w1 & E1 & I1 & (S1 & S2 & S3) & H1).
    destruct (IH w1) as (w' & E' & I' & (S1' & S2' & S3') & H'); [by rewrite S1|done|].
    exists w'. cbn [run]. rewrite (e_bind _ _ _ _ _ E1). split; [done|]. split; [done|].
    split; [repeat split; congruence|]. rewrite (ticks_cons e es).
    assert (0 <= ticks es) by apply zlen_nonneg. assert (0 <= ticks [e]) by apply zlen_nonneg. lia.
Qed.

(** Eleven undisturbed ticks give the address. *)
Lemma acquired es w :
  Forall (undisturbed (PairProto (myAddr (machine w)))) es -> inv w -> 11 <= ticks es ->
  exists w', run es w = Some (w', tt) /\ inv w' /\
    Address (machine w') = (myAddr (machine w), true) /\
    OperationalRange (machine w') =
      (rangeStart (machine w), rangeEnd (machine w),
       negb (isPhase2StartupRange (rangeStart (machine w)) (rangeEnd (machine w)))).
Proof.
  intros Hu I Ht. destruct (undisturbed_run es w Hu I) as (w' & E' & I' & (S1 & S2 & S3) & Hl).
  exists w'. split; [done|]. split; [done|].
  pose proof (ao_probes _ (inv_addr _ I)). pose proof (ao_probes _ (inv_addr _ I')).
  assert (Ha : assigned (machine w') = true).
  { unfold ticks_left in Hl. destruct (assigned (machine w')); [done|]. destruct (assigned (machine w)); lia. }
  unfold Address, OperationalRange. rewrite (ao_operational _ (inv_addr _ I')), Ha, S1, S2, S3.
  by destruct (isPhase2StartupRange _ _).
Qed.

(** C29: an address that nobody contests is acquired.  From every state a
    machine can reach, eleven ticks (2.2 seconds) during which no response or
    probe names its address and no new range arrives, whatever else happens,
    give it that very address; it is operational then unless its range is the
    start-up range. *)
Theorem aarp_acquires (hw : HWAddr) (start end_ now : Z) (rand : list Z) (es es' : list Event) (w : EW) :
  hw_ok hw -> valid_range start end_ -> Forall event_ok es ->
  run es (started hw start end_ now rand) = Some (w, tt) ->
  Forall (undisturbed (PairProto (myAddr (machine w)))) es' -> 11 <= ticks es' ->
  exists w', run es' w = Some (w', tt) /\
    Address (machine w') = (myAddr (machine w), true) /\
    OperationalRange (machine w') =
      (rangeStart (machine w), rangeEnd (machine w),
       negb (isPhase2StartupRange (rangeStart (machine w)) (rangeEnd (machine w)))).
Proof.
  intros Hh Hv He H Hu Ht. destruct (started_inv hw start end_ now rand Hh Hv) as [I0 P0].
  destruct (run_invariant es _ w He I0 P0 H) as [I _].
  destruct (acquired es' w Hu I Ht) as (w' & E' & _ & A1 & A2). by exists w'.
Qed.

(** ** What a turn does to the table *)

(** At most one address is learnt; channels are only closed. *)
Definition evolves (w w' : EW) : Prop :=
  exists w1, gleaned w w1 /\ amt w' = amt w1 /\ next_chan w' = next_chan w1 /\
    closed w1 ⊆ closed w' /\ outboxes w' = outboxes w /\ changed w' = changed w.

Lemma evolves_same w w' :
  amt w' = amt w -> next_chan w' = next_chan w -> closed w ⊆ closed w' ->
  outboxes w' = outboxes w -> changed w' = changed w -> evolves w w'.
Proof. intros. exists w. split; [by left|done]. Qed.

Lemma turn_evolves e w w' : inv w -> turn e w = Some (w', tt) -> evolves w w'.
Proof.
  intros I. unfold turn. rewrite (e_bind (getw machine) _ w w (machine w)) by done.
  destruct e as [| |payload|start end_|addr hw|now].
  - destruct (ticker (machine w)) eqn:Et; [|by intros [= <-]; apply evolves_same].
    pose proof (ao_ticking _ (inv_addr _ I)) as Hat. rewrite Et in Hat. cbn in Hat.
    destruct (Z.lt_ge_cases (probes (machine w)) 10) as [Hlt|Hge].
    + destruct (on_tick_probes w Hlt) as (w1 & -> & l & r & -> & _). intros [= <-]. by apply evolves_same.
    + destruct (on_tick_owns w (inv_chans _ I) Hge) as (cl & -> & _ & Hcl).
      { rewrite (ao_operational _ (inv_addr _ I)). by rewrite Hat. }
      intros [= <-]. by apply evolves_same.
  - destruct (rangeCh (machine w)) as [[s e]|] eqn:Er; [|by intros [= <-]; apply evolves_same].
    pose proof (ao_pending _ (inv_addr _ I)) as Hv. rewrite Er in Hv.
    destruct (on_range_runs s e w Hv I) as (a' & -> & _). intros [= <-]. by apply evolves_same.
  - destruct (on_frame_spec payload w (inv_chans _ I)) as (w1 & G & Hcase).
    destruct (gleaned_machine _ _ G) as (Em & _ & _ & _ & Eo).
    assert (Ec : changed w1 = changed w) by (by destruct G as [->|(? & ? & ->)]).
    destruct Hcase as [[_ ->]|(_ & w2 & -> & l & r & -> & _)].
    + intros (a' & ds & -> & _)%reroll_some; [|rewrite Em; apply I]. by exists w1.
    + intros [= <-]. by exists w1.
  - intros [= <-]. by apply evolves_same.
  - rewrite learn_runs by apply I. intros [= <-]. exists (learnt addr hw w). split; [|done].
    right. by eexists _, _.
  - intros [= <-]. by apply evolves_same.
Qed.

End Machine.

(** ** Concrete runs *)

#[local] Existing Instance wire_multitalk.

Definition wit_hw : HWAddr := [2; 0; 0; 0; 0; 1].

Lemma wit_hw_ok : hw_ok wit_hw.
Proof. by apply hw_okb_spec. Qed.

(** A cable 3-5; another node answers for 3.1 after two probes, so that the draws
    5 and 40 give 5.41. *)
Definition wit_response : list Z := aarp_body (MkPacket 2 (MkPair wit_hw (MkAddr 3 1)) (MkPair wit_hw (MkAddr 3 1))).
Definition wit_events : list Event := [ETick; ETick; EFrame wit_response].
Definition wit_start : EW := started wit_hw 3 5 0 [5; 40].
Definition wit_rerolled : EW := match run wit_events wit_start with Some (w, _) => w | None => wit_start end.
Definition wit_owner : EW :=
  match run (replicate 11 ETick) wit_rerolled with Some (w, _) => w | None => wit_start end.

Example aarp_address_owned_witness :
  let a := machine wit_owner in
  let raw := default [] (probe_raw wit_hw (PairProto (myAddr a))) in
  (assigned a = true /\ PairProto (myAddr a) = MkAddr 5 41) /\
  rangeStart a <= a_Network (PairProto (myAddr a)) <= rangeEnd a /\
  1 <= a_Node (PairProto (myAddr a)) <= 253 /\
  (Address a = (myAddr a, true) -> probe_raw wit_hw (PairProto (myAddr a)) = Some raw ->
   10 <= times raw (written wit_owner)) /\
  (OperationalRange a).2 = assigned a && negb (isPhase2StartupRange (rangeStart a) (rangeEnd a)).
Proof.
  intros a raw. split; [vm_compute; split; reflexivity|].
  apply (aarp_address_owned wit_hw 3 5 0 [5; 40] (wit_events ++ replicate 11 ETick) wit_owner raw).
  - exact wit_hw_ok.
  - done.
  - repeat constructor.
  - vm_compute; reflexivity.
Defined.

Example aarp_acquires_witness :
  PairProto (myAddr (machine wit_rerolled)) = MkAddr 5 41 /\
  exists w', run (replicate 11 ETick) wit_rerolled = Some (w', tt) /\
    Address (machine w') = (myAddr (machine wit_rerolled), true) /\
    OperationalRange (machine w') =
      (rangeStart (machine wit_rerolled), rangeEnd (machine wit_rerolled),
       negb (isPhase2StartupRange (rangeStart (machine wit_rerolled)) (rangeEnd (machine wit_rerolled)))).
Proof.
  split; [vm_compute; reflexivity|].
  apply (aarp_acquires wit_hw 3 5 0 [5; 40] wit_events (replicate 11 ETick) wit_rerolled).
  - exact wit_hw_ok.
  - done.
  - repeat constructor.
  - vm_compute; reflexivity.
  - repeat constructor.
  - vm_compute; discriminate.
Defined.
