(* ===== verification/AarpCable.v ===== *)
(** * Two AARP machines on one cable ([router/aarp.go], the AARP branch of
      [Serve] in [router/etalk_port.go])

    Frames reach the other machine at once and none is lost: what one machine
    writes during a turn is heard by the other, whose answers are heard in
    turn, before anything else happens. *)
From S2P Require Import Prelude AtalkNbp Atalk Aarp AarpWire AarpSpec.
Import DDP Aarp.

Module Cable.
Section Cable.
Context `{ET : Ethertalk}.

(** What [Serve] does with the bytes of an AARP frame, and [Run] with the frame
    it is handed; frames of the port itself are ignored. *)
Definition hear (rawPkt : list Z) : E unit :=
  match EthUnmarshal rawPkt with
  | Panic => panic
  | Err _ => mret tt
  | Ok ethFrame =>
      a ← getw machine;
      if bool_decide (FrameSrc ethFrame = Hardware (myAddr a)) then mret tt
      else if bool_decide (SNAPProto ethFrame = AARPProto) then on_frame (Payload ethFrame)
      else mret tt
  end.

Fixpoint hear_all (raws : list (list Z)) : E unit :=
  match raws with [] => mret tt | raw :: raws => _ ← hear raw; hear_all raws end.

(** What was written between two states. *)
Definition news (w w' : EW) : list (list Z) := drop (length (written w)) (written w').

(** [receiver] hears [raws], then [sender] hears the answers, and so on. *)
Fixpoint settle (fuel : nat) (raws : list (list Z)) (sender receiver : EW) : option (EW * EW) :=
  match raws, fuel with
  | [], _ => Some (sender, receiver)
  | _, O => None
  | _, S fuel =>
      match hear_all raws receiver with
      | None => None
      | Some (receiver', _) =>
          match settle fuel (news receiver receiver') receiver' sender with
          | Some (r, s) => Some (s, r)
          | None => None
          end
      end
  end.

(** A turn of one machine, heard by the other. *)
Inductive cable_step : EW * EW -> EW * EW -> Prop :=
| left_turn e fuel a b a' ab :
    event_ok e -> turn e a = Some (a', tt) -> settle fuel (news a a') a' b = Some ab ->
    cable_step (a, b) ab
| right_turn e fuel a b b' a1 b1 :
    event_ok e -> turn e b = Some (b', tt) -> settle fuel (news b b') b' a = Some (b1, a1) ->
    cable_step (a, b) (a1, b1).

End Cable.
End Cable.
Import Cable.

Section Cable.
Context `{ET : Ethertalk} {EL : EthertalkLaws}.

Lemma trim_body_tail p tail : zlen p = 28 -> trim_body (p ++ tail) = p.
Proof.
  intros H. unfold trim_body, aarpBodyLength. assert (El : length p = 28%nat) by (unfold zlen in H; lia).
  destruct (Z.ltb_spec 28 (zlen (p ++ tail))) as [Hl|Hl].
  - change (Z.to_nat 28) with 28%nat. by rewrite <- El, take_app_length.
  - destruct tail as [|x tail]; [by rewrite app_nil_r|].
    rewrite zlen_app, zlen_cons in Hl. pose proof (zlen_nonneg tail). lia.
Qed.

(** A machine that has just chosen its address. *)
Definition fresh (a : AARPMachine) : Prop := assigned a = false /\ probes a = 0.

Abbreviation proto w := (PairProto (myAddr (machine w))).
Abbreviation hardware w := (Hardware (myAddr (machine w))).

(** [w'] comes after [w], with the same claim to the same address, or a new one. *)
Record follows (w w' : EW) : Prop := {
  fo_claim : (myAddr (machine w') = myAddr (machine w) /\ probes (machine w') = probes (machine w) /\
              assigned (machine w') = assigned (machine w)) \/ fresh (machine w');
  fo_hardware : hardware w' = hardware w;
  fo_inv : inv w -> inv w';
  fo_writes : writes w = [] -> writes w' = [] }.

Lemma follows_refl w : follows w w.
Proof. split; auto. Qed.

Lemma follows_trans w1 w2 w3 : follows w1 w2 -> follows w2 w3 -> follows w1 w3.
Proof.
  intros [C1 H1 I1 W1] [C2 H2 I2 W2]. split; [|congruence|auto|auto].
  destruct C2 as [(E1 & E2 & E3)|]; [|by right].
  destruct C1 as [(F1 & F2 & F3)|[F1 F2]]; [left; split_and!; congruence|right; split; congruence].
Qed.

Lemma follows_gleaned w w1 : chans_ok w -> gleaned w w1 -> follows w w1.
Proof.
  intros C G. destruct (gleaned_machine _ _ G) as (Em & _ & _ & Ew & _). split.
  - left. by rewrite Em.
  - by rewrite Em.
  - by apply inv_gleaned.
  - congruence.
Qed.

Lemma follows_wrote w w' : wrote w w' -> follows w w'.
Proof.
  intros H. split; [| |by apply inv_wrote|]; destruct H as (l & r & -> & Hr); [by left|done|exact Hr].
Qed.

Lemma follows_reroll w w' :
  inv w -> assigned (machine w) = false -> reroll w = Some (w', tt) -> follows w w' /\ fresh (machine w').
Proof.
  intros [C A] Ha (a' & ds & -> & Hr)%reroll_some; [|done].
  assert (Hf : fresh a') by (by destruct Hr as (n & d & -> & _)).
  split; [split|]; [by right| | |done|done].
  - by destruct Hr as (n & d & -> & _).
  - intros _. split; [by apply rolled_chans|by apply (rolled_ok (machine w))].
Qed.

Lemma follows_frame payload w w' : inv w -> on_frame payload w = Some (w', tt) -> follows w w'.
Proof.
  intros I. destruct (on_frame_spec payload w (inv_chans _ I)) as (w1 & G & Hcase).
  pose proof (follows_gleaned w w1 (inv_chans _ I) G) as F. destruct (gleaned_machine _ _ G) as (Em & _).
  destruct Hcase as [[Hc ->]|(_ & w2 & -> & Hw)].
  - apply andb_prop in Hc as [_ Ha%negb_true_iff]. intros H. eapply follows_trans; [exact F|].
    apply follows_reroll; [by eapply inv_gleaned|by rewrite Em|done].
  - intros [= <-]. eapply follows_trans; [exact F|by apply follows_wrote].
Qed.

Lemma follows_hear raw w w' : inv w -> hear raw w = Some (w', tt) -> follows w w'.
Proof.
  intros I. unfold hear. destruct (EthUnmarshal raw) as [f|e|]; [|intros [= <-]; apply follows_refl|done].
  rewrite (e_bind (getw machine) _ w w (machine w)) by done.
  case_if; [intros [= <-]; apply follows_refl|]. case_if; [by apply follows_frame|].
  intros [= <-]. apply follows_refl.
Qed.

Lemma follows_hear_all raws w w' : inv w -> hear_all raws w = Some (w', tt) -> follows w w'.
Proof.
  revert w. induction raws as [|raw raws IH]; intros w I; cbn [hear_all].
  - intros [= <-]. apply follows_refl.
  - unfold mbind, E_bind. destruct (hear raw w) as [[w1 []]|] eqn:E1; [|done]. intros H.
    pose proof (follows_hear _ _ _ I E1) as F. eapply follows_trans; [exact F|].
    apply IH; [by apply F|done].
Qed.

Lemma follows_settle fuel raws a b a' b' :
  inv a -> inv b -> settle fuel raws a b = Some (a', b') -> follows a a' /\ follows b b'.
Proof.
  revert raws a b a' b'. induction fuel as [|fuel IH]; intros raws a b a' b' Ia Ib.
  - destruct raws; cbn [settle]; [|done]. intros [= <- <-]. split; apply follows_refl.
  - destruct raws as [|raw raws]; cbn [settle]; [intros [= <- <-]; split; apply follows_refl|].
    destruct (hear_all _ b) as [[b1 []]|] eqn:E1; [|done].
    destruct (settle fuel _ b1 a) as [[b2 a2]|] eqn:E2; [|done]. intros [= <- <-].
    pose proof (follows_hear_all _ _ _ Ib E1) as F. apply IH in E2 as [F1 F2]; [|by apply F|done].
    split; [done|by eapply follows_trans].
Qed.

(** Of two machines that claim one address, one has only just chosen it. *)
Definition no_clash (a b : EW) : Prop := proto a = proto b -> fresh (machine a) \/ fresh (machine b).

Lemma no_clash_sym a b : no_clash a b -> no_clash b a.
Proof. intros H E. symmetry in E. destruct (H E); [by right|by left]. Qed.

Lemma no_clash_follows a b a' b' : follows a a' -> follows b b' -> no_clash a b -> no_clash a' b'.
Proof.
  intros [Ca _ _ _] [Cb _ _ _] H E.
  destruct Ca as [(Ea & Pa & Aa)|]; [|by left]. destruct Cb as [(Eb & Pb & Ab)|]; [|by right].
  destruct H as [[F1 F2]|[F1 F2]]; [by rewrite <- Ea, <- Eb|left|right]; split; congruence.
Qed.

(** ** A probe is heard *)

(** The frame that carries an AARP packet comes back as that packet. *)
Lemma hear_aarp hw pkt f dst raw w :
  AARP hw pkt = Ok f -> EthMarshal (with_FrameDst dst f) = Ok raw -> hw <> hardware w ->
  exists payload, hear (pad_frame raw) w = on_frame payload w /\ Unmarshal (trim_body payload) = Ok pkt.
Proof.
  intros Ha Hm Hhw. destruct (AARP_frame _ _ _ Ha) as (Hu & Hlen & Hs & _ & Hp).
  set (n := if zlen raw <? 64 then Z.to_nat (64 - zlen raw) else 0%nat).
  destruct (Eth_reads _ _ n Hm) as [tail Er]. cbn [with_FrameDst FrameDst FrameSrc SNAPProto Payload] in Er.
  assert (Ep : pad_frame raw = raw ++ replicate n 0).
  { unfold pad_frame, n. case_if; [done|]. by rewrite app_nil_r. }
  exists (Payload f ++ tail). split.
  - unfold hear. rewrite Ep, Er. rewrite (e_bind (getw machine) _ w w (machine w)) by done.
    cbn [FrameSrc SNAPProto Payload]. rewrite bool_decide_false by congruence. by rewrite bool_decide_true.
  - rewrite trim_body_tail by done. exact Hu.
Qed.

(** The owner of an address answers a probe for it. *)
Lemma owner_answers payload hw a w :
  Unmarshal (trim_body payload) = Ok (Probe hw a) -> a = proto w -> assigned (machine w) = true ->
  writes w = [] -> inv w -> hw_ok (hardware w) -> hw_ok hw ->
  exists f raw, AARP (hardware w) (Response (myAddr (machine w)) (MkPair hw a)) = Ok f /\
    EthMarshal (with_FrameDst hw f) = Ok raw /\
    on_frame payload w = Some (with_written (written w ++ [pad_frame raw]) [] w, tt).
Proof.
  intros Hu -> Ha Hw I Hh Hhw. destruct (Probe_fields hw (proto w)) as (Eo & Es & Ed & _).
  destruct (Response_fields (myAddr (machine w)) (MkPair hw (proto w))) as (_ & Rs & Rd).
  destruct (AARP_returns (hardware w) (Response (myAddr (machine w)) (MkPair hw (proto w)))) as [f Ef].
  { rewrite Rs. split; [done|]. by apply address_typed, I. }
  { rewrite Rd. split; [done|]. by apply address_typed, I. }
  { done. }
  destruct (AARP_marshal _ _ _ hw Ef Hhw) as [raw Er]. exists f, raw. split; [done|]. split; [done|].
  destruct ops_apart as (N1 & N2 & N3). unfold on_frame. rewrite Hu, Eo.
  rewrite (proj2 (Z.eqb_neq _ _) (not_eq_sym N2)), (proj2 (Z.eqb_neq _ _) (not_eq_sym N3)), Z.eqb_refl.
  rewrite (e_bind (getw machine) _ w w (machine w)) by done.
  rewrite Ed, bool_decide_true, Ha by done. cbn [negb]. rewrite Es.
  assert (E1 : heyThatsMe (MkPair hw (proto w)) w =
               Some (with_written (written w ++ [pad_frame raw]) [] w, None)).
  { unfold heyThatsMe. rewrite (e_bind (getw machine) _ w w (machine w)) by done.
    cbn [Hardware]. rewrite Ef. cbn [checke]. unfold send. rewrite Er. cbn [checke].
    unfold WritePacketData. by rewrite Hw. }
  by rewrite (e_bind _ _ _ _ _ E1).
Qed.

(** A tentative address that is answered for, or probed by another, is given up. *)
Lemma contested_fresh payload w w' :
  inv w -> assigned (machine w) = false -> contests payload (proto w) = true ->
  on_frame payload w = Some (w', tt) -> fresh (machine w').
Proof.
  intros I Ha Hc. destruct (on_frame_spec payload w (inv_chans _ I)) as (w1 & G & [[_ ->]|(Hn & _)]).
  - destruct (gleaned_machine _ _ G) as (Em & _). intros H.
    apply (follows_reroll w1); [by eapply inv_gleaned|by rewrite Em|done].
  - rewrite Hc, Ha in Hn. done.
Qed.

Lemma news_one w raw : news w (with_written (written w ++ [raw]) [] w) = [raw].
Proof. unfold news. cbn [written with_written]. by rewrite drop_app_length. Qed.

(** Once a probe for the address of both was heard, one of the two is fresh. *)
Lemma settle_probe fuel raw a b a' b' :
  inv a -> inv b -> writes b = [] -> hw_ok (hardware a) -> hw_ok (hardware b) ->
  hardware a <> hardware b -> proto a = proto b -> assigned (machine a) = false ->
  probe_raw (hardware a) (proto a) = Some raw ->
  settle fuel [raw] a b = Some (a', b') -> fresh (machine a') \/ fresh (machine b').
Proof.
  intros Ia Ib Wb Ha Hb Hab Ep Aa Hraw. unfold probe_raw in Hraw.
  destruct (AARP _ _) as [f| |] eqn:Ef; [|done..]. destruct (EthMarshal f) as [r| |] eqn:Em; [|done..].
  injection Hraw as <-. rewrite <- (frame_dst f) in Em.
  destruct (hear_aarp _ _ _ _ _ b Ef Em Hab) as (payload & Eh & Eu).
  destruct (Probe_fields (hardware a) (proto a)) as (Eo & _ & Ed & _).
  destruct fuel as [|fuel]; [done|]. cbn [settle hear_all]. unfold mbind at 1, E_bind at 1.
  rewrite Eh. destruct (assigned (machine b)) eqn:Ab.
  - destruct (owner_answers _ _ _ b Eu Ep Ab Wb Ib Hb Ha) as (f' & r' & Ef' & Em' & ->).
    set (b1 := with_written _ _ _). unfold mret at 1, E_ret at 1.
    subst b1. rewrite news_one. set (b1 := with_written _ _ _).
    destruct fuel as [|fuel]; [done|]. cbn [settle hear_all]. unfold mbind at 1, E_bind at 1.
    destruct (hear_aarp _ _ _ _ _ a Ef' Em' (not_eq_sym Hab)) as (payload' & Eh' & Eu').
    rewrite Eh'. destruct (on_frame payload' a) as [[a1 []]|] eqn:Ea1; [|done].
    unfold mret at 1, E_ret at 1.
    destruct (settle fuel _ a1 b1) as [[a2 b2]|] eqn:E2; [|done]. intros [= <- <-].
    destruct (Response_fields (myAddr (machine b)) (MkPair (hardware a) (proto a))) as (Ro & _ & Rd).
    assert (Fa : fresh (machine a1)).
    { apply (contested_fresh payload' a); [done|done| |done]. unfold contests.
      rewrite Eu', Ro, Rd, Z.eqb_refl. by rewrite bool_decide_true. }
    left. apply follows_settle in E2 as [F _].
    + destruct (fo_claim _ _ F) as [(_ & P & Q)|]; [|done]. destruct Fa. split; congruence.
    + by apply (follows_frame _ _ _ Ia Ea1).
    + apply (inv_wrote b); [|done]. by exists [pad_frame r'], [].
  - destruct (on_frame payload b) as [[b1 []]|] eqn:Eb1; [|done]. unfold mret at 1, E_ret at 1.
    destruct (settle fuel _ b1 a) as [[b2 a2]|] eqn:E2; [|done]. intros [= <- <-].
    assert (Fb : fresh (machine b1)).
    { apply (contested_fresh payload b); [done|done| |done]. unfold contests.
      rewrite Eu, Eo, Ed, Z.eqb_refl, orb_true_r. by rewrite bool_decide_true. }
    right. apply follows_settle in E2 as [F _]; [|by apply (follows_frame _ _ _ Ib Eb1)|done].
    destruct (fo_claim _ _ F) as [(_ & P & Q)|]; [|done]. destruct Fb. split; congruence.
Qed.

(** ** Turns *)

(** A turn is followed by the same claim or a new one; or it probed; or it found
    that ten probes were enough. *)
Lemma turn_claims e w w' :
  event_ok e -> inv w -> writes w = [] -> hw_ok (hardware w) -> turn e w = Some (w', tt) ->
  writes w' = [] /\
  (follows w w' \/
   myAddr (machine w') = myAddr (machine w) /\
     (probes (machine w) = 10 \/
      assigned (machine w) = false /\ assigned (machine w') = false /\
      exists raw, news w w' = [raw] /\ probe_raw (hardware w') (proto w') = Some raw)).
Proof.
  intros He I Hw Hh. unfold turn. rewrite (e_bind (getw machine) _ w w (machine w)) by done.
  destruct e as [| |payload|start end_|addr hw|now].
  - destruct (ticker (machine w)) eqn:Et; [|intros [= <-]; split; [done|left; apply follows_refl]].
    pose proof (ao_ticking _ (inv_addr _ I)) as Hat. rewrite Et in Hat. cbn in Hat.
    destruct (on_tick_inv w I Et) as (w1 & E1 & I1 & Hcase).
    destruct Hcase as [[Hlt _]|(Hp & Em & _ & Es & _)].
    + clear I1 E1. unfold on_tick. rewrite (e_bind (getw machine) _ w w (machine w)) by done. zdec.
      set (w2 := with_machine (with_addr (PairProto (myAddr (machine w))) (probes (machine w) + 1) (machine w)) w).
      rewrite (e_bind (modm _) _ w w2 tt) by done.
      destruct (probe_raw_some _ _ Hh (address_typed _ (inv_addr _ I))) as [raw Er].
      rewrite (e_bind _ _ _ _ _ (probe_sends w2 raw Hw Er)). intros [= <-]. split; [done|]. right.
      cbn. split; [by destruct (myAddr (machine w))|]. right. split; [done|]. split; [done|].
      exists raw. split; [by apply (news_one w2)|done].
    + rewrite E1. intros [= <-]. split; [by rewrite Es|]. right. by rewrite Em; split; [|left].
  - destruct (rangeCh (machine w)) as [[s e]|] eqn:Er; [|intros [= <-]; split; [done|left; apply follows_refl]].
    pose proof (ao_pending _ (inv_addr _ I)) as Hv. rewrite Er in Hv.
    destruct (on_range_runs s e w Hv I) as (a' & -> & I1 & Ha & Eh). intros [= <-]. split; [done|]. left.
    split; [|done|done|done]. destruct Ha as [->|Ha]; [by left|by right].
  - intros H. pose proof (follows_frame _ _ _ I H) as F. split; [by apply F|by left].
  - intros [= <-]. split; [done|]. left. split; [|cbn|intros _|done].
    + left. cbn. unfold Rebind. case_if; [done|]. by destruct (rangeCh (machine w)).
    + unfold Rebind. case_if; [done|]. by destruct (rangeCh (machine w)).
    + apply (turn_inv (ERebind start end_) w); done.
  - rewrite learn_runs by apply I. intros [= <-]. split; [done|]. left.
    apply follows_gleaned; [apply I|]. right. by eexists _, _.
  - intros [= <-]. split; [done|]. left. split; [by left|done| |done]. intros _.
    by apply (turn_inv (EClock now) w).
Qed.

(** What every state of the cable satisfies. *)
Record cable_inv (hwa hwb : HWAddr) (a b : EW) : Prop := {
  ci_a : inv a; ci_b : inv b; ci_wa : writes a = []; ci_wb : writes b = [];
  ci_ha : hardware a = hwa; ci_hb : hardware b = hwb;
  ci_clash : no_clash a b }.

Lemma cable_inv_sym hwa hwb a b : cable_inv hwa hwb a b -> cable_inv hwb hwa b a.
Proof. intros []. split; try done. by apply no_clash_sym. Qed.

Lemma cable_turn hwa hwb e fuel a b a' a2 b2 :
  hw_ok hwa -> hw_ok hwb -> hwa <> hwb -> cable_inv hwa hwb a b -> event_ok e ->
  turn e a = Some (a', tt) -> settle fuel (news a a') a' b = Some (a2, b2) -> cable_inv hwa hwb a2 b2.
Proof.
  intros Hha Hhb Hab [Ia Ib Wa Wb Ea Eb N] He Ht Hs.
  pose proof (turn_inv e a a' He Ia Ht) as Ia'. pose proof (turn_hardware e a a' Ia Ht) as Eh.
  destruct (turn_claims e a a' He Ia Wa) as [Wa' Hcase]; [by rewrite Ea|done|].
  pose proof (follows_settle _ _ _ _ _ _ Ia' Ib Hs) as [Fa Fb].
  split; [by apply Fa|by apply Fb|by apply Fa|by apply Fb| | |].
  - by rewrite (fo_hardware _ _ Fa), Eh.
  - by rewrite (fo_hardware _ _ Fb).
  - destruct Hcase as [F|(Em & Hcase)].
    + eapply no_clash_follows; [exact Fa|exact Fb|]. eapply no_clash_follows; [exact F|apply follows_refl|done].
    + destruct (decide (proto a = proto b)) as [Ep|Ep].
      2: { eapply no_clash_follows; [exact Fa|exact Fb|]. intros Ep'. by rewrite Em in Ep'. }
      destruct Hcase as [Hp|(Aa & Aa' & raw & Hn & Hr)].
      * destruct (N Ep) as [[_ F0]|F]; [lia|]. eapply no_clash_follows; [exact Fa|exact Fb|]. by right.
      * rewrite Hn in Hs. intros _.
        apply (settle_probe fuel raw a' b a2 b2); try done; rewrite ?Eh, ?Ea, ?Eb, ?Em; done.
Qed.

Lemma cable_step_inv hwa hwb s s' :
  hw_ok hwa -> hw_ok hwb -> hwa <> hwb -> cable_step s s' ->
  cable_inv hwa hwb s.1 s.2 -> cable_inv hwa hwb s'.1 s'.2.
Proof.
  intros Ha Hb Hab [e fuel a b a' [a2 b2] He Ht Hs|e fuel a b b' a2 b2 He Ht Hs] I; cbn in *.
  - by apply (cable_turn _ _ e fuel a b a').
  - apply cable_inv_sym. apply cable_inv_sym in I.
    by apply (cable_turn hwb hwa e fuel b a b' b2 a2).
Qed.


End Cable.

(** Two machines start with the preferred address 3.1.  The first probe makes the
    other machine draw a new address: 5.41. *)
#[local] Existing Instance wire_multitalk.

Definition wit_left : EW := started [2; 0; 0; 0; 0; 1] 3 5 0 [].
Definition wit_right : EW := started [2; 0; 0; 0; 0; 2] 3 5 0 [5; 40].
Definition wit_probed : EW * EW :=
  match turn ETick wit_left with
  | Some (a, _) => default (wit_left, wit_right) (settle 2 (news wit_left a) a wit_right)
  | None => (wit_left, wit_right)
  end.

