(* ===== verification/Outbox.v ===== *)
(** * Packets that wait for address resolution ([router/etalk_port.go]: [Send],
      [Broadcast], [ZoneMulticast], [send], the outboxes and their goroutine)

    An outbox is kept under the channel its packets wait on.  [Outbox] is a
    loop around a select: each of its cases is an operation here, whose result
    says whether the loop goes on. *)
From S2P Require Import Prelude GoSort AtalkNbp Atalk Aarp.
Import DDP Aarp.

Module Outbox.

Definition maxOutboxSize : Z := 1000.
Definition outboxTimeout : Z := 10 * Second.

Definition etherTalkBroadcastNode (node : Z) : bool := (node =? 0) || (node =? 0xFF).

Section Outbox.
Context {MO : MapOrder} `{MT : Multitalk} `{ET : Ethertalk}.

(** [port.ethernetAddr]. *)
Variable ethernetAddr : HWAddr.

(** [port.send]. *)
Definition send (dstEth : HWAddr) (pkt : ExtPacket) : E error :=
  checke (AppleTalk ethernetAddr pkt) (fun outFrame => Aarp.send (with_FrameDst dstEth outFrame)).

(** An append to [packets], and the packets dropped from its front. *)
Definition append_packet (pkt : ExtPacket) (now : Z) (ob : outbox) : outbox :=
  let ps := packets ob ++ [pkt] in
  {| packets := if maxOutboxSize <? zlen ps then drop (Z.to_nat (zlen ps - maxOutboxSize)) ps else ps;
     ob_addr := ob_addr ob; lastTS := now |}.

(** A failing request is logged. *)
Definition outboxPush (waitCh : chan) (addr : Addr) (pkt : ExtPacket) : E unit :=
  now ← getw clock; obs ← getw outboxes;
  match obs !! waitCh with
  | Some ob => modw (fun w => with_outboxes (<[waitCh := append_packet pkt now ob]> (outboxes w)) w)
  | None =>
      _ ← modw (fun w => with_outboxes
            (<[waitCh := {| packets := [pkt]; ob_addr := addr; lastTS := now |}]> (outboxes w)) w);
      _ ← request addr;
      modw (with_changed true)
  end.

Definition Send (pkt : ExtPacket) : E error :=
  if etherTalkBroadcastNode (DstNode pkt) then send AppleTalkBroadcast pkt
  else
    let addr := MkAddr (DstNet pkt) (DstNode pkt) in
    '(destEth, waitCh) ← lookupOrWait addr;
    match waitCh with
    | None => send destEth pkt
    | Some waitCh => _ ← outboxPush waitCh addr pkt; mret None
    end.

Definition Forward (pkt : ExtPacket) : E error := Send pkt.
Definition Broadcast (pkt : ExtPacket) : E error := send AppleTalkBroadcast pkt.
Definition ZoneMulticast (zone : list Z) (pkt : ExtPacket) : E error := send (MulticastAddr zone) pkt.

(** Using the address of an outbox that is not there panics. *)
Definition outboxPop (waitCh : chan) : E (option outbox * HWAddr) :=
  obs ← getw outboxes;
  _ ← modw (fun w => with_outboxes (delete waitCh (outboxes w)) w);
  match obs !! waitCh with
  | None => panic
  | Some ob =>
      '(destEth, newWaitCh) ← lookupOrWait (ob_addr ob);
      match newWaitCh with
      | None => mret (Some ob, destEth)
      | Some newWaitCh =>
          now ← getw clock;
          if outboxTimeout <? now - lastTS ob then mret (None, destEth)
          else
            _ ← modw (fun w => with_outboxes (<[newWaitCh := ob]> (outboxes w)) w);
            mret (None, destEth)
      end
  end.

(** The range over [port.outboxes]. *)
Fixpoint resend (obs : list (chan * outbox)) : E error :=
  match obs with
  | [] => mret None
  | (waitCh, ob) :: obs =>
      now ← getw clock;
      if outboxTimeout <? now - lastTS ob then
        _ ← modw (fun w => with_outboxes (delete waitCh (outboxes w)) w);
        mret None
      else
        err ← request (ob_addr ob);
        match err with Some e => mret (Some e) | None => resend obs end
  end.

Definition resendAARPRequests : E error :=
  obs ← getw outboxes; resend (map_range obs).

(** ** The cases of the select *)

Definition on_changed : E bool := _ ← modw (with_changed false); mret true.

Definition on_resolve : E bool :=
  err ← resendAARPRequests;
  mret (match err with Some _ => false | None => true end).

Fixpoint send_all (destEth : HWAddr) (pkts : list ExtPacket) : E bool :=
  match pkts with
  | [] => mret true
  | pkt :: pkts =>
      err ← send destEth pkt;
      match err with Some _ => mret false | None => send_all destEth pkts end
  end.

Definition on_wait (waitCh : chan) : E bool :=
  '(ob, destEth) ← outboxPop waitCh;
  match ob with
  | None => mret true
  | Some ob => send_all destEth (packets ob)
  end.

End Outbox.
End Outbox.
