(* ===== verification/OutboxSpec.v ===== *)
(** * What the outboxes guarantee ([router/etalk_port.go])

    Senders, the AARP machine and the outbox goroutine interleave between their
    locked sections; no packet is left behind in an outbox whose address has been
    resolved. *)
From S2P Require Import Prelude GoSort AtalkNbp Atalk Aarp AarpWire AarpSpec Outbox.
Import DDP Aarp Outbox.

(** ** The port as a state machine *)

(** The outbox goroutine rebuilds its cases, waits in the select on these
    channels, or has returned after a write error. *)
Inductive Goroutine := Building | Waiting (chans : gset chan) | Exited.

(** [pushes] are the packets of senders between [lookupOrWait] and [outboxPush]. *)
Record PortState := MkPort { world : EW; pushes : list (chan * Addr * ExtPacket); outbox_loop : Goroutine }.

Definition dest (pkt : ExtPacket) : Addr := MkAddr (DstNet pkt) (DstNode pkt).

Section Steps.
Context {MO : MapOrder} `{MT : Multitalk} `{ET : Ethertalk}.
Variable ethernetAddr : HWAddr.

(** After one case of the select the cases are rebuilt, unless the loop ended. *)
Definition resume (go : bool) : Goroutine := if go then Building else Exited.

Inductive port_step : PortState -> PortState -> Prop :=
| step_turn e w w' ps g :
    event_ok e -> turn e w = Some (w', tt) -> port_step (MkPort w ps g) (MkPort w' ps g)
| step_lookup pkt w w' hw ch ps g :
    etherTalkBroadcastNode (DstNode pkt) = false ->
    lookupOrWait (dest pkt) w = Some (w', (hw, Some ch)) ->
    port_step (MkPort w ps g) (MkPort w' ((ch, dest pkt, pkt) :: ps) g)
| step_send pkt dst w w' err ps g :
    send ethernetAddr dst pkt w = Some (w', err) -> port_step (MkPort w ps g) (MkPort w' ps g)
| step_push ch a pkt w w' ps1 ps2 g :
    outboxPush ch a pkt w = Some (w', tt) ->
    port_step (MkPort w (ps1 ++ (ch, a, pkt) :: ps2) g) (MkPort w' (ps1 ++ ps2) g)
| step_build w ps : port_step (MkPort w ps Building) (MkPort w ps (Waiting (dom (outboxes w))))
| step_changed w w' go ps cs :
    changed w = true -> on_changed w = Some (w', go) ->
    port_step (MkPort w ps (Waiting cs)) (MkPort w' ps (resume go))
| step_resolve w w' go ps cs :
    cs <> ∅ -> on_resolve w = Some (w', go) ->
    port_step (MkPort w ps (Waiting cs)) (MkPort w' ps (resume go))
| step_wait c w w' go ps cs :
    c ∈ cs -> c ∈ closed w -> on_wait ethernetAddr c w = Some (w', go) ->
    port_step (MkPort w ps (Waiting cs)) (MkPort w' ps (resume go)).

Definition new_port (start end_ now : Z) (rand : list Z) : PortState :=
  MkPort (started ethernetAddr start end_ now rand) [] Building.

End Steps.

(** ** The invariant *)

(** A channel of the past or the present of the table, and the address it was
    made for: closed, or still the channel of that address. *)
Definition waits_for (o : chan -> Addr) (w : EW) (c : chan) (a : Addr) : Prop :=
  c < next_chan w /\ o c = a /\ (c ∈ closed w \/ exists e, amt w !! a = Some e /\ updated e = c).

Definition outbox_ok (ob : outbox) : Prop :=
  packets ob <> [] /\ zlen (packets ob) <= maxOutboxSize /\ Forall (fun p => dest p = ob_addr ob) (packets ob).

Record boxes_ok (o : chan -> Addr) (w : EW) (ps : list (chan * Addr * ExtPacket)) : Prop := {
  bo_owner : forall a e, amt w !! a = Some e -> o (updated e) = a;
  bo_push : forall c a p, (c, a, p) ∈ ps -> waits_for o w c a /\ dest p = a;
  bo_box : forall c ob, outboxes w !! c = Some ob -> waits_for o w c (ob_addr ob) /\ outbox_ok ob }.

(** The goroutine never misses an outbox. *)
Definition watched (w : EW) (g : Goroutine) : Prop :=
  match g with
  | Waiting cs => cs ⊆ dom (outboxes w) /\ (dom (outboxes w) ⊆ cs \/ changed w = true)
  | _ => True
  end.

Record port_ok (p : PortState) : Prop := {
  po_inv : inv (world p);
  po_boxes : exists o, boxes_ok o (world p) (pushes p);
  po_watched : watched (world p) (outbox_loop p) }.

(** ** The table under the outboxes *)

Lemma boxes_mono o o' w w' ps :
  boxes_ok o w ps -> outboxes w' = outboxes w -> next_chan w <= next_chan w' ->
  (forall c, c < next_chan w -> o' c = o c) ->
  (forall a e, amt w' !! a = Some e -> o' (updated e) = a) ->
  closed w ⊆ closed w' ->
  (forall a e, amt w !! a = Some e ->
     updated e ∈ closed w' \/ exists e', amt w' !! a = Some e' /\ updated e' = updated e) ->
  boxes_ok o' w' ps.
Proof.
  intros [B1 B2 B3] Eo Hn Ho Hown Hcl Hent.
  assert (Hw : forall c a, waits_for o w c a -> waits_for o' w' c a).
  { intros c a (Hlt & <- & Hc). split; [lia|]. split; [by apply Ho|].
    destruct Hc as [Hc|(e & Ee & <-)]; [left; by apply Hcl|by apply Hent]. }
  split; [done| |].
  - intros c a p Hp. destruct (B2 c a p Hp). auto.
  - intros c ob. rewrite Eo. intros Hob. destruct (B3 c ob Hob). auto.
Qed.

(** The owner of the next channel is decided when it is made. *)
Definition own (o : chan -> Addr) (c : chan) (a : Addr) : chan -> Addr := fun c' => if c' =? c then a else o c'.

Lemma own_same o c a : own o c a c = a.
Proof. unfold own. by rewrite Z.eqb_refl. Qed.
Lemma own_other o c a c' : c' <> c -> own o c a c' = o c'.
Proof. intros H. unfold own. by rewrite (proj2 (Z.eqb_neq _ _) H). Qed.

(** A new entry for [a] on the next channel. *)
Lemma boxes_entry o w w' ps a e :
  chans_ok w -> boxes_ok o w ps -> outboxes w' = outboxes w -> next_chan w' = next_chan w + 1 ->
  amt w' = <[a := e]> (amt w) -> updated e = next_chan w -> closed w ⊆ closed w' ->
  (forall e0, amt w !! a = Some e0 -> updated e0 ∈ closed w') ->
  boxes_ok (own o (next_chan w) a) w' ps.
Proof.
  intros C B Eo En Ea Eu Hcl He0. apply (boxes_mono o _ w); try done.
  - lia.
  - intros c Hc. apply own_other. lia.
  - intros a' e'. rewrite Ea, lookup_insert_Some. intros [[<- <-]|[_ E']]; [by rewrite Eu, own_same|].
    rewrite own_other; [by apply B|]. pose proof (co_entry _ C _ _ E'). lia.
  - intros a' e' E'. rewrite Ea. destruct (decide (a = a')) as [<-|Hne]; [left; by apply He0|].
    right. exists e'. by rewrite lookup_insert_ne.
Qed.

Lemma boxes_evolve o w w' ps :
  chans_ok w -> boxes_ok o w ps -> evolves w w' -> exists o', boxes_ok o' w' ps.
Proof.
  intros C B (w1 & G & Ea & En & Hcl & Eo & _). destruct G as [->|(a & hw & ->)].
  - exists o. apply (boxes_mono o o w); try done; [lia| |].
    + intros a e. rewrite Ea. apply B.
    + intros a e E1. right. exists e. by rewrite Ea.
  - unfold learnt in *. cbn in Ea, En, Hcl. exists (own o (next_chan w) a).
    eapply boxes_entry; [done|done|done|done|exact Ea|done| |].
    + destruct (amt w !! a); set_solver.
    + intros e0 E0. rewrite E0 in Hcl. set_solver.
Qed.

(** [lookupOrWait] answers, or gives the channel on which the address is awaited. *)
Lemma lookup_runs o w ps a :
  inv w -> boxes_ok o w ps ->
  exists w' hw wait o', lookupOrWait a w = Some (w', (hw, wait)) /\ inv w' /\ boxes_ok o' w' ps /\
    outboxes w' = outboxes w /\ changed w' = changed w /\ closed w' = closed w /\ clock w' = clock w /\
    written w' = written w /\ writes w' = writes w /\
    match wait with Some c => waits_for o' w' c a /\ c ∉ closed w' | None => w' = w end.
Proof.
  intros I B. pose proof (inv_chans _ I) as C. unfold lookupOrWait.
  rewrite (e_bind (getw amt) _ w w (amt w)) by done. rewrite (e_bind (getw clock) _ w w (clock w)) by done.
  destruct (amt w !! a) as [e|] eqn:Ea.
  - destruct (co_entry _ C _ _ Ea) as [Hr Ho]. destruct (Valid (clock w) e); cbn [negb];
      eexists w, _, _, o; (split; [done|]); split_and!; try done.
    split; [lia|]. split; [by apply B|]. right. by exists e.
  - destruct (make_chan_fresh w C) as (E1 & C1 & H2 & Hncl & Hne).
    rewrite (e_bind _ _ _ _ _ E1). set (e := {| e_HWAddr := noHWAddr; LastUpdated := None; updated := next_chan w |}).
    set (w1 := with_chans (next_chan w + 1) (closed w) w) in *.
    exists (with_amt (<[a := e]> (amt w1)) w1), noHWAddr, (Some (next_chan w)), (own o (next_chan w) a).
    split; [done|]. split; [split; [|apply I]|split; [|split_and!; try done]].
    + apply chans_entry; [done|cbn; lia|done|]. intros a' e' E' _. by apply (Hne a').
    + eapply boxes_entry; try done. intros e0 E0. congruence.
    + split; [cbn; lia|]. split; [apply own_same|]. right. exists e. cbn. by rewrite lookup_insert_eq.
Qed.

(** ** The operations *)

Section Ops.
Context {MO : MapOrder} `{MT : Multitalk} `{ET : Ethertalk} {EL : EthertalkLaws}.
Variable ethernetAddr : HWAddr.

Lemma boxes_same o w w' ps :
  boxes_ok o w ps -> amt w' = amt w -> next_chan w' = next_chan w -> closed w' = closed w ->
  outboxes w' = outboxes w -> boxes_ok o w' ps.
Proof.
  intros B Ea En Ec Eo. apply (boxes_mono o o w); try done; [lia| |by rewrite Ec|].
  - intros a e. rewrite Ea. apply B.
  - intros a e E1. right. exists e. by rewrite Ea.
Qed.

Lemma boxes_wrote o w w' ps : wrote w w' -> boxes_ok o w ps -> boxes_ok o w' ps.
Proof. intros (l & r & -> & _) B. by apply (boxes_same o w). Qed.

Lemma inv_boxes obs w : inv w -> inv (with_outboxes obs w).
Proof. intros [[] A]. by split. Qed.
Lemma inv_changed b w : inv w -> inv (with_changed b w).
Proof. intros [[] A]. by split. Qed.

(** Putting an outbox in its place. *)
Lemma boxes_insert o w ps c ob :
  boxes_ok o w ps -> waits_for o w c (ob_addr ob) -> outbox_ok ob ->
  boxes_ok o (with_outboxes (<[c := ob]> (outboxes w)) w) ps.
Proof.
  intros [B1 B2 B3] Hc Hob. split; [done|done|].
  intros c' ob'. cbn. rewrite lookup_insert_Some. intros [[<- <-]|[_ E']]; [done|by apply B3].
Qed.

Lemma boxes_delete o w ps c :
  boxes_ok o w ps -> boxes_ok o (with_outboxes (delete c (outboxes w)) w) ps.
Proof.
  intros [B1 B2 B3]. split; [done|done|].
  intros c' ob'. cbn. rewrite lookup_delete_Some. intros [_ E']. by apply B3.
Qed.

Lemma append_ok pkt now ob :
  outbox_ok ob -> dest pkt = ob_addr ob ->
  outbox_ok (append_packet pkt now ob) /\ ob_addr (append_packet pkt now ob) = ob_addr ob.
Proof.
  intros (H1 & H2 & H3) Hd. split; [|done]. unfold append_packet, maxOutboxSize in *.
  assert (Hf : Forall (fun p => dest p = ob_addr ob) (packets ob ++ [pkt])).
  { apply Forall_app. by split; [|constructor]. }
  assert (Hl : zlen (packets ob ++ [pkt]) = zlen (packets ob) + 1) by (rewrite zlen_app; done).
  pose proof (zlen_nonneg (packets ob)).
  unfold outbox_ok, maxOutboxSize. cbn [packets ob_addr]. case_if; zbool; split_and!; try done.
  - intros Hd0. apply (f_equal length) in Hd0. rewrite length_drop in Hd0. cbn in Hd0. unfold zlen in *. lia.
  - unfold zlen in *. rewrite length_drop. lia.
  - by apply Forall_drop.
  - intros Hd0. by apply app_nil in Hd0 as [_ ?].
Qed.

(** A packet joins the outbox of its channel, or opens it and wakes the goroutine. *)
Lemma push_runs o w ps c a pkt :
  inv w -> boxes_ok o w ps -> waits_for o w c a -> dest pkt = a ->
  exists w', outboxPush c a pkt w = Some (w', tt) /\ inv w' /\ boxes_ok o w' ps /\
    dom (outboxes w') = {[c]} ∪ dom (outboxes w) /\ (c ∈ dom (outboxes w) -> changed w' = changed w) /\
    (c ∉ dom (outboxes w) -> changed w' = true).
Proof.
  intros I B Hc Hd. unfold outboxPush. rewrite (e_bind (getw clock) _ w w (clock w)) by done.
  rewrite (e_bind (getw outboxes) _ w w (outboxes w)) by done.
  destruct (outboxes w !! c) as [ob|] eqn:Eo.
  - destruct (bo_box _ _ _ B _ _ Eo) as [(_ & Ho & _) Hok]. destruct Hc as (Hlt & Ho' & Hce).
    destruct (append_ok pkt (clock w) ob) as [Hok' Ea]; [done|congruence|].
    eexists. split; [done|]. split; [by apply inv_boxes|]. split.
    { apply boxes_insert; [done| |done]. rewrite Ea. split; [done|]. split; [done|].
      by replace (ob_addr ob) with a by congruence. }
    assert (Hin : c ∈ dom (outboxes w)) by by apply elem_of_dom_2 in Eo.
    split; [cbn; by rewrite dom_insert_L|]. split; [done|]. by intros [].
  - set (ob := {| packets := [pkt]; ob_addr := a; lastTS := clock w |}).
    set (w1 := with_outboxes (<[c := ob]> (outboxes w)) w).
    rewrite (e_bind (modw _) _ w w1 tt) by done.
    destruct (request_wrote a w1) as (w2 & err & E2 & Hw2). rewrite (e_bind _ _ _ _ _ E2).
    assert (Hn : c ∉ dom (outboxes w)) by by apply not_elem_of_dom.
    eexists. split; [done|]. split; [by apply inv_changed, (inv_wrote w1), inv_boxes|]. split.
    { apply (boxes_same o w2); try done. eapply boxes_wrote; [done|]. apply boxes_insert; [done|done|].
      split; [done|]. split; [done|]. by constructor. }
    destruct Hw2 as (l & r & -> & _). split; [cbn; by rewrite dom_insert_L|]. by split.
Qed.

(** The outbox of a channel is there to be taken. *)
Lemma pop_runs o w ps c :
  inv w -> boxes_ok o w ps -> c ∈ dom (outboxes w) ->
  exists w' ob hw, outboxPop c w = Some (w', (ob, hw)) /\ inv w' /\ exists o', boxes_ok o' w' ps.
Proof.
  intros I B [ob Eo]%elem_of_dom. unfold outboxPop.
  rewrite (e_bind (getw outboxes) _ w w (outboxes w)) by done. rewrite Eo.
  set (w1 := with_outboxes (delete c (outboxes w)) w). rewrite (e_bind (modw _) _ w w1 tt) by done.
  destruct (lookup_runs o w1 ps (ob_addr ob)) as
    (w2 & hw & wait & o' & E2 & I2 & B2 & Eo2 & _ & _ & _ & _ & _ & Hwait);
    [by apply inv_boxes|by apply boxes_delete|].
  rewrite (e_bind _ _ _ _ _ E2). destruct wait as [c'|]; [|by eexists _, _, _; split; [|split; [|eauto]]].
  rewrite (e_bind (getw clock) _ w2 w2 (clock w2)) by done.
  case_if; [by eexists _, _, _; split; [|split; [|eauto]]|].
  eexists _, _, _. split; [done|]. split; [by apply inv_boxes|]. exists o'. apply boxes_insert; [done|apply Hwait|].
  by apply (bo_box _ _ _ B c).
Qed.

Lemma out_wrote dst pkt w : exists w' err, Outbox.send ethernetAddr dst pkt w = Some (w', err) /\ wrote w w'.
Proof.
  unfold Outbox.send. destruct (AppleTalk ethernetAddr pkt) as [f|e|] eqn:Ea; cbn [checke].
  - apply send_wrote.
  - exists w, (Some e). split; [done|apply wrote_refl].
  - by destruct (AppleTalk_safe _ _ Ea).
Qed.

Lemma wrote_trans w1 w2 w3 : wrote w1 w2 -> wrote w2 w3 -> wrote w1 w3.
Proof.
  intros (l & r & -> & Hr) (l' & r' & -> & Hr'). exists (l ++ l'), r'. rewrite app_assoc. split; [done|].
  intros E. by apply Hr', Hr.
Qed.

Lemma send_all_wrote dst pkts w :
  exists w' go, send_all ethernetAddr dst pkts w = Some (w', go) /\ wrote w w'.
Proof.
  revert w. induction pkts as [|p pkts IH]; intros w; cbn [send_all].
  - exists w, true. split; [done|apply wrote_refl].
  - destruct (out_wrote dst p w) as (w1 & err & E1 & W1). rewrite (e_bind _ _ _ _ _ E1).
    destruct err; [by exists w1, false|]. destruct (IH w1) as (w2 & go & E2 & W2).
    exists w2, go. split; [done|by eapply wrote_trans].
Qed.

Lemma wait_runs o w ps c :
  inv w -> boxes_ok o w ps -> c ∈ dom (outboxes w) ->
  exists w' go, on_wait ethernetAddr c w = Some (w', go) /\ inv w' /\ exists o', boxes_ok o' w' ps.
Proof.
  intros I B Hc. destruct (pop_runs o w ps c I B Hc) as (w1 & ob & hw & E1 & I1 & o1 & B1).
  unfold on_wait. rewrite (e_bind _ _ _ _ _ E1). destruct ob as [ob|]; [|by eexists _, _; eauto].
  destruct (send_all_wrote hw (packets ob) w1) as (w2 & go & E2 & W2). rewrite E2.
  eexists _, _. split; [done|]. split; [by eapply inv_wrote|]. exists o1. by eapply boxes_wrote.
Qed.

Lemma resend_runs o w ps obs :
  inv w -> boxes_ok o w ps ->
  exists w' err, resend obs w = Some (w', err) /\ inv w' /\ boxes_ok o w' ps.
Proof.
  revert w. induction obs as [|[c ob] obs IH]; intros w I B; cbn [resend]; [by eexists _, _|].
  rewrite (e_bind (getw clock) _ w w (clock w)) by done. case_if.
  - eexists _, _. split; [done|]. split; [by apply inv_boxes|by apply boxes_delete].
  - destruct (request_wrote (ob_addr ob) w) as (w1 & err & E1 & W1). rewrite (e_bind _ _ _ _ _ E1).
    assert (inv w1) by (by eapply inv_wrote). assert (boxes_ok o w1 ps) by (by eapply boxes_wrote).
    destruct err; [by eexists _, _|by apply IH].
Qed.

Lemma resolve_runs o w ps :
  inv w -> boxes_ok o w ps ->
  exists w' go, on_resolve w = Some (w', go) /\ inv w' /\ boxes_ok o w' ps.
Proof.
  intros I B. destruct (resend_runs o w ps (map_range (outboxes w)) I B) as (w' & err & E1 & I1 & B1).
  unfold on_resolve, resendAARPRequests. rewrite (e_bind _ _ w w' err) by done. by eexists _, _.
Qed.

End Ops.

(** ** No packet is left behind *)

Section Safety.
Context {MO : MapOrder} `{MT : Multitalk} `{ET : Ethertalk} {EL : EthertalkLaws}.
Variable ethernetAddr : HWAddr.

Lemma boxes_pushes o w ps ps' : boxes_ok o w ps -> ps' ⊆ ps -> boxes_ok o w ps'.
Proof. intros [B1 B2 B3] H. split; [done| |done]. intros c a p Hp. by apply B2, H. Qed.

Lemma port_step_ok p p' : port_step ethernetAddr p p' -> port_ok p -> port_ok p'.
Proof.
  intros Hs [I [o B] W]. destruct Hs as
    [e w w' ps g He Ht|pkt w w' hw ch ps g Hd Hl|pkt dst w w' err ps g Hs|ch a pkt w w' ps1 ps2 g Hp|
     w ps|w w' go ps cs Hc Hg|w w' go ps cs Hne Hr|c w w' go ps cs Hc Hcl Hw]; cbn in *.
  - pose proof (turn_evolves e w w' I Ht) as Hev. split; cbn.
    + by eapply turn_inv.
    + by eapply boxes_evolve; [apply I| |].
    + destruct Hev as (w1 & _ & _ & _ & _ & Eo & Ec). unfold watched in *. by rewrite Eo, Ec.
  - destruct (lookup_runs o w ps (dest pkt) I B) as
      (w1 & hw1 & wait & o' & E1 & I1 & B1 & Eo & Ec & _ & _ & _ & _ & Hwait).
    rewrite E1 in Hl. injection Hl as <- <- ->. split; cbn; [done| |by unfold watched in *; rewrite Eo, Ec].
    exists o'. destruct B1 as [B1 B2 B3]. split; [done| |done].
    intros c a p [[= -> -> ->]|Hin]%elem_of_cons; [by split; [apply Hwait|]|by apply B2].
  - destruct (out_wrote ethernetAddr dst pkt w) as (w1 & err1 & E1 & Hw1). rewrite E1 in Hs.
    injection Hs as <- <-. split; cbn; [by eapply inv_wrote|exists o; by eapply boxes_wrote|].
    by destruct Hw1 as (l & r & -> & _).
  - destruct (bo_push _ _ _ B ch a pkt) as [Hwf Hda]; [set_solver|].
    destruct (push_runs o w (ps1 ++ (ch, a, pkt) :: ps2) ch a pkt I B Hwf Hda) as
      (w1 & E1 & I1 & B1 & Ed & Ec & En). rewrite E1 in Hp. injection Hp as <-. split; cbn; [done| |].
    + exists o. eapply boxes_pushes; [done|]. set_solver.
    + destruct g as [|cs|]; [done| |done]. destruct W as [W1 W2]. cbn. rewrite Ed. split; [set_solver|].
      destruct (decide (ch ∈ dom (outboxes w))) as [Hin|Hin]; [|right; by apply En].
      rewrite (Ec Hin). destruct W2; [left; set_solver|by right].
  - split; cbn; [done|by exists o|]. split; [done|by left].
  - injection Hg as <- <-. split; cbn; [by apply inv_changed| |done].
    exists o. by apply (boxes_same o w).
  - destruct (resolve_runs o w ps I B) as (w1 & go1 & E1 & I1 & B1). rewrite E1 in Hr.
    injection Hr as <- <-. split; cbn; [done|by exists o|by destruct go1].
  - destruct W as [W1 _]. destruct (wait_runs ethernetAddr o w ps c I B) as (w1 & go1 & E1 & I1 & B1).
    { by apply W1. }
    rewrite E1 in Hw. injection Hw as <- <-. split; cbn; [done|done|by destruct go1].
Qed.

Lemma new_port_ok start end_ now rand :
  hw_ok ethernetAddr -> valid_range start end_ -> port_ok (new_port ethernetAddr start end_ now rand).
Proof.
  intros Hh Hv. split; cbn; [by apply started_inv| |done].
  exists (fun _ => MkAddr 0 0). split; cbn; [done|set_solver|done].
Qed.

Lemma reachable_ok start end_ now rand p :
  hw_ok ethernetAddr -> valid_range start end_ ->
  rtc (port_step ethernetAddr) (new_port ethernetAddr start end_ now rand) p -> port_ok p.
Proof.
  intros Hh Hv H. remember (new_port ethernetAddr start end_ now rand) as p0 eqn:E0.
  assert (H0 : port_ok p0) by (subst; by apply new_port_ok). clear E0.
  induction H as [|p0 p1 p2 Hs _ IH]; [done|]. apply IH. by eapply port_step_ok.
Qed.


End Safety.

(** ** Delivery *)

Section Delivery.
Context {MO : MapOrder} `{MT : Multitalk} `{ET : Ethertalk} {EL : EthertalkLaws}.
Variable ethernetAddr : HWAddr.

(** The bytes of a frame, of a data packet to [dst], of an AARP request. *)
Definition frame_raw (f : res Frame) : option (list Z) :=
  match f with
  | Ok f => match EthMarshal f with Ok raw => Some (pad_frame raw) | _ => None end
  | _ => None
  end.
Definition data_raw (dst : HWAddr) (pkt : ExtPacket) : option (list Z) :=
  match AppleTalk ethernetAddr pkt with Ok f => frame_raw (Ok (with_FrameDst dst f)) | _ => None end.
Definition request_raw (m : AddrPair) (a : Addr) : option (list Z) :=
  frame_raw (AARP (Hardware m) (Request m a)).

Lemma data_sends dst pkt raw w :
  writes w = [] -> data_raw dst pkt = Some raw ->
  Outbox.send ethernetAddr dst pkt w = Some (with_written (written w ++ [raw]) [] w, None).
Proof.
  intros Hw. unfold data_raw, Outbox.send. destruct (AppleTalk _ _) as [f| |]; [|done..]. cbn [checke frame_raw].
  unfold Aarp.send. destruct (EthMarshal _) as [r| |]; [|done..]. intros [= <-]. cbn [checke].
  unfold WritePacketData. by rewrite Hw.
Qed.

Lemma request_sends a raw w :
  writes w = [] -> request_raw (myAddr (machine w)) a = Some raw ->
  request a w = Some (with_written (written w ++ [raw]) [] w, None).
Proof.
  intros Hw. unfold request_raw, request. rewrite (e_bind (getw machine) _ w w (machine w)) by done.
  destruct (AARP _ _) as [f| |]; [|done..]. cbn [checke frame_raw].
  unfold Aarp.send. destruct (EthMarshal _) as [r| |]; [|done..]. intros [= <-]. cbn [checke].
  unfold WritePacketData. by rewrite Hw.
Qed.

Lemma send_all_sends dst pkts raws w :
  writes w = [] -> mapM (data_raw dst) pkts = Some raws ->
  send_all ethernetAddr dst pkts w = Some (with_written (written w ++ raws) [] w, true).
Proof.
  revert raws w. induction pkts as [|p pkts IH]; intros raws w Hw H; cbn [send_all].
  - injection H as <-. rewrite app_nil_r. rewrite <- Hw. by destruct w.
  - apply mapM_Some in H. inversion H as [|? raw ? raws' Hp Hps]; subst. apply mapM_Some in Hps.
    rewrite (e_bind _ _ _ _ _ (data_sends dst p raw w Hw Hp)).
    rewrite (IH raws') by done. cbn. by rewrite <- app_assoc.
Qed.

(** A sender's packets, one [Send] each. *)
Fixpoint send_each (pkts : list ExtPacket) : E unit :=
  match pkts with [] => mret tt | p :: pkts => _ ← Send ethernetAddr p; send_each pkts end.

Definition last_packets (l : list ExtPacket) : list ExtPacket :=
  drop (Z.to_nat (zlen l - maxOutboxSize)) l.

Lemma last_packets_app l p now ob :
  packets ob = last_packets l -> packets (append_packet p now ob) = last_packets (l ++ [p]).
Proof.
  intros E1. unfold append_packet. cbn [packets]. rewrite E1. unfold last_packets.
  set (k := Z.to_nat (zlen l - maxOutboxSize)).
  assert (Hk : zlen (drop k l ++ [p]) = Z.min (zlen l) maxOutboxSize + 1).
  { rewrite zlen_app. unfold zlen in *. rewrite length_drop. unfold maxOutboxSize in *. cbn. lia. }
  rewrite Hk, zlen_app. change (zlen [p]) with 1. pose proof (zlen_nonneg l).
  replace (drop k l ++ [p]) with (drop k (l ++ [p])).
  2: { rewrite drop_app_le; [done|]. subst k. unfold zlen, maxOutboxSize in *. lia. }
  unfold maxOutboxSize in *. case_if; zbool.
  - rewrite drop_drop. f_equal. lia.
  - f_equal. lia.
Qed.

(** While the address is unresolved, each packet joins the outbox. *)
Lemma send_joins p c e ob w :
  etherTalkBroadcastNode (DstNode p) = false -> amt w !! dest p = Some e ->
  Valid (clock w) e = false -> updated e = c -> outboxes w !! c = Some ob ->
  Send ethernetAddr p w = Some (with_outboxes (<[c := append_packet p (clock w) ob]> (outboxes w)) w, None).
Proof.
  intros Hn Ea Hv <- Eo. unfold Send. rewrite Hn.
  erewrite (e_bind (lookupOrWait _) _ w w (e_HWAddr e, Some (updated e))).
  2: { unfold lookupOrWait. rewrite (e_bind (getw amt) _ w w (amt w)) by done.
       rewrite (e_bind (getw clock) _ w w (clock w)) by done. fold (dest p). by rewrite Ea, Hv. }
  cbv beta iota. unfold outboxPush, mbind, E_bind, getw. by rewrite Eo.
Qed.

Lemma sends_join a pkts l c e ob w :
  Forall (fun p => dest p = a) pkts -> etherTalkBroadcastNode (a_Node a) = false ->
  amt w !! a = Some e -> Valid (clock w) e = false -> updated e = c -> outboxes w !! c = Some ob ->
  packets ob = last_packets l -> inv w ->
  exists w' ob', send_each pkts w = Some (w', tt) /\ outboxes w' !! c = Some ob' /\
    packets ob' = last_packets (l ++ pkts) /\ ob_addr ob' = ob_addr ob /\
    amt w' = amt w /\ writes w' = writes w /\ clock w' = clock w /\ inv w'.
Proof.
  intros Hd Hn. revert l ob w. induction Hd as [|p pkts Hp _ IH]; intros l ob w Ea Hv Hc Eo El I.
  - exists w, ob. rewrite app_nil_r. by split_and!.
  - cbn [send_each]. assert (Hp' : DstNode p = a_Node a) by (by rewrite <- Hp).
    erewrite e_bind; [|eapply (send_joins p c e ob w); [by rewrite Hp'|by rewrite Hp|done..]].
    set (w1 := with_outboxes _ w).
    destruct (IH (l ++ [p]) (append_packet p (clock w) ob) w1) as (w' & ob' & E1 & E2 & E3 & E4 & E5 & E6 & E7 & E8);
      [done|done|done|cbn; by rewrite lookup_insert_eq|by apply last_packets_app|by apply inv_boxes|].
    exists w', ob'. by rewrite <- app_assoc in E3.
Qed.

(** Nobody has answered for [a], and no packet for it waits. *)
Definition unresolved (w : EW) (a : Addr) : Prop :=
  match amt w !! a with
  | Some e => Valid (clock w) e = false /\ outboxes w !! updated e = None
  | None => True
  end.

Lemma lookup_waits o w ps a :
  inv w -> boxes_ok o w ps -> unresolved w a ->
  exists w1 hw e, lookupOrWait a w = Some (w1, (hw, Some (updated e))) /\
    amt w1 !! a = Some e /\ Valid (clock w) e = false /\ outboxes w !! updated e = None.
Proof.
  intros I B Hu. unfold unresolved, lookupOrWait in *.
  rewrite (e_bind (getw amt) _ w w (amt w)) by done. rewrite (e_bind (getw clock) _ w w (clock w)) by done.
  destruct (amt w !! a) as [e|] eqn:Ea.
  - destruct Hu as [Hv Ho]. rewrite Hv. cbn [negb]. by exists w, (e_HWAddr e), e.
  - set (e := {| e_HWAddr := noHWAddr; LastUpdated := None; updated := next_chan w |}).
    eexists _, _, e. split; [reflexivity|]. split; [cbn; by rewrite lookup_insert_eq|]. split; [done|].
    destruct (outboxes w !! updated e) as [ob|] eqn:Eo; [|done]. exfalso.
    destruct (bo_box _ _ _ B _ _ Eo) as [(Hlt & _) _]. cbn in Hlt. lia.
Qed.

(** The first packet opens an outbox. *)
Lemma send_opens o w ps p :
  inv w -> boxes_ok o w ps -> unresolved w (dest p) -> etherTalkBroadcastNode (DstNode p) = false ->
  writes w = [] ->
  exists w1 e ob, Send ethernetAddr p w = Some (w1, None) /\ inv w1 /\ amt w1 !! dest p = Some e /\
    Valid (clock w1) e = false /\ outboxes w1 !! updated e = Some ob /\ packets ob = [p] /\
    ob_addr ob = dest p /\ writes w1 = [].
Proof.
  intros I B Hu Hn Hw. destruct (lookup_waits o w ps (dest p) I B Hu) as (w1 & hw & e & E1 & Ea & Hv & Ho).
  destruct (lookup_runs o w ps (dest p) I B) as (w1' & hw' & wait & o1 & E1' & I1 & B1 & Eo & _ & _ & Ec & _ & Ew & Hwf).
  rewrite E1 in E1'. injection E1' as <- <- <-. destruct Hwf as [Hwf _].
  set (ob := {| packets := [p]; ob_addr := dest p; lastTS := clock w1 |}).
  set (w2 := with_outboxes (<[updated e := ob]> (outboxes w1)) w1).
  destruct (request_wrote (dest p) w2) as (w3 & err & E3 & W3).
  assert (Er : outboxPush (updated e) (dest p) p w1 = Some (with_changed true w3, tt)).
  { unfold outboxPush. rewrite (e_bind (getw clock) _ w1 w1 (clock w1)) by done.
    rewrite (e_bind (getw outboxes) _ w1 w1 (outboxes w1)) by done. rewrite Eo, Ho.
    rewrite (e_bind (modw _) _ w1 w2 tt) by reflexivity. by rewrite (e_bind _ _ _ _ _ E3). }
  exists (with_changed true w3), e, ob. split.
  { unfold Send. rewrite Hn. fold (dest p). rewrite (e_bind _ _ _ _ _ E1). cbv beta iota.
    by rewrite (e_bind _ _ _ _ _ Er). }
  assert (I2 : inv w2) by by apply inv_boxes. pose proof (inv_wrote _ _ W3 I2) as I3.
  destruct W3 as (l & r & -> & Hr). split; [by apply inv_changed|]. split; [done|].
  split; [cbn; by rewrite Ec|]. split; [cbn; by rewrite lookup_insert_eq|]. split; [done|]. split; [done|].
  apply Hr. cbn. by rewrite Ew.
Qed.

(** Packets that had to wait are delivered in order.  In any reachable
    state, packets sent to an unresolved address are accepted and kept in one
    outbox, the last thousand of them; when the address is learnt the outbox is
    woken, and the goroutine then writes exactly those packets, in the order
    they were sent, to the hardware address that was learnt, and forgets them. *)
Theorem outbox_delivers (start end_ now : Z) (rand : list Z) (p : PortState) (pkt : ExtPacket)
    (pkts : list ExtPacket) (hw : HWAddr) (raws : list (list Z)) :
  hw_ok ethernetAddr -> valid_range start end_ ->
  rtc (port_step ethernetAddr) (new_port ethernetAddr start end_ now rand) p ->
  let w := world p in let a := dest pkt in
  unresolved w a -> etherTalkBroadcastNode (a_Node a) = false -> writes w = [] ->
  Forall (fun q => dest q = a) pkts ->
  mapM (data_raw hw) (last_packets (pkt :: pkts)) = Some raws ->
  exists w1 c ob w2 w3,
    send_each (pkt :: pkts) w = Some (w1, tt) /\
    outboxes w1 !! c = Some ob /\ packets ob = last_packets (pkt :: pkts) /\
    learn a hw w1 = Some (w2, tt) /\ c ∈ closed w2 /\
    on_wait ethernetAddr c w2 = Some (w3, true) /\
    written w3 = written w2 ++ raws /\ outboxes w3 !! c = None.
Proof.
  intros Hh Hv H w a Hu Hn Hw Hd Hraws. destruct (reachable_ok ethernetAddr start end_ now rand p Hh Hv H) as [I [o B] _].
  destruct (send_opens o w (pushes p) pkt I B Hu Hn Hw) as (w0 & e & ob0 & E0 & I0 & Ea & Hval & Eo & Ep & Eob & Ew0).
  destruct (sends_join a pkts [pkt] (updated e) e ob0 w0) as (w1 & ob & E1 & Eo1 & Ep1 & Ed1 & Ea1 & Ew1 & Ec1 & I1);
    try done.
  exists w1, (updated e), ob, (learnt a hw w1). change (amt w0 !! a = Some e) in Ea.
  pose proof (inv_chans _ I1) as C1. pose proof (learn_runs a hw w1 C1) as El.
  set (w2 := learnt a hw w1) in *.
  assert (Epop : outboxPop (updated e) w2 =
                 Some (with_outboxes (delete (updated e) (outboxes w1)) w2, (Some ob, hw))).
  { unfold outboxPop. rewrite (e_bind (getw outboxes) _ w2 w2 (outboxes w1)) by done. rewrite Eo1.
    rewrite (e_bind (modw _) _ w2 (with_outboxes (delete (updated e) (outboxes w1)) w2) tt) by done.
    rewrite Ed1, Eob. unfold lookupOrWait, mbind, E_bind, getw. cbn.
    rewrite lookup_insert_eq. cbn. replace (clock w1 - clock w1) with 0 by lia. done. }
  eexists. split; [cbn [send_each]; by rewrite (e_bind _ _ _ _ _ E0)|]. split; [done|]. split; [done|].
  split; [done|]. split; [subst w2; unfold learnt; cbn; rewrite Ea1, Ea; set_solver|]. split.
  - unfold on_wait. rewrite (e_bind _ _ _ _ _ Epop). cbv beta iota. rewrite Ep1.
    apply (send_all_sends hw _ raws); [|done]. cbn. by rewrite Ew1.
  - split; [done|]. cbn. by rewrite lookup_delete_eq.
Qed.

(** ** Retransmission *)

Lemma resend_prefix (w : EW) pre post c ob raws :
  Forall (fun cb => clock w - lastTS cb.2 <= outboxTimeout) pre ->
  outboxTimeout < clock w - lastTS ob -> writes w = [] ->
  mapM (fun cb : chan * outbox => request_raw (myAddr (machine w)) (ob_addr cb.2)) pre = Some raws ->
  resend (pre ++ (c, ob) :: post) w =
    Some (with_outboxes (delete c (outboxes w)) (with_written (written w ++ raws) [] w), None).
Proof.
  revert w raws. induction pre as [|[c' ob'] pre IH]; intros w raws Hpre Hs Hw Hraws; cbn [app resend];
    rewrite (e_bind (getw clock) _ w w (clock w)) by done.
  - injection Hraws as <-. zdec. rewrite app_nil_r, <- Hw. by destruct w.
  - apply Forall_cons in Hpre as [Hf Hpre]. cbn in Hf. zdec.
    apply mapM_Some in Hraws. inversion Hraws as [|? raw ? raws' Hr Hrs]; subst. apply mapM_Some in Hrs.
    rewrite (e_bind _ _ _ _ _ (request_sends (ob_addr ob') raw w Hw Hr)).
    rewrite (IH _ raws') by done. cbn. by rewrite <- app_assoc.
Qed.

(** One stale outbox silences the retransmission of the others.  The comment
    says that requests are retransmitted for every remaining outbox; the code
    returns after the first stale outbox it meets, so that nothing is requested
    for the outboxes that the range over the map would have reached later. *)
Theorem resend_stops_at_stale (w : EW) (pre post : list (chan * outbox)) (c : chan) (ob : outbox)
    (raws : list (list Z)) :
  map_range (outboxes w) = pre ++ (c, ob) :: post ->
  Forall (fun cb => clock w - lastTS cb.2 <= outboxTimeout) pre ->
  outboxTimeout < clock w - lastTS ob -> writes w = [] ->
  mapM (fun cb => request_raw (myAddr (machine w)) (ob_addr cb.2)) pre = Some raws ->
  on_resolve w =
    Some (with_outboxes (delete c (outboxes w)) (with_written (written w ++ raws) [] w), true).
Proof.
  intros Hm Hpre Hs Hw Hraws. unfold on_resolve, resendAARPRequests.
  assert (E1 : (obs ← getw outboxes; resend (map_range obs)) w = resend (map_range (outboxes w)) w) by done.
  rewrite Hm, (resend_prefix w pre post c ob raws Hpre Hs Hw Hraws) in E1. by rewrite (e_bind _ _ _ _ _ E1).
Qed.
End Delivery.

(** ** Concrete runs *)

#[local] Existing Instance wire_multitalk.
#[local] Existing Instance ascending_order.

(** A packet for 3.9, and a second one, while nothing is known about that node. *)
Definition wit_pkt (x : Z) : ExtPacket := originate (MkAddr 3 7) 1 3 9 4 ProtoAEP [x].
Definition wit_new : PortState := new_port wit_hw 3 5 0 [].
Definition wit_looked : EW :=
  match lookupOrWait (MkAddr 3 9) (world wit_new) with Some (w, _) => w | None => world wit_new end.
Definition wit_pushed : EW :=
  match outboxPush 2 (MkAddr 3 9) (wit_pkt 1) wit_looked with Some (w, _) => w | None => wit_looked end.
Definition wit_port : PortState := MkPort wit_pushed [] Building.
Definition wit_box : outbox := {| packets := [wit_pkt 1]; ob_addr := MkAddr 3 9; lastTS := 0 |}.

Lemma wit_port_reachable : rtc (port_step wit_hw) wit_new wit_port.
Proof.
  eapply rtc_l; [apply (step_lookup wit_hw (wit_pkt 1) (world wit_new) wit_looked noHWAddr 2 []);
                 vm_compute; reflexivity|].
  apply rtc_once. apply (step_push wit_hw 2 (MkAddr 3 9) (wit_pkt 1) wit_looked wit_pushed [] []).
  vm_compute; reflexivity.
Qed.


Definition wit_dst : HWAddr := [2; 0; 0; 0; 0; 9].

Example outbox_delivers_witness :
  let raws := default [] (mapM (data_raw wit_hw wit_dst) [wit_pkt 1; wit_pkt 2]) in
  zlen raws = 2 /\
  exists w1 c ob w2 w3,
    send_each wit_hw [wit_pkt 1; wit_pkt 2] (world wit_new) = Some (w1, tt) /\
    outboxes w1 !! c = Some ob /\ packets ob = last_packets [wit_pkt 1; wit_pkt 2] /\
    learn (dest (wit_pkt 1)) wit_dst w1 = Some (w2, tt) /\ c ∈ closed w2 /\
    on_wait wit_hw c w2 = Some (w3, true) /\
    written w3 = written w2 ++ raws /\ outboxes w3 !! c = None.
Proof.
  intros raws. split; [vm_compute; reflexivity|].
  apply (outbox_delivers wit_hw 3 5 0 [] wit_new (wit_pkt 1) [wit_pkt 2] wit_dst raws).
  - exact wit_hw_ok.
  - done.
  - apply rtc_refl.
  - exact I.
  - reflexivity.
  - reflexivity.
  - repeat constructor.
  - vm_compute; reflexivity.
Defined.

(** An outbox for 3.9 that is 12 seconds old, and a new one for 3.10: no request
    for 3.10 goes out. *)
Definition wit_stale : EW :=
  with_clock (12 * Second) (with_outboxes
    {[ 3 := wit_box;
       2 := {| packets := [wit_pkt 2]; ob_addr := MkAddr 3 10; lastTS := 12 * Second |} ]} (world wit_new)).

Example resend_stops_at_stale_witness :
  exists pre post, map_range (outboxes wit_stale) = pre ++ (3, wit_box) :: post /\ zlen post = 1 /\
  on_resolve wit_stale =
    Some (with_outboxes (delete 3 (outboxes wit_stale)) (with_written (written wit_stale ++ []) [] wit_stale), true).
Proof.
  exists [], [(2, {| packets := [wit_pkt 2]; ob_addr := MkAddr 3 10; lastTS := 12 * Second |})].
  split; [vm_compute; reflexivity|]. split; [reflexivity|].
  apply (resend_stops_at_stale wit_stale []
    [(2, {| packets := [wit_pkt 2]; ob_addr := MkAddr 3 10; lastTS := 12 * Second |})] 3 wit_box []).
  - vm_compute; reflexivity.
  - constructor.
  - reflexivity.
  - reflexivity.
  - reflexivity.
Defined.
