(* ===== verification/LoopProbe.v ===== *)
(** * Routing-loop investigation ([router/aurp_loop.go])

    When a network learned from a peer looks like one of our own, the router
    sends loop probes to it through the peer's tunnel.  A probe that comes back
    on the local port confirms the loop.  The two maps of the router under
    [loopProbeMu] are a [LoopProbes]; the goroutine [runLoopInvestigation] is a
    program counter ([Phase]) with one step per access to the maps or to the
    network, so everything else may happen between its steps.  [time.Sleep] and
    the log lines are left out: any delay is a schedule. *)
From S2P Require Import Prelude Wtacc AurpHeaders AurpTuples PeerPolicy GoSort RouteTable.
From S2P Require Import AtalkNbp Atalk AtalkRtmp.
Import RT DDP.

Module Loop.

Definition loopProbeAttempts : Z := 4.

(** [port] is the device of the port, [peer] the tunnel of the peer. *)
Record loopProbeInvestigation := MkInv {
  key : list Z; token : list Z; peer : list Z; port : list Z; remote : Route; local : Route }.

Record LoopProbes := MkProbes {
  loopProbes : gmap (list Z) loopProbeInvestigation;
  loopProbeByKey : gmap (list Z) (list Z) }.

(** [binary.BigEndian.PutUint64]. *)
Definition put64 (x : Z) : list Z :=
  map (fun k => wrap8 (Z.shiftr x k)) [56; 48; 40; 32; 24; 16; 8; 0].

(** The clock and the counter after [loopProbeNonce.Add(1)]. *)
Definition newLoopProbeToken (now nonce : Z) : list Z := put64 now ++ put64 nonce.

Definition loopProbeDestination (localAddr : Addr) (local remote : Route) : res Z :=
  if (a_Network localAddr <? NetStart (rkey local)) || (NetEnd local <? a_Network localAddr) then
    Err (Errorf "local probe address %d outside route %d-%d"
           [AInt (a_Network localAddr); AInt (NetStart (rkey local)); AInt (NetEnd local)])
  else
    let offset := a_Network localAddr - NetStart (rkey local) in
    let dst := NetStart (rkey remote) + offset in
    if NetEnd remote <? dst then
      Err (Errorf "probe mapping %d exceeds remote route %d-%d"
             [AInt dst; AInt (NetStart (rkey remote)); AInt (NetEnd remote)])
    else Ok (wrap16 dst).

Definition buildLoopProbePacket `{Multitalk} (localAddr : Addr) (local remote : Route)
    (token : list Z) : res ExtPacket :=
  dstNet ← loopProbeDestination localAddr local remote;
  body ← RTMP.RequestPacket_Marshal (RTMP.MkRequest RTMP.FunctionLoopProbe token);
  Ok (originate localAddr 1 dstNet (a_Node localAddr) 1 ProtoRTMPReq body).

(** ** The maps *)

(** The key of an investigation: tunnel and start of the remote range. *)
Definition probe_key (tunnelID : list Z) (remote : Route) : list Z :=
  tunnelID ++ str "|" ++ decimal (NetStart (rkey remote)).

(** Where [runLoopInvestigation] stands: before the test of attempt [k], between
    the test and the probe, before the last test, before retiring. *)
Inductive Phase := Check (k : Z) | Send (k : Z) | FinalCheck | Retire | Done.

Record Run := MkRun { inv : loopProbeInvestigation; addr : Addr; phase : Phase }.

(** [addr] is what [port.aarpMachine.Address] answers for a port.  The result is
    the goroutine started, if any. *)
Definition startLoopInvestigation (loopDisabled : bool) (tunnelID : list Z)
    (address : list Z -> option Addr) (now nonce : Z) (remote local : Route) (s : LoopProbes) :
    LoopProbes * Z * option Run :=
  if loopDisabled then (s, nonce, None)
  else
    match Target local with
    | Some (EtherTalkPort dev) =>
        match address dev with
        | None => (s, nonce, None)
        | Some a =>
            let k := probe_key tunnelID remote in
            let nonce := nonce + 1 in
            let tok := newLoopProbeToken now nonce in
            let i := MkInv k tok tunnelID dev remote local in
            match loopProbeByKey s !! k with
            | Some _ => (s, nonce, None)
            | None =>
                (MkProbes (<[tok := i]> (loopProbes s)) (<[k := tok]> (loopProbeByKey s)), nonce,
                 Some (MkRun i a (Check 0)))
            end
        end
    | _ => (s, nonce, None)
    end.

(** A missing entry is the empty string; a token never is. *)
Definition loopInvestigationActive (i : loopProbeInvestigation) (s : LoopProbes) : bool :=
  bool_decide (default [] (loopProbeByKey s !! key i) = token i).

Definition retireLoopInvestigation (i : loopProbeInvestigation) (s : LoopProbes) : LoopProbes :=
  let byKey := if bool_decide (default [] (loopProbeByKey s !! key i) = token i)
               then delete (key i) (loopProbeByKey s) else loopProbeByKey s in
  MkProbes (delete (token i) (loopProbes s)) byKey.

(** One step of [runLoopInvestigation]: the new phase, the maps, and the probe
    handed to the peer's [Forward]. *)
Definition runLoopInvestigation `{Multitalk} (r : Run) (s : LoopProbes) :
    Phase * LoopProbes * option ExtPacket :=
  let i := inv r in
  match phase r with
  | Check k =>
      if k <? loopProbeAttempts then
        if loopInvestigationActive i s then (Send k, s, None) else (Done, s, None)
      else (FinalCheck, s, None)
  | Send k =>
      match buildLoopProbePacket (addr r) (local i) (remote i) (token i) with
      | Ok pkt => (Check (k + 1), s, Some pkt)
      | _ => (FinalCheck, s, None)
      end
  | FinalCheck => if loopInvestigationActive i s then (Retire, s, None) else (Done, s, None)
  | Retire => (Done, retireLoopInvestigation i s, None)
  | Done => (Done, s, None)
  end.

(** The investigation a returned probe confirms: the code counts it for the peer
    and signals [loopDetectedCh]. *)
Definition handleLoopProbeReturn (dev token : list Z) (s : LoopProbes) :
    LoopProbes * option loopProbeInvestigation :=
  if bool_decide (token = []) then (s, None)
  else
    match loopProbes s !! token with
    | None => (s, None)
    | Some i =>
        if negb (bool_decide (port i = dev)) then (s, None)
        else (MkProbes (delete token (loopProbes s)) (delete (key i) (loopProbeByKey s)), Some i)
    end.

(** ** All goroutines together *)

Record System := MkSystem {
  maps : LoopProbes; loopProbeNonce : Z; runs : list Run;
  probes_sent : list (list Z * ExtPacket);  (* the token of the investigation and the probe *)
  confirmed : list loopProbeInvestigation }.

Definition no_probes : System := MkSystem (MkProbes ∅ ∅) 0 [] [] [].

Section System.
Context `{MT : Multitalk}.

Inductive loop_step : System -> System -> Prop :=
| ls_start s disabled tunnelID address now remote local m n r :
    startLoopInvestigation disabled tunnelID address now (loopProbeNonce s) remote local (maps s)
      = (m, n, r) ->
    loop_step s (MkSystem m n (runs s ++ match r with Some r => [r] | None => [] end)
                   (probes_sent s) (confirmed s))
| ls_run s k r ph m out :
    runs s !! k = Some r -> runLoopInvestigation r (maps s) = (ph, m, out) ->
    loop_step s (MkSystem m (loopProbeNonce s)
      (<[k := MkRun (inv r) (addr r) ph]> (runs s))
      (probes_sent s ++ match out with Some p => [(token (inv r), p)] | None => [] end)
      (confirmed s))
| ls_return s dev tok m c :
    handleLoopProbeReturn dev tok (maps s) = (m, c) ->
    loop_step s (MkSystem m (loopProbeNonce s) (runs s) (probes_sent s)
                   (confirmed s ++ match c with Some i => [i] | None => [] end)).

End System.
End Loop.

Import Loop.

(** * Lemmas *)

Section Lemmas.
Context `{MT : Multitalk}.

Lemma put64_length x : length (put64 x) = 8%nat.
Proof. reflexivity. Qed.

Lemma token_nonempty now n : newLoopProbeToken now n <> [].
Proof. done. Qed.

Lemma wrap8_shift x k : 0 <= k -> wrap8 (Z.shiftr x k) = (x / 2 ^ k) mod 256.
Proof. intros. unfold wrap8. by rewrite Z.shiftr_div_pow2. Qed.

Lemma put64_inj x y : 0 <= x < 2 ^ 64 -> 0 <= y < 2 ^ 64 -> put64 x = put64 y -> x = y.
Proof.
  intros Hx Hy E. unfold put64 in E. cbn [map] in E. rewrite !wrap8_shift in E by lia.
  injection E as E7 E6 E5 E4 E3 E2 E1 E0.
  assert (S : forall z, 0 <= z < 2 ^ 64 -> z =
    256 * (256 * (256 * (256 * (256 * (256 * (256 * ((z / 2^56) mod 256) + (z / 2^48) mod 256)
      + (z / 2^40) mod 256) + (z / 2^32) mod 256) + (z / 2^24) mod 256) + (z / 2^16) mod 256)
      + (z / 2^8) mod 256) + (z / 2^0) mod 256).
  { intros z Hz. Z.div_mod_to_equations. lia. }
  rewrite (S x Hx), (S y Hy). by rewrite E7, E6, E5, E4, E3, E2, E1, E0.
Qed.

Lemma token_inj now n now' n' :
  0 <= n < 2 ^ 64 -> 0 <= n' < 2 ^ 64 ->
  newLoopProbeToken now n = newLoopProbeToken now' n' -> n = n'.
Proof.
  intros Hn Hn' E. apply app_inj_1 in E as [_ E]; [|done]. by apply put64_inj.
Qed.

(** ** The invariant *)

Definition run_token (r : Run) : list Z := token (inv r).

(** The probes of an investigation. *)
Definition probes_of (t : list Z) (sent : list (list Z * ExtPacket)) : list (list Z * ExtPacket) :=
  filter (fun e => e.1 = t) sent.

(** The attempts made at each point of the goroutine. *)
Definition attempts_ok (r : Run) (sent : list (list Z * ExtPacket)) : Prop :=
  let n := zlen (probes_of (run_token r) sent) in
  match phase r with
  | Check k => n = k /\ 0 <= k <= loopProbeAttempts
  | Send k => n = k /\ 0 <= k < loopProbeAttempts
  | _ => n <= loopProbeAttempts
  end.

(** The two maps are inverse to each other. *)
Definition maps_ok (m : LoopProbes) : Prop :=
  (forall t i, loopProbes m !! t = Some i -> token i = t /\ loopProbeByKey m !! key i = Some t) /\
  (forall k t, loopProbeByKey m !! k = Some t -> exists i, loopProbes m !! t = Some i /\ key i = k).

(** A goroutine that is not done looks after every active investigation. *)
Definition attended (s : System) : Prop :=
  forall t i, loopProbes (maps s) !! t = Some i ->
    exists r, r ∈ runs s /\ inv r = i /\ phase r <> Done.

Definition fresh_tokens (s : System) : Prop :=
  NoDup (map run_token (runs s)) /\
  forall r, r ∈ runs s -> exists now n, run_token r = newLoopProbeToken now n /\ 0 < n <= loopProbeNonce s.

Definition probes_ok (s : System) : Prop :=
  (forall r, r ∈ runs s -> attempts_ok r (probes_sent s)) /\
  (forall t p, (t, p) ∈ probes_sent s -> exists r, r ∈ runs s /\ run_token r = t /\
     buildLoopProbePacket (addr r) (local (inv r)) (remote (inv r)) t = Ok p).

Definition confirmations_ok (s : System) : Prop :=
  NoDup (map token (confirmed s)) /\
  forall i, i ∈ confirmed s -> loopProbes (maps s) !! token i = None /\ exists r, r ∈ runs s /\ inv r = i.

Definition loop_inv (s : System) : Prop :=
  0 <= loopProbeNonce s /\ maps_ok (maps s) /\ attended s /\ fresh_tokens s /\ probes_ok s /\
  confirmations_ok s.

Lemma loop_inv_init : loop_inv no_probes.
Proof.
  split; [done|]. split; [split; intros ? ? H; cbn in H; by rewrite lookup_empty in H|].
  split; [intros ? ? H; cbn in H; by rewrite lookup_empty in H|].
  split; [split; [constructor|intros r H; by apply elem_of_nil in H]|].
  split; [split; intros * H; by apply elem_of_nil in H|].
  split; [constructor|intros i H; by apply elem_of_nil in H].
Qed.

Lemma active_iff i s :
  token i <> [] -> loopInvestigationActive i s = true <-> loopProbeByKey s !! key i = Some (token i).
Proof.
  intros Ht. unfold loopInvestigationActive. rewrite bool_decide_eq_true.
  destruct (loopProbeByKey s !! key i) as [t|]; simpl; split; congruence.
Qed.

(** Removing an investigation from both maps. *)
Lemma maps_ok_delete m i :
  maps_ok m -> loopProbes m !! token i = Some i ->
  maps_ok (MkProbes (delete (token i) (loopProbes m)) (delete (key i) (loopProbeByKey m))).
Proof.
  intros [H1 H2] Hi. destruct (H1 _ _ Hi) as [_ Hk]. split; cbn.
  - intros t j (Ht & Hj)%lookup_delete_Some. destruct (H1 _ _ Hj) as [Et Ek].
    split; [done|]. rewrite lookup_delete_ne; [done|]. intros E. rewrite E in Hk. congruence.
  - intros k t (Hne & Hkt)%lookup_delete_Some. destruct (H2 _ _ Hkt) as (j & Hj & Ej).
    exists j. split; [|done]. rewrite lookup_delete_ne; [done|]. intros E. subst t.
    rewrite Hi in Hj. congruence.
Qed.

Lemma maps_ok_insert m i :
  maps_ok m -> loopProbes m !! token i = None -> loopProbeByKey m !! key i = None ->
  maps_ok (MkProbes (<[token i := i]> (loopProbes m)) (<[key i := token i]> (loopProbeByKey m))).
Proof.
  intros [H1 H2] Ht Hk. split; cbn.
  - intros t j [[<- <-]|[Hne Hj]]%lookup_insert_Some; [by rewrite lookup_insert_eq|].
    destruct (H1 _ _ Hj) as [Et Ek]. split; [done|]. rewrite lookup_insert_ne; [done|].
    intros E. rewrite E in Hk. congruence.
  - intros k t [[<- <-]|[Hne Hkt]]%lookup_insert_Some; [exists i; by rewrite lookup_insert_eq|].
    destruct (H2 _ _ Hkt) as (j & Hj & Ej). exists j. split; [|done].
    rewrite lookup_insert_ne; [done|]. intros E. subst t. congruence.
Qed.

Lemma retire_maps i m :
  token i <> [] -> maps_ok m -> (forall j, loopProbes m !! token i = Some j -> j = i) ->
  maps_ok (retireLoopInvestigation i m) /\
  loopProbes (retireLoopInvestigation i m) = delete (token i) (loopProbes m).
Proof.
  intros Hne Hm Hj. split; [|done]. unfold retireLoopInvestigation.
  destruct (loopProbes m !! token i) as [j|] eqn:E.
  - rewrite (Hj j eq_refl) in E. destruct Hm as [H1 H2]. destruct (H1 _ _ E) as [_ Hk].
    rewrite Hk, bool_decide_true by done. by apply maps_ok_delete.
  - rewrite delete_id by done. case_bool_decide as Hb; [|by destruct m].
    destruct (loopProbeByKey m !! key i) as [t|] eqn:Ek; simpl in Hb; [|exfalso; by apply Hne].
    subst t. destruct Hm as [_ H2]. destruct (H2 _ _ Ek) as (j & Hj' & _). congruence.
Qed.

(** *** Starting *)

Lemma probes_of_none t sent :
  (forall p, (t, p) ∉ sent) -> probes_of t sent = [].
Proof.
  intros H. unfold probes_of. induction sent as [|[t' p] sent IH]; [done|]. rewrite filter_cons. cbn [fst].
  case_decide as Ht; [exfalso; apply (H p); rewrite <- Ht; apply list_elem_of_here|].
  apply IH. intros q Hq. apply (H q). by apply list_elem_of_further.
Qed.

Lemma fresh_token s now :
  fresh_tokens s -> 0 <= loopProbeNonce s -> loopProbeNonce s + 1 < 2 ^ 64 ->
  forall r, r ∈ runs s -> run_token r <> newLoopProbeToken now (loopProbeNonce s + 1).
Proof.
  intros [_ Hf] H0 Hb r Hr E. destruct (Hf r Hr) as (now' & n & Et & Hn). rewrite E in Et.
  apply token_inj in Et; lia.
Qed.

Lemma step_start s i a now :
  loop_inv s -> loopProbeNonce s + 1 < 2 ^ 64 ->
  token i = newLoopProbeToken now (loopProbeNonce s + 1) -> loopProbeByKey (maps s) !! key i = None ->
  loop_inv (MkSystem
    (MkProbes (<[token i := i]> (loopProbes (maps s))) (<[key i := token i]> (loopProbeByKey (maps s))))
    (loopProbeNonce s + 1) (runs s ++ [MkRun i a (Check 0)]) (probes_sent s) (confirmed s)).
Proof.
  intros (H0 & Hm & Ha & Hf & [Hp1 Hp2] & [Hc1 Hc2]) Hb Hi Hk.
  pose proof (fresh_token s now Hf H0 Hb) as Hnew. rewrite <- Hi in Hnew.
  assert (Hnone : loopProbes (maps s) !! token i = None).
  { destruct (loopProbes (maps s) !! token i) as [j|] eqn:E; [exfalso|done].
    destruct (Ha _ _ E) as (r & Hr & Er & _). apply (Hnew r Hr). unfold run_token. rewrite Er.
    by apply Hm. }
  split; [cbn; lia|]. split; [by apply maps_ok_insert|]. split; [|split; [|split; [split|split]]]; cbn.
  - intros t j Hj. cbn in Hj. apply lookup_insert_Some in Hj as [[<- <-]|[Hne Hj]].
    + exists (MkRun i a (Check 0)). split; [|done]. apply elem_of_app. right. by apply list_elem_of_singleton.
    + destruct (Ha _ _ Hj) as (r & Hr & ?). exists r. split; [apply elem_of_app; by left|done].
  - destruct Hf as [Hf1 Hf2]. split; cbn.
    + rewrite map_app. apply NoDup_app. split; [done|]. split; [|by apply NoDup_singleton].
      intros t Ht E%list_elem_of_singleton. apply list_elem_of_fmap in Ht as (r & -> & Hr).
      by apply (Hnew r).
    + intros r [Hr| ->%list_elem_of_singleton]%elem_of_app.
      * destruct (Hf2 r Hr) as (now' & n & E & Hn). exists now', n. split; [done|lia].
      * exists now, (loopProbeNonce s + 1). split; [done|lia].
  - intros r [Hr| ->%list_elem_of_singleton]%elem_of_app; [by apply Hp1|].
    unfold attempts_ok. cbn. rewrite probes_of_none; [done|].
    intros p Hin. destruct (Hp2 _ _ Hin) as (r & Hr & E & _). by apply (Hnew r).
  - intros t p Hin. destruct (Hp2 _ _ Hin) as (r & Hr & H). exists r. split; [apply elem_of_app; by left|done].
  - done.
  - intros j Hj. destruct (Hc2 j Hj) as (Hl & r & Hr & Er). split.
    + rewrite lookup_insert_ne; [done|]. intros E. apply (Hnew r Hr). unfold run_token. by rewrite Er.
    + exists r. split; [apply elem_of_app; by left|done].
Qed.

Lemma loop_inv_nonce s n :
  loop_inv s -> loopProbeNonce s <= n ->
  loop_inv (MkSystem (maps s) n (runs s) (probes_sent s) (confirmed s)).
Proof.
  intros (H0 & Hm & Ha & [Hf1 Hf2] & Hp & Hc) Hn. split; [cbn; lia|]. do 2 (split; [done|]).
  split; [|by split]. split; [done|]. intros r Hr. destruct (Hf2 r Hr) as (now & k & E & Hk).
  exists now, k. split; [done|cbn; lia].
Qed.

(** *** A goroutine moves *)

Lemma same_tokens (l : list Run) k r ph :
  l !! k = Some r -> map run_token (<[k := MkRun (inv r) (addr r) ph]> l) = map run_token l.
Proof.
  intros Hk. change (run_token <$> <[k:=MkRun (inv r) (addr r) ph]> l = run_token <$> l).
  rewrite list_fmap_insert. apply list_insert_id. by rewrite list_lookup_fmap, Hk.
Qed.

Lemma elem_of_update (l : list Run) k r r' x :
  NoDup (map run_token l) -> l !! k = Some r -> x ∈ <[k := r']> l ->
  x = r' \/ x ∈ l /\ run_token x <> run_token r.
Proof.
  intros Hnd Hk [j Hj]%list_elem_of_lookup.
  apply list_lookup_insert_Some in Hj as [(_ & -> & _)|[Hne Hj]]; [by left|].
  right. split; [by eapply list_elem_of_lookup_2|]. intros E. apply Hne.
  apply (NoDup_lookup (run_token <$> l) k j (run_token r)); [done|..];
    rewrite list_lookup_fmap; [by rewrite Hk|rewrite Hj; simpl; by rewrite E].
Qed.

(** What became of a run of [l]: itself, or the run that moved. *)
Definition moved (r : Run) (ph : Phase) : Run := MkRun (inv r) (addr r) ph.

Lemma still_there (l : list Run) k r ph x :
  l !! k = Some r -> x ∈ l ->
  exists y, y ∈ <[k := moved r ph]> l /\ inv y = inv x /\ addr y = addr x /\
    (y = x \/ x = r /\ y = moved r ph).
Proof.
  intros Hk [j Hj]%list_elem_of_lookup. destruct (decide (j = k)) as [->|Hne].
  - assert (x = r) by congruence. subst x. exists (moved r ph).
    split; [|split; [done|split; [done|by right]]].
    apply list_elem_of_lookup. exists k. apply list_lookup_insert_eq. by eapply lookup_lt_Some.
  - exists x. split; [|by auto]. apply list_elem_of_lookup. exists j. by rewrite list_lookup_insert_ne.
Qed.

Definition outgoing (r : Run) (out : option ExtPacket) : list (list Z * ExtPacket) :=
  match out with Some p => [(run_token r, p)] | None => [] end.

Lemma probes_of_other t r sent out :
  t <> run_token r -> probes_of t (sent ++ outgoing r out) = probes_of t sent.
Proof.
  intros Hne. unfold probes_of. rewrite filter_app. destruct out as [p|]; cbn [outgoing]; [|by rewrite app_nil_r].
  rewrite filter_cons. cbn [fst]. case_decide; [congruence|]. apply app_nil_r.
Qed.

Lemma step_move s k r ph m out :
  loop_inv s -> runs s !! k = Some r -> maps_ok m ->
  (forall t i, loopProbes m !! t = Some i -> loopProbes (maps s) !! t = Some i) ->
  (ph = Done -> loopProbes m !! run_token r = None) ->
  (forall p, out = Some p ->
     buildLoopProbePacket (addr r) (local (inv r)) (remote (inv r)) (run_token r) = Ok p) ->
  attempts_ok (moved r ph) (probes_sent s ++ outgoing r out) ->
  loop_inv (MkSystem m (loopProbeNonce s) (<[k := moved r ph]> (runs s))
              (probes_sent s ++ outgoing r out) (confirmed s)).
Proof.
  intros (H0 & Hm & Ha & [Hf1 Hf2] & [Hp1 Hp2] & [Hc1 Hc2]) Hk Hm' Hsub Hdone Hout Hatt.
  assert (Hr : r ∈ runs s) by (by eapply list_elem_of_lookup_2).
  split; [done|]. split; [done|]. split; [|split; [split|split; [split|split]]].
  - intros t i Hi. cbn in Hi. destruct (Ha _ _ (Hsub _ _ Hi)) as (x & Hx & Ex & Hph).
    destruct (still_there _ _ _ ph _ Hk Hx) as (y & Hy & Ey & _ & Hcase).
    exists y. split; [done|]. split; [congruence|]. destruct Hcase as [->|[-> ->]]; [done|].
    cbn. intros E. rewrite <- (proj1 (proj1 Hm' _ _ Hi)) in Hi. rewrite <- Ex in Hi.
    unfold run_token in Hdone. rewrite Hdone in Hi; done.
  - cbn. rewrite (same_tokens _ _ r ph) by done. done.
  - cbn. intros x [->|[Hx _]]%(elem_of_update _ _ r); [by apply (Hf2 r)|by apply Hf2|done|done].
  - cbn. intros x [->|[Hx Hne]]%(elem_of_update _ _ r); [done| |done|done].
    unfold attempts_ok. rewrite probes_of_other by done. by apply (Hp1 x).
  - intros t p [Hin|Hin]%elem_of_app.
    + destruct (Hp2 _ _ Hin) as (x & Hx & Ex & Hb).
      destruct (still_there _ _ _ ph _ Hk Hx) as (y & Hy & Ei & Ea & _).
      exists y. unfold run_token in *. by rewrite Ei, Ea.
    + destruct (still_there _ _ _ ph _ Hk Hr) as (y & Hy & Ei & Ea & _).
      destruct out as [q|]; [|by apply elem_of_nil in Hin]. cbn in Hin.
      apply list_elem_of_singleton in Hin as [= -> ->]. exists y. unfold run_token in *. rewrite Ei, Ea.
      split; [done|]. split; [done|]. by apply Hout.
  - done.
  - cbn. intros i Hi. destruct (Hc2 i Hi) as (Hn & x & Hx & Ex). split.
    + destruct (loopProbes m !! token i) as [j|] eqn:E; [|done]. apply Hsub in E. congruence.
    + destruct (still_there _ _ _ ph _ Hk Hx) as (y & Hy & Ei & _). exists y. split; [done|congruence].
Qed.

(** The investigation stored under the token of a goroutine is its own. *)
Lemma active_own s r j :
  loop_inv s -> r ∈ runs s -> loopProbes (maps s) !! run_token r = Some j -> j = inv r.
Proof.
  intros (_ & Hm & Ha & [Hf _] & _) [k Hk]%list_elem_of_lookup Hj.
  destruct (Ha _ _ Hj) as (x & [k' Hk']%list_elem_of_lookup & Ex & _). destruct Hm as [H1 _].
  destruct (H1 _ _ Hj) as [Et _]. rewrite <- Ex in Et.
  assert (k' = k).
  { apply (NoDup_lookup (run_token <$> runs s) k' k (run_token r)); [done|..];
      rewrite list_lookup_fmap; [rewrite Hk'; simpl; unfold run_token at 1; by rewrite Et|by rewrite Hk]. }
  congruence.
Qed.

Lemma inactive_gone s r :
  loop_inv s -> r ∈ runs s -> loopInvestigationActive (inv r) (maps s) = false ->
  loopProbes (maps s) !! run_token r = None.
Proof.
  intros Hi Hr Ha. destruct (loopProbes (maps s) !! run_token r) as [j|] eqn:E; [exfalso|done].
  assert (j = inv r) by (by eapply active_own). subst j.
  destruct Hi as (_ & [H1 _] & _ & [_ Hf] & _). destruct (H1 _ _ E) as [_ Hk].
  destruct (Hf r Hr) as (now & n & Et & _).
  assert (Hne : token (inv r) <> []) by (unfold run_token in Et; by rewrite Et).
  apply (active_iff _ (maps s)) in Hne. rewrite (proj2 Hne) in Ha by done. done.
Qed.

Lemma step_run s k r ph m out :
  loop_inv s -> runs s !! k = Some r -> runLoopInvestigation r (maps s) = (ph, m, out) ->
  loop_inv (MkSystem m (loopProbeNonce s) (<[k := moved r ph]> (runs s))
              (probes_sent s ++ outgoing r out) (confirmed s)).
Proof.
  intros Hi Hk. assert (Hr : r ∈ runs s) by (by eapply list_elem_of_lookup_2).
  pose proof Hi as (_ & Hm & _ & [_ Hf] & [Hp _] & _). specialize (Hp r Hr).
  unfold attempts_ok in Hp. unfold runLoopInvestigation.
  assert (Hsame : forall o, attempts_ok (moved r Done) (probes_sent s ++ outgoing r o) =
    (zlen (probes_of (run_token r) (probes_sent s ++ outgoing r o)) <= loopProbeAttempts)) by done.
  destruct (phase r) as [n|n| | |] eqn:Eph.
  - case_if; [case_if|]; zbool; intros [= <- <- <-]; apply step_move; try done;
      cbn [outgoing]; rewrite ?app_nil_r; unfold attempts_ok; cbn.
    + change (run_token (moved r (Send n))) with (run_token r). lia.
    + intros _. by apply inactive_gone.
    + change (run_token (moved r Done)) with (run_token r). lia.
    + change (run_token (moved r FinalCheck)) with (run_token r). lia.
  - destruct (buildLoopProbePacket _ _ _ _) as [p|e|] eqn:Eb; intros [= <- <- <-]; apply step_move; try done.
    + by intros q [= <-].
    + unfold attempts_ok. cbn. change (run_token (moved r (Check (n + 1)))) with (run_token r).
      unfold probes_of in *. rewrite filter_app, zlen_app, filter_cons. cbn [fst].
      rewrite decide_True by done. rewrite filter_nil, zlen_cons, zlen_nil. lia.
    + cbn [outgoing]. rewrite app_nil_r. unfold attempts_ok. cbn.
      change (run_token (moved r FinalCheck)) with (run_token r). lia.
    + cbn [outgoing]. rewrite app_nil_r. unfold attempts_ok. cbn.
      change (run_token (moved r FinalCheck)) with (run_token r). lia.
  - case_if; intros [= <- <- <-]; apply step_move; try done; cbn [outgoing]; rewrite ?app_nil_r; try done.
    intros _. by apply inactive_gone.
  - intros [= <- <- <-]. destruct (Hf r Hr) as (now & n & Et & _).
    destruct (retire_maps (inv r) (maps s)) as [Hm' El]; [unfold run_token in Et; by rewrite Et|done| |].
    { intros j Hj. by eapply active_own. }
    apply step_move; try done; [|intros _|cbn [outgoing]; by rewrite app_nil_r]; rewrite El.
    + by intros t i [_ ?]%lookup_delete_Some.
    + apply lookup_delete_eq.
  - intros [= <- <- <-]. apply step_move; try done; [|cbn [outgoing]; by rewrite app_nil_r].
    intros _. destruct (loopProbes (maps s) !! run_token r) as [j|] eqn:E; [exfalso|done].
    pose proof Hi as (_ & [H1 _] & Ha & [Hnd _] & _). destruct (Ha _ _ E) as (x & Hx & Ex & Hph).
    assert (Ej : j = inv r) by (by eapply active_own). rewrite Ej in Ex.
    apply list_elem_of_lookup in Hx as [k' Hk']. assert (k' = k); [|congruence].
    apply (NoDup_lookup (run_token <$> runs s) k' k (run_token r)); [done|..];
      rewrite list_lookup_fmap; [rewrite Hk'; simpl; unfold run_token; by rewrite Ex|by rewrite Hk].
Qed.

Lemma step_return s i :
  loop_inv s -> loopProbes (maps s) !! token i = Some i ->
  loop_inv (MkSystem (MkProbes (delete (token i) (loopProbes (maps s)))
                        (delete (key i) (loopProbeByKey (maps s))))
              (loopProbeNonce s) (runs s) (probes_sent s) (confirmed s ++ [i])).
Proof.
  intros (H0 & Hm & Ha & Hf & Hp & [Hc1 Hc2]) Hi. split; [done|]. split; [by apply maps_ok_delete|].
  split; [|split; [done|split; [done|split]]]; cbn.
  - intros t j Hj. cbn in Hj. apply lookup_delete_Some in Hj as [_ Hj]. by apply (Ha t).
  - rewrite map_app. apply NoDup_app. split; [done|]. split; [|by apply NoDup_singleton].
    intros t Ht E%list_elem_of_singleton. cbn in E. subst t.
    apply list_elem_of_fmap in Ht as (j & Ej & Hj). destruct (Hc2 j Hj) as [Hn _].
    rewrite <- Ej in Hn. congruence.
  - intros j [Hj| ->%list_elem_of_singleton]%elem_of_app.
    + destruct (Hc2 j Hj) as [Hn Hr]. split; [|done]. destruct (decide (token j = token i)) as [-> |].
      * apply lookup_delete_eq.
      * by rewrite lookup_delete_ne.
    + split; [apply lookup_delete_eq|]. destruct (Ha _ _ Hi) as (r & Hr & Er & _). by exists r.
Qed.

Lemma loop_step_inv s s' : loop_step s s' -> loopProbeNonce s' < 2 ^ 64 -> loop_inv s -> loop_inv s'.
Proof.
  intros H Hb Hi. destruct H as [s disabled id address now remote local m n r E|s k r ph m out Hk E|s dev tok m c E].
  - assert (Hkeep : forall n', loopProbeNonce s <= n' ->
      loop_inv (MkSystem (maps s) n' (runs s ++ []) (probes_sent s) (confirmed s))).
    { intros n' Hn. rewrite app_nil_r. by apply loop_inv_nonce. }
    unfold startLoopInvestigation in E.
    case_if_in E; [injection E as <- <- <-; apply Hkeep; lia|].
    destruct (Target local) as [[dev|?|? ? ?]|]; [|injection E as <- <- <-; apply Hkeep; lia..].
    destruct (address dev) as [a|]; [|injection E as <- <- <-; apply Hkeep; lia].
    destruct (loopProbeByKey (maps s) !! _) eqn:Ek; [injection E as <- <- <-; apply Hkeep; lia|].
    injection E as <- <- <-. cbn in Hb.
    by apply (step_start s (MkInv _ (newLoopProbeToken now (loopProbeNonce s + 1)) id dev remote local) a now).
  - by apply step_run.
  - unfold handleLoopProbeReturn in E.
    assert (Hkeep : loop_inv (MkSystem (maps s) (loopProbeNonce s) (runs s) (probes_sent s) (confirmed s ++ []))).
    { rewrite app_nil_r. apply loop_inv_nonce; [done|lia]. }
    case_if_in E; [by injection E as <- <-|].
    destruct (loopProbes (maps s) !! tok) as [i|] eqn:Ei; [|by injection E as <- <-].
    case_if_in E; [by injection E as <- <-|]. injection E as <- <-.
    destruct Hi as (? & [H1 H2] & ?). destruct (H1 _ _ Ei) as [<- _]. by apply step_return.
Qed.

Lemma loop_step_nonce s s' : loop_step s s' -> loopProbeNonce s <= loopProbeNonce s'.
Proof.
  intros [s0 disabled id address now remote local m n r E| |]; cbn; [|lia..].
  unfold startLoopInvestigation in E.
  repeat (case_match; try (injection E as <- <- <-; lia)).
Qed.

Lemma reachable_loop_inv s :
  rtc loop_step no_probes s -> loopProbeNonce s < 2 ^ 64 -> loop_inv s.
Proof.
  revert s. apply (rtc_ind_r (fun s => loopProbeNonce s < 2 ^ 64 -> loop_inv s)).
  { intros _. apply loop_inv_init. }
  intros s s' _ Hs IH Hb. pose proof (loop_step_nonce _ _ Hs). eapply loop_step_inv; [done|done|]. apply IH. lia.
Qed.

End Lemmas.

(** * Properties *)

Section Theorems.
Context `{MT : Multitalk}.

(** C27: loop investigations are consistent and end.  However the goroutines,
    new suspicions and returning probes interleave (for the first 2^64
    investigations), the two maps are inverse to each other, so there is at most
    one investigation per tunnel and remote network; each sends at most four
    probes, all of them built for its own routes and token; a loop is confirmed
    at most once per investigation; and when all goroutines are done no
    investigation is left behind. *)
Theorem loop_investigations_end (s : System) :
  rtc loop_step no_probes s -> loopProbeNonce s < 2 ^ 64 ->
  (forall t i, loopProbes (maps s) !! t = Some i -> loopProbeByKey (maps s) !! key i = Some t) /\
  (forall k t, loopProbeByKey (maps s) !! k = Some t ->
     exists i, loopProbes (maps s) !! t = Some i /\ key i = k /\ token i = t) /\
  (forall t, zlen (probes_of t (probes_sent s)) <= loopProbeAttempts) /\
  (forall t p, (t, p) ∈ probes_sent s -> exists r, r ∈ runs s /\ run_token r = t /\
     buildLoopProbePacket (addr r) (local (inv r)) (remote (inv r)) t = Ok p) /\
  NoDup (map token (confirmed s)) /\
  (Forall (fun r => phase r = Done) (runs s) -> maps s = MkProbes ∅ ∅).
Proof.
  intros Hr Hb. destruct (reachable_loop_inv s Hr Hb) as (_ & [H1 H2] & Ha & _ & [Hp1 Hp2] & [Hc _]).
  split; [intros t i Hi; by apply H1|]. split.
  { intros k t Hk. destruct (H2 _ _ Hk) as (i & Hi & Ek). exists i. by destruct (H1 _ _ Hi). }
  split; [|split; [done|split; [done|]]].
  - intros t. destruct (probes_of t (probes_sent s)) as [|[t' p] l] eqn:E; [const_widths|].
    rewrite <- E. assert (Hin : (t', p) ∈ probes_of t (probes_sent s)) by (rewrite E; apply list_elem_of_here).
    apply list_elem_of_filter in Hin as [Et Hin]. cbn in Et. subst t'.
    destruct (Hp2 _ _ Hin) as (r & Hin' & <- & _). specialize (Hp1 r Hin'). unfold attempts_ok in Hp1.
    destruct (phase r); lia.
  - intros Hdone. rewrite Forall_forall in Hdone.
    assert (E1 : loopProbes (maps s) = ∅).
    { apply map_empty. intros t. destruct (loopProbes (maps s) !! t) as [i|] eqn:E; [exfalso|done].
      destruct (Ha _ _ E) as (r & Hin & _ & Hph). apply Hph. by apply Hdone. }
    assert (E2 : loopProbeByKey (maps s) = ∅).
    { apply map_empty. intros k. destruct (loopProbeByKey (maps s) !! k) as [t|] eqn:E; [exfalso|done].
      destruct (H2 _ _ E) as (i & Hi & _). by rewrite E1, lookup_empty in Hi. }
    destruct (maps s). simpl in *. by subst.
Qed.

End Theorems.

Definition wit_range (t : RouteTarget) (a b : Z) : Route :=
  {| rkey := {| TargetKey := RouteTargetKey t; NetStart := a |}; Extended := true; NetEnd := b;
     Target := Some t; Origin := routeOriginForTarget (Some t); Distance := 1; LastSeen := 0;
     network_ptr := Some a; traffic := None |}.
Definition wit_local : Route := wit_range (EtherTalkPort (str "en0")) 20 21.
Definition wit_remote : Route := wit_range (AURPPeer (str "far")) 30 31.
Definition wit_address (dev : list Z) : option Addr := Some (MkAddr 21 7).

Definition wit_inv : loopProbeInvestigation :=
  MkInv (str "far|30") (newLoopProbeToken 5 1) (str "far") (str "en0") wit_remote wit_local.

(** A suspicion, its first probe, and the return of the probe. *)
Definition wit_run (ph : Phase) : Run := MkRun wit_inv (MkAddr 21 7) ph.
Definition wit_probe : ExtPacket :=
  originate (MkAddr 21 7) 1 31 7 1 ProtoRTMPReq ([4; 0; 0; 0; 0] ++ newLoopProbeToken 5 1).
Definition wit_confirmed : System :=
  MkSystem (MkProbes ∅ ∅) 1 [wit_run (Check 1)] [(newLoopProbeToken 5 1, wit_probe)] [wit_inv].

Lemma rtc_eq {A} (R : relation A) x y : x = y -> rtc R x y.
Proof. intros ->. apply rtc_refl. Qed.

Lemma wit_loop_run : rtc loop_step no_probes wit_confirmed.
Proof.
  eapply rtc_l; [apply (ls_start no_probes false (str "far") wit_address 5 wit_remote wit_local); reflexivity|].
  eapply rtc_l; [apply (ls_run _ 0 (wit_run (Check 0))); reflexivity|].
  eapply rtc_l; [apply (ls_run _ 0 (wit_run (Send 0))); reflexivity|].
  eapply rtc_l; [apply (ls_return _ (str "en0") (newLoopProbeToken 5 1)); reflexivity|].
  apply rtc_eq. vm_compute. reflexivity.
Qed.

Example loop_investigations_end_witness :
  confirmed wit_confirmed = [wit_inv] /\
  ((forall t i, loopProbes (maps wit_confirmed) !! t = Some i ->
      loopProbeByKey (maps wit_confirmed) !! key i = Some t) /\
  (forall k t, loopProbeByKey (maps wit_confirmed) !! k = Some t ->
     exists i, loopProbes (maps wit_confirmed) !! t = Some i /\ key i = k /\ token i = t) /\
  (forall t, zlen (probes_of t (probes_sent wit_confirmed)) <= loopProbeAttempts) /\
  (forall t p, (t, p) ∈ probes_sent wit_confirmed -> exists r, r ∈ runs wit_confirmed /\ run_token r = t /\
     buildLoopProbePacket (addr r) (local (inv r)) (remote (inv r)) t = Ok p) /\
  NoDup (map token (confirmed wit_confirmed)) /\
  (Forall (fun r => phase r = Done) (runs wit_confirmed) -> maps wit_confirmed = MkProbes ∅ ∅)).
Proof.
  split; [reflexivity|]. apply (loop_investigations_end wit_confirmed wit_loop_run). cbn. lia.
Defined.
