(* ===== verification/DdpPolicy.v ===== *)
(** * DDP traffic through a tunnel: remapping, device hiding, hop weight
      ([router/aurp_remap.go], [router/aurp_device_hide.go], [applyAURPHopWeight] and
      [Forward] of [router/aurp_peer.go])

    What a peer's policy does to the AppleTalk packets that enter and leave its
    tunnel.  A function that returns a [*ddp.ExtPacket] and an error returns
    the packet in [res]; functions that test for a nil packet take an [option].
    [remapInboundDDP] overwrites its argument: it returns the new contents. *)
From S2P Require Import Prelude Wtacc AurpHeaders AurpTuples AurpZoneInfo AurpPacket.
From S2P Require Import AurpTransport PeerPolicy GoSort RouteTable RouteTableInv RouteTableOps.
From S2P Require Import RouteTableSpec RouteExport PeerState PeerZones PeerFSM.
From S2P Require Import AtalkNbp Atalk.
Import Policy DDP PS.

Module Tunnel.
#[local] Open Scope go_scope.

Section Tunnel.
Context {GStr : GoStrings} `{MT : Multitalk}.

(** ** Remapping *)

Section Config.
Context (c : AURPConfig) (p : PeerIdent).

(** The loop over the tuples of an NBP packet; the flag is [nbpChanged]. *)
Fixpoint remap_tuples (ts : list NBP.Tuple) : list NBP.Tuple * bool :=
  match ts with
  | [] => ([], false)
  | t :: ts =>
      let '(mapped, ok) := remapInboundNetwork c p (NBP.Network t) in
      let '(ts', changed) := remap_tuples ts in
      ((if ok then NBP.with_Network mapped t else t) :: ts', ok || changed)
  end.

Definition remap_nbp (working : ExtPacket) (changed : bool) : res (ExtPacket * bool) :=
  nbpPacket ← wrap_err "unmarshal NBP for remapping: %w" [] (NBP.Unmarshal (Data working));
  let '(ts, nbpChanged) := remap_tuples (NBP.Tuples nbpPacket) in
  if nbpChanged then
    data ← wrap_err "marshal remapped NBP: %w" [] (NBP.Marshal (NBP.with_Tuples ts nbpPacket));
    Ok (setDDPDataSize (zlen data) (with_Data data working), true)
  else Ok (working, changed).

Definition remapInboundDDP (packet : option ExtPacket) : res (option ExtPacket) :=
  match packet with
  | None => Ok packet
  | Some pk =>
      if negb (hasRemapRuleForPeer c p) then Ok packet
      else
        let '(mapped, ok) := remapInboundNetwork c p (SrcNet pk) in
        let working := if ok then with_SrcNet mapped pk else pk in
        '(working, changed) ←
          (if Proto working =? ProtoNBP then remap_nbp working ok else Ok (working, ok));
        if negb changed then Ok packet
        else
          _ ← verifyDDPChecksum packet;
          Ok (Some (with_Cksum 0 working))
  end.

Definition remapOutboundDDP (packet : ExtPacket) : res ExtPacket :=
  let '(mapped, ok) := remapOutboundNetwork c p (DstNet packet) in
  if negb ok then Ok packet
  else
    _ ← verifyDDPChecksum (Some packet);
    Ok (with_Cksum 0 (with_DstNet mapped packet)).

(** ** Device hiding *)

Definition deviceHideDirectionMatches (ruleDirection direction : list Z) : bool :=
  let ruleDirection := ToLower (TrimSpace ruleDirection) in
  bool_decide (ruleDirection = []) || bool_decide (ruleDirection = str "both")
  || bool_decide (ruleDirection = direction).

Definition deviceHideFieldMatches (rule value : list Z) : bool :=
  let rule := TrimSpace rule in
  bool_decide (rule = []) || bool_decide (rule = str "*") || EqualFold rule value.

Definition hides (r : AURPDeviceHideRule) (tuple : NBP.Tuple) (direction : list Z) : bool :=
  peerSelectorMatches (dh_Peer r) p &&
  deviceHideDirectionMatches (dh_Direction r) direction &&
  deviceHideFieldMatches (dh_Object r) (NBP.Object tuple) &&
  deviceHideFieldMatches (dh_Type r) (NBP.Type_ tuple).

Definition device_hidden (direction : list Z) (tuple : NBP.Tuple) : bool :=
  existsb (fun rule => hides rule tuple direction) (HiddenDevices c).

(** The boolean is [drop]. *)
Definition filterDeviceNBP (packet : option ExtPacket) (direction : list Z) :
    res (option ExtPacket * bool) :=
  match packet with
  | None => Ok (packet, false)
  | Some pk =>
      if negb (Proto pk =? ProtoNBP) || (zlen (HiddenDevices c) =? 0) then Ok (packet, false)
      else
        nbpPacket ← wrap_err "unmarshal NBP for device hiding: %w" [] (NBP.Unmarshal (Data pk));
        if negb (NBP.Function_ nbpPacket =? NBP.FunctionLkUpReply) then Ok (packet, false)
        else
          let kept :=
            List.filter (fun t => negb (device_hidden direction t)) (NBP.Tuples nbpPacket) in
          if zlen kept =? zlen (NBP.Tuples nbpPacket) then Ok (packet, false)
          else if zlen kept =? 0 then Ok (None, true)
          else
            _ ← verifyDDPChecksum packet;
            data ← wrap_err "marshal filtered NBP: %w" []
                     (NBP.Marshal (NBP.with_Tuples kept nbpPacket));
            Ok (Some (setDDPDataSize (zlen data) (with_Cksum 0 (with_Data data pk))), false)
  end.

(** ** Hop weight *)

Definition applyAURPHopWeight (ddpkt : ExtPacket) : res ExtPacket :=
  if HopCountWeight c =? 0 then Ok ddpkt
  else
    let newHopCount := wrap16 (ddpHopCount ddpkt + HopCountWeight c) in
    if RT.maxRouteDistance <? newHopCount then
      Err (Errorf "weighted AURP hop count exceeds limit (%d > %d)"
             [AInt newHopCount; AInt RT.maxRouteDistance])
    else Ok (setDDPHopCount newHopCount ddpkt).

End Config.

(** ** Sending through the tunnel *)

(** [if err != nil { return err }] on the result of a pure function; a
    run-time panic does not return. *)
Definition check {A} (r : res A) (k : A -> M error) : M error :=
  match r with Ok a => k a | Err e => mret (Some e) | Panic => fun _ => None end.

Definition Forward (ddpkt : ExtPacket) : M error :=
  c ← getp timing; i ← getp ident;
  check (filterDeviceNBP c i (Some ddpkt) (str "export")) (fun '(filtered, drop) =>
    if drop : bool then mret None
    else match filtered with
    | None => fun _ => None
    | Some filtered =>
        check (remapOutboundDDP c i filtered) (fun remapped =>
        check (applyAURPHopWeight c remapped) (fun weighted =>
        check (ExtMarshal weighted) (fun outPkt =>
          try FSM.sendTickleBeforeDataIfNeeded;;
          err ← send_tr (fun t => NewAppleTalkPacket t outPkt);
          match err with
          | Some e => mret (Some e)
          | None =>
              _ ← bump ddpPacketsOut 1;
              _ ← bump ddpBytesOut (zlen outPkt);
              _ ← (if 0 <? HopCountWeight c then bump hopCountWeightedPackets 1 else mret tt);
              mret None
          end)))
    end).

End Tunnel.
End Tunnel.

Import Tunnel.

(** * Lemmas *)

Section Lemmas.
Context {GStr : GoStrings} `{MT : Multitalk} {ML : MultitalkLaws}.
Context (c : AURPConfig) (p : PeerIdent).

Definition remapped (n : Z) : Z := (remapInboundNetwork c p n).1.

Definition remap_tuple (t : NBP.Tuple) : NBP.Tuple :=
  NBP.with_Network (remapped (NBP.Network t)) t.

Lemma remap_with_false range rules n m : remap_with range p rules n = (m, false) -> m = n.
Proof.
  induction rules as [|r rules IH]; cbn [remap_with]; [by intros [= <-]|].
  case_if; [done|]. destruct (range r) as [[a b] d].
  destruct (remapNetworkNumber n a b d) as [k []]; [by intros [= <-]|done].
Qed.

Lemma remap_with_u16 range rules n : u16 n -> u16 (remap_with range p rules n).1.
Proof.
  intros Hn. induction rules as [|r rules IH]; cbn [remap_with]; [done|]. case_if; [done|].
  destruct (range r) as [[a b] d]. unfold remapNetworkNumber.
  case_if; [done|]. cbn [fst]. unfold u16, wrap16. apply Z.mod_pos_bound. lia.
Qed.

Lemma remapped_u16 n : u16 n -> u16 (remapped n).
Proof. apply remap_with_u16. Qed.

Lemma no_rule_identity n : hasRemapRuleForPeer c p = false -> remapInboundNetwork c p n = (n, false).
Proof.
  unfold hasRemapRuleForPeer, remapInboundNetwork. induction (RemapRules c) as [|r rules IH]; [done|].
  cbn [existsb remap_with]. intros [-> H]%orb_false_elim. cbn [negb]. by apply IH.
Qed.

Lemma with_Network_id t : NBP.with_Network (NBP.Network t) t = t.
Proof. by destruct t. Qed.

Lemma remap_tuples_spec ts :
  (remap_tuples c p ts).1 = map remap_tuple ts /\
  ((remap_tuples c p ts).2 = false -> map remap_tuple ts = ts).
Proof.
  induction ts as [|t ts [IH1 IH2]]; [done|]. cbn [remap_tuples map].
  unfold remap_tuple at 1 3, remapped.
  destruct (remapInboundNetwork c p (NBP.Network t)) as [m ok] eqn:E.
  destruct (remap_tuples c p ts) as [ts' ch]. cbn [fst snd] in *. rewrite IH1.
  destruct ok; cbn [orb]; [done|]. unfold remapInboundNetwork in E.
  apply remap_with_false in E as ->. rewrite with_Network_id. split; [done|].
  intros H. by rewrite IH2.
Qed.

Lemma remap_tuple_typed t : NBP.tuple_typed t -> NBP.tuple_typed (remap_tuple t).
Proof. intros (Hn & H). split; [by apply remapped_u16|exact H]. Qed.

Lemma remap_tuples_typed n :
  NBP.pkt_typed n -> NBP.pkt_typed (NBP.with_Tuples (map remap_tuple (NBP.Tuples n)) n).
Proof.
  intros (Hf & Hi & Ht). split; [done|]. split; [done|]. cbn [NBP.Tuples NBP.with_Tuples].
  rewrite Forall_map. by eapply Forall_impl; [exact Ht|apply remap_tuple_typed].
Qed.

Lemma zlen_map {A B} (f : A -> B) l : zlen (map f l) = zlen l.
Proof. unfold zlen. by rewrite length_map. Qed.

Lemma zlen_enc_remap ts :
  zlen (concat (map enc_tuple (map remap_tuple ts))) = zlen (concat (map enc_tuple ts)).
Proof.
  induction ts as [|t ts IH]; [done|]. cbn [map concat]. rewrite !zlen_app, IH. f_equal.
Qed.

Lemma enc_nbp_ok n : NBP.pkt_typed n -> 0 <= NBP.Function_ n < 16 -> NBP.count_ok n ->
  Forall NBP.tuple_fits (NBP.Tuples n) -> bytes_ok (enc_nbp n).
Proof.
  intros (_ & Hi & Ht) Hf (Hl & _) Hts. unfold enc_nbp. apply bytes_ok_app. split.
  - repeat constructor; unfold u8 in *; lia.
  - revert Hts. clear Hl. induction Ht as [|t ts (? & ? & ? & ? & ? & ? & ?) _ IH]; [by constructor|].
    intros [(Ho & Hty & Hz) Hts]%Forall_cons. cbn [map concat].
    pose proof (zlen_nonneg (NBP.Object t)). pose proof (zlen_nonneg (NBP.Type_ t)).
    pose proof (zlen_nonneg (NBP.Zone t)).
    apply bytes_ok_app. split; [|by apply IH]. unfold enc_tuple.
    apply bytes_ok_app; split; [apply put16_ok|]. cbn [app].
    do 3 (apply Forall_cons; split; [done|]).
    apply Forall_cons; split; [unfold u8; lia|]. apply bytes_ok_app; split; [done|].
    apply Forall_cons; split; [unfold u8; lia|]. apply bytes_ok_app; split; [done|].
    by apply Forall_cons; split; [unfold u8; lia|].
Qed.

(** Re-marshalling an NBP packet that was just parsed. *)
Lemma remarshal data n ts data' :
  bytes_ok data -> NBP.Unmarshal data = Ok n -> NBP.pkt_typed (NBP.with_Tuples ts n) ->
  NBP.count_ok (NBP.with_Tuples ts n) ->
  NBP.Marshal (NBP.with_Tuples ts n) = Ok data' ->
  data' = enc_nbp (NBP.with_Tuples ts n) /\ NBP.Unmarshal data' = Ok (NBP.with_Tuples ts n).
Proof.
  intros Hd Hn Ht Hc (Hf & Hl & Hts & ->)%Marshal_inv. split; [done|].
  rewrite <- (app_nil_r (enc_nbp _)). apply Unmarshal_enc; [done|lia|done].
Qed.

(** ** The size field *)

Lemma setDDPDataSize_size n pk :
  Size (setDDPDataSize n pk) = ddpHopCount pk * 1024 + (n + 13) mod 1024.
Proof.
  unfold setDDPDataSize, DDPExtHeaderSize, wrap16. cbn [Size with_Size].
  change 0x3ff with (Z.ones 10). rewrite Z.land_ones by lia. change (2 ^ 10) with 1024.
  replace (((n mod 65536 + 13) mod 65536) mod 1024) with ((n + 13) mod 1024)
    by (Z.to_euclidean_division_equations; lia).
  rewrite land_hops. unfold ddpHopCount. rewrite land_hops, Z.shiftr_div_pow2 by lia.
  change (2 ^ 10) with 1024. rewrite Z.div_mul by lia.
  rewrite <- Z.add_nocarry_lor; [done|]. change 1024 with (2 ^ 10) at 2.
  rewrite <- Z.shiftl_mul_pow2 by lia. apply land_shiftl_small; [lia|]. change (2 ^ 10) with 1024.
  apply Z.mod_pos_bound. lia.
Qed.

Lemma setDDPDataSize_spec n pk :
  0 <= n -> n + 13 < 1024 -> Size (setDDPDataSize n pk) = ddpHopCount pk * 1024 + (n + 13).
Proof. intros. rewrite setDDPDataSize_size, (Z.mod_small (n + 13)) by lia. done. Qed.

Lemma hops_of_size x y :
  ddpHopCount y = (Size y / 1024) mod 16 ->
  0 <= x <= 15 -> forall l, 0 <= l < 1024 -> Size y = x * 1024 + l -> ddpHopCount y = x.
Proof.
  intros -> Hx l Hl ->. rewrite Z.div_add_l, (Z.div_small l), Z.mod_small by lia. lia.
Qed.

Lemma ddpHopCount_div y : ddpHopCount y = (Size y / 1024) mod 16.
Proof.
  unfold ddpHopCount. rewrite land_hops, Z.shiftr_div_pow2 by lia. change (2 ^ 10) with 1024.
  by rewrite Z.div_mul by lia.
Qed.

Lemma setDDPDataSize_hops n pk : ddpHopCount (setDDPDataSize n pk) = ddpHopCount pk.
Proof.
  pose proof (Z.mod_pos_bound (n + 13) 1024).
  apply (hops_of_size _ _ (ddpHopCount_div _) (hops_bound pk) ((n + 13) mod 1024)); [lia|].
  by apply setDDPDataSize_size.
Qed.

Lemma setDDPDataSize_u16 n pk : u16 (Size (setDDPDataSize n pk)).
Proof.
  rewrite setDDPDataSize_size. pose proof (hops_bound pk). pose proof (Z.mod_pos_bound (n + 13) 1024).
  unfold u16. lia.
Qed.

(** The size field agrees with the data. *)
Definition size_ok (pk : ExtPacket) : Prop := Size pk mod 1024 = 13 + zlen (Data pk).

Lemma size_ok_bound pk : size_ok pk -> zlen (Data pk) + 13 < 1024.
Proof. unfold size_ok. pose proof (Z.mod_pos_bound (Size pk) 1024). lia. Qed.

Lemma setDDPDataSize_ok n pk :
  zlen (Data pk) = n -> n + 13 < 1024 -> size_ok (setDDPDataSize n pk).
Proof.
  intros Hl Hn. pose proof (zlen_nonneg (Data pk)). unfold size_ok.
  rewrite setDDPDataSize_spec by (done || lia). change (Data (setDDPDataSize n pk)) with (Data pk).
  rewrite (Z.add_comm (_ * 1024)), Z.mod_add, Z.mod_small by lia. lia.
Qed.

(** ** Inbound remapping *)

Definition remap_pkt (n : NBP.Packet) : NBP.Packet :=
  NBP.with_Tuples (map remap_tuple (NBP.Tuples n)) n.

Lemma Unmarshal_facts data n :
  bytes_ok data -> NBP.Unmarshal data = Ok n ->
  NBP.pkt_typed n /\ 0 <= NBP.Function_ n < 16 /\ NBP.count_ok n /\ exists rest, data = enc_nbp n ++ rest.
Proof. intros Hd E. pose proof (Unmarshal_safe data Hd) as Hs. by rewrite E in Hs. Qed.

Lemma remap_nbp_spec w ch w' ch' :
  bytes_ok (Data w) -> remap_nbp c p w ch = Ok (w', ch') ->
  exists n, NBP.Unmarshal (Data w) = Ok n /\ NBP.Unmarshal (Data w') = Ok (remap_pkt n) /\
    (w' = w /\ ch' = ch \/
     exists data, w' = setDDPDataSize (zlen data) (with_Data data w) /\ ch' = true /\
       zlen data <= zlen (Data w) /\ bytes_ok data).
Proof.
  intros Hd. unfold remap_nbp. destruct (NBP.Unmarshal (Data w)) as [n| |] eqn:En; [|done..].
  cbn [wrap_err]. rewrite bind_Ok. destruct (Unmarshal_facts _ _ Hd En) as (Ht & Hf & Hc & rest & Er).
  pose proof (remap_tuples_spec (NBP.Tuples n)) as [E1 E2].
  destruct (remap_tuples c p (NBP.Tuples n)) as [ts b]. cbn [fst snd] in *. subst ts. destruct b.
  - change (NBP.with_Tuples (map remap_tuple (NBP.Tuples n)) n) with (remap_pkt n).
    destruct (NBP.Marshal (remap_pkt n)) as [data| |] eqn:Em; [|done..].
    cbn [wrap_err]. rewrite bind_Ok. intros [= <- <-]. exists n. split; [done|].
    assert (Hc' : NBP.count_ok (remap_pkt n)).
    { unfold NBP.count_ok, remap_pkt. cbn [NBP.Tuples NBP.with_Tuples]. by rewrite zlen_map. }
    pose proof (remap_tuples_typed n Ht) as Ht'.
    destruct (remarshal _ _ _ _ Hd En Ht' Hc' Em) as [-> Hu]. split; [exact Hu|]. right.
    eexists. split; [done|]. split; [done|]. split.
    + rewrite Er, zlen_app. unfold enc_nbp, remap_pkt. cbn [NBP.Tuples NBP.with_Tuples].
      rewrite !zlen_app, zlen_enc_remap, !zlen_cons, zlen_nil. pose proof (zlen_nonneg rest). lia.
    + apply Marshal_inv in Em as (Hf' & _ & Hts & _). by apply enc_nbp_ok.
  - intros [= <- <-]. exists n. split; [done|]. split; [|by left].
    unfold remap_pkt. rewrite E2 by done. by destruct n.
Qed.

Lemma remapInbound_cases pk pk' :
  ext_typed pk -> remapInboundDDP c p (Some pk) = Ok (Some pk') ->
  pk' = pk /\ (forall n, Proto pk = ProtoNBP -> NBP.Unmarshal (Data pk) = Ok n ->
                 SrcNet pk = remapped (SrcNet pk) /\ remap_pkt n = n) /\
    SrcNet pk = remapped (SrcNet pk) \/
  verifyDDPChecksum (Some pk) = Ok tt /\
  let w := with_SrcNet (remapped (SrcNet pk)) pk in
  if Proto pk =? ProtoNBP then
    exists n w', NBP.Unmarshal (Data pk) = Ok n /\ NBP.Unmarshal (Data w') = Ok (remap_pkt n) /\
      pk' = with_Cksum 0 w' /\
      (w' = w \/ exists data, w' = setDDPDataSize (zlen data) (with_Data data w) /\
         zlen data <= zlen (Data pk) /\ bytes_ok data)
  else pk' = with_Cksum 0 w.
Proof.
  intros Hp. assert (Hd : bytes_ok (Data pk)) by apply Hp. unfold remapInboundDDP.
  destruct (hasRemapRuleForPeer c p) eqn:Er; cbn [negb].
  2: { intros [= <-]. left. split; [done|].
       assert (E : forall n, remapped n = n) by (intros n; unfold remapped; by rewrite no_rule_identity).
       split; [|by rewrite E]. intros n _ _. split; [by rewrite E|]. unfold remap_pkt.
       replace (map remap_tuple (NBP.Tuples n)) with (NBP.Tuples n); [by destruct n|].
       symmetry. rewrite <- (map_id (NBP.Tuples n)) at 2. apply map_ext. intros t.
       unfold remap_tuple. rewrite E. apply with_Network_id. }
  destruct (remapInboundNetwork c p (SrcNet pk)) as [m ok] eqn:Em.
  assert (Erm : remapped (SrcNet pk) = m) by (unfold remapped; by rewrite Em).
  assert (Ew : (if ok then with_SrcNet m pk else pk) = with_SrcNet m pk).
  { destruct ok; [done|]. apply remap_with_false in Em as ->. by destruct pk. }
  assert (Eid : ok = false -> SrcNet pk = m) by (intros ->; by apply remap_with_false in Em).
  rewrite Ew, Erm. change (Proto (with_SrcNet m pk)) with (Proto pk).
  case_if.
  - destruct (remap_nbp c p (with_SrcNet m pk) ok) as [[w' ch']| |] eqn:En; [|done..].
    rewrite bind_Ok. destruct (remap_nbp_spec (with_SrcNet m pk) _ _ _ Hd En) as (n & Hn & Hn' & Hw).
    destruct ch'; cbn [negb].
    + destruct (verifyDDPChecksum (Some pk)) as [[]| |] eqn:Ev; [|done..]. rewrite bind_Ok.
      intros [= <-]. right. split; [done|]. cbn zeta. exists n, w'. do 3 (split; [done|]).
      destruct Hw as [[-> _]|(data & -> & _ & ? & ?)]; [by left|right; by exists data].
    + intros [= <-]. left. split; [done|]. destruct Hw as [[-> Hc]|(? & _ & [=] & _)].
      split; [|by apply Eid]. intros n' _ Hn''. split; [by apply Eid|].
      change (Data (with_SrcNet m pk)) with (Data pk) in *. congruence.
  - rewrite bind_Ok. destruct ok; cbn [negb].
    + destruct (verifyDDPChecksum (Some pk)) as [[]| |] eqn:Ev; [|done..]. rewrite bind_Ok.
      intros [= <-]. by right.
    + intros [= <-]. left. split; [done|]. split; [|by apply Eid]. intros n E'. zbool. done.
Qed.

(** ** Filtering *)

Lemma filter_length_full {A} (f : A -> bool) l :
  length (List.filter f l) = length l -> List.filter f l = l.
Proof.
  induction l as [|x l IH]; [done|]. cbn [List.filter length].
  pose proof (List.filter_length_le f l). destruct (f x); cbn [length]; intros E; [|lia].
  f_equal. apply IH. lia.
Qed.

Lemma list_filter_all {A} (f : A -> bool) l : (forall x, f x = true) -> List.filter f l = l.
Proof. intros Hf. induction l as [|x l IH]; [done|]. cbn [List.filter]. by rewrite Hf, IH. Qed.

Lemma zlen_enc_filter f ts :
  zlen (concat (map enc_tuple (List.filter f ts))) <= zlen (concat (map enc_tuple ts)).
Proof.
  induction ts as [|t ts IH]; [done|]. cbn [List.filter]. destruct (f t); cbn [map concat];
    rewrite !zlen_app; pose proof (zlen_nonneg (enc_tuple t)); lia.
Qed.

Lemma Forall_list_filter {A} (P : A -> Prop) f l : Forall P l -> Forall P (List.filter f l).
Proof. induction 1; cbn [List.filter]; [constructor|]. case_if; [by constructor|done]. Qed.

Lemma filtered_reply pk n f data :
  bytes_ok (Data pk) -> NBP.Unmarshal (Data pk) = Ok n -> NBP.Function_ n = NBP.FunctionLkUpReply ->
  List.filter f (NBP.Tuples n) <> [] ->
  NBP.Marshal (NBP.with_Tuples (List.filter f (NBP.Tuples n)) n) = Ok data ->
  NBP.Unmarshal data = Ok (NBP.with_Tuples (List.filter f (NBP.Tuples n)) n) /\
  zlen data <= zlen (Data pk).
Proof.
  intros Hd Hn Hf Hne Hm. destruct (Unmarshal_facts _ _ Hd Hn) as (Ht & _ & (Hl & _) & rest & Er).
  set (ts := List.filter f (NBP.Tuples n)) in *. destruct Ht as (Ht1 & Ht2 & Ht3).
  pose proof (List.filter_length_le f (NBP.Tuples n)) as Hle. fold ts in Hle.
  destruct (remarshal (Data pk) n ts data Hd Hn) as [-> Hu]; [| |done|].
  - split; [done|]. split; [done|]. by apply Forall_list_filter.
  - split; [|done]. cbn [NBP.Tuples NBP.with_Tuples]. unfold zlen in *.
    destruct ts; [done|]. simpl in *. lia.
  - split; [done|]. rewrite Er. unfold enc_nbp. cbn [NBP.Tuples NBP.with_Tuples].
    rewrite !zlen_app, !zlen_cons, zlen_nil. pose proof (zlen_enc_filter f (NBP.Tuples n)).
    fold ts in H. pose proof (zlen_nonneg rest). lia.
Qed.
End Lemmas.

(** * Properties *)

Section Theorems.
Context {GStr : GoStrings} `{MT : Multitalk} {ML : MultitalkLaws}.
Context (c : AURPConfig) (p : PeerIdent).

(** Translating an inbound packet changes exactly what the rules say: the
    source network and the network of every NBP tuple are the remapped ones,
    everything else in the header - hop count included - and in the names is
    the same, the size field still agrees with the data, and a packet that was
    changed had a valid checksum and leaves without one. *)
Theorem inbound_remap_exact (pk pk' : ExtPacket) :
  ext_typed pk -> size_ok pk -> remapInboundDDP c p (Some pk) = Ok (Some pk') ->
  SrcNet pk' = remapped c p (SrcNet pk) /\
  (DstNet pk', DstNode pk', SrcNode pk', DstSocket pk', SrcSocket pk', Proto pk') =
    (DstNet pk, DstNode pk, SrcNode pk, DstSocket pk, SrcSocket pk, Proto pk) /\
  ddpHopCount pk' = ddpHopCount pk /\ size_ok pk' /\
  (if Proto pk =? ProtoNBP then
     forall n, NBP.Unmarshal (Data pk) = Ok n -> NBP.Unmarshal (Data pk') = Ok (remap_pkt c p n)
   else Data pk' = Data pk) /\
  (pk' = pk \/ Cksum pk' = 0 /\ verifyDDPChecksum (Some pk) = Ok tt).
Proof.
  intros Hp Hs [(-> & Hn & Hsrc)|[Hv H]]%remapInbound_cases; [| |done].
  - do 4 (split; [done|]). split; [|by left]. case_if; [|done]. zbool.
    intros n E'. destruct (Hn n E E') as [_ ->]. done.
  - cbn zeta in H. destruct (Proto pk =? ProtoNBP).
    + destruct H as (n & w' & Hn & Hn' & -> & [->|(data & -> & Hl & _)]).
      * do 4 (split; [done|]). split; [|by right]. intros n' E. rewrite Hn in E. by injection E as <-.
      * pose proof (size_ok_bound pk Hs). pose proof (zlen_nonneg data).
        set (w := with_Data data (with_SrcNet (remapped c p (SrcNet pk)) pk)).
        do 2 (split; [done|]). split; [apply (setDDPDataSize_hops (zlen data) w)|].
        split; [by apply (setDDPDataSize_ok (zlen data) w); [..|lia]|]. split; [|by right].
        intros n' E. rewrite Hn in E. by injection E as <-.
    + subst pk'. do 5 (split; [done|]). by right.
Qed.

(** C24: translation is transparent to conversations: with a validated
    configuration, an answer sent to the local number that a received packet
    was given leaves with the network number the packet came from, nothing else
    in it changed but the checksum, which is dropped (after it was verified). *)
Theorem remap_reply_returns (pk pk' answer : ExtPacket) (m : Z) :
  validate_remap (RemapRules c) = true -> Forall rule_widths (RemapRules c) ->
  ext_typed pk -> remapInboundNetwork c p (SrcNet pk) = (m, true) ->
  remapInboundDDP c p (Some pk) = Ok (Some pk') ->
  DstNet answer = SrcNet pk' -> verifyDDPChecksum (Some answer) = Ok tt ->
  remapOutboundDDP c p answer = Ok (with_Cksum 0 (with_DstNet (SrcNet pk) answer)).
Proof.
  intros Hv Hw Hp Hm H Ha Hc. assert (Hs : SrcNet pk' = m).
  { assert (Er : remapped c p (SrcNet pk) = m) by (unfold remapped; by rewrite Hm).
    apply remapInbound_cases in H as [(-> & _ & Hsrc)|[_ H]]; [congruence| |done].
    cbn zeta in H. destruct (Proto pk =? ProtoNBP); [|by subst pk'].
    destruct H as (n & w' & _ & _ & -> & [->|(data & -> & _)]); done. }
  unfold remapOutboundDDP. rewrite Ha, Hs.
  destruct (remap_back c p (SrcNet pk) m Hv Hw Hm) as [-> _]. cbn [negb]. by rewrite Hc.
Qed.

(** Device hiding removes exactly the hidden devices from a lookup reply:
    a packet that gets through is the original one, or a reply without a
    checksum whose size field agrees with its data and that lists the devices
    that are not hidden, in order; it is dropped only when it listed nothing
    but hidden devices. *)
Theorem device_filter_exact (pk : ExtPacket) (direction : list Z) (n : NBP.Packet) (r : option ExtPacket * bool) :
  ext_typed pk -> size_ok pk -> Proto pk = ProtoNBP -> NBP.Unmarshal (Data pk) = Ok n ->
  filterDeviceNBP c p (Some pk) direction = Ok r ->
  let shown := List.filter (fun t => negb (device_hidden c p direction t)) (NBP.Tuples n) in
  if NBP.Function_ n =? NBP.FunctionLkUpReply then
    match r with
    | (Some pk', drop) =>
        drop = false /\ NBP.Unmarshal (Data pk') = Ok (NBP.with_Tuples shown n) /\ shown <> [] /\
        size_ok pk' /\ (pk' = pk \/ Cksum pk' = 0 /\ verifyDDPChecksum (Some pk) = Ok tt) /\
        (DstNet pk', SrcNet pk', ddpHopCount pk') = (DstNet pk, SrcNet pk, ddpHopCount pk)
    | (None, drop) => drop = true /\ shown = []
    end
  else r = (Some pk, false).
Proof.
  intros Hp Hs Hpr Hn. assert (Hd : bytes_ok (Data pk)) by apply Hp.
  destruct (Unmarshal_facts _ _ Hd Hn) as (Ht & Hf & Hc & rest & Er). cbn zeta.
  set (shown := List.filter _ (NBP.Tuples n)).
  assert (Hfull : zlen shown = zlen (NBP.Tuples n) -> shown = NBP.Tuples n).
  { intros E. apply filter_length_full. unfold zlen in E. unfold shown in *. lia. }
  assert (Hsame : shown = NBP.Tuples n -> NBP.with_Tuples shown n = n) by (intros ->; by destruct n).
  unfold filterDeviceNBP. rewrite Hpr, Z.eqb_refl. cbn [negb orb]. case_if; zbool.
  - intros [= <-]. case_if; [|done].
    assert (Es : shown = NBP.Tuples n).
    { apply list_filter_all. intros t. unfold device_hidden. by destruct (HiddenDevices c). }
    split; [done|]. rewrite Hsame by done. split; [done|].
    split; [rewrite Es; by apply count_nonempty|].
    split; [done|]. split; [by left|done].
  - rewrite Hn. cbn [wrap_err]. rewrite bind_Ok.
    destruct (NBP.Function_ n =? NBP.FunctionLkUpReply) eqn:Ef; cbn [negb]; [|by intros [= <-]].
    fold shown. case_if; zbool.
    + intros [= <-]. assert (Es : shown = NBP.Tuples n) by (apply Hfull; lia).
      split; [done|]. rewrite Hsame by done. split; [done|].
      split; [rewrite Es; by apply count_nonempty|].
      split; [done|]. split; [by left|done].
    + case_if; zbool; [intros [= <-]; split; [done|]; by destruct shown; [|unfold zlen in *]|].
      destruct (verifyDDPChecksum (Some pk)) as [[]| |] eqn:Ev; [|done..]. rewrite bind_Ok.
      destruct (NBP.Marshal (NBP.with_Tuples shown n)) as [data| |] eqn:Em; [|done..].
      cbn [wrap_err]. rewrite bind_Ok. intros [= <-].
      assert (Hne : shown <> []) by (intros Es; apply E1; by rewrite Es).
      destruct (filtered_reply pk n _ data Hd Hn Ef Hne Em) as (Hu & Hl).
      pose proof (size_ok_bound pk Hs). pose proof (zlen_nonneg data).
      set (w := with_Cksum 0 (with_Data data pk)).
      split; [done|]. split; [done|]. split; [done|].
      split; [by apply (setDDPDataSize_ok (zlen data) w); [..|lia]|]. split; [by right|].
      f_equal. apply (setDDPDataSize_hops (zlen data) w).
Qed.
End Theorems.

(** ** Witnesses *)

Definition wit_lisa : NBP.Tuple := NBP.MkTuple 9 8 129 1 (str "Lisa") (str "AFPServer") (str "*").
Definition wit_devices : NBP.Packet :=
  NBP.MkPacket NBP.FunctionLkUpReply 42 [NBP.with_Network 13 wit_tuple; wit_lisa].
(** A lookup reply from network 13, two hops away. *)
Definition wit_inbound : ExtPacket :=
  MkExt (2 * 1024 + 13 + 45) 26501 3 13 1 2 4 4 2 (enc_nbp wit_devices).

Lemma wit_inbound_typed : ext_typed wit_inbound.
Proof. const_widths. Qed.

#[local] Instance wit_strings : GoStrings := ascii_strings.

Definition wit_translated : ExtPacket :=
  MkExt (2 * 1024 + 13 + 45) 0 3 103 1 2 4 4 2
    (enc_nbp (remap_pkt wit_config wit_ident wit_devices)).

Example wit_translation :
  remapInboundDDP wit_config wit_ident (Some wit_inbound) = Ok (Some wit_translated).
Proof. vm_compute. reflexivity. Qed.

Example inbound_remap_exact_witness :
  SrcNet wit_translated = remapped wit_config wit_ident (SrcNet wit_inbound) /\
  (DstNet wit_translated, DstNode wit_translated, SrcNode wit_translated,
   DstSocket wit_translated, SrcSocket wit_translated, Proto wit_translated) =
    (DstNet wit_inbound, DstNode wit_inbound, SrcNode wit_inbound,
     DstSocket wit_inbound, SrcSocket wit_inbound, Proto wit_inbound) /\
  ddpHopCount wit_translated = ddpHopCount wit_inbound /\ size_ok wit_translated /\
  (if Proto wit_inbound =? ProtoNBP then
     forall n, NBP.Unmarshal (Data wit_inbound) = Ok n ->
       NBP.Unmarshal (Data wit_translated) = Ok (remap_pkt wit_config wit_ident n)
   else Data wit_translated = Data wit_inbound) /\
  (wit_translated = wit_inbound \/
   Cksum wit_translated = 0 /\ verifyDDPChecksum (Some wit_inbound) = Ok tt).
Proof.
  apply (inbound_remap_exact wit_config wit_ident wit_inbound wit_translated);
    [apply wit_inbound_typed|vm_compute; reflexivity|exact wit_translation].
Defined.

Definition wit_answer : ExtPacket := MkExt 14 0 103 3 2 1 4 4 4 [7].

Example remap_reply_returns_witness :
  remapOutboundDDP wit_config wit_ident wit_answer =
    Ok (with_Cksum 0 (with_DstNet (SrcNet wit_inbound) wit_answer)).
Proof.
  apply (remap_reply_returns wit_config wit_ident wit_inbound wit_translated wit_answer 103);
    [vm_compute; reflexivity|exact wit_rule_widths|apply wit_inbound_typed|vm_compute; reflexivity|
     exact wit_translation|reflexivity|reflexivity].
Defined.

(** The configuration that hides every device called Mac. *)
Definition wit_hiding : AURPConfig :=
  {| LastHeardFromTimeout := 0; RetryInterval := 0; SendRetryLimit := 0;
     TickleRetryLimit := 0; ZoneInfoRetryInterval := 0; UpdateInterval := 0;
     HiddenNetworks := []; HopCountReduction := false; HopCountWeight := 0; RemapRules := [];
     HiddenDevices := [{| dh_Peer := []; dh_Object := str "mac"; dh_Type := str "*";
                          dh_Direction := str "both" |}];
     Clusters := []; BackupPeers := []; HiddenImportNetworks := []; HiddenExportNetworks := [] |}.

Definition wit_filtered : ExtPacket :=
  MkExt (2 * 1024 + 13 + 24) 0 3 13 1 2 4 4 2
    (enc_nbp (NBP.with_Tuples [wit_lisa] wit_devices)).

Example device_filter_exact_witness :
  let shown := List.filter (fun t => negb (device_hidden wit_hiding wit_ident (str "import") t))
                 (NBP.Tuples wit_devices) in
  false = false /\ NBP.Unmarshal (Data wit_filtered) = Ok (NBP.with_Tuples shown wit_devices) /\
  shown <> [] /\ size_ok wit_filtered /\
  (wit_filtered = wit_inbound \/
   Cksum wit_filtered = 0 /\ verifyDDPChecksum (Some wit_inbound) = Ok tt) /\
  (DstNet wit_filtered, SrcNet wit_filtered, ddpHopCount wit_filtered) =
    (DstNet wit_inbound, SrcNet wit_inbound, ddpHopCount wit_inbound).
Proof.
  apply (device_filter_exact wit_hiding wit_ident wit_inbound (str "import") wit_devices
    (Some wit_filtered, false)); [apply wit_inbound_typed|vm_compute; reflexivity..].
Defined.
