(* ===== verification/PeerInv.v ===== *)
(** * The AURP peer: invariant of the state machine

    Hoare-style reasoning over the peer monad, the facts that sending and
    route-table operations leave the rest of the peer alone, and the invariant
    of the whole state machine: the route table stays consistent, sequence
    numbers stay valid, and a waiting sender has exactly one outstanding packet,
    the one it will retransmit, carrying the current connection ID and sequence
    number. *)
From S2P Require Import Prelude Wtacc AurpHeaders AurpTuples AurpZoneInfo AurpPacket.
From S2P Require Import AurpTransport PeerPolicy GoSort RouteTable RouteTableInv RouteTableOps.
From S2P Require Import RouteTableSpec RouteExport PeerState PeerZones PeerFSM.
Import RT Policy Exp PS Zones FSM.

(** ** Triples *)

Definition hoare {A} (P : World -> Prop) (m : M A) (Q : A -> World -> Prop) : Prop :=
  forall w, P w -> match m w with Some (w', a) => Q a w' | None => True end.

Lemma hoare_ret {A} (P : World -> Prop) (a : A) : hoare P (mret a) (fun _ => P).
Proof. intros w H. exact H. Qed.

Lemma hoare_bind {A B} P (Q : A -> World -> Prop) (R : B -> World -> Prop) (m : M A) f :
  hoare P m Q -> (forall a, hoare (Q a) (f a) R) -> hoare P (m ≫= f) R.
Proof.
  intros Hm Hf w Hw. specialize (Hm w Hw). unfold mbind, M_bind.
  destruct (m w) as [[w' a]|]; [by apply Hf|done].
Qed.

Lemma hoare_mono {A} (P P' : World -> Prop) (Q Q' : A -> World -> Prop) m :
  hoare P' m Q' -> (forall w, P w -> P' w) -> (forall a w, Q' a w -> Q a w) -> hoare P m Q.
Proof.
  intros Hm HP HQ w Hw. specialize (Hm w (HP w Hw)). destruct (m w) as [[w' a]|]; auto.
Qed.

(** ** Frames *)

(** The part of a world the invariant speaks of. *)
Definition core (w : World) : RouteTable * Transport * SenderState * option Packet :=
  (rtab w, tr (pr w), sstate (snd (pr w)), lastRISent (snd (pr w))).

(** [quiet m]: [m] leaves the core alone. *)
Definition quiet {A} (m : M A) : Prop :=
  forall w, match m w with Some (w', _) => core w' = core w | None => True end.

Lemma quiet_ret {A} (a : A) : quiet (mret a).
Proof. done. Qed.

Lemma quiet_bind {A B} (m : M A) (f : A -> M B) :
  quiet m -> (forall a, quiet (f a)) -> quiet (m ≫= f).
Proof.
  intros Hm Hf w. specialize (Hm w). unfold mbind, M_bind.
  destruct (m w) as [[w' a]|]; [|done]. specialize (Hf a w').
  destruct (f a w') as [[w'' b]|]; [congruence|done].
Qed.

Lemma quiet_get {A} (f : World -> A) : quiet (get f).
Proof. done. Qed.
Lemma quiet_getp {A} (f : Peer -> A) : quiet (getp f).
Proof. done. Qed.
Lemma quiet_modr f : quiet (modr f).
Proof. done. Qed.
Lemma quiet_modtm f : quiet (modtm f).
Proof. done. Qed.
Lemma quiet_modq f : quiet (modq f).
Proof. done. Qed.
Lemma quiet_bump c n : quiet (bump c n).
Proof. done. Qed.
Lemma quiet_chat p b : quiet (addToChatLog p b).
Proof. done. Qed.
Lemma quiet_pending_rsp l : quiet (mods (with_pendingRIRsp l)).
Proof. done. Qed.
Lemma quiet_pending_upd l : quiet (mods (with_pendingRIUpd l)).
Proof. done. Qed.
Lemma quiet_queue q : quiet (mods (with_queue q)).
Proof. done. Qed.
Lemma quiet_probe b : quiet (mods (with_restartProbe b)).
Proof. done. Qed.

Lemma quiet_udp p : quiet (udp_write p).
Proof. intros w. unfold udp_write. by destruct (io w) as [|[] ?]. Qed.

Lemma quiet_none {A} : quiet (fun _ => None : option (World * A)).
Proof. done. Qed.

Create HintDb quiet.
#[global] Hint Resolve quiet_ret quiet_get quiet_getp quiet_modr quiet_modtm quiet_modq
  quiet_bump quiet_chat quiet_pending_rsp quiet_pending_upd quiet_queue quiet_probe
  quiet_udp quiet_none : quiet.

(** Structural proof that a computation is quiet. *)
Ltac quiet_solve :=
  repeat first
    [ solve [auto with quiet]
    | apply quiet_bind; [|intros]
    | match goal with
      | |- quiet (match ?x with _ => _ end) => destruct x
      | |- quiet (if ?x then _ else _) => destruct x
      end ].

Lemma quiet_send p : quiet (send p).
Proof. unfold send, storeLastSend. quiet_solve. Qed.

Lemma quiet_send_tr f : quiet (send_tr f).
Proof. unfold send_tr. apply quiet_bind; [apply quiet_getp|intros; apply quiet_send]. Qed.

Lemma quiet_setRState s : quiet (setRState s).
Proof. apply quiet_modr. Qed.

#[global] Hint Resolve quiet_send quiet_send_tr quiet_setRState : quiet.

Section Quiet.
Context {GStr : GoStrings} {GS : GoSort}.

Lemma quiet_mark n : quiet (markZoneInfoPending n).
Proof. unfold markZoneInfoPending. quiet_solve. Qed.
Lemma quiet_clear n : quiet (clearPendingZoneInfo n).
Proof. unfold clearPendingZoneInfo. quiet_solve. Qed.
Lemma quiet_alive : quiet markReceiverAlive.
Proof. unfold markReceiverAlive. quiet_solve. Qed.
Lemma quiet_lastsend : quiet storeLastSend.
Proof. unfold storeLastSend. quiet_solve. Qed.
Lemma quiet_retries n : quiet (storeSendRetries n).
Proof. apply quiet_modtm. Qed.
Lemma quiet_loop n : quiet (noteLoopIndicativeNetwork n).
Proof. unfold noteLoopIndicativeNetwork. quiet_solve. done. Qed.
Lemma quiet_send_all l : quiet (send_all l).
Proof. induction l; cbn [send_all]; quiet_solve. Qed.
Lemma quiet_failure : quiet noteReconnectFailure.
Proof. unfold noteReconnectFailure. quiet_solve. Qed.
Lemma quiet_reset : quiet resetReconnectBackoff.
Proof. unfold resetReconnectBackoff. quiet_solve. Qed.
Lemma quiet_count : quiet count_retry.
Proof. apply quiet_modtm. Qed.
Lemma quiet_open : quiet send_open_req.
Proof. unfold send_open_req. quiet_solve. Qed.
Lemma quiet_built r : quiet (send_built r).
Proof. destruct r; simpl; [apply quiet_send_all|apply quiet_ret|apply quiet_none]. Qed.
Lemma quiet_zirsp z : quiet (sendZIRspPackets z).
Proof.
  unfold sendZIRspPackets. apply quiet_bind; [apply quiet_getp|]. intros. apply quiet_built.
Qed.
Lemma quiet_local h : quiet (checkLocalConnID h).
Proof. unfold checkLocalConnID. quiet_solve. Qed.
Lemma quiet_remote h : quiet (checkRemoteConnID h).
Proof. unfold checkRemoteConnID. quiet_solve. Qed.
End Quiet.

#[global] Hint Resolve quiet_mark quiet_clear quiet_alive quiet_lastsend quiet_retries quiet_loop
  quiet_failure quiet_reset quiet_count quiet_open quiet_built quiet_zirsp quiet_local
  quiet_remote : quiet.

(** ** The invariant *)

Definition waiting (ss : SenderState) : bool :=
  match ss with SenderUnconnected | SenderConnected => false | _ => true end.

(** The packet a waiting state is waiting to have acknowledged. *)
Definition kind_ok (ss : SenderState) (p : Packet) : Prop :=
  match ss, p with
  | SenderWaitForRIRspAck, RIRspPacket _ _ => True
  | SenderWaitForRIUpdAck, RIUpdPacket _ _ => True
  | SenderWaitForRDAck, RDPacket _ _ => True
  | _, _ => False
  end.

Definition current (t : Transport) (p : Packet) : Prop :=
  exists h, pkt_header p = Some h /\ ConnectionID (HTrHeader h) = remoteConnID t /\
    Sequence (HTrHeader h) = localSeq t.

Definition outstanding (t : Transport) (ss : SenderState) (last : option Packet) : Prop :=
  waiting ss = true -> exists p, last = Some p /\ kind_ok ss p /\ current t p.

Section Inv.
Context {GStr : GoStrings} {GS : GoSort}.

Definition winv0 (w : World) : Prop := reachable (rtab w) /\ transport_ok (tr (pr w)).

Definition winv (w : World) : Prop :=
  winv0 w /\ outstanding (tr (pr w)) (sstate (snd (pr w))) (lastRISent (snd (pr w))).

Definition keeps {A} (m : M A) : Prop := hoare winv m (fun _ => winv).

Lemma winv_core w w' : core w' = core w -> winv w -> winv w'.
Proof. unfold core, winv, winv0. intros [= -> -> -> ->]. done. Qed.

Lemma quiet_hoare {A} (P : World -> Prop) (m : M A) :
  (forall w w', core w' = core w -> P w -> P w') -> quiet m -> hoare P m (fun _ => P).
Proof.
  intros HP Hm w Hw. specialize (Hm w). destruct (m w) as [[w' a]|]; [by eapply HP|done].
Qed.

Lemma keeps_quiet {A} (m : M A) : quiet m -> keeps m.
Proof. intros Hm. apply quiet_hoare; [|done]. intros. by eapply winv_core. Qed.

Lemma keeps_bind {A B} (m : M A) (f : A -> M B) :
  keeps m -> (forall a, keeps (f a)) -> keeps (m ≫= f).
Proof. intros Hm Hf. by eapply hoare_bind. Qed.

Lemma keeps_modtr f :
  (forall t, transport_ok t -> transport_ok (f t) /\ localSeq (f t) = localSeq t /\
     remoteConnID (f t) = remoteConnID t) -> keeps (modtr f).
Proof.
  intros Hf w ((Hr & Ht) & Ho). destruct (Hf _ Ht) as (Ht' & E1 & E2). split; [done|].
  intros Hw. destruct (Ho Hw) as (p & ? & ? & h & ? & ? & ?). exists p. split_and!; try done.
  exists h. simpl. by rewrite E1, E2.
Qed.

Lemma keeps_ResetRemoteSeq : keeps (modtr ResetRemoteSeq).
Proof.
  apply keeps_modtr. intros t Ht. split; [|done].
  by apply (transport_run_ok OpResetRemoteSeq t Ht I).
Qed.
Lemma keeps_IncRemoteSeq : keeps (modtr IncRemoteSeq).
Proof.
  apply keeps_modtr. intros t Ht. split; [|done].
  by apply (transport_run_ok OpIncRemoteSeq t Ht I).
Qed.
Lemma keeps_IncLocalConnID : keeps (modtr IncLocalConnID).
Proof.
  apply keeps_modtr. intros t Ht. split; [|done].
  by apply (transport_run_ok OpIncLocalConnID t Ht I).
Qed.

(** *** Route-table operations *)

Lemma deliver_all_frame notes w :
  let w' := deliver_all notes w in
  core w' = core w /\ rcv (pr w') = rcv (pr w) /\ tm (pr w') = tm (pr w) /\
  ident (pr w') = ident (pr w) /\ timing (pr w') = timing (pr w) /\ pid (pr w') = pid (pr w) /\
  now w' = now w /\ sent w' = sent w /\ io w' = io w /\
  pendingRIRsp (snd (pr w')) = pendingRIRsp (snd (pr w)) /\
  pendingRIUpd (snd (pr w')) = pendingRIUpd (snd (pr w)).
Proof.
  revert w. induction notes as [|[o e] notes IH]; intros w; cbn [deliver_all]; [by split_and!|].
  match goal with |- context [deliver_all notes ?x] => destruct (IH x) as (H1 & H2 & H3 & H4 & H5 & H6 & H7 & H8 & H9 & H10 & H11) end.
  case_bool_decide; unfold core in *; simpl in *; by split_and!.
Qed.

Lemma hoare_table {A} (P : World -> Prop) (f : Z -> RouteTarget -> RouteTable ->
    option (A * RouteTable * list (positive * Note))) :
  (forall w w', reachable (rtab w) -> reachable (rtab w') ->
     tr (pr w') = tr (pr w) -> sstate (snd (pr w')) = sstate (snd (pr w)) ->
     lastRISent (snd (pr w')) = lastRISent (snd (pr w)) -> P w -> P w') ->
  (forall w, P w -> reachable (rtab w)) ->
  (forall n t rt a rt' notes, f n t rt = Some (a, rt', notes) -> rt_step rt rt') ->
  hoare P (table_op f) (fun _ => P).
Proof.
  intros HP Hreach Hf w Hw. unfold table_op.
  destruct (f (now w) (self (pr w)) (rtab w)) as [[[a rt'] notes]|] eqn:E; [|done].
  apply Hf in E. destruct (deliver_all_frame notes (with_rtab rt' w)) as (Hc & _).
  unfold core in Hc. injection Hc as H1 H2 H3 H4. simpl in *.
  assert (Hr : reachable rt') by (eapply rtc_r; [by apply Hreach|done]).
  apply (HP w); [by apply Hreach|by rewrite H1|done..].
Qed.

Lemma keeps_table {A} (f : Z -> RouteTarget -> RouteTable ->
    option (A * RouteTable * list (positive * Note))) :
  (forall n t rt a rt' notes, f n t rt = Some (a, rt', notes) -> rt_step rt rt') ->
  keeps (table_op f).
Proof.
  intros Hf. apply hoare_table; [| |done].
  - intros w w' _ Hr E1 E2 E3 ((_ & Ht) & Ho). unfold winv, winv0. by rewrite E1, E2, E3.
  - by intros w ((Hr & _) & _).
Qed.

Lemma keeps_upsert ext s e d : u16 s -> u16 e -> u8 d -> keeps (table_upsert ext s e d).
Proof.
  intros Hs He Hd. apply keeps_table. intros n t rt a rt' notes H.
  by apply (step_upsert rt n t ext s e d a rt' notes).
Qed.
Lemma keeps_delete s : u16 s -> keeps (table_delete s).
Proof.
  intros Hs. apply keeps_table. intros n t rt a rt' notes H.
  by apply (step_delete rt n t s a rt' notes).
Qed.
Lemma keeps_update s d : u16 s -> u8 d -> keeps (table_update s d).
Proof.
  intros Hs Hd. apply keeps_table. intros n t rt a rt' notes H.
  by apply (step_update rt n t s d a rt' notes).
Qed.
Lemma step_delete_target_op n t rt a rt' notes :
  match DeleteTarget n t rt with Some (rt', notes) => Some (tt, rt', notes) | None => None end
  = Some (a, rt', notes) -> rt_step rt rt'.
Proof.
  destruct (DeleteTarget n t rt) as [[rt1 n1]|] eqn:E; [|done]. intros [= _ <- <-].
  by eapply step_delete_target.
Qed.
Lemma keeps_delete_target : keeps table_delete_target.
Proof. apply keeps_table. intros n t rt a rt' notes. apply step_delete_target_op. Qed.
Lemma keeps_replace net zs : u16 net -> keeps (table_replace_zones net zs).
Proof.
  intros Hn. apply keeps_table. intros n t rt a rt' notes.
  destruct (ReplaceZonesForNetwork n net zs rt) as [rt1 n1] eqn:E. intros [= _ <- <-].
  replace rt1 with (ReplaceZonesForNetwork n net zs rt).1 by (by rewrite E).
  by apply step_replace_zones.
Qed.

Lemma keeps_observer_add : keeps AddObserver_self.
Proof.
  intros w ((Hr & Ht) & Ho). split; [split; [|done]|done]. simpl.
  eapply rtc_r; [done|]. apply step_add_observer.
Qed.
Lemma keeps_observer_remove : keeps RemoveObserver_self.
Proof.
  intros w ((Hr & Ht) & Ho). split; [split; [|done]|done]. simpl.
  eapply rtc_r; [done|]. apply step_remove_observer.
Qed.

Lemma keeps_disconnectReceiver : keeps disconnectReceiver.
Proof.
  unfold disconnectReceiver. repeat (apply keeps_bind; [|intros]);
    auto using keeps_delete_target, keeps_ResetRemoteSeq, keeps_IncLocalConnID;
    apply keeps_quiet; auto with quiet.
Qed.

Lemma weak_modtr f :
  (forall t, transport_ok t -> transport_ok (f t)) -> hoare winv0 (modtr f) (fun _ => winv0).
Proof. intros Hf w [Hr Ht]. split; [exact Hr|by apply Hf]. Qed.

Lemma weak_mods f : hoare winv0 (mods f) (fun _ => winv0).
Proof. intros w H. exact H. Qed.

Lemma weak_modq f : hoare winv0 (modq f) (fun _ => winv0).
Proof. intros w H. exact H. Qed.

(** Disconnecting the sender restores the invariant from the weak one. *)
Lemma disconnectSender_inv : hoare winv0 disconnectSender (fun _ => winv).
Proof.
  unfold disconnectSender.
  do 7 (eapply hoare_bind;
        [first [ apply weak_mods | apply weak_modq
               | apply weak_modtr; intros tr0 Htr;
                 first [ by apply (transport_run_ok OpResetLocalSeq tr0 Htr I)
                       | by apply (transport_run_ok (OpSetRemoteConnID 0) tr0 Htr) ] ]
        |intros []; cbv beta]).
  intros w H0. split; [exact H0|]. intros Hw. by apply Is_true_eq_left in Hw.
Qed.

Lemma keeps_disconnectSender : keeps disconnectSender.
Proof. eapply hoare_mono; [apply disconnectSender_inv|by intros w [? _]|done]. Qed.

Lemma keeps_not_waiting ss : waiting ss = false -> keeps (setSState ss).
Proof. intros Hss w (H0 & _). split; [done|]. intros H. simpl in H. congruence. Qed.

(** *** Sending an outstanding packet *)

Lemma outstanding_inv ss pkt :
  kind_ok ss pkt ->
  hoare (fun w => winv0 w /\ current (tr (pr w)) pkt /\
                  (waiting (sstate (snd (pr w))) = true -> sstate (snd (pr w)) = ss))
    (send_outstanding (Ok pkt) ss) (fun _ => winv).
Proof.
  intros Hk w (H0 & Hc & Hs). unfold send_outstanding, mbind at 1, M_bind at 1. simpl.
  set (w1 := with_pr _ w). pose proof (quiet_send pkt w1) as Hq. unfold mbind, M_bind.
  destruct (send pkt w1) as [[w2 err]|]; [|done]. unfold core in Hq. injection Hq as E1 E2 E3 E4.
  simpl in *. destruct err as [e|]; simpl.
  - split; [unfold winv0; by rewrite E1, E2|]. intros Hw. rewrite E3 in *.
    exists pkt. rewrite E4, E2. split_and!; [done| |done]. by rewrite (Hs Hw).
  - split; [unfold winv0 in *; simpl; by rewrite E1, E2|]. intros Hw. simpl in *.
    exists pkt. by rewrite E4, E2.
Qed.

Lemma IncLocalSeq_ok t : transport_ok t -> transport_ok (IncLocalSeq t).
Proof. intros Ht. by apply (transport_run_ok OpIncLocalSeq t Ht I). Qed.

Lemma winv0_tr w t : winv0 w -> transport_ok t -> winv0 (with_pr (with_tr t (pr w)) w).
Proof. intros [? ?] ?. done. Qed.
End Inv.
