(* ===== verification/PeerKeeps.v ===== *)
(** * The AURP peer: every handler keeps the invariant

    One lemma per handler, ticker and loop event of [router/aurp_peer.go]: run
    from a world satisfying [winv] on a packet as the parser returns it, it ends
    (when it returns) in a world satisfying [winv]. *)
From S2P Require Import Prelude Wtacc AurpHeaders AurpTuples AurpZoneInfo AurpPacket.
From S2P Require Import AurpTransport PeerPolicy GoSort RouteTable RouteTableInv RouteTableOps.
From S2P Require Import RouteTableSpec RouteExport PeerState PeerZones PeerFSM Atalk DdpPolicy PeerInv.
Import RT Policy Exp PS Zones FSM.

Section Keeps.
Context {GStr : GoStrings} {GS : GoSort}.

(** ** Rules *)

Lemma hoare_get {A B} P (Q : B -> World -> Prop) (f : World -> A) (k : A -> M B) :
  (forall a, hoare (fun w => P w /\ f w = a) (k a) Q) -> hoare P (get f ≫= k) Q.
Proof. intros Hk w Hw. by apply (Hk (f w)). Qed.

Lemma hoare_getp {A B} P (Q : B -> World -> Prop) (f : Peer -> A) (k : A -> M B) :
  (forall a, hoare (fun w => P w /\ f (pr w) = a) (k a) Q) -> hoare P (getp f ≫= k) Q.
Proof. intros Hk w Hw. by apply (Hk (f (pr w))). Qed.

(** Predicates over the core. *)
Definition coreP (P : World -> Prop) : Prop := forall w w', core w' = core w -> P w -> P w'.

Lemma hoare_quiet_bind {A B} P (Q : B -> World -> Prop) (m : M A) (k : A -> M B) :
  coreP P -> quiet m -> (forall a, hoare P (k a) Q) -> hoare P (m ≫= k) Q.
Proof. intros HP Hm Hk. eapply hoare_bind; [by apply quiet_hoare|done]. Qed.

Lemma hoare_weaken {A} (P P' : World -> Prop) (Q : A -> World -> Prop) m :
  hoare P' m Q -> (forall w, P w -> P' w) -> hoare P m Q.
Proof. intros H HP. by eapply hoare_mono. Qed.

Lemma winv_coreP : coreP winv.
Proof. intros w w'. apply winv_core. Qed.

Lemma winv0_coreP : coreP winv0.
Proof. intros w w' [= E1 E2 _ _]. unfold winv0. by rewrite E1, E2. Qed.

(** Nothing is waiting for an acknowledgement. *)
Definition idle (w : World) : Prop := winv0 w /\ waiting (sstate (snd (pr w))) = false.

Lemma idle_coreP : coreP idle.
Proof. intros w w' H [H0 Hi]. split; [by eapply winv0_coreP|]. injection H as _ _ -> _. done. Qed.

Lemma idle_winv w : idle w -> winv w.
Proof. intros [H0 Hi]. split; [done|]. unfold outstanding. congruence. Qed.

Lemma connected_idle w : winv w -> sstate (snd (pr w)) = SenderConnected -> idle w.
Proof. intros [H0 _] E. split; [done|]. by rewrite E. Qed.

Lemma setSState_idle ss : waiting ss = false -> hoare winv0 (setSState ss) (fun _ => winv).
Proof. intros Hs w H0. apply idle_winv. by split. Qed.

Lemma keeps_ret {A} (a : A) : keeps (mret a).
Proof. apply keeps_quiet, quiet_ret. Qed.

Lemma keeps_weaken {A} (P : World -> Prop) (m : M A) :
  keeps m -> (forall w, P w -> winv w) -> hoare P m (fun _ => winv).
Proof. apply hoare_weaken. Qed.

Lemma keeps_checked c k : keeps c -> keeps k -> keeps (checked c k).
Proof. intros Hc Hk. apply keeps_bind; [done|]. intros []; auto using keeps_ret. Qed.

Lemma keeps_try (m : M error) (k : M error) :
  keeps m -> keeps k ->
  keeps (m ≫= fun err => match err with Some er => mret (Some er) | None => k end).
Proof. intros Hm Hk. apply keeps_bind; [done|]. intros []; auto using keeps_ret. Qed.

Create HintDb keeps.
#[local] Hint Resolve keeps_ret keeps_ResetRemoteSeq keeps_IncRemoteSeq keeps_IncLocalConnID
  keeps_upsert keeps_delete keeps_update keeps_delete_target keeps_replace keeps_observer_add
  keeps_observer_remove keeps_disconnectReceiver keeps_disconnectSender : keeps.

(** Structural proof that a computation keeps the invariant. *)
Ltac keeps_solve :=
  repeat first
    [ progress cbv beta zeta
    | solve [auto 2 with keeps]
    | solve [apply keeps_quiet; auto 2 with quiet]
    | match goal with |- keeps (checked _ _) => apply keeps_checked end
    | apply keeps_bind; [|intros]
    | match goal with
      | |- keeps (match ?x with _ => _ end) => destruct x
      | |- keeps (if ?x then _ else _) => destruct x
      end ].

Lemma keeps_disconnect : keeps disconnect.
Proof. unfold disconnect. keeps_solve. Qed.

Lemma keeps_seq h f : keeps (checkRemoteSeqWithAckFlags h f).
Proof. unfold checkRemoteSeqWithAckFlags. keeps_solve. Qed.

Lemma keeps_seq' h : keeps (checkRemoteSeq h).
Proof. apply keeps_seq. Qed.

(** ** The data sender *)

(** Only the given state may be waiting. *)
Definition only (ss : SenderState) (w : World) : Prop :=
  waiting (sstate (snd (pr w))) = true -> sstate (snd (pr w)) = ss.

Lemma next_inv (m : M (res Packet)) ss :
  (forall w w' r, winv w -> only ss w -> m w = Some (w', r) ->
     match r with
     | Ok pkt => kind_ok ss pkt /\ winv0 w' /\ current (tr (pr w')) pkt /\ only ss w'
     | _ => winv w'
     end) ->
  hoare (fun w => winv w /\ only ss w) (m ≫= fun r => send_outstanding r ss) (fun _ => winv).
Proof.
  intros Hm w [Hw Ho]. unfold mbind, M_bind. destruct (m w) as [[w' r]|] eqn:E; [|done].
  specialize (Hm w w' r Hw Ho E). destruct r as [pkt|e|]; [|done..].
  destruct Hm as (Hk & H). by apply (outstanding_inv ss pkt Hk).
Qed.

Lemma IncLocalSeq_winv0 w :
  winv w -> winv0 (with_pr (with_tr (IncLocalSeq (tr (pr w))) (pr w)) w).
Proof. intros [[Hr Ht] _]. split; [done|]. by apply IncLocalSeq_ok. Qed.

Lemma sendNextRIRsp_inv adv :
  hoare (fun w => winv w /\ only SenderWaitForRIRspAck w) (sendNextRIRsp adv) (fun _ => winv).
Proof.
  apply next_inv. intros w w' r Hw Ho. unfold nextRIRspPacket, mbind, M_bind. simpl.
  destruct (pendingRIRsp (snd (pr w))) as [|c rest]; [by intros [= <- <-]|].
  pose proof (IncLocalSeq_winv0 w Hw) as Hi. destruct Hw as [H0 _].
  destruct adv; intros [= <- <-]; (split; [done|split; [done|split; [by eexists|done]]]).
Qed.

Lemma sendNextRIUpd_inv adv :
  hoare (fun w => winv w /\ only SenderWaitForRIUpdAck w) (sendNextRIUpd adv) (fun _ => winv).
Proof.
  apply next_inv. intros w w' r Hw Ho. unfold nextRIUpdPacket, mbind, M_bind. simpl.
  destruct (pendingRIUpd (snd (pr w))) as [|c rest]; [by intros [= <- <-]|].
  pose proof (IncLocalSeq_winv0 w Hw) as Hi. destruct Hw as [H0 _].
  destruct adv; intros [= <- <-]; (split; [done|split; [done|split; [by eexists|done]]]).
Qed.

(** Advance the sequence number and send a packet while nothing is waiting. *)
Lemma send_new_inv (f : Transport -> Packet) ss :
  (forall t, kind_ok ss (f t) /\ current t (f t)) ->
  hoare idle (_ ← modtr IncLocalSeq; t ← getp tr; send_outstanding (Ok (f t)) ss)
    (fun _ => winv).
Proof.
  intros Hf w [H0 Hi]. unfold mbind at 1, M_bind at 1. simpl.
  set (w1 := with_pr _ w). destruct (Hf (tr (pr w1))) as [Hk Hc].
  apply (outstanding_inv ss _ Hk). split; [|split; [done|]].
  - by apply IncLocalSeq_winv0, idle_winv.
  - intros Hw. simpl in Hw. congruence.
Qed.

Lemma hoare_modtr_idle f :
  (forall t, transport_ok t -> transport_ok (f t)) -> hoare idle (modtr f) (fun _ => idle).
Proof. intros Hf w [[Hr Ht] Hi]. by split; [split; [|apply Hf]|]. Qed.

Lemma ResetLocalSeq_ok t : transport_ok t -> transport_ok (ResetLocalSeq t).
Proof. intros Ht. by apply (transport_run_ok OpResetLocalSeq t Ht I). Qed.

Lemma hoare_idle_winv {A} (m : M A) : quiet m -> hoare idle m (fun _ => winv).
Proof.
  intros Hm. eapply hoare_mono; [apply (quiet_hoare idle m idle_coreP Hm)|done|].
  intros. by apply idle_winv.
Qed.

Lemma keeps_idle {A} (m : M A) : keeps m -> hoare idle m (fun _ => winv).
Proof. intros H. eapply hoare_weaken; [done|]. intros. by apply idle_winv. Qed.

Lemma accept_inv h v : hdr_wf h -> hoare idle (accept_open_req h v) (fun _ => winv).
Proof.
  intros [(_ & Hc & _) _]. unfold accept_open_req.
  eapply hoare_bind.
  { apply (hoare_modtr_idle (SetRemoteConnID (ConnectionID (HTrHeader h)))). intros t Ht.
    by apply (transport_run_ok (OpSetRemoteConnID _) t Ht Hc). }
  intros ?. apply keeps_idle. keeps_solve; by apply keeps_not_waiting.
Qed.

(** The probe sent on an Open-Req for another connection. *)
Lemma probe_inv :
  hoare idle
    (_ ← storeSendRetries 0;
     _ ← modtr IncLocalSeq;
     _ ← mods (with_restartProbe true);
     t ← getp tr;
     let pkt := null_update t in
     _ ← mods (with_lastRISent (Some pkt));
     _ ← storeLastSend;
     err ← send pkt;
     match err with
     | Some e =>
         _ ← mods (with_restartProbe false);
         _ ← mods (with_lastRISent None);
         mret (Some e)
     | None => _ ← setSState SenderWaitForRIUpdAck; mret None
     end) (fun _ => winv).
Proof.
  intros w Hw. unfold storeLastSend, mbind, M_bind. simpl. set (pkt := null_update _).
  set (w1 := with_pr _ _). pose proof (quiet_send pkt w1) as Hq.
  destruct (send pkt w1) as [[w2 err]|]; [|done]. unfold core in Hq.
  injection Hq as E1 E2 E3 E4. simpl in *.
  assert (Hi : idle w2).
  { destruct Hw as [[Hr Ht] Hi]. unfold idle, winv0. rewrite E1, E2, E3.
    split; [split; [done|]|done]. by apply IncLocalSeq_ok. }
  destruct err as [e|]; simpl; [apply idle_winv; by destruct Hi|].
  split; [by destruct Hi|]. intros _. exists pkt. simpl. rewrite E4. split; [done|].
  split; [done|]. rewrite E2. by eexists.
Qed.

Lemma keeps_OpenReq h v : hdr_wf h -> keeps (handleOpenReq h v).
Proof.
  intros Hh. unfold handleOpenReq. apply hoare_getp. intros ss. apply hoare_getp. intros cid.
  destruct (decide (ss = SenderUnconnected)) as [->|Hss].
  { rewrite bool_decide_eq_false_2 by (intros H; by apply H).
    eapply hoare_weaken; [by apply (accept_inv h v)|]. intros w [[[H0 _] E] _]. split; [done|].
    by rewrite E. }
  rewrite bool_decide_eq_true_2 by done.
  assert (Hret : hoare (fun w => (winv w /\ sstate (snd (pr w)) = ss) /\ remoteConnID (tr (pr w)) = cid)
                   (mret (None : error)) (fun _ => winv)) by (by intros w [[? _] _]).
  destruct (cid =? 0); [done|]. destruct (decide (ss = SenderConnected)) as [->|Hc].
  - rewrite bool_decide_eq_false_2 by (intros H; by apply H).
    destruct (_ =? cid); (eapply hoare_weaken; [first [by apply (accept_inv h v)|apply probe_inv]|]);
      intros w [[? ?] _]; by apply connected_idle.
  - rewrite bool_decide_eq_true_2 by done. by destruct (_ =? cid).
Qed.

Lemma keeps_local h : keeps (checkLocalConnID h).
Proof. apply keeps_quiet, quiet_local. Qed.
Lemma keeps_remote h : keeps (checkRemoteConnID h).
Proof. apply keeps_quiet, quiet_remote. Qed.
#[local] Hint Resolve keeps_local keeps_remote keeps_seq keeps_seq' keeps_disconnect : keeps.

Lemma idle_only ss w : idle w -> only ss w.
Proof. intros [_ Hi] Hw. congruence. Qed.

Lemma keeps_RIReq h : keeps (handleRIReq h).
Proof.
  unfold handleRIReq. apply keeps_checked; [apply keeps_remote|].
  apply hoare_getp. intros ss. destruct (decide (ss = SenderConnected)) as [->|Hss].
  2: { rewrite bool_decide_eq_true_2 by done. by intros w [? _]. }
  rewrite bool_decide_eq_false_2 by (intros H; by apply H).
  apply (hoare_weaken _ idle); [|intros w [? ?]; by apply connected_idle].
  apply hoare_quiet_bind; [apply idle_coreP|auto with quiet|intros ?; cbv beta].
  apply hoare_quiet_bind; [apply idle_coreP|auto with quiet|intros routes].
  eapply hoare_bind; [apply hoare_modtr_idle, ResetLocalSeq_ok|intros ?; cbv beta].
  apply hoare_quiet_bind; [apply idle_coreP|auto with quiet|intros t].
  destruct (budget ← _; _) as [chunks|e|]; [|by intros w ?%idle_winv|done].
  apply hoare_quiet_bind; [apply idle_coreP|auto with quiet|intros ?; cbv beta].
  eapply hoare_weaken; [apply sendNextRIRsp_inv|]. intros w Hw. split; [by apply idle_winv|].
  by apply idle_only.
Qed.

Lemma only_coreP ss : coreP (fun w => winv w /\ sstate (snd (pr w)) = ss).
Proof.
  intros w w' H [Hw E]. split; [by eapply winv_core|]. by injection H as _ _ -> _.
Qed.

Lemma advance_inv ss flags :
  hoare (fun w => winv w /\ sstate (snd (pr w)) = ss) (advance_sender ss flags) (fun _ => winv).
Proof.
  unfold advance_sender.
  apply hoare_quiet_bind; [apply only_coreP| |intros ?; cbv beta].
  { destruct (negb _); quiet_solve. }
  apply hoare_quiet_bind; [apply only_coreP|auto with quiet|intros ?; cbv beta].
  apply hoare_quiet_bind; [apply only_coreP|auto with quiet|intros rsps].
  apply hoare_quiet_bind; [apply only_coreP|auto with quiet|intros upds].
  destruct (bool_decide (ss = SenderWaitForRIRspAck) && _) eqn:E1.
  { apply andb_true_iff in E1 as [->%bool_decide_eq_true _].
    eapply hoare_weaken; [apply sendNextRIRsp_inv|]. intros w [? ?]. split; [done|by intros ?]. }
  destruct (bool_decide (ss = SenderWaitForRIUpdAck) && _) eqn:E2.
  { apply andb_true_iff in E2 as [->%bool_decide_eq_true _].
    eapply hoare_weaken; [apply sendNextRIUpd_inv|]. intros w [? ?]. split; [done|by intros ?]. }
  apply keeps_weaken; [|by intros w [? _]].
  apply keeps_bind; [by apply keeps_not_waiting|intros ?; cbv beta]. keeps_solve.
Qed.

Lemma keeps_RIAck h : keeps (handleRIAck h).
Proof.
  unfold handleRIAck. apply keeps_checked; [apply keeps_remote|].
  apply keeps_bind; [keeps_solve|intros want]. destruct (negb _); [keeps_solve|].
  apply hoare_getp. intros ss. apply hoare_getp. intros probe.
  apply (hoare_weaken _ (fun w => winv w /\ sstate (snd (pr w)) = ss)); [|by intros w [? _]].
  destruct (bool_decide (ss = SenderWaitForRIUpdAck) && probe).
  { intros w [[H0 _] _]. apply idle_winv. by split. }
  destruct (bool_decide (ss = SenderWaitForRDAck)); [|apply advance_inv].
  apply keeps_weaken; [|by intros w [? _]]. keeps_solve.
Qed.

Lemma keeps_requests h :
  (forall ns, keeps (handleZIReq h ns)) /\ keeps (handleGDZLReq h) /\
  (forall z, keeps (handleGZNReq h z)) /\ keeps (handleTickle h).
Proof.
  split; [intros ns|split; [|split; [intros z|]]]; unfold handleZIReq, handleGDZLReq,
    handleGZNReq, handleTickle; keeps_solve.
Qed.

(** ** The data receiver *)

Lemma keeps_OpenRsp h r : keeps (handleOpenRsp h r).
Proof. unfold handleOpenRsp. keeps_solve. Qed.

Lemma remapInbound_u16 c p n : u16 n -> u16 (remapInboundNetwork c p n).1.
Proof.
  intros Hn. unfold remapInboundNetwork. induction (RemapRules c) as [|r rules IH]; [done|].
  cbn [remap_with]. unfold remapNetworkNumber.
  repeat (case_match; simplify_eq; try done); by apply wrap16_u16.
Qed.

Lemma remapInboundRange_u16 c p a b s e ok :
  u16 a -> u16 b -> remapInboundRange c p a b = (s, e, ok) -> u16 s /\ u16 e.
Proof.
  intros Ha Hb. unfold remapInboundRange. induction (RemapRules c) as [|r rules IH]; cbn.
  { by intros [= <- <- <-]. }
  destruct (negb _); [done|]. destruct (_ || _); [done|]. intros [= <- <- <-].
  split; apply wrap16_u16.
Qed.

Lemma weighted_u8 p a d : weightedAURPDistance p a = Some d -> u8 d.
Proof.
  unfold weightedAURPDistance. destruct (_ <=? a); [done|]. destruct (_ <? _); [done|].
  intros [= <-]. unfold u8, wrap8. apply Z.mod_pos_bound. lia.
Qed.

Lemma keeps_network_tuple nt : nt_wf nt -> keeps (applyRIRspNetworkTuple nt).
Proof.
  intros (Hs & _ & He & _). unfold applyRIRspNetworkTuple.
  destruct (validateAURPRouteTuple _ _ _); [keeps_solve|].
  apply keeps_bind; [keeps_solve|intros p]. destruct (importRangeHidden _ _ _ _); [keeps_solve|].
  unfold remapInboundNetworkTuple.
  destruct (remapInboundRange _ _ _ _) as [[s e] ok] eqn:E.
  apply remapInboundRange_u16 in E as [Hs' He']; [|done..].
  destruct (weightedAURPDistance p _) as [d|] eqn:Ed; [|keeps_solve].
  apply weighted_u8 in Ed. apply keeps_bind; [destruct ok; by apply keeps_upsert|].
  intros r. keeps_solve.
Qed.

Lemma keeps_networks nts flag : Forall nt_wf nts -> keeps (apply_networks nts flag).
Proof.
  intros Hn. revert flag. induction Hn as [|nt nts Hnt _ IH]; intros flag; cbn [apply_networks].
  { keeps_solve. }
  apply keeps_bind; [by apply keeps_network_tuple|]. intros [[] [e|]]; keeps_solve.
Qed.

Lemma keeps_RIRsp h nts : Forall nt_wf nts -> keeps (handleRIRsp h nts).
Proof.
  intros Hn. unfold handleRIRsp. pose proof (keeps_networks nts 0 Hn). keeps_solve.
Qed.

Lemma remapInboundEvent_wf c p et :
  et_wf et -> u16 (et_RangeStart (remapInboundEvent c p et)) /\
              u16 (et_RangeEnd (remapInboundEvent c p et)).
Proof.
  intros (_ & Hs & _ & He & _). unfold remapInboundEvent.
  destruct (_ || _).
  { destruct (remapInboundRange _ _ _ _) as [[s e] ok] eqn:E.
    apply remapInboundRange_u16 in E; [|done..]. by destruct ok. }
  destruct (_ || _); [|done].
  pose proof (remapInbound_u16 c p _ Hs) as H.
  destruct (remapInboundNetwork c p _) as [m ok]. by destruct ok.
Qed.

Lemma keeps_install et d :
  u16 (et_RangeStart et) -> u16 (et_RangeEnd et) -> u8 d -> keeps (install_event et d).
Proof. intros Hs He Hd. unfold install_event. keeps_solve. Qed.

Lemma keeps_delete_event et : u16 (et_RangeStart et) -> keeps (delete_event et).
Proof. intros Hs. unfold delete_event. keeps_solve. Qed.

Lemma keeps_ndc p et :
  u16 (et_RangeStart et) -> u16 (et_RangeEnd et) -> keeps (apply_ndc p et).
Proof.
  intros Hs He. unfold apply_ndc, table_find. apply keeps_bind; [keeps_solve|]. intros ex.
  pose proof (keeps_delete_event et Hs) as Hde.
  assert (Hk : forall d, u8 d -> keeps (install_event et d)) by (intros; by apply keeps_install).
  destruct (if _ <=? _ then None else _) as [d|] eqn:E; [|keeps_solve].
  assert (Hd : u8 d) by (destruct (_ <=? _); [done|by eapply weighted_u8]).
  specialize (Hk d Hd). keeps_solve.
Qed.

Lemma keeps_event et : et_wf et -> keeps (applyRIUpdEvent et).
Proof.
  intros Het. unfold applyRIUpdEvent. apply keeps_bind; [keeps_solve|intros p].
  destruct (event_hidden p et); [keeps_solve|].
  destruct (remapInboundEvent_wf (timing p) (ident p) et Het) as [Hs He].
  set (et' := remapInboundEvent _ _ et) in *. cbv zeta.
  pose proof (keeps_delete_event et' Hs) as Hde. pose proof (keeps_ndc p et' Hs He) as Hn.
  destruct (if _ || _ then _ else None) as [e|]; [keeps_solve|].
  destruct (_ =? EventCodeNA).
  - destruct (weightedAURPDistance p _) as [d|] eqn:Ed; [|keeps_solve].
    apply weighted_u8 in Ed. by apply keeps_install.
  - unfold table_find. keeps_solve.
Qed.

Lemma keeps_events ets flag : Forall et_wf ets -> keeps (apply_events ets flag).
Proof.
  intros Hn. revert flag. induction Hn as [|et ets Het _ IH]; intros flag; cbn [apply_events].
  { keeps_solve. }
  apply keeps_bind; [by apply keeps_event|]. intros [[] [e|]]; keeps_solve.
Qed.

Lemma keeps_RIUpd h ets : Forall et_wf ets -> keeps (handleRIUpd h ets).
Proof.
  intros Hn. unfold handleRIUpd, process_update. pose proof (keeps_events ets 0 Hn).
  keeps_solve.
Qed.

Lemma keeps_RD h : keeps (handleRD h).
Proof. unfold handleRD. keeps_solve. Qed.

(** *** Zone information *)

Lemma group_zones_u16 w zones grouped ign :
  Forall (fun zt => u16 (zt_Network zt)) zones -> map_Forall (fun n _ => u16 n) grouped ->
  map_Forall (fun n _ => u16 n) (group_zones w zones grouped ign).1.
Proof.
  intros Hz. revert grouped ign. induction Hz as [|zt zones Hzt _ IH]; intros g ign Hg; [done|].
  cbn [group_zones].
  pose proof (remapInbound_u16 (timing (pr w)) (ident (pr w)) _ Hzt) as Hn.
  destruct (remapInboundNetwork _ _ _) as [n ok]. destruct (negb _); [by apply IH|].
  apply IH. by apply map_Forall_insert_2.
Qed.

Lemma keeps_groups l acc : Forall (fun g => u16 g.1) l -> keeps (apply_groups l acc).
Proof.
  intros Hl. revert acc. induction Hl as [|[n zs] l Hn _ IH]; intros acc; cbn [apply_groups].
  { keeps_solve. }
  simpl in Hn. keeps_solve.
Qed.

Lemma keeps_nonext zones :
  Forall (fun zt => u16 (zt_Network zt)) zones -> keeps (applyNonExtendedZIRsp zones).
Proof.
  intros Hz. unfold applyNonExtendedZIRsp. apply hoare_get. intros [g ign].
  apply (hoare_weaken _ (fun w => winv w /\ map_Forall (fun n _ => u16 n) g)).
  2: { intros w [Hw E]. split; [done|]. change g with ((g, ign).1). rewrite <- E.
       by apply group_zones_u16. }
  intros w [Hw Hg]. revert w Hw. apply keeps_bind; [|intros; keeps_solve].
  apply keeps_groups. apply Forall_forall. intros [n zs] Hin%elem_of_map_to_list.
  by apply (Hg n zs).
Qed.

Lemma keeps_assemble n total zs t : u16 n -> keeps (assemble n total zs t).
Proof. intros Hn. unfold assemble. keeps_solve. Qed.

Lemma keeps_ext total zones :
  Forall (fun zt => u16 (zt_Network zt)) zones -> keeps (applyExtendedZIRsp total zones).
Proof.
  intros Hz. unfold applyExtendedZIRsp. destruct Hz as [|zt zones Hzt _]; [keeps_solve|].
  apply keeps_bind; [keeps_solve|intros p]. cbv zeta.
  pose proof (remapInbound_u16 (timing p) (ident p) _ Hzt) as Hn.
  pose proof (fun tot zs t => keeps_assemble _ tot zs t Hn).
  keeps_solve.
Qed.

Lemma zt_parsed_u16 zs : Forall zt_parsed zs -> Forall (fun zt => u16 (zt_Network zt)) zs.
Proof. intros H. eapply Forall_impl; [done|]. by intros zt [? _]. Qed.

Lemma keeps_ZIRsp h sc t zs : Forall zt_parsed zs -> keeps (handleZIRsp h sc t zs).
Proof.
  intros Hz%zt_parsed_u16. unfold handleZIRsp. pose proof (keeps_nonext zs Hz).
  pose proof (keeps_ext t zs Hz). keeps_solve.
Qed.

Lemma keeps_TickleAck h : keeps (handleTickleAck h).
Proof. unfold handleTickleAck. keeps_solve. Qed.

(** ** All packets *)

Lemma keeps_handlePacket pkt : pkt_parsed pkt -> keeps (handlePacket pkt).
Proof.
  intros (_ & _ & Hh & Hp). unfold handlePacket. apply keeps_bind; [keeps_solve|]. intros ?.
  destruct pkt as [d data|h v o|h r o|h|h ns|h|h es|h e|h sc ns|h sc t zs|h sc i|h sc i ns|h sc z
    |h sc z ok ns|h|h]; cbv beta iota;
    try specialize (Hh h eq_refl); try destruct (keeps_requests h) as (R1 & R2 & R3 & R4);
    try (by auto using keeps_OpenReq, keeps_OpenRsp, keeps_RIReq, keeps_RIRsp, keeps_RIAck,
      keeps_RIUpd, keeps_RD, keeps_TickleAck); try (unfold handle_unexpected_rsp; by keeps_solve).
  apply keeps_ZIRsp. by destruct Hp.
Qed.

(** ** Tickers and loop events *)

Lemma quiet_scan l : quiet (scan_pending l).
Proof.
  induction l as [|[n pi] l IH]; cbn [scan_pending]; [apply quiet_ret|].
  apply quiet_bind; [auto with quiet|]. intros []; simpl.
  - do 2 (apply quiet_bind; [auto with quiet|intros]). case_match; [done|].
    destruct (remapOutboundNetwork _ _ _). apply quiet_bind; [done|auto with quiet].
  - apply quiet_bind; [auto with quiet|done].
Qed.

Lemma quiet_retry_zones : quiet retryIncompleteZoneInfo.
Proof.
  unfold retryIncompleteZoneInfo. apply quiet_bind; [auto with quiet|intros pend].
  case_match; [auto with quiet|]. apply quiet_bind; [apply quiet_scan|intros due].
  case_match; [auto with quiet|]. quiet_solve.
Qed.

Lemma keeps_receiver_retry limit g again : keeps g -> keeps (receiver_retry limit g again).
Proof. intros Hg. unfold receiver_retry. keeps_solve. Qed.

Lemma keeps_rticker : keeps rtickerTasks.
Proof.
  unfold rtickerTasks. apply keeps_try.
  2: { pose proof (keeps_quiet _ quiet_retry_zones). keeps_solve. }
  unfold rticker_receiver. apply keeps_bind; [keeps_solve|intros n].
  apply hoare_getp. intros p.
  assert (Hg : keeps abandon_receiver) by (unfold abandon_receiver; keeps_solve).
  destruct (rstate (rcv p)) eqn:Er.
  2-5: apply keeps_weaken; [|by intros w [? _]]; try (by apply keeps_receiver_retry).
  - destruct (bool_decide (sstate (snd p) = SenderConnected) && _) eqn:E; [|by intros w [? _]].
    apply andb_true_iff in E as [E%bool_decide_eq_true _].
    apply (hoare_weaken _ idle).
    2: { intros w [Hw Ep]. unfold id in Ep. apply connected_idle; [done|]. by rewrite Ep. }
    apply hoare_quiet_bind; [apply idle_coreP|auto with quiet|intros ?].
    apply hoare_quiet_bind; [apply idle_coreP|auto with quiet|intros ?].
    apply (send_new_inv null_update). intros t. split; [done|by eexists].
  - keeps_solve.
  - apply keeps_receiver_retry. keeps_solve.
Qed.

Lemma keeps_send_last : keeps send_last.
Proof. unfold send_last. keeps_solve. Qed.

Lemma keeps_sticker : keeps stickerTasks.
Proof.
  unfold stickerTasks. apply keeps_bind; [keeps_solve|intros n]. apply hoare_getp. intros p.
  destruct (sstate (snd p)) eqn:Es.
  1, 3-5: apply keeps_weaken; [|by intros w [? _]]; pose proof keeps_send_last;
    pose proof (keeps_not_waiting SenderUnconnected eq_refl); keeps_solve.
  apply (hoare_weaken _ idle).
  2: { intros w [Hw Ep]. unfold id in Ep. apply connected_idle; [done|]. by rewrite Ep. }
  destruct (negb _); [by apply hoare_idle_winv, quiet_ret|].
  destruct (takePendingEvents _) as [events q].
  apply hoare_quiet_bind; [apply idle_coreP|auto with quiet|intros ?].
  destruct (_ =? 0); [by apply hoare_idle_winv, quiet_ret|].
  destruct (budget ← _; _) as [chunks|e|]; [|by apply hoare_idle_winv, quiet_ret|done].
  apply hoare_quiet_bind; [apply idle_coreP|auto with quiet|intros ?].
  apply hoare_quiet_bind; [apply idle_coreP|auto with quiet|intros ?].
  eapply hoare_weaken; [apply sendNextRIUpd_inv|]. intros w Hw. split; [by apply idle_winv|].
  by apply idle_only.
Qed.

Lemma keeps_start : keeps handle_start.
Proof. unfold handle_start. keeps_solve. Qed.

Lemma keeps_reconnect : keeps handle_reconnect.
Proof. unfold handle_reconnect. keeps_solve. Qed.

Lemma keeps_tickle_before : keeps sendTickleBeforeDataIfNeeded.
Proof. unfold sendTickleBeforeDataIfNeeded. keeps_solve. Qed.

Lemma keeps_check {A} (r : res A) (k : A -> M error) :
  (forall a, keeps (k a)) -> keeps (Tunnel.check r k).
Proof. intros Hk. destruct r; [apply Hk|by apply keeps_quiet; auto with quiet|by intros w Hw]. Qed.

Lemma keeps_Forward `{DDP.Multitalk} pk : keeps (Tunnel.Forward pk).
Proof.
  unfold Tunnel.Forward. apply keeps_bind; [keeps_solve|intros c].
  apply keeps_bind; [keeps_solve|intros i]. apply keeps_check. intros [[f|] []];
    [keeps_solve| |keeps_solve|by intros w Hw].
  do 3 (apply keeps_check; intros ?). apply keeps_bind; [apply keeps_tickle_before|intros ?].
  keeps_solve.
Qed.

Lemma keeps_shutdown : keeps startSenderShutdown.
Proof.
  unfold startSenderShutdown. apply hoare_getp. intros ss.
  destruct (decide (ss = SenderConnected)) as [->|Hss].
  2: { rewrite bool_decide_eq_true_2 by done. by intros w [? _]. }
  rewrite bool_decide_eq_false_2 by (intros H; by apply H).
  intros w [Hw Es]. pose proof (IncLocalSeq_winv0 w Hw) as H0.
  unfold send_last, mbind, M_bind. simpl. set (pkt := NewSenderRDPacket _ _).
  set (w1 := with_pr _ _). pose proof (quiet_send pkt w1) as Hq.
  destruct (send pkt w1) as [[w2 err]|]; [|done]. unfold core in Hq.
  injection Hq as E1 E2 E3 E4. simpl in *.
  assert (H2 : winv0 w2) by (unfold winv0; by rewrite E1, E2).
  destruct err as [e|]; simpl.
  - apply idle_winv. split; [done|]. by rewrite E3, Es.
  - split; [done|]. intros _. exists pkt. simpl. rewrite E4, E2. split; [done|].
    split; [done|]. by eexists.
Qed.

(** The weak invariant survives closing the receiver. *)
Lemma disconnectReceiver_weak : hoare winv0 disconnectReceiver (fun _ => winv0).
Proof.
  unfold disconnectReceiver.
  assert (Hmod : forall op f, (forall t, transport_run op t = Ok (f t)) -> transport_op_ok op ->
    hoare winv0 (modtr f) (fun _ => winv0)).
  { intros op f Hf Hop w [Hr Ht]. split; [done|].
    pose proof (transport_run_ok op _ Ht Hop) as H. by rewrite Hf in H. }
  eapply hoare_bind.
  { apply hoare_table; [|by intros w [? _]|intros n t rt a rt' notes; apply step_delete_target_op].
    intros w w' _ Hr E1 _ _ [_ Ht]. split; [done|by rewrite E1]. }
  intros ?. eapply hoare_bind; [by apply (Hmod OpResetRemoteSeq)|].
  intros ?. eapply hoare_bind; [by apply (Hmod OpIncLocalConnID)|].
  intros ?. apply hoare_quiet_bind; [apply winv0_coreP|auto with quiet|].
  intros ?. apply (quiet_hoare winv0); [apply winv0_coreP|auto with quiet].
Qed.

Lemma disconnect_inv : hoare winv0 disconnect (fun _ => winv).
Proof.
  unfold disconnect. eapply hoare_bind; [apply disconnectReceiver_weak|].
  intros ?. apply disconnectSender_inv.
Qed.

Lemma keeps_loop : keeps handleConfirmedRoutingLoop.
Proof.
  unfold handleConfirmedRoutingLoop. apply keeps_bind; [keeps_solve|intros p].
  destruct (loopDisabled p); [keeps_solve|].
  eapply hoare_bind; [apply (quiet_hoare winv); [apply winv_coreP|done]|intros ?].
  eapply hoare_bind; [|intros ?; apply disconnect_inv].
  destruct (bool_decide _); [|by intros w [? _]].
  apply (hoare_bind _ (fun _ => winv0)); [intros w Hw; by apply IncLocalSeq_winv0|intros ?].
  apply (quiet_hoare winv0); [apply winv0_coreP|auto with quiet].
Qed.
End Keeps.
