(* ===== verification/PeerTotal.v ===== *)
(** * The AURP peer: handlers return

    Every handler and ticker of the peer terminates from a reachable route
    table, unless a routing tuple ends at network 65535 once remapped: then the
    range loop of the route table does not end. *)
From S2P Require Import Prelude Wtacc AurpHeaders AurpTuples AurpZoneInfo AurpPacket.
From S2P Require Import AurpTransport PeerPolicy GoSort RouteTable RouteTableInv RouteTableOps.
From S2P Require Import RouteTableSpec RouteExport PeerState PeerZones PeerFSM PeerInv PeerKeeps.
Import RT Policy Exp PS Zones FSM.

Section Total.
Context {GStr : GoStrings} {GS : GoSort}.
Context (c : AURPConfig) (i : PeerIdent).

Definition env (w : World) : Prop :=
  reachable (rtab w) /\ timing (pr w) = c /\ ident (pr w) = i.

Definition returns {A} (m : M A) : Prop :=
  forall w, env w -> exists w' a, m w = Some (w', a) /\ env w'.

Lemma returns_ret {A} (a : A) : returns (mret a).
Proof. intros w Hw. by exists w, a. Qed.

Lemma returns_bind {A B} (m : M A) (f : A -> M B) :
  returns m -> (forall a, returns (f a)) -> returns (m ≫= f).
Proof.
  intros Hm Hf w Hw. unfold mbind, M_bind. destruct (Hm w Hw) as (w' & a & -> & Hw').
  by apply Hf.
Qed.

Lemma returns_get {A} (f : World -> A) : returns (get f).
Proof. intros w Hw. by exists w, (f w). Qed.
Lemma returns_getp {A} (f : Peer -> A) : returns (getp f).
Proof. intros w Hw. by exists w, (f (pr w)). Qed.

(** Reading the peer gives its configuration. *)
Lemma returns_peer {B} (k : Peer -> M B) :
  (forall p, timing p = c -> ident p = i -> returns (k p)) -> returns (getp id ≫= k).
Proof. intros Hk w Hw. destruct (Hw) as (_ & ? & ?). by apply (Hk (pr w)). Qed.

Lemma returns_modw f :
  (forall w, rtab (f w) = rtab w /\ timing (pr (f w)) = timing (pr w) /\
     ident (pr (f w)) = ident (pr w)) -> returns (modw f).
Proof.
  intros Hf w (H1 & H2 & H3). exists (f w), tt. split; [done|]. unfold env.
  destruct (Hf w) as (-> & -> & ->). done.
Qed.
Lemma returns_mods f : returns (mods f).
Proof. by apply returns_modw. Qed.
Lemma returns_modr f : returns (modr f).
Proof. by apply returns_modw. Qed.
Lemma returns_modtm f : returns (modtm f).
Proof. by apply returns_modw. Qed.
Lemma returns_modtr f : returns (modtr f).
Proof. by apply returns_modw. Qed.
Lemma returns_modq f : returns (modq f).
Proof. by apply returns_modw. Qed.
Lemma returns_bump k n : returns (bump k n).
Proof. by apply returns_modw. Qed.
Lemma returns_loopDisabled b : returns (modp (with_loopDisabled b)).
Proof. by apply returns_modw. Qed.

Lemma returns_udp p : returns (udp_write p).
Proof.
  intros w Hw. unfold udp_write. destruct (io w) as [|[] rest]; do 2 eexists; split; done.
Qed.

Lemma returns_chat p b : returns (addToChatLog p b).
Proof. unfold addToChatLog. apply returns_bind; [apply returns_get|intros ?]. by apply returns_modw. Qed.

Lemma returns_observer_add : returns AddObserver_self.
Proof.
  intros w (H1 & H2 & H3). do 2 eexists. split; [done|]. split; [|done]. simpl.
  eapply rtc_r; [done|]. apply step_add_observer.
Qed.
Lemma returns_observer_remove : returns RemoveObserver_self.
Proof.
  intros w (H1 & H2 & H3). do 2 eexists. split; [done|]. split; [|done]. simpl.
  eapply rtc_r; [done|]. apply step_remove_observer.
Qed.

(** *** Table operations *)

Lemma returns_table {A} (f : Z -> RouteTarget -> RouteTable ->
    option (A * RouteTable * list (positive * Note))) :
  (forall n t rt, rt_inv rt -> exists a rt' notes, f n t rt = Some (a, rt', notes)) ->
  (forall n t rt a rt' notes, f n t rt = Some (a, rt', notes) -> rt_step rt rt') ->
  returns (table_op f).
Proof.
  intros Hret Hstep w (Hr & Hc & Hi). unfold table_op.
  destruct (Hret (now w) (self (pr w)) (rtab w) (reachable_inv _ Hr)) as (a & rt' & notes & E).
  rewrite E. do 2 eexists. split; [done|]. apply Hstep in E.
  destruct (deliver_all_frame notes (with_rtab rt' w)) as (Hcore & _ & _ & Hid & Htm & _).
  injection Hcore as Hrt _ _ _. unfold env. simpl in *. rewrite Hrt, Hid, Htm.
  split; [|done]. by eapply rtc_r.
Qed.

Lemma returns_upsert ext s e d :
  u16 s -> u16 e -> e <> 65535 -> u8 d -> returns (table_upsert ext s e d).
Proof.
  intros Hs He Hne Hd. apply returns_table.
  - intros n t rt Hinv.
    destruct (upsert_error_or_ok n t ext s e d rt Hs He Hd) as [[err E]|(H1 & H2 & H3)].
    { by do 3 eexists. }
    destruct (UpsertRoute_ok rt Hinv n t ext s e d H1 ltac:(unfold u16 in *; lia) H2 H3)
      as (tr & rt' & notes & E & _). by do 3 eexists.
  - intros n t rt a rt' notes H. by apply (step_upsert rt n t ext s e d a rt' notes).
Qed.

Lemma returns_delete s : u16 s -> returns (table_delete s).
Proof.
  intros Hs. apply returns_table.
  - intros n t rt Hinv. destruct (byClass rt !! (Class_ t, key_of t s)) as [r|] eqn:E.
    + destruct (DeleteRoute_found rt n t s r Hinv E) as (rt' & notes & H & _). by do 3 eexists.
    + unfold DeleteRoute. fold (key_of t s). rewrite E. by do 3 eexists.
  - intros n t rt a rt' notes H. by apply (step_delete rt n t s a rt' notes).
Qed.

Lemma returns_update s d : u16 s -> u8 d -> returns (table_update s d).
Proof.
  intros Hs Hd. apply returns_table.
  - intros n t rt Hinv. unfold u8 in Hd. destruct (decide (d <= maxRouteDistance)) as [Hle|Hgt].
    2: { unfold UpdateDistance. zdec. by do 3 eexists. }
    destruct (byClass rt !! (Class_ t, key_of t s)) as [r|] eqn:E.
    + destruct (UpdateDistance_found rt Hinv n t s d r E) as (rt' & notes & H & _); [lia|].
      by do 3 eexists.
    + unfold UpdateDistance. zdec. rewrite (find_none rt t s E). by do 3 eexists.
  - intros n t rt a rt' notes H. by apply (step_update rt n t s d a rt' notes).
Qed.

Lemma returns_delete_target : returns table_delete_target.
Proof.
  apply returns_table; [|intros n t rt a rt' notes; apply step_delete_target_op].
  intros n t rt Hinv. destruct (DeleteTarget_spec rt Hinv n t) as (rt' & notes & -> & _).
  by do 3 eexists.
Qed.

Lemma returns_replace net zs : u16 net -> returns (table_replace_zones net zs).
Proof.
  intros Hn. apply returns_table.
  - intros n t rt _. destruct (ReplaceZonesForNetwork n net zs rt) as [rt1 n1].
    by do 3 eexists.
  - intros n t rt a rt' notes. destruct (ReplaceZonesForNetwork n net zs rt) as [rt1 n1] eqn:E.
    intros [= _ <- <-]. replace rt1 with (ReplaceZonesForNetwork n net zs rt).1 by (by rewrite E).
    by apply step_replace_zones.
Qed.

(** *** The builders do not panic *)

Lemma size_total pkt : aurpPacketSize pkt <> Panic.
Proof. unfold aurpPacketSize. by repeat case_match. Qed.

Lemma bind_total {A B} (r : res A) (f : A -> res B) :
  r <> Panic -> (forall a, f a <> Panic) -> (r ≫= f) <> Panic.
Proof. intros Hr Hf. destruct r; [apply Hf|done..]. Qed.

Lemma budget_total pkt : aurpRoutingPayloadBudget pkt <> Panic.
Proof.
  unfold aurpRoutingPayloadBudget. apply bind_total; [apply size_total|]. intros a.
  by repeat case_match.
Qed.

Lemma chunk_total {A} fmt (sz : A -> Z) n cs ck k l : chunk_loop fmt sz n cs ck k l <> Panic.
Proof. revert cs ck k. induction l; intros cs ck k; cbn [chunk_loop]; repeat case_match; by auto. Qed.

Lemma chunks_total l n : chunkAURPNetworkTuples l n <> Panic.
Proof. unfold chunkAURPNetworkTuples. repeat case_match; try done; apply chunk_total. Qed.

Lemma chunke_total l n : chunkAURPEventTuples l n <> Panic.
Proof. unfold chunkAURPEventTuples. repeat case_match; try done; apply chunk_total. Qed.

Lemma zireq_total t ns : buildZIReqPackets t ns <> Panic.
Proof.
  unfold buildZIReqPackets. destruct (_ =? 0); [done|]. apply bind_total; [apply size_total|].
  intros b. by destruct (_ <=? 0).
Qed.

Lemma ext_chunks_total n b ck k zs : ext_zone_chunks n b ck k zs <> Panic.
Proof.
  revert ck k. induction zs as [|z zs IH]; intros ck k; cbn [ext_zone_chunks]; [done|].
  destruct (b <? _); [done|]. destruct (_ && _); [|apply IH].
  apply bind_total; [apply IH|done].
Qed.

Lemma network_total t n zs : network_zi_rsp t n zs <> Panic.
Proof.
  unfold network_zi_rsp. destruct (_ =? 0); [done|]. apply bind_total; [apply size_total|].
  intros s. destruct (_ <=? _); [done|]. destruct (_ <? _); [done|].
  apply bind_total; [apply size_total|]. intros b. destruct (_ <=? 0); [done|].
  apply bind_total; [apply ext_chunks_total|done].
Qed.

Lemma zirsp_total t zl : buildZIRspPackets t zl <> Panic.
Proof.
  unfold buildZIRspPackets. induction (sort_func _ _) as [|n ns IH]; [done|].
  cbn [zi_rsp_networks]. apply bind_total; [apply network_total|]. intros ps.
  by apply bind_total.
Qed.

(** *** Structure *)

Create HintDb returns.
#[local] Hint Resolve returns_ret returns_get returns_getp returns_mods returns_modr
  returns_modtm returns_modtr returns_modq returns_bump returns_loopDisabled returns_udp
  returns_chat returns_observer_add returns_observer_remove returns_upsert returns_delete
  returns_update returns_delete_target returns_replace : returns.

Lemma returns_checked ck k : returns ck -> returns k -> returns (checked ck k).
Proof. intros Hc Hk. apply returns_bind; [done|]. intros []; auto using returns_ret. Qed.

(** Structural proof that a computation returns. *)
Ltac returns_solve :=
  repeat first
    [ progress cbv beta zeta
    | solve [auto 2 with returns]
    | match goal with |- returns (checked _ _) => apply returns_checked end
    | apply returns_bind; [|intros]
    | match goal with
      | |- returns (match ?x with _ => _ end) => destruct x
      | |- returns (if ?x then _ else _) => destruct x
      end ].

Lemma returns_lastsend : returns storeLastSend.
Proof. unfold storeLastSend. returns_solve. Qed.
#[local] Hint Resolve returns_lastsend : returns.

Lemma returns_send p : returns (send p).
Proof. unfold send. returns_solve. Qed.
#[local] Hint Resolve returns_send : returns.

Lemma returns_send_tr f : returns (send_tr f).
Proof. unfold send_tr. returns_solve. Qed.

Lemma returns_send_all l : returns (send_all l).
Proof. induction l; cbn [send_all]; returns_solve. Qed.

Lemma returns_built r : r <> Panic -> returns (send_built r).
Proof.
  intros Hr. destruct r as [pkts|e|]; [|apply returns_ret|done]. apply returns_send_all.
Qed.
#[local] Hint Resolve returns_send_tr returns_built zirsp_total zireq_total : returns.

Lemma returns_zirsp z : returns (sendZIRspPackets z).
Proof. unfold sendZIRspPackets. returns_solve. Qed.
Lemma returns_rstate s : returns (setRState s).
Proof. apply returns_modr. Qed.
Lemma returns_sstate s : returns (setSState s).
Proof. apply returns_mods. Qed.
Lemma returns_retries n : returns (storeSendRetries n).
Proof. apply returns_modtm. Qed.
Lemma returns_alive : returns markReceiverAlive.
Proof. unfold markReceiverAlive. returns_solve. Qed.
#[local] Hint Resolve returns_zirsp returns_rstate returns_sstate returns_retries
  returns_alive : returns.

Lemma returns_disconnectReceiver : returns disconnectReceiver.
Proof. unfold disconnectReceiver. returns_solve. Qed.
Lemma returns_disconnectSender : returns disconnectSender.
Proof. unfold disconnectSender. returns_solve. Qed.
#[local] Hint Resolve returns_disconnectReceiver returns_disconnectSender : returns.
Lemma returns_disconnect : returns disconnect.
Proof. unfold disconnect. returns_solve. Qed.
Lemma returns_local h : returns (checkLocalConnID h).
Proof. unfold checkLocalConnID. returns_solve. Qed.
Lemma returns_remote h : returns (checkRemoteConnID h).
Proof. unfold checkRemoteConnID. returns_solve. Qed.
Lemma returns_seq h f : returns (checkRemoteSeqWithAckFlags h f).
Proof. unfold checkRemoteSeqWithAckFlags. returns_solve. Qed.
Lemma returns_seq' h : returns (checkRemoteSeq h).
Proof. apply returns_seq. Qed.
Lemma returns_failure : returns noteReconnectFailure.
Proof. unfold noteReconnectFailure. returns_solve. Qed.
Lemma returns_reset : returns resetReconnectBackoff.
Proof. apply returns_modtm. Qed.
Lemma returns_mark n : returns (markZoneInfoPending n).
Proof. unfold markZoneInfoPending. returns_solve. Qed.
Lemma returns_clear n : returns (clearPendingZoneInfo n).
Proof. apply returns_modr. Qed.
Lemma returns_loop n : returns (noteLoopIndicativeNetwork n).
Proof. unfold noteLoopIndicativeNetwork. returns_solve. by apply returns_modw. Qed.
Lemma returns_open : returns send_open_req.
Proof. unfold send_open_req. returns_solve. Qed.
Lemma returns_count : returns count_retry.
Proof. apply returns_modtm. Qed.
#[local] Hint Resolve returns_disconnect returns_local returns_remote returns_seq returns_seq'
  returns_failure returns_reset returns_mark returns_clear returns_loop returns_open
  returns_count : returns.

(** *** The sender *)

Lemma returns_outstanding r ss : r <> Panic -> returns (send_outstanding r ss).
Proof. intros Hr. unfold send_outstanding. destruct r; [|apply returns_ret|done]. returns_solve. Qed.

Lemma returns_next_rsp adv : returns (sendNextRIRsp adv).
Proof.
  unfold sendNextRIRsp, nextRIRspPacket. intros w Hw. unfold mbind at 1, M_bind at 1.
  unfold mbind at 1, M_bind at 1. simpl.
  destruct (pendingRIRsp (snd (pr w))) as [|ck rest]; [by apply returns_ret|].
  destruct adv; (by apply returns_outstanding).
Qed.

Lemma returns_next_upd adv : returns (sendNextRIUpd adv).
Proof.
  unfold sendNextRIUpd, nextRIUpdPacket. intros w Hw. unfold mbind at 1, M_bind at 1.
  unfold mbind at 1, M_bind at 1. simpl.
  destruct (pendingRIUpd (snd (pr w))) as [|ck rest]; [by apply returns_ret|].
  destruct adv; (by apply returns_outstanding).
Qed.
#[local] Hint Resolve returns_next_rsp returns_next_upd : returns.

Lemma returns_OpenReq h v : returns (handleOpenReq h v).
Proof. unfold handleOpenReq, accept_open_req. returns_solve. Qed.

Lemma returns_RIReq h : returns (handleRIReq h).
Proof.
  unfold handleRIReq. apply returns_checked; [auto with returns|].
  do 4 (first [apply returns_bind; [auto with returns|intros ?]|case_match; [auto with returns|]]).
  cbv zeta. do 2 (apply returns_bind; [auto with returns|intros ?]).
  destruct (budget ← _; _) as [ck|e|] eqn:E; [returns_solve..|].
  exfalso. revert E. apply bind_total; [apply budget_total|intros; apply chunks_total].
Qed.

Lemma returns_RIAck h : returns (handleRIAck h).
Proof. unfold handleRIAck, advance_sender. returns_solve. Qed.

Lemma returns_requests h :
  (forall ns, returns (handleZIReq h ns)) /\ returns (handleGDZLReq h) /\
  (forall z, returns (handleGZNReq h z)) /\ returns (handleTickle h).
Proof.
  split; [intros ns|split; [|split; [intros z|]]]; unfold handleZIReq, handleGDZLReq,
    handleGZNReq, handleTickle; returns_solve.
Qed.

(** *** The receiver *)

(** The routes a packet installs do not end at network 65535. *)
Definition nt_ends (nt : NetworkTuple) : Prop :=
  nt_RangeEnd (remapInboundNetworkTuple c i nt) <> 65535.
Definition et_ends (et : EventTuple) : Prop :=
  et_EventCode et = EventCodeNA \/ et_EventCode et = EventCodeNDC ->
  et_RangeEnd (remapInboundEvent c i et) <> 65535.
Definition pkt_ends (pkt : Packet) : Prop :=
  match pkt with
  | RIRspPacket _ ns => Forall nt_ends ns
  | RIUpdPacket _ es => Forall et_ends es
  | _ => True
  end.

Lemma returns_OpenRsp h r : returns (handleOpenRsp h r).
Proof. unfold handleOpenRsp. returns_solve. Qed.

Lemma returns_network_tuple nt : nt_wf nt -> nt_ends nt -> returns (applyRIRspNetworkTuple nt).
Proof.
  intros (Hs & _ & He & _). unfold applyRIRspNetworkTuple, nt_ends, remapInboundNetworkTuple.
  intros Hend. destruct (validateAURPRouteTuple _ _ _); [returns_solve|].
  apply returns_peer. intros p -> ->. destruct (importRangeHidden _ _ _ _); [returns_solve|].
  destruct (remapInboundRange _ _ _ _) as [[s e] ok] eqn:E.
  apply remapInboundRange_u16 in E as [Hs' He']; [|done..].
  destruct (weightedAURPDistance p _) as [d|] eqn:Ed; [|returns_solve].
  apply weighted_u8 in Ed. apply returns_bind; [destruct ok; by apply returns_upsert|].
  intros r. returns_solve.
Qed.

Lemma returns_networks nts flag :
  Forall nt_wf nts -> Forall nt_ends nts -> returns (apply_networks nts flag).
Proof.
  intros Hn. revert flag. induction Hn as [|nt nts Hnt _ IH]; intros flag He;
    cbn [apply_networks]; [returns_solve|]. apply Forall_cons in He as [He Hes].
  apply returns_bind; [by apply returns_network_tuple|]. intros [[] [e|]]; returns_solve.
Qed.

Lemma remapInboundEvent_code e : et_EventCode (remapInboundEvent c i e) = et_EventCode e.
Proof. unfold remapInboundEvent. by repeat case_match. Qed.

Lemma returns_install et d :
  u16 (et_RangeStart et) -> u16 (et_RangeEnd et) -> et_RangeEnd et <> 65535 -> u8 d ->
  returns (install_event et d).
Proof. intros. unfold install_event. apply returns_bind; [by apply returns_upsert|]. intros ?. returns_solve. Qed.

Lemma returns_delete_event et : u16 (et_RangeStart et) -> returns (delete_event et).
Proof. intros Hs. unfold delete_event. returns_solve. Qed.

Lemma returns_ndc p et :
  u16 (et_RangeStart et) -> u16 (et_RangeEnd et) -> et_RangeEnd et <> 65535 ->
  returns (apply_ndc p et).
Proof.
  intros Hs He Hne. unfold apply_ndc, table_find. apply returns_bind; [returns_solve|]. intros ex.
  pose proof (returns_delete_event et Hs) as Hde.
  assert (Hk : forall d, u8 d -> returns (install_event et d)) by (intros; by apply returns_install).
  destruct (if _ <=? _ then None else _) as [d|] eqn:E; [|returns_solve].
  assert (Hd : u8 d) by (destruct (_ <=? _); [done|by eapply weighted_u8]).
  specialize (Hk d Hd). returns_solve.
Qed.

Lemma returns_event et : et_wf et -> et_ends et -> returns (applyRIUpdEvent et).
Proof.
  intros Het Hend. unfold applyRIUpdEvent. apply returns_peer. intros p -> ->.
  destruct (event_hidden p et); [returns_solve|].
  destruct (remapInboundEvent_wf c i et Het) as [Hs He]. unfold et_ends in Hend.
  rewrite <- (remapInboundEvent_code et) in Hend.
  set (et' := remapInboundEvent _ _ et) in *. cbv zeta.
  pose proof (returns_delete_event et' Hs) as Hde.
  destruct (if _ || _ then _ else None) as [e|]; [returns_solve|].
  destruct (_ =? EventCodeNA) eqn:E1.
  { zbool. destruct (weightedAURPDistance p _) as [d|] eqn:Ed; [|returns_solve].
    apply weighted_u8 in Ed. apply returns_install; auto. }
  unfold table_find. destruct (_ || _); [returns_solve|].
  destruct (_ =? EventCodeNDC) eqn:E2; [|returns_solve]. zbool. apply returns_ndc; auto.
Qed.

Lemma returns_events ets flag :
  Forall et_wf ets -> Forall et_ends ets -> returns (apply_events ets flag).
Proof.
  intros Hn. revert flag. induction Hn as [|et ets Het _ IH]; intros flag He;
    cbn [apply_events]; [returns_solve|]. apply Forall_cons in He as [He Hes].
  apply returns_bind; [by apply returns_event|]. intros [[] [e|]]; returns_solve.
Qed.

Lemma returns_RD h : returns (handleRD h).
Proof. unfold handleRD. returns_solve. Qed.

Lemma returns_groups l acc : Forall (fun g => u16 g.1) l -> returns (apply_groups l acc).
Proof.
  intros Hl. revert acc. induction Hl as [|[n zs] l Hn _ IH]; intros acc; cbn [apply_groups].
  { returns_solve. }
  simpl in Hn. returns_solve.
Qed.

Lemma returns_nonext zones :
  Forall (fun zt => u16 (zt_Network zt)) zones -> returns (applyNonExtendedZIRsp zones).
Proof.
  intros Hz w Hw. unfold applyNonExtendedZIRsp, mbind at 1, M_bind at 1. simpl.
  pose proof (group_zones_u16 w zones ∅ 0 Hz) as Hg.
  destruct (group_zones w zones ∅ 0) as [g ign]. simpl in Hg.
  assert (Hk : returns (apply_groups (map_to_list g) 0)).
  { apply returns_groups, Forall_forall. intros [n zs] Hin%elem_of_map_to_list.
    apply (Hg (map_Forall_empty _) n zs Hin). }
  revert w Hw. apply returns_bind; [done|]. intros ?. returns_solve.
Qed.

Lemma returns_ext total zones :
  Forall (fun zt => u16 (zt_Network zt)) zones -> returns (applyExtendedZIRsp total zones).
Proof.
  intros Hz. unfold applyExtendedZIRsp. destruct Hz as [|zt zones Hzt _]; [returns_solve|].
  apply returns_bind; [returns_solve|intros p]. cbv zeta.
  pose proof (remapInbound_u16 (timing p) (ident p) _ Hzt) as Hn.
  assert (Ha : forall tot zs t, returns (assemble (remapInboundNetwork (timing p) (ident p)
    (zt_Network zt)).1 tot zs t)) by (intros; unfold assemble; returns_solve).
  returns_solve.
Qed.

Lemma returns_handlePacket pkt : pkt_parsed pkt -> pkt_ends pkt -> returns (handlePacket pkt).
Proof.
  intros (_ & _ & _ & Hp) He. unfold handlePacket. apply returns_bind; [returns_solve|]. intros ?.
  destruct pkt as [d data|h v o|h r o|h|h ns|h|h es|h e|h sc ns|h sc t zs|h sc i'|h sc i' ns|h sc z
    |h sc z ok ns|h|h]; cbv beta iota;
    try destruct (returns_requests h) as (R1 & R2 & R3 & R4);
    try (by auto using returns_OpenReq, returns_OpenRsp, returns_RIReq, returns_RIAck, returns_RD,
      returns_ret); try (unfold handle_unexpected_rsp, handleTickleAck; by returns_solve).
  - unfold handleRIRsp. pose proof (returns_networks ns 0 Hp He). returns_solve.
  - unfold handleRIUpd, process_update. pose proof (returns_events es 0 Hp He). returns_solve.
  - destruct Hp as [_ Hz%zt_parsed_u16]. unfold handleZIRsp.
    pose proof (returns_nonext zs Hz). pose proof (returns_ext t zs Hz). returns_solve.
Qed.

(** *** Tickers *)

Lemma returns_scan l : returns (scan_pending l).
Proof.
  induction l as [|[n pi] l IH]; cbn [scan_pending]; [apply returns_ret|].
  apply returns_bind; [auto with returns|]. intros []; simpl.
  - do 2 (apply returns_bind; [auto with returns|intros]). case_match; [done|].
    destruct (remapOutboundNetwork _ _ _). apply returns_bind; [done|auto with returns].
  - apply returns_bind; [auto with returns|done].
Qed.

Lemma returns_rticker : returns rtickerTasks.
Proof.
  unfold rtickerTasks, rticker_receiver, receiver_retry, abandon_receiver, retryIncompleteZoneInfo.
  pose proof returns_scan as Hscan.
  assert (Hout : forall t ss, returns (send_outstanding (Ok (null_update t)) ss))
    by (intros; by apply returns_outstanding).
  returns_solve.
Qed.

Lemma returns_send_last : returns send_last.
Proof. unfold send_last. returns_solve. Qed.

Lemma returns_sticker : returns stickerTasks.
Proof.
  unfold stickerTasks. pose proof returns_send_last.
  do 2 (apply returns_bind; [returns_solve|intros ?]). destruct (sstate _); try by returns_solve.
  destruct (negb _); [returns_solve|]. destruct (takePendingEvents _) as [events q].
  apply returns_bind; [returns_solve|intros ?]. destruct (_ =? 0); [returns_solve|].
  destruct (budget ← _; _) as [ck|e|] eqn:E; [returns_solve..|].
  exfalso. revert E. apply bind_total; [apply budget_total|intros; apply chunke_total].
Qed.
End Total.
