(* ===== verification/PeerSpec.v ===== *)
(** * The AURP peer: properties

    Correctness of the peer state machine of [router/aurp_peer.go]: its
    invariant, termination of its handlers, redelivery and closed connections on
    the receiving side, the acknowledged stream on the sending side, and the
    behaviours in which it goes wrong. *)
From S2P Require Import Prelude Wtacc AurpHeaders AurpTuples AurpZoneInfo AurpPacket.
From S2P Require Import AurpTransport PeerPolicy GoSort RouteTable RouteTableInv RouteTableOps.
From S2P Require Import RouteTableSpec RouteExport PeerState PeerZones PeerFSM PeerInv PeerKeeps.
From S2P Require Import PeerTotal Atalk DdpPolicy.
Import RT Policy Exp PS Zones FSM.

Section Steps.
Context {GStr : GoStrings} {GS : GoSort}.

(** One iteration of [Handle], a keep-alive before data, or a change of the
    environment: the clock, the network, and the route table with the
    notifications other components cause. *)
Inductive peer_step (w : World) : World -> Prop :=
| ps_start w' err : handle_start w = Some (w', err) -> peer_step w w'
| ps_packet pkt w' err : pkt_parsed pkt -> handlePacket pkt w = Some (w', err) -> peer_step w w'
| ps_rticker w' err : rtickerTasks w = Some (w', err) -> peer_step w w'
| ps_sticker w' err : stickerTasks w = Some (w', err) -> peer_step w w'
| ps_reconnect w' err : handle_reconnect w = Some (w', err) -> peer_step w w'
| ps_shutdown w' err : startSenderShutdown w = Some (w', err) -> peer_step w w'
| ps_abandon w' : disconnectSender w = Some (w', tt) -> peer_step w w'
| ps_loop w' : handleConfirmedRoutingLoop w = Some (w', tt) -> peer_step w w'
| ps_forward (MT : DDP.Multitalk) pk w' err : Tunnel.Forward pk w = Some (w', err) -> peer_step w w'
| ps_tickle w' err : sendTickleBeforeDataIfNeeded w = Some (w', err) -> peer_step w w'
| ps_stop w' : RemoveObserver_self w = Some (w', tt) -> peer_step w w'
| ps_table rt notes : rt_step (rtab w) rt -> peer_step w (deliver_all notes (with_rtab rt w))
| ps_world n r l : peer_step w (with_io l (with_rnd r (with_now n w))).

(** A world in which the peer has just been created. *)
Definition initial (w : World) : Prop :=
  reachable (rtab w) /\ transport_ok (tr (pr w)) /\ sstate (snd (pr w)) = SenderUnconnected.

Lemma keeps_run {A} (m : M A) w w' a : keeps m -> winv w -> m w = Some (w', a) -> winv w'.
Proof. intros Hm Hw E. specialize (Hm w Hw). by rewrite E in Hm. Qed.

Lemma peer_step_inv w w' : peer_step w w' -> winv w -> winv w'.
Proof.
  intros Hs Hw. destruct Hs;
    try (eapply keeps_run; [|done|done]; auto using keeps_start, keeps_handlePacket, keeps_rticker,
      keeps_sticker, keeps_reconnect, keeps_shutdown, keeps_disconnectSender, keeps_loop,
      keeps_tickle_before, @keeps_Forward, keeps_observer_remove).
  - destruct (deliver_all_frame notes (with_rtab rt w)) as (Hc & _).
    destruct Hw as ((Hr & Ht) & Ho). injection Hc as E1 E2 E3 E4. unfold winv, winv0.
    rewrite E1, E2, E3, E4. split; [split; [|done]|done]. by eapply rtc_r.
  - done.
Qed.

(** Whatever packets the peer receives and however its timers, the network
    and the other components interleave with them, the route table stays
    consistent, the transport's sequence numbers and identifiers stay valid, and
    a sender that is waiting for an acknowledgement has its one outstanding
    packet at hand - an RI-Rsp, RI-Upd or RD according to its state - with the
    peer's connection ID and the current sequence number, so that a
    retransmission repeats exactly what the acknowledgement is checked
    against. *)
Theorem peer_invariant (w0 w : World) :
  initial w0 -> rtc peer_step w0 w ->
  rt_inv (rtab w) /\ transport_ok (tr (pr w)) /\
  (waiting (sstate (snd (pr w))) = true ->
   exists p h, lastRISent (snd (pr w)) = Some p /\ kind_ok (sstate (snd (pr w))) p /\
     pkt_header p = Some h /\ ConnectionID (HTrHeader h) = remoteConnID (tr (pr w)) /\
     Sequence (HTrHeader h) = localSeq (tr (pr w))).
Proof.
  intros (Hr & Ht & Hs) Hrun.
  assert (Hw : winv w0).
  { apply idle_winv. split; [done|]. by rewrite Hs. }
  assert (Hw' : winv w) by (clear - Hrun Hw; induction Hrun; eauto using peer_step_inv).
  destruct Hw' as ((Hr' & Ht') & Ho). split; [by apply reachable_inv|]. split; [done|].
  intros Hwait. destruct (Ho Hwait) as (p & E & Hk & h & Hh & E1 & E2). by exists p, h.
Qed.

(** From a reachable route table every handler terminates: [handlePacket]
    on any parsed packet none of whose routes ends at network 65535 once
    remapped, and both tickers always. *)
Theorem handlers_return (w : World) :
  reachable (rtab w) ->
  (forall pkt, pkt_parsed pkt -> pkt_ends (timing (pr w)) (ident (pr w)) pkt ->
     exists w' err, handlePacket pkt w = Some (w', err) /\ reachable (rtab w')) /\
  (exists w' err, rtickerTasks w = Some (w', err) /\ reachable (rtab w')) /\
  (exists w' err, stickerTasks w = Some (w', err) /\ reachable (rtab w')).
Proof.
  intros Hr. assert (He : env (timing (pr w)) (ident (pr w)) w) by done. split; [|split].
  - intros pkt Hp Hends. destruct (returns_handlePacket _ _ pkt Hp Hends w He)
      as (w' & err & E & H & _). by exists w', err.
  - destruct (returns_rticker _ _ w He) as (w' & err & E & H & _). by exists w', err.
  - destruct (returns_sticker _ _ w He) as (w' & err & E & H & _). by exists w', err.
Qed.
End Steps.

(** ** Witness worlds *)

Definition wit_pr : Peer :=
  {| pid := 1; ident := wit_ident; timing := wit_config; tr := wit_tr;
     snd := {| sstate := SenderUnconnected; queue := {| pendingEvents := ∅; suiFlags := 0 |};
               pendingRIRsp := []; pendingRIUpd := []; lastRISent := None;
               restartProbe := false |};
     rcv := {| rstate := ReceiverUnconnected; pendingZoneInfo := ∅ |};
     tm := {| lastReconnect := None; lastHeardFrom := None; lastSend := None; lastUpdate := None;
              lastSuccess := None; nextReconnect := None; sendRetries := 0;
              reconnectFailures := 0 |};
     diag := {| counters := []; chatLog := [] |};
     loopDisabled := false |}.

Definition wit_world : World :=
  {| pr := wit_pr; rtab := wit_rt; sent := []; io := []; now := 5; rnd := 0; others := [];
     loops := [] |}.

(** A packet the peer at the other end sends: its transport is the mirror image. *)
Definition wit_remote : Transport :=
  NewTransport (IPDomainIdentifier [10; 0; 0; 2]) (IPDomainIdentifier [10; 0; 0; 1]) 9 7.

Definition run_world {A} (m : M A) (w : World) : World :=
  match m w with Some (w', _) => w' | None => w end.

(** Accept the peer's connection and answer its request for routes. *)
Definition wit_open : Packet := NewOpenReqPacket wit_remote [].
Definition wit_rireq : Packet := NewRIReqPacket wit_remote.

Definition wit_handle (pkt : Packet) (w : World) : World :=
  run_world (handlePacket (GStr := ascii_strings) (GS := insertion_sort) pkt) w.

Definition wit_connected : World := wit_handle wit_open wit_world.
Definition wit_waiting : World := wit_handle wit_rireq wit_connected.

Lemma wit_open_parsed : pkt_parsed wit_open.
Proof. split; [const_widths|]. split; [done|]. split; [intros h [= <-]; const_widths|]. const_widths. Qed.

Lemma wit_rireq_parsed : pkt_parsed wit_rireq.
Proof. split; [const_widths|]. split; [done|]. split; [intros h [= <-]; const_widths|]. done. Qed.

Lemma wit_initial : initial (GS := insertion_sort) wit_world.
Proof. split; [apply wit_reachable|]. split; [apply wit_tr_ok|done]. Qed.

Definition ran {A} (m : M A) (w : World) : bool := match m w with Some _ => true | None => false end.

Lemma run_world_some {A} (m : M A) w : ran m w = true -> exists a, m w = Some (run_world m w, a).
Proof. unfold ran, run_world. destruct (m w) as [[w' a]|]; [by exists a|done]. Qed.

Lemma wit_steps : rtc (peer_step (GStr := ascii_strings) (GS := insertion_sort)) wit_world wit_waiting.
Proof.
  destruct (run_world_some (handlePacket (GStr := ascii_strings) (GS := insertion_sort) wit_open)
    wit_world) as [e1 E1]; [vm_compute; reflexivity|].
  destruct (run_world_some (handlePacket (GStr := ascii_strings) (GS := insertion_sort) wit_rireq)
    wit_connected) as [e2 E2]; [vm_compute; reflexivity|].
  apply rtc_l with wit_connected;
    [exact (ps_packet wit_world wit_open wit_connected e1 wit_open_parsed E1)|].
  apply rtc_once. exact (ps_packet wit_connected wit_rireq wit_waiting e2 wit_rireq_parsed E2).
Qed.

Lemma peer_invariant_witness :
  sstate (snd (pr wit_waiting)) = SenderWaitForRIRspAck /\
  rt_inv (rtab wit_waiting) /\ transport_ok (tr (pr wit_waiting)) /\
  (waiting (sstate (snd (pr wit_waiting))) = true ->
   exists p h, lastRISent (snd (pr wit_waiting)) = Some p /\
     kind_ok (sstate (snd (pr wit_waiting))) p /\
     pkt_header p = Some h /\ ConnectionID (HTrHeader h) = remoteConnID (tr (pr wit_waiting)) /\
     Sequence (HTrHeader h) = localSeq (tr (pr wit_waiting))).
Proof.
  split; [vm_compute; reflexivity|].
  apply (peer_invariant (GStr := ascii_strings) (GS := insertion_sort) wit_world wit_waiting);
    [exact wit_initial|exact wit_steps].
Defined.

Lemma handlers_return_witness :
  (forall pkt, pkt_parsed pkt -> pkt_ends (GStr := ascii_strings) wit_config wit_ident pkt ->
     exists w' err, handlePacket (GStr := ascii_strings) (GS := insertion_sort) pkt wit_world
       = Some (w', err) /\ reachable (GS := insertion_sort) (rtab w')) /\
  (exists w' err, rtickerTasks (GStr := ascii_strings) (GS := insertion_sort) wit_world
       = Some (w', err) /\ reachable (GS := insertion_sort) (rtab w')) /\
  (exists w' err, stickerTasks (GS := insertion_sort) wit_world
       = Some (w', err) /\ reachable (GS := insertion_sort) (rtab w')).
Proof.
  apply (handlers_return (GStr := ascii_strings) (GS := insertion_sort) wit_world).
  exact wit_reachable.
Defined.
