(* ===== verification/PeerRecv.v ===== *)
(** * The AURP peer: the receiving side

    Redelivery of routing packets, packets of closed connections, and what the
    routes and zones a peer announces do to the route table. *)
From S2P Require Import Prelude Wtacc AurpHeaders AurpTuples AurpZoneInfo AurpPacket.
From S2P Require Import AurpTransport PeerPolicy GoSort RouteTable RouteTableInv RouteTableOps.
From S2P Require Import RouteTableSpec RouteExport PeerState PeerZones PeerFSM PeerInv PeerKeeps.
From S2P Require Import PeerTotal PeerSpec.
Import RT Policy Exp PS Zones FSM.

(** ** Sending when the network is up *)

Definition after_send (pkt : Packet) (dg : Diagnostics) (w : World) : World :=
  with_sent (sent w ++ [pkt])
    (with_pr (with_diag dg (with_tm (with_lastSend (Some (now w)) (tm (pr w))) (pr w))) w).

Lemma send_ok pkt w :
  pkt_wf pkt -> io w = [] -> exists dg, send pkt w = Some (after_send pkt dg w, None).
Proof.
  intros Hwf Hio. pose proof (packet_emits pkt Hwf []) as E. unfold send.
  destruct (is_routing pkt); rewrite E; unfold addToChatLog, storeLastSend, udp_write, mbind,
    M_bind; simpl; rewrite Hio; [by eexists|]. exists (diag (pr w)).
  unfold after_send. by destruct w as [p ? ? ? ? ? ? ?], p.
Qed.

(** ** What applying routes leaves alone *)

Definition steady {A} (m : M A) : Prop :=
  forall w, match m w with
            | Some (w', _) => tr (pr w') = tr (pr w) /\ rstate (rcv (pr w')) = rstate (rcv (pr w))
            | None => True
            end.

Section Recv.
Context {GStr : GoStrings} {GS : GoSort}.

Lemma steady_ret {A} (a : A) : steady (mret a).
Proof. done. Qed.
Lemma steady_bind {A B} (m : M A) (f : A -> M B) :
  steady m -> (forall a, steady (f a)) -> steady (m ≫= f).
Proof.
  intros Hm Hf w. specialize (Hm w). unfold mbind, M_bind.
  destruct (m w) as [[w' a]|]; [|done]. specialize (Hf a w').
  destruct (f a w') as [[w'' b]|]; [|done]. destruct Hm, Hf. split; congruence.
Qed.
Lemma steady_get {A} (f : World -> A) : steady (get f).
Proof. done. Qed.
Lemma steady_getp {A} (f : Peer -> A) : steady (getp f).
Proof. done. Qed.
Lemma steady_table {A} (f : Z -> RouteTarget -> RouteTable ->
    option (A * RouteTable * list (positive * Note))) : steady (table_op f).
Proof.
  intros w. unfold table_op. destruct (f _ _ _) as [[[a rt'] notes]|]; [|done].
  destruct (deliver_all_frame notes (with_rtab rt' w)) as (Hc & Hr & _).
  injection Hc as _ E _ _. by rewrite E, Hr.
Qed.
Lemma steady_mark n : steady (markZoneInfoPending n).
Proof. intros w. simpl. by destruct (_ !! n). Qed.
Lemma steady_clear n : steady (clearPendingZoneInfo n).
Proof. done. Qed.

Create HintDb steady.
#[local] Hint Resolve steady_ret steady_get steady_getp steady_mark steady_clear : steady.
#[local] Hint Extern 0 (steady (table_upsert _ _ _ _)) => apply steady_table : steady.
#[local] Hint Extern 0 (steady (table_update _ _)) => apply steady_table : steady.
#[local] Hint Extern 0 (steady (table_delete _)) => apply steady_table : steady.
Ltac steady_solve :=
  repeat first
    [ progress cbv beta zeta
    | solve [auto 2 with steady]
    | apply steady_bind; [|intros]
    | match goal with
      | |- steady (match ?x with _ => _ end) => destruct x
      | |- steady (if ?x then _ else _) => destruct x
      end ].

Lemma steady_networks nts flag : steady (apply_networks nts flag).
Proof.
  revert flag. induction nts as [|nt nts IH]; intros flag; cbn [apply_networks]; [done|].
  apply steady_bind; [unfold applyRIRspNetworkTuple; steady_solve|]. intros [[] [e|]]; steady_solve.
Qed.

Lemma steady_event et : steady (applyRIUpdEvent et).
Proof.
  unfold applyRIUpdEvent, apply_ndc, install_event, delete_event, table_find. steady_solve.
Qed.

Lemma steady_events ets flag : steady (apply_events ets flag).
Proof.
  revert flag. induction ets as [|et ets IH]; intros flag; cbn [apply_events]; [done|].
  apply steady_bind; [apply steady_event|]. intros [[] [e|]]; steady_solve.
Qed.

Lemma steady_send pkt : steady (send pkt).
Proof.
  unfold send. apply steady_bind; [by destruct (is_routing pkt)|intros ?].
  destruct (Packet_WriteTo pkt []) as [? [? [e|]]]; [done|].
  apply steady_bind; [done|intros ?]. intros w. unfold udp_write. by destruct (io w) as [|[] ?].
Qed.

Lemma steady_send_tr f : steady (send_tr f).
Proof. unfold send_tr. apply steady_bind; [done|]. intros; apply steady_send. Qed.

Lemma steady_hoare {A} t rs (m : M A) :
  steady m ->
  hoare (fun w => tr (pr w) = t /\ rstate (rcv (pr w)) = rs) m
    (fun _ w => tr (pr w) = t /\ rstate (rcv (pr w)) = rs).
Proof.
  intros Hm w [Ht Hr]. specialize (Hm w). destruct (m w) as [[w' a]|]; [|done].
  destruct Hm. split; congruence.
Qed.

(** ** The sequence check *)

Lemma Pred_Succ n : 1 <= n < 65536 -> Pred (Succ n) = n.
Proof. intros Hn. rewrite Succ_cases by done. case_match; zbool; [by subst|].
  rewrite Pred_cases by lia. by zdec; lia. Qed.

Lemma Succ_neq n : u16 n -> Succ n <> n.
Proof.
  unfold u16. intros Hn. destruct (decide (n = 0)) as [->|]; [done|].
  rewrite Succ_cases by lia. case_match; zbool; lia.
Qed.

Lemma seq_distinct n : 1 <= n < 65536 -> Pred n <> n.
Proof. intros Hn. rewrite Pred_cases by done. case_match; zbool; lia. Qed.

Lemma seq_in_order th w :
  transport_ok (tr (pr w)) -> Sequence th = remoteSeq (tr (pr w)) ->
  forall f, checkRemoteSeqWithAckFlags th f w = Some (w, CkOk).
Proof.
  intros (_ & _ & _ & _ & _ & Hs) E f. unfold checkRemoteSeqWithAckFlags, mbind, M_bind. simpl.
  rewrite E. pose proof (seq_distinct _ Hs). by zdec.
Qed.

Definition bumped (cs : list (Counter * Z)) (w : World) : World :=
  with_pr (with_diag (with_counters cs (diag (pr w))) (pr w)) w.

(** A duplicate is acknowledged again and goes no further. *)
Lemma seq_duplicate th w :
  transport_ok (tr (pr w)) -> u16 (ConnectionID th) -> 1 <= Sequence th < 65536 ->
  Succ (Sequence th) = remoteSeq (tr (pr w)) -> io w = [] ->
  exists w', checkRemoteSeq th w = Some (w', CkDrop) /\
    rtab w' = rtab w /\ tr (pr w') = tr (pr w) /\ snd (pr w') = snd (pr w) /\
    rcv (pr w') = rcv (pr w) /\
    sent w' = sent w ++ [NewRIAckPacket (tr (pr w)) (ConnectionID th) (Sequence th)
                           RoutingFlagSendZoneInfo].
Proof.
  intros Ht Hc Hs E Hio. unfold checkRemoteSeq, checkRemoteSeqWithAckFlags, send_tr, bump, modp,
    modw, getp, mbind, M_bind. rewrite <- E, Pred_Succ by done. zdec.
  set (w1 := with_pr _ w). set (pkt := NewRIAckPacket (tr (pr w1)) _ _ _).
  assert (Hwf : pkt_wf pkt).
  { apply (built_by_wf (tr (pr w1)) pkt Ht). constructor; [done..|]. const_widths. }
  destruct (send_ok pkt w1 Hwf Hio) as [dg ->]. eexists. split; [done|]. by split_and!.
Qed.

(** What is left after a routing packet has been applied and acknowledged. *)
Definition applied (t : Transport) (rs : ReceiverState) (err : error) (w : World) : Prop :=
  err = None -> tr (pr w) = IncRemoteSeq t /\ (rs = ReceiverConnected -> rstate (rcv (pr w)) = rs).

Lemma hoare_ack t rs (th : TrHeader) f (k : M unit) :
  hoare (fun w => tr (pr w) = t /\ rstate (rcv (pr w)) = rs) k
    (fun _ w => tr (pr w) = t /\ (rs = ReceiverConnected -> rstate (rcv (pr w)) = rs)) ->
  hoare (fun w => tr (pr w) = t /\ rstate (rcv (pr w)) = rs)
    (err ← send_tr (fun tr => NewRIAckPacket tr (ConnectionID th) (Sequence th) f);
     match err with
     | Some er => mret (Some er)
     | None => _ ← k; _ ← modtr IncRemoteSeq; mret None
     end) (applied t rs).
Proof.
  intros Hk. eapply hoare_bind; [apply steady_hoare, steady_send_tr|].
  intros [er|]; [by intros w _|]. eapply hoare_bind; [exact Hk|].
  intros ? w [Ht Hr] _. simpl. by rewrite Ht.
Qed.

Lemma apply_RIRsp_hoare h nts t rs :
  let th := HTrHeader h in
  hoare (fun w => tr (pr w) = t /\ rstate (rcv (pr w)) = rs)
    (ackFlag ← apply_networks nts 0;
     err ← send_tr (fun t => NewRIAckPacket t (ConnectionID th) (Sequence th) ackFlag);
     match err with
     | Some er => mret (Some er)
     | None =>
         _ ← (if negb (Z.land (Flags h) RoutingFlagLast =? 0) then
             _ ← setRState ReceiverConnected;
             n ← get now;
             _ ← modtm (with_lastSuccess (Some n));
             resetReconnectBackoff
           else mret tt);
         _ ← modtr IncRemoteSeq; mret None
     end) (applied t rs).
Proof.
  intros th. eapply hoare_bind; [apply steady_hoare, steady_networks|]. intros f.
  apply (hoare_ack t rs th f). intros w [Ht Hr]. destruct (negb _); simpl; by split.
Qed.

Lemma apply_RIUpd_hoare th ets t rs :
  hoare (fun w => tr (pr w) = t /\ rstate (rcv (pr w)) = rs)
    (ackFlag ← apply_events ets 0;
     err ← send_tr (fun t => NewRIAckPacket t (ConnectionID th) (Sequence th) ackFlag);
     match err with
     | Some er => mret (Some er)
     | None => _ ← modtr IncRemoteSeq; mret None
     end) (applied t rs).
Proof.
  eapply hoare_bind; [apply steady_hoare, steady_events|]. intros f.
  eapply hoare_bind; [apply steady_hoare, steady_send_tr|].
  intros [er|]; [by intros w _|]. intros w [Ht Hr] _. simpl. by rewrite Ht.
Qed.

Lemma local_ok th w :
  ConnectionID th = localConnID (tr (pr w)) -> checkLocalConnID th w = Some (w, CkOk).
Proof.
  intros E. unfold checkLocalConnID, mbind, M_bind. simpl. rewrite E, Z.eqb_refl. done.
Qed.

Lemma run_bind {A B} (m : M A) (f : A -> M B) w w' a :
  m w = Some (w', a) -> (m ≫= f) w = f a w'.
Proof. intros E. unfold mbind, M_bind. by rewrite E. Qed.

Lemma run_checked ck k w w' r :
  ck w = Some (w', r) ->
  checked ck k w = match r with
                   | CkOk => k w' | CkDrop => Some (w', None) | CkErr e => Some (w', Some e)
                   end.
Proof. intros E. unfold checked. rewrite (run_bind _ _ _ _ _ E). by destruct r. Qed.

Lemma handleRIRsp_applied h nts w w' :
  transport_ok (tr (pr w)) -> ConnectionID (HTrHeader h) = localConnID (tr (pr w)) ->
  Sequence (HTrHeader h) = remoteSeq (tr (pr w)) ->
  handleRIRsp h nts w = Some (w', None) -> tr (pr w') = IncRemoteSeq (tr (pr w)).
Proof.
  intros Ht Hc Hs. unfold handleRIRsp. rewrite (run_checked _ _ _ _ _ (local_ok _ _ Hc)).
  cbv iota. rewrite (run_bind markReceiverAlive _ w _ _ eq_refl).
  set (w1 := with_pr _ w). unfold checkRemoteSeq.
  rewrite (run_checked _ _ w1 w1 CkOk) by (by apply seq_in_order).
  pose proof (apply_RIRsp_hoare h nts (tr (pr w1)) (rstate (rcv (pr w1))) w1) as H.
  cbv zeta iota in *. intros E. rewrite E in H. by destruct H.
Qed.

Lemma handleRIUpd_applied h ets w w' :
  transport_ok (tr (pr w)) -> ConnectionID (HTrHeader h) = localConnID (tr (pr w)) ->
  Sequence (HTrHeader h) = remoteSeq (tr (pr w)) ->
  rstate (rcv (pr w)) = ReceiverConnected \/ rstate (rcv (pr w)) = ReceiverWaitForTickleAck ->
  handleRIUpd h ets w = Some (w', None) ->
  tr (pr w') = IncRemoteSeq (tr (pr w)) /\ rstate (rcv (pr w')) = ReceiverConnected.
Proof.
  intros Ht Hc Hs Hr. unfold handleRIUpd. rewrite (run_checked _ _ _ _ _ (local_ok _ _ Hc)).
  cbv iota. rewrite (run_bind markReceiverAlive _ w _ _ eq_refl).
  set (w1 := with_pr _ w). rewrite (run_bind (getp _) _ w1 w1 (rstate (rcv (pr w))) eq_refl).
  assert (Hp : forall w2, tr (pr w2) = tr (pr w) -> rstate (rcv (pr w2)) = ReceiverConnected ->
    process_update (HTrHeader h) ets w2 = Some (w', None) ->
    tr (pr w') = IncRemoteSeq (tr (pr w)) /\ rstate (rcv (pr w')) = ReceiverConnected).
  { intros w2 E2 R2. unfold process_update, checkRemoteSeq.
    rewrite (run_checked _ _ w2 w2 CkOk) by (apply seq_in_order; congruence).
    pose proof (apply_RIUpd_hoare (HTrHeader h) ets (tr (pr w2)) (rstate (rcv (pr w2))) w2) as H.
    intros E. rewrite E, R2, E2 in H. destruct H as [H1 H2]; [done..|]. auto. }
  destruct Hr as [E|E]; rewrite E; [by apply Hp|].
  rewrite (run_bind (setRState ReceiverConnected) _ w1 _ _ eq_refl). by apply Hp.
Qed.

(** The second delivery of a packet that has been applied. *)
Lemma redelivered pkt h w :
  (exists ns, pkt = RIRspPacket h ns) \/
  ((exists es, pkt = RIUpdPacket h es) /\ rstate (rcv (pr w)) = ReceiverConnected) ->
  transport_ok (tr (pr w)) -> ConnectionID (HTrHeader h) = localConnID (tr (pr w)) ->
  1 <= Sequence (HTrHeader h) < 65536 ->
  Succ (Sequence (HTrHeader h)) = remoteSeq (tr (pr w)) -> io w = [] ->
  exists w', handlePacket pkt w = Some (w', None) /\
    rtab w' = rtab w /\ tr (pr w') = tr (pr w) /\ snd (pr w') = snd (pr w) /\
    rcv (pr w') = rcv (pr w) /\
    sent w' = sent w ++ [NewRIAckPacket (tr (pr w)) (ConnectionID (HTrHeader h))
                           (Sequence (HTrHeader h)) RoutingFlagSendZoneInfo].
Proof.
  intros Hp Ht Hc Hs E Hio. unfold handlePacket.
  rewrite (run_bind (addToChatLog pkt false) _ w _ _ eq_refl). set (w0 := with_pr _ w).
  set (w1 := run_world markReceiverAlive w0).
  destruct (seq_duplicate (HTrHeader h) w1) as (w2 & E2 & H); [done| |done..|].
  { rewrite Hc. by destruct Ht as (_ & _ & ? & _). }
  exists w2. split; [|exact H]. destruct Hp as [[ns ->]|[[es ->] Hr]]; cbv beta iota.
  - unfold handleRIRsp. rewrite (run_checked _ _ w0 w0 CkOk) by (by apply local_ok).
    rewrite (run_bind markReceiverAlive _ w0 w1 tt eq_refl).
    by rewrite (run_checked _ _ w1 w2 CkDrop E2).
  - unfold handleRIUpd. rewrite (run_checked _ _ w0 w0 CkOk) by (by apply local_ok).
    rewrite (run_bind markReceiverAlive _ w0 w1 tt eq_refl).
    rewrite (run_bind (getp _) _ w1 w1 ReceiverConnected) by (unfold getp; simpl; by rewrite Hr).
    unfold process_update. by rewrite (run_checked _ _ w1 w2 CkDrop E2).
Qed.

(** C4: routing packets take effect once.  After an in-sequence RI-Rsp, or an
    RI-Upd on an open connection, has been handled, the expected sequence number
    has advanced; when the same packet arrives again - its RI-Ack was lost - it
    is acknowledged again with its connection ID and sequence number, and neither
    the route table nor the state of the connection changes. *)
Theorem redelivery_idempotent (w w1 : World) (pkt : Packet) (h : Header) :
  (exists ns, pkt = RIRspPacket h ns) \/
  ((exists es, pkt = RIUpdPacket h es) /\
   (rstate (rcv (pr w)) = ReceiverConnected \/ rstate (rcv (pr w)) = ReceiverWaitForTickleAck)) ->
  transport_ok (tr (pr w)) ->
  ConnectionID (HTrHeader h) = localConnID (tr (pr w)) ->
  Sequence (HTrHeader h) = remoteSeq (tr (pr w)) ->
  handlePacket pkt w = Some (w1, None) -> io w1 = [] ->
  remoteSeq (tr (pr w1)) = Succ (remoteSeq (tr (pr w))) /\
  exists w2, handlePacket pkt w1 = Some (w2, None) /\
    rtab w2 = rtab w1 /\ tr (pr w2) = tr (pr w1) /\ snd (pr w2) = snd (pr w1) /\
    rcv (pr w2) = rcv (pr w1) /\
    sent w2 = sent w1 ++ [NewRIAckPacket (tr (pr w1)) (ConnectionID (HTrHeader h))
                            (Sequence (HTrHeader h)) RoutingFlagSendZoneInfo].
Proof.
  intros Hp Ht Hc Hs E Hio.
  assert (Hseq : 1 <= remoteSeq (tr (pr w)) < 65536) by (by destruct Ht as (_ & _ & _ & _ & _ & ?)).
  assert (H1 : tr (pr w1) = IncRemoteSeq (tr (pr w)) /\
    ((exists ns, pkt = RIRspPacket h ns) \/
     ((exists es, pkt = RIUpdPacket h es) /\ rstate (rcv (pr w1)) = ReceiverConnected))).
  { unfold handlePacket in E. rewrite (run_bind (addToChatLog pkt false) _ w _ _ eq_refl) in E.
    destruct Hp as [[ns ->]|[[es ->] Hr]].
    - split; [|left; by exists ns]. by apply handleRIRsp_applied in E.
    - apply handleRIUpd_applied in E as [E1 E2]; [|done..]. split; [exact E1|].
      right. split; [by exists es|done]. }
  destruct H1 as [H1 Hk]. split; [rewrite H1; simpl; by rewrite wrap16_small by (unfold u16; lia)|].
  apply (redelivered pkt h w1 Hk); [|by rewrite H1|by rewrite Hs| |done].
  - rewrite H1. by apply (transport_run_ok OpIncRemoteSeq _ Ht I).
  - rewrite H1, Hs. simpl. by rewrite wrap16_small by (unfold u16; lia).
Qed.

(** ** Closed connections *)

(** The packets that carry the ID of our receiving connection. *)
Definition to_receiver (pkt : Packet) : option Header :=
  match pkt with
  | OpenRspPacket h _ _ | RIRspPacket h _ | RIUpdPacket h _ | ZIRspPacket h _ _ _
  | TickleAckPacket h | GDZLRspPacket h _ _ _ | GZNRspPacket h _ _ _ _ => Some h
  | RDPacket h _ => if Sequence (HTrHeader h) =? 0 then None else Some h
  | _ => None
  end.

(** Nothing but counters and the chat log changed. *)
Definition ignored (w w' : World) : Prop :=
  exists dg, w' = with_pr (with_diag dg (pr w)) w.

Lemma local_mismatch th w k :
  ConnectionID th <> localConnID (tr (pr w)) ->
  exists w', checked (checkLocalConnID th) k w = Some (w', None) /\ ignored w w'.
Proof.
  intros Hne. eexists. split.
  - erewrite run_checked; [|unfold checkLocalConnID, mbind, M_bind; simpl; zdec; done]. done.
  - by eexists.
Qed.

Lemma ignored_trans w w1 w2 : ignored w w1 -> ignored w1 w2 -> ignored w w2.
Proof. intros [d1 ->] [d2 ->]. by exists d2. Qed.

(** Packets of another connection have no effect on the receiving side. *)
Lemma foreign_ignored pkt h w :
  to_receiver pkt = Some h -> ConnectionID (HTrHeader h) <> localConnID (tr (pr w)) ->
  exists w', handlePacket pkt w = Some (w', None) /\ ignored w w'.
Proof.
  intros Hp Hne. unfold handlePacket. rewrite (run_bind (addToChatLog pkt false) _ w _ _ eq_refl).
  set (w0 := with_pr _ w). assert (H0 : ignored w w0) by (by eexists).
  assert (Hl : forall w1 k, ignored w w1 ->
    exists w', checked (checkLocalConnID (HTrHeader h)) k w1 = Some (w', None) /\ ignored w w').
  { intros w1 k H1. destruct (H1) as [d E1].
    destruct (local_mismatch (HTrHeader h) w1 k) as (w' & E & H); [by rewrite E1|].
    exists w'. split; [done|]. by eapply ignored_trans. }
  destruct pkt as [d data|h' v o|h' r o|h'|h' ns|h'|h' es|h' e|h' sc ns|h' sc t zs|h' sc i
    |h' sc i ns|h' sc z|h' sc z ok ns|h'|h']; simplify_eq/=;
    try (by apply (Hl w0 _ H0)).
  unfold handleRD. destruct (_ =? 0); [done|]. simplify_eq.
  rewrite (run_bind (bump _ _) _ w0 _ _ eq_refl). apply Hl. destruct H0 as [d0 ->]. by eexists.
Qed.

(** C10: closing the receiving connection is final.  [disconnectReceiver]
    removes exactly the routes learned from the peer from the route table,
    forgets its pending zone requests and moves to a new connection ID; after
    it, a delayed Open-Rsp, RI-Rsp, RI-Upd, ZI-Rsp, Tickle-Ack or RD of the
    closed connection changes nothing except diagnostics, so it cannot install a
    route again. *)
Theorem closed_connection_final (w : World) :
  reachable (rtab w) -> transport_ok (tr (pr w)) ->
  exists w1, disconnectReceiver w = Some (w1, tt) /\
    (forall r, stored (rtab w1) r <->
       stored (rtab w) r /\ TargetKey (rkey r) <> RouteTargetKey (self (pr w))) /\
    rstate (rcv (pr w1)) = ReceiverUnconnected /\ pendingZoneInfo (rcv (pr w1)) = ∅ /\
    forall pkt h, to_receiver pkt = Some h ->
      ConnectionID (HTrHeader h) = localConnID (tr (pr w)) ->
      exists w2, handlePacket pkt w1 = Some (w2, None) /\ ignored w1 w2.
Proof.
  intros Hr Ht. unfold disconnectReceiver.
  destruct (DeleteTarget_spec (rtab w) (reachable_inv _ Hr) (now w) (self (pr w)))
    as (rt' & notes & E & _).
  pose proof (DeleteTarget_stored (rtab w) (reachable_inv _ Hr) rt' _ _ notes E) as Hst.
  assert (Eop : table_delete_target w = Some (deliver_all notes (with_rtab rt' w), tt))
    by (unfold table_delete_target, table_op; by rewrite E).
  destruct (deliver_all_frame notes (with_rtab rt' w)) as (Hc & _).
  injection Hc as E1 E2 _ _. rewrite (run_bind _ _ _ _ _ Eop).
  eexists. split; [done|]. split; [simpl; by rewrite E1|]. split; [done|]. split; [done|].
  intros pkt h Hp Hid. apply (foreign_ignored pkt h); [done|]. simpl. rewrite E2, Hid. simpl.
  destruct Ht as (_ & _ & Hl & _). rewrite wrap16_small by done. intros Heq.
  by apply (Succ_neq _ Hl).
Qed.

(** ** Importing routes *)

(** Distances in a configuration file are bytes. *)
Definition distances_ok (p : Peer) : Prop :=
  u8 (HopCountWeight (timing p)) /\ Forall (fun b => u8 (bp_Penalty b)) (BackupPeers (timing p)).

Lemma penalty_u8 p : distances_ok p -> u8 (backupRoutePenalty p).
Proof.
  intros [_ Hb]. unfold backupRoutePenalty. induction Hb as [|b bs Hb _ IH]; simpl; [done|].
  by case_match.
Qed.

Definition import_distance (p : Peer) (advertised : Z) : Z :=
  advertised + 1 + HopCountWeight (timing p) + backupRoutePenalty p.

(** No step of the sum wraps around. *)
Lemma weighted_exact p a :
  distances_ok p -> 0 <= a < 128 ->
  weightedAURPDistance p a =
  if import_distance p a <=? 15 then Some (import_distance p a) else None.
Proof.
  intros Hd Ha. pose proof (penalty_u8 p Hd) as Hp. destruct Hd as [Hw _].
  unfold weightedAURPDistance, import_distance, maxRouteDistance, u8 in *.
  destruct (15 <=? a) eqn:E; zbool; [by zdec|].
  rewrite (wrap16_small (a + 1)), (wrap16_small (a + 1 + _)), wrap16_small
    by (unfold u16; lia).
  case_match; zbool; zdec; [done|]. f_equal. unfold wrap8. by rewrite Z.mod_small by lia.
Qed.

Lemma weighted_range p a d : 0 <= a -> weightedAURPDistance p a = Some d -> 0 <= d <= maxRouteDistance.
Proof.
  intros Ha H. unfold weightedAURPDistance in H. destruct (_ <=? a); [done|].
  destruct (_ <? _) eqn:E; [done|]. zbool. injection H as <-. unfold wrap8, maxRouteDistance in *.
  match goal with |- context [wrap16 ?x] => pose proof (wrap16_u16 x) as H end. unfold u16 in H.
  rewrite Z.mod_small; lia.
Qed.

Definition tuple_valid (nt : NetworkTuple) : Prop :=
  nt_RangeStart nt <= nt_RangeEnd nt /\ (nt_RangeStart nt <> nt_RangeEnd nt -> nt_Extended nt = true).

Lemma validate_spec nt :
  validateAURPRouteTuple (nt_Extended nt) (nt_RangeStart nt) (nt_RangeEnd nt) = None <->
  tuple_valid nt.
Proof.
  unfold validateAURPRouteTuple, tuple_valid. destruct (_ <? _) eqn:E1; zbool.
  { split; [done|lia]. }
  destruct (nt_Extended nt); simpl; [split; [split; [lia|done]|done]|].
  destruct (nt_RangeStart nt =? nt_RangeEnd nt) eqn:E2; zbool; simpl.
  - split; [intros _; split; [lia|done]|done].
  - split; [done|]. intros [_ H]. by specialize (H E2).
Qed.

Lemma import_tuple (w : World) (nt : NetworkTuple) :
  let p := pr w in
  let nt' := remapInboundNetworkTuple (timing p) (ident p) nt in
  let d := import_distance p (nt_Distance nt) in
  let accepted := tuple_valid nt /\
    importRangeHidden (timing p) (ident p) (nt_RangeStart nt) (nt_RangeEnd nt) = false /\ d <= 15 in
  reachable (rtab w) -> nt_wf nt -> distances_ok p -> tuple_valid nt' -> nt_RangeEnd nt' < 65535 ->
  0 <= nt_RangeStart nt' ->
  exists w' ok err, applyRIRspNetworkTuple nt w = Some (w', (ok, err)) /\
    (ok = true <-> accepted) /\
    (ok = false -> w' = w) /\
    (ok = true -> exists t,
       let r := upsert_record (now w) (self p) (nt_Extended nt) (nt_RangeStart nt')
                  (nt_RangeEnd nt') d t in
       byClass (rtab w') = <[(Class_ (self p), key_of (self p) (nt_RangeStart nt')) := r]>
         (byClass (rtab w))) /\
    tr (pr w') = tr (pr w) /\ io w' = io w /\ sent w' = sent w /\ rcv (pr w') = rcv (pr w) /\
    self (pr w') = self (pr w) /\ (ok = true -> err = None).
Proof.
  intros p nt' d accepted Hr Hnt Hd Hv Hend Hs0.
  assert (Ed : nt_Distance nt' = nt_Distance nt /\ nt_Extended nt' = nt_Extended nt).
  { subst nt'. unfold remapInboundNetworkTuple. by destruct (remapInboundRange _ _ _ _) as [[? ?] []]. }
  destruct Ed as [Ed Ee]. pose proof Hnt as (_ & Hdist & _).
  unfold applyRIRspNetworkTuple.
  destruct (validateAURPRouteTuple _ _ _) as [e|] eqn:Ev.
  { exists w, false, (Some e). split; [done|]; split; [split; [done|]|by split_and!].
    intros [Hval%validate_spec _]. congruence. }
  apply validate_spec in Ev. rewrite (run_bind (getp id) _ w w (pr w) eq_refl). fold p.
  destruct (importRangeHidden _ _ _ _) eqn:Eh.
  { exists w, false, None. split; [done|]; split; [split; [done|]|by split_and!]. by intros (_ & ? & _). }
  cbv zeta. fold nt'. rewrite Ed, weighted_exact by done. fold d.
  destruct (d <=? 15) eqn:E15; zbool.
  2: { exists w, false, None. split; [done|]; split; [split; [done|]|by split_and!]. intros (_ & _ & ?). lia. }
  rewrite Ee. destruct Hv as [Hv1 Hv2]. rewrite Ee in Hv2.
  assert (Hd0 : 0 <= d <= maxRouteDistance).
  { pose proof (penalty_u8 p Hd). destruct Hd as [Hw _]. subst d.
    unfold import_distance, u8, maxRouteDistance in *. lia. }
  destruct (UpsertRoute_ok (rtab w) (reachable_inv _ Hr) (now w) (self p) (nt_Extended nt)
    (nt_RangeStart nt') (nt_RangeEnd nt') d ltac:(lia) Hend Hv2 Hd0)
    as (t & rt' & notes & E & _ & _ & Hc & _).
  assert (Eop : table_upsert (nt_Extended nt) (nt_RangeStart nt') (nt_RangeEnd nt') d w
    = Some (deliver_all notes (with_rtab rt' w), Ok (upsert_record (now w) (self p) (nt_Extended nt)
        (nt_RangeStart nt') (nt_RangeEnd nt') d t)))
    by (unfold table_upsert, table_op; fold p; by rewrite E).
  rewrite (run_bind _ _ _ _ _ Eop).
  destruct (deliver_all_frame notes (with_rtab rt' w)) as (Hcore & H2 & _ & H4 & _ & _ & _ & H8 & H9 & _).
  injection Hcore as E1 E2 _ _. do 3 eexists. split; [done|]. split; [done|]. split; [done|].
  split; [intros _; exists t; by rewrite E1|]. unfold self. by rewrite E2, H2, H4, H8, H9.
Qed.


(** ** Two defects *)

(** An in-sequence RI-Rsp reaches the loop over its tuples. *)
Lemma handleRIRsp_in_order h nts w :
  transport_ok (tr (pr w)) -> ConnectionID (HTrHeader h) = localConnID (tr (pr w)) ->
  Sequence (HTrHeader h) = remoteSeq (tr (pr w)) ->
  exists w0 k, rtab w0 = rtab w /\ tr (pr w0) = tr (pr w) /\ timing (pr w0) = timing (pr w) /\
    ident (pr w0) = ident (pr w) /\ now w0 = now w /\ rcv (pr w0) = rcv (pr w) /\
    io w0 = io w /\ sent w0 = sent w /\
    handlePacket (RIRspPacket h nts) w = (apply_networks nts 0 ≫= k) w0 /\
    forall f w1, io w1 = [] -> transport_ok (tr (pr w1)) -> u16 f ->
      exists w2, k f w1 = Some (w2, None) /\ rtab w2 = rtab w1 /\
        pendingZoneInfo (rcv (pr w2)) = pendingZoneInfo (rcv (pr w1)) /\
        sent w2 = sent w1 ++ [NewRIAckPacket (tr (pr w1)) (ConnectionID (HTrHeader h))
          (Sequence (HTrHeader h)) f].
Proof.
  intros Ht Hc Hs. unfold handlePacket.
  rewrite (run_bind (addToChatLog _ false) _ w _ _ eq_refl). set (w1 := with_pr _ w).
  cbv beta iota. unfold handleRIRsp. rewrite (run_checked _ _ w1 w1 CkOk) by (by apply local_ok).
  rewrite (run_bind markReceiverAlive _ w1 _ _ eq_refl). set (w2 := with_pr _ w1).
  unfold checkRemoteSeq. rewrite (run_checked _ _ w2 w2 CkOk) by (by apply seq_in_order).
  exists w2. eexists. split_and!; [done..|]. intros f w3 Hio Ht3 Hf.
  set (pkt := NewRIAckPacket (tr (pr w3)) (ConnectionID (HTrHeader h)) (Sequence (HTrHeader h)) f).
  assert (Hwf : pkt_wf pkt).
  { apply (built_by_wf (tr (pr w3)) pkt Ht3). destruct Ht as (_ & _ & Hl & _ & _ & Hseq).
    constructor; [by rewrite Hc|by rewrite Hs|done]. }
  destruct (send_ok pkt w3 Hwf Hio) as [dg E].
  assert (E' : send_tr (fun t => NewRIAckPacket t (ConnectionID (HTrHeader h))
    (Sequence (HTrHeader h)) f) w3 = Some (after_send pkt dg w3, None)) by exact E.
  rewrite (run_bind _ _ _ _ _ E').
  destruct (negb _); (eexists; split; [done|]); by split_and!.
Qed.

(** An RI-Rsp can stop the peer for good.  When an in-sequence RI-Rsp
    starts with a tuple that is well-formed, not hidden, not remapped, near
    enough, and covers a range ending at network 65535, [handlePacket] does not
    return. *)
Theorem rirsp_65535_hangs (w : World) (h : Header) (nt : NetworkTuple) (nts : list NetworkTuple)
    (d : Z) :
  reachable (rtab w) -> transport_ok (tr (pr w)) ->
  ConnectionID (HTrHeader h) = localConnID (tr (pr w)) ->
  Sequence (HTrHeader h) = remoteSeq (tr (pr w)) ->
  nt_wf nt -> nt_RangeEnd nt = 65535 ->
  importRangeHidden (timing (pr w)) (ident (pr w)) (nt_RangeStart nt) 65535 = false ->
  remapInboundNetworkTuple (timing (pr w)) (ident (pr w)) nt = nt ->
  weightedAURPDistance (pr w) (nt_Distance nt) = Some d ->
  handlePacket (RIRspPacket h (nt :: nts)) w = None.
Proof.
  intros Hr Ht Hc Hs Hnt He Hh Hm Hd.
  destruct (handleRIRsp_in_order h (nt :: nts) w Ht Hc Hs)
    as (w0 & k & E1 & _ & E2 & E3 & E4 & _ & _ & _ & -> & _).
  pose proof Hnt as (Hstart & Hdist & _ & Hext). unfold u16 in Hstart.
  assert (Hval : tuple_valid nt).
  { split; [lia|]. intros Hne. destruct (nt_Extended nt) eqn:Ex; [done|]. by rewrite Hext in Hne. }
  assert (Hw : weightedAURPDistance (pr w0) (nt_Distance nt) = Some d)
    by (unfold weightedAURPDistance, backupRoutePenalty in *; by rewrite E2, E3).
  assert (Hop : table_upsert (nt_Extended nt) (nt_RangeStart nt) (nt_RangeEnd nt) d w0 = None).
  { unfold table_upsert, table_op. rewrite He, upsert_diverges; [done|..].
    - rewrite E1. by apply reachable_inv.
    - done.
    - rewrite <- He. apply Hval.
    - by apply (weighted_range (pr w) (nt_Distance nt)); [lia|]. }
  unfold mbind at 1, M_bind at 1. cbn [apply_networks]. unfold mbind at 1, M_bind at 1.
  unfold applyRIRspNetworkTuple. apply validate_spec in Hval. rewrite Hval.
  rewrite (run_bind (getp id) _ w0 w0 (pr w0) eq_refl). rewrite He, E2, E3, Hh. cbv zeta.
  rewrite Hm, Hw. unfold mbind at 1, M_bind at 1. by rewrite Hop.
Qed.

(** The zones of remapped networks are not asked for.  An in-sequence
    RI-Rsp with one acceptable tuple whose range is remapped installs the route
    under its local number, and then looks the zone names up under the remote
    number: when the peer has no route of that number, the RI-Ack does not ask
    for zone information and no zone request is pending, although nothing is
    known about the zones of the new route. *)
Theorem remapped_zones_not_requested (w : World) (h : Header) (nt : NetworkTuple) :
  let p := pr w in
  let nt' := remapInboundNetworkTuple (timing p) (ident p) nt in
  let d := import_distance p (nt_Distance nt) in
  reachable (rtab w) -> transport_ok (tr p) -> io w = [] ->
  ConnectionID (HTrHeader h) = localConnID (tr p) -> Sequence (HTrHeader h) = remoteSeq (tr p) ->
  nt_wf nt -> distances_ok p -> tuple_valid nt' -> nt_RangeEnd nt' < 65535 ->
  0 <= nt_RangeStart nt' ->
  tuple_valid nt /\
  importRangeHidden (timing p) (ident p) (nt_RangeStart nt) (nt_RangeEnd nt) = false /\ d <= 15 ->
  nt_RangeStart nt' <> nt_RangeStart nt -> pendingZoneInfo (rcv p) = ∅ ->
  byClass (rtab w) !! (Class_ (self p), key_of (self p) (nt_RangeStart nt)) = None ->
  exists w2 t, handlePacket (RIRspPacket h [nt]) w = Some (w2, None) /\
    byClass (rtab w2) !! (Class_ (self p), key_of (self p) (nt_RangeStart nt')) =
      Some (upsert_record (now w) (self p) (nt_Extended nt) (nt_RangeStart nt') (nt_RangeEnd nt') d t) /\
    pendingZoneInfo (rcv (pr w2)) = ∅ /\
    sent w2 = sent w ++ [NewRIAckPacket (tr p) (ConnectionID (HTrHeader h))
                           (Sequence (HTrHeader h)) 0].
Proof.
  intros p nt' d Hr Ht Hio Hc Hs Hnt Hd Hv Hend Hs0 Hacc Hne Hp Hnone.
  destruct (handleRIRsp_in_order h [nt] w Ht Hc Hs)
    as (w0 & k & E1 & E2 & E3 & E4 & E5 & E6 & E7 & E8 & -> & Hk).
  assert (Es : self (pr w0) = self p) by (unfold self; by rewrite E4).
  assert (Eb : backupRoutePenalty (pr w0) = backupRoutePenalty p)
    by (unfold backupRoutePenalty; by rewrite E3, E4).
  destruct (import_tuple w0 nt) as (w1 & ok & err & H1 & H2 & _ & H4 & H5 & H6 & H7 & H8 & H9 & H10);
    unfold distances_ok, import_distance in *; rewrite ?E1, ?E3, ?E4, ?Eb in *; try done.
  assert (ok = true) as -> by (by apply H2). destruct (H4 eq_refl) as (t & Hby).
  rewrite E5, Es in Hby. fold nt' in Hby.
  rewrite (H10 eq_refl) in H1.
  set (w2 := run_world (clearPendingZoneInfo (nt_RangeStart nt)) w1).
  assert (Ea : apply_networks [nt] 0 w0 = Some (w2, 0)).
  { cbn [apply_networks]. rewrite (run_bind _ _ _ _ _ H1). cbv iota.
    rewrite (run_bind (get _) _ w1 w1 false); [done|]. unfold get, needsZoneInfo.
    rewrite H9, Es, find_none; [done|]. rewrite Hby, lookup_insert_ne; [done|].
    unfold key_of. intros [= E]. by apply Hne. }
  rewrite (run_bind _ _ _ _ _ Ea).
  destruct (Hk 0 w2) as (w3 & Ek & R1 & R2 & R3); [simpl; congruence|simpl; by rewrite H5, E2| |].
  { const_widths. }
  exists w3, t. split; [done|]. rewrite R1, R2, R3. simpl. unfold p in Hp.
  rewrite H8, E6, Hp, delete_empty, H7, E8, H5, E2. split; [|done]. rewrite Hby.
  apply lookup_insert_eq.
Qed.
End Recv.

(** ** Witnesses *)

Definition wit_tuple (s e : Z) : NetworkTuple :=
  {| nt_Extended := true; nt_RangeStart := s; nt_Distance := 1; nt_RangeEnd := e |}.

Definition wit_rirsp_header : Header :=
  mkHeader (sequenced wit_remote 7 1) CmdCodeRIRsp RoutingFlagLast.
Definition wit_rirsp (s e : Z) : Packet := RIRspPacket wit_rirsp_header [wit_tuple s e].

Definition wit_learned : World := wit_handle (wit_rirsp 20 22) wit_world.

Lemma wit_learned_run :
  handlePacket (GStr := ascii_strings) (GS := insertion_sort) (wit_rirsp 20 22) wit_world
  = Some (wit_learned, None).
Proof.
  destruct (run_world_some (handlePacket (GStr := ascii_strings) (GS := insertion_sort)
    (wit_rirsp 20 22)) wit_world) as [err E]; [vm_compute; reflexivity|].
  assert (He : option_map (fun r => r.2) (handlePacket (GStr := ascii_strings) (GS := insertion_sort)
    (wit_rirsp 20 22) wit_world) = Some None) by (vm_compute; reflexivity).
  rewrite E in He. injection He as ->. exact E.
Qed.

Lemma redelivery_idempotent_witness :
  remoteSeq (tr (pr wit_learned)) = Succ 1 /\
  exists w2, handlePacket (GStr := ascii_strings) (GS := insertion_sort) (wit_rirsp 20 22)
      wit_learned = Some (w2, None) /\
    rtab w2 = rtab wit_learned /\ tr (pr w2) = tr (pr wit_learned) /\
    snd (pr w2) = snd (pr wit_learned) /\ rcv (pr w2) = rcv (pr wit_learned) /\
    sent w2 = sent wit_learned ++ [NewRIAckPacket (tr (pr wit_learned)) 7 1 RoutingFlagSendZoneInfo].
Proof.
  apply (redelivery_idempotent (GStr := ascii_strings) (GS := insertion_sort) wit_world wit_learned
    (wit_rirsp 20 22) wit_rirsp_header).
  - left. by eexists.
  - exact wit_tr_ok.
  - reflexivity.
  - reflexivity.
  - exact wit_learned_run.
  - vm_compute. reflexivity.
Defined.

Lemma closed_connection_final_witness :
  exists w1, disconnectReceiver (GStr := ascii_strings) (GS := insertion_sort) wit_world = Some (w1, tt) /\
    (forall r, stored (rtab w1) r <->
       stored (rtab wit_world) r /\ TargetKey (rkey r) <> RouteTargetKey (self wit_pr)) /\
    rstate (rcv (pr w1)) = ReceiverUnconnected /\ pendingZoneInfo (rcv (pr w1)) = ∅ /\
    forall pkt h, to_receiver pkt = Some h -> ConnectionID (HTrHeader h) = 7 ->
      exists w2, handlePacket (GStr := ascii_strings) (GS := insertion_sort) pkt w1
        = Some (w2, None) /\ ignored w1 w2.
Proof.
  apply (closed_connection_final (GStr := ascii_strings) (GS := insertion_sort) wit_world);
    [exact wit_reachable|exact wit_tr_ok].
Defined.

Lemma wit_tuple_wf s e : u16 s -> u16 e -> nt_wf (wit_tuple s e).
Proof. intros. split; [done|]. split; [simpl; lia|]. by split. Qed.

Lemma wit_distances : distances_ok wit_pr.
Proof. split; [unfold u8; simpl; lia|constructor]. Qed.


Lemma rirsp_65535_hangs_witness :
  handlePacket (GStr := ascii_strings) (GS := insertion_sort) (wit_rirsp 60000 65535) wit_world = None.
Proof.
  apply (rirsp_65535_hangs (GStr := ascii_strings) (GS := insertion_sort) wit_world wit_rirsp_header
    (wit_tuple 60000 65535) [] 2).
  - exact wit_reachable.
  - exact wit_tr_ok.
  - reflexivity.
  - reflexivity.
  - apply wit_tuple_wf; unfold u16; lia.
  - reflexivity.
  - vm_compute. reflexivity.
  - vm_compute. reflexivity.
  - vm_compute. reflexivity.
Defined.

Lemma remapped_zones_not_requested_witness :
  exists w2 t, handlePacket (GStr := ascii_strings) (GS := insertion_sort) (wit_rirsp 10 12) wit_world
      = Some (w2, None) /\
    byClass (rtab w2) !! (Class_ (self wit_pr), key_of (self wit_pr) 100) =
      Some (upsert_record 5 (self wit_pr) true 100 102 2 t) /\
    pendingZoneInfo (rcv (pr w2)) = ∅ /\
    sent w2 = [] ++ [NewRIAckPacket wit_tr 7 1 0].
Proof.
  apply (remapped_zones_not_requested (GStr := ascii_strings) (GS := insertion_sort) wit_world
    wit_rirsp_header (wit_tuple 10 12)).
  - exact wit_reachable.
  - exact wit_tr_ok.
  - reflexivity.
  - reflexivity.
  - reflexivity.
  - apply wit_tuple_wf; unfold u16; lia.
  - exact wit_distances.
  - split; [vm_compute; discriminate|reflexivity].
  - vm_compute. reflexivity.
  - vm_compute. discriminate.
  - split; [split; [vm_compute; discriminate|reflexivity]|]. split; vm_compute; [reflexivity|discriminate].
  - vm_compute. discriminate.
  - reflexivity.
  - vm_compute. reflexivity.
Defined.
