(* ===== verification/PeerSend.v ===== *)
(** * The AURP peer: the sending side

    The acknowledged stream of routing information, the ways a sending
    connection is closed, and the back-off of reconnection. *)
From S2P Require Import Prelude Wtacc AurpHeaders AurpTuples AurpZoneInfo AurpPacket.
From S2P Require Import AurpTransport PeerPolicy GoSort RouteTable RouteTableInv RouteTableOps.
From S2P Require Import RouteTableSpec RouteExport PeerState PeerZones PeerFSM PeerInv PeerKeeps.
From S2P Require Import PeerTotal PeerSpec PeerRecv.
Import RT Policy Exp PS Zones FSM.

Section Send.
Context {GStr : GoStrings} {GS : GoSort}.

(** ** Acknowledgements *)

(** The RI-Ack of the peer for the outstanding packet. *)
Definition ack_header (t : Transport) (flags : Z) : Header :=
  mkHeader {| TrDomainHeader := domainHeader t PacketTypeRouting; ConnectionID := remoteConnID t;
              Sequence := localSeq t |} CmdCodeRIAck flags.

Definition ack_outstanding : M error :=
  t ← getp tr; handlePacket (RIAckPacket (ack_header t 0)).

Fixpoint ack_all (n : nat) : M error :=
  match n with
  | O => mret None
  | S n => err ← ack_outstanding; match err with Some e => mret (Some e) | None => ack_all n end
  end.

(** The RI-Rsp datagrams of a list of chunks: consecutive sequence numbers, the
    Last flag on the final one. *)
Fixpoint stream (t : Transport) (seq : Z) (chunks : list (list NetworkTuple)) : list Packet :=
  match chunks with
  | [] => []
  | c :: cs =>
      RIRspPacket (mkHeader (sequenced t (remoteConnID t) seq) CmdCodeRIRsp
        (if zlen cs =? 0 then RoutingFlagLast else 0)) c :: stream t (Succ seq) cs
  end.

Lemma remote_ok th w :
  ConnectionID th = remoteConnID (tr (pr w)) -> checkRemoteConnID th w = Some (w, CkOk).
Proof.
  intros E. unfold checkRemoteConnID, mbind, M_bind. simpl. rewrite E, Z.eqb_refl.
  by destruct (_ =? 0).
Qed.

(** What the stream relies on besides the pending chunks. *)
Record sending (t : Transport) (w : World) : Prop := {
  sd_tr : tr (pr w) = t;
  sd_ok : transport_ok t;
  sd_io : io w = [];
  sd_rcv : rstate (rcv (pr w)) <> ReceiverUnconnected }.

(** Sending the next chunk. *)
Lemma send_chunk adv t w c cs :
  sending t w -> Forall nt_wf c -> pendingRIRsp (snd (pr w)) = c :: cs ->
  let t' := if adv : bool then IncLocalSeq t else t in
  exists w', sendNextRIRsp adv w = Some (w', None) /\ sending t' w' /\
    sstate (snd (pr w')) = SenderWaitForRIRspAck /\ pendingRIRsp (snd (pr w')) = cs /\
    sent w' = sent w ++ [RIRspPacket (mkHeader (sequenced t' (remoteConnID t') (localSeq t'))
      CmdCodeRIRsp (if zlen cs =? 0 then RoutingFlagLast else 0)) c].
Proof.
  intros [Et Hok Hio Hr] Hc Hp t'. unfold sendNextRIRsp, nextRIRspPacket.
  rewrite (run_bind _ _ w (with_pr (with_snd (with_pendingRIRsp cs (snd (pr w)))
    (with_tr t' (pr w))) w) (Ok (NewRIRspPacket t' (if zlen cs =? 0 then RoutingFlagLast else 0) c))).
  2: { rewrite (run_bind (getp _) _ w w (c :: cs)) by (unfold getp; by rewrite Hp).
       unfold mbind, M_bind, t'. destruct adv; simpl; by rewrite ?Et; destruct w as [p ? ? ? ? ? ? ?], p; simpl in *; subst. }
  assert (Hok' : transport_ok t') by (unfold t'; destruct adv; [by apply IncLocalSeq_ok|done]).
  set (pkt := NewRIRspPacket _ _ _). unfold send_outstanding.
  rewrite (run_bind (mods _) _ _ _ tt eq_refl). set (w1 := with_pr _ _).
  destruct (send_ok pkt w1) as [dg E]; [|done|].
  { apply (built_by_wf t'); [done|]. constructor; [|done]. destruct (_ =? 0); const_widths. }
  rewrite (run_bind _ _ _ _ _ E). eexists. split; [done|]. split; [by split|]. by split_and!.
Qed.

Lemma stream_seq n t seq cs : stream (with_localSeq n t) seq cs = stream t seq cs.
Proof. revert seq. induction cs as [|c cs IH]; intros seq; [done|]. cbn [stream]. by rewrite IH. Qed.

(** An acknowledgement while chunks are pending, and the final one. *)
Lemma ack_step t w :
  sending t w -> sstate (snd (pr w)) = SenderWaitForRIRspAck ->
  exists w0, ack_outstanding w =
    (if 0 <? zlen (pendingRIRsp (snd (pr w))) then sendNextRIRsp true w0
     else Some (run_world AddObserver_self (run_world (setSState SenderConnected) w0), None)) /\
    sending t w0 /\ snd (pr w0) = snd (pr w) /\ sent w0 = sent w.
Proof.
  intros [Et Hok Hio Hr] Hs. unfold ack_outstanding.
  rewrite (run_bind (getp tr) _ w w t) by (unfold getp; by rewrite Et). unfold handlePacket.
  rewrite (run_bind (addToChatLog _ false) _ w _ _ eq_refl). set (w1 := with_pr _ w).
  cbv beta iota. unfold handleRIAck.
  rewrite (run_checked _ _ w1 w1 CkOk) by (apply remote_ok; simpl; by rewrite Et). cbv iota.
  rewrite (run_bind (getp _) _ w1 w1 (localSeq t)) by (unfold getp; simpl; by rewrite Et).
  simpl (Sequence _). rewrite Z.eqb_refl. cbn [negb].
  rewrite (run_bind (getp _) _ w1 w1 SenderWaitForRIRspAck) by (unfold getp; simpl; by rewrite Hs).
  rewrite (run_bind (getp _) _ w1 w1 (restartProbe (snd (pr w1))) eq_refl).
  rewrite bool_decide_eq_false_2 by done. cbn [andb]. rewrite bool_decide_eq_false_2 by done.
  unfold advance_sender.
  change (negb (Z.land (Flags (ack_header t 0)) RoutingFlagSendZoneInfo =? 0)) with false. cbv iota.
  rewrite (run_bind (mret None) _ w1 w1 None eq_refl).
  rewrite (run_bind (storeSendRetries 0) _ w1 _ _ eq_refl). set (w2 := with_pr _ w1).
  rewrite (run_bind (getp _) _ w2 w2 (pendingRIRsp (snd (pr w))) eq_refl).
  rewrite (run_bind (getp _) _ w2 w2 (pendingRIUpd (snd (pr w))) eq_refl).
  rewrite bool_decide_eq_true_2 by done. cbn [andb]. exists w2.
  split; [|split; [by split|done]]. destruct (0 <? _); [done|].
  rewrite bool_decide_eq_false_2 by done. cbn [andb].
  rewrite (run_bind (setSState SenderConnected) _ w2 _ _ eq_refl).
  rewrite (run_bind AddObserver_self _ _ _ _ eq_refl).
  erewrite (run_bind (getp _)) by done. by rewrite bool_decide_eq_false_2 by exact Hr.
Qed.

Lemma ack_chunks t w cs :
  sending t w -> sstate (snd (pr w)) = SenderWaitForRIRspAck ->
  pendingRIRsp (snd (pr w)) = cs -> Forall (Forall nt_wf) cs ->
  exists w', ack_all (S (length cs)) w = Some (w', None) /\
    sstate (snd (pr w')) = SenderConnected /\ pendingRIRsp (snd (pr w')) = [] /\
    sent w' = sent w ++ stream t (Succ (localSeq t)) cs.
Proof.
  revert t w. induction cs as [|c cs IH]; intros t w Hsd Hs Hp Hwf;
    destruct (ack_step t w Hsd Hs) as (w0 & E & Hsd0 & Es & El); rewrite Hp in E; cbn [ack_all].
  - change (0 <? zlen []) with false in E. rewrite (run_bind _ _ _ _ _ E). eexists.
    split; [done|]. simpl. rewrite Es, Hp, El, app_nil_r. done.
  - rewrite zlen_cons in E. pose proof (zlen_nonneg cs).
    replace (0 <? zlen cs + 1) with true in E by (symmetry; apply Z.ltb_lt; lia).
    apply Forall_cons in Hwf as [Hc Hcs].
    destruct (send_chunk true t w0 c cs Hsd0 Hc) as (w1 & E1 & Hsd1 & Hs1 & Hp1 & Hl1);
      [by rewrite Es|].
    rewrite E1 in E. rewrite (run_bind _ _ _ _ _ E).
    destruct (IH _ w1 Hsd1 Hs1 Hp1 Hcs) as (w' & E' & H1 & H2 & H3). exists w'.
    split; [exact E'|]. split; [done|]. split; [done|]. rewrite H3, Hl1, El, <- app_assoc. f_equal.
    pose proof (sd_ok _ _ Hsd) as (_ & _ & _ & _ & Hls & _).
    unfold IncLocalSeq. rewrite stream_seq. simpl. by rewrite wrap16_small by (unfold u16; lia).
Qed.

Lemma with_localSeq_ok n t : 1 <= n < 65536 -> transport_ok t -> transport_ok (with_localSeq n t).
Proof. intros Hn (? & ? & ? & ? & _ & ?). unfold transport_ok. simpl. tauto. Qed.

Lemma stream_elem t cs pkt seq :
  1 <= seq < 65536 -> pkt ∈ stream t seq cs ->
  exists s f c, c ∈ cs /\ 1 <= s < 65536 /\ u16 f /\ pkt = NewRIRspPacket (with_localSeq s t) f c.
Proof.
  revert seq. induction cs as [|c cs IH]; intros seq Hseq; cbn [stream];
    [by intros ?%elem_of_nil|]. intros [->|Hin]%elem_of_cons.
  - exists seq, (if zlen cs =? 0 then RoutingFlagLast else 0), c. split; [by left|].
    split; [done|]. split; [destruct (_ =? 0); const_widths|done].
  - destruct (IH (Succ seq)) as (s & f & ck & ? & ? & ? & ?); [|done|].
    { rewrite Succ_cases by done. case_match; zbool; lia. }
    exists s, f, ck. split; [by right|done].
Qed.

Lemma exported_wf c p rt n :
  reachable rt -> Forall nt_wf (map network_tuple (aurpExportedRoutes c p rt n)).
Proof.
  intros Hinv%reachable_inv. apply Forall_forall. intros nt (r & <- & Hr%list_elem_of_In)%list_elem_of_In%in_map_iff.
  unfold aurpExportedRoutes in Hr. apply list_elem_of_In, filter_In in Hr as [Hr _].
  apply list_elem_of_In, elem_of_table_exported in Hr; [|done].
  destruct Hr as ([cl Hst] & _). destruct (inv_stored rt Hinv _ _ _ Hst) as [_ _ _ Hrange Hext Hd].
  unfold nt_wf, network_tuple, u16, maxRouteDistance in *. simpl. split_and!; try lia.
  intros E. destruct (decide (NetStart (rkey r) = NetEnd r)) as [->|Hne]; [done|].
  specialize (Hext Hne). congruence.
Qed.

(** C5: the initial routing information arrives completely and in order.  When
    a connected sender receives an RI-Req and each of its RI-Rsp is
    acknowledged (the network loses nothing, the receiving direction is open),
    it sends exactly the chunks of the exported networks: each in a datagram of
    at most 1400 bytes, under consecutive sequence numbers starting at 1, the
    Last flag on the final one only, each only after the one before was
    acknowledged; then it is ready to send updates. *)
Theorem rirsp_stream (w : World) (h : Header) :
  reachable (rtab w) -> transport_ok (tr (pr w)) -> sstate (snd (pr w)) = SenderConnected ->
  io w = [] -> rstate (rcv (pr w)) <> ReceiverUnconnected ->
  ConnectionID (HTrHeader h) = remoteConnID (tr (pr w)) ->
  exists chunks w1 w',
    concat chunks =
      map network_tuple (aurpExportedRoutes (timing (pr w)) (ident (pr w)) (rtab w) (now w)) /\
    handlePacket (RIReqPacket h) w = Some (w1, None) /\
    ack_all (length chunks) w1 = Some (w', None) /\
    sent w' = sent w ++ stream (tr (pr w)) 1 chunks /\
    (forall pkt, pkt ∈ stream (tr (pr w)) 1 chunks -> exists n, aurpPacketSize pkt = Ok n /\ n <= 1400) /\
    sstate (snd (pr w')) = SenderConnected /\ pendingRIRsp (snd (pr w')) = [].
Proof.
  intros Hr Ht Hs Hio Hrs Hc.
  pose proof (exported_wf (timing (pr w)) (ident (pr w)) (rtab w) (now w) Hr) as Hwf.
  set (nets := map network_tuple _) in *. set (t := ResetLocalSeq (tr (pr w))).
  assert (Hok : transport_ok t) by (by apply ResetLocalSeq_ok).
  destruct (rirsp_chunks t nets 0 Hok Hwf) as (b & cs & Hb & Hcs & Hcat & Hne & Hsize);
    [unfold u16; lia|].
  assert (Hcwf : Forall (Forall nt_wf) cs).
  { apply Forall_forall. intros c Hcin. apply (concat_Forall _ cs); [by rewrite Hcat|done]. }
  destruct cs as [|c cs]; [done|]. apply Forall_cons in Hcwf as [Hcw Hcsw].
  exists (c :: cs). unfold handlePacket.
  rewrite (run_bind (addToChatLog _ false) _ w _ _ eq_refl). set (w1 := with_pr _ w).
  cbv beta iota. unfold handleRIReq.
  rewrite (run_checked _ _ w1 w1 CkOk) by (by apply remote_ok). cbv iota.
  rewrite (run_bind (getp _) _ w1 w1 SenderConnected) by (unfold getp; simpl; by rewrite Hs).
  rewrite bool_decide_eq_false_2 by (intros H; by apply H).
  rewrite (run_bind (modq _) _ w1 _ _ eq_refl). set (w2 := with_pr _ w1).
  rewrite (run_bind (get _) _ w2 w2 (aurpExportedRoutes (timing (pr w)) (ident (pr w)) (rtab w) (now w)) eq_refl).
  cbv zeta. fold nets. rewrite (run_bind (modtr ResetLocalSeq) _ w2 _ _ eq_refl).
  set (w3 := with_pr _ w2). rewrite (run_bind (getp tr) _ w3 w3 t eq_refl).
  rewrite Hb, bind_Ok, Hcs. rewrite (run_bind (mods _) _ w3 _ _ eq_refl). set (w4 := with_pr _ w3).
  destruct (send_chunk false t w4 c cs) as (w5 & E5 & Hsd & Hs5 & Hp5 & Hl5); [by split|done|done|].
  destruct (ack_chunks t w5 cs Hsd Hs5 Hp5 Hcsw) as (w' & E' & H1 & H2 & H3).
  exists w5, w'. split; [done|]. split; [done|]. split; [exact E'|].
  split; [|split; [|done]].
  - rewrite H3, Hl5, <- app_assoc. f_equal. cbn [stream app]. unfold t, ResetLocalSeq.
    rewrite stream_seq. done.
  - intros pkt (s & f & ck & Hck & Hseq & Hf & ->)%(stream_elem _ (c :: cs) pkt 1 ltac:(lia)).
    destruct (Hsize ck Hck) as (n & En & Hn). exists n. split; [|done]. rewrite <- En.
    assert (Hw : Forall nt_wf ck) by (apply (concat_Forall _ (c :: cs)); [by rewrite Hcat|done]).
    rewrite rirsp_size; [|by apply with_localSeq_ok|done..].
    by rewrite rirsp_size by (done || unfold u16; lia).
Qed.

(** ** Two defects in closing the connection *)

Lemma drop_open_req w h v o :
  sstate (snd (pr w)) <> SenderUnconnected -> remoteConnID (tr (pr w)) = 0 ->
  exists w', handlePacket (OpenReqPacket h v o) w = Some (w', None) /\ ignored w w'.
Proof.
  intros Hs Hc. unfold handlePacket.
  rewrite (run_bind (addToChatLog _ false) _ w _ _ eq_refl). set (w1 := with_pr _ w).
  cbv beta iota. unfold handleOpenReq.
  rewrite (run_bind (getp _) _ w1 w1 (sstate (snd (pr w))) eq_refl).
  rewrite (run_bind (getp _) _ w1 w1 0) by (unfold getp; simpl; by rewrite Hc).
  rewrite bool_decide_eq_true_2 by done. exists w1. split; [done|]. by eexists.
Qed.

(** A stray RI-Ack reopens a closed sender and locks the peer out.  After
    [disconnectSender] the remote connection ID is 0, which matches any packet,
    and the sequence number is 1; an RI-Ack with sequence number 1 of whatever
    connection then makes the sender connected and subscribes it to the route
    table, with no peer connection.  In that state every Open-Req, of any
    connection and version, is dropped. *)
Theorem stray_ack_locks_out (w : World) (h : Header) :
  Sequence (HTrHeader h) = 1 -> Z.land (Flags h) RoutingFlagSendZoneInfo = 0 ->
  rstate (rcv (pr w)) <> ReceiverUnconnected ->
  exists w1 w2, disconnectSender w = Some (w1, tt) /\
    handlePacket (RIAckPacket h) w1 = Some (w2, None) /\
    sstate (snd (pr w2)) = SenderConnected /\ remoteConnID (tr (pr w2)) = 0 /\
    pid (pr w) ∈ observers (rtab w2) /\
    forall h' v o, exists w3,
      handlePacket (OpenReqPacket h' v o) w2 = Some (w3, None) /\ ignored w2 w3.
Proof.
  intros Hs Hf Hr.
  assert (Hk : forall w0, tr (pr w0) = SetRemoteConnID 0 (ResetLocalSeq (tr (pr w))) ->
    snd (pr w0) = with_sstate SenderUnconnected (with_queue (set_pending ∅ (queue (snd (pr w))))
      (with_restartProbe false (with_lastRISent None (with_pendingRIUpd [] (with_pendingRIRsp []
        (snd (pr w))))))) ->
    rstate (rcv (pr w0)) = rstate (rcv (pr w)) -> pid (pr w0) = pid (pr w) ->
    exists w2, handleRIAck h w0 = Some (w2, None) /\ sstate (snd (pr w2)) = SenderConnected /\
      remoteConnID (tr (pr w2)) = 0 /\ pid (pr w) ∈ observers (rtab w2)).
  { intros w0 Et Es Er Ep. unfold handleRIAck.
    rewrite (run_checked _ _ w0 w0 CkOk).
    2: { unfold checkRemoteConnID, mbind, M_bind. simpl. by rewrite Et. }
    rewrite (run_bind (getp _) _ w0 w0 1) by (unfold getp; by rewrite Et). rewrite Hs.
    cbn [Z.eqb Pos.eqb negb].
    rewrite (run_bind (getp _) _ w0 w0 SenderUnconnected) by (unfold getp; by rewrite Es).
    rewrite (run_bind (getp _) _ w0 w0 false) by (unfold getp; by rewrite Es).
    rewrite !(bool_decide_eq_false_2 (SenderUnconnected = _)) by done.
    cbn [andb]. unfold advance_sender. rewrite Hf. cbn [Z.eqb negb].
    rewrite (run_bind (mret None) _ w0 w0 None eq_refl).
    rewrite (run_bind (storeSendRetries 0) _ w0 _ _ eq_refl). set (w2 := with_pr _ w0).
    rewrite (run_bind (getp _) _ w2 w2 _ eq_refl), (run_bind (getp _) _ w2 w2 _ eq_refl).
    rewrite !(bool_decide_eq_false_2 (SenderUnconnected = _)) by done. cbn [andb].
    rewrite (run_bind (setSState SenderConnected) _ w2 _ _ eq_refl).
    rewrite (run_bind AddObserver_self _ _ _ _ eq_refl).
    erewrite (run_bind (getp _)) by done. rewrite bool_decide_eq_false_2 by (simpl; congruence).
    eexists. split; [done|]. split; [done|]. split; [simpl; by rewrite Et|].
    simpl. rewrite Ep. set_solver. }
  set (w1 := run_world disconnectSender w).
  destruct (Hk (run_world (addToChatLog (RIAckPacket h) false) w1)) as (w2 & E & H1 & H2 & H3);
    [done..|].
  exists w1, w2. split; [done|].
  split; [unfold handlePacket; by rewrite (run_bind (addToChatLog _ false) _ w1 _ _ eq_refl)|].
  split; [done|]. split; [done|]. split; [done|]. intros h' v o. apply drop_open_req; [|done].
  by rewrite H1.
Qed.

Lemma elapsed_after n t d : t + d < n -> elapsed n (Some t) d = true.
Proof. intros H. unfold elapsed. apply Z.ltb_lt. lia. Qed.

(** Accepting an Open-Req of version 1 while the receiving direction is open. *)
Lemma accept_run h w :
  transport_ok (tr (pr w)) -> hdr_wf h -> io w = [] ->
  rstate (rcv (pr w)) <> ReceiverUnconnected ->
  exists w', accept_open_req h 1 w = Some (w', None) /\
    sstate (snd (pr w')) = SenderConnected /\
    pendingRIUpd (snd (pr w')) = pendingRIUpd (snd (pr w)) /\
    pendingEvents (queue (snd (pr w'))) = pendingEvents (queue (snd (pr w))).
Proof.
  intros Ht [(_ & Hc & _) _] Hio Hr. unfold accept_open_req.
  rewrite (run_bind (modtr _) _ w _ _ eq_refl). set (w1 := with_pr _ w).
  rewrite (run_bind (modq _) _ w1 _ _ eq_refl). set (w2 := with_pr _ w1).
  rewrite (run_bind (getp id) _ w2 w2 (pr w2) eq_refl). cbn [Z.eqb Pos.eqb negb].
  assert (Hrate : 1 <= openResponseRate (pr w2) < 32768).
  { unfold openResponseRate. repeat case_match; zbool; lia. }
  assert (Hflags : u16 (openResponseEnvironmentFlags (pr w2))).
  { unfold openResponseEnvironmentFlags. repeat case_match; const_widths. }
  set (pkt := NewOpenRspPacket (tr (pr w2)) (openResponseEnvironmentFlags (pr w2))
    (openResponseRate (pr w2)) []).
  destruct (send_ok pkt w2) as [dg E]; [|done|].
  { apply (built_by_wf (tr (pr w2))).
    - by apply (transport_run_ok (OpSetRemoteConnID (ConnectionID (HTrHeader h))) _ Ht Hc).
    - constructor; [done|unfold i16; lia|const_widths]. }
  assert (E' : send_tr (fun t => NewOpenRspPacket t (openResponseEnvironmentFlags (pr w2))
    (openResponseRate (pr w2)) []) w2 = Some (after_send pkt dg w2, None)) by exact E.
  rewrite (run_bind _ _ _ _ _ E'). replace (0 <=? openResponseRate (pr w2)) with true
    by (symmetry; apply Z.leb_le; lia).
  rewrite (run_bind (setSState SenderConnected ≫= _) _ _ _ tt eq_refl).
  erewrite (run_bind (getp _)) by done. rewrite bool_decide_eq_false_2 by exact Hr.
  eexists. split; [done|]. by split_and!.
Qed.

(** Giving up a routing transaction keeps the dead connection's updates.
    When the retry limit is reached for an unacknowledged RI-Rsp or RI-Upd that
    is not a restart probe, the sender becomes unconnected, but the chunks and
    route changes queued for the dead connection stay; when the peer then opens a
    new connection, they are still queued and would be sent over it, although
    changes in between went unrecorded. *)
Theorem retry_limit_keeps_updates (w : World) (t0 : Z) (pkt : Packet) :
  let p := pr w in
  sstate (snd p) = SenderWaitForRIRspAck \/ sstate (snd p) = SenderWaitForRIUpdAck ->
  restartProbe (snd p) = false -> lastRISent (snd p) = Some pkt ->
  lastSend (tm p) = Some t0 -> t0 + retryInterval p < now w ->
  routingRetryLimit p <= sendRetries (tm p) ->
  transport_ok (tr p) -> io w = [] -> rstate (rcv p) <> ReceiverUnconnected ->
  exists w1, stickerTasks w = Some (w1, None) /\
    sstate (snd (pr w1)) = SenderUnconnected /\ pid p ∉ observers (rtab w1) /\
    forall h o, hdr_wf h -> exists w2, handlePacket (OpenReqPacket h 1 o) w1 = Some (w2, None) /\
      sstate (snd (pr w2)) = SenderConnected /\
      pendingRIUpd (snd (pr w2)) = pendingRIUpd (snd p) /\
      pendingEvents (queue (snd (pr w2))) = pendingEvents (queue (snd p)).
Proof.
  intros p Hs Hprobe Hlast Ht0 Hel Hlim Htr Hio Hr. unfold stickerTasks.
  set (w1 := run_world RemoveObserver_self (run_world (setSState SenderUnconnected) w)).
  exists w1. split.
  { rewrite (run_bind (get now) _ w w (now w) eq_refl), (run_bind (getp id) _ w w p eq_refl).
    rewrite Ht0, elapsed_after by done. cbn [negb].
    rewrite bool_decide_eq_false_2 by (rewrite Hlast; done).
    replace (routingRetryLimit p <=? sendRetries (tm p)) with true by (symmetry; by apply Z.leb_le).
    rewrite Hprobe. by destruct Hs as [-> | ->]. }
  split; [done|]. split; [simpl; set_solver|]. intros h o Hh. unfold handlePacket.
  rewrite (run_bind (addToChatLog _ false) _ w1 _ _ eq_refl). set (w2 := with_pr _ w1).
  cbv beta iota. unfold handleOpenReq.
  rewrite (run_bind (getp _) _ w2 w2 SenderUnconnected eq_refl).
  rewrite (run_bind (getp _) _ w2 w2 _ eq_refl).
  rewrite bool_decide_eq_false_2 by (intros H; by apply H).
  destruct (accept_run h w2) as (w3 & E & H); [done..|]. by exists w3.
Qed.

(** ** Graceful shutdown *)

Fixpoint spaced (d t : Z) (ticks : list Z) : Prop :=
  match ticks with [] => True | n :: ticks => t + d < n /\ spaced d n ticks end.

Definition sender_ticks (ticks : list Z) : list (Z * loop_event) := map (fun n => (n, EvSTick)) ticks.

Lemma shutdown_done evs w :
  sstate (snd (pr w)) = SenderUnconnected ->
  gracefulSenderShutdown evs w = Some (w, Returned None).
Proof.
  intros Hs. destruct evs as [|[n ev] evs]; cbn [gracefulSenderShutdown]; unfold shutdown_switch;
    rewrite (run_bind (getp _) _ w w SenderUnconnected) by (unfold getp; by rewrite Hs); done.
Qed.

(** Waiting for the acknowledgement of the router-down packet. *)
Record closing (pkt : Packet) (t0 k : Z) (w : World) : Prop := {
  cl_state : sstate (snd (pr w)) = SenderWaitForRDAck;
  cl_last : lastRISent (snd (pr w)) = Some pkt;
  cl_io : io w = [];
  cl_send : lastSend (tm (pr w)) = Some t0;
  cl_retries : sendRetries (tm (pr w)) = k }.

(** A tick long after the last transmission: retransmit, or give up. *)
Lemma closing_tick pkt t0 k n w :
  closing pkt t0 k w -> pkt_wf pkt -> 0 <= k < 2147483647 -> t0 + retryInterval (pr w) < n ->
  exists w', stickerTasks (with_now n w) = Some (w', None) /\ timing (pr w') = timing (pr w) /\
    if routingRetryLimit (pr w) <=? k
    then sstate (snd (pr w')) = SenderUnconnected /\ sent w' = sent w
    else closing pkt n (k + 1) w' /\ sent w' = sent w ++ [pkt].
Proof.
  intros [Hs Hl Hio Hls Hk] Hwf Hk0 Hn. set (w1 := with_now n w). unfold stickerTasks.
  rewrite (run_bind (get now) _ w1 w1 n eq_refl), (run_bind (getp id) _ w1 w1 (pr w) eq_refl).
  rewrite Hs, Hls, elapsed_after by done. cbn [negb].
  rewrite bool_decide_eq_false_2 by (rewrite Hl; done). cbn [orb]. rewrite Hk.
  destruct (routingRetryLimit (pr w) <=? k) eqn:E.
  - exists (run_world disconnectSender (run_world RemoveObserver_self w1)). by split_and!.
  - rewrite (run_bind count_retry _ w1 _ _ eq_refl). set (w2 := with_pr _ w1). unfold send_last.
    rewrite (run_bind (getp _) _ w2 w2 (Some pkt)) by (unfold getp; simpl; by rewrite Hl).
    destruct (send_ok pkt w2 Hwf Hio) as [dg ->]. eexists. split; [done|]. split; [done|].
    split; [|done]. split; try done. simpl. rewrite Hk. unfold wrap_i32.
    rewrite Z.mod_small by lia. lia.
Qed.

Lemma closing_ends pkt ticks t0 k w :
  closing pkt t0 k w -> pkt_wf pkt -> 0 <= k <= routingRetryLimit (pr w) ->
  routingRetryLimit (pr w) < 2147483647 -> spaced (retryInterval (pr w)) t0 ticks ->
  routingRetryLimit (pr w) - k < zlen ticks ->
  exists w', gracefulSenderShutdown (sender_ticks ticks) w = Some (w', Returned None) /\
    sstate (snd (pr w')) = SenderUnconnected /\
    sent w' = sent w ++ repeat pkt (Z.to_nat (routingRetryLimit (pr w) - k)).
Proof.
  revert t0 k w. induction ticks as [|n ticks IH]; intros t0 k w Hcl Hwf Hk HL Hsp Hlen.
  { change (zlen []) with 0 in Hlen. lia. }
  destruct Hsp as [Hn Hsp]. rewrite zlen_cons in Hlen.
  cbn [sender_ticks map gracefulSenderShutdown]. fold (sender_ticks ticks). unfold shutdown_switch.
  rewrite (run_bind (getp _) _ w w SenderWaitForRDAck) by (unfold getp; by rewrite (cl_state _ _ _ _ Hcl)).
  cbv iota. rewrite (run_bind (modw (with_now n)) _ w (with_now n w) tt eq_refl). cbv zeta.
  destruct (closing_tick pkt t0 k n w Hcl Hwf ltac:(lia) Hn) as (w' & E & Et & H).
  rewrite (run_bind _ _ _ _ _ E).
  assert (EL : routingRetryLimit (pr w') = routingRetryLimit (pr w)) by (unfold routingRetryLimit; by rewrite Et).
  assert (ER : retryInterval (pr w') = retryInterval (pr w)) by (unfold retryInterval; by rewrite Et).
  destruct (_ <=? k) eqn:Ek; zbool.
  - destruct H as [H1 H2]. exists w'. split; [by apply shutdown_done|]. split; [done|].
    replace (routingRetryLimit (pr w) - k) with 0 by lia. by rewrite H2, app_nil_r.
  - destruct H as [H1 H2].
    destruct (IH n (k + 1) w' H1 Hwf) as (w2 & E2 & H3 & H4); rewrite ?EL, ?ER; try lia; [done|].
    exists w2. split; [exact E2|]. split; [done|]. rewrite H4, H2, EL, <- app_assoc. f_equal.
    replace (Z.to_nat (routingRetryLimit (pr w) - k))
      with (S (Z.to_nat (routingRetryLimit (pr w) - (k + 1)))) by lia. done.
Qed.

Lemma limit_pos p : 0 < routingRetryLimit p.
Proof. unfold routingRetryLimit, sendRetryLimit. case_match; zbool; lia. Qed.

(** C13: a graceful shutdown ends.  When the program is stopped while the sender
    is connected and the peer never answers, the sender announces the shutdown
    with an RD packet, repeats it as many times as the retry limit says at the
    ticks that follow, and then closes the connection: with more ticks than the
    limit, each more than a retry interval after the one before,
    [gracefulSenderShutdown] returns without an error. *)
Theorem shutdown_terminates (w : World) (ticks : list Z) :
  let p := pr w in
  sstate (snd p) = SenderConnected -> transport_ok (tr p) -> io w = [] ->
  routingRetryLimit p < 2147483647 ->
  spaced (retryInterval p) (now w) ticks -> routingRetryLimit p < zlen ticks ->
  exists w', gracefulSenderShutdown (sender_ticks ticks) w = Some (w', Returned None) /\
    sstate (snd (pr w')) = SenderUnconnected /\
    sent w' = sent w ++ repeat (NewSenderRDPacket (IncLocalSeq (tr p)) ErrCodeNormalClose)
                          (S (Z.to_nat (routingRetryLimit p))).
Proof.
  intros p Hs Ht Hio HL Hsp Hlen. set (t := IncLocalSeq (tr p)).
  set (pkt := NewSenderRDPacket t ErrCodeNormalClose).
  assert (Hwf : pkt_wf pkt).
  { apply (built_by_wf t); [by apply IncLocalSeq_ok|]. constructor. const_widths. }
  set (w1 := run_world (storeSendRetries 0) (run_world (mods (with_lastRISent (Some pkt)))
               (run_world (modtr IncLocalSeq) w))).
  destruct (send_ok pkt w1 Hwf Hio) as [dg E].
  assert (Estart : startSenderShutdown w =
    Some (run_world (setSState SenderWaitForRDAck) (after_send pkt dg w1), None)).
  { unfold startSenderShutdown.
    rewrite (run_bind (getp _) _ w w SenderConnected) by (unfold getp; by rewrite <- Hs).
    rewrite bool_decide_eq_false_2 by (intros H; by apply H).
    rewrite (run_bind (modtr IncLocalSeq) _ w _ _ eq_refl).
    erewrite (run_bind (getp tr)) by done.
    erewrite (run_bind (mods _)) by done.
    rewrite (run_bind (storeSendRetries 0) _ _ w1 tt eq_refl).
    assert (El : send_last w1 = Some (after_send pkt dg w1, None)) by exact E.
    by rewrite (run_bind _ _ _ _ _ El). }
  set (w2 := run_world _ _) in Estart.
  assert (Hcl : closing pkt (now w) 0 w2) by (by split).
  pose proof (limit_pos p) as Hpos.
  destruct (closing_ends pkt ticks (now w) 0 w2 Hcl Hwf) as (w' & E' & H1 & H2);
    [change (routingRetryLimit (pr w2)) with (routingRetryLimit p); lia|done|done| |].
  { change (routingRetryLimit (pr w2)) with (routingRetryLimit p). lia. }
  exists w'. split; [|split; [done|]].
  - destruct ticks as [|n ticks]; [change (zlen []) with 0 in Hlen; lia|].
    cbn [sender_ticks map gracefulSenderShutdown] in *. unfold shutdown_switch in *.
    rewrite (run_bind (getp _) _ w2 w2 SenderWaitForRDAck eq_refl) in E'.
    rewrite (run_bind (getp _) _ w w SenderConnected) by (unfold getp; by rewrite <- Hs).
    rewrite (run_bind _ _ _ _ _ Estart). exact E'.
  - rewrite H2. simpl (sent w2). rewrite <- app_assoc. f_equal.
    change (routingRetryLimit (pr w2)) with (routingRetryLimit p). by rewrite Z.sub_0_r.
Qed.

(** ** Reconnecting *)

Lemma backoff_loop_spec k d :
  0 < d <= reconnectBackoffCap ->
  backoff_loop k d = Z.min (d * 2 ^ Z.of_nat k) reconnectBackoffCap.
Proof.
  revert d. induction k as [|k IH]; intros d Hd; cbn [backoff_loop].
  { by rewrite Z.pow_0_r, Z.mul_1_r. }
  rewrite Nat2Z.inj_succ, Z.pow_succ_r by lia.
  assert (Hp : 1 <= 2 ^ Z.of_nat k) by (pose proof (Z.pow_pos_nonneg 2 (Z.of_nat k)); lia).
  destruct (d <? reconnectBackoffCap) eqn:E1; zbool.
  - destruct (reconnectBackoffCap <=? d * 2) eqn:E2; zbool; [symmetry; apply Z.min_r; nia|].
    rewrite IH by lia. f_equal. lia.
  - rewrite !Z.min_r by nia. done.
Qed.

Lemma backoff_spec n :
  1 <= n -> reconnectBackoff n = Z.min (reconnectBackoffBase * 2 ^ (n - 1)) reconnectBackoffCap.
Proof.
  intros Hn. unfold reconnectBackoff. zdec.
  rewrite backoff_loop_spec by (vm_compute; split; [reflexivity|discriminate]).
  by rewrite Z2Nat.id by lia.
Qed.

Lemma jitter_spec r d :
  0 < d -> d - d / 10 <= jitterReconnectBackoff r d <= d + d / 10.
Proof.
  intros Hd. unfold jitterReconnectBackoff, reconnectJitterPct. zdec.
  rewrite Z.quot_div_nonneg by lia. set (span := d * 10 / 100).
  assert (Hspan : span = d / 10)
    by (subst span; replace 100 with (10 * 10) by lia; by rewrite Z.div_mul_cancel_r by lia).
  assert (H10 : 0 <= d / 10) by (apply Z.div_pos; lia).
  destruct (span <=? 0) eqn:E; zbool; [lia|].
  pose proof (Z.mod_pos_bound r (2 * span + 1)). lia.
Qed.

(** Reconnection attempts back off exponentially.  The n-th consecutive
    failure schedules the next attempt ten minutes times 2^(n-1) later, capped
    at two hours, give or take a tenth; a reconnect signal before that time does
    nothing. *)
Theorem reconnect_backoff (w : World) :
  let n := reconnectFailures (tm (pr w)) + 1 in
  let d := Z.min (reconnectBackoffBase * 2 ^ (n - 1)) reconnectBackoffCap in
  1 <= n < 2147483648 ->
  exists w' next, noteReconnectFailure w = Some (w', tt) /\
    reconnectFailures (tm (pr w')) = n /\ nextReconnect (tm (pr w')) = Some next /\
    now w + (d - d / 10) <= next <= now w + (d + d / 10) /\
    (forall w2, pr w2 = pr w' -> now w2 < next -> handle_reconnect w2 = Some (w2, None)).
Proof.
  intros n d Hn.
  assert (Hi : wrap_i32 (reconnectFailures (tm (pr w)) + 1) = n).
  { fold n. unfold wrap_i32. rewrite Z.mod_small by lia. lia. }
  assert (Hd : 0 < d).
  { subst d. assert (0 < 2 ^ (n - 1)) by (apply Z.pow_pos_nonneg; lia).
    unfold reconnectBackoffBase, reconnectBackoffCap, second. lia. }
  pose proof (jitter_spec (rnd w) d Hd) as Hj.
  exists (run_world noteReconnectFailure w). eexists. split; [reflexivity|]. simpl. rewrite Hi.
  split; [done|]. split; [done|].
  rewrite backoff_spec by lia. fold d. split; [lia|].
  intros w2 Ep Hlt. unfold handle_reconnect.
  rewrite (run_bind (get now) _ w2 w2 (now w2) eq_refl), (run_bind (getp id) _ w2 w2 (pr w2) eq_refl).
  assert (Er : reconnectReady (now w2) (pr w2) = false).
  { unfold reconnectReady. rewrite Ep. simpl. cbv zeta. by zdec. }
  rewrite Er. cbn [negb]. by rewrite orb_true_r.
Qed.
End Send.

(** ** Witnesses *)

(** After the peer opened a connection: the sender is connected and our own
    Open-Req is on its way. *)
Lemma wit_connected_reachable : reachable (GS := insertion_sort) (rtab wit_connected).
Proof.
  destruct (returns_handlePacket (GStr := ascii_strings) (GS := insertion_sort) wit_config wit_ident
    wit_open) with (w := wit_world) as (w' & err & E & H & _).
  - exact wit_open_parsed.
  - exact I.
  - split; [exact wit_reachable|done].
  - unfold wit_connected, wit_handle, run_world. rewrite E. exact H.
Qed.

Lemma wit_connected_tr : tr (pr wit_connected) = wit_tr.
Proof. vm_compute. reflexivity. Qed.

Definition wit_rireq_header : Header :=
  mkHeader (transaction wit_remote 9) CmdCodeRIReq RoutingFlagAllSUI.

Lemma rirsp_stream_witness :
  exists chunks w1 w',
    concat chunks =
      map network_tuple (aurpExportedRoutes (GStr := ascii_strings) (GS := insertion_sort)
        (timing (pr wit_connected)) (ident (pr wit_connected)) (rtab wit_connected) 5) /\
    handlePacket (GStr := ascii_strings) (GS := insertion_sort) (RIReqPacket wit_rireq_header)
      wit_connected = Some (w1, None) /\
    ack_all (GStr := ascii_strings) (GS := insertion_sort) (length chunks) w1 = Some (w', None) /\
    sent w' = sent wit_connected ++ stream (tr (pr wit_connected)) 1 chunks /\
    (forall pkt, pkt ∈ stream (tr (pr wit_connected)) 1 chunks ->
       exists n, aurpPacketSize pkt = Ok n /\ n <= 1400) /\
    sstate (snd (pr w')) = SenderConnected /\ pendingRIRsp (snd (pr w')) = [].
Proof.
  apply (rirsp_stream (GStr := ascii_strings) (GS := insertion_sort) wit_connected wit_rireq_header).
  - exact wit_connected_reachable.
  - rewrite wit_connected_tr. exact wit_tr_ok.
  - vm_compute. reflexivity.
  - vm_compute. reflexivity.
  - vm_compute. discriminate.
  - vm_compute. reflexivity.
Defined.

Lemma stray_ack_locks_out_witness :
  exists w1 w2, disconnectSender wit_connected = Some (w1, tt) /\
    handlePacket (GStr := ascii_strings) (GS := insertion_sort)
      (RIAckPacket (mkHeader (sequenced wit_remote 77 1) CmdCodeRIAck 0)) w1 = Some (w2, None) /\
    sstate (snd (pr w2)) = SenderConnected /\ remoteConnID (tr (pr w2)) = 0 /\
    pid (pr wit_connected) ∈ observers (rtab w2) /\
    forall h' v o, exists w3,
      handlePacket (GStr := ascii_strings) (GS := insertion_sort) (OpenReqPacket h' v o) w2
        = Some (w3, None) /\ ignored w2 w3.
Proof.
  apply (stray_ack_locks_out (GStr := ascii_strings) (GS := insertion_sort) wit_connected
    (mkHeader (sequenced wit_remote 77 1) CmdCodeRIAck 0)).
  - reflexivity.
  - reflexivity.
  - vm_compute. discriminate.
Defined.

(** An RI-Rsp has been sent five times more, eleven seconds ago. *)
Definition wit_stuck : World :=
  with_now (5 + 11 * second)
    (with_pr (with_tm (with_sendRetries 5 (tm (pr wit_waiting))) (pr wit_waiting)) wit_waiting).

Lemma wit_stuck_tr : tr (pr wit_stuck) = wit_tr.
Proof. vm_compute. reflexivity. Qed.

Definition wit_outstanding : Packet :=
  NewRIRspPacket wit_tr RoutingFlagLast
    [{| nt_Extended := false; nt_RangeStart := 3; nt_Distance := 1; nt_RangeEnd := 3 |}].

Lemma retry_limit_keeps_updates_witness :
  exists w1, stickerTasks (GS := insertion_sort) wit_stuck = Some (w1, None) /\
    sstate (snd (pr w1)) = SenderUnconnected /\ pid (pr wit_stuck) ∉ observers (rtab w1) /\
    forall h o, hdr_wf h -> exists w2,
      handlePacket (GStr := ascii_strings) (GS := insertion_sort) (OpenReqPacket h 1 o) w1
        = Some (w2, None) /\
      sstate (snd (pr w2)) = SenderConnected /\
      pendingRIUpd (snd (pr w2)) = pendingRIUpd (snd (pr wit_stuck)) /\
      pendingEvents (queue (snd (pr w2))) = pendingEvents (queue (snd (pr wit_stuck))).
Proof.
  apply (retry_limit_keeps_updates (GStr := ascii_strings) (GS := insertion_sort) wit_stuck 5
    wit_outstanding).
  - left. vm_compute. reflexivity.
  - vm_compute. reflexivity.
  - vm_compute. reflexivity.
  - vm_compute. reflexivity.
  - vm_compute. reflexivity.
  - vm_compute. discriminate.
  - rewrite wit_stuck_tr. exact wit_tr_ok.
  - vm_compute. reflexivity.
  - vm_compute. discriminate.
Defined.

Definition wit_tick_times : list Z := map (fun k => 5 + 11 * second * k) [1; 2; 3; 4; 5; 6].

Lemma shutdown_terminates_witness :
  exists w', gracefulSenderShutdown (GStr := ascii_strings) (GS := insertion_sort)
      (sender_ticks wit_tick_times) wit_connected = Some (w', Returned None) /\
    sstate (snd (pr w')) = SenderUnconnected /\
    sent w' = sent wit_connected ++
      repeat (NewSenderRDPacket (IncLocalSeq (tr (pr wit_connected))) ErrCodeNormalClose) 6.
Proof.
  apply (shutdown_terminates (GStr := ascii_strings) (GS := insertion_sort) wit_connected wit_tick_times).
  - vm_compute. reflexivity.
  - rewrite wit_connected_tr. exact wit_tr_ok.
  - vm_compute. reflexivity.
  - vm_compute. reflexivity.
  - vm_compute. repeat split.
  - vm_compute. reflexivity.
Defined.

Lemma reconnect_backoff_witness :
  exists w' next, noteReconnectFailure wit_world = Some (w', tt) /\
    reconnectFailures (tm (pr w')) = 1 /\ nextReconnect (tm (pr w')) = Some next /\
    5 + (600 * second - 600 * second / 10) <= next <= 5 + (600 * second + 600 * second / 10) /\
    (forall w2, pr w2 = pr w' -> now w2 < next -> handle_reconnect w2 = Some (w2, None)).
Proof. apply (reconnect_backoff wit_world). vm_compute. split; [discriminate|reflexivity]. Defined.
