(* ===== verification/ZoneSpec.v ===== *)
(** * Zone information exchange: properties

    The ZI-Rsp datagrams built for a request carry exactly the zones asked for,
    within the datagram budget, and a zone list split over several datagrams is
    assembled again whatever the order they arrive in
    ([router/aurp_zone.go]). *)
From S2P Require Import Prelude Wtacc AurpHeaders AurpTuples AurpZoneInfo AurpPacket.
From S2P Require Import AurpTransport PeerPolicy GoSort RouteTable RouteTableInv RouteTableOps.
From S2P Require Import RouteTableSpec RouteExport PeerState PeerZones PeerFSM PeerInv PeerKeeps.
From S2P Require Import PeerTotal PeerSpec PeerRecv.
Import RT Policy Exp PS Zones FSM.

(** ** Sizes *)

Definition name_size (z : list Z) : Z := 3 + zlen z.

(** AppleTalk's limits: 255 zones per network, 32 bytes per name. *)
Definition zone_list_ok (zs : list (list Z)) : Prop :=
  Forall (fun z => bytes_ok z /\ zlen z <= 32) zs /\ zlen zs <= 255.

Definition tuples_of (n : Z) (zs : list (list Z)) : list ZoneTuple :=
  map (fun z => {| zt_Network := n; zt_Name := z |}) zs.

Lemma enc_zts_bound offs pos zs :
  Forall (fun zt => 1 <= zlen (zt_Name zt) <= 32) zs -> zlen (enc_zts offs pos zs) <= 35 * zlen zs.
Proof.
  intros Hz. revert offs pos. induction Hz as [|zt zs Hzt _ IH]; intros offs pos; [done|].
  cbn [enc_zts]. rewrite zlen_cons. destruct (offs !! zt_Name zt) as [o|].
  - specialize (IH offs (pos + 4)). rewrite !zlen_app, !zlen_put16. lia.
  - match goal with |- context [enc_zts ?o ?p zs] => specialize (IH o p) end.
    unfold name_enc. rewrite !zlen_app, zlen_cons, zlen_put16. lia.
Qed.

Lemma ext_size zs :
  zlen (concat (map enc_ext_zt zs)) = total_size (fun zt => name_size (zt_Name zt)) zs.
Proof.
  induction zs as [|zt zs IH]; [done|]. cbn [map concat total_size]. rewrite zlen_app, IH.
  unfold enc_ext_zt, name_enc, name_size. rewrite zlen_app, zlen_cons, zlen_put16. lia.
Qed.

Section ZoneSpec.
Context {GStr : GoStrings} {GS : GoSort}.

Lemma dedupe_elem z zs : z ∈ dedupeSortedZones zs <-> z ∈ zs /\ z <> [].
Proof.
  unfold dedupeSortedZones. rewrite elem_of_sort_func, elem_of_elements, elem_of_list_to_set,
    list_elem_of_filter by apply sw_bytes. tauto.
Qed.

Lemma dedupe_nodup zs : NoDup (dedupeSortedZones zs).
Proof. unfold dedupeSortedZones. rewrite sort_func_perm by apply sw_bytes. apply NoDup_elements. Qed.

Lemma dedupe_ok zs :
  zone_list_ok zs ->
  zlen (dedupeSortedZones zs) <= 255 /\
  Forall (fun z => bytes_ok z /\ 1 <= zlen z <= 32) (dedupeSortedZones zs).
Proof.
  intros [Hz Hlen]. split.
  - unfold zlen in *. assert (length (dedupeSortedZones zs) <= length zs)%nat; [|lia].
    apply submseteq_length, NoDup_submseteq; [apply dedupe_nodup|].
    intros z Hin. by apply dedupe_elem in Hin as [? _].
  - apply Forall_forall. intros z [Hin Hne]%dedupe_elem. rewrite Forall_forall in Hz.
    destruct (Hz z Hin) as [? ?]. split; [done|]. split; [|done].
    destruct z; [done|]. rewrite zlen_cons. pose proof (zlen_nonneg z0). lia.
Qed.

Lemma ext_chunks_spec n b zs chunk :
  Forall (fun z => name_size z <= b) zs ->
  let size := total_size (fun zt => name_size (zt_Name zt)) in
  size chunk <= b ->
  exists cs, ext_zone_chunks n b chunk (size chunk) zs = Ok cs /\
    concat cs = chunk ++ tuples_of n zs /\ Forall (fun c => c <> [] /\ size c <= b) cs.
Proof.
  intros Hz size. revert chunk. induction Hz as [|z zs Hz Hzs IH]; intros chunk Hc;
    cbn [ext_zone_chunks].
  - destruct chunk as [|zt chunk]; [by exists []|]. exists [zt :: chunk]. split.
    + rewrite zlen_cons. pose proof (zlen_nonneg chunk). by zdec.
    + split; [done|]. by repeat constructor.
  - fold (name_size z). zdec. set (zt := {| zt_Network := n; zt_Name := z |}).
    assert (Hone : size [zt] = name_size z) by (cbn; lia).
    destruct (_ && _) eqn:E.
    + apply andb_true_iff in E as [Hne _]. rewrite <- Hone.
      destruct (IH [zt]) as (cs & -> & H1 & H2); [lia|]. exists (chunk :: cs).
      split; [done|]. split; [simpl; by rewrite H1|]. constructor; [|done]. split; [|done].
      intros ->. done.
    + assert (Hadd : size (chunk ++ [zt]) = size chunk + name_size z).
      { unfold size. rewrite total_size_app. fold size. lia. }
      assert (Hle : size (chunk ++ [zt]) <= b).
      { rewrite Hadd. apply andb_false_iff in E as [E|E]; zbool; [|lia].
        destruct chunk as [|c chunk]; [change (size []) with 0; lia|].
        rewrite zlen_cons in E. pose proof (zlen_nonneg chunk). lia. }
      rewrite <- Hadd. destruct (IH (chunk ++ [zt]) Hle) as (cs & -> & H1 & H2).
      exists cs. split; [done|]. split; [|done]. by rewrite H1, <- app_assoc.
Qed.

Definition zones_of (pkt : Packet) : list ZoneTuple :=
  match pkt with ZIRspPacket _ _ _ zs => zs | _ => [] end.

(** A zone list in one datagram, or in numbered fragments of one network. *)
Definition zi_rsp_for (n total : Z) (pkt : Packet) : Prop :=
  match pkt with
  | ZIRspPacket _ sc t zs =>
      (sc = SubcodeZoneInfoNonExt \/ (sc = SubcodeZoneInfoExt /\ t = total)) /\
      zs <> [] /\ Forall (fun zt => zt_Network zt = n) zs
  | _ => False
  end.

Lemma tuples_network n zs : Forall (fun zt => zt_Network zt = n) (tuples_of n zs).
Proof. unfold tuples_of. induction zs; by constructor. Qed.

Lemma network_zi_rsp_spec t n zs :
  transport_ok t -> u16 n -> zone_list_ok zs ->
  exists pkts, network_zi_rsp t n zs = Ok pkts /\
    concat (map zones_of pkts) = tuples_of n (dedupeSortedZones zs) /\
    Forall (fun p => (exists k, aurpPacketSize p = Ok k /\ k <= 1400) /\
                     zi_rsp_for n (zlen (dedupeSortedZones zs)) p) pkts.
Proof.
  intros Ht Hn Hzs. destruct (dedupe_ok zs Hzs) as [Hlen Hwf]. unfold network_zi_rsp.
  set (names := dedupeSortedZones zs) in *. clearbody names. pose proof (zlen_nonneg names) as Hpos.
  destruct (zlen names =? 0) eqn:E0; zbool.
  { exists []. destruct names as [|z names]; [by split_and!|]. rewrite zlen_cons in E0.
    pose proof (zlen_nonneg names). lia. }
  pose proof (header_size_bound t Ht) as Hh.
  assert (Hzt : Forall zt_wf (tuples_of n names)).
  { apply Forall_forall. intros zt (z & <- & Hz%list_elem_of_In)%list_elem_of_In%in_map_iff.
    rewrite Forall_forall in Hwf. destruct (Hwf z Hz) as [? ?]. split; [done|]. split; [done|].
    simpl. lia. }
  assert (Hnon : built_by t (NewZIRspPacket t [(n, names)])).
  { apply (built_zirsp t [(n, names)] _ eq_refl). simpl. rewrite app_nil_r.
    fold (tuples_of n names). split; [done|]. unfold tuples_of at 1.
    split; [unfold zlen in *; rewrite length_map; lia|].
    transitivity (35 * zlen (tuples_of n names)).
    - apply enc_zts_bound, Forall_forall.
      intros zt (z & <- & Hz%list_elem_of_In)%list_elem_of_In%in_map_iff.
      rewrite Forall_forall in Hwf. by destruct (Hwf z Hz).
    - unfold tuples_of, zlen in *. rewrite length_map. lia. }
  cbv zeta. rewrite (packet_size (NewZIRspPacket t [(n, names)])), bind_Ok
    by (by apply (built_by_wf t)).
  destruct (_ <=? aurpRoutingDatagramBudget) eqn:Efit; zbool.
  { eexists. split; [done|]. simpl. rewrite !app_nil_r. split; [done|]. constructor; [|done].
    split; [eexists; split; [by apply packet_size, (built_by_wf t)|done]|].
    split; [by left|]. simpl. rewrite app_nil_r. fold (tuples_of n names).
    split; [|apply tuples_network]. intros E. apply E0. unfold zlen.
    apply (f_equal length) in E. unfold tuples_of in E. rewrite length_map in E. by rewrite E. }
  zdec. rewrite (wrap16_small (zlen names)) by (unfold u16; lia).
  assert (Hext : forall c, Forall zt_wf c -> Forall (fun zt => zt_Network zt = n) c ->
    aurpPacketSize (NewExtendedZIRspPacket t (zlen names) c)
    = Ok (header_size t + 4 + total_size (fun zt => name_size (zt_Name zt)) c)).
  { intros c H1 H2. rewrite packet_size.
    2: { apply (built_by_wf t); [done|]. by apply (built_extzirsp t (zlen names) c n); [lia|..]. }
    unfold enc_packet. simpl. rewrite !zlen_app, (zlen_enc_hdr t) by done.
    rewrite !zlen_cons, ext_size. f_equal. lia. }
  rewrite Hext by constructor. rewrite bind_Ok. change (total_size _ []) with 0.
  unfold aurpRoutingDatagramBudget in *. zdec. set (b := 1400 - _).
  destruct (ext_chunks_spec n b names []) as (cs & Hcs & Hcat & Hfit).
  { apply Forall_forall. intros z Hz. rewrite Forall_forall in Hwf. destruct (Hwf z Hz).
    unfold name_size, b. lia. }
  { unfold b. simpl. lia. }
  change (total_size _ []) with 0 in Hcs. rewrite Hcs, bind_Ok. eexists. split; [done|]. split.
  - rewrite map_map. simpl. rewrite map_id. exact Hcat.
  - apply Forall_forall. intros p (c & <- & Hc%list_elem_of_In)%list_elem_of_In%in_map_iff.
    rewrite Forall_forall in Hfit. destruct (Hfit c Hc) as [Hne Hsz].
    assert (H1 : Forall zt_wf c) by (apply (concat_Forall _ cs); [by rewrite Hcat|done]).
    assert (H2 : Forall (fun zt => zt_Network zt = n) c)
      by (apply (concat_Forall _ cs); [rewrite Hcat; apply tuples_network|done]).
    split; [eexists; split; [by apply Hext|unfold b in Hsz; lia]|].
    split; [by right|done].
Qed.

Lemma elem_tuples_of n z m zs :
  {| zt_Network := n; zt_Name := z |} ∈ tuples_of m (dedupeSortedZones zs) <->
  n = m /\ z ∈ zs /\ z <> [].
Proof.
  unfold tuples_of. rewrite list_elem_of_In, in_map_iff. split.
  - intros (z' & [= <- <-] & Hz%list_elem_of_In). by apply dedupe_elem in Hz.
  - intros (-> & Hz). exists z. split; [done|]. by apply list_elem_of_In, dedupe_elem.
Qed.

Lemma nodup_tuples_of m zs : NoDup (tuples_of m (dedupeSortedZones zs)).
Proof.
  assert (Hinj : Inj (=) (=) (fun z => {| zt_Network := m; zt_Name := z |}))
    by (by intros ? ? [= ->]).
  apply (NoDup_fmap_2 _), dedupe_nodup.
Qed.

Lemma zi_rsp_networks_spec t (zl : gmap Z (list (list Z))) ns :
  transport_ok t -> map_Forall (fun n zs => u16 n /\ zone_list_ok zs) zl -> NoDup ns ->
  Forall (fun n => is_Some (zl !! n)) ns ->
  exists pkts, zi_rsp_networks t zl ns = Ok pkts /\
    (forall p, p ∈ pkts -> exists k n zs, aurpPacketSize p = Ok k /\ k <= 1400 /\
       n ∈ ns /\ zl !! n = Some zs /\ zi_rsp_for n (zlen (dedupeSortedZones zs)) p) /\
    (forall n z, {| zt_Network := n; zt_Name := z |} ∈ concat (map zones_of pkts) <->
       n ∈ ns /\ z <> [] /\ exists zs, zl !! n = Some zs /\ z ∈ zs) /\
    NoDup (concat (map zones_of pkts)).
Proof.
  intros Ht Hzl. induction ns as [|m ns IH]; intros Hnd Hns; cbn [zi_rsp_networks].
  { exists []. split; [done|]. split; [by intros p ?%elem_of_nil|].
    split; [|constructor]. intros n z. simpl. rewrite !elem_of_nil. tauto. }
  apply NoDup_cons in Hnd as [Hm Hnd]. apply Forall_cons in Hns as [[zs Hzs] Hns].
  destruct (Hzl m zs Hzs) as [Hmu Hok]. rewrite Hzs.
  destruct (network_zi_rsp_spec t m zs Ht Hmu Hok) as (ps & E1 & Hcat & Hps).
  destruct (IH Hnd Hns) as (rest & E2 & Hr1 & Hr2 & Hr3). simpl (default _ _).
  rewrite E1, bind_Ok, E2, bind_Ok. exists (ps ++ rest). split; [done|].
  rewrite map_app, concat_app, Hcat. split; [|split].
  - intros p [Hp|Hp]%elem_of_app.
    + rewrite Forall_forall in Hps. destruct (Hps p Hp) as [(k & ? & ?) ?].
      exists k, m, zs. split_and!; try done. by left.
    + destruct (Hr1 p Hp) as (k & n & zs' & ? & ? & ? & ? & ?). exists k, n, zs'.
      split_and!; try done. by right.
  - intros n z. rewrite elem_of_app, elem_tuples_of, Hr2, elem_of_cons. split.
    + intros [(-> & ? & ?)|(? & ? & ?)]; [|by auto]. split; [by left|]. split; [done|]. by exists zs.
    + intros ([->|?] & ? & zs' & E & ?); [left|right; eauto]. rewrite Hzs in E.
      injection E as <-. done.
  - apply NoDup_app. split; [apply nodup_tuples_of|]. split; [|done].
    intros [n z] (-> & _)%elem_tuples_of (? & _)%Hr2. done.
Qed.

(** The answer to a zone request is complete and fits.  For zone lists
    within AppleTalk's limits [buildZIRspPackets] succeeds; every datagram is a
    ZI-Rsp of at most 1400 bytes about a single requested network, a fragment
    being labelled with the number of names of its network; together they carry
    each nonempty zone name of each network exactly once, and nothing else. *)
Theorem zi_rsp_complete (t : Transport) (zl : gmap Z (list (list Z))) :
  transport_ok t -> map_Forall (fun n zs => u16 n /\ zone_list_ok zs) zl ->
  exists pkts, buildZIRspPackets t zl = Ok pkts /\
    (forall p, p ∈ pkts -> exists k n zs, aurpPacketSize p = Ok k /\ k <= 1400 /\
       zl !! n = Some zs /\ zi_rsp_for n (zlen (dedupeSortedZones zs)) p) /\
    (forall n z, {| zt_Network := n; zt_Name := z |} ∈ concat (map zones_of pkts) <->
       z <> [] /\ exists zs, zl !! n = Some zs /\ z ∈ zs) /\
    NoDup (concat (map zones_of pkts)).
Proof.
  intros Ht Hzl. set (ns := sort_func Z.compare (map_to_list zl).*1).
  assert (Hin : forall n, n ∈ ns <-> is_Some (zl !! n)).
  { intros n. unfold ns. rewrite elem_of_sort_func by apply sw_Z. rewrite list_elem_of_fmap. split.
    - intros ([? zs] & -> & H%elem_of_map_to_list). by exists zs.
    - intros [zs H]. exists (n, zs). split; [done|]. by apply elem_of_map_to_list. }
  destruct (zi_rsp_networks_spec t zl ns) as (pkts & E & H1 & H2 & H3); try done.
  - unfold ns. rewrite sort_func_perm by apply sw_Z. apply NoDup_fst_map_to_list.
  - apply Forall_forall. intros n. apply Hin.
  - exists pkts. split; [exact E|]. split; [|split; [|done]].
    + intros p Hp. destruct (H1 p Hp) as (k & n & zs & ? & ? & _ & ? & ?). by exists k, n, zs.
    + intros n z. rewrite H2, Hin. split; [tauto|]. intros (? & zs & E' & ?).
      split; [by exists zs|]. split; [done|]. by exists zs.
Qed.

(** ** Assembling fragments *)

Definition names_of (frs : list (list (list Z))) : gset (list Z) := list_to_set (concat frs).

(** A zone list of [total] names is being received for network [n]; [S] has
    arrived. *)
Record assembling (n total : Z) (S : gset (list Z)) (w : World) : Prop := {
  as_inv : rt_inv (rtab w);
  as_owns : is_Some (byClass (rtab w) !! (Class_ (self (pr w)), key_of (self (pr w)) n));
  as_pending : match pendingZoneInfo (rcv (pr w)) !! n with
               | None => S = ∅
               | Some pi => pi_zones pi = S /\ (pi_total pi = 0 \/ pi_total pi = total)
               end }.

Lemma owns_route w n :
  rt_inv (rtab w) -> is_Some (byClass (rtab w) !! (Class_ (self (pr w)), key_of (self (pr w)) n)) ->
  ownsAURPNetwork w n = true.
Proof.
  intros Hinv [r Hr]. unfold ownsAURPNetwork.
  destruct (find_stored (rtab w) Hinv _ _ _ Hr) as (-> & _ & -> & _). done.
Qed.

Lemma filter_nonempty (l : list (list Z)) : Forall (fun z => z <> []) l -> filter (fun z => z <> []) l = l.
Proof. intros H. induction H as [|z l Hz _ IH]; [done|]. rewrite filter_cons_True by done. by rewrite IH. Qed.

Lemma tuples_names m f : map zt_Name (tuples_of m f) = f.
Proof. unfold tuples_of. rewrite map_map. simpl. apply map_id. Qed.

Lemma find_none_forall {A} (P : A -> bool) l : Forall (fun x => P x = false) l -> List.find P l = None.
Proof. intros H. induction H as [|x l Hx _ IH]; [done|]. simpl. by rewrite Hx. Qed.

(** A fragment reaches [assemble] with the names seen so far. *)
Lemma fragment_assembles m n b total S f w :
  assembling n total S w -> remapInboundNetwork (timing (pr w)) (ident (pr w)) m = (n, b) ->
  f <> [] -> Forall (fun z => z <> []) f -> total <> 0 ->
  applyExtendedZIRsp total (tuples_of m f) w
  = assemble n total (S ∪ list_to_set f) (now w) w.
Proof.
  intros [Hinv Ho Hp] Hm Hf Hne Ht. destruct f as [|z f]; [done|].
  unfold applyExtendedZIRsp. cbn [tuples_of map]. fold (tuples_of m f).
  rewrite (run_bind (getp id) _ w w (pr w) eq_refl). cbn [zt_Network]. cbv zeta. rewrite Hm.
  cbn [fst]. rewrite (run_bind (get _) _ w w true) by (unfold get; by rewrite owns_route).
  cbn [negb]. zdec.
  rewrite find_none_forall.
  2: { apply (Forall_impl (fun zt => zt_Network zt = m)).
       - constructor; [done|]. apply tuples_network.
       - intros zt ->. by rewrite Hm, Z.eqb_refl. }
  rewrite (run_bind (get now) _ w w (now w) eq_refl).
  cbn [zt_Name]. rewrite tuples_names, filter_nonempty by done.
  destruct (pendingZoneInfo (rcv (pr w)) !! n) as [pi|].
  - destruct Hp as [Hz Htot]. rewrite Hz. destruct Htot as [->| ->]; [done|].
    rewrite Z.eqb_refl. cbn [negb]. rewrite andb_false_r. by zdec.
  - subst S. by rewrite union_empty_l_L.
Qed.

Lemma assemble_partial n total S w t :
  Z.of_nat (size S) < total -> rt_inv (rtab w) ->
  is_Some (byClass (rtab w) !! (Class_ (self (pr w)), key_of (self (pr w)) n)) ->
  exists w', assemble n total S t w = Some (w', (false, n, None)) /\
    assembling n total S w' /\ rtab w' = rtab w /\ timing (pr w') = timing (pr w) /\
    ident (pr w') = ident (pr w).
Proof.
  intros Hsz Hinv Ho. unfold assemble. rewrite (run_bind (modr _) _ w _ _ eq_refl). cbv zeta. zdec.
  eexists. split; [done|]. split; [|done]. split; [done|done|]. simpl. rewrite lookup_insert_eq.
  simpl. by auto.
Qed.

Lemma assemble_complete n total S w t :
  Z.of_nat (size S) = total -> rt_inv (rtab w) -> [] ∉ S ->
  exists w', assemble n total S t w = Some (w', (true, n, None)) /\
    ZoneNames (net_at (rtab w') n) = S /\
    (forall k, k <> n -> ZoneNames (net_at (rtab w') k) = ZoneNames (net_at (rtab w) k)) /\
    pendingZoneInfo (rcv (pr w')) !! n = None.
Proof.
  intros Hsz Hinv Hne. unfold assemble. rewrite (run_bind (modr _) _ w _ _ eq_refl). cbv zeta. zdec.
  set (w1 := with_pr _ w).
  pose proof (ReplaceZones_spec (rtab w) Hinv (now w) n (sort_func bytes_compare (elements S))) as HR.
  destruct (ReplaceZonesForNetwork (now w) n _ (rtab w)) as [rt' notes] eqn:E.
  destruct HR as (_ & _ & _ & HZ & _).
  assert (Eop : table_replace_zones n (sort_func bytes_compare (elements S)) w1
    = Some (deliver_all notes (with_rtab rt' w1), tt))
    by (unfold table_replace_zones, table_op; change (now w1) with (now w);
        change (rtab w1) with (rtab w); by rewrite E).
  rewrite (run_bind _ _ _ _ _ Eop). set (w2 := deliver_all _ _).
  destruct (deliver_all_frame notes (with_rtab rt' w1)) as (Hc & Hr & _). fold w2 in Hc, Hr.
  injection Hc as E1 _ _ _. rewrite (run_bind (clearPendingZoneInfo n) _ w2 _ _ eq_refl).
  set (w3 := with_pr _ w2).
  assert (Hl : exists w4 l, noteLoopIndicativeNetwork n w3 = Some (w4, l) /\ rtab w4 = rtab w3 /\
    rcv (pr w4) = rcv (pr w3)).
  { unfold noteLoopIndicativeNetwork.
    rewrite (run_bind (get _) _ w3 w3 (loopIndicativeMatch w3 n) eq_refl).
    destruct (loopIndicativeMatch w3 n) as [rl|]; by do 2 eexists. }
  destruct Hl as (w4 & l & El & R1 & R2). rewrite (run_bind _ _ _ _ _ El).
  exists w4. split; [done|]. rewrite R1, R2. simpl. rewrite E1. simpl.
  assert (HS : list_to_set (filter (fun zn => zn <> []) (sort_func bytes_compare (elements S))) = S).
  { apply set_eq. intros z. rewrite elem_of_list_to_set, list_elem_of_filter, elem_of_sort_func,
      elem_of_elements by apply sw_bytes. split; [by intros [_ ?]|]. intros Hz.
    split; [|done]. intros ->. done. }
  split; [rewrite HZ, decide_True by done; exact HS|].
  split; [|apply lookup_delete_eq]. intros k Hk. by rewrite HZ, decide_False.
Qed.

Lemma nonempty_names (S : gset (list Z)) f :
  Forall (fun z => z <> []) f -> [] ∉ S -> [] ∉ S ∪ list_to_set f.
Proof.
  intros Hf HS [?|H%elem_of_list_to_set]%elem_of_union; [done|].
  rewrite Forall_forall in Hf. by apply (Hf []).
Qed.

Lemma last_nonzero (S : gset (list Z)) f :
  f <> [] -> Z.of_nat (size (S ∪ list_to_set f)) <> 0.
Proof.
  intros Hf Hz. assert (size (S ∪ list_to_set f) = 0%nat) as H0 by lia.
  apply size_empty_inv in H0. destruct f as [|z f]; [done|]. set_solver.
Qed.

(** Fragments as they arrive; the results of [applyExtendedZIRsp] before the
    last one say that the list is incomplete. *)
Fixpoint receive (m total : Z) (frs : list (list (list Z))) : M error :=
  match frs with
  | [] => mret None
  | f :: frs =>
      r ← applyExtendedZIRsp total (tuples_of m f);
      match r.2 with Some e => mret (Some e) | None => receive m total frs end
  end.

Lemma receive_spec m n b total last frs S w :
  assembling n total S w -> remapInboundNetwork (timing (pr w)) (ident (pr w)) m = (n, b) ->
  Forall (fun f => f <> [] /\ Forall (fun z => z <> []) f) (frs ++ [last]) -> [] ∉ S ->
  Z.of_nat (size (S ∪ names_of (frs ++ [last]))) = total ->
  S ∪ names_of frs <> S ∪ names_of (frs ++ [last]) ->
  exists w', receive m total (frs ++ [last]) w = Some (w', None) /\
    ZoneNames (net_at (rtab w') n) = S ∪ names_of (frs ++ [last]) /\
    (forall k, k <> n -> ZoneNames (net_at (rtab w') k) = ZoneNames (net_at (rtab w) k)) /\
    pendingZoneInfo (rcv (pr w')) !! n = None.
Proof.
  revert S w. induction frs as [|f frs IH]; intros S w Has Hm Hne HS Htot Hlt;
    apply Forall_cons in Hne as [[Hf Hfn] Hrest]; cbn [receive app].
  - cbn [app] in *. assert (Hlast : names_of [last] = list_to_set last)
      by (unfold names_of; simpl; by rewrite app_nil_r).
    rewrite Hlast in *.
    assert (Hz : total <> 0) by (rewrite <- Htot; by apply last_nonzero).
    destruct (assemble_complete n total (S ∪ list_to_set last) w (now w)) as (w' & E & H);
      [done|apply Has|by apply (nonempty_names S last)|].
    rewrite <- (fragment_assembles m n b total S last w) in E by done.
    rewrite (run_bind _ _ _ _ _ E). exists w'. split; [done|exact H].
  - assert (Hcons : forall l, names_of (f :: l) = list_to_set f ∪ names_of l)
      by (intros l; unfold names_of; simpl; by rewrite list_to_set_app_L).
    cbn [app] in *. rewrite !Hcons in *. rewrite !(assoc_L (∪)) in *.
    assert (Hsub : S ∪ list_to_set f ⊂ S ∪ list_to_set f ∪ names_of (frs ++ [last])).
    { split; [set_solver|]. intros Hle. apply Hlt. apply set_eq. intros z.
      unfold names_of in *. rewrite concat_app, list_to_set_app_L in *. set_solver. }
    apply subset_size in Hsub.
    assert (Hz : total <> 0) by lia.
    destruct (assemble_partial n total (S ∪ list_to_set f) w (now w)) as (w1 & E & Has1 & R1 & R2 & R3);
      [lia|apply Has|apply Has|].
    rewrite <- (fragment_assembles m n b total S f w) in E by done.
    rewrite (run_bind _ _ _ _ _ E). rewrite <- R1.
    apply (IH (S ∪ list_to_set f)); try done; [by rewrite R2, R3|].
    by apply (nonempty_names S f).
Qed.

(** C6: a zone list split over several datagrams is assembled.  When the
    fragments of the zone list of a network learned from the peer arrive - in
    any order, with repetitions - each carrying the number of names of the whole
    list, then with the fragment that completes the list the network has exactly
    its names, the other networks keep theirs, and nothing remains pending. *)
Theorem zone_list_assembled (w : World) (m n : Z) (b : bool) (frs : list (list (list Z)))
    (last : list (list Z)) (r : Route) :
  let names := names_of (frs ++ [last]) in
  reachable (rtab w) ->
  byClass (rtab w) !! (Class_ (self (pr w)), key_of (self (pr w)) n) = Some r ->
  (forall pi, pendingZoneInfo (rcv (pr w)) !! n = Some pi -> pi_zones pi = ∅ /\ pi_total pi = 0) ->
  remapInboundNetwork (timing (pr w)) (ident (pr w)) m = (n, b) ->
  Forall (fun f => f <> [] /\ Forall (fun z => z <> []) f) (frs ++ [last]) ->
  names_of frs <> names ->
  exists w', receive m (Z.of_nat (size names)) (frs ++ [last]) w = Some (w', None) /\
    ZoneNames (net_at (rtab w') n) = names /\
    (forall k, k <> n -> ZoneNames (net_at (rtab w') k) = ZoneNames (net_at (rtab w) k)) /\
    pendingZoneInfo (rcv (pr w')) !! n = None.
Proof.
  intros names Hr Hown Hp Hm Hf Hlt.
  destruct (receive_spec m n b (Z.of_nat (size names)) last frs ∅ w) as (w' & H); try done.
  - split; [by apply reachable_inv|by exists r|]. destruct (_ !! n) as [pi|]; [|done].
    destruct (Hp pi eq_refl). auto.
  - by rewrite union_empty_l_L.
  - by rewrite !union_empty_l_L.
  - exists w'. by rewrite union_empty_l_L in H.
Qed.
End ZoneSpec.

(** ** Witnesses *)

Definition wit_zones : gmap Z (list (list Z)) := {[ 3 := [str "home"; []; str "home"; str "lab"] ]}.

Lemma zi_rsp_complete_witness :
  exists pkts, buildZIRspPackets (GS := insertion_sort) wit_tr wit_zones = Ok pkts /\
    (forall p, p ∈ pkts -> exists k n zs, aurpPacketSize p = Ok k /\ k <= 1400 /\
       wit_zones !! n = Some zs /\
       zi_rsp_for n (zlen (dedupeSortedZones (GS := insertion_sort) zs)) p) /\
    (forall n z, {| zt_Network := n; zt_Name := z |} ∈ concat (map zones_of pkts) <->
       z <> [] /\ exists zs, wit_zones !! n = Some zs /\ z ∈ zs) /\
    NoDup (concat (map zones_of pkts)).
Proof.
  apply (zi_rsp_complete (GS := insertion_sort) wit_tr wit_zones).
  - exact wit_tr_ok.
  - apply map_Forall_singleton. split; [unfold u16; lia|].
    split; [|vm_compute; discriminate].
    repeat constructor; vm_compute; discriminate.
Defined.

Lemma wit_learned_reachable : reachable (GS := insertion_sort) (rtab wit_learned).
Proof.
  destruct (returns_handlePacket (GStr := ascii_strings) (GS := insertion_sort) wit_config wit_ident
    (wit_rirsp 20 22)) with (w := wit_world) as (w' & err & E & H & _).
  - split; [const_widths|]. split; [done|]. split; [intros h [= <-]; const_widths|].
    repeat constructor; apply wit_tuple_wf; unfold u16; lia.
  - repeat constructor. vm_compute. discriminate.
  - split; [exact wit_reachable|done].
  - rewrite wit_learned_run in E. by destruct (some_pair_inj _ _ _ _ E) as [<- _].
Qed.

(** The peer announced network 20; its two zones arrive in three fragments, one
    of them twice. *)
Lemma zone_list_assembled_witness :
  exists w', receive (GStr := ascii_strings) (GS := insertion_sort) 20 2
      ([[str "a"]; [str "a"]] ++ [[str "b"; str "a"]]) wit_learned = Some (w', None) /\
    ZoneNames (net_at (rtab w') 20) = names_of ([[str "a"]; [str "a"]] ++ [[str "b"; str "a"]]) /\
    (forall k, k <> 20 ->
       ZoneNames (net_at (rtab w') k) = ZoneNames (net_at (rtab wit_learned) k)) /\
    pendingZoneInfo (rcv (pr w')) !! 20 = None.
Proof.
  destruct (byClass (rtab wit_learned) !! (Class_ (self (pr wit_learned)),
    key_of (self (pr wit_learned)) 20)) as [r|] eqn:E.
  2: { exfalso. assert (Hs : bool_decide (is_Some (byClass (rtab wit_learned) !!
         (Class_ (self (pr wit_learned)), key_of (self (pr wit_learned)) 20))) = true)
         by (vm_compute; reflexivity). rewrite E in Hs. discriminate Hs. }
  change 2 with (Z.of_nat (size (names_of ([[str "a"]; [str "a"]] ++ [[str "b"; str "a"]])))).
  apply (zone_list_assembled (GStr := ascii_strings) (GS := insertion_sort) wit_learned 20 20 false
    [[str "a"]; [str "a"]] [str "b"; str "a"] r).
  - exact wit_learned_reachable.
  - exact E.
  - intros pi Hpi. vm_compute in Hpi. injection Hpi as <-. split; reflexivity.
  - vm_compute. reflexivity.
  - repeat constructor; discriminate.
  - intros H. apply (f_equal size) in H. vm_compute in H. discriminate H.
Defined.
