(* ===== verification/TunnelSpec.v ===== *)
(** * AppleTalk traffic into a tunnel: what [Forward] of [router/aurp_peer.go]
      sends

    [tunnel_out] is the composition of the peer's policies on a packet: hidden
    devices are removed, the destination is translated, the hop weight is
    added.  The theorem says that [Forward] sends the result, and only it,
    wrapped in an AURP data packet. *)
From S2P Require Import Prelude Wtacc AurpHeaders AurpTuples AurpZoneInfo AurpPacket.
From S2P Require Import AurpTransport PeerPolicy GoSort RouteTable RouteTableInv RouteTableOps.
From S2P Require Import RouteTableSpec RouteExport PeerState PeerZones PeerFSM.
From S2P Require Import AtalkNbp Atalk DdpPolicy PeerInv PeerKeeps PeerTotal PeerSpec PeerRecv.
Import RT Policy Exp PS Zones FSM DDP Tunnel.

(** ** Policies keep packets well-typed *)

Section Out.
Context {GStr : GoStrings} `{MT : Multitalk} {ML : MultitalkLaws}.

Definition tunnel_out (c : AURPConfig) (i : PeerIdent) (pk : ExtPacket) : res (option ExtPacket) :=
  '(filtered, drop) ← filterDeviceNBP c i (Some pk) (str "export");
  if drop : bool then Ok None
  else match filtered with
  | None => Panic
  | Some filtered =>
      remapped ← remapOutboundDDP c i filtered;
      weighted ← applyAURPHopWeight c remapped;
      Ok (Some weighted)
  end.

Context (c : AURPConfig) (i : PeerIdent).

Lemma safe_verify pk : ext_typed pk -> safe (fun _ => True) (verifyDDPChecksum (Some pk)).
Proof. intros Hp. destruct (verify_cases pk Hp) as [->|[e ->]]; done. Qed.

Lemma with_Cksum_typed pk : ext_typed pk -> ext_typed (with_Cksum 0 pk).
Proof. intros (? & ? & H). split; [done|]. split; [|exact H]. cbn. unfold u16. lia. Qed.

Lemma with_Data_typed data pk :
  ext_typed pk -> bytes_ok data -> ext_typed (setDDPDataSize (zlen data) (with_Data data pk)).
Proof.
  intros (_ & ? & ? & ? & ? & ? & ? & ? & ? & _) Hd. split; [apply setDDPDataSize_u16|].
  by do 8 (split; [done|]).
Qed.

Lemma filter_safe pk direction :
  ext_typed pk ->
  safe (fun '(f, drop) =>
          if drop : bool then True
          else exists pk', f = Some pk' /\ ext_typed pk' /\ ddpHopCount pk' = ddpHopCount pk /\
                 DstNet pk' = DstNet pk)
       (filterDeviceNBP c i (Some pk) direction).
Proof.
  intros Hp. assert (Hd : bytes_ok (Data pk)) by apply Hp.
  assert (Hself : exists pk', Some pk = Some pk' /\ ext_typed pk' /\
    ddpHopCount pk' = ddpHopCount pk /\ DstNet pk' = DstNet pk) by by exists pk.
  unfold filterDeviceNBP. case_if; [done|]. pose proof (Unmarshal_safe (Data pk) Hd) as Hs.
  eapply safe_bind; [apply safe_wrap; exact Hs|]. intros n ((Hf & Hi & Ht) & Hr & (Hl & _) & _).
  case_if; [done|]. zbool. set (kept := List.filter _ (NBP.Tuples n)).
  case_if; [done|]. case_if; [done|]. zbool.
  eapply safe_bind; [by apply safe_verify|]. intros [] _.
  destruct (NBP.Marshal (NBP.with_Tuples kept n)) as [data| |] eqn:Em; cbn [wrap_err]; [|done|].
  - rewrite bind_Ok. cbn [safe]. eexists. split; [done|].
    apply Marshal_inv in Em as (Hfn & Hlk & Hts & ->).
    split; [|split; [|done]; exact (setDDPDataSize_hops _ (with_Cksum 0 (with_Data _ pk)))].
    refine (with_Data_typed _ (with_Cksum 0 pk) (with_Cksum_typed _ Hp) _).
    apply enc_nbp_ok; [|done|..|done].
    + split; [done|]. split; [done|]. by apply Forall_list_filter.
    + split; [|done]. cbn [NBP.Tuples NBP.with_Tuples] in *. pose proof (zlen_nonneg kept). lia.
  - exfalso. by apply (Marshal_no_panic (NBP.with_Tuples kept n)).
Qed.

Lemma tunnel_out_safe pk :
  ext_typed pk -> u8 (HopCountWeight c) ->
  safe (fun o => match o with
                 | None => True
                 | Some out => ext_typed out /\ ddpHopCount out = ddpHopCount pk + HopCountWeight c /\
                     DstNet out = (remapOutboundNetwork c i (DstNet pk)).1
                 end) (tunnel_out c i pk).
Proof.
  intros Hp Hw. unfold tunnel_out. eapply safe_bind; [by apply filter_safe|].
  intros [f []]; [done|]. intros (pk1 & -> & Hp1 & Hh1 & Hd1).
  apply (safe_bind (fun pk2 => ext_typed pk2 /\ ddpHopCount pk2 = ddpHopCount pk /\
    DstNet pk2 = (remapOutboundNetwork c i (DstNet pk)).1)).
  - unfold remapOutboundDDP. rewrite Hd1.
    assert (Hm : u16 (remapOutboundNetwork c i (DstNet pk)).1) by (apply remap_with_u16, Hp).
    destruct (remapOutboundNetwork c i (DstNet pk)) as [m ok] eqn:Em. cbn [fst] in *.
    destruct ok; cbn [negb].
    + eapply safe_bind; [by apply safe_verify|]. intros [] _. cbn [safe].
      split; [|by rewrite <- Hh1]. apply with_Cksum_typed.
      destruct Hp1 as (? & ? & _ & H). by split; [|split; [|split; [|exact H]]].
    + cbn [safe]. apply remap_with_false in Em as ->. done.
  - intros pk2 (Hp2 & Hh2 & Hd2).
    apply (safe_bind (fun pk3 => ext_typed pk3 /\ ddpHopCount pk3 = ddpHopCount pk + HopCountWeight c /\
      DstNet pk3 = (remapOutboundNetwork c i (DstNet pk)).1)); [|done].
    pose proof (hops_bound pk2). unfold applyAURPHopWeight. unfold u8 in Hw.
    case_if; zbool; [split; [done|]; split; [lia|done]|]. unfold wrap16.
    rewrite Z.mod_small by lia. case_if; zbool; [done|].
    unfold maxRouteDistance in *. split; [apply setDDPHopCount_typed; [done|lia]|].
    split; [|done]. rewrite setDDPHopCount_get; [lia|apply Hp2|lia].
Qed.
End Out.

Section Forward.
Context {GStr : GoStrings} `{MT : Multitalk} {ML : MultitalkLaws}.

Lemma send_tr_ok f w :
  pkt_wf (f (tr (pr w))) -> io w = [] ->
  exists dg, send_tr f w = Some (after_send (f (tr (pr w))) dg w, None).
Proof.
  intros Hwf Hio. unfold send_tr. erewrite (run_bind (getp _)) by done. by apply send_ok.
Qed.

(** The keep-alive that goes first when nothing was heard for too long. *)
Definition keep_alive (w : World) : list Packet :=
  if needsTickleBeforeData (now w) (pr w) then [NewTicklePacket (tr (pr w))] else [].

Lemma tickle_before_ok w :
  transport_ok (tr (pr w)) -> io w = [] ->
  exists w', sendTickleBeforeDataIfNeeded w = Some (w', None) /\ sent w' = sent w ++ keep_alive w /\
    tr (pr w') = tr (pr w) /\ io w' = [] /\ rtab w' = rtab w /\ snd (pr w') = snd (pr w).
Proof.
  intros Ht Hio. unfold sendTickleBeforeDataIfNeeded, keep_alive.
  erewrite (run_bind (get now)) by done. erewrite (run_bind (getp id)) by done.
  change (id (pr w)) with (pr w). destruct (needsTickleBeforeData (now w) (pr w)); cbn [negb].
  - destruct (send_tr_ok NewTicklePacket w) as [dg E]; [|done|].
    { apply (built_by_wf (tr (pr w))); [done|]. apply built_tickle. }
    erewrite run_bind by exact E. cbv beta iota. erewrite run_bind by done.
    erewrite run_bind by done. eexists. split; [done|]. done.
  - exists w. by rewrite app_nil_r.
Qed.

Lemma send_data_ok c raw w :
  transport_ok (tr (pr w)) -> io w = [] ->
  exists w',
    (err ← send_tr (fun t => NewAppleTalkPacket t raw);
     match err with
     | Some e => mret (Some e)
     | None =>
         _ ← bump ddpPacketsOut 1; _ ← bump ddpBytesOut (zlen raw);
         _ ← (if 0 <? HopCountWeight c then bump hopCountWeightedPackets 1 else mret tt);
         mret None
     end) w = Some (w', None) /\ sent w' = sent w ++ [NewAppleTalkPacket (tr (pr w)) raw] /\
    tr (pr w') = tr (pr w) /\ rtab w' = rtab w /\ snd (pr w') = snd (pr w).
Proof.
  intros Ht Hio. destruct (send_tr_ok (fun t => NewAppleTalkPacket t raw) w) as [dg E]; [|done|].
  { apply (built_by_wf (tr (pr w))); [done|]. apply built_atalk. }
  erewrite run_bind by exact E. cbv beta iota. do 2 erewrite (run_bind (bump _ _)) by done.
  destruct (0 <? HopCountWeight c); (eexists; split; [reflexivity|done]).
Qed.

(** When the network accepts the packet, [Forward] sends exactly one AURP
    data packet, which carries the outgoing DDP packet as the peer's policies
    leave it - the hidden devices removed, the destination translated, the hop
    count raised by the configured weight and never above 15 - preceded by a
    keep-alive when nothing was heard for too long; a packet the policies drop
    or refuse is not sent at all, and the routing state of the connection is
    untouched. *)
Theorem tunnel_forward (w : World) (pk : ExtPacket) :
  transport_ok (tr (pr w)) -> io w = [] -> ext_typed pk -> u8 (HopCountWeight (timing (pr w))) ->
  match tunnel_out (timing (pr w)) (ident (pr w)) pk with
  | Panic => False
  | Err e => Forward pk w = Some (w, Some e)
  | Ok None => Forward pk w = Some (w, None)
  | Ok (Some out) =>
      ddpHopCount out = ddpHopCount pk + HopCountWeight (timing (pr w)) /\ ddpHopCount out <= 15 /\
      DstNet out = (remapOutboundNetwork (timing (pr w)) (ident (pr w)) (DstNet pk)).1 /\
      exists w', Forward pk w = Some (w', None) /\
        sent w' = sent w ++ keep_alive w ++ [NewAppleTalkPacket (tr (pr w)) (wire out)] /\
        tr (pr w') = tr (pr w) /\ rtab w' = rtab w /\ snd (pr w') = snd (pr w)
  end.
Proof.
  intros Ht Hio Hp Hw.
  pose proof (tunnel_out_safe (timing (pr w)) (ident (pr w)) pk Hp Hw) as Hs. revert Hs.
  unfold Forward, tunnel_out. erewrite (run_bind (getp timing)) by done.
  erewrite (run_bind (getp ident)) by done.
  destruct (filterDeviceNBP _ _ _ _) as [[[f|] []]| |]; cbn [mbind res_bind check safe]; try done.
  destruct (remapOutboundDDP _ _ f) as [f1| |]; cbn [mbind res_bind check safe]; try done.
  destruct (applyAURPHopWeight _ f1) as [f2| |]; cbn [mbind res_bind check safe]; try done.
  intros (Hp2 & Hh & Hd). destruct (ExtMarshal_returns f2 Hp2) as [raw E].
  pose proof (ExtMarshal_layout f2 raw E) as ->. rewrite E. cbn [check].
  split; [done|]. split; [apply hops_bound|]. split; [done|].
  destruct (tickle_before_ok w Ht Hio) as (w1 & E1 & Hs1 & Ht1 & Hio1 & Hr1 & Hn1).
  rewrite (run_bind _ _ _ _ _ E1).
  destruct (send_data_ok (timing (pr w)) (wire f2) w1) as (w2 & E2 & Hs2 & Ht2 & Hr2 & Hn2);
    [by rewrite Ht1|done|].
  exists w2. split; [exact E2|]. rewrite Hs2, Hs1, <- app_assoc, Ht1. split; [done|].
  split; [congruence|]. split; congruence.
Qed.
End Forward.

#[local] Instance wit_strings : GoStrings := ascii_strings.

(** A packet for local network 103 leaves for network 13 of the peer. *)
Definition wit_outgoing : ExtPacket := MkExt (1024 + 14) 0 103 3 2 1 4 4 4 [7].

Example tunnel_forward_witness :
  exists w', Forward wit_outgoing wit_world = Some (w', None) /\
    sent w' = sent wit_world ++ keep_alive wit_world ++
                [NewAppleTalkPacket wit_tr (wire (with_DstNet 13 wit_outgoing))] /\
    tr (pr w') = tr (pr wit_world) /\ rtab w' = rtab wit_world /\ snd (pr w') = snd (pr wit_world).
Proof.
  assert (E : tunnel_out (timing (pr wit_world)) (ident (pr wit_world)) wit_outgoing =
    Ok (Some (with_DstNet 13 wit_outgoing))) by (vm_compute; reflexivity).
  pose proof (tunnel_forward wit_world wit_outgoing wit_tr_ok eq_refl ltac:(const_widths)
    ltac:(const_widths)) as H.
  rewrite E in H. apply H.
Defined.
