(* ===== verification/Seed.v ===== *)
(** * Seed authority of an EtherTalk port ([router/seed.go]: [seedController])

    Who decides the cable range and the zone list of an attached network: this
    router (hard seed, or a soft seed once promoted) or another one.  The lock
    of the controller makes each method one step.  Times are in nanoseconds,
    the zero [time.Time] is [None]. *)
From S2P Require Import Prelude.

Module Seed.

Inductive SeedMode := SeedModeHard | SeedModeSoft | SeedModeNone.

#[global] Instance SeedMode_eq_dec : EqDecision SeedMode.
Proof. solve_decision. Defined.

Record seedController := {
  mode : SeedMode;
  delay : Z;
  configuredStart : Z; configuredEnd : Z; configuredZone : list Z;
  active : bool;
  externalAuthority : bool;
  conflict : bool;
  observedStart : Z; observedEnd : Z; observedZone : list Z;
  lastObservation : option Z;
  lastAuthorityObservation : option Z }.

Definition newSeedController (mode : SeedMode) (delay start end_ : Z) (zone : list Z) :
    seedController :=
  {| mode := mode; delay := delay; configuredStart := start; configuredEnd := end_;
     configuredZone := zone; active := bool_decide (mode = SeedModeHard);
     externalAuthority := false; conflict := false; observedStart := 0; observedEnd := 0;
     observedZone := []; lastObservation := None; lastAuthorityObservation := None |}.

(** The flags of a controller are updated together. *)
Definition with_flags (act ext conf : bool) (s : seedController) : seedController :=
  {| mode := mode s; delay := delay s; configuredStart := configuredStart s;
     configuredEnd := configuredEnd s; configuredZone := configuredZone s; active := act;
     externalAuthority := ext; conflict := conf; observedStart := observedStart s;
     observedEnd := observedEnd s; observedZone := observedZone s;
     lastObservation := lastObservation s;
     lastAuthorityObservation := lastAuthorityObservation s |}.

Definition with_observation (start end_ : Z) (zone : list Z) (last auth : option Z)
    (s : seedController) : seedController :=
  {| mode := mode s; delay := delay s; configuredStart := configuredStart s;
     configuredEnd := configuredEnd s; configuredZone := configuredZone s; active := active s;
     externalAuthority := externalAuthority s; conflict := conflict s; observedStart := start;
     observedEnd := end_; observedZone := zone; lastObservation := last;
     lastAuthorityObservation := auth |}.

Definition observeRange (start end_ : Z) (authority : bool) (zone : list Z) (now : Z)
    (s : seedController) : seedController :=
  let s := with_observation start end_
             (if bool_decide (zone <> []) then zone else observedZone s)
             (Some now)
             (if authority then Some now else lastAuthorityObservation s) s in
  let s := with_flags (active s) (if authority then true else externalAuthority s) (conflict s) s in
  let hasConfiguredRange :=
    negb (configuredStart s =? 0) && negb (configuredEnd s =? 0) in
  if (hasConfiguredRange &&
      (negb (start =? configuredStart s) || negb (end_ =? configuredEnd s))) ||
     (bool_decide (zone <> []) && bool_decide (configuredZone s <> []) &&
      bool_decide (zone <> configuredZone s))
  then with_flags false (externalAuthority s) true s
  else if authority && bool_decide (mode s = SeedModeSoft)
  then with_flags false (externalAuthority s) (conflict s) s
  else s.

Definition promoteSoft (s : seedController) : seedController * bool :=
  if negb (bool_decide (mode s = SeedModeSoft)) || externalAuthority s || conflict s || active s
  then (s, false)
  else (with_flags true (externalAuthority s) (conflict s) s, true).

Definition expireExternalAuthority (now timeout : Z) (s : seedController) : seedController * bool :=
  match lastAuthorityObservation s with
  | Some last =>
      if negb (externalAuthority s) then (s, false)
      else if now - last <=? timeout then (s, false)
      else (with_flags (active s) false (conflict s) s, true)
  | None => (s, false)
  end.

Definition activeAuthority (s : seedController) : bool := active s && negb (conflict s).

(** The field [Effective] of [snapshot]. *)
Definition effective (s : seedController) : string :=
  if conflict s then "conflict-fail-closed"
  else if active s && bool_decide (mode s = SeedModeHard) then "hard-seed"
  else if active s && bool_decide (mode s = SeedModeSoft) then "soft-seed-active"
  else if bool_decide (mode s = SeedModeSoft) && externalAuthority s then "soft-standby"
  else if bool_decide (mode s = SeedModeSoft) then "soft-waiting"
  else if bool_decide (mode s = SeedModeNone) && externalAuthority s then "non-seed-external"
  else "non-seed".

(** ** The controller as a state machine *)

Inductive seed_step : seedController -> seedController -> Prop :=
| step_observe start end_ authority zone now s :
    seed_step s (observeRange start end_ authority zone now s)
| step_promote s : seed_step s (promoteSoft s).1
| step_expire now timeout s : seed_step s (expireExternalAuthority now timeout s).1.

End Seed.

Import Seed.

(** * Lemmas *)

Lemma seed_step_static s s' :
  seed_step s s' ->
  mode s' = mode s /\ configuredStart s' = configuredStart s /\
  configuredEnd s' = configuredEnd s /\ configuredZone s' = configuredZone s.
Proof.
  intros []; unfold observeRange, promoteSoft, expireExternalAuthority; repeat case_match; done.
Qed.

Lemma seed_steps_mode s s' : rtc seed_step s s' -> mode s' = mode s.
Proof.
  induction 1 as [|a b d Hs _ IH]; [done|]. destruct (seed_step_static _ _ Hs) as (E & _). congruence.
Qed.

(** What every reachable controller satisfies. *)
Definition seed_inv (s : seedController) : Prop :=
  (conflict s = true -> active s = false) /\
  (mode s = SeedModeNone -> active s = false) /\
  (mode s = SeedModeHard -> active s = negb (conflict s)) /\
  (mode s = SeedModeSoft -> active s = true -> externalAuthority s = false) /\
  (externalAuthority s = true -> lastAuthorityObservation s <> None).

Lemma seed_inv_new m d a b z : seed_inv (newSeedController m d a b z).
Proof. by destruct m; repeat split. Qed.

Lemma seed_inv_step s s' : seed_step s s' -> seed_inv s -> seed_inv s'.
Proof.
  intros Hs (H1 & H2 & H3 & H4 & H5). unfold seed_inv.
  destruct Hs as [a b auth z n s|s|n t s]; unfold observeRange, promoteSoft, expireExternalAuthority;
    destruct s as [m d ca cb cz act ext conf oa ob oz lo la]; simpl in *.
  - destruct m, auth, conf, act; simpl; repeat case_match; simpl in *; naive_solver.
  - destruct m, ext, conf, act; simpl; naive_solver.
  - destruct la; simpl; [|naive_solver]. destruct ext; simpl; [|naive_solver].
    case_if; simpl; naive_solver.
Qed.

Lemma seed_inv_steps s s' : rtc seed_step s s' -> seed_inv s -> seed_inv s'.
Proof. induction 1; eauto using seed_inv_step. Qed.

Lemma conflict_kept s s' : seed_step s s' -> conflict s = true -> conflict s' = true.
Proof.
  intros []; unfold observeRange, promoteSoft, expireExternalAuthority; simpl;
    repeat case_match; simpl; congruence.
Qed.

Lemma conflict_forever s s' : rtc seed_step s s' -> conflict s = true -> conflict s' = true.
Proof. induction 1; eauto using conflict_kept. Qed.

(** * Properties *)


Definition wit_soft : seedController := newSeedController SeedModeSoft 30 3 5 (str "Z").

