(* ===== verification/Router.v ===== *)
(** * The router: DDP forwarding ([router/router.go], the AppleTalk side of
      [router/aurp.go])

    Module Router has the ports, the effects and the operations that route DDP
    packets.  A step runs in an [RW]: the route table, the ports, the
    configuration, the clock, the packets handed to route targets and ports so
    far ([emitted]) and the outcome of the coming sends ([sends], past the end
    they succeed).  What a target does with a packet is the business of the
    target: the peer's [Forward] is in module Tunnel.  [None] is a run that
    does not return: a run-time panic, or a route-table loop that does not end. *)
From S2P Require Import Prelude Wtacc AurpHeaders AurpTuples PeerPolicy GoSort RouteTable.
From S2P Require Import AtalkNbp Atalk RouteExport PeerState DdpPolicy Seed LoopProbe.
Import RT Policy DDP Tunnel.

Module Router.

(** The struct [EtherTalkPort].  [aarpAddress] and [operationalRange] are what
    [aarpMachine.Address] and [OperationalRange] answer. *)
Record Port := {
  device : list Z;
  netStart : Z; netEnd : Z;
  cableStart : Z; cableEnd : Z;
  myAddr : Addr;
  defaultZoneName : list Z;
  availableZones : gset (list Z);
  aarpAddress : option Addr;
  operationalRange : option (Z * Z);
  seed : option Seed.seedController }.

Definition port_target (p : Port) : RouteTarget := EtherTalkPort (device p).

Definition port_with_addr (v : Addr) (p : Port) : Port :=
  {| device := device p; netStart := netStart p; netEnd := netEnd p; cableStart := cableStart p;
     cableEnd := cableEnd p; myAddr := v; defaultZoneName := defaultZoneName p;
     availableZones := availableZones p; aarpAddress := aarpAddress p;
     operationalRange := operationalRange p; seed := seed p |}.
Definition setCableRange (start end_ : Z) (p : Port) : Port :=
  {| device := device p; netStart := netStart p; netEnd := netEnd p; cableStart := start;
     cableEnd := end_; myAddr := myAddr p; defaultZoneName := defaultZoneName p;
     availableZones := availableZones p; aarpAddress := aarpAddress p;
     operationalRange := operationalRange p; seed := seed p |}.
Definition port_with_seed (v : option Seed.seedController) (p : Port) : Port :=
  {| device := device p; netStart := netStart p; netEnd := netEnd p; cableStart := cableStart p;
     cableEnd := cableEnd p; myAddr := myAddr p; defaultZoneName := defaultZoneName p;
     availableZones := availableZones p; aarpAddress := aarpAddress p;
     operationalRange := operationalRange p; seed := v |}.

(** What the router hands to ports and route targets. *)
Inductive Emit :=
| TargetForward (t : RouteTarget) (p : ExtPacket)
| PortSend (device : list Z) (p : ExtPacket)
| PortBroadcast (device : list Z) (p : ExtPacket)
| PortZoneMulticast (device zone : list Z) (p : ExtPacket).

(** The counters of an ingress peer that routing increments. *)
Inductive IngressCounter :=
| reflectionDrops | alternativePathForwards | hopCountReductions | ddpPacketsIn | ddpBytesIn
| confirmedRoutingLoops.

(** A peer as ingress of a packet: its identity and its policy. *)
Record Ingress := { in_ident : PeerIdent; in_timing : AURPConfig }.

(** [loopSignals] are the peers whose [loopDetectedCh] was written to; [notes] the
    notifications of the route table to its observers. *)
Record RW := {
  table : RouteTable;
  ports : list Port;
  config : option AURPConfig;
  clock : Z;
  emitted : list Emit;
  sends : list bool;
  tallies : list (list Z * IngressCounter * Z);
  probes : Loop.LoopProbes;
  loopSignals : list (list Z);
  notes : list (positive * Note) }.

Definition with_table (v : RouteTable) (w : RW) : RW :=
  {| table := v; ports := ports w; config := config w; clock := clock w;
     emitted := emitted w; sends := sends w; tallies := tallies w; probes := probes w;
     loopSignals := loopSignals w; notes := notes w |}.
Definition with_ports (v : list Port) (w : RW) : RW :=
  {| table := table w; ports := v; config := config w; clock := clock w;
     emitted := emitted w; sends := sends w; tallies := tallies w; probes := probes w;
     loopSignals := loopSignals w; notes := notes w |}.
Definition with_emitted (v : list Emit) (w : RW) : RW :=
  {| table := table w; ports := ports w; config := config w; clock := clock w; emitted := v;
     sends := sends w; tallies := tallies w; probes := probes w;
     loopSignals := loopSignals w; notes := notes w |}.
Definition with_sends (v : list bool) (w : RW) : RW :=
  {| table := table w; ports := ports w; config := config w; clock := clock w;
     emitted := emitted w; sends := v; tallies := tallies w; probes := probes w;
     loopSignals := loopSignals w; notes := notes w |}.
Definition with_tallies (v : list (list Z * IngressCounter * Z)) (w : RW) : RW :=
  {| table := table w; ports := ports w; config := config w; clock := clock w;
     emitted := emitted w; sends := sends w; tallies := v; probes := probes w;
     loopSignals := loopSignals w; notes := notes w |}.
Definition with_probes (v : Loop.LoopProbes) (w : RW) : RW :=
  {| table := table w; ports := ports w; config := config w; clock := clock w;
     emitted := emitted w; sends := sends w; tallies := tallies w; probes := v;
     loopSignals := loopSignals w; notes := notes w |}.
Definition with_loopSignals (v : list (list Z)) (w : RW) : RW :=
  {| table := table w; ports := ports w; config := config w; clock := clock w;
     emitted := emitted w; sends := sends w; tallies := tallies w; probes := probes w;
     loopSignals := v; notes := notes w |}.
Definition with_notes (v : list (positive * Note)) (w : RW) : RW :=
  {| table := table w; ports := ports w; config := config w; clock := clock w;
     emitted := emitted w; sends := sends w; tallies := tallies w; probes := probes w;
     loopSignals := loopSignals w; notes := v |}.

Definition R (A : Type) : Type := RW -> option (RW * A).

#[global] Instance R_ret : MRet R := fun A a w => Some (w, a).
#[global] Instance R_bind : MBind R := fun A B f m w =>
  match m w with Some (w', a) => f a w' | None => None end.

Abbreviation error := (option goerr).

Definition getw {A} (f : RW -> A) : R A := fun w => Some (w, f w).
Definition modw (f : RW -> RW) : R unit := fun w => Some (f w, tt).
Definition tally (peer : list Z) (c : IngressCounter) (n : Z) : R unit :=
  modw (fun w => with_tallies (tallies w ++ [(peer, c, n)]) w).

(** A port is mutated in place: the router has one port per device. *)
Definition modport (dev : list Z) (f : Port -> Port) : R unit :=
  modw (fun w => with_ports (map (fun p => if bool_decide (device p = dev) then f p else p) (ports w)) w).

(** A route-table operation: it notifies its observers. *)
Definition on_table {A} (f : RouteTable -> option (A * RouteTable * list (positive * Note))) : R A :=
  fun w =>
    match f (table w) with
    | None => None
    | Some (a, rt, ns) => Some (with_notes (notes w ++ ns) (with_table rt w), a)
    end.

(** Hand a packet over; the next outcome says whether it was accepted. *)
Definition emit (e : Emit) : R error := fun w =>
  let w' := with_emitted (emitted w ++ [e]) w in
  match sends w with
  | false :: rest => Some (with_sends rest w', Some (Errorf "send failed" []))
  | true :: rest => Some (with_sends rest w', None)
  | [] => Some (w', None)
  end.

(** [if err != nil { return err }] for a pure call and for an effectful one. *)
Definition checkr {A B} (r : res A) (fail : goerr -> R B) (k : A -> R B) : R B :=
  match r with Ok a => k a | Err e => fail e | Panic => fun _ => None end.

Definition fail_with (e : goerr) : R error := mret (Some e).

Declare Scope router_scope.
Notation "'attempt' e ;; k" :=
  (e ≫= fun err : error => match err with Some er => mret (Some er) | None => k end)
  (at level 100, e at level 90, k at level 200, right associativity) : router_scope.
Open Scope router_scope.

Section Router.
Context {GStr : GoStrings} `{MT : Multitalk}.

(** ** Routing a packet *)

Definition noteRouteTraffic (ddpkt : option ExtPacket) (destination : Route)
    (ingress : option RouteTarget) : R unit :=
  match ddpkt with
  | None => mret tt
  | Some pk =>
      if Zero destination then mret tt
      else
        let bytes := ddpPacketBytes ddpkt in
        if bytes =? 0 then mret tt
        else
          rt ← getw table; n ← getw clock;
          let source :=
            match ingress with
            | Some _ => lookupForTarget rt n (SrcNet pk) ingress
            | None => zero_route
            end in
          let source := if Zero source then Lookup rt n (SrcNet pk) else source in
          modw (fun w =>
            let rt := if negb (Zero source) then noteDDPBytesIn source bytes (table w) else table w in
            with_table (noteDDPBytesOut destination bytes rt) w)
  end.

(** The reduced packet and whether it was changed. *)
Definition reduceAURPHopCount (ddpkt : ExtPacket) (route : Route) : res (ExtPacket * bool) :=
  let hopCount := ddpHopCount ddpkt in
  if maxRouteDistance <=? hopCount then
    Err (Errorf "hop count exceeded limit (%d >= %d)" [AInt hopCount; AInt maxRouteDistance])
  else
    let remaining := Distance route in
    if maxRouteDistance <=? remaining then
      Err (Errorf "remaining route distance too high for hop-count reduction (%d)" [AInt remaining])
    else if hopCount + remaining <=? maxRouteDistance then Ok (ddpkt, false)
    else
      let newHopCount := maxRouteDistance - remaining in
      if hopCount <=? newHopCount then Ok (ddpkt, false)
      else Ok (setDDPHopCount newHopCount ddpkt, true).

Definition outputRoute (ddpkt : ExtPacket) (ingressAURPID : list Z) (rt : RouteTable) (now : Z) :
    res Route :=
  let no_route := Err (Errorf "no route for packet (dstnet %d); dropping packet"
                         [AInt (DstNet ddpkt)]) in
  if bool_decide (ingressAURPID = []) then
    let route := Lookup rt now (DstNet ddpkt) in
    if Zero route then no_route else Ok route
  else
    let route := LookupAvoidingAURPTunnel rt now (DstNet ddpkt) ingressAURPID in
    if negb (Zero route) then Ok route
    else if Zero (Lookup rt now (DstNet ddpkt)) then no_route
    else Err (Errorf "AURP reflection to ingress tunnel %q for dstnet %d; no alternative path"
                [AStr ingressAURPID; AInt (DstNet ddpkt)]).

(** [route.Target.Class()]: a route without a target panics. *)
Definition target_class (route : Route) : option TargetClass := Class_ <$> Target route.

Definition prepareOutboundForRoute (ddpkt : ExtPacket) (route : Route) : res ExtPacket :=
  match target_class route with
  | None => Panic
  | Some class =>
      if negb (bool_decide (class = TargetClassAURPPeer)) then Ok ddpkt
      else match normalizeAURPNBPFwdReqChecksum (Some ddpkt) with
           | Some p => Ok p
           | None => Panic
           end
  end.

Definition forward_to (route : Route) (p : ExtPacket) : R error :=
  match Target route with Some t => emit (TargetForward t p) | None => fun _ => None end.

Definition Output (ddpkt : ExtPacket) : R error :=
  rt ← getw table; n ← getw clock;
  checkr (outputRoute ddpkt [] rt n) fail_with (fun route =>
    checkr (prepareOutboundForRoute ddpkt route) fail_with (fun outDDP =>
      attempt forward_to route outDDP;;
      _ ← noteRouteTraffic (Some outDDP) route None;
      mret None)).

Definition Forward (ddpkt : ExtPacket) : R error :=
  let hopCount := ddpHopCount ddpkt in
  if maxRouteDistance <=? hopCount then
    fail_with (Errorf "hop count exceeded limit (%d >= %d)" [AInt hopCount; AInt maxRouteDistance])
  else Output (setDDPHopCount (wrap16 (hopCount + 1)) ddpkt).

(** Is [route] an AURP route of the tunnel [id]? *)
Definition from_tunnel (route : Route) (id : list Z) : bool :=
  bool_decide (o_Kind (route_origin route) = RouteOriginAURP) &&
  bool_decide (o_ID (route_origin route) = id).

(** The ingress peer is never nil. *)
Definition OutputFromAURP (ingress : Ingress) (ddpkt : ExtPacket) : R error :=
  cfg ← getw config; rt ← getw table; n ← getw clock;
  let id := tunnelID (in_ident ingress) in
  if (match cfg with Some c => networkHidden c (DstNet ddpkt) | None => false end)
     || exportNetworkHidden (in_timing ingress) (in_ident ingress) (DstNet ddpkt)
  then fail_with (Errorf "AURP network %d is hidden from ingress peer; dropping packet"
                    [AInt (DstNet ddpkt)])
  else
    let best := Lookup rt n (DstNet ddpkt) in
    checkr (outputRoute ddpkt id rt n)
      (fun e =>
         _ ← (if negb (Zero best) && from_tunnel best id then tally id reflectionDrops 1
              else mret tt);
         fail_with e)
      (fun route =>
         match target_class route with
         | None => fun _ => None
         | Some class =>
             _ ← (if negb (Zero best) && from_tunnel best id &&
                     bool_decide (RouteTargetKey <$> Target route <> RouteTargetKey <$> Target best)
                  then tally id alternativePathForwards 1 else mret tt);
             if (maxRouteDistance <=? ddpHopCount ddpkt)
                && negb (bool_decide (class = TargetClassDirect)) then
               fail_with (Errorf
                 "tunneled packet at hop-count limit %d cannot be forwarded to another router"
                 [AInt (ddpHopCount ddpkt)])
             else
               checkr (match cfg with
                       | Some c =>
                           if HopCountReduction c && negb (bool_decide (class = TargetClassAURPPeer))
                           then reduceAURPHopCount ddpkt route else Ok (ddpkt, false)
                       | None => Ok (ddpkt, false)
                       end) fail_with (fun '(ddpkt, changed) =>
                 _ ← (if changed : bool then tally id hopCountReductions 1 else mret tt);
                 checkr (prepareOutboundForRoute ddpkt route) fail_with (fun outDDP =>
                   attempt forward_to route outDDP;;
                   _ ← noteRouteTraffic (Some outDDP) route (Some (AURPPeer id));
                   mret None))
         end).

End Router.
End Router.
