(* ===== verification/Cluster.v ===== *)
(** * Clusters of networks ([router/aurp_cluster.go], [containsRoute] and the
      validation of clusters of [router/config.go], [rtmpAdvertisedDistance] of
      [router/rtmp.go])

    A cluster is a range of local numbers under which the routes learned through
    AURP are advertised to a cable as one.  The map of cluster states is ranged
    in any order ([MapOrder]). *)
From S2P Require Import Prelude Wtacc AurpHeaders AurpTuples PeerPolicy GoSort RouteTable.
From S2P Require Import AtalkNbp Atalk AtalkRtmp RouteExport PeerState DdpPolicy Seed LoopProbe.
From S2P Require Import Router.
Import RT Policy DDP Tunnel Router.

Module Cluster.

Definition containsRoute (c : AURPClusterRule) (route : Route) : bool :=
  (cl_Start c <=? NetStart (rkey route)) && (NetEnd route <=? cl_End c).

(** Of [LoadConfig]: the test of one cluster, up to the first network without a
    remap rule, and of a pair. *)
Definition cluster_rule_ok (rules : list AURPRemapRule) (c : AURPClusterRule) : bool :=
  negb ((cl_Start c =? 0) || (cl_End c <? cl_Start c) || (0xff00 <=? cl_End c)) &&
  forallb (fun n => existsb (fun rule => contains (localRange rule) n) rules)
    (seqZ (cl_Start c) (cl_End c - cl_Start c + 1)).

Definition cluster_pair_ok (a b : AURPClusterRule) : bool :=
  negb (cluster_contains a (cl_Start b) || cluster_contains b (cl_Start a)).

Fixpoint cluster_pairs_ok (cs : list AURPClusterRule) : bool :=
  match cs with
  | [] => true
  | c :: cs => forallb (cluster_pair_ok c) cs && cluster_pairs_ok cs
  end.

Definition clusterForNetwork (cfg : AURPConfig) (network : Z) : option AURPClusterRule :=
  List.find (fun c => cluster_contains c network) (Clusters cfg).

Definition rtmpAdvertisedDistance (route : Route) (hopCountReduction : bool) : Z :=
  if hopCountReduction && bool_decide (o_Kind (route_origin route) = RouteOriginAURP) then 1
  else Distance route.

Section Tuples.
Context {GS : GoSort} {MO : MapOrder}.
Context (rt : RouteTable) (cfg : AURPConfig) (hopCountReduction : bool).

Record clusterState := MkState {
  rule : AURPClusterRule; members : list Route; zones : gset (list Z); distance : Z }.

Definition adv (route : Route) : Z := rtmpAdvertisedDistance route hopCountReduction.

(** The body of the loop over the rules for the one that contains the route. *)
Definition add_member (r : AURPClusterRule) (route : Route) (clusters : gmap Z clusterState) :
    gmap Z clusterState :=
  let state := default (MkState r [] ∅ (adv route)) (clusters !! cl_Start r) in
  let d := adv route in
  <[cl_Start r := MkState (rule state) (members state ++ [route])
      (zones state ∪ list_to_set (route_zone_names rt route))
      (if d <? distance state then d else distance state)]> clusters.

(** The first loop: clusters and the routes outside any. *)
Definition cluster_route (s : gmap Z clusterState * list Route) (route : Route) :
    gmap Z clusterState * list Route :=
  let '(clusters, normal) := s in
  match (if bool_decide (o_Kind (route_origin route) = RouteOriginAURP)
         then List.find (fun r => containsRoute r route) (Clusters cfg) else None) with
  | Some r => (add_member r route clusters, normal)
  | None => (clusters, normal ++ [route])
  end.

Definition route_tuple (route : Route) : RTMP.NetworkTuple :=
  RTMP.MkTuple (Extended route) (NetStart (rkey route)) (NetEnd route) (adv route).

Definition state_tuples (state : clusterState) : list RTMP.NetworkTuple :=
  if 255 <? Z.of_nat (size (zones state)) then map route_tuple (members state)
  else [RTMP.MkTuple true (cl_Start (rule state)) (cl_End (rule state)) (distance state)].

Definition compareTuples (a b : RTMP.NetworkTuple) : comparison :=
  Z.compare (RTMP.RangeStart a) (RTMP.RangeStart b).

Definition buildRTMPTuplesWithClusters (routes : list Route) : list RTMP.NetworkTuple :=
  let '(clusters, normal) := foldl cluster_route (∅, []) routes in
  sort_func compareTuples
    (map route_tuple normal ++ concat (map (fun e => state_tuples e.2) (map_range clusters))).

End Tuples.

(** ** Zones of a cluster *)

Section Zones.
Context {GS : GoSort}.

Definition clusterZones (rt : RouteTable) (now : Z) (cluster : AURPClusterRule) : list (list Z) :=
  sort_func bytes_compare (elements (foldl (fun zs route =>
    if containsRoute cluster route then zs ∪ list_to_set (route_zone_names rt route) else zs)
    (∅ : gset (list Z)) (ValidRoutesForClass rt now TargetClassAURPPeer))).

(** The body of the loop of [zonesForZIPNetworks]; [None] is a router without
    configuration. *)
Definition zones_for_network (cfg : option AURPConfig) (rt : RouteTable) (now : Z)
    (result : gmap Z (list (list Z))) (network : Z) : gmap Z (list (list Z)) :=
  match (match cfg with Some c => clusterForNetwork c network | None => None end) with
  | Some cluster =>
      let zones := clusterZones rt now cluster in
      if 0 <? zlen zones then <[cl_Start cluster := zones]> result else result
  | None => ZonesForNetworks rt now [network] ∪ result
  end.

Definition zonesForZIPNetworks (cfg : option AURPConfig) (rt : RouteTable) (now : Z)
    (networks : list Z) : gmap Z (list (list Z)) :=
  foldl (zones_for_network cfg rt now) ∅ networks.

End Zones.

Definition routeHasZone (rt : RouteTable) (route : Route) (zone : list Z) : bool :=
  existsb (fun candidate => bool_decide (candidate = zone)) (route_zone_names rt route).

(** ** Lookups in a cluster *)

Section NBP.
Context {GStr : GoStrings} `{MT : Multitalk}.

(** The loop over the routes of the AURP peers; each request is a copy. *)
Fixpoint cluster_requests (cluster : AURPClusterRule) (zone : list Z) (packet : ExtPacket)
    (routes : list Route) : R error :=
  match routes with
  | [] => mret None
  | route :: routes =>
      rt ← getw table;
      if negb (containsRoute cluster route) || negb (routeHasZone rt route zone) then
        cluster_requests cluster zone packet routes
      else
        attempt Forward (with_DstNet (NetStart (rkey route)) packet);;
        cluster_requests cluster zone packet routes
  end.

(** Whether the packet was handled, and the error. *)
Definition handleClusteredNBPFwdReq (packet : ExtPacket) : R (bool * error) :=
  cfg ← getw config;
  match cfg with
  | None => mret (false, None)
  | Some cfg =>
      match clusterForNetwork cfg (DstNet packet) with
      | None => mret (false, None)
      | Some cluster =>
          checkr (wrap_err "unmarshal clustered NBP FwdReq: %w" [] (NBP.Unmarshal (Data packet)))
            (fun e => mret (true, Some e)) (fun nbpPacket =>
              if negb (NBP.Function_ nbpPacket =? NBP.FunctionFwdReq)
                 || negb (zlen (NBP.Tuples nbpPacket) =? 1) then mret (false, None)
              else
                match NBP.Tuples nbpPacket with
                | [] => fun _ => None
                | tuple :: _ =>
                    rt ← getw table; n ← getw clock;
                    err ← cluster_requests cluster (NBP.Zone tuple) packet
                            (ValidRoutesForClass rt n TargetClassAURPPeer);
                    mret (true, err)
                end)
      end
  end.

End NBP.
End Cluster.

Import Cluster.

(** * Lemmas *)

Section Lemmas.
Context {GS : GoSort} {MO : MapOrder}.
Context (rt : RouteTable) (cfg : AURPConfig) (hcr : bool).

(** The clusters as [LoadConfig] accepts them. *)
Definition clusters_ok : Prop :=
  Forall (fun c => cluster_rule_ok (RemapRules cfg) c = true) (Clusters cfg) /\
  cluster_pairs_ok (Clusters cfg) = true.

Lemma starts_unique a b :
  clusters_ok -> a ∈ Clusters cfg -> b ∈ Clusters cfg -> cl_Start a = cl_Start b -> a = b.
Proof.
  intros [Hr Hp]. induction (Clusters cfg) as [|c cs IH]; intros Ha Hb E; [by apply elem_of_nil in Ha|].
  apply Forall_cons in Hr as [_ Hr]. cbn [cluster_pairs_ok] in Hp. apply andb_true_iff in Hp as [Hc Hp].
  assert (Hno : forall x, x ∈ cs -> cl_Start x <> cl_Start c).
  { intros x Hx Ex. rewrite forallb_forall in Hc. specialize (Hc x). rewrite <- list_elem_of_In in Hc.
    specialize (Hc Hx). unfold cluster_pair_ok, cluster_contains in Hc. apply negb_true_iff in Hc. zbool.
    rewrite Ex in *. rewrite Z.leb_refl in *. cbn [andb] in *. zbool.
    rewrite Forall_forall in Hr. specialize (Hr x Hx). unfold cluster_rule_ok in Hr. zbool. lia. }
  apply elem_of_cons in Ha as [->|Ha]; apply elem_of_cons in Hb as [->|Hb]; [done| | |by apply IH].
  - exfalso. by apply (Hno b).
  - exfalso. by apply (Hno a).
Qed.

(** The range of [nt] includes the range of [r]. *)
Definition covers (nt : RTMP.NetworkTuple) (r : Route) : Prop :=
  RTMP.RangeStart nt <= NetStart (rkey r) /\ NetEnd r <= RTMP.RangeEnd nt.

Definition state_ok (rs : list Route) (k : Z) (st : clusterState) : Prop :=
  rule st ∈ Clusters cfg /\ cl_Start (rule st) = k /\
  Forall (fun r => r ∈ rs /\ containsRoute (rule st) r = true /\ distance st <= adv hcr r) (members st) /\
  exists r, r ∈ members st /\ distance st = adv hcr r.

Definition grouped (rs : list Route) (s : gmap Z clusterState * list Route) : Prop :=
  map_Forall (state_ok rs) s.1 /\
  (forall r, r ∈ s.2 -> r ∈ rs) /\
  (forall r, r ∈ rs -> r ∈ s.2 \/ exists k st, s.1 !! k = Some st /\ r ∈ members st).

Lemma state_ok_more rs x k st : state_ok rs k st -> state_ok (rs ++ [x]) k st.
Proof.
  intros (H1 & H2 & H3 & H4). do 2 (split; [done|]). split; [|done].
  eapply Forall_impl; [exact H3|]. intros r (Hr & ?). split; [apply elem_of_app; by left|done].
Qed.

Lemma grouped_normal rs x m n :
  grouped rs (m, n) -> grouped (rs ++ [x]) (m, n ++ [x]).
Proof.
  intros (H1 & H2 & H3). split; [|split]; cbn [fst snd] in *.
  - eapply map_Forall_impl; [exact H1|]. intros. by apply state_ok_more.
  - intros r [Hr|Hr]%elem_of_app; apply elem_of_app; [left; by apply H2|by right].
  - intros r [Hr|Hr]%elem_of_app.
    + destruct (H3 r Hr) as [?|?]; [left; apply elem_of_app; by left|by right].
    + left. apply elem_of_app. by right.
Qed.

Lemma grouped_member rs x c m n :
  clusters_ok -> c ∈ Clusters cfg -> containsRoute c x = true ->
  grouped rs (m, n) -> grouped (rs ++ [x]) (add_member rt hcr c x m, n).
Proof.
  intros Hok Hc Hx (H1 & H2 & H3). unfold add_member.
  set (st0 := default _ _). set (st := MkState _ _ _ _). cbn [fst snd] in *.
  assert (Hrule : rule st0 = c).
  { unfold st0. destruct (m !! cl_Start c) as [st1|] eqn:E; [|done]. simpl.
    destruct (H1 _ _ E) as (Hin & Es & _). by apply starts_unique. }
  assert (Hst : state_ok (rs ++ [x]) (cl_Start c) st).
  { unfold state_ok, st. cbn [rule members distance]. rewrite Hrule. split; [done|]. split; [done|].
    assert (Hmem : Forall (fun r => r ∈ rs ++ [x] /\ containsRoute c r = true /\ distance st0 <= adv hcr r)
                     (members st0) /\ (members st0 = [] -> distance st0 = adv hcr x) /\
                   (members st0 <> [] -> exists r, r ∈ members st0 /\ distance st0 = adv hcr r)).
    { unfold st0. destruct (m !! cl_Start c) as [st1|] eqn:E; simpl.
      - destruct (state_ok_more _ x _ _ (H1 _ _ E)) as (_ & _ & Hf & He).
        assert (Er : rule st1 = c) by exact Hrule.
        rewrite Er in Hf. split; [done|]. split; [|done]. intros Hnil. destruct He as (r & Hr & _).
        rewrite Hnil in Hr. by apply elem_of_nil in Hr.
      - split; [constructor|]. by split. }
    destruct Hmem as (Hf & Hnil & Hex). split.
    - apply Forall_app. split.
      + eapply Forall_impl; [exact Hf|]. intros r (? & ? & ?). split; [done|]. split; [done|]. case_if; zbool; lia.
      + constructor; [|constructor]. split; [apply elem_of_app; right; by apply list_elem_of_singleton|].
        split; [done|]. case_if; zbool; lia.
    - destruct (adv hcr x <? distance st0) eqn:Ed; [exists x; split; [apply elem_of_app; right; by apply list_elem_of_singleton|done]|].
      destruct (members st0) as [|y l] eqn:Em.
      + exists x. split; [by apply list_elem_of_singleton|by apply Hnil].
      + destruct (Hex ltac:(done)) as (r & Hr & Er). exists r. split; [apply elem_of_app; by left|done]. }
  split; [|split]; cbn [fst snd].
  - apply map_Forall_insert_2; [done|]. eapply map_Forall_impl; [exact H1|]. intros. by apply state_ok_more.
  - intros r Hr. apply elem_of_app. left. by apply H2.
  - intros r [Hr| ->%list_elem_of_singleton]%elem_of_app.
    + destruct (H3 r Hr) as [?|(k & s & Hs & Hin)]; [by left|right].
      destruct (decide (k = cl_Start c)) as [->|Hne].
      * exists (cl_Start c), st. split; [apply lookup_insert_eq|]. apply elem_of_app. left.
        unfold st0. by rewrite Hs.
      * exists k, s. by rewrite lookup_insert_ne.
    + right. exists (cl_Start c), st. split; [apply lookup_insert_eq|].
      apply elem_of_app. right. by apply list_elem_of_singleton.
Qed.

Lemma fold_grouped rs done_ s :
  clusters_ok -> grouped done_ s -> grouped (done_ ++ rs) (foldl (cluster_route rt cfg hcr) s rs).
Proof.
  intros Hok. revert done_ s. induction rs as [|x rs IH]; intros done_ [m n] Hg; cbn [foldl].
  { by rewrite app_nil_r. }
  replace (done_ ++ x :: rs) with ((done_ ++ [x]) ++ rs) by (by rewrite <- app_assoc).
  apply IH. unfold cluster_route. case_bool_decide; [|by apply grouped_normal].
  destruct (List.find _ _) as [c|] eqn:Ef; [|by apply grouped_normal].
  apply find_some in Ef as [Hc Hx]. apply list_elem_of_In in Hc. by apply grouped_member.
Qed.

Lemma sw_tuples : StrictWeak compareTuples.
Proof. apply (sw_proj RTMP.RangeStart), sw_Z. Qed.

Lemma contains_covers c r :
  containsRoute c r = true -> cl_Start c <= NetStart (rkey r) /\ NetEnd r <= cl_End c.
Proof. unfold containsRoute. intros. zbool. lia. Qed.

End Lemmas.

(** * Properties *)

Section Theorems.
Context {GS : GoSort} {MO : MapOrder}.

Lemma elem_of_build rt cfg hcr routes m n nt :
  foldl (cluster_route rt cfg hcr) (∅, []) routes = (m, n) ->
  nt ∈ buildRTMPTuplesWithClusters rt cfg hcr routes <->
  (exists r, r ∈ n /\ nt = route_tuple hcr r) \/
  (exists k st, m !! k = Some st /\ nt ∈ state_tuples hcr st).
Proof.
  intros E. unfold buildRTMPTuplesWithClusters. rewrite E, elem_of_sort_func by apply sw_tuples.
  rewrite elem_of_app. f_equiv.
  - rewrite list_elem_of_fmap. naive_solver.
  - split.
    + intros (l & Hl & Hnt)%elem_of_concat. apply list_elem_of_fmap in Hl as ([k st] & -> & Hin).
      rewrite map_range_perm in Hin. apply elem_of_map_to_list in Hin. by exists k, st.
    + intros (k & st & Hst & Hnt). apply elem_of_concat. exists (state_tuples hcr st).
      split; [|done]. apply list_elem_of_fmap. exists (k, st). split; [done|].
      rewrite map_range_perm. by apply elem_of_map_to_list.
Qed.

Lemma build_grouped rt cfg hcr routes m n :
  clusters_ok cfg -> foldl (cluster_route rt cfg hcr) (∅, []) routes = (m, n) ->
  grouped cfg hcr routes (m, n).
Proof.
  intros Hok <-. apply (fold_grouped rt cfg hcr routes [] (∅, [])); [done|].
  split; [apply map_Forall_empty|]. split; intros r Hr; cbn in Hr; by apply elem_of_nil in Hr.
Qed.

(** A tuple is that of a route, or of a cluster around one with its distance. *)
Definition tuple_of (cfg : AURPConfig) (hcr : bool) (nt : RTMP.NetworkTuple) (r : Route) : Prop :=
  nt = route_tuple hcr r \/
  exists c, c ∈ Clusters cfg /\ containsRoute c r = true /\
    nt = RTMP.MkTuple true (cl_Start c) (cl_End c) (adv hcr r).

Lemma tuple_of_covers cfg hcr nt r :
  tuple_of cfg hcr nt r -> covers nt r /\ RTMP.Distance nt = adv hcr r.
Proof.
  intros [-> |(c & _ & Hc & ->)]; (split; [|done]).
  - split; apply Z.le_refl.
  - by apply contains_covers.
Qed.

Lemma build_complete rt cfg hcr routes r :
  clusters_ok cfg -> r ∈ routes ->
  exists nt, nt ∈ buildRTMPTuplesWithClusters rt cfg hcr routes /\ covers nt r /\
    RTMP.Distance nt <= adv hcr r.
Proof.
  intros Hok Hr. destruct (foldl (cluster_route rt cfg hcr) (∅, []) routes) as [m n] eqn:E.
  destruct (build_grouped _ _ _ _ _ _ Hok E) as (H1 & H2 & H3). cbn [fst snd] in *.
  assert (Hself : covers (route_tuple hcr r) r) by (split; apply Z.le_refl).
  destruct (H3 r Hr) as [Hn|(k & st & Hst & Hmem)].
  - exists (route_tuple hcr r). split; [apply (elem_of_build _ _ _ _ _ _ _ E); left; by exists r|].
    split; [done|]. apply Z.le_refl.
  - destruct (H1 _ _ Hst) as (Hc & Hk & Hf & _). rewrite Forall_forall in Hf.
    destruct (Hf r Hmem) as (_ & Hcr & Hd). destruct (255 <? Z.of_nat (size (zones st))) eqn:Ez.
    + exists (route_tuple hcr r). split; [|split; [done|apply Z.le_refl]].
      apply (elem_of_build _ _ _ _ _ _ _ E). right. exists k, st. split; [done|].
      unfold state_tuples. rewrite Ez. apply list_elem_of_fmap. by exists r.
    + exists (RTMP.MkTuple true (cl_Start (rule st)) (cl_End (rule st)) (distance st)).
      split; [|split; [by apply contains_covers|done]].
      apply (elem_of_build _ _ _ _ _ _ _ E). right. exists k, st. split; [done|].
      unfold state_tuples. rewrite Ez. by apply list_elem_of_singleton.
Qed.

Lemma build_sound rt cfg hcr routes nt :
  clusters_ok cfg -> nt ∈ buildRTMPTuplesWithClusters rt cfg hcr routes ->
  exists r, r ∈ routes /\ tuple_of cfg hcr nt r.
Proof.
  intros Hok Hnt. destruct (foldl (cluster_route rt cfg hcr) (∅, []) routes) as [m n] eqn:E.
  destruct (build_grouped _ _ _ _ _ _ Hok E) as (H1 & H2 & _). cbn [fst snd] in *.
  destruct (proj1 (elem_of_build _ _ _ _ _ _ _ E) Hnt) as [(r & Hr & ->)|(k & st & Hst & Hnt')];
    clear Hnt; [|rename Hnt' into Hnt].
  { exists r. split; [by apply H2|by left]. }
  destruct (H1 _ _ Hst) as (Hc & Hk & Hf & r & Hr & Hd). rewrite Forall_forall in Hf.
  unfold state_tuples in Hnt. case_if_in Hnt.
  - apply list_elem_of_fmap in Hnt as (x & -> & Hx). exists x. split; [by apply (Hf x)|by left].
  - apply list_elem_of_singleton in Hnt as ->. exists r. destruct (Hf r Hr) as (Hin & Hcr & _).
    split; [done|]. right. exists (rule st). by rewrite <- Hd.
Qed.

Lemma build_plain rt cfg hcr routes :
  Clusters cfg = [] -> buildRTMPTuplesWithClusters rt cfg hcr routes ≡ₚ map (route_tuple hcr) routes.
Proof.
  intros Hnil. unfold buildRTMPTuplesWithClusters.
  assert (Hplain : forall l acc, foldl (cluster_route rt cfg hcr) (∅, acc) l = (∅, acc ++ l)).
  { induction l as [|x l IH]; intros acc; cbn [foldl]; [by rewrite app_nil_r|].
    unfold cluster_route at 2. rewrite Hnil. cbn [List.find].
    replace (if bool_decide _ then None else None) with (@None AURPClusterRule) by (by case_bool_decide).
    rewrite IH, <- app_assoc. done. }
  rewrite Hplain, sort_func_perm by apply sw_tuples. cbn [app].
  assert (Er : map_range (∅ : gmap Z clusterState) = []).
  { apply Permutation_nil_r. rewrite map_range_perm. by rewrite map_to_list_empty. }
  rewrite Er. cbn [map concat]. by rewrite app_nil_r.
Qed.

(** Summarising routes into clusters loses nothing and promises nothing
    that is not there.  With clusters as the configuration is checked to have
    them, the tuples built from a list of routes are ordered by network; every
    route lies within the range of a tuple that announces a distance no greater
    than its own; every tuple contains a route with exactly its distance; and
    without clusters the tuples are those of the routes. *)
Theorem cluster_tuples_cover (rt : RouteTable) (cfg : AURPConfig) (hcr : bool) (routes : list Route) :
  clusters_ok cfg ->
  let ts := buildRTMPTuplesWithClusters rt cfg hcr routes in
  Sorted (cmp_le compareTuples) ts /\
  (forall r, r ∈ routes -> exists nt, nt ∈ ts /\ covers nt r /\ RTMP.Distance nt <= adv hcr r) /\
  (forall nt, nt ∈ ts -> exists r, r ∈ routes /\ covers nt r /\ RTMP.Distance nt = adv hcr r) /\
  (Clusters cfg = [] -> ts ≡ₚ map (route_tuple hcr) routes).
Proof.
  intros Hok ts. split; [|split; [|split]].
  - unfold ts, buildRTMPTuplesWithClusters. case_match. apply sort_func_sorted, sw_tuples.
  - intros r Hr. by apply build_complete.
  - intros nt Hnt. destruct (build_sound _ _ _ _ _ Hok Hnt) as (r & Hr & Ht).
    exists r. split; [done|]. by apply (tuple_of_covers cfg).
  - apply build_plain.
Qed.

(** ZIP cannot name the zones of a clustered network that does not start
    its cluster.  [zonesForZIPNetworks] files the zones under the first number of
    the cluster, although the routes of a cluster with more than 255 zones are
    announced one by one. *)
Theorem zip_misses_cluster_member (cfg : AURPConfig) (rt : RouteTable) (now n : Z) (c : AURPClusterRule) :
  clusterForNetwork cfg n = Some c -> n <> cl_Start c ->
  zonesForZIPNetworks (Some cfg) rt now [n] !! n = None.
Proof.
  intros Hc Hn. unfold zonesForZIPNetworks, zones_for_network. cbn [foldl]. rewrite Hc.
  case_if; [|apply lookup_empty]. rewrite lookup_insert_ne by done. apply lookup_empty.
Qed.

End Theorems.

(** A cluster 20-30 with two routes behind a peer, another AURP route, and a
    network behind a local router. *)
#[local] Instance wit_sort : GoSort := insertion_sort.

Definition wit_route (t : RouteTarget) (a b d : Z) : Route :=
  {| rkey := {| TargetKey := RouteTargetKey t; NetStart := a |}; Extended := true; NetEnd := b;
     Target := Some t; Origin := routeOriginForTarget (Some t); Distance := d; LastSeen := 0;
     network_ptr := Some a; traffic := None |}.
Definition wit_routes : list Route :=
  [wit_route (AURPPeer (str "far")) 25 26 4; wit_route (EtherTalkPeer (str "en0") 3 9) 7 8 1;
   wit_route (AURPPeer (str "far")) 20 21 3; wit_route (AURPPeer (str "far")) 40 41 2].

Definition wit_cluster_config : AURPConfig :=
  {| LastHeardFromTimeout := 90; RetryInterval := 10; SendRetryLimit := 5; TickleRetryLimit := 10;
     ZoneInfoRetryInterval := 10; UpdateInterval := 10; HiddenNetworks := []; HopCountReduction := false;
     HopCountWeight := 0;
     RemapRules := [{| rr_Peer := str "far"; RemoteStart := 120; RemoteEnd := 130;
                       LocalStart := 20; LocalEnd := 30 |}];
     HiddenDevices := []; Clusters := [{| cl_Start := 20; cl_End := 30 |}]; BackupPeers := [];
     HiddenImportNetworks := []; HiddenExportNetworks := [] |}.

Example cluster_tuples_cover_witness :
  let ts := buildRTMPTuplesWithClusters NewRouteTable wit_cluster_config false wit_routes in
  Sorted (cmp_le compareTuples) ts /\
  (forall r, r ∈ wit_routes -> exists nt, nt ∈ ts /\ covers nt r /\ RTMP.Distance nt <= adv false r) /\
  (forall nt, nt ∈ ts -> exists r, r ∈ wit_routes /\ covers nt r /\ RTMP.Distance nt = adv false r) /\
  (Clusters wit_cluster_config = [] -> ts ≡ₚ map (route_tuple false) wit_routes).
Proof.
  apply (cluster_tuples_cover NewRouteTable wit_cluster_config false wit_routes).
  split; [repeat constructor|reflexivity].
Defined.

Example wit_summary :
  buildRTMPTuplesWithClusters NewRouteTable wit_cluster_config false wit_routes =
  [RTMP.MkTuple true 7 8 1; RTMP.MkTuple true 20 30 3; RTMP.MkTuple true 40 41 2].
Proof. vm_compute. reflexivity. Qed.

Example zip_misses_cluster_member_witness :
  zonesForZIPNetworks (Some wit_cluster_config) NewRouteTable 5 [25] !! 25 = None.
Proof.
  apply (zip_misses_cluster_member wit_cluster_config NewRouteTable 5 25 {| cl_Start := 20; cl_End := 30 |});
    [reflexivity|discriminate].
Defined.
