(* ===== verification/Rtmp.v ===== *)
(** * RTMP on an EtherTalk port ([router/rtmp.go]; [observeCableRange] and
      [observeCableConfig] of [router/seed.go])

    Answering requests, learning routes from other routers on the cable, and the
    periodic broadcast of the routing table.  The ticker of [RunRTMP] is left
    out: [broadcastRTMPData] is one broadcast.  A [*EtherTalkPort] is passed as
    the record of its fields when the handler starts; what the handler changes
    in the port is also written to the router's ports. *)
From S2P Require Import Prelude Wtacc AurpHeaders AurpTuples PeerPolicy GoSort RouteTable.
From S2P Require Import AtalkNbp Atalk AtalkRtmp AtalkZip RouteExport PeerState PeerZones DdpPolicy.
From S2P Require Import Seed LoopProbe Router Cluster.
Import RT Policy DDP Tunnel Router Cluster.

Module Rtmp.

(** [fmt.Errorf("...: %w", err)] of a failing call. *)
Definition wrapr (fmt : string) (m : R error) : R error :=
  err ← m; mret (match err with Some e => Some (Wrapf fmt [] e) | None => None end).

(** ** Evidence about the cable *)

Definition observe_port (start end_ : Z) (zone : list Z) (authority : bool) (now : Z) (p : Port) : Port :=
  match seed p with
  | None => p
  | Some s => port_with_seed (Some (Seed.observeRange start end_ authority zone now s)) p
  end.

(** The source is only logged. *)
Definition observeCableConfig (port : Port) (start end_ : Z) (zone : list Z) (authority : bool) : R unit :=
  n ← getw clock; modport (device port) (observe_port start end_ zone authority n).

Definition observeCableRange (port : Port) (start end_ : Z) (authority : bool) : R unit :=
  observeCableConfig port start end_ [] authority.

(** ** Building Data packets *)

Section Rtmp.
Context {GStr : GoStrings} {GS : GoSort} {MO : MapOrder} `{MT : Multitalk}.

(** The loop over the valid routes: those that are not on this port and, with
    split horizon, not behind it. *)
Fixpoint rtmp_routes (port : Port) (splitHorizon : bool) (rs : list Route) : res (list Route) :=
  match rs with
  | [] => Ok []
  | r :: rs =>
      match Target r with
      | None => Panic
      | Some t =>
          if bool_decide (RouteTargetKey t = RouteTargetKey (port_target port)) then
            rtmp_routes port splitHorizon rs
          else if splitHorizon && match t with EtherTalkPeer dev _ _ => bool_decide (dev = device port) | _ => false end
          then rtmp_routes port splitHorizon rs
          else kept ← rtmp_routes port splitHorizon rs; Ok (r :: kept)
      end
  end.

(** The tuples that still fit when [size] bytes are taken. *)
Fixpoint fitting (size : Z) (rem : list RTMP.NetworkTuple) : list RTMP.NetworkTuple :=
  match rem with
  | [] => []
  | nt :: rem =>
      let size := size + RTMP.NetworkTuple_Size nt in
      if DDPMaxDataSize <? size then [] else nt :: fitting size rem
  end.

(** [for len(rem) > 0]; without fuel it has not ended. *)
Fixpoint data_chunks (fuel : nat) (rem : list RTMP.NetworkTuple) : res (list (list RTMP.NetworkTuple)) :=
  match rem with
  | [] => Ok []
  | _ =>
      match fuel with
      | O => Panic
      | S fuel =>
          let chunk := fitting 10 rem in
          rest ← data_chunks fuel (drop (length chunk) rem);
          Ok (chunk :: rest)
      end
  end.

Definition no_config : AURPConfig :=
  {| LastHeardFromTimeout := 0; RetryInterval := 0; SendRetryLimit := 0; TickleRetryLimit := 0;
     ZoneInfoRetryInterval := 0; UpdateInterval := 0; HiddenNetworks := []; HopCountReduction := false;
     HopCountWeight := 0; RemapRules := []; HiddenDevices := []; Clusters := []; BackupPeers := [];
     HiddenImportNetworks := []; HiddenExportNetworks := [] |}.

Definition rtmpDataPackets (cfg : option AURPConfig) (rt : RouteTable) (now : Z) (port : Port)
    (splitHorizon : bool) : res (list RTMP.DataPacket) :=
  routes ← rtmp_routes port splitHorizon (ValidRoutes rt now);
  let cfg := default no_config cfg in
  let tuples := buildRTMPTuplesWithClusters rt cfg (HopCountReduction cfg) routes in
  let first := RTMP.MkTuple true (cableStart port) (cableEnd port) 0 in
  let packet chunk := RTMP.MkData (myAddr port) true (first :: chunk) in
  if zlen tuples =? 0 then Ok [packet []]
  else
    chunks ← data_chunks (length tuples) tuples;
    Ok (map packet chunks).

(** Send each Data packet with [send]; [mfmt] wraps a marshalling error. *)
Fixpoint send_data (mfmt : string) (send : list Z -> R error) (pkts : list RTMP.DataPacket) : R error :=
  match pkts with
  | [] => mret None
  | dataPkt :: pkts =>
      checkr (wrap_err mfmt [] (RTMP.DataPacket_Marshal dataPkt)) fail_with (fun raw =>
        attempt send raw;;
        send_data mfmt send pkts)
  end.

Definition broadcastRTMPData (port : Port) : R error :=
  match operationalRange port with
  | None => mret None
  | Some (start, end_) =>
      let port := match aarpAddress port with Some a => port_with_addr a port | None => port end in
      let port := setCableRange start end_ port in
      _ ← modport (device port) (fun p =>
            setCableRange start end_
              (match aarpAddress port with Some a => port_with_addr a p | None => p end));
      cfg ← getw config; rt ← getw table; n ← getw clock;
      checkr (rtmpDataPackets cfg rt n port true) fail_with (fun pkts =>
        send_data "marshal Data packet: %v" (fun raw =>
          emit (PortBroadcast (device port)
            (originate (myAddr port) 1 0 0xFF 1 ProtoRTMPResp raw))) pkts)
  end.

(** ** Zone queries *)

Definition maxZIPQueryNetworks : Z := 255.

Definition buildZIPQueryPackets (networks : list Z) : res (list (list Z)) :=
  if zlen networks =? 0 then Ok []
  else
    let networks := Zones.compact (sort_func Z.compare networks) in
    mapM (fun ns => wrap_err "marshal ZIP Query packet: %w" []
                      (ZIP.QueryPacket_Marshal (ZIP.MkQuery ns)))
      (Zones.split_networks (length networks) maxZIPQueryNetworks networks).

(** ** Handling packets *)

(** Install the tuples of a Data packet; the result is the networks without
    zones, or the error that stopped it. *)
Fixpoint learn_tuples (peer : RouteTarget) (nts : list RTMP.NetworkTuple) (noZones : list Z) :
    R (goerr + list Z) :=
  match nts with
  | [] => mret (inr noZones)
  | nt :: nts =>
      n ← getw clock;
      r ← on_table (UpsertRoute n peer (RTMP.Extended nt) (RTMP.RangeStart nt) (RTMP.RangeEnd nt)
                      (wrap8 (RTMP.Distance nt + 1)));
      match r with
      | Err e => mret (inl (Wrapf "upsert EtherTalk route: %v" [] e))
      | Panic => fun _ => None
      | Ok route =>
          rt ← getw table;
          learn_tuples peer nts
            (if bool_decide (ZoneNames (net_at rt (RTMP.RangeStart nt)) = ∅)
             then noZones ++ [NetStart (rkey route)] else noZones)
      end
  end.

(** Send each query to the router the Data packet came from. *)
Fixpoint send_queries (port : Port) (pkt : ExtPacket) (queries : list (list Z)) : R error :=
  match queries with
  | [] => mret None
  | q :: queries =>
      attempt wrapr "sending ZIP Query: %w"
        (emit (PortSend (device port)
          (originate (myAddr port) 6 (SrcNet pkt) (SrcNode pkt) 6 ProtoZIP q)));;
      send_queries port pkt queries
  end.

Definition handleLoopProbeReturn (port : Port) (token : list Z) : R unit :=
  m ← getw probes;
  let '(m', c) := Loop.handleLoopProbeReturn (device port) token m in
  _ ← modw (with_probes m');
  match c with
  | None => mret tt
  | Some i =>
      _ ← tally (Loop.peer i) confirmedRoutingLoops 1;
      modw (fun w => with_loopSignals (loopSignals w ++ [Loop.peer i]) w)
  end.

Definition rtmp_reply (port : Port) (pkt : ExtPacket) (raw : list Z) : ExtPacket :=
  originate (myAddr port) 1 (SrcNet pkt) (SrcNode pkt) 1 ProtoRTMPResp raw.

Definition handle_request (port : Port) (pkt : ExtPacket) (req : RTMP.RequestPacket) : R error :=
  let f := RTMP.Function_ req in
  if f =? RTMP.FunctionRequest then
    checkr (wrap_err "marshal RTMP Response packet: %w" []
              (RTMP.ResponsePacket_Marshal
                 (RTMP.MkResponse (myAddr port) true (cableStart port) (cableEnd port))))
      fail_with (fun raw => wrapr "send Response: %w" (Output (rtmp_reply port pkt raw)))
  else if (f =? RTMP.FunctionRDRSplitHorizon) || (f =? RTMP.FunctionRDRComplete) then
    cfg ← getw config; rt ← getw table; n ← getw clock;
    checkr (rtmpDataPackets cfg rt n port (f =? RTMP.FunctionRDRSplitHorizon)) fail_with (fun pkts =>
      send_data "marshal RTMP Data packet: %w"
        (fun raw => wrapr "send Data: %w" (Output (rtmp_reply port pkt raw))) pkts)
  else if f =? RTMP.FunctionLoopProbe then
    _ ← handleLoopProbeReturn port (RTMP.Data req); mret None
  else mret None.

Definition handle_data (port : Port) (pkt : ExtPacket) (dataPkt : RTMP.DataPacket) : R error :=
  _ ← match RTMP.NetworkTuples dataPkt with
      | [] => mret tt
      | first :: _ => observeCableRange port (RTMP.RangeStart first) (RTMP.RangeEnd first) false
      end;
  let peer := EtherTalkPeer (device port) (a_Network (RTMP.RouterAddr dataPkt))
                (a_Node (RTMP.RouterAddr dataPkt)) in
  r ← learn_tuples peer (RTMP.NetworkTuples dataPkt) [];
  match r with
  | inl e => fail_with e
  | inr noZones =>
      if 0 <? zlen noZones then
        checkr (buildZIPQueryPackets noZones) fail_with (fun queries => send_queries port pkt queries)
      else mret None
  end.

Definition HandleRTMP (port : Port) (pkt : ExtPacket) : R error :=
  if Proto pkt =? ProtoRTMPReq then
    match operationalRange port with
    | None => mret None
    | Some _ =>
        checkr (wrap_err "unmarshal Request packet: %w" [] (RTMP.UnmarshalRequestPacket (Data pkt)))
          fail_with (handle_request port pkt)
    end
  else if Proto pkt =? ProtoRTMPResp then
    checkr (wrap_err "unmarshal RTMP Data packet: %w" [] (RTMP.UnmarshalDataPacket (Data pkt)))
      fail_with (handle_data port pkt)
  else fail_with (Errorf "invalid DDP type %d on socket 1" [AInt (Proto pkt)]).

End Rtmp.
End Rtmp.
