(* ===== verification/Zip.v ===== *)
(** * ZIP on an EtherTalk port ([router/zip.go]; [seedAuthorityActive] of
      [router/seed.go])

    Zone queries and their replies, GetNetInfo, and zone lists over ATP.  The
    zone lists of a query are a Go map: the order in which it is ranged is that
    of [MapOrder].  Running out of fuel in [reply_chunks] would be a run that
    does not end. *)
From S2P Require Import Prelude Wtacc AurpHeaders AurpTuples PeerPolicy GoSort RouteTable.
From S2P Require Import AtalkNbp Atalk AtalkAtp AtalkZip RouteExport PeerState DdpPolicy.
From S2P Require Import Seed LoopProbe Router Cluster AtalkRtmp PeerZones Rtmp.
Import RT Policy DDP Tunnel Router Cluster.

Module ZipService.

Definition seedAuthorityActive (port : Port) : bool :=
  match seed port with Some s => Seed.activeAuthority s | None => false end.

Section Zip.
Context {GS : GoSort} {MO : MapOrder} `{MT : Multitalk}.

(** A reply to the sender of a packet. *)
Definition zip_reply (port : Port) (ddpkt : ExtPacket) (proto : Z) (raw : list Z) : ExtPacket :=
  originate (myAddr port) 6 (SrcNet ddpkt) (SrcNode ddpkt) (SrcSocket ddpkt) proto raw.

(** ** Queries *)

Definition sendReply (port : Port) (ddpkt : ExtPacket) (resp : ZIP.ReplyPacket) : R error :=
  checkr (wrap_err "couldn't marshal %T: %w" [] (ZIP.ReplyPacket_Marshal resp)) fail_with (fun raw =>
    emit (PortSend (device port) (zip_reply port ddpkt ProtoZIP raw))).

(** The bytes a list of zone names takes. *)
Definition names_size (zl : list (list Z)) : Z := foldl (fun size z => size + (3 + zlen z)) 0 zl.

Definition reply_size (networks : gmap Z (list (list Z))) : Z :=
  foldl (fun size e => size + names_size e.2) 2 (map_range networks).

(** The names that still fit. *)
Fixpoint names_fitting (size : Z) (rem : list (list Z)) : list (list Z) :=
  match rem with
  | [] => []
  | z :: rem =>
      let size := size + (3 + zlen z) in
      if DDPMaxDataSize <? size then [] else z :: names_fitting size rem
  end.

(** [for len(rem) > 0] for one network; [count] is [uint8(len(zl))]. *)
Fixpoint reply_chunks (fuel : nat) (port : Port) (ddpkt : ExtPacket) (nn count : Z)
    (rem : list (list Z)) : R error :=
  match rem with
  | [] => mret None
  | _ =>
      match fuel with
      | O => fun _ => None
      | S fuel =>
          let chunk := names_fitting 2 rem in
          attempt sendReply port ddpkt (ZIP.MkReply true count {[nn := chunk]});;
          reply_chunks fuel port ddpkt nn count (drop (length chunk) rem)
      end
  end.

Fixpoint extended_replies (port : Port) (ddpkt : ExtPacket) (nzs : list (Z * list (list Z))) : R error :=
  match nzs with
  | [] => mret None
  | (nn, zl) :: nzs =>
      attempt reply_chunks (length zl) port ddpkt nn (wrap8 (zlen zl)) zl;;
      extended_replies port ddpkt nzs
  end.

Definition handleZIPQuery (port : Port) (ddpkt : ExtPacket) (q : ZIP.QueryPacket) : R error :=
  cfg ← getw config; rt ← getw table; n ← getw clock;
  let networks := zonesForZIPNetworks cfg rt n
                    (ZIP.q_Networks q) in
  if reply_size networks <=? DDPMaxDataSize then
    sendReply port ddpkt (ZIP.MkReply false (wrap8 (Z.of_nat (size networks))) networks)
  else extended_replies port ddpkt (map_range networks).

(** [AddZonesToNetwork] never fails. *)
Fixpoint add_zone_lists (nzs : list (Z * list (list Z))) : R unit :=
  match nzs with
  | [] => mret tt
  | (n, zs) :: nzs =>
      now ← getw clock;
      _ ← on_table (fun rt => let '(rt, ns) := AddZonesToNetwork now n zs rt in Some (tt, rt, ns));
      add_zone_lists nzs
  end.

Definition handleZIPReply (p : ZIP.ReplyPacket) : R error :=
  _ ← add_zone_lists (map_range (ZIP.Networks p)); mret None.

(** ** GetNetInfo *)

Context {GStr : GoStrings}.

Definition netinfo_reply (port : Port) (zone : list Z) : ZIP.GetNetInfoReplyPacket :=
  let zoneValid := bool_decide (zone ∈ availableZones port) in
  ZIP.MkNetInfo (negb zoneValid) false (Z.of_nat (size (availableZones port)) =? 1)
    (cableStart port) (cableEnd port) zone
    (MulticastAddr (if zoneValid then zone else defaultZoneName port))
    (if zoneValid then [] else defaultZoneName port).

Definition handleZIPGetNetInfo (port : Port) (ddpkt : ExtPacket) (p : ZIP.GetNetInfoPacket) : R error :=
  if negb (seedAuthorityActive port) then mret None
  else
    checkr (wrap_err "couldn't marshal %T: %w" []
              (ZIP.GetNetInfoReplyPacket_Marshal (netinfo_reply port (ZIP.gi_ZoneName p)))) fail_with
      (fun raw =>
         let out := zip_reply port ddpkt ProtoZIP raw in
         let out := if DstNet ddpkt =? 0 then with_DstNet 0 out else out in
         let out := if DstNode ddpkt =? 0xFF then with_DstNode 0xFF out else out in
         emit (PortSend (device port) out)).

Definition handleGetNetInfoReply (port : Port) (p : ZIP.GetNetInfoReplyPacket) : R error :=
  let observedZone :=
    if ZIP.ZoneInvalid p && bool_decide (ZIP.DefaultZoneName p <> []) then ZIP.DefaultZoneName p
    else ZIP.ZoneName p in
  _ ← Rtmp.observeCableConfig port (ZIP.NetStart p) (ZIP.NetEnd p) observedZone true;
  mret None.

Definition handleZIPZIP (port : Port) (ddpkt : ExtPacket) : R error :=
  checkr (ZIP.UnmarshalPacket (Data ddpkt)) fail_with (fun p =>
    match p with
    | ZIP.PQuery q => handleZIPQuery port ddpkt q
    | ZIP.PReply r => handleZIPReply r
    | ZIP.PGetNetInfo i => handleZIPGetNetInfo port ddpkt i
    | ZIP.PGetNetInfoReply i => handleGetNetInfoReply port i
    end).

(** ** Zone lists over ATP *)

(** The zones of a list that fit a response, and whether that is all. *)
Fixpoint trim_zones (size : Z) (zs : list (list Z)) : list (list Z) * bool :=
  match zs with
  | [] => ([], true)
  | z :: zs =>
      let size := size + (1 + zlen z) in
      if ATP.MaxDataSize <? size then ([], false)
      else let '(page, last) := trim_zones size zs in (z :: page, last)
  end.

Definition zone_page (start : Z) (zones : list (list Z)) : list (list Z) * bool :=
  if zlen zones <? start then ([], true) else trim_zones 0 (drop (Z.to_nat (start - 1)) zones).

(** The zones a function asks for. *)
Definition asked_zones (port : Port) (rt : RouteTable) (f : Z) : list (list Z) :=
  if f =? ZIP.FunctionGetZoneList then AllZoneNames rt
  else if f =? ZIP.FunctionGetLocalZones then set_range (availableZones port)
  else if f =? ZIP.FunctionGetMyZone then [defaultZoneName port]
  else [].

Definition handleZIPTReq (port : Port) (ddpkt : ExtPacket) (treq : ATP.TReq) : R error :=
  checkr (ZIP.UnmarshalTReq (Some treq)) fail_with (fun gzl =>
    if ZIP.StartIndex gzl =? 0 then
      fail_with (Errorf "ZIP ATP: received request with StartIndex = 0 (invalid)" [])
    else
      let f := ZIP.Function_ gzl in
      if negb (seedAuthorityActive port) &&
         ((f =? ZIP.FunctionGetLocalZones) || (f =? ZIP.FunctionGetMyZone)) then mret None
      else
        rt ← getw table;
        let '(page, last) := zone_page (ZIP.StartIndex gzl) (asked_zones port rt f) in
        checkr (ZIP.MarshalTResp (ZIP.MkGetZonesReply (ZIP.gz_TID gzl) last page)) fail_with (fun resp =>
          checkr (ATP.TResp_Marshal resp) fail_with (fun body =>
            emit (PortSend (device port) (zip_reply port ddpkt ProtoATP body))))).

Definition handleZIPATP (port : Port) (ddpkt : ExtPacket) : R error :=
  checkr (ATP.UnmarshalPacket (Data ddpkt)) fail_with (fun p =>
    match p with
    | ATP.PTReq treq => handleZIPTReq port ddpkt treq
    | ATP.PTResp _ => fail_with (Errorf "TODO: support handling ZIP ATP replies?" [])
    | ATP.PTRel _ => fail_with (Errorf "unsupported ATP packet type %T for ZIP" [])
    end).

Definition HandleZIP (port : Port) (ddpkt : ExtPacket) : R error :=
  if Proto ddpkt =? ProtoATP then handleZIPATP port ddpkt
  else if Proto ddpkt =? ProtoZIP then handleZIPZIP port ddpkt
  else fail_with (Errorf "invalid DDP type %d on socket 6" [AInt (Proto ddpkt)]).

End Zip.
End ZipService.
