(* ===== verification/RouterSpec.v ===== *)
(** * Forwarding DDP packets: properties of module Router *)
From S2P Require Import Prelude Wtacc AurpHeaders AurpTuples PeerPolicy GoSort RouteTable.
From S2P Require Import RouteTableInv RouteTableOps RouteTableSpec.
From S2P Require Import AtalkNbp Atalk RouteExport PeerState DdpPolicy Seed LoopProbe Router.
Import RT Policy DDP Tunnel Router.

(** ** Running the monad *)

Lemma r_bind {A B} (m : R A) (f : A -> R B) w w' a :
  m w = Some (w', a) -> (m ≫= f) w = f a w'.
Proof. intros E. unfold mbind, R_bind. by rewrite E. Qed.

Lemma emit_ok e w : sends w = [] -> emit e w = Some (with_emitted (emitted w ++ [e]) w, None).
Proof. intros E. unfold emit. by rewrite E. Qed.

Section Spec.
Context {GStr : GoStrings} {GS : GoSort} `{MT : Multitalk}.

(** What accounting may change: the traffic counters of the table. *)
Definition counted (w w' : RW) : Prop :=
  (rtc rt_step (table w) (table w') /\
   forall n m, Lookup (table w') n m = Lookup (table w) n m) /\ ports w' = ports w /\ config w' = config w /\
  clock w' = clock w /\ emitted w' = emitted w /\ sends w' = sends w.

Lemma reachable_steps rt rt' : reachable rt -> rtc rt_step rt rt' -> reachable rt'.
Proof. intros H1 H2. unfold reachable. by etrans. Qed.

Lemma noteRouteTraffic_counted p dst ing w :
  exists w', noteRouteTraffic p dst ing w = Some (w', tt) /\ counted w w'.
Proof.
  assert (Hsame : counted w w) by done.
  unfold noteRouteTraffic. destruct p as [pk|]; [|by exists w].
  destruct (Zero dst); [by exists w|]. cbv zeta. case_if; [by exists w|].
  erewrite (r_bind (getw table)) by done. erewrite (r_bind (getw clock)) by done. cbv zeta.
  eexists. split; [reflexivity|]. split; [|done]. cbn [table with_table].
  split; [|by intros n m; unfold noteDDPBytesOut, noteDDPBytesIn; repeat case_match]. case_if.
  - eapply rtc_l; [apply step_bytes_in|]. apply rtc_once, step_bytes_out.
  - apply rtc_once, step_bytes_out.
Qed.

(** Handing a packet to the target of a route, and accounting for it. *)
Lemma forward_counted route t out ing w :
  Target route = Some t -> sends w = [] ->
  exists w',
    (forward_to route out ≫= fun err : error =>
       match err with
       | Some er => mret (Some er)
       | None => _ ← noteRouteTraffic (Some out) route ing; mret None
       end) w = Some (w', None) /\
    counted (with_emitted (emitted w ++ [TargetForward t out]) w) w' /\ tallies w' = tallies w.
Proof.
  intros Ht Hs. unfold forward_to. rewrite Ht. rewrite (r_bind _ _ _ _ _ (emit_ok _ w Hs)).
  cbv beta iota. set (w1 := with_emitted _ w).
  destruct (noteRouteTraffic_counted (Some out) route ing w1) as (w' & E & Hc).
  exists w'. rewrite (r_bind _ _ _ _ _ E). split; [done|]. split; [done|].
  clear Hc. revert E. unfold noteRouteTraffic.
  destruct (Zero route); [by intros [= <-]|]. case_if; [by intros [= <-]|].
  erewrite (r_bind (getw table)) by done. erewrite (r_bind (getw clock)) by done.
  by intros [= <-].
Qed.

(** ** Routes *)

Lemma stored_target rt r :
  rt_inv rt -> stored rt r ->
  exists t, Target r = Some t /\ TargetKey (rkey r) = RouteTargetKey t /\
    route_origin r = routeOriginForTarget (Some t).
Proof.
  intros Hinv [c Hr]. destruct (so_target _ _ _ (inv_stored rt Hinv _ _ _ Hr)) as (t & Ht & _ & Hk & Ho).
  exists t. split; [done|]. split; [done|]. unfold route_origin. rewrite Ht, Ho. by destruct (bool_decide _).
Qed.

(** A route that avoids a tunnel does not lead into it. *)
Lemma avoids_target rt r t id :
  rt_inv rt -> stored rt r -> Target r = Some t ->
  ~ (o_Kind (route_origin r) = RouteOriginAURP /\ o_ID (route_origin r) = id) -> t <> AURPPeer id.
Proof.
  intros Hinv Hr Ht Hn ->. destruct (stored_target rt r Hinv Hr) as (t' & Ht' & _ & Ho).
  rewrite Ht in Ht'. injection Ht' as <-. apply Hn. by rewrite Ho.
Qed.

(** The best valid route to [n] that does not lead into the tunnel [id]. *)
Definition avoiding (rt : RouteTable) (now : Z) (id : list Z) (r : Route) : Prop :=
  Valid rt now r = true /\
  ~ (o_Kind (route_origin r) = RouteOriginAURP /\ o_ID (route_origin r) = id).

Lemma LookupAvoiding_spec rt now n id :
  rt_inv rt -> id <> [] ->
  optimal rt n (avoiding rt now id) (LookupAvoidingAURPTunnel rt now n id).
Proof.
  intros Hinv Hid. eapply optimal_ext; [|by apply first_route_optimal].
  intros r. unfold avoiding. simpl. rewrite andb_true_iff, negb_true_iff.
  rewrite <- not_true_iff_false, !andb_true_iff, !bool_decide_eq_true. tauto.
Qed.

Lemma optimal_cases rt n p r :
  rt_inv rt -> optimal rt n p r ->
  (r = zero_route /\ Zero r = true /\ forall r', stored rt r' -> covers r' n -> ~ p r') \/
  (Zero r = false /\ stored rt r /\ covers r n /\ p r /\
   forall r', stored rt r' -> covers r' n -> p r' ->
     cmp_le compareRoutePreference r r' /\ Distance r <= Distance r').
Proof.
  intros Hinv [[-> H]|(H1 & H2 & H3 & H4)]; [by left|]. right.
  split; [by apply (stored_Zero rt Hinv)|done].
Qed.

Lemma stored_distance rt r : rt_inv rt -> stored rt r -> 0 <= Distance r <= 15.
Proof. intros Hinv [c Hr]. apply (so_dist _ _ _ (inv_stored rt Hinv _ _ _ Hr)). Qed.

(** The packet that leaves differs from the one that came in only in its
    checksum and its hop count. *)
Definition same_but_hops (pk out : ExtPacket) : Prop :=
  with_Cksum 0 (with_Size (Size pk) out) = with_Cksum 0 pk /\
  Z.land (Size out) 0x3FF = Z.land (Size pk) 0x3FF.

Lemma normalize_cases pk :
  exists out, normalizeAURPNBPFwdReqChecksum (Some pk) = Some out /\ (out = pk \/ out = with_Cksum 0 pk).
Proof.
  unfold normalizeAURPNBPFwdReqChecksum. case_if; [exists pk; auto|].
  destruct (NBP.Unmarshal (Data pk)); [|exists pk; auto..]. case_if; eexists; auto.
Qed.

Lemma prepare_cases pk route t :
  Target route = Some t ->
  exists out, prepareOutboundForRoute pk route = Ok out /\ (out = pk \/ out = with_Cksum 0 pk).
Proof.
  intros Ht. unfold prepareOutboundForRoute, target_class. rewrite Ht. cbn [fmap option_fmap option_map].
  case_if; [exists pk; auto|]. destruct (normalize_cases pk) as (out & -> & H). by exists out.
Qed.

Definition reduces (w : RW) : bool :=
  match config w with Some c => HopCountReduction c | None => false end.

(** Why a tunnelled packet is not forwarded. *)
Definition refused (w : RW) (ing : Ingress) (pk : ExtPacket) : Prop :=
  (exists c, config w = Some c /\ networkHidden c (DstNet pk) = true) \/
  exportNetworkHidden (in_timing ing) (in_ident ing) (DstNet pk) = true \/
  (forall r, stored (table w) r -> covers r (DstNet pk) ->
     ~ avoiding (table w) (clock w) (tunnelID (in_ident ing)) r) \/
  15 <= ddpHopCount pk \/
  (reduces w = true /\
   forall r, stored (table w) r -> covers r (DstNet pk) ->
     avoiding (table w) (clock w) (tunnelID (in_ident ing)) r -> Distance r = 15).

(** The hop count with which a packet leaves on a route. *)
Definition hops_out (w : RW) (pk : ExtPacket) (r : Route) : Z :=
  if reduces w && negb (bool_decide (target_class r = Some TargetClassAURPPeer))
  then Z.min (ddpHopCount pk) (15 - Distance r) else ddpHopCount pk.

Lemma reduce_cases pk r :
  u16 (Size pk) -> 0 <= Distance r <= 15 ->
  match reduceAURPHopCount pk r with
  | Ok (out, _) => ddpHopCount out = Z.min (ddpHopCount pk) (15 - Distance r) /\
      same_but_hops pk out /\ (ext_typed pk -> ext_typed out)
  | Err _ => 15 <= ddpHopCount pk \/ Distance r = 15
  | Panic => False
  end.
Proof.
  intros Hs Hd. pose proof (hops_bound pk). unfold reduceAURPHopCount, maxRouteDistance.
  repeat case_if; zbool; try lia; try (split; [lia|split; [split; [by destruct pk|done]|done]]).
  split; [rewrite setDDPHopCount_get by (done || lia); lia|].
  split; [split; [by destruct pk|apply setDDPHopCount_low; [done|lia]]|].
  intros Hp. apply setDDPHopCount_typed; [done|lia].
Qed.

(** The tail of [OutputFromAURP] once the packet is ready. *)
Lemma prepared_forward pk route t ing w :
  Target route = Some t -> sends w = [] ->
  exists w' out,
    checkr (prepareOutboundForRoute pk route) fail_with (fun outDDP =>
      attempt forward_to route outDDP;;
      _ ← noteRouteTraffic (Some outDDP) route ing; mret None) w = Some (w', None) /\
    (out = pk \/ out = with_Cksum 0 pk) /\
    counted (with_emitted (emitted w ++ [TargetForward t out]) w) w' /\ tallies w' = tallies w.
Proof.
  intros Ht Hs. destruct (prepare_cases pk route t Ht) as (out & E & Ho).
  destruct (forward_counted route t out ing w Ht Hs) as (w' & E' & Hc & Htl).
  exists w', out. rewrite E. split; [exact E'|]. split; [done|]. by split.
Qed.

Lemma tally_frame (b : bool) id c n w :
  exists w1, (if b then tally id c n else mret tt) w = Some (w1, tt) /\
    table w1 = table w /\ config w1 = config w /\ clock w1 = clock w /\
    emitted w1 = emitted w /\ sends w1 = sends w.
Proof. destruct b; by eexists. Qed.

(** What [OutputFromAURP] does with a packet it does not forward. *)
Lemma refuse_frame (b : bool) id c e w :
  exists w', (_ ← (if b then tally id c 1 else mret tt); fail_with e) w = Some (w', Some e) /\
    emitted w' = emitted w.
Proof.
  destruct (tally_frame b id c 1 w) as (w1 & E & _ & _ & _ & He & _). exists w1.
  by rewrite (r_bind _ _ _ _ _ E).
Qed.

Lemma same_but_hops_cksum pk p out :
  same_but_hops pk p -> out = p \/ out = with_Cksum 0 p ->
  same_but_hops pk out /\ ddpHopCount out = ddpHopCount p.
Proof. intros H [-> | ->]; done. Qed.

Lemma cleared_typed p out : ext_typed p -> out = p \/ out = with_Cksum 0 p -> ext_typed out.
Proof.
  intros Hp [-> | ->]; [done|]. destruct Hp as (? & ? & H). split; [done|]. split; [|exact H]. cbn. unfold u16. lia.
Qed.

Lemma route_for_tunnel w id pk :
  rt_inv (table w) -> id <> [] ->
  (exists e, outputRoute pk id (table w) (clock w) = Err e /\
    forall r, stored (table w) r -> covers r (DstNet pk) -> ~ avoiding (table w) (clock w) id r) \/
  (exists r t, outputRoute pk id (table w) (clock w) = Ok r /\ stored (table w) r /\
    Target r = Some t /\ t <> AURPPeer id /\
    optimal (table w) (DstNet pk) (avoiding (table w) (clock w) id) r).
Proof.
  intros Hinv Hid. pose proof (LookupAvoiding_spec (table w) (clock w) (DstNet pk) id Hinv Hid) as Ho.
  unfold outputRoute. rewrite bool_decide_eq_false_2 by done. cbv zeta.
  destruct (optimal_cases _ _ _ _ Hinv Ho) as [(E & Hz & Hn)|(Hz & Hst & Hcov & Hav & _)].
  - left. rewrite Hz. cbn [negb]. case_if; by eexists.
  - right. rewrite Hz. cbn [negb]. destruct (stored_target _ _ Hinv Hst) as (t & Ht & _ & _).
    exists (LookupAvoidingAURPTunnel (table w) (clock w) (DstNet pk) id), t. split; [done|].
    split; [done|]. split; [done|]. split; [|done].
    destruct Hav as [_ Hav]. by apply (avoids_target (table w) _ t id Hinv Hst Ht).
Qed.

(** The reduction step, and the refusals it adds. *)
Lemma ingress_reduction w ing pk r t :
  rt_inv (table w) -> u16 (Size pk) -> stored (table w) r -> Target r = Some t ->
  optimal (table w) (DstNet pk) (avoiding (table w) (clock w) (tunnelID (in_ident ing))) r ->
  match
    match config w with
    | Some c =>
        if HopCountReduction c && negb (bool_decide (Class_ t = TargetClassAURPPeer))
        then reduceAURPHopCount pk r else Ok (pk, false)
    | None => Ok (pk, false)
    end
  with
  | Ok (p, _) => (same_but_hops pk p /\ (ext_typed pk -> ext_typed p)) /\ ddpHopCount p = hops_out w pk r
  | Err _ => refused w ing pk
  | Panic => False
  end.
Proof.
  intros Hinv Hz Hst Ht Ho. unfold hops_out, reduces, target_class. rewrite Ht.
  cbn [fmap option_fmap option_map]. assert (Hself : same_but_hops pk pk) by by destruct pk; split.
  destruct (config w) as [c|] eqn:Ec; [|done].
  rewrite (bool_decide_ext (Some (Class_ t) = Some TargetClassAURPPeer)
    (Class_ t = TargetClassAURPPeer)) by (by split; [intros [=]|intros ->]).
  case_if; [|done]. pose proof (reduce_cases pk r Hz (stored_distance _ _ Hinv Hst)) as Hrd.
  destruct (reduceAURPHopCount pk r) as [[p ch]| |]; [tauto| |done].
  destruct Hrd as [?|Hd]; [by do 3 right; left|]. do 4 right.
  apply andb_prop in E as [E _]. split; [unfold reduces; by rewrite Ec|].
  intros r' Hst' Hcov' Hav'. destruct (optimal_cases _ _ _ _ Hinv Ho) as [(-> & Hzz & _)|H'].
  - by rewrite (stored_Zero (table w) Hinv _ Hst) in Hzz.
  - destruct H' as (_ & _ & _ & _ & H'). destruct (H' r' Hst' Hcov' Hav') as [_ Hle].
    pose proof (stored_distance _ _ Hinv Hst'). lia.
Qed.

Lemma from_aurp_cases (w : RW) (ing : Ingress) (pk : ExtPacket) :
  reachable (table w) -> sends w = [] -> ext_typed pk -> tunnelID (in_ident ing) <> [] ->
  exists w' e, OutputFromAURP ing pk w = Some (w', e) /\ reachable (table w') /\
    ((is_Some e /\ emitted w' = emitted w /\ refused w ing pk) \/
     (e = None /\ exists r t out,
        optimal (table w) (DstNet pk) (avoiding (table w) (clock w) (tunnelID (in_ident ing))) r /\
        Target r = Some t /\ t <> AURPPeer (tunnelID (in_ident ing)) /\
        exportNetworkHidden (in_timing ing) (in_ident ing) (DstNet pk) = false /\
        emitted w' = emitted w ++ [TargetForward t out] /\
        same_but_hops pk out /\ ext_typed out /\ ddpHopCount out = hops_out w pk r)).
Proof.
  intros Hr Hs Hp Hid. pose proof (reachable_inv _ Hr) as Hinv.
  assert (Hz : u16 (Size pk)) by apply Hp. unfold OutputFromAURP.
  erewrite (r_bind (getw config)) by done. erewrite (r_bind (getw table)) by done.
  erewrite (r_bind (getw clock)) by done. cbv zeta. set (id := tunnelID (in_ident ing)) in *.
  destruct (_ || exportNetworkHidden _ _ _) eqn:Eh.
  { exists w. eexists. split; [done|]. split; [done|]. left. split; [done|]. split; [done|].
    apply orb_prop in Eh as [Eh|Eh]; [|by right; left]. left.
    destruct (config w) as [c|]; [by exists c|done]. }
  apply orb_false_elim in Eh as [_ Eh]. set (best := Lookup _ _ _).
  destruct (route_for_tunnel w id pk Hinv Hid) as [(e & -> & Hn)|(r & t & -> & Hst & Ht & Hne & Ho)];
    cbn [checkr].
  { destruct (tally_frame (negb (Zero best) && from_tunnel best id) id reflectionDrops 1 w)
      as (w1 & E1 & Ht1 & _ & _ & He1 & _).
    exists w1, (Some e). rewrite (r_bind _ _ _ _ _ E1), Ht1. split; [done|]. split; [done|].
    left. split; [done|]. split; [done|]. right. right. by left. }
  unfold target_class at 1. rewrite Ht. cbn [fmap option_fmap option_map].
  match goal with |- context [if ?b then tally id alternativePathForwards 1 else _] =>
    destruct (tally_frame b id alternativePathForwards 1 w)
      as (w1 & E1 & Ht1 & Hc1 & Hk1 & He1 & Hs1) end.
  rewrite (r_bind _ _ _ _ _ E1). clear E1. case_if.
  { exists w1. eexists. rewrite Ht1. split; [done|]. split; [done|]. left. split; [done|].
    split; [done|]. do 3 right. left. apply andb_prop in E as [E _]. by apply Z.leb_le in E. }
  match goal with |- context [checkr ?x fail_with _] => set (red := x) end.
  pose proof (ingress_reduction w ing pk r t Hinv Hz Hst Ht Ho) as Hred. fold red in Hred.
  destruct red as [[p changed]|e|]; cbn [checkr]; [|exists w1, (Some e)|done].
  - destruct Hred as [[Hsb Hpt] Hh].
    destruct (tally_frame changed id hopCountReductions 1 w1) as (w2 & E2 & Ht2 & Hc2 & Hk2 & He2 & Hs2).
    rewrite (r_bind _ _ _ _ _ E2).
    destruct (prepared_forward p r t (Some (AURPPeer id)) w2 Ht) as (w' & out & E' & Hout & Hc & _);
      [congruence|].
    exists w', None. split; [exact E'|]. destruct Hc as ([Hrt _] & _ & _ & _ & He & _).
    cbn [table with_emitted] in Hrt. rewrite Ht2, Ht1 in Hrt.
    split; [by eapply reachable_steps|]. right. split; [done|].
    destruct (same_but_hops_cksum pk p out Hsb Hout) as [Hsb' Hh'].
    exists r, t, out. split; [done|]. split; [done|]. split; [done|]. split; [done|].
    split; [rewrite He; cbn [emitted with_emitted]; congruence|]. split; [done|].
    split; [eapply cleared_typed; [by apply Hpt|done]|congruence].
  - rewrite Ht1. split; [done|]. split; [done|]. left. by split; [eexists|].
Qed.


(** ** Counting hops *)

Lemma Output_exact w pk :
  reachable (table w) -> sends w = [] ->
  exists w' e, Output pk w = Some (w', e) /\ reachable (table w') /\
    ((is_Some e /\ w' = w /\
      forall r, stored (table w) r -> covers r (DstNet pk) -> Valid (table w) (clock w) r <> true) \/
     (e = None /\ exists r t out,
        optimal (table w) (DstNet pk) (fun r => Valid (table w) (clock w) r = true) r /\
        Target r = Some t /\ (out = pk \/ out = with_Cksum 0 pk) /\
        counted (with_emitted (emitted w ++ [TargetForward t out]) w) w')).
Proof.
  intros Hr Hs. pose proof (reachable_inv _ Hr) as Hinv. unfold Output.
  erewrite (r_bind (getw table)) by done. erewrite (r_bind (getw clock)) by done.
  unfold outputRoute. rewrite bool_decide_eq_true_2 by done. cbv zeta.
  pose proof (first_route_optimal (table w) (DstNet pk) (Valid (table w) (clock w)) Hinv) as Ho.
  change (first_route _ _) with (Lookup (table w) (clock w) (DstNet pk)) in Ho.
  destruct (optimal_cases _ _ _ _ Hinv Ho) as [(_ & Hz & Hn)|(Hz & Hst & _)]; rewrite Hz; cbn [checkr].
  - exists w. eexists. split; [done|]. split; [done|]. by left.
  - destruct (stored_target _ _ Hinv Hst) as (t & Ht & _ & _).
    destruct (prepared_forward pk _ t None w Ht Hs) as (w' & out & E & Hout & Hc & _).
    exists w', None. split; [exact E|]. split.
    { destruct Hc as ([Hrt _] & _). by eapply reachable_steps. }
    right. split; [done|]. by exists (Lookup (table w) (clock w) (DstNet pk)), t, out.
Qed.

(** One router forwards [pk] as [out]. *)
Definition hop (pk out : ExtPacket) : Prop :=
  exists w w' t, reachable (table w) /\ sends w = [] /\ Forward pk w = Some (w', None) /\
    emitted w' = emitted w ++ [TargetForward t out].

Lemma hop_counts pk out :
  ext_typed pk -> hop pk out ->
  ext_typed out /\ ddpHopCount out = ddpHopCount pk + 1 /\ same_but_hops pk out.
Proof.
  intros Hp (w & w' & t & Hr & Hs & E & Hem). assert (Hz : u16 (Size pk)) by apply Hp.
  pose proof (hops_bound pk) as Hb. revert E. unfold Forward. case_if; [done|]. zbool.
  unfold maxRouteDistance in E. unfold wrap16. rewrite Z.mod_small by lia.
  set (p := setDDPHopCount (ddpHopCount pk + 1) pk). intros E'.
  assert (Hp' : ext_typed p) by (apply setDDPHopCount_typed; [done|lia]).
  assert (Hh : ddpHopCount p = ddpHopCount pk + 1) by (apply setDDPHopCount_get; [done|lia]).
  destruct (Output_exact w p Hr Hs) as (w1 & e & E1 & _ & [([? He] & _)|(-> & r & t' & o & _ & _ & Ho & Hc)]);
    rewrite E1 in E'; [by injection E' as _ ->|]. injection E' as ->.
  destruct Hc as (_ & _ & _ & _ & He & _). rewrite Hem in He. cbn [emitted with_emitted] in He.
  apply app_inv_head in He as [= _ <-].
  destruct (same_but_hops_cksum pk p out) as [Hsb Hho];
    [split; [by destruct pk|apply setDDPHopCount_low; [done|lia]]|done|].
  split; [|by rewrite Hho]. by eapply cleared_typed.
Qed.

(** Every router on the way adds one hop and changes nothing else but a
    checksum it clears, so that after [n] routers the packet has [n] hops more
    and no packet is ever forwarded more than 15 times, whatever the routing
    tables say - a packet caught in a loop of routers dies. *)
Theorem hop_count_limits_forwarding (n : nat) (pk out : ExtPacket) :
  ext_typed pk -> nsteps hop n pk out ->
  ddpHopCount out = ddpHopCount pk + Z.of_nat n /\ Z.of_nat n <= 15 - ddpHopCount pk /\
  same_but_hops pk out.
Proof.
  intros Hp H. assert (Hind : ddpHopCount out = ddpHopCount pk + Z.of_nat n /\ same_but_hops pk out).
  { revert Hp. induction H as [pk|n pk mid out Hhop _ IH]; intros Hp; [split; [lia|by destruct pk; split]|].
    destruct (hop_counts pk mid Hp Hhop) as (Hm & Hh & Hsb). destruct (IH Hm) as [E Hsb'].
    split; [lia|]. destruct Hsb as [Hsb Hl], Hsb' as [Hsb' Hl']. split; [|congruence]. rewrite <- Hsb.
    transitivity (with_Size (Size pk) (with_Cksum 0 (with_Size (Size mid) out))); [done|].
    by rewrite Hsb'. }
  destruct Hind. pose proof (hops_bound out). split; [done|]. split; [lia|done].
Qed.
End Spec.

(** ** Witnesses *)

#[local] Instance wit_sort : GoSort := insertion_sort.
#[local] Instance wit_strings : GoStrings := ascii_strings.

Definition wit_router : RW :=
  {| table := wit_rt; ports := []; config := Some wit_config; clock := 5; emitted := [];
     sends := []; tallies := []; probes := Loop.MkProbes ∅ ∅; loopSignals := []; notes := [] |}.

(** A run that ends without an error, and what it emitted. *)
Definition clean (r : option (RW * error)) (out : list Emit) : Prop :=
  match r with Some (w', None) => emitted w' = out | _ => False end.

Lemma clean_run {r out} : clean r out -> exists w', r = Some (w', None) /\ emitted w' = out.
Proof. destruct r as [[w' [e|]]|]; [done| |done]. intros H. by exists w'. Qed.

Definition wit_ingress : Ingress :=
  {| in_ident := {| tunnelID := str "b"; ConfiguredAddr := [] |}; in_timing := wit_config |}.
Definition wit_pk : ExtPacket := MkExt (1024 + 14) 0 3 103 3 2 4 4 4 [7].

Lemma wit_pk_typed : ext_typed wit_pk.
Proof. const_widths. Qed.


Lemma wit_hop : hop wit_pk (setDDPHopCount 2 wit_pk).
Proof.
  destruct (clean_run (r := Forward wit_pk wit_router)
    (out := [TargetForward wit_gw (setDDPHopCount 2 wit_pk)])) as (w' & E & He);
    [vm_compute; reflexivity|].
  exists wit_router, w', wit_gw. split; [exact wit_reachable|]. split; [done|]. by split.
Qed.

Example hop_count_limits_forwarding_witness :
  ddpHopCount (setDDPHopCount 2 wit_pk) = ddpHopCount wit_pk + Z.of_nat 1 /\
  Z.of_nat 1 <= 15 - ddpHopCount wit_pk /\ same_but_hops wit_pk (setDDPHopCount 2 wit_pk).
Proof.
  apply (hop_count_limits_forwarding 1 wit_pk (setDDPHopCount 2 wit_pk) wit_pk_typed).
  by apply nsteps_once, wit_hop.
Defined.
