(* ===== verification/RtmpSpec.v ===== *)
(** * RTMP on a port: properties of module Rtmp *)
From S2P Require Import Prelude Wtacc AurpHeaders AurpTuples PeerPolicy GoSort RouteTable.
From S2P Require Import RouteTableInv RouteTableOps RouteTableSpec.
From S2P Require Import AtalkNbp Atalk AtalkRtmp AtalkZip RouteExport PeerState PeerZones DdpPolicy.
From S2P Require Import Seed LoopProbe Router Cluster Rtmp RouterSpec.
Import RT Policy DDP Tunnel Router Cluster Rtmp.

(** ** Chunks *)

Lemma zlen_write_tuple nt : zlen (RTMP.write_tuple nt) = RTMP.NetworkTuple_Size nt.
Proof. unfold RTMP.write_tuple, RTMP.NetworkTuple_Size. by destruct (RTMP.Extended nt). Qed.

(** The bytes some tuples take. *)
Definition tuple_bytes (nts : list RTMP.NetworkTuple) : Z := zlen (concat (map RTMP.write_tuple nts)).

Lemma tuple_bytes_nil : tuple_bytes [] = 0.
Proof. done. Qed.

Lemma tuple_bytes_cons nt nts : tuple_bytes (nt :: nts) = RTMP.NetworkTuple_Size nt + tuple_bytes nts.
Proof. unfold tuple_bytes. cbn [map concat]. by rewrite zlen_app, zlen_write_tuple. Qed.

Lemma fitting_spec size rem :
  size <= DDPMaxDataSize ->
  fitting size rem = take (length (fitting size rem)) rem /\
  size + tuple_bytes (fitting size rem) <= DDPMaxDataSize.
Proof.
  revert size. induction rem as [|nt rem IH]; intros size Hs; cbn [fitting].
  { rewrite tuple_bytes_nil. split; [done|lia]. }
  case_if; zbool; [rewrite tuple_bytes_nil; split; [done|lia]|]. destruct (IH (size + RTMP.NetworkTuple_Size nt) ltac:(lia)) as [H1 H2].
  cbn [length take]. rewrite tuple_bytes_cons. split; [by f_equal|lia].
Qed.

Lemma fitting_nonempty nt rem : exists c, fitting 10 (nt :: rem) = nt :: c.
Proof.
  cbn [fitting]. unfold DDPMaxDataSize, RTMP.NetworkTuple_Size.
  destruct (RTMP.Extended nt); zdec; by eexists.
Qed.

Lemma data_chunks_spec fuel rem :
  (length rem <= fuel)%nat ->
  exists cs, data_chunks fuel rem = Ok cs /\ concat cs = rem /\ (rem <> [] -> cs <> []) /\
    Forall (fun c => 10 + tuple_bytes c <= DDPMaxDataSize) cs.
Proof.
  revert rem. induction fuel as [|fuel IH]; intros [|nt rem] Hl; try (by exists []); [simpl in Hl; lia|].
  cbn [data_chunks]. destruct (fitting_nonempty nt rem) as [c Ec].
  destruct (fitting_spec 10 (nt :: rem)) as [H1 H2]; [done|].
  rewrite Ec in *. cbn [length drop] in *.
  destruct (IH (drop (length c) rem)) as (cs & -> & Hc & _ & Hf); [rewrite length_drop; lia|].
  cbn [mbind res_bind]. eexists. split; [done|]. split; [|split; [done|by constructor]].
  cbn [concat]. rewrite Hc. cbn [take] in H1. injection H1 as H1.
  rewrite H1 at 1. cbn [app]. by rewrite take_drop.
Qed.

Section Spec.
Context {GStr : GoStrings} {GS : GoSort} {MO : MapOrder} `{MT : Multitalk} {ML : MultitalkLaws}.

(** The routes that a broadcast on [port] reports. *)
Definition reported (port : Port) (splitHorizon : bool) (r : Route) : Prop :=
  exists t, Target r = Some t /\ RouteTargetKey t <> RouteTargetKey (port_target port) /\
    (splitHorizon = true -> forall net node, t <> EtherTalkPeer (device port) net node).

Lemma rtmp_routes_spec port sh rs :
  Forall (fun r => is_Some (Target r)) rs ->
  exists kept, rtmp_routes port sh rs = Ok kept /\
    forall r, r ∈ kept <-> r ∈ rs /\ reported port sh r.
Proof.
  induction 1 as [|r rs [t Ht] _ (kept & E & IH)]; cbn [rtmp_routes].
  { exists []. split; [done|]. intros r. split; [by intros ?%elem_of_nil|by intros [? _]]. }
  rewrite Ht, E. cbn [mbind res_bind].
  assert (Hskip : ~ reported port sh r -> forall x, x ∈ kept <-> x ∈ r :: rs /\ reported port sh x).
  { intros Hn x. rewrite IH, elem_of_cons. split; [tauto|]. intros [[-> |?] ?]; [done|tauto]. }
  case_bool_decide as Hk.
  { exists kept. split; [done|]. apply Hskip. intros (t' & Ht' & Hne & _). congruence. }
  case_if.
  - exists kept. split; [done|]. apply Hskip. intros (t' & Ht' & _ & Hb).
    rewrite Ht in Ht'. injection Ht' as <-. apply andb_true_iff in E0 as [-> Hd].
    destruct t as [| |dev net node]; [done..|]. apply bool_decide_eq_true in Hd as ->. by eapply (Hb eq_refl).
  - exists (r :: kept). split; [done|]. intros x. rewrite !elem_of_cons, IH.
    split; [|tauto]. intros [-> |?]; [|tauto]. split; [by left|].
    exists t. split; [done|]. split; [done|]. intros -> net node ->. simpl in E0.
    by rewrite bool_decide_true in E0.
Qed.

Lemma elem_of_ValidRoutes rt now r :
  rt_inv rt -> r ∈ ValidRoutes rt now <-> Valid rt now r = true /\ stored rt r.
Proof.
  intros Hinv. unfold ValidRoutes. rewrite !elem_of_app, !elem_of_ValidRoutesForClass. split.
  - intros H. assert (H' : Valid rt now r = true /\ exists c k, byClass rt !! (c, k) = Some r) by naive_solver.
    destruct H' as (Hv & c & k & Hr). split; [done|]. exists c.
    by rewrite (so_key _ _ _ (inv_stored rt Hinv _ _ _ Hr)).
  - intros (Hv & c & Hr). destruct c; naive_solver.
Qed.

(** A route list the packet format can express. *)
Definition reportable (rt : RouteTable) : Prop := forall r, stored rt r -> NetStart (rkey r) <> 0.

(** Clusters as [LoadConfig] leaves them, numbers being [uint16]. *)
Definition clusters_valid (cfg : AURPConfig) : Prop :=
  clusters_ok cfg /\ Forall (fun c => u16 (cl_Start c)) (Clusters cfg).

Lemma adv_range rt hcr r : rt_inv rt -> stored rt r -> 0 <= adv hcr r <= 15.
Proof.
  intros Hinv Hr. pose proof (stored_distance rt r Hinv Hr). unfold adv, rtmpAdvertisedDistance.
  case_if; lia.
Qed.

Lemma tuple_of_valid rt cfg hcr nt r :
  rt_inv rt -> clusters_valid cfg -> reportable rt -> stored rt r -> tuple_of cfg hcr nt r ->
  RTMP.nt_typed nt /\ RTMP.nt_valid nt.
Proof.
  intros Hinv [Hok Hu] Hrep Hr Ht. pose proof (adv_range rt hcr r Hinv Hr) as Hd.
  destruct Hr as [c Hr]. destruct (inv_stored rt Hinv _ _ _ Hr) as [_ _ _ Hrange Hext _].
  specialize (Hrep r ltac:(by exists c)). unfold RTMP.nt_typed, RTMP.nt_valid, u16, u8.
  destruct Ht as [-> |(cl & Hc & _ & ->)]; cbn.
  - split_and!; try lia. intros Hx. destruct (decide (NetStart (rkey r) = NetEnd r)) as [E|E]; [done|].
    by rewrite (Hext E) in Hx.
  - destruct Hok as [Hrules _]. rewrite Forall_forall in Hrules. specialize (Hrules cl Hc).
    rewrite Forall_forall in Hu. specialize (Hu cl Hc). unfold u16 in Hu. unfold cluster_rule_ok in Hrules. zbool. split_and!; try lia.
Qed.

(** What is known of one Data packet and its encoding. *)
Definition data_ok (port : Port) (dp : RTMP.DataPacket) (raw : list Z) : Prop :=
  RTMP.DataPacket_Marshal dp = Ok raw /\ zlen raw <= DDPMaxDataSize /\
  RTMP.UnmarshalDataPacket raw = Ok dp /\ RTMP.RouterAddr dp = myAddr port /\
  exists nts, RTMP.NetworkTuples dp = RTMP.MkTuple true (cableStart port) (cableEnd port) 0 :: nts.

Lemma packet_ok port chunk :
  RTMP.addr_typed (myAddr port) -> u16 (cableStart port) -> u16 (cableEnd port) -> cableStart port <> 0 ->
  Forall RTMP.nt_typed chunk -> Forall RTMP.nt_valid chunk ->
  10 + tuple_bytes chunk <= DDPMaxDataSize ->
  exists raw, data_ok port (RTMP.MkData (myAddr port) true
                (RTMP.MkTuple true (cableStart port) (cableEnd port) 0 :: chunk)) raw.
Proof.
  intros Ha Hs He Hz Ht Hv Hl. set (dp := RTMP.MkData _ _ _).
  eexists. split; [apply Marshal_data|]. split.
  - cbn [RTMP.dp_Extended RTMP.NetworkTuples dp RTMP.RouterAddr]. rewrite !zlen_app, zlen_put16.
    fold (tuple_bytes (RTMP.MkTuple true (cableStart port) (cableEnd port) 0 :: chunk)).
    rewrite tuple_bytes_cons. cbn [RTMP.NetworkTuple_Size RTMP.Extended]. rewrite !zlen_cons, zlen_nil. lia.
  - split; [|split; [done|by eexists]]. eapply data_roundtrip; [| |apply Marshal_data].
    + split; [done|]. constructor; [|done]. split; [done|]. split; [done|]. cbn. unfold u8. lia.
    + split; [constructor; [|done]; split; [done|]; by split|]. intros _. by eexists _, _.
Qed.

Lemma chunks_ok port cs :
  RTMP.addr_typed (myAddr port) -> u16 (cableStart port) -> u16 (cableEnd port) -> cableStart port <> 0 ->
  Forall RTMP.nt_typed (concat cs) -> Forall RTMP.nt_valid (concat cs) ->
  Forall (fun c => 10 + tuple_bytes c <= DDPMaxDataSize) cs ->
  exists raws, Forall2 (data_ok port) (map (fun chunk => RTMP.MkData (myAddr port) true
    (RTMP.MkTuple true (cableStart port) (cableEnd port) 0 :: chunk)) cs) raws.
Proof.
  intros Ha Hs He Hz. induction cs as [|c cs IH]; intros Ht Hv Hf; [by exists []|].
  cbn [concat] in *. apply Forall_app in Ht as [Ht1 Ht2]. apply Forall_app in Hv as [Hv1 Hv2].
  apply Forall_cons in Hf as [Hf1 Hf2]. destruct (IH Ht2 Hv2 Hf2) as [raws Hraws].
  destruct (packet_ok port c) as [raw Hraw]; [done..|]. exists (raw :: raws). by constructor.
Qed.

(** The tuples after the first of some Data packets. *)
Definition reports (pkts : list RTMP.DataPacket) : list RTMP.NetworkTuple :=
  concat (map (fun dp => tl (RTMP.NetworkTuples dp)) pkts).

Lemma packets_spec cfg rt now port sh :
  let cfg' := default no_config cfg in
  rt_inv rt -> clusters_valid cfg' -> reportable rt ->
  RTMP.addr_typed (myAddr port) -> u16 (cableStart port) -> u16 (cableEnd port) -> cableStart port <> 0 ->
  exists pkts raws, rtmpDataPackets cfg rt now port sh = Ok pkts /\ pkts <> [] /\
    Forall2 (data_ok port) pkts raws /\
    (forall r, Valid rt now r = true -> stored rt r -> reported port sh r ->
       exists nt, nt ∈ reports pkts /\ covers nt r /\ RTMP.Distance nt <= adv (HopCountReduction cfg') r) /\
    (forall nt, nt ∈ reports pkts ->
       exists r, Valid rt now r = true /\ stored rt r /\ reported port sh r /\ covers nt r /\
         RTMP.Distance nt = adv (HopCountReduction cfg') r).
Proof.
  intros cfg' Hinv Hok' Hrep Ha Hs He Hz. pose proof (proj1 Hok') as Hok. unfold rtmpDataPackets.
  destruct (rtmp_routes_spec port sh (ValidRoutes rt now)) as (kept & -> & Hkept).
  { apply Forall_forall. intros r [_ Hr]%elem_of_ValidRoutes; [|done].
    destruct (stored_target rt r Hinv Hr) as (t & -> & _). by eexists. }
  cbn [mbind res_bind]. fold cfg'. set (tuples := buildRTMPTuplesWithClusters _ _ _ _).
  assert (Hsound : forall nt, nt ∈ tuples -> exists r, Valid rt now r = true /\ stored rt r /\
                     reported port sh r /\ tuple_of cfg' (HopCountReduction cfg') nt r).
  { intros nt Hnt. destruct (build_sound _ _ _ _ _ Hok Hnt) as (r & Hr & Ht).
    apply Hkept in Hr as [[Hv Hst]%elem_of_ValidRoutes Hrp]; [|done]. by exists r. }
  assert (Hty : Forall RTMP.nt_typed tuples /\ Forall RTMP.nt_valid tuples).
  { rewrite !Forall_forall. split; intros nt (r & _ & Hst & _ & Ht)%Hsound;
      by apply (tuple_of_valid rt cfg' (HopCountReduction cfg') nt r). }
  destruct Hty as [Hty Hvl].
  destruct (data_chunks_spec (length tuples) tuples (Nat.le_refl _)) as (cs & Ecs & Hcat & Hne & Hfit).
  set (packet := fun chunk => RTMP.MkData (myAddr port) true
    (RTMP.MkTuple true (cableStart port) (cableEnd port) 0 :: chunk)).
  assert (Hcov : forall pkts, reports pkts = tuples ->
     (forall r, Valid rt now r = true -> stored rt r -> reported port sh r ->
       exists nt, nt ∈ reports pkts /\ covers nt r /\ RTMP.Distance nt <= adv (HopCountReduction cfg') r) /\
     (forall nt, nt ∈ reports pkts ->
       exists r, Valid rt now r = true /\ stored rt r /\ reported port sh r /\ covers nt r /\
         RTMP.Distance nt = adv (HopCountReduction cfg') r)).
  { intros pkts ->. split.
    - intros r Hv Hst Hrp. apply build_complete; [done|]. apply Hkept. split; [|done].
      by apply elem_of_ValidRoutes.
    - intros nt (r & Hv & Hst & Hrp & [Hc Hd]%tuple_of_covers)%Hsound. by exists r. }
  destruct (zlen tuples =? 0) eqn:E0.
  - zbool. assert (Hnil : tuples = []) by (destruct tuples; [done|rewrite zlen_cons in E0; pose proof (zlen_nonneg tuples); lia]).
    destruct (packet_ok port []) as [raw Hraw]; [done..|].
    exists [packet []], [raw]. split; [done|]. split; [done|]. split; [by constructor|].
    apply Hcov. by rewrite Hnil.
  - rewrite Ecs. cbn [mbind res_bind].
    destruct (chunks_ok port cs) as [raws Hraws]; [done..|by rewrite Hcat|by rewrite Hcat|done|].
    exists (map packet cs), raws. split; [done|]. split.
    { destruct cs; [|done]. exfalso. apply Hne; [|done]. by intros Hnil; rewrite Hnil in E0. }
    split; [done|]. apply Hcov. unfold reports. rewrite map_map.
    rewrite <- Hcat. f_equal. cbn [packet RTMP.NetworkTuples tl]. apply map_id.
Qed.

(** ** Broadcasts *)

Definition data_packet (port : Port) (raw : list Z) : ExtPacket :=
  originate (myAddr port) 1 0 0xFF 1 ProtoRTMPResp raw.

Lemma send_rtmp_data_ok mfmt port pkts raws w :
  sends w = [] -> Forall2 (data_ok port) pkts raws ->
  send_data mfmt (fun raw => emit (PortBroadcast (device port) (data_packet port raw))) pkts w
  = Some (with_emitted (emitted w ++ map (fun raw => PortBroadcast (device port) (data_packet port raw)) raws) w,
          None).
Proof.
  intros Hs Hall. revert w Hs. induction Hall as [|dp raw pkts raws (Hm & _) Hall IH]; intros w Hs.
  { cbn [send_data map]. rewrite app_nil_r. by destruct w. }
  cbn [send_data]. rewrite Hm. cbn [wrap_err checkr]. rewrite (r_bind _ _ _ _ _ (emit_ok _ w Hs)).
  cbv beta iota. rewrite IH by done. cbn [map emitted with_emitted]. by rewrite <- app_assoc.
Qed.

(** The port once a broadcast has brought it up to date. *)
Definition refreshed (s e : Z) (port : Port) : Port :=
  setCableRange s e (match aarpAddress port with Some a => port_with_addr a port | None => port end).


(** ** Learning routes *)

(** A tuple whose route is installed. *)
Definition near (nt : RTMP.NetworkTuple) : Prop :=
  RTMP.RangeStart nt <= RTMP.RangeEnd nt < 65535 /\ RTMP.Distance nt < maxRouteDistance.

(** The route under a key after the tuples have been installed. *)
Fixpoint announced (now : Z) (peer : RouteTarget) (nts : list RTMP.NetworkTuple)
    (s : Z) (old : option Route) (new : option Route) : Prop :=
  match nts with
  | [] => new = old
  | nt :: nts =>
      if RTMP.RangeStart nt =? s then
        exists tr, announced now peer nts s (Some (upsert_record now peer (RTMP.Extended nt) s
          (RTMP.RangeEnd nt) (RTMP.Distance nt + 1) tr)) new
      else announced now peer nts s old new
  end.

(** What installing routes leaves alone. *)
Definition only_table (w w' : RW) : Prop :=
  ports w' = ports w /\ config w' = config w /\ clock w' = clock w /\ emitted w' = emitted w /\
  sends w' = sends w /\ tallies w' = tallies w /\ probes w' = probes w /\ loopSignals w' = loopSignals w.

Lemma only_table_trans a b c : only_table a b -> only_table b c -> only_table a c.
Proof. unfold only_table. naive_solver congruence. Qed.

Lemma learn_one peer nt w :
  reachable (table w) -> RTMP.nt_typed nt -> RTMP.nt_valid nt -> near nt ->
  exists w1 tr,
    let r := upsert_record (clock w) peer (RTMP.Extended nt) (RTMP.RangeStart nt) (RTMP.RangeEnd nt)
               (RTMP.Distance nt + 1) tr in
    (forall nts noZones, learn_tuples peer (nt :: nts) noZones w =
       learn_tuples peer nts
         (noZones ++ if bool_decide (ZoneNames (net_at (table w1) (RTMP.RangeStart nt)) = ∅)
                     then [RTMP.RangeStart nt] else []) w1) /\
    reachable (table w1) /\ only_table w w1 /\
    byClass (table w1) = <[(Class_ peer, key_of peer (RTMP.RangeStart nt)) := r]> (byClass (table w)) /\
    (forall m, (exists r', stored (table w1) r' /\ RouteTableInv.covers r' m) ->
       ZoneNames (net_at (table w1) m) = ZoneNames (net_at (table w) m)).
Proof.
  intros Hreach (Hs & He & Hd) (Hz & _ & Hext) [Hr Hdist]. pose proof (reachable_inv _ Hreach) as Hinv.
  unfold u16, u8, maxRouteDistance in *.
  destruct (UpsertRoute_ok (table w) Hinv (clock w) peer (RTMP.Extended nt) (RTMP.RangeStart nt)
    (RTMP.RangeEnd nt) (RTMP.Distance nt + 1)) as (tr & rt' & notes' & E & Hinv' & _ & Hc & _ & Hzc & _);
    [lia|lia| |unfold maxRouteDistance; lia|].
  { intros Hne. destruct (RTMP.Extended nt); [done|]. by rewrite Hext in Hne. }
  exists (with_notes (notes w ++ notes') (with_table rt' w)), tr. cbn [table with_notes with_table]. split.
  - intros nts noZones. cbn [learn_tuples]. erewrite (r_bind (getw clock)) by done.
    rewrite wrap8_small by (unfold u8; lia).
    erewrite r_bind by (unfold on_table; rewrite E; reflexivity). cbv beta iota.
    erewrite (r_bind (getw table)) by done. cbn [table with_notes with_table rkey upsert_record NetStart key_of].
    case_bool_decide; [done|]. by rewrite app_nil_r.
  - split; [|split; [done|split; [done|]]].
    + eapply rtc_r; [exact Hreach|]. eapply (step_upsert (table w)); [..|exact E]; done || (unfold u8; lia).
    + intros m (r' & Hst & Hcov). destruct (Hzc m) as [_ Hch].
      destruct (decide (ZoneNames (net_at rt' m) = ZoneNames (net_at (table w) m))) as [?|Hne]; [done|].
      destruct (Hch Hne) as (_ & Hnil & _). exfalso.
      assert (Hin : r' ∈ Routes (net_at rt' m)) by (by apply (inv_index _ Hinv')).
      rewrite Hnil in Hin. by apply elem_of_nil in Hin.
Qed.

Definition key (peer : RouteTarget) (s : Z) : TargetClass * RouteKey := (Class_ peer, key_of peer s).

Lemma stored_key rt peer s :
  rt_inv rt -> is_Some (byClass rt !! key peer s) -> exists r, stored rt r /\ RouteTableInv.covers r s.
Proof.
  intros Hinv [r Hr]. destruct (inv_stored rt Hinv _ _ _ Hr) as [Hk _ _ Hrange _ _].
  exists r. split; [exists (Class_ peer); by rewrite Hk|]. unfold RouteTableInv.covers. rewrite Hk.
  cbn in *. lia.
Qed.

(** Installing acceptable tuples: the table afterwards, and the networks that
    are found without zones. *)
Lemma learn_all peer nts noZones w :
  reachable (table w) -> Forall RTMP.nt_typed nts -> Forall RTMP.nt_valid nts -> Forall near nts ->
  exists w' nz,
    (forall rest, learn_tuples peer (nts ++ rest) noZones w = learn_tuples peer rest (noZones ++ nz) w') /\
    reachable (table w') /\ only_table w w' /\
    (forall s, announced (clock w) peer nts s (byClass (table w) !! key peer s) (byClass (table w') !! key peer s)) /\
    (forall ck, (forall s, ck <> key peer s) -> byClass (table w') !! ck = byClass (table w) !! ck) /\
    (forall m, is_Some (byClass (table w) !! key peer m) ->
       ZoneNames (net_at (table w') m) = ZoneNames (net_at (table w) m)) /\
    (forall n, n ∈ nz <-> n ∈ map RTMP.RangeStart nts /\ ZoneNames (net_at (table w') n) = ∅).
Proof.
  revert noZones w. induction nts as [|nt nts IH]; intros noZones w Hreach Ht Hv Hn.
  { exists w, []. split; [intros rest; by rewrite app_nil_r|].
    do 5 (split; [done|]). intros n. cbn [map]. rewrite elem_of_nil. tauto. }
  apply Forall_cons in Ht as [Ht1 Ht]. apply Forall_cons in Hv as [Hv1 Hv]. apply Forall_cons in Hn as [Hn1 Hn].
  set (s0 := RTMP.RangeStart nt).
  destruct (learn_one peer nt w Hreach Ht1 Hv1 Hn1) as (w1 & tr & Hl1 & Hr1 & Ho1 & Hc1 & Hz1).
  set (hit := bool_decide (ZoneNames (net_at (table w1) s0) = ∅)) in *.
  destruct (IH (noZones ++ if hit then [s0] else []) w1 Hr1 Ht Hv Hn)
    as (w' & nz & Hl & Hr' & Ho' & Ha & Hother & Hz & Hnz).
  assert (Hs0 : byClass (table w1) !! key peer s0 = Some (upsert_record (clock w) peer (RTMP.Extended nt) s0
    (RTMP.RangeEnd nt) (RTMP.Distance nt + 1) tr)) by (rewrite Hc1; apply lookup_insert_eq).
  assert (Hkeep : forall ck, ck <> key peer s0 -> byClass (table w1) !! ck = byClass (table w) !! ck)
    by (intros ck Hck; rewrite Hc1; by apply lookup_insert_ne).
  assert (Hinj : forall s, s <> s0 -> key peer s <> key peer s0) by (intros s Hs [= E]; done).
  exists w', ((if hit then [s0] else []) ++ nz). split; [|split_and!].
  - intros rest. cbn [app]. rewrite Hl1. fold s0 hit. by rewrite Hl, app_assoc.
  - done.
  - by eapply only_table_trans.
  - intros s. cbn [announced]. fold s0. case_if; zbool.
    + subst s. exists tr. rewrite <- Hs0. replace (clock w) with (clock w1) by apply Ho1. apply Ha.
    + rewrite <- Hkeep by (apply Hinj; congruence). replace (clock w) with (clock w1) by apply Ho1. apply Ha.
  - intros ck Hck. rewrite Hother by done. by apply Hkeep.
  - intros m Hm. assert (Hm1 : is_Some (byClass (table w1) !! key peer m)).
    { destruct (decide (m = s0)) as [->|Hne]; [by rewrite Hs0|]. by rewrite Hkeep by (by apply Hinj). }
    rewrite Hz by done. apply Hz1. apply (stored_key _ peer); [by apply reachable_inv|done].
  - intros n. cbn [map]. fold s0. rewrite elem_of_app, elem_of_cons, Hnz.
    assert (E0 : ZoneNames (net_at (table w') s0) = ZoneNames (net_at (table w1) s0)) by (apply Hz; by rewrite Hs0).
    assert (Eh : n ∈ (if hit then [s0] else []) <-> n = s0 /\ ZoneNames (net_at (table w1) s0) = ∅).
    { subst hit. case_bool_decide; [rewrite list_elem_of_singleton; tauto|]. split; [by intros ?%elem_of_nil|tauto]. }
    rewrite Eh, <- E0. split; [naive_solver|]. intros [[-> |?] ?]; tauto.
Qed.

(** ** Zone queries *)

Lemma elem_of_compact l n : n ∈ Zones.compact l <-> n ∈ l.
Proof.
  induction l as [|a l IH]; [done|]. destruct l as [|b l]; [done|].
  cbn [Zones.compact] in *. case_if; zbool.
  - subst. rewrite IH, !elem_of_cons. tauto.
  - rewrite !elem_of_cons in *. rewrite IH. tauto.
Qed.

Lemma split_networks_spec fuel mx l :
  0 < mx -> (length l <= fuel)%nat ->
  concat (Zones.split_networks fuel mx l) = l /\
  Forall (fun c => zlen c <= mx) (Zones.split_networks fuel mx l).
Proof.
  intros Hmx. revert l. induction fuel as [|fuel IH]; intros l Hl; cbn [Zones.split_networks].
  { destruct l; [by split; [|constructor]|simpl in Hl; lia]. }
  case_if; zbool; [|destruct l; [by split; [|constructor]|rewrite zlen_cons in E; pose proof (zlen_nonneg l); lia]].
  set (n := Z.to_nat (Z.min (zlen l) mx)).
  destruct (IH (drop n l)) as [H1 H2]; [rewrite length_drop; unfold n, zlen in *; lia|].
  cbn [concat]. rewrite H1, take_drop. split; [done|]. constructor; [|done].
  rewrite zlen_take. unfold n. lia.
Qed.

Definition query_for (n : list Z) (raw : list Z) : Prop :=
  ZIP.QueryPacket_Marshal (ZIP.MkQuery n) = Ok raw /\ ZIP.UnmarshalQueryPacket raw = Ok (ZIP.MkQuery n).

Lemma queries_spec networks :
  Forall u16 networks ->
  exists nss raws, buildZIPQueryPackets networks = Ok raws /\ Forall2 query_for nss raws /\
    forall n, n ∈ concat nss <-> n ∈ networks.
Proof.
  intros Ht. unfold buildZIPQueryPackets. case_if; zbool.
  { exists [], []. split; [done|]. split; [constructor|]. destruct networks; [done|].
    rewrite zlen_cons in E. pose proof (zlen_nonneg networks). lia. }
  set (ns := Zones.compact _).
  assert (Hns : forall n, n ∈ ns <-> n ∈ networks).
  { intros n. unfold ns. rewrite elem_of_compact. apply elem_of_sort_func, sw_Z. }
  destruct (split_networks_spec (length ns) maxZIPQueryNetworks ns) as [Hc Hf]; [done|done|].
  set (nss := Zones.split_networks _ _ _) in *.
  assert (Hty : Forall u16 (concat nss)).
  { rewrite Hc. apply Forall_forall. intros n Hn%Hns. rewrite Forall_forall in Ht. by apply Ht. }
  exists nss. clearbody nss. rewrite <- Hc in Hns. clear Hc.
  assert (Hm : exists raws, mapM (fun ns => wrap_err "marshal ZIP Query packet: %w" []
            (ZIP.QueryPacket_Marshal (ZIP.MkQuery ns))) nss = Ok raws /\ Forall2 query_for nss raws).
  { clear Hns. induction nss as [|c nss IH]; [by exists []|].
    apply Forall_cons in Hf as [Hf1 Hf]. cbn [concat] in Hty. apply Forall_app in Hty as [Ht1 Ht2].
    destruct (IH Hf Ht2) as (raws & E1 & E2). pose proof (query_bytes (ZIP.MkQuery c) Hf1) as Eq.
    eexists (_ :: raws). cbn [mapM]. rewrite Eq. cbn [wrap_err mbind res_bind]. rewrite E1. cbn [mbind res_bind].
    split; [reflexivity|]. constructor; [|done]. split; [done|]. by apply query_roundtrip. }
  destruct Hm as (raws & E1 & E2). by exists raws.
Qed.

Definition query_packet (port : Port) (pkt : ExtPacket) (raw : list Z) : ExtPacket :=
  originate (myAddr port) 6 (SrcNet pkt) (SrcNode pkt) 6 ProtoZIP raw.

Lemma send_queries_ok port pkt raws w :
  sends w = [] ->
  send_queries port pkt raws w =
    Some (with_emitted (emitted w ++ map (fun raw => PortSend (device port) (query_packet port pkt raw)) raws) w,
          None).
Proof.
  revert w. induction raws as [|raw raws IH]; intros w Hs; cbn [send_queries].
  { cbn [map]. rewrite app_nil_r. by destruct w. }
  assert (E : wrapr "sending ZIP Query: %w" (emit (PortSend (device port) (query_packet port pkt raw))) w
    = Some (with_emitted (emitted w ++ [PortSend (device port) (query_packet port pkt raw)]) w, None)).
  { unfold wrapr. by rewrite (r_bind _ _ _ _ _ (emit_ok _ w Hs)). }
  rewrite (r_bind _ _ _ _ _ E). cbv beta iota. rewrite IH by done.
  cbn [map emitted with_emitted]. by rewrite <- app_assoc.
Qed.

(** The state once the cable range of a Data packet has been observed. *)
Definition observed (port : Port) (dp : RTMP.DataPacket) (w : RW) : RW :=
  match RTMP.NetworkTuples dp with
  | [] => w
  | first :: _ =>
      with_ports (map (fun p => if bool_decide (device p = device port)
        then observe_port (RTMP.RangeStart first) (RTMP.RangeEnd first) [] false (clock w) p else p) (ports w)) w
  end.

Definition data_peer (port : Port) (dp : RTMP.DataPacket) : RouteTarget :=
  EtherTalkPeer (device port) (a_Network (RTMP.RouterAddr dp)) (a_Node (RTMP.RouterAddr dp)).

Lemma handle_data_eq port pkt dp w :
  handle_data port pkt dp w =
    (r ← learn_tuples (data_peer port dp) (RTMP.NetworkTuples dp) [];
     match r with
     | inl e => fail_with e
     | inr noZones =>
         if 0 <? zlen noZones then
           checkr (buildZIPQueryPackets noZones) fail_with (fun queries => send_queries port pkt queries)
         else mret None
     end) (observed port dp w).
Proof. unfold handle_data, observed. by destruct (RTMP.NetworkTuples dp). Qed.

Lemma HandleRTMP_data port pkt dp w :
  Proto pkt = ProtoRTMPResp -> RTMP.UnmarshalDataPacket (Data pkt) = Ok dp ->
  HandleRTMP port pkt w = handle_data port pkt dp w.
Proof.
  intros Hp E. unfold HandleRTMP. pose proof Proto_distinct as Hd. rewrite Hp, E, Z.eqb_refl.
  destruct (Z.eqb_spec ProtoRTMPResp ProtoRTMPReq) as [Eq|_]; [|done].
  rewrite Eq in Hd. by apply NoDup_cons in Hd as [[]%not_elem_of_cons _]; set_solver.
Qed.

Lemma observed_frame port dp w :
  table (observed port dp w) = table w /\ sends (observed port dp w) = sends w /\
  clock (observed port dp w) = clock w /\ emitted (observed port dp w) = emitted w.
Proof. unfold observed. by destruct (RTMP.NetworkTuples dp). Qed.

Lemma learn_start port pkt dp w :
  bytes_ok (Data pkt) -> Proto pkt = ProtoRTMPResp -> RTMP.UnmarshalDataPacket (Data pkt) = Ok dp ->
  HandleRTMP port pkt w = handle_data port pkt dp w /\
  Forall RTMP.nt_typed (RTMP.NetworkTuples dp) /\ Forall RTMP.nt_valid (RTMP.NetworkTuples dp).
Proof.
  intros Hb Hp E. split; [by apply HandleRTMP_data|].
  pose proof (UnmarshalData_safe (Data pkt) Hb) as H. rewrite E in H. by destruct H as [[_ ?] [? _]].
Qed.

(** What a router learns from an RTMP Data packet of a neighbour.  When every
    tuple is within the hop limit and ends below 65535, handling it returns; under
    each announced network the table holds the route of the last tuple that
    announced it, through that neighbour and one hop further; routes under other
    keys are as before; and the networks that the ZIP queries then sent to the
    sender ask for are exactly the announced ones that have no zones. *)
Theorem rtmp_data_learned (port : Port) (pkt : ExtPacket) (dp : RTMP.DataPacket) (w : RW) :
  reachable (table w) -> sends w = [] -> bytes_ok (Data pkt) -> Proto pkt = ProtoRTMPResp ->
  RTMP.UnmarshalDataPacket (Data pkt) = Ok dp -> Forall near (RTMP.NetworkTuples dp) ->
  let peer := data_peer port dp in
  let nts := RTMP.NetworkTuples dp in
  exists w' nss raws,
    HandleRTMP port pkt w = Some (w', None) /\ reachable (table w') /\
    (forall s, announced (clock w) peer nts s (byClass (table w) !! key peer s) (byClass (table w') !! key peer s)) /\
    (forall ck, (forall s, ck <> key peer s) -> byClass (table w') !! ck = byClass (table w) !! ck) /\
    Forall2 query_for nss raws /\
    emitted w' = emitted w ++ map (fun raw => PortSend (device port) (query_packet port pkt raw)) raws /\
    (forall n, n ∈ concat nss <-> n ∈ map RTMP.RangeStart nts /\ ZoneNames (net_at (table w') n) = ∅).
Proof.
  intros Hreach Hs Hb Hp E Hnear peer nts.
  destruct (learn_start port pkt dp w Hb Hp E) as (-> & Ht & Hv). rewrite handle_data_eq.
  destruct (observed_frame port dp w) as (Et & Es & Ec & Ee). set (w0 := observed port dp w) in *.
  destruct (learn_all peer nts [] w0) as (w1 & nz & Hl & Hr1 & Ho & Ha & Hother & _ & Hnz);
    [by rewrite Et|done..|].
  specialize (Hl []). rewrite app_nil_r in Hl. cbn [app learn_tuples] in Hl.
  rewrite (r_bind _ _ _ _ _ Hl). rewrite Et in *. rewrite Ec in *.
  destruct Ho as (_ & _ & _ & Eem & Ese & _).
  assert (Hnt : Forall u16 nz).
  { apply Forall_forall. intros n (Hn & _)%Hnz. apply list_elem_of_fmap in Hn as (nt & -> & Hin).
    rewrite Forall_forall in Ht. by destruct (Ht nt Hin). }
  destruct (queries_spec nz Hnt) as (nss & raws & Eb & Hq & Hnss).
  destruct (0 <? zlen nz) eqn:E0.
  - exists (with_emitted (emitted w1 ++ map (fun raw => PortSend (device port) (query_packet port pkt raw)) raws) w1),
      nss, raws. rewrite Eb. cbn [checkr]. rewrite send_queries_ok by congruence.
    split; [done|]. split; [done|]. split; [done|]. split; [done|]. split; [done|]. split; [|].
    + cbn [emitted with_emitted]. by rewrite Eem, Ee.
    + intros n. by rewrite Hnss, Hnz.
  - assert (nz = []) as -> by (zbool; destruct nz; [done|rewrite zlen_cons in E0; pose proof (zlen_nonneg nz); lia]).
    exists w1, [], []. split; [done|]. split; [done|]. split; [done|]. split; [done|]. split; [constructor|].
    split; [cbn [map]; rewrite app_nil_r; congruence|]. intros n. rewrite <- Hnz. done.
Qed.

(** A tuple at the hop limit, the way a neighbour announces that a network
    is gone, ends the handling of a Data packet with an error: only the tuples
    before it count, whatever follows is ignored, no zones are asked for, and a
    route to the lost network through that neighbour stays as it was. *)
Theorem rtmp_far_tuple_stops (port : Port) (pkt : ExtPacket) (dp : RTMP.DataPacket) (w : RW)
    (pre post : list RTMP.NetworkTuple) (far : RTMP.NetworkTuple) :
  reachable (table w) -> bytes_ok (Data pkt) -> Proto pkt = ProtoRTMPResp ->
  RTMP.UnmarshalDataPacket (Data pkt) = Ok dp -> RTMP.NetworkTuples dp = pre ++ far :: post ->
  Forall near pre -> RTMP.RangeStart far <= RTMP.RangeEnd far -> maxRouteDistance <= RTMP.Distance far ->
  let peer := data_peer port dp in
  exists w' e,
    HandleRTMP port pkt w = Some (w', Some e) /\ emitted w' = emitted w /\
    (forall s, announced (clock w) peer pre s (byClass (table w) !! key peer s) (byClass (table w') !! key peer s)) /\
    (RTMP.RangeStart far ∉ map RTMP.RangeStart pre ->
       byClass (table w') !! key peer (RTMP.RangeStart far) = byClass (table w) !! key peer (RTMP.RangeStart far)).
Proof.
  intros Hreach Hb Hp E Ents Hnear Hrange Hfar peer.
  destruct (learn_start port pkt dp w Hb Hp E) as (-> & Ht & Hv). rewrite handle_data_eq.
  destruct (observed_frame port dp w) as (Et & Es & Ec & Ee). set (w0 := observed port dp w) in *.
  rewrite Ents in Ht, Hv |- *. apply Forall_app in Ht as [Ht1 Ht2]. apply Forall_app in Hv as [Hv1 Hv2].
  apply Forall_cons in Ht2 as [(_ & _ & Hd) _]. apply Forall_cons in Hv2 as [(_ & Hlt & Hext) _].
  destruct (learn_all peer pre [] w0) as (w1 & nz & Hl & _ & Ho & Ha & Hother & _ & _); [by rewrite Et|done..|].
  rewrite Et in *. rewrite Ec in *. specialize (Hl (far :: post)).
  assert (Estop : exists e, learn_tuples peer (far :: post) ([] ++ nz) w1 = Some (w1, inl e)).
  { cbn [learn_tuples]. erewrite (r_bind (getw clock)) by done. unfold u8 in Hd.
    rewrite wrap8_small by (unfold u8; lia).
    assert (Eu : exists e, UpsertRoute (clock w1) peer (RTMP.Extended far) (RTMP.RangeStart far)
       (RTMP.RangeEnd far) (RTMP.Distance far + 1) (table w1) = Some (Err e, table w1, [])).
    { unfold UpsertRoute. zdec.
      replace (negb (RTMP.RangeStart far =? RTMP.RangeEnd far) && negb (RTMP.Extended far)) with false.
      { zdec. by eexists. }
      destruct (RTMP.Extended far) eqn:Ex; [by rewrite andb_false_r|]. rewrite (Hext eq_refl). by rewrite Z.eqb_refl. }
    destruct Eu as [e Eu]. eexists. erewrite r_bind by (unfold on_table; rewrite Eu; reflexivity).
    cbv beta iota. unfold mret, R_ret. rewrite app_nil_r. by destruct w1. }
  destruct Estop as [e Estop]. rewrite Estop in Hl. rewrite (r_bind _ _ _ _ _ Hl).
  exists w1, e. split; [done|]. split; [destruct Ho as (_ & _ & _ & Eem & _); congruence|].
  split; [done|]. intros Hnin. specialize (Ha (RTMP.RangeStart far)). revert Hnin Ha. clear.
  generalize (byClass (table w) !! key peer (RTMP.RangeStart far)).
  induction pre as [|nt pre IH]; intros old Hnin Ha; [done|].
  cbn [announced map] in *. apply not_elem_of_cons in Hnin as [Hne Hnin].
  destruct (Z.eqb_spec (RTMP.RangeStart nt) (RTMP.RangeStart far)); [congruence|]. by apply IH.
Qed.

(** One Data packet stops a port for good: a tuple that is within the hop
    limit and whose range ends at 65535 makes the [uint16] loop of [UpsertRoute]
    run forever, while it holds the lock of the route table. *)
Theorem rtmp_65535_hangs (port : Port) (pkt : ExtPacket) (dp : RTMP.DataPacket) (w : RW)
    (pre post : list RTMP.NetworkTuple) (bad : RTMP.NetworkTuple) :
  reachable (table w) -> bytes_ok (Data pkt) -> Proto pkt = ProtoRTMPResp ->
  RTMP.UnmarshalDataPacket (Data pkt) = Ok dp -> RTMP.NetworkTuples dp = pre ++ bad :: post ->
  Forall near pre -> RTMP.RangeEnd bad = 65535 -> RTMP.Distance bad < maxRouteDistance ->
  HandleRTMP port pkt w = None.
Proof.
  intros Hreach Hb Hp E Ents Hnear Hend Hd.
  destruct (learn_start port pkt dp w Hb Hp E) as (-> & Ht & Hv). rewrite handle_data_eq.
  destruct (observed_frame port dp w) as (Et & _). set (w0 := observed port dp w) in *.
  rewrite Ents in Ht, Hv |- *. apply Forall_app in Ht as [Ht1 Ht2]. apply Forall_app in Hv as [Hv1 Hv2].
  apply Forall_cons in Ht2 as [(Hs & _ & Hd8) _]. apply Forall_cons in Hv2 as [(_ & _ & Hext) _].
  destruct (learn_all (data_peer port dp) pre [] w0) as (w1 & nz & Hl & Hr1 & _); [by rewrite Et|done..|].
  specialize (Hl (bad :: post)). unfold mbind, R_bind at 1. rewrite Hl. unfold maxRouteDistance, u8 in *.
  cbn [learn_tuples]. erewrite (r_bind (getw clock)) by done. rewrite wrap8_small by (unfold u8; lia).
  unfold mbind at 1, R_bind at 1, on_table. rewrite Hend.
  rewrite upsert_diverges; [done|by apply reachable_inv|done| |unfold maxRouteDistance; lia].
  intros Hne. destruct (RTMP.Extended bad); [done|]. rewrite Hend in Hext. by specialize (Hext eq_refl).
Qed.

(** ** Loop probes *)

Lemma handle_probe port pkt token :
  handle_request port pkt (RTMP.MkRequest RTMP.FunctionLoopProbe token) =
    (_ ← handleLoopProbeReturn port token; mret None).
Proof. reflexivity. Qed.

(** A loop probe that comes back on the cable it was made for confirms the
    loop, once.  The Request of a probe built for an active investigation of a
    port, arriving on that port, makes it forget the investigation, counts a
    confirmed loop for the peer and signals it; nothing is sent and no route
    changes; and the same packet arriving again changes nothing. *)
Theorem returned_probe_confirms (port : Port) (pkt probe : ExtPacket) (w : RW)
    (a : Addr) (i : Loop.loopProbeInvestigation) :
  is_Some (operationalRange port) -> Loop.loopProbes (probes w) !! Loop.token i = Some i ->
  Loop.token i <> [] -> Loop.port i = device port ->
  Loop.buildLoopProbePacket a (Loop.local i) (Loop.remote i) (Loop.token i) = Ok probe ->
  Proto pkt = Proto probe -> Data pkt = Data probe ->
  exists w', HandleRTMP port pkt w = Some (w', None) /\
    Loop.loopProbes (probes w') = delete (Loop.token i) (Loop.loopProbes (probes w)) /\
    Loop.loopProbeByKey (probes w') = delete (Loop.key i) (Loop.loopProbeByKey (probes w)) /\
    tallies w' = tallies w ++ [(Loop.peer i, confirmedRoutingLoops, 1)] /\
    loopSignals w' = loopSignals w ++ [Loop.peer i] /\
    emitted w' = emitted w /\ table w' = table w /\
    HandleRTMP port pkt w' = Some (w', None).
Proof.
  intros [range Hop] Hi Ht Hport Hb Hp Hd.
  assert (Hsteps : forall v, HandleRTMP port pkt v = handle_request port pkt
    (RTMP.MkRequest RTMP.FunctionLoopProbe (Loop.token i)) v).
  { intros v. unfold Loop.buildLoopProbePacket in Hb.
    destruct (Loop.loopProbeDestination _ _ _) as [dst|?|]; [|done..]. cbn [mbind res_bind] in Hb.
    destruct (RTMP.RequestPacket_Marshal _) as [body|?|] eqn:Em; [|done..]. cbn [mbind res_bind] in Hb.
    injection Hb as <-. cbn [Proto Data originate] in Hp, Hd.
    unfold HandleRTMP. by rewrite Hp, Z.eqb_refl, Hop, Hd, (request_roundtrip _ _ Em). }
  rewrite Hsteps, handle_probe. unfold handleLoopProbeReturn, Loop.handleLoopProbeReturn.
  eexists. split.
  { erewrite r_bind; [reflexivity|]. erewrite (r_bind (getw probes)) by done.
    rewrite bool_decide_false by done. rewrite Hi, bool_decide_true by done. cbn [negb].
    erewrite (r_bind (modw _)) by done. by erewrite (r_bind (tally _ _ _)) by done. }
  do 6 (split; [done|]). rewrite Hsteps, handle_probe.
  erewrite r_bind; [reflexivity|]. unfold handleLoopProbeReturn, Loop.handleLoopProbeReturn.
  erewrite (r_bind (getw probes)) by done. rewrite bool_decide_false by done.
  cbn [probes with_loopSignals with_tallies with_probes Loop.loopProbes].
  rewrite lookup_delete_eq. by erewrite (r_bind (modw _)) by done.
Qed.
End Spec.

(** ** Witnesses *)

#[local] Instance wit_sort : GoSort := insertion_sort.
#[local] Instance wit_strings : GoStrings := ascii_strings.

Definition wit_port : Port :=
  {| device := str "en0"; netStart := 1; netEnd := 2; cableStart := 0; cableEnd := 0;
     myAddr := MkAddr 0 0; defaultZoneName := str "home"; availableZones := {[str "home"]};
     aarpAddress := Some (MkAddr 1 9); operationalRange := Some (1, 2); seed := None |}.
Definition wit_world : RW := with_ports [wit_port] wit_router.

Lemma wit_reportable : reportable wit_rt.
Proof.
  intros r [c Hr]. revert Hr.
  assert (H : map_Forall (fun _ r => NetStart (rkey r) <> 0) (byClass wit_rt))
    by (apply (bool_decide_unpack _); vm_compute; exact I).
  intros Hr. apply (H _ _ Hr).
Qed.


(** A neighbour that reports network 9 and that network 7 is gone. *)
Definition wit_dp (d : Z) : RTMP.DataPacket :=
  RTMP.MkData (MkAddr 1 7) true
    [RTMP.MkTuple true 1 2 0; RTMP.MkTuple false 9 9 1; RTMP.MkTuple true 7 8 d].
Definition wit_data_pkt (d : Z) : ExtPacket :=
  originate (MkAddr 1 7) 1 0 255 1 ProtoRTMPResp
    (match RTMP.DataPacket_Marshal (wit_dp d) with Ok b => b | _ => [] end).

Example rtmp_data_learned_witness :
  let peer := data_peer wit_port (wit_dp 3) in
  let nts := RTMP.NetworkTuples (wit_dp 3) in
  exists w' nss raws,
    HandleRTMP wit_port (wit_data_pkt 3) wit_world = Some (w', None) /\ reachable (table w') /\
    (forall s, announced 5 peer nts s (byClass wit_rt !! key peer s) (byClass (table w') !! key peer s)) /\
    (forall ck, (forall s, ck <> key peer s) -> byClass (table w') !! ck = byClass wit_rt !! ck) /\
    Forall2 query_for nss raws /\
    emitted w' = [] ++ map (fun raw => PortSend (str "en0") (query_packet wit_port (wit_data_pkt 3) raw)) raws /\
    (forall n, n ∈ concat nss <-> n ∈ map RTMP.RangeStart nts /\ ZoneNames (net_at (table w') n) = ∅).
Proof.
  apply (rtmp_data_learned wit_port (wit_data_pkt 3) (wit_dp 3) wit_world);
    [exact wit_reachable|reflexivity|const_widths|reflexivity|reflexivity|].
  repeat (constructor; [unfold near, maxRouteDistance; cbn; lia|]). constructor.
Defined.

Example rtmp_far_tuple_stops_witness :
  let peer := data_peer wit_port (wit_dp 31) in
  let pre := [RTMP.MkTuple true 1 2 0; RTMP.MkTuple false 9 9 1] in
  exists w' e,
    HandleRTMP wit_port (wit_data_pkt 31) wit_world = Some (w', Some e) /\ emitted w' = [] /\
    (forall s, announced 5 peer pre s (byClass wit_rt !! key peer s) (byClass (table w') !! key peer s)) /\
    (7 ∉ map RTMP.RangeStart pre -> byClass (table w') !! key peer 7 = byClass wit_rt !! key peer 7).
Proof.
  apply (rtmp_far_tuple_stops wit_port (wit_data_pkt 31) (wit_dp 31) wit_world
    [RTMP.MkTuple true 1 2 0; RTMP.MkTuple false 9 9 1] [] (RTMP.MkTuple true 7 8 31));
    [exact wit_reachable|const_widths|reflexivity|reflexivity|reflexivity| |done|done].
  repeat (constructor; [unfold near, maxRouteDistance; cbn; lia|]). constructor.
Defined.

Example returned_probe_confirms_witness :
  let w := with_probes (Loop.MkProbes {[Loop.token wit_inv := wit_inv]}
                                      {[Loop.key wit_inv := Loop.token wit_inv]}) wit_world in
  exists w', HandleRTMP wit_port wit_probe w = Some (w', None) /\
    Loop.loopProbes (probes w') = delete (Loop.token wit_inv) (Loop.loopProbes (probes w)) /\
    Loop.loopProbeByKey (probes w') = delete (Loop.key wit_inv) (Loop.loopProbeByKey (probes w)) /\
    tallies w' = [] ++ [(str "far", confirmedRoutingLoops, 1)] /\ loopSignals w' = [] ++ [str "far"] /\
    emitted w' = [] /\ table w' = wit_rt /\ HandleRTMP wit_port wit_probe w' = Some (w', None).
Proof.
  intros w. apply (returned_probe_confirms wit_port wit_probe wit_probe w (MkAddr 21 7) wit_inv);
    [by eexists|reflexivity|done|reflexivity|reflexivity|reflexivity|reflexivity].
Defined.

Definition wit_bad : list RTMP.NetworkTuple := [RTMP.MkTuple true 1 2 0; RTMP.MkTuple true 65000 65535 1].
Definition wit_bad_pkt : ExtPacket :=
  originate (MkAddr 1 7) 1 0 255 1 ProtoRTMPResp
    (match RTMP.DataPacket_Marshal (RTMP.MkData (MkAddr 1 7) true wit_bad) with Ok b => b | _ => [] end).

Example rtmp_65535_hangs_witness : HandleRTMP wit_port wit_bad_pkt wit_world = None.
Proof.
  apply (rtmp_65535_hangs wit_port wit_bad_pkt (RTMP.MkData (MkAddr 1 7) true wit_bad) wit_world
    [RTMP.MkTuple true 1 2 0] [] (RTMP.MkTuple true 65000 65535 1));
    [exact wit_reachable|const_widths|reflexivity|reflexivity|reflexivity| |reflexivity|done].
  repeat (constructor; [unfold near, maxRouteDistance; cbn; lia|]). constructor.
Defined.
