(* ===== verification/ZipSpec.v ===== *)
(** * ZIP on a port: properties of module ZipService *)
From S2P Require Import Prelude Wtacc AurpHeaders AurpTuples PeerPolicy GoSort RouteTable.
From S2P Require Import RouteTableInv RouteTableOps RouteTableSpec.
From S2P Require Import AtalkNbp Atalk AtalkRtmp AtalkAtp AtalkZip RouteExport PeerState PeerZones DdpPolicy.
From S2P Require Import Seed LoopProbe Router Cluster Rtmp Zip RouterSpec RtmpSpec.
Import RT Policy DDP Tunnel Router Cluster ZipService.

(** ** Sizes *)

Lemma foldl_sum {A} (f : A -> Z) l a : foldl (fun s x => s + f x) a l = a + foldl (fun s x => s + f x) 0 l.
Proof.
  revert a. induction l as [|x l IH]; intros a; cbn [foldl]; [lia|].
  rewrite (IH (a + f x)), (IH (0 + f x)). lia.
Qed.

Lemma names_size_cons z zl : names_size (z :: zl) = 3 + zlen z + names_size zl.
Proof. unfold names_size. cbn [foldl]. rewrite foldl_sum. lia. Qed.

Lemma names_size_nonneg zl : 0 <= names_size zl.
Proof.
  induction zl as [|z zl IH]; [done|]. rewrite names_size_cons. pose proof (zlen_nonneg z). lia.
Qed.

(** The bytes of zone lists after the header of a Reply. *)
Lemma zlen_enc_entries es : zlen (concat (map enc_entry es)) = names_size es.*2.
Proof.
  induction es as [|[n z] es IH]; [done|]. cbn [map concat fmap list_fmap snd].
  rewrite names_size_cons, zlen_app, IH. unfold enc_entry. cbn [fst snd].
  rewrite zlen_app, zlen_put16, zlen_cons. lia.
Qed.

Lemma names_size_app zl1 zl2 : names_size (zl1 ++ zl2) = names_size zl1 + names_size zl2.
Proof.
  induction zl1 as [|z zl1 IH]; [done|]. cbn [app]. rewrite !names_size_cons, IH. lia.
Qed.

Lemma zlen_reply_bytes nzs : zlen (reply_bytes nzs) = foldl (fun s e => s + names_size e.2) 0 nzs.
Proof.
  unfold reply_bytes. rewrite zlen_enc_entries.
  induction nzs as [|[n zs] nzs IH]; [done|]. unfold entries in *. cbn [map concat foldl fst snd].
  rewrite foldl_sum, fmap_app, names_size_app, IH.
  assert (E : (map (pair n) zs).*2 = zs) by (clear; induction zs as [|z zs IHz]; [done|]; cbn; by f_equal).
  by rewrite E.
Qed.

Lemma names_fitting_spec size rem :
  size <= DDPMaxDataSize ->
  names_fitting size rem = take (length (names_fitting size rem)) rem /\
  size + names_size (names_fitting size rem) <= DDPMaxDataSize.
Proof.
  revert size. induction rem as [|z rem IH]; intros size Hs; cbn [names_fitting].
  { split; [done|]. change (names_size []) with 0. lia. }
  case_if; zbool; [split; [done|change (names_size []) with 0; lia]|].
  destruct (IH (size + (3 + zlen z)) ltac:(lia)) as [H1 H2].
  cbn [length take]. rewrite names_size_cons. split; [by f_equal|lia].
Qed.

Lemma names_fitting_nonempty z rem : name_fits z -> exists c, names_fitting 2 (z :: rem) = z :: c.
Proof.
  unfold name_fits. intros Hz. cbn [names_fitting]. unfold DDPMaxDataSize. zdec. by eexists.
Qed.

(** ** Replies *)

(** A Reply on the wire: it is parsed, and fits a datagram. *)
Definition reply_ok (p : ZIP.ReplyPacket) (raw : list Z) : Prop :=
  ZIP.UnmarshalPacket raw = Ok (ZIP.PReply p) /\ zlen raw <= DDPMaxDataSize.

(** The zones of [n] that some Replies list, in order. *)
Definition collected (ps : list ZIP.ReplyPacket) (n : Z) : list (list Z) :=
  concat (map (fun p => default [] (ZIP.Networks p !! n)) ps).

Definition lists_fit (m : gmap Z (list (list Z))) : Prop :=
  map_Forall (fun n zs => u16 n /\ Forall (fun z => name_fits z /\ bytes_ok z) zs) m.

Section Spec.
Context {GStr : GoStrings} {GS : GoSort} {MO : MapOrder} `{MT : Multitalk} {ML : MultitalkLaws}.

Definition zip_send (port : Port) (ddpkt : ExtPacket) (raw : list Z) : Emit :=
  PortSend (device port) (zip_reply port ddpkt ProtoZIP raw).

(** What a Reply says, whatever the order in which its map is written. *)
Lemma reply_sent p :
  u8 (ZIP.NetworkCount p) -> lists_fit (ZIP.Networks p) -> Z.of_nat (size (ZIP.Networks p)) <= 255 ->
  (ZIP.Extended p = true -> (size (ZIP.Networks p) <= 1)%nat /\
     map_Forall (fun _ zs => zlen zs <= 255) (ZIP.Networks p)) ->
  reply_size (ZIP.Networks p) <= DDPMaxDataSize ->
  exists raw, ZIP.ReplyPacket_Marshal p = Ok raw /\ reply_ok (as_read p) raw.
Proof.
  intros Hc Hfit Hl Hx Hsize. destruct (Reply_Marshal_spec p) as [Hok _].
  assert (Hw : reply_writable p).
  { split; [done|]. split; [intros E; by destruct (Hx E)|]. intros n zs E. destruct (Hfit n zs E) as [_ Hz].
    split; [eapply Forall_impl; [exact Hz|]; by intros z [? _]|]. intros Ex. destruct (Hx Ex) as [_ Hm].
    by apply (Hm n zs E). }
  specialize (Hok Hw). eexists. split; [exact Hok|].
  assert (Hty : reply_typed p).
  { split; [done|]. intros n zs E. destruct (Hfit n zs E) as [? Hz]. split; [done|].
    eapply Forall_impl; [exact Hz|]; by intros z [_ ?]. }
  split.
  - pose proof (reply_roundtrip p _ Hty Hok) as Hr. unfold ZIP.UnmarshalPacket. cbn [app].
    set (body := reply_bytes (map_range (ZIP.Networks p))) in *. rewrite !zlen_cons.
    pose proof (zlen_nonneg body). zdec. go_slices. cbn [app] in Hr.
    destruct (ZIP.Extended p) eqn:Ex; cbn [ZIP.FunctionExtendedReply ZIP.FunctionReply] in *;
      rewrite Hr; reflexivity.
  - rewrite zlen_app, zlen_reply_bytes. unfold reply_size in Hsize. rewrite foldl_sum in Hsize. exact Hsize.
Qed.

Lemma lists_fit_singleton n zs :
  u16 n -> Forall (fun z => name_fits z /\ bytes_ok z) zs -> lists_fit {[n := zs]}.
Proof. intros Hn Hz. apply map_Forall_singleton. done. Qed.

Lemma map_range_singleton (n : Z) (zs : list (list Z)) : map_range {[n := zs]} = [(n, zs)].
Proof. apply Permutation_singleton_r. by rewrite map_range_perm, map_to_list_singleton. Qed.

Lemma chunk_sent nn count c :
  u16 nn -> u8 count -> c <> [] -> Forall (fun z => name_fits z /\ bytes_ok z) c ->
  2 + names_size c <= DDPMaxDataSize ->
  exists raw, ZIP.ReplyPacket_Marshal (ZIP.MkReply true count {[nn := c]}) = Ok raw /\
    reply_ok (ZIP.MkReply true 0 {[nn := c]}) raw.
Proof.
  intros Hn Hc Hne Hz Hs. destruct (reply_sent (ZIP.MkReply true count {[nn := c]})) as (raw & Hm & Hr).
  - done.
  - by apply lists_fit_singleton.
  - cbn [ZIP.Networks]. by rewrite map_size_singleton.
  - intros _. cbn [ZIP.Networks]. rewrite map_size_singleton. split; [lia|]. apply map_Forall_singleton.
    assert (H3 : 3 * zlen c <= names_size c).
    { clear. induction c as [|z c IH]; [done|]. rewrite names_size_cons, zlen_cons.
      pose proof (zlen_nonneg z). lia. }
    unfold DDPMaxDataSize in Hs. lia.
  - unfold reply_size. cbn [ZIP.Networks]. rewrite map_range_singleton. cbn [foldl snd]. lia.
  - exists raw. split; [done|]. revert Hr. unfold as_read. cbn [ZIP.Extended ZIP.Networks].
    rewrite map_filter_singleton_True; done.
Qed.

Lemma sendReply_ok port ddpkt p raw w :
  sends w = [] -> ZIP.ReplyPacket_Marshal p = Ok raw ->
  sendReply port ddpkt p w = Some (with_emitted (emitted w ++ [zip_send port ddpkt raw]) w, None).
Proof.
  intros Hs Hm. unfold sendReply. rewrite Hm. cbn [wrap_err checkr]. by apply emit_ok.
Qed.

Lemma with_emitted_app (w : RW) (a b : list Emit) :
  with_emitted (emitted (with_emitted (emitted w ++ a) w) ++ b) (with_emitted (emitted w ++ a) w)
  = with_emitted (emitted w ++ (a ++ b)) w.
Proof. cbn. by rewrite <- app_assoc. Qed.

Lemma reply_chunks_ok fuel port ddpkt nn count rem w :
  sends w = [] -> u16 nn -> u8 count -> Forall (fun z => name_fits z /\ bytes_ok z) rem ->
  (length rem <= fuel)%nat ->
  exists ps raws,
    reply_chunks fuel port ddpkt nn count rem w
      = Some (with_emitted (emitted w ++ map (zip_send port ddpkt) raws) w, None) /\
    Forall2 reply_ok ps raws /\
    forall n, collected ps n = if decide (n = nn) then rem else [].
Proof.
  intros Hs Hn Hc. revert rem w Hs. induction fuel as [|fuel IH]; intros [|z rem] w Hs Hz Hf;
    try (exists [], []; cbn [reply_chunks map]; rewrite app_nil_r; split; [by destruct w|];
         split; [constructor|]; intros n; by case_decide); [simpl in Hf; lia|].
  cbn [reply_chunks]. pose proof Hz as Hz'. apply Forall_cons in Hz' as [[Hz1 _] _].
  destruct (names_fitting_nonempty z rem Hz1) as [c Ec].
  destruct (names_fitting_spec 2 (z :: rem)) as [H1 H2]; [done|]. rewrite Ec in *.
  assert (Hzc : Forall (fun z => name_fits z /\ bytes_ok z) (z :: c)) by (rewrite H1; by apply Forall_take).
  destruct (chunk_sent nn count (z :: c)) as (raw & Hm & Hr); [done..|].
  rewrite (r_bind _ _ _ _ _ (sendReply_ok port ddpkt _ raw w Hs Hm)). cbv beta iota.
  destruct (IH (drop (length (z :: c)) (z :: rem)) (with_emitted (emitted w ++ [zip_send port ddpkt raw]) w))
    as (ps & raws & E & Hps & Hcol); [done|by apply Forall_drop|rewrite length_drop; cbn in *; lia|].
  rewrite E, with_emitted_app. exists (ZIP.MkReply true 0 {[nn := z :: c]} :: ps), (raw :: raws).
  split; [done|]. split; [by constructor|]. intros n. unfold collected in *. cbn [map concat ZIP.Networks].
  rewrite Hcol. case_decide as E'; [subst; rewrite lookup_singleton_eq|by rewrite lookup_singleton_ne].
  cbn [default id]. rewrite H1 at 1. apply take_drop.
Qed.

Lemma extended_replies_ok port ddpkt nzs w :
  sends w = [] -> NoDup nzs.*1 ->
  Forall (fun nz => u16 nz.1 /\ Forall (fun z => name_fits z /\ bytes_ok z) nz.2) nzs ->
  exists ps raws,
    extended_replies port ddpkt nzs w
      = Some (with_emitted (emitted w ++ map (zip_send port ddpkt) raws) w, None) /\
    Forall2 reply_ok ps raws /\
    forall n, collected ps n = default [] ((list_to_map nzs : gmap Z (list (list Z))) !! n).
Proof.
  revert w. induction nzs as [|[nn zl] nzs IH]; intros w Hs Hnd Hf; cbn [extended_replies].
  { exists [], []. cbn [map]. rewrite app_nil_r. split; [by destruct w|]. split; [constructor|].
    intros n. cbn. by rewrite lookup_empty. }
  apply Forall_cons in Hf as [[Hn Hz] Hf]. cbn [fmap list_fmap fst snd] in *.
  apply NoDup_cons in Hnd as [Hnin Hnd].
  destruct (reply_chunks_ok (length zl) port ddpkt nn (wrap8 (zlen zl)) zl w) as (ps1 & raws1 & E1 & Hp1 & Hc1);
    [done|done|by apply Z.mod_pos_bound|done|done|].
  rewrite (r_bind _ _ _ _ _ E1). cbv beta iota.
  destruct (IH (with_emitted (emitted w ++ map (zip_send port ddpkt) raws1) w)) as (ps2 & raws2 & E2 & Hp2 & Hc2);
    [done..|].
  rewrite E2, with_emitted_app, <- map_app. exists (ps1 ++ ps2), (raws1 ++ raws2). split; [done|].
  split; [by apply Forall2_app|]. intros n. unfold collected in *. rewrite map_app, concat_app, Hc1, Hc2.
  cbn [list_to_map foldr curry fst snd]. case_decide as E; [subst n|].
  - rewrite lookup_insert_eq, not_elem_of_list_to_map_1 by done. cbn. apply app_nil_r.
  - by rewrite lookup_insert_ne.
Qed.

(** A query for [k] networks is answered with at most [k] lists. *)
Lemma zones_for_network_size cfg rt now m n :
  (size (zones_for_network cfg rt now m n) <= S (size m))%nat.
Proof.
  assert (Hins : forall k (v : list (list Z)), (size (<[k:=v]> m) <= S (size m))%nat).
  { intros k v. rewrite map_size_insert. by destruct (m !! k); cbn; lia. }
  unfold zones_for_network. destruct (match cfg with Some c => clusterForNetwork c n | None => None end).
  - case_if; [apply Hins|lia].
  - unfold ZonesForNetworks. cbn [foldl]. destruct (Zero _).
    + rewrite (left_id_L ∅ (∪)). lia.
    + rewrite <- insert_union_l, (left_id_L ∅ (∪)). apply Hins.
Qed.

Lemma zonesForZIPNetworks_size cfg rt now ns :
  (size (zonesForZIPNetworks cfg rt now ns) <= length ns)%nat.
Proof.
  assert (H : forall m, (size (foldl (zones_for_network cfg rt now) m ns) <= length ns + size m)%nat).
  { induction ns as [|n ns IH]; intros m; cbn [foldl length]; [lia|].
    specialize (IH (zones_for_network cfg rt now m n)). pose proof (zones_for_network_size cfg rt now m n). lia. }
  specialize (H ∅). rewrite map_size_empty in H. unfold zonesForZIPNetworks. lia.
Qed.

Lemma read_networks_length k data acc ns :
  ZIP.read_networks k data acc = Ok ns -> length ns = (length acc + k)%nat.
Proof.
  revert data acc. induction k as [|k IH]; intros data acc; cbn [ZIP.read_networks]; [intros [= ->]; lia|].
  destruct (slice_from data 2) as [q| |]; [|done..]. cbn [mbind res_bind]. case_if; [done|].
  destruct (slice_to q 2 ≫= be16) as [n| |]; [|done..]. cbn [mbind res_bind].
  intros ->%IH. rewrite length_app. cbn [length]. lia.
Qed.

Lemma query_count data q :
  bytes_ok data -> ZIP.UnmarshalPacket data = Ok (ZIP.PQuery q) -> zlen (ZIP.q_Networks q) <= 255.
Proof.
  intros Hd. unfold ZIP.UnmarshalPacket. case_if; [done|]. destruct data as [|f data]; [done|]. go_slices.
  repeat case_if; [|by destruct (ZIP.UnmarshalReplyPacket _)|by destruct (ZIP.UnmarshalGetNetInfoPacket _)
    |by destruct (ZIP.UnmarshalGetNetInfoReplyPacket _)|done..].
  destruct (ZIP.UnmarshalQueryPacket (f :: data)) as [q'| |] eqn:Eq; [|done..]. cbn [mbind res_bind].
  intros [= <-]. revert Eq. unfold ZIP.UnmarshalQueryPacket. case_if; [done|]. go_slices. case_if; [done|].
  zbool. apply Forall_cons in Hd as [_ Hd].
  destruct data as [|c data]; [unfold zlen in *; simpl in *; lia|]. go_slices.
  apply Forall_cons in Hd as [Hc _]. destruct (ZIP.read_networks _ _ _) as [ns| |] eqn:Er; [|done..].
  cbn [mbind res_bind]. intros [= <-]. apply read_networks_length in Er. cbn in *. unfold zlen, u8 in *.
  rewrite Er. lia.
Qed.

Lemma HandleZIP_zip port pkt p w :
  Proto pkt = ProtoZIP -> ZIP.UnmarshalPacket (Data pkt) = Ok p ->
  HandleZIP port pkt w =
    match p with
    | ZIP.PQuery q => handleZIPQuery port pkt q
    | ZIP.PReply r => handleZIPReply r
    | ZIP.PGetNetInfo i => handleZIPGetNetInfo port pkt i
    | ZIP.PGetNetInfoReply i => handleGetNetInfoReply port i
    end w.
Proof.
  intros Hp E. unfold HandleZIP, handleZIPZIP. pose proof Proto_distinct as Hd. rewrite Hp, E, Z.eqb_refl.
  destruct (Z.eqb_spec ProtoZIP ProtoATP) as [Eq|_]; [|done].
  rewrite Eq in Hd. do 2 (apply NoDup_cons in Hd as [_ Hd]). apply NoDup_cons in Hd as [Hn _]. set_solver.
Qed.

Definition asked_lists (w : RW) (q : ZIP.QueryPacket) : gmap Z (list (list Z)) :=
  zonesForZIPNetworks (config w) (table w) (clock w) (ZIP.q_Networks q).

(** A zone query is answered completely.  When no zone name exceeds the 32
    bytes of the format, handling a Query returns without an error and sends its
    sender one or more Replies; each is parsed back and holds at most 586 bytes,
    and the lists they carry, put together network by network, are exactly the
    zone lists the router has for the networks asked. *)
Theorem zip_query_answered (port : Port) (pkt : ExtPacket) (q : ZIP.QueryPacket) (w : RW) :
  sends w = [] -> bytes_ok (Data pkt) -> Proto pkt = ProtoZIP ->
  ZIP.UnmarshalPacket (Data pkt) = Ok (ZIP.PQuery q) -> lists_fit (asked_lists w q) ->
  exists ps raws,
    HandleZIP port pkt w = Some (with_emitted (emitted w ++ map (zip_send port pkt) raws) w, None) /\
    Forall2 reply_ok ps raws /\
    forall n, collected ps n = default [] (asked_lists w q !! n).
Proof.
  intros Hs Hb Hp E Hfit. rewrite (HandleZIP_zip _ _ _ _ Hp E). unfold handleZIPQuery.
  erewrite (r_bind (getw config)) by done. erewrite (r_bind (getw table)) by done.
  erewrite (r_bind (getw clock)) by done. cbv zeta. fold (asked_lists w q). set (m := asked_lists w q) in *.
  assert (Hl : Z.of_nat (size m) <= 255).
  { pose proof (query_count _ _ Hb E) as Hq. unfold zlen in Hq.
    pose proof (zonesForZIPNetworks_size (config w) (table w) (clock w) (ZIP.q_Networks q)) as Hsz.
    fold (asked_lists w q) m in Hsz. lia. }
  case_if; zbool.
  - destruct (reply_sent (ZIP.MkReply false (wrap8 (Z.of_nat (size m))) m)) as (raw & Hm & Hr);
      [by apply Z.mod_pos_bound|done|done|done|done|].
    rewrite (sendReply_ok port pkt _ raw w Hs Hm). eexists [_], [raw]. split; [done|].
    split; [by constructor|]. intros n. unfold collected, as_read. cbn [map concat ZIP.Networks].
    rewrite app_nil_r. rewrite map_lookup_filter. destruct (m !! n) as [[|z zs]|]; [done| |done].
    cbn. done.
  - destruct (extended_replies_ok port pkt (map_range m) w Hs) as (ps & raws & Ex & Hps & Hc).
    + rewrite map_range_perm. apply NoDup_fst_map_to_list.
    + rewrite map_range_perm. apply map_Forall_to_list in Hfit.
      eapply Forall_impl; [exact Hfit|]. by intros [n zs].
    + exists ps, raws. split; [done|]. split; [done|]. intros n. rewrite Hc.
      rewrite (list_to_map_proper (map_range m) (map_to_list m)), list_to_map_to_list; [done| |].
      * rewrite map_range_perm. apply NoDup_fst_map_to_list.
      * apply map_range_perm.
Qed.

Lemma write_lists_returns ext nzs b : ZIP.write_lists ext nzs b <> Panic.
Proof.
  revert b. induction nzs as [|[n zs] nzs IH]; intros b; cbn [ZIP.write_lists]; [done|]. case_if; [done|].
  assert (H : ZIP.write_names n zs b <> Panic).
  { clear. revert b. induction zs as [|z zs IH]; intros b; cbn [ZIP.write_names]; [done|]. by case_if. }
  destruct (ZIP.write_names n zs b); [rewrite bind_Ok; apply IH|done|done].
Qed.

(** One zone name over 32 bytes silences the router for a whole query: if
    any list asked for contains one and the lists fit one datagram, handling the
    Query fails and nothing is sent, not even the lists of the other networks. *)
Theorem zip_long_name_silences (port : Port) (pkt : ExtPacket) (q : ZIP.QueryPacket) (w : RW)
    (n : Z) (zs : list (list Z)) (z : list Z) :
  Proto pkt = ProtoZIP -> ZIP.UnmarshalPacket (Data pkt) = Ok (ZIP.PQuery q) ->
  asked_lists w q !! n = Some zs -> z ∈ zs -> 32 < zlen z ->
  reply_size (asked_lists w q) <= DDPMaxDataSize ->
  exists e, HandleZIP port pkt w = Some (w, Some e).
Proof.
  intros Hp E Hn Hz Hlong Hsize. rewrite (HandleZIP_zip _ _ _ _ Hp E). unfold handleZIPQuery.
  erewrite (r_bind (getw config)) by done. erewrite (r_bind (getw table)) by done.
  erewrite (r_bind (getw clock)) by done. cbv zeta. fold (asked_lists w q). zdec.
  set (p := ZIP.MkReply false _ (asked_lists w q)).
  assert (Hbad : forall b, ZIP.ReplyPacket_Marshal p <> Ok b).
  { intros b Hb. apply (proj2 (Reply_Marshal_spec p)) in Hb as (_ & _ & Hall).
    destruct (Hall n zs Hn) as [Hf _]. rewrite Forall_forall in Hf. specialize (Hf z Hz).
    unfold name_fits in Hf. lia. }
  assert (Hnp : ZIP.ReplyPacket_Marshal p <> Panic).
  { unfold ZIP.ReplyPacket_Marshal. repeat case_if; try done; apply write_lists_returns. }
  unfold sendReply. destruct (ZIP.ReplyPacket_Marshal p) as [b|e|] eqn:Em; [by destruct (Hbad b)| |done].
  eexists. reflexivity.
Qed.

(** ** Paging through a zone list *)

(** The bytes of a page of zone names. *)
Definition page_size (zs : list (list Z)) : Z := foldl (fun s z => s + (1 + zlen z)) 0 zs.

Lemma page_size_cons z zs : page_size (z :: zs) = 1 + zlen z + page_size zs.
Proof. unfold page_size. cbn [foldl]. rewrite foldl_sum. lia. Qed.

Lemma zlen_enc_names zs : zlen (concat (map enc_name zs)) = page_size zs.
Proof.
  induction zs as [|z zs IH]; [done|]. cbn [map concat]. rewrite page_size_cons, zlen_app, IH.
  unfold enc_name at 1. rewrite zlen_cons. lia.
Qed.

Lemma trim_zones_spec size zs page last :
  size <= ATP.MaxDataSize -> trim_zones size zs = (page, last) ->
  size + page_size page <= ATP.MaxDataSize /\
  (last = true -> page = zs) /\
  (last = false -> page = take (length page) zs /\ (length page < length zs)%nat).
Proof.
  revert size page last. induction zs as [|z zs IH]; intros size page last Hs; cbn [trim_zones].
  { intros [= <- <-]. change (page_size []) with 0. split; [lia|]. done. }
  case_if; zbool.
  - intros [= <- <-]. change (page_size []) with 0. split; [lia|]. split; [done|]. intros _. cbn [length].
    split; [done|lia].
  - destruct (trim_zones (size + (1 + zlen z)) zs) as [page' last'] eqn:Et. intros [= <- <-].
    destruct (IH _ _ _ E Et) as (H1 & H2 & H3). rewrite page_size_cons. split; [lia|].
    split; [intros Hl; by rewrite H2|]. intros Hl. destruct (H3 Hl) as [H4 H5]. cbn [length take].
    split; [by rewrite H4 at 1|lia].
Qed.

Lemma trim_zones_progress zs page :
  Forall name_fits zs -> trim_zones 0 zs = (page, false) -> page <> [].
Proof.
  destruct zs as [|z zs]; cbn [trim_zones]; [done|]. intros [Hz _]%Forall_cons. unfold name_fits in Hz.
  unfold ATP.MaxDataSize, DDPMaxDataSize, ATP.HeaderSize. zdec.
  destruct (trim_zones _ zs) as [p l]. by intros [= <- _].
Qed.

(** A client's request for the zones from number [start] on. *)
Definition zones_request (pkt : ExtPacket) (f tid start : Z) : ExtPacket :=
  with_Data (match ATP.TReq_Marshal (ZIP.MarshalTReq (ZIP.MkGetZones tid f start)) with
             | Ok raw => raw | _ => [] end) pkt.

(** What it reads from the last packet the port sent. *)
Definition read_page (w : RW) : option ZIP.GetZonesReplyPacket :=
  match last (emitted w) with
  | Some (PortSend _ p) =>
      match ATP.UnmarshalPacket (Data p) with
      | Ok (ATP.PTResp r) => match ZIP.UnmarshalTResp (Some r) with Ok g => Some g | _ => None end
      | _ => None
      end
  | _ => None
  end.

(** Ask for page after page until one says that it is the last. *)
Fixpoint fetch_zones (fuel : nat) (port : Port) (pkt : ExtPacket) (f tid start : Z) (w : RW) :
    option (list (list Z)) :=
  match fuel with
  | O => None
  | S fuel =>
      match HandleZIP port (zones_request pkt f tid start) w with
      | Some (w', None) =>
          match read_page w' with
          | Some g =>
              if ZIP.LastFlag g then Some (ZIP.Zones g)
              else
                match fetch_zones fuel port pkt f tid (start + zlen (ZIP.Zones g)) w' with
                | Some rest => Some (ZIP.Zones g ++ rest)
                | None => None
                end
          | None => None
          end
      | _ => None
      end
  end.

Lemma zones_request_parsed pkt f tid start :
  u16 tid -> u8 f -> u16 start -> f = ZIP.FunctionGetZoneList \/ f = ZIP.FunctionGetLocalZones \/ f = ZIP.FunctionGetMyZone ->
  exists treq, ATP.UnmarshalPacket (Data (zones_request pkt f tid start)) = Ok (ATP.PTReq treq) /\
    ZIP.UnmarshalTReq (Some treq) = Ok (ZIP.MkGetZones tid f start).
Proof.
  intros Ht Hf Hs Hfun. exists (ZIP.MarshalTReq (ZIP.MkGetZones tid f start)). split.
  - unfold zones_request, ATP.TReq_Marshal, ZIP.MarshalTReq. cbn -[put16 Z.lor Z.shiftr Z.land wrap8].
    unfold ATP.UnmarshalPacket. cbn [Data with_Data]. cbn [put16 app]. go_slices. by rewrite fields16.
  - unfold ZIP.UnmarshalTReq, ZIP.MarshalTReq. cbn [ATP.tq_UserBytes ATP.tq_TransactionID ZIP.Function_ ZIP.StartIndex ZIP.gz_TID].
    go_slices. rewrite fields16 by done. destruct Hfun as [-> |[-> | ->]]; reflexivity.
Qed.

Lemma zone_page_spec start zones page last :
  1 <= start -> Forall name_fits zones -> zone_page start zones = (page, last) ->
  let rest := drop (Z.to_nat (start - 1)) zones in
  page_size page <= ATP.MaxDataSize /\ Forall name_fits page /\ (length page <= length zones)%nat /\
  (last = true -> page = rest) /\
  (last = false -> page = take (length page) rest /\ page <> [] /\ (length page < length rest)%nat).
Proof.
  intros Hs Hf. unfold zone_page. case_if; zbool.
  { intros [= <- <-]. cbv zeta. split; [done|]. split; [constructor|]. split; [cbn; lia|]. split; [|done].
    intros _. symmetry. apply nil_length_inv. rewrite length_drop. unfold zlen in *. lia. }
  intros Ht. cbv zeta. set (rest := drop _ _) in *.
  assert (Hr : Forall name_fits rest) by (by apply Forall_drop).
  destruct (trim_zones_spec 0 rest page last) as (H1 & H2 & H3); [done|done|].
  split; [lia|]. destruct last.
  - rewrite H2 by done. split; [done|]. split; [unfold rest; rewrite length_drop; lia|]. done.
  - destruct (H3 eq_refl) as [H4 H5]. split; [rewrite H4; by apply Forall_take|].
    split; [unfold rest in H5; rewrite length_drop in H5; lia|]. split; [done|]. intros _.
    split; [done|]. split; [|done]. by eapply trim_zones_progress.
Qed.

Lemma HandleZIP_treq port pkt treq w :
  Proto pkt = ProtoATP -> ATP.UnmarshalPacket (Data pkt) = Ok (ATP.PTReq treq) ->
  HandleZIP port pkt w = handleZIPTReq port pkt treq w.
Proof. intros Hp E. unfold HandleZIP, handleZIPATP. by rewrite Hp, E, Z.eqb_refl. Qed.

(** The zones a port lists for a function, whatever it is asked. *)
Definition lists (port : Port) (rt : RouteTable) (f : Z) (zones : list (list Z)) : Prop :=
  f = ZIP.FunctionGetZoneList /\ zones = AllZoneNames rt \/
  f = ZIP.FunctionGetLocalZones /\ zones = set_range (availableZones port) /\
    seedAuthorityActive port = true.

(** One page: what the port sends for a request and what the client reads. *)
Lemma page_sent port pkt f tid start zones w page last_ :
  sends w = [] -> Proto pkt = ProtoATP -> u16 tid -> u16 start -> 1 <= start ->
  lists port (table w) f zones ->
  Forall name_fits zones -> zlen zones < 65536 -> zone_page start zones = (page, last_) ->
  exists w', HandleZIP port (zones_request pkt f tid start) w = Some (w', None) /\
    table w' = table w /\ sends w' = [] /\ read_page w' = Some (ZIP.MkGetZonesReply tid last_ page).
Proof.
  intros Hs Hp Ht Hst H1 Hf Hz Hl Hpage.
  destruct (zone_page_spec start zones page last_ H1 Hz Hpage) as (Hsz & Hpf & Hpl & _ & _).
  destruct (zones_request_parsed pkt f tid start) as (treq & Eu & Eg);
    [done|destruct Hf as [[-> _]|[-> _]]; const_widths|done|destruct Hf as [[-> _]|[-> _]]; tauto|].
  rewrite (HandleZIP_treq _ _ treq) by done.
  assert (Em : ZIP.MarshalTResp (ZIP.MkGetZonesReply tid last_ page)
     = Ok (ATP.MkTResp true false 0 tid
         [if last_ then 1 else 0; 0; wrap8 (Z.shiftr (wrap16 (zlen page)) 8); wrap8 (Z.land (wrap16 (zlen page)) 0xFF)]
         (concat (map enc_name page)))).
  { unfold ZIP.MarshalTResp. cbn [ZIP.Zones ZIP.LastFlag ZIP.gr_TID]. rewrite write_zones_ok by done.
    rewrite bind_Ok. cbn [app]. rewrite zlen_enc_names. by zdec. }
  set (resp := ATP.MkTResp _ _ _ _ _ _) in Em.
  assert (Hrt : ZIP.UnmarshalTResp (Some resp) = Ok (ZIP.MkGetZonesReply tid last_ page)).
  { apply (getzones_roundtrip (ZIP.MkGetZonesReply tid last_ page)); [done| |done].
    cbn [ZIP.Zones]. unfold zlen in *. lia. }
  destruct (ATP.TResp_Marshal resp) as [body| |] eqn:Eb; [|done..].
  assert (Hu : ATP.UnmarshalPacket body = Ok (ATP.PTResp resp)) by (by apply tresp_roundtrip).
  set (out := zip_reply port (zones_request pkt f tid start) ProtoATP body).
  exists (with_emitted (emitted w ++ [PortSend (device port) out]) w). split; [|split; [done|split; [done|]]].
  - unfold handleZIPTReq. rewrite Eg. cbn [checkr ZIP.StartIndex ZIP.Function_ ZIP.gz_TID]. zdec.
    replace (negb (seedAuthorityActive port) && _) with false
      by (destruct Hf as [[-> _]|(_ & _ & ->)]; [by rewrite andb_comm|done]).
    erewrite (r_bind (getw table)) by done.
    assert (Ez : asked_zones port (table w) f = zones) by (by destruct Hf as [[-> ->]|(-> & -> & _)]).
    rewrite Ez, Hpage, Em. cbn [checkr]. rewrite Eb. cbn [checkr]. by apply emit_ok.
  - unfold read_page. cbn [emitted with_emitted]. rewrite last_snoc. cbn [Data out zip_reply originate].
    by rewrite Hu, Hrt.
Qed.

Lemma fetch_rest port pkt f tid zones w fuel start :
  sends w = [] -> Proto pkt = ProtoATP -> u16 tid -> Forall name_fits zones -> zlen zones < 65535 ->
  lists port (table w) f zones -> 1 <= start <= zlen zones + 1 ->
  (length zones + 1 < fuel + Z.to_nat start)%nat ->
  fetch_zones fuel port pkt f tid start w = Some (drop (Z.to_nat (start - 1)) zones).
Proof.
  intros Hs Hp Ht Hz Hl. revert start w Hs. induction fuel as [|fuel IH];
    intros start w Hs Hls Hst Hfuel; [unfold zlen in *; lia|]. cbn [fetch_zones].
  destruct (zone_page start zones) as [page last_] eqn:Epage.
  destruct (page_sent port pkt f tid start zones w page last_) as (w' & E & Hv' & Hs' & Er);
    [done|done|done|unfold u16; lia|lia|done|done|lia|done|].
  rewrite E, Er. cbn [ZIP.LastFlag ZIP.Zones].
  destruct (zone_page_spec start zones page last_) as (_ & _ & _ & Hlast & Hmore); [lia|done|done|].
  destruct last_; [by rewrite Hlast|]. destruct (Hmore eq_refl) as (Htake & Hne & Hlt).
  rewrite length_drop in Hlt.
  assert (Hpos : 0 < zlen page) by (destruct page; [done|rewrite zlen_cons; pose proof (zlen_nonneg page); lia]).
  rewrite IH; [|done|by rewrite Hv'|unfold zlen in *; lia|unfold zlen in *; lia].
  replace (Z.to_nat (start + zlen page - 1)) with (Z.to_nat (start - 1) + length page)%nat
    by (unfold zlen in *; lia).
  rewrite <- drop_drop. rewrite Htake at 1. by rewrite take_drop.
Qed.

(** C26: a client that asks a port for the zones of the internet page by page, in
    the order of their numbers, ends up with all of them: when no zone name
    exceeds 32 bytes and there are fewer than 65535, at most one request more than
    there are zones is needed, every answer is parsed, and the pages make up
    exactly the zone list of the route table. *)
Theorem zone_list_paging_complete (port : Port) (pkt : ExtPacket) (tid : Z) (w : RW) :
  let zones := AllZoneNames (table w) in
  sends w = [] -> Proto pkt = ProtoATP -> u16 tid -> Forall name_fits zones -> zlen zones < 65535 ->
  fetch_zones (S (length zones)) port pkt ZIP.FunctionGetZoneList tid 1 w = Some zones.
Proof.
  intros zones Hs Hp Ht Hz Hl.
  rewrite (fetch_rest port pkt _ tid zones); [done..|by left|pose proof (zlen_nonneg zones); lia|lia].
Qed.

(** ** GetNetInfo *)

(** Who answers a node that asks for its network, and what.  A port without
    seed authority stays silent.  One with authority sends exactly one reply, as a
    broadcast when the request was one, which is parsed as: the cable range of the
    port; the zone asked for, invalid exactly when the port does not have it; the
    multicast address of that zone, or of the default zone, which is named only
    then; and whether the port has a single zone. *)
Theorem netinfo_answered (port : Port) (pkt : ExtPacket) (i : ZIP.GetNetInfoPacket) (w : RW) :
  sends w = [] -> Proto pkt = ProtoZIP -> ZIP.UnmarshalPacket (Data pkt) = Ok (ZIP.PGetNetInfo i) ->
  u16 (cableStart port) -> u16 (cableEnd port) -> name_fits (ZIP.gi_ZoneName i) ->
  name_fits (defaultZoneName port) ->
  let known := bool_decide (ZIP.gi_ZoneName i ∈ availableZones port) in
  (seedAuthorityActive port = false -> HandleZIP port pkt w = Some (w, None)) /\
  (seedAuthorityActive port = true ->
   exists out,
     HandleZIP port pkt w = Some (with_emitted (emitted w ++ [PortSend (device port) out]) w, None) /\
     DstNet out = (if DstNet pkt =? 0 then 0 else SrcNet pkt) /\
     DstNode out = (if DstNode pkt =? 0xFF then 0xFF else SrcNode pkt) /\ DstSocket out = SrcSocket pkt /\
     ZIP.UnmarshalPacket (Data out) = Ok (ZIP.PGetNetInfoReply
       (ZIP.MkNetInfo (negb known) false (Z.of_nat (size (availableZones port)) =? 1)
          (cableStart port) (cableEnd port) (ZIP.gi_ZoneName i)
          (MulticastAddr (if known then ZIP.gi_ZoneName i else defaultZoneName port))
          (if known then [] else defaultZoneName port)))).
Proof.
  intros Hs Hp E Hcs Hce Hz Hdz known. rewrite (HandleZIP_zip _ _ _ _ Hp E). unfold handleZIPGetNetInfo.
  split; [intros ->; done|]. intros ->. cbn [negb].
  set (r := netinfo_reply port (ZIP.gi_ZoneName i)).
  assert (Hty : netinfo_typed r) by (split; [done|]; split; [done|apply MulticastAddr_length]).
  assert (Hm : exists raw, ZIP.GetNetInfoReplyPacket_Marshal r = Ok raw).
  { unfold ZIP.GetNetInfoReplyPacket_Marshal. unfold name_fits in *. subst r.
    cbn [netinfo_reply ZIP.ZoneName ZIP.DefaultZoneName]. zdec.
    replace (32 <? zlen _) with false; [by eexists|]. case_bool_decide; [done|by zdec]. }
  destruct Hm as [raw Hm]. rewrite Hm. cbn [wrap_err checkr].
  pose proof (netinfo_reply_roundtrip r raw Hty Hm) as Hr.
  eexists. split; [by apply emit_ok|].
  assert (Hout : forall p : ExtPacket, Data (if DstNode pkt =? 0xFF then with_DstNode 0xFF p else p) = Data p)
    by (intros p; by case_if).
  split; [by repeat case_if|]. split; [by repeat case_if|]. split; [by repeat case_if|].
  rewrite Hout. assert (Hout2 : forall p, Data (if DstNet pkt =? 0 then with_DstNet 0 p else p) = Data p)
    by (intros p; by case_if).
  rewrite Hout2. cbn [zip_reply originate Data]. unfold ZIP.UnmarshalPacket.
  revert Hm Hr. unfold ZIP.GetNetInfoReplyPacket_Marshal. do 2 (case_if; [done|]). cbv zeta. intros Hm Hr.
  destruct raw as [|f raw]; [by injection Hm|].
  assert (f = ZIP.FunctionGetNetInfoReply) as -> by (by injection Hm).
  rewrite zlen_cons. pose proof (zlen_nonneg raw). zdec. go_slices.
  rewrite Hr. cbn [mbind res_bind]. unfold netinfo_as_read, r, netinfo_reply.
  cbn. fold known. by destruct known.
Qed.

(** ** Handling a packet returns *)

Definition names_short (rt : RouteTable) : Prop :=
  forall n z, z ∈ ZoneNames (net_at rt n) -> zlen z <= 255.

(** The names a query collects are names of the table. *)
Definition named (rt : RouteTable) (m : gmap Z (list (list Z))) : Prop :=
  map_Forall (fun _ zs => Forall (fun z => exists n, z ∈ ZoneNames (net_at rt n)) zs) m.

Lemma route_names rt r z : z ∈ route_zone_names rt r -> exists n, z ∈ ZoneNames (net_at rt n).
Proof.
  unfold route_zone_names. destruct (Zero r); [by intros ?%elem_of_nil|].
  destruct (network_ptr r) as [n|]; [|by intros ?%elem_of_nil]. intros Hz%elem_of_elements. by exists n.
Qed.

Lemma cluster_names rt now c z : z ∈ clusterZones rt now c -> exists n, z ∈ ZoneNames (net_at rt n).
Proof.
  unfold clusterZones. intros Hz%elem_of_sort_func%elem_of_elements; [|apply sw_bytes]. revert Hz.
  assert (H : forall rs (zs : gset (list Z)), (forall x, x ∈ zs -> exists n, x ∈ ZoneNames (net_at rt n)) ->
    forall x, x ∈ foldl (fun zs route => if containsRoute c route
      then zs ∪ list_to_set (route_zone_names rt route) else zs) zs rs -> exists n, x ∈ ZoneNames (net_at rt n)).
  { induction rs as [|r rs IH]; intros zs Hzs x; cbn [foldl]; [apply Hzs|]. apply IH. intros y. case_if; [|apply Hzs].
    intros [Hy|Hy]%elem_of_union; [by apply Hzs|]. apply elem_of_list_to_set in Hy. by eapply route_names. }
  apply H. intros x Hx. by apply elem_of_empty in Hx.
Qed.

Lemma zones_named cfg rt now ns : named rt (zonesForZIPNetworks cfg rt now ns).
Proof.
  assert (H : forall m, named rt m -> named rt (foldl (zones_for_network cfg rt now) m ns)).
  { induction ns as [|n ns IH]; intros m Hm; cbn [foldl]; [done|]. apply IH. unfold zones_for_network.
    destruct (match cfg with Some c => clusterForNetwork c n | None => None end) as [c|].
    - case_if; [|done]. apply map_Forall_insert_2; [|done]. apply Forall_forall. intros z. apply cluster_names.
    - unfold ZonesForNetworks. cbn [foldl]. destruct (Zero _); [by rewrite (left_id_L ∅ (∪))|].
      rewrite <- insert_union_l, (left_id_L ∅ (∪)). apply map_Forall_insert_2; [|done].
      rewrite lookup_empty. cbn [default app]. apply Forall_forall. intros z Hz%elem_of_elements. by exists n. }
  apply H. apply map_Forall_empty.
Qed.

(** A step that returns and leaves the route table alone. *)
Definition quiet (m : R error) : Prop :=
  forall w, exists w' e, m w = Some (w', e) /\ table w' = table w.

Lemma quiet_emit e : quiet (emit e).
Proof. intros w. unfold emit. destruct (sends w) as [|[] ?]; by eexists _, _. Qed.

Lemma still_ret e : quiet (mret e).
Proof. intros w. by exists w, e. Qed.

Lemma quiet_attempt (m k : R error) : quiet m -> quiet k -> quiet (attempt m;; k).
Proof.
  intros Hm Hk w. destruct (Hm w) as (w1 & e & E & Et). rewrite (r_bind _ _ _ _ _ E).
  destruct e as [e|]; [by exists w1, (Some e)|]. destruct (Hk w1) as (w2 & e2 & E2 & Et2).
  exists w2, e2. split; [done|congruence].
Qed.

Lemma quiet_checkr {A} (r : res A) (k : A -> R error) :
  r <> Panic -> (forall a, quiet (k a)) -> quiet (checkr r fail_with k).
Proof. destruct r; cbn [checkr]; intros Hr Hk; [apply Hk|apply still_ret|done]. Qed.

Lemma wrap_returns {A} fmt args (r : res A) : r <> Panic -> wrap_err fmt args r <> Panic.
Proof. by destruct r. Qed.

Lemma Reply_returns p : ZIP.ReplyPacket_Marshal p <> Panic.
Proof. unfold ZIP.ReplyPacket_Marshal. repeat case_if; try done; apply write_lists_returns. Qed.

Lemma quiet_sendReply port pkt p : quiet (sendReply port pkt p).
Proof. apply quiet_checkr; [apply wrap_returns, Reply_returns|]. intros raw. apply quiet_emit. Qed.

Lemma quiet_chunks fuel port pkt nn count rem :
  Forall (fun z => zlen z <= 255) rem -> (length rem <= fuel)%nat ->
  quiet (reply_chunks fuel port pkt nn count rem).
Proof.
  revert rem. induction fuel as [|fuel IH]; intros [|z rem] Hz Hf; try apply still_ret; [cbn in Hf; lia|].
  cbn [reply_chunks]. apply quiet_attempt; [apply quiet_sendReply|].
  pose proof Hz as Hz'. apply Forall_cons in Hz' as [Hz1 _].
  assert (Hc : exists c, names_fitting 2 (z :: rem) = z :: c).
  { cbn [names_fitting]. unfold DDPMaxDataSize. zdec. by eexists. }
  destruct Hc as [c ->]. apply IH; [by apply Forall_drop|]. rewrite length_drop. cbn [length] in *. lia.
Qed.

Lemma quiet_extended port pkt nzs :
  Forall (fun nz => Forall (fun z => zlen z <= 255) nz.2) nzs -> quiet (extended_replies port pkt nzs).
Proof.
  induction 1 as [|[nn zl] nzs Hz _ IH]; cbn [extended_replies]; [apply still_ret|].
  apply quiet_attempt; [by apply quiet_chunks|done].
Qed.

(** ** Learning zones *)

Lemma add_zone_lists_ok nzs w :
  reachable (table w) -> NoDup nzs.*1 -> Forall (fun nz => u16 nz.1) nzs ->
  exists w', add_zone_lists nzs w = Some (w', tt) /\ reachable (table w') /\ emitted w' = emitted w /\
    (forall n, Routes (net_at (table w') n) = Routes (net_at (table w) n)) /\
    (forall n, ZoneNames (net_at (table w') n) = ZoneNames (net_at (table w) n) ∪
       list_to_set (default [] ((list_to_map nzs : gmap Z (list (list Z))) !! n))).
Proof.
  revert w. induction nzs as [|[k zs] nzs IH]; intros w Hr Hnd Ht; cbn [add_zone_lists].
  { exists w. split; [done|]. split; [done|]. split; [done|]. split; [done|].
    intros n. cbn. rewrite lookup_empty. cbn. set_solver. }
  apply Forall_cons in Ht as [Hk Ht]. cbn [fmap list_fmap fst] in *. apply NoDup_cons in Hnd as [Hnin Hnd].
  erewrite (r_bind (getw clock)) by done.
  pose proof (AddZones_spec (table w) (reachable_inv _ Hr) (clock w) k zs) as Hspec.
  destruct (AddZonesToNetwork (clock w) k zs (table w)) as [rt' ns] eqn:E. destruct Hspec as (_ & _ & HR & HZ & _).
  erewrite r_bind by (unfold on_table; rewrite E; reflexivity). cbv beta.
  destruct (IH (with_notes (notes w ++ ns) (with_table rt' w))) as (w' & Ew & Hr' & He & HR' & HZ');
    [|done|done|].
  { cbn. eapply rtc_r; [exact Hr|]. replace rt' with (AddZonesToNetwork (clock w) k zs (table w)).1 by (by rewrite E).
    by apply step_add_zones. }
  exists w'. split; [done|]. split; [done|]. split; [done|]. cbn [table with_notes with_table] in *. split.
  - intros n. by rewrite HR', HR.
  - intros n. rewrite HZ', HZ. cbn [list_to_map foldr curry fst snd]. case_decide as En; [subst n|].
    + rewrite lookup_insert_eq, not_elem_of_list_to_map_1 by done. cbn. set_solver.
    + by rewrite lookup_insert_ne.
Qed.

Lemma handleZIPReply_ok p w :
  reachable (table w) -> lists_typed (ZIP.Networks p) ->
  exists w', handleZIPReply p w = Some (w', None) /\ reachable (table w') /\ emitted w' = emitted w /\
    (forall n, Routes (net_at (table w') n) = Routes (net_at (table w) n)) /\
    (forall n, ZoneNames (net_at (table w') n) = ZoneNames (net_at (table w) n) ∪
       list_to_set (default [] (ZIP.Networks p !! n))).
Proof.
  intros Hr Ht. unfold handleZIPReply.
  destruct (add_zone_lists_ok (map_range (ZIP.Networks p)) w Hr) as (w' & E & Hr' & He & HR & HZ).
  - rewrite map_range_perm. apply NoDup_fst_map_to_list.
  - rewrite map_range_perm. apply map_Forall_to_list in Ht. eapply Forall_impl; [exact Ht|]. by intros [n zs] [? _].
  - rewrite (r_bind _ _ _ _ _ E). exists w'. split; [done|]. split; [done|]. split; [done|]. split; [done|].
    intros n. rewrite HZ. rewrite (list_to_map_proper (map_range (ZIP.Networks p)) (map_to_list (ZIP.Networks p))),
      list_to_map_to_list; [done| |apply map_range_perm].
    rewrite map_range_perm. apply NoDup_fst_map_to_list.
Qed.

(** A zone Reply adds exactly its zones.  Afterwards every network has the
    zones it had and those the Reply lists for it; no route changes, nothing is
    sent, and the table stays reachable, so the zone index of [route_table]
    remains consistent. *)
Theorem zip_reply_learned (port : Port) (pkt : ExtPacket) (p : ZIP.ReplyPacket) (w : RW) :
  reachable (table w) -> bytes_ok (Data pkt) -> Proto pkt = ProtoZIP ->
  ZIP.UnmarshalPacket (Data pkt) = Ok (ZIP.PReply p) ->
  exists w', HandleZIP port pkt w = Some (w', None) /\ reachable (table w') /\ emitted w' = emitted w /\
    (forall n, Routes (net_at (table w') n) = Routes (net_at (table w) n)) /\
    (forall n, ZoneNames (net_at (table w') n) = ZoneNames (net_at (table w) n) ∪
       list_to_set (default [] (ZIP.Networks p !! n))).
Proof.
  intros Hr Hb Hp E. rewrite (HandleZIP_zip _ _ _ _ Hp E). apply handleZIPReply_ok; [done|].
  pose proof (UnmarshalPacket_safe (Data pkt) Hb) as Hs. by rewrite E in Hs.
Qed.

Lemma MarshalTResp_returns p : ZIP.MarshalTResp p <> Panic.
Proof.
  assert (H : forall zs b, ZIP.write_zones zs b <> Panic).
  { induction zs as [|z zs IH]; intros b; cbn [ZIP.write_zones]; [done|]. by case_if. }
  unfold ZIP.MarshalTResp. specialize (H (ZIP.Zones p) []).
  destruct (ZIP.write_zones _ _); [rewrite bind_Ok; by case_if|done|done].
Qed.

Lemma UnmarshalTReq_returns treq :
  user_bytes_ok (ATP.tq_UserBytes treq) -> ZIP.UnmarshalTReq (Some treq) <> Panic.
Proof.
  intros (a & b & c & d & E)%four_bytes. unfold ZIP.UnmarshalTReq. rewrite E. go_slices. case_if; [done|].
  go_slices. by unfold be16.
Qed.

Lemma quiet_treq port pkt treq :
  user_bytes_ok (ATP.tq_UserBytes treq) -> quiet (handleZIPTReq port pkt treq).
Proof.
  intros Hu. unfold handleZIPTReq. apply quiet_checkr; [by apply UnmarshalTReq_returns|].
  intros g. case_if; [apply still_ret|]. cbv zeta. case_if; [apply still_ret|]. intros w.
  erewrite (r_bind (getw table)) by done. destruct (zone_page _ _) as [page last_].
  revert w. apply quiet_checkr; [apply MarshalTResp_returns|].
  intros resp. apply quiet_checkr; [done|]. intros body. apply quiet_emit.
Qed.

Lemma quiet_GetNetInfo port pkt i : quiet (handleZIPGetNetInfo port pkt i).
Proof.
  unfold handleZIPGetNetInfo. case_if; [apply still_ret|].
  apply quiet_checkr; [|intros raw; apply quiet_emit]. apply wrap_returns.
  unfold ZIP.GetNetInfoReplyPacket_Marshal. by repeat case_if.
Qed.

Lemma quiet_Query port pkt q w :
  names_short (table w) -> exists w' e, handleZIPQuery port pkt q w = Some (w', e) /\ table w' = table w.
Proof.
  intros Hn. unfold handleZIPQuery. erewrite (r_bind (getw config)) by done.
  erewrite (r_bind (getw table)) by done. erewrite (r_bind (getw clock)) by done. cbv zeta.
  case_if; [apply quiet_sendReply|]. apply quiet_extended. rewrite map_range_perm.
  pose proof (zones_named (config w) (table w) (clock w) (ZIP.q_Networks q)) as Hz.
  apply map_Forall_to_list in Hz. eapply Forall_impl; [exact Hz|]. intros [n zs]. cbn [uncurry snd].
  intros Hf. eapply Forall_impl; [exact Hf|]. intros z [m Hm]. by eapply Hn.
Qed.

Lemma zip_total (port : Port) (pkt : ExtPacket) (w : RW) :
  reachable (table w) -> names_short (table w) -> bytes_ok (Data pkt) ->
  exists w' e, HandleZIP port pkt w = Some (w', e) /\ reachable (table w') /\ names_short (table w').
Proof.
  intros Hr Hn Hb.
  assert (Hq : forall m : R error, (exists w' e, m w = Some (w', e) /\ table w' = table w) ->
    exists w' e, m w = Some (w', e) /\ reachable (table w') /\ names_short (table w')).
  { intros m (w' & e & E & Et). exists w', e. by rewrite Et. }
  unfold HandleZIP. case_if; [|case_if; [|apply Hq, still_ret]].
  - unfold handleZIPATP. pose proof (treq_safe (Data pkt) Hb) as Hs.
    destruct (ATP.UnmarshalPacket (Data pkt)) as [[treq|r|r]|e|]; cbn [checkr safe] in *; [|apply Hq, still_ret..|done].
    apply Hq, quiet_treq. by destruct (Hs treq eq_refl) as (_ & ? & _).
  - unfold handleZIPZIP. pose proof (UnmarshalPacket_safe (Data pkt) Hb) as Hs.
    destruct (ZIP.UnmarshalPacket (Data pkt)) as [[q|p|i|i]|e|]; cbn [checkr safe] in *;
      [apply Hq; by apply quiet_Query| |apply Hq, quiet_GetNetInfo| |apply Hq, still_ret|done].
    + destruct (handleZIPReply_ok p w Hr Hs) as (w' & E' & Hr' & _ & _ & HZ). exists w', None.
      split; [done|]. split; [done|]. intros n z. rewrite HZ. intros [Hz|Hz]%elem_of_union; [by eapply Hn|].
      apply elem_of_list_to_set in Hz. cbn [packet_typed] in Hs.
      destruct (ZIP.Networks p !! n) as [zs|] eqn:En; [|by apply elem_of_nil in Hz].
      destruct (Hs n zs En) as (_ & _ & Hf). rewrite Forall_forall in Hf. by destruct (Hf z Hz).
    + by eexists _, _.
Qed.

(** The ZIP socket never hangs or crashes: whatever the packet, from a
    reachable table whose zone names fit a length byte, handling it returns, and
    leaves such a table. *)
Theorem zip_returns (port : Port) (pkt : ExtPacket) (w : RW) :
  reachable (table w) -> names_short (table w) -> bytes_ok (Data pkt) ->
  exists w' e, HandleZIP port pkt w = Some (w', e) /\ reachable (table w') /\ names_short (table w').
Proof. apply zip_total. Qed.

End Spec.

(** Another order in which a Go set may be ranged: it starts at the [k]th element. *)
#[local] Program Instance rotated (k : nat) : MapOrder := {|
  map_range V m := map_to_list m; set_range s := drop k (elements s) ++ take k (elements s) |}.
Next Obligation. done. Qed.
Next Obligation. intros k s. by rewrite Permutation_app_comm, take_drop. Qed.

Section Paging.
Context {GStr : GoStrings} {GS : GoSort} `{MT : Multitalk} {ML : MultitalkLaws}.

(** Paging through the zones of a cable can miss one.  The zones of a port
    are a Go set, which is ranged anew, in any order, for every request: when they
    do not fit one response, there are two orders such that a client that gets the
    first page in one and the later pages in the other never sees some zone of the
    cable. *)
Theorem local_zones_paging_misses (port : Port) (pkt : ExtPacket) (tid : Z) (w : RW) :
  let zones := elements (availableZones port) in
  sends w = [] -> Proto pkt = ProtoATP -> u16 tid -> Forall name_fits zones -> zlen zones < 65535 ->
  ATP.MaxDataSize < page_size zones -> seedAuthorityActive port = true ->
  exists w1 g1 rest z,
    HandleZIP (MO := rotated 0) port (zones_request pkt ZIP.FunctionGetLocalZones tid 1) w = Some (w1, None) /\
    read_page w1 = Some g1 /\ ZIP.LastFlag g1 = false /\
    fetch_zones (MO := rotated (length (ZIP.Zones g1))) (S (length zones)) port pkt
      ZIP.FunctionGetLocalZones tid (1 + zlen (ZIP.Zones g1)) w1 = Some rest /\
    z ∈ availableZones port /\ z ∉ ZIP.Zones g1 ++ rest.
Proof.
  intros zones Hs Hp Ht Hz Hl Hbig Hauth.
  assert (E0 : set_range (MapOrder := rotated 0) (availableZones port) = zones) by (cbn; by rewrite app_nil_r).
  destruct (zone_page 1 zones) as [page last_] eqn:Epage.
  destruct (page_sent (MO := rotated 0) port pkt ZIP.FunctionGetLocalZones tid 1 zones w page last_)
    as (w1 & E & Hv & Hs1 & Er); [done|done|done|done|done|right; by rewrite E0|done|lia|done|].
  destruct (zone_page_spec 1 zones page last_) as (Hsz & _ & _ & Hlast & Hmore); [done|done|done|].
  cbn [Z.sub Z.to_nat] in *. change (drop (Z.to_nat (1 - 1)) zones) with zones in *.
  destruct last_; [rewrite (Hlast eq_refl) in Hsz; lia|]. destruct (Hmore eq_refl) as (Htake & Hne & Hlt).
  set (k := length page) in *. set (zones2 := drop k zones ++ take k zones).
  assert (Hperm : zones2 ≡ₚ zones) by (unfold zones2; by rewrite Permutation_app_comm, take_drop).
  assert (Hlen : length zones2 = length zones) by (by rewrite Hperm).
  assert (Hk : (0 < k)%nat) by (unfold k; destruct page; [done|cbn; lia]).
  destruct (drop k zones) as [|z tl_] eqn:Ed.
  { apply (f_equal length) in Ed. rewrite length_drop in Ed. cbn in Ed. lia. }
  exists w1, (ZIP.MkGetZonesReply tid false page), (drop k zones2), z.
  split; [done|]. split; [done|]. split; [done|]. cbn [ZIP.Zones]. fold k. split; [|split].
  - rewrite (fetch_rest (MO := rotated k) port pkt _ tid zones2 w1);
      [f_equal; f_equal; unfold zlen; lia|done|done|done|by rewrite Hperm|unfold zlen in *; lia
      |right; split; [done|]; split; [|done]; cbn; fold zones; by rewrite Ed
      |unfold zlen in *; lia|unfold zlen in *; lia].
  - apply elem_of_elements. fold zones. rewrite <- (take_drop k zones), Ed. set_solver.
  - assert (Hnd : NoDup zones2) by (rewrite Hperm; apply NoDup_elements).
    unfold zones2 in Hnd |- *. rewrite Htake. cbn [app] in Hnd |- *. apply NoDup_cons in Hnd as [Hz1 _].
    intros [Hin|Hin]%elem_of_app; apply Hz1, elem_of_app; [by right|].
    destruct k as [|k']; [lia|]. cbn [drop] in Hin. apply elem_of_app.
    by eapply elem_of_sublist, sublist_drop.
Qed.

End Paging.

(** ** Witnesses *)

#[local] Instance wit_sort : GoSort := insertion_sort.
#[local] Instance wit_strings : GoStrings := ascii_strings.
#[local] Instance wit_order : MapOrder := ascending_order.

Definition wit_zip (d : list Z) : ExtPacket := originate (MkAddr 1 7) 6 1 9 6 ProtoZIP d.

(** A query for networks 3 and 9, of which 3 has a zone. *)
Definition wit_query : ExtPacket := wit_zip [1; 2; 0; 3; 0; 9].
Definition wit_q : ZIP.QueryPacket := ZIP.MkQuery [3; 9].

Lemma wit_lists_fit : lists_fit (asked_lists wit_world wit_q).
Proof.
  assert (E : asked_lists wit_world wit_q = {[3 := [str "home"]]}) by (vm_compute; reflexivity).
  rewrite E. apply lists_fit_singleton; [const_widths|]. repeat constructor; unfold name_fits; const_widths.
Qed.

Example zip_query_answered_witness :
  exists ps raws,
    HandleZIP wit_port wit_query wit_world
      = Some (with_emitted ([] ++ map (zip_send wit_port wit_query) raws) wit_world, None) /\
    Forall2 reply_ok ps raws /\
    forall n, collected ps n = default [] (asked_lists wit_world wit_q !! n).
Proof.
  apply (zip_query_answered wit_port wit_query wit_q wit_world);
    [reflexivity|const_widths|reflexivity|reflexivity|exact wit_lists_fit].
Defined.

(** The same with a zone name of 33 bytes on network 3. *)
Definition wit_long : list Z := repeat 65 33.
Definition wit_long_world : RW :=
  with_table (AddZonesToNetwork 0 3 [wit_long] wit_rt).1 wit_world.

Example zip_long_name_silences_witness :
  exists e, HandleZIP wit_port wit_query wit_long_world = Some (wit_long_world, Some e).
Proof.
  apply (zip_long_name_silences wit_port wit_query wit_q wit_long_world 3
    (default [] (asked_lists wit_long_world wit_q !! 3)) wit_long);
    [reflexivity|reflexivity|vm_compute; reflexivity|apply (bool_decide_unpack _); vm_compute; exact I
    |reflexivity|vm_compute; done].
Defined.

Definition wit_atp : ExtPacket := originate (MkAddr 1 7) 6 1 9 6 ProtoATP [].

Example zone_list_paging_complete_witness :
  fetch_zones 2 wit_port wit_atp ZIP.FunctionGetZoneList 77 1 wit_world = Some [str "home"].
Proof.
  assert (E : AllZoneNames wit_rt = [str "home"]) by (vm_compute; reflexivity).
  pose proof (zone_list_paging_complete wit_port wit_atp 77 wit_world) as H. cbv zeta in H.
  change (table wit_world) with wit_rt in H. rewrite E in H.
  apply H; [reflexivity|reflexivity|const_widths|repeat constructor; unfold name_fits; const_widths|reflexivity].
Defined.

(** A port with authority over a cable of twenty zones with long names. *)
Definition wit_zone (k : nat) : list Z := Z.of_nat (65 + k) :: repeat 46 31.
Definition wit_seed_port : Port :=
  port_with_seed (Some (Seed.newSeedController Seed.SeedModeHard 0 1 2 (str "home"))) wit_port.
Definition wit_large_port : Port :=
  {| device := str "en0"; netStart := 1; netEnd := 2; cableStart := 1; cableEnd := 2;
     myAddr := MkAddr 1 9; defaultZoneName := wit_zone 0;
     availableZones := list_to_set (map wit_zone (seq 0 20)); aarpAddress := Some (MkAddr 1 9);
     operationalRange := Some (1, 2);
     seed := Some (Seed.newSeedController Seed.SeedModeHard 0 1 2 (wit_zone 0)) |}.

Lemma wit_large_fits : Forall name_fits (elements (availableZones wit_large_port)).
Proof.
  apply Forall_forall. intros z Hz%elem_of_elements%elem_of_list_to_set. apply list_elem_of_fmap in Hz as (k & -> & _).
  unfold name_fits, wit_zone. rewrite zlen_cons. done.
Qed.

Example local_zones_paging_misses_witness :
  exists w1 g1 rest z,
    HandleZIP (MO := rotated 0) wit_large_port (zones_request wit_atp ZIP.FunctionGetLocalZones 77 1) wit_world
      = Some (w1, None) /\
    read_page w1 = Some g1 /\ ZIP.LastFlag g1 = false /\
    fetch_zones (MO := rotated (length (ZIP.Zones g1)))
      (S (length (elements (availableZones wit_large_port)))) wit_large_port wit_atp
      ZIP.FunctionGetLocalZones 77 (1 + zlen (ZIP.Zones g1)) w1 = Some rest /\
    z ∈ availableZones wit_large_port /\ z ∉ ZIP.Zones g1 ++ rest.
Proof.
  apply (local_zones_paging_misses wit_large_port wit_atp 77 wit_world);
    [reflexivity|reflexivity|const_widths|exact wit_large_fits|vm_compute; reflexivity|vm_compute; reflexivity|reflexivity].
Defined.

Definition wit_ask : ExtPacket := wit_zip ([5; 0; 0; 0; 0; 0; 4] ++ str "home").

Example netinfo_answered_witness :
  let i := ZIP.MkGetNetInfo (str "home") in
  let known := bool_decide (str "home" ∈ availableZones wit_seed_port) in
  (seedAuthorityActive wit_seed_port = false -> HandleZIP wit_seed_port wit_ask wit_world = Some (wit_world, None)) /\
  (seedAuthorityActive wit_seed_port = true ->
   exists out,
     HandleZIP wit_seed_port wit_ask wit_world
       = Some (with_emitted ([] ++ [PortSend (str "en0") out]) wit_world, None) /\
     DstNet out = 1 /\ DstNode out = 7 /\ DstSocket out = 6 /\
     ZIP.UnmarshalPacket (Data out) = Ok (ZIP.PGetNetInfoReply
       (ZIP.MkNetInfo (negb known) false (Z.of_nat (size (availableZones wit_seed_port)) =? 1)
          0 0 (str "home") (MulticastAddr (if known then str "home" else str "home"))
          (if known then [] else str "home")))).
Proof.
  apply (netinfo_answered wit_seed_port wit_ask (ZIP.MkGetNetInfo (str "home")) wit_world);
    [reflexivity|reflexivity|reflexivity|const_widths|const_widths|unfold name_fits; const_widths
    |unfold name_fits; const_widths].
Defined.

(** A Reply that names a zone for network 9. *)
Definition wit_reply : ExtPacket := wit_zip ([2; 1; 0; 9; 3] ++ str "lab").
Definition wit_p : ZIP.ReplyPacket := ZIP.MkReply false 0 {[9 := [str "lab"]]}.

Example zip_reply_learned_witness :
  exists w', HandleZIP wit_port wit_reply wit_world = Some (w', None) /\ reachable (table w') /\ emitted w' = [] /\
    (forall n, Routes (net_at (table w') n) = Routes (net_at wit_rt n)) /\
    (forall n, ZoneNames (net_at (table w') n) = ZoneNames (net_at wit_rt n) ∪
       list_to_set (default [] (ZIP.Networks wit_p !! n))).
Proof.
  apply (zip_reply_learned wit_port wit_reply wit_p wit_world);
    [exact wit_reachable|const_widths|reflexivity|vm_compute; reflexivity].
Defined.

Lemma wit_names_short : names_short wit_rt.
Proof.
  assert (H : map_Forall (fun _ nw => set_Forall (fun z => zlen z <= 255) (ZoneNames nw)) (byNetwork wit_rt))
    by (apply (bool_decide_unpack _); vm_compute; exact I).
  intros n z. unfold net_at. destruct (byNetwork wit_rt !! n) as [nw|] eqn:E; [apply (H n nw E)|].
  intros Hz. by apply elem_of_empty in Hz.
Qed.

Example zip_returns_witness :
  exists w' e, HandleZIP wit_port wit_query wit_world = Some (w', e) /\ reachable (table w') /\ names_short (table w').
Proof.
  apply (zip_returns wit_port wit_query wit_world); [exact wit_reachable|exact wit_names_short|const_widths].
Defined.
