(* ===== verification/Services.v ===== *)
(** * AppleTalk services of the router: NBP and AEP ([router/nbp.go],
      [router/nbp_aurp.go], [router/aep.go]) and the DDP side of the AURP input
      loop ([router/aurp.go])

    A handler gets its own copy of the packet that arrived; where the code
    rewrites it in place, the rewritten packet is passed on. *)
From S2P Require Import Prelude Wtacc AurpHeaders AurpTuples PeerPolicy GoSort RouteTable.
From S2P Require Import AtalkNbp Atalk RouteExport PeerState DdpPolicy Seed LoopProbe Router.
Import RT Policy DDP Tunnel Router.

Module Services.

(** [meta.NameVersion]. *)
Definition NameVersion : list Z := str "P-AURP v1.0.2".

Section Services.
Context {GStr : GoStrings} `{MT : Multitalk}.

(** ** NBP *)

Definition helloWorldThisIsMe (port : Port) (nbpID : Z) (tuple : NBP.Tuple) :
    res (option ExtPacket) :=
  if negb (bool_decide (NBP.Object tuple = NameVersion))
     && negb (bool_decide (NBP.Object tuple = str "=")) then Ok None
  else if negb (bool_decide (NBP.Type_ tuple = str "AppleRouter"))
          && negb (bool_decide (NBP.Type_ tuple = str "=")) then Ok None
  else if negb (bool_decide (NBP.Zone tuple = defaultZoneName port))
          && negb (bool_decide (NBP.Zone tuple = str "*"))
          && negb (bool_decide (NBP.Zone tuple = [])) then Ok None
  else
    let respPkt := NBP.MkPacket NBP.FunctionLkUpReply nbpID
      [NBP.MkTuple (a_Network (myAddr port)) (a_Node (myAddr port)) 253 0 NameVersion
         (str "AppleRouter") (defaultZoneName port)] in
    respRaw ← wrap_err "couldn't marshal LkUp-Reply: %v" [] (NBP.Marshal respPkt);
    Ok (Some (originate (myAddr port) 2 (NBP.Network tuple) (NBP.Node tuple) (NBP.Socket tuple)
                ProtoNBP respRaw)).

(** A LkUp for the zone of [tuple] goes out on each port of that zone. *)
Fixpoint fwdreq_loop (tuple : NBP.Tuple) (ps : list Port) (ddpkt : ExtPacket)
    (nbpkt : NBP.Packet) : R error :=
  match ps with
  | [] => mret None
  | outPort :: ps =>
      if negb (bool_decide (NBP.Zone tuple ∈ availableZones outPort)) then
        fwdreq_loop tuple ps ddpkt nbpkt
      else
        let nbpkt := NBP.with_Function NBP.FunctionLkUp nbpkt in
        checkr (wrap_err "couldn't marshal LkUp: %v" [] (NBP.Marshal nbpkt)) fail_with
          (fun nbpRaw =>
             let ddpkt := with_Data nbpRaw (with_DstNode 0xFF (with_DstNet 0 ddpkt)) in
             attempt emit (PortZoneMulticast (device outPort) (NBP.Zone tuple) ddpkt);;
             checkr (helloWorldThisIsMe outPort (NBP.NBPID nbpkt) tuple) fail_with (fun outDDP =>
               match outDDP with
               | None => mret None
               | Some outDDP =>
                   attempt Output outDDP;;
                   fwdreq_loop tuple ps ddpkt nbpkt
               end))
  end.

Definition handleNBPFwdReq (ddpkt : ExtPacket) (nbpkt : NBP.Packet) : R error :=
  match NBP.Tuples nbpkt with
  | [] => fun _ => None
  | tuple :: _ => ps ← getw ports; fwdreq_loop tuple ps ddpkt nbpkt
  end.

Fixpoint brrq_loop (port : Port) (ddpkt : ExtPacket) (tuple : NBP.Tuple) (routes : list Route)
    (nbpkt : NBP.Packet) : R error :=
  match routes with
  | [] => mret None
  | route :: routes =>
      match Target route with
      | Some (EtherTalkPort etPort) =>
          let nbpkt := NBP.with_Function NBP.FunctionLkUp nbpkt in
          checkr (wrap_err "couldn't marshal LkUp: %v" [] (NBP.Marshal nbpkt)) fail_with
            (fun nbpRaw =>
               let outDDP := originate (myAddr port) 2 0 0xFF 2 ProtoNBP nbpRaw in
               attempt emit (PortZoneMulticast etPort (NBP.Zone tuple) outDDP);;
               checkr (helloWorldThisIsMe port (NBP.NBPID nbpkt) tuple) fail_with (fun outDDP2 =>
                 match outDDP2 with
                 | None => brrq_loop port ddpkt tuple routes nbpkt
                 | Some outDDP2 =>
                     attempt emit (PortSend (device port) outDDP2);;
                     brrq_loop port ddpkt tuple routes nbpkt
                 end))
      | _ =>
          let nbpkt := NBP.with_Function NBP.FunctionFwdReq nbpkt in
          checkr (wrap_err "couldn't marshal FwdReq: %v" [] (NBP.Marshal nbpkt)) fail_with
            (fun nbpRaw =>
               let outDDP := originate (MkAddr (SrcNet ddpkt) (SrcNode ddpkt)) (SrcSocket ddpkt)
                               (NetStart (rkey route)) 0 2 ProtoNBP nbpRaw in
               attempt Output outDDP;;
               brrq_loop port ddpkt tuple routes nbpkt)
      end
  end.

Definition handleNBPBrRq (port : Port) (ddpkt : ExtPacket) (nbpkt : NBP.Packet) : R error :=
  match NBP.Tuples nbpkt with
  | [] => fun _ => None
  | tuple :: _ =>
      rt ← getw table; n ← getw clock;
      brrq_loop port ddpkt tuple (RoutesForZone rt n (NBP.Zone tuple)) nbpkt
  end.

Definition HandleNBP (port : Port) (ddpkt : ExtPacket) : R error :=
  if negb (Proto ddpkt =? ProtoNBP) then
    fail_with (Errorf "invalid DDP type %d on socket 2" [AInt (Proto ddpkt)])
  else
    checkr (wrap_err "invalid packet: %w" [] (NBP.Unmarshal (Data ddpkt))) fail_with (fun nbpkt =>
      let f := NBP.Function_ nbpkt in
      if f =? NBP.FunctionLkUp then
        match NBP.Tuples nbpkt with
        | [] => fun _ => None
        | tuple :: _ =>
            checkr (helloWorldThisIsMe port (NBP.NBPID nbpkt) tuple) fail_with (fun outDDP =>
              match outDDP with
              | None => mret None
              | Some outDDP => emit (PortSend (device port) outDDP)
              end)
        end
      else if f =? NBP.FunctionFwdReq then handleNBPFwdReq ddpkt nbpkt
      else if f =? NBP.FunctionBrRq then handleNBPBrRq port ddpkt nbpkt
      else fail_with (Errorf "TODO: handle function %v" [AStr (NBP.Function_String f)])).

Definition HandleNBPFromAURP (ddpkt : ExtPacket) : R error :=
  if negb (Proto ddpkt =? ProtoNBP) then
    fail_with (Errorf "invalid DDP type %d on socket 2" [AInt (Proto ddpkt)])
  else
    checkr (wrap_err "invalid NBP packet: %v" [] (NBP.Unmarshal (Data ddpkt))) fail_with
      (fun nbpkt =>
         if negb (NBP.Function_ nbpkt =? NBP.FunctionFwdReq) then
           fail_with (Errorf "can't handle %v" [AStr (NBP.Function_String (NBP.Function_ nbpkt))])
         else handleNBPFwdReq ddpkt nbpkt).

(** ** AEP ([atalk/aep/aep.go], [aep.go]) *)

Definition EchoRequest : Z := 1.
Definition EchoReply : Z := 2.

Record AEPPacket := { ep_Function : Z; ep_Data : list Z }.

Definition AEP_Marshal (p : AEPPacket) : res (list Z) :=
  if (ep_Function p <? 1) || (2 <? ep_Function p) then
    Err (Errorf "invalid AEP function %d" [AInt (ep_Function p)])
  else if zlen (ep_Data p) =? 0 then Err (Errorf "empty AEP packet" [])
  else Ok ([ep_Function p] ++ ep_Data p).

Definition AEP_Unmarshal (data : list Z) : res AEPPacket :=
  if zlen data <? 1 then
    Err (Errorf "insufficient input length %d for AEP packet" [AInt (zlen data)])
  else f ← idx data 0; d ← slice_from data 1; Ok {| ep_Function := f; ep_Data := d |}.

(** [ddpkt.Data[0] = b] panics on empty data. *)
Definition set_first (b : Z) (data : list Z) : res (list Z) :=
  match data with [] => Panic | _ :: data => Ok (b :: data) end.

Definition prepareAEPReply (p : ExtPacket) : res ExtPacket :=
  data ← set_first EchoReply (Data p);
  Ok (MkExt (Size p) 0 (SrcNet p) (DstNet p) (SrcNode p) (DstNode p) (SrcSocket p) (DstSocket p)
        (Proto p) data).

Definition HandleAEP (ddpkt : ExtPacket) : R error :=
  if negb (Proto ddpkt =? ProtoAEP) then
    fail_with (Errorf "invalid DDP type %d on socket 4" [AInt (Proto ddpkt)])
  else
    checkr (AEP_Unmarshal (Data ddpkt)) fail_with (fun ep =>
      if ep_Function ep =? EchoReply then
        fail_with (Errorf "echo reply received at socket 4 why?" [])
      else if ep_Function ep =? EchoRequest then
        checkr (prepareAEPReply ddpkt) fail_with Output
      else fail_with (Errorf "invalid AEP function %d" [AInt (ep_Function ep)])).

(** ** DDP packets that arrive through a tunnel ([AURPInput]) *)

Fixpoint find_local (ps : list Port) (dst : Z) : option Port :=
  match ps with
  | [] => None
  | p :: ps =>
      if (netStart p <=? dst) && (dst <=? netEnd p) then Some p else find_local ps dst
  end.

(** The body of the AppleTalk case; the error it returns is the one the loop
    logs.  [r.Config] is set when the loop runs. *)
Definition AURPInput_AppleTalk (peer : Ingress) (data : list Z) : R error :=
  let c := in_timing peer in let i := in_ident peer in
  checkr (ExtUnmarshal data) fail_with (fun ddpkt =>
    _ ← tally (tunnelID i) ddpPacketsIn 1;
    _ ← tally (tunnelID i) ddpBytesIn (zlen data);
    if importNetworkHidden c i (SrcNet ddpkt) then mret None
    else
      checkr (remapInboundDDP c i (Some ddpkt)) fail_with (fun ddpkt =>
        checkr (filterDeviceNBP c i ddpkt (str "import")) fail_with (fun '(filtered, drop) =>
          if drop : bool then mret None
          else match filtered with
          | None => fun _ => None
          | Some ddpkt =>
              cfg ← getw config;
              match cfg with
              | None => fun _ => None
              | Some cfg =>
                  if networkHidden cfg (DstNet ddpkt) then mret None
                  else
                    ps ← getw ports;
                    let localPort := find_local ps (DstNet ddpkt) in
                    if (DstNode ddpkt =? 0) && bool_decide (is_Some localPort) then
                      if negb (DstSocket ddpkt =? 2) then mret None
                      else HandleNBPFromAURP ddpkt
                    else OutputFromAURP peer ddpkt
              end
          end))).

End Services.
End Services.
