(* ===== verification/ServicesSpec.v ===== *)
(** * AppleTalk services: properties of module Services *)
From S2P Require Import Prelude Wtacc AurpHeaders AurpTuples PeerPolicy GoSort RouteTable.
From S2P Require Import RouteTableInv RouteTableOps RouteTableSpec.
From S2P Require Import AtalkNbp Atalk RouteExport PeerState DdpPolicy TunnelSpec Seed LoopProbe Router.
From S2P Require Import RouterSpec Services.
Import RT Policy DDP Tunnel Router Services.

Section Spec.
Context {GStr : GoStrings} {GS : GoSort} `{MT : Multitalk} {ML : MultitalkLaws}.

(** ** Totality: from a reachable table a step returns, and leaves one. *)

Definition rok {A} (m : R A) : Prop :=
  forall w, reachable (table w) -> exists w' a, m w = Some (w', a) /\ reachable (table w').

Lemma rok_ret {A} (a : A) : rok (mret a).
Proof. intros w Hw. by exists w, a. Qed.
Lemma rok_bind {A B} (m : R A) (f : A -> R B) : rok m -> (forall a, rok (f a)) -> rok (m ≫= f).
Proof.
  intros Hm Hf w Hw. destruct (Hm w Hw) as (w1 & a & E & Hw1). rewrite (r_bind _ _ _ _ _ E).
  by apply Hf.
Qed.
Lemma rok_getw {A} (f : RW -> A) : rok (getw f).
Proof. intros w Hw. by exists w, (f w). Qed.
Lemma rok_tally id c n : rok (tally id c n).
Proof. intros w Hw. by eexists _, _. Qed.
Lemma rok_emit e : rok (emit e).
Proof. intros w Hw. unfold emit. destruct (sends w) as [|[] ?]; by eexists _, _. Qed.
Lemma rok_fail e : rok (fail_with e).
Proof. apply rok_ret. Qed.
Lemma rok_attempt (m : R error) (k : R error) : rok m -> rok k -> rok (attempt m;; k).
Proof. intros Hm Hk. apply rok_bind; [done|]. intros [e|]; [apply rok_ret|done]. Qed.
Lemma rok_checkr {A} (P : A -> Prop) (r : res A) (k : A -> R error) :
  safe P r -> (forall a, P a -> rok (k a)) -> rok (checkr r fail_with k).
Proof. destruct r; cbn [safe checkr]; intros H Hk; [by apply Hk|apply rok_fail|done]. Qed.
Lemma rok_if {A} (b : bool) (m1 m2 : R A) : rok m1 -> rok m2 -> rok (if b then m1 else m2).
Proof. by destruct b. Qed.

Lemma rok_note p dst ing : rok (noteRouteTraffic p dst ing).
Proof.
  intros w Hw. destruct (noteRouteTraffic_counted p dst ing w) as (w' & E & [Hr _] & _).
  exists w', tt. split; [done|]. by eapply reachable_steps.
Qed.

(** Routes that come from the table have a target. *)
Lemma rok_prepared pk route ing :
  is_Some (Target route) ->
  rok (checkr (prepareOutboundForRoute pk route) fail_with (fun outDDP =>
    attempt forward_to route outDDP;; _ ← noteRouteTraffic (Some outDDP) route ing; mret None)).
Proof.
  intros [t Ht]. destruct (prepare_cases pk route t Ht) as (out & -> & _). cbn [checkr].
  apply rok_attempt; [unfold forward_to; rewrite Ht; apply rok_emit|].
  apply rok_bind; [apply rok_note|intros _; apply rok_ret].
Qed.

Lemma first_route_target rt n p :
  rt_inv rt -> Zero (first_route p (Routes (net_at rt n))) = false ->
  is_Some (Target (first_route p (Routes (net_at rt n)))).
Proof.
  intros Hinv Hz. pose proof (first_route_optimal rt n p Hinv) as Ho.
  destruct (optimal_cases _ _ _ _ Hinv Ho) as [(_ & Hz' & _)|(_ & Hst & _)]; [congruence|].
  destruct (stored_target _ _ Hinv Hst) as (t & Ht & _). by exists t.
Qed.

Lemma outputRoute_safe pk id rt n :
  rt_inv rt -> safe (fun r => is_Some (Target r)) (outputRoute pk id rt n).
Proof.
  intros Hinv. unfold outputRoute. case_if; cbv zeta.
  - case_if; [done|]. cbn [safe]. by apply first_route_target.
  - destruct (Zero (LookupAvoidingAURPTunnel _ _ _ _)) eqn:Ez; cbn [negb].
    + by case_if.
    + cbn [safe]. by apply first_route_target.
Qed.

Lemma rok_Output pk : rok (Output pk).
Proof.
  intros w Hw. pose proof (reachable_inv _ Hw) as Hinv. unfold Output.
  erewrite (r_bind (getw table)) by done. erewrite (r_bind (getw clock)) by done.
  apply (rok_checkr (fun r => is_Some (Target r))); [by apply outputRoute_safe| |done].
  intros r Hr. by apply rok_prepared.
Qed.

Lemma reduce_safe pk r : safe (fun _ => True) (reduceAURPHopCount pk r).
Proof. unfold reduceAURPHopCount. by repeat case_if. Qed.

Lemma rok_OutputFromAURP ing pk : rok (OutputFromAURP ing pk).
Proof.
  intros w Hw. pose proof (reachable_inv _ Hw) as Hinv. unfold OutputFromAURP.
  erewrite (r_bind (getw config)) by done. erewrite (r_bind (getw table)) by done.
  erewrite (r_bind (getw clock)) by done. cbv zeta. case_if; [by apply rok_fail|].
  pose proof (outputRoute_safe pk (tunnelID (in_ident ing)) (table w) (clock w) Hinv) as Hs.
  destruct (outputRoute _ _ _ _) as [r|e|]; cbn [checkr safe] in *; [| |done].
  - destruct Hs as [t Ht]. unfold target_class. rewrite Ht. cbn [fmap option_fmap option_map].
    apply (rok_bind _ _); [apply rok_if; [apply rok_tally|apply rok_ret]|intros _|done].
    apply rok_if; [apply rok_fail|]. apply (rok_checkr (fun _ => True)).
    + destruct (config w); [|done]. case_if; [apply reduce_safe|done].
    + intros [p ch] _. apply rok_bind; [apply rok_if; [apply rok_tally|apply rok_ret]|intros _].
      apply rok_prepared. by exists t.
  - apply (rok_bind _ _); [apply rok_if; [apply rok_tally|apply rok_ret]|intros _|done].
    apply rok_fail.
Qed.

Lemma marshal_safe fmt p : safe (fun _ => True) (wrap_err fmt [] (NBP.Marshal p)).
Proof. apply safe_wrap. pose proof (Marshal_no_panic p). by destruct (NBP.Marshal p). Qed.

Lemma hello_safe port id tuple : safe (fun _ => True) (helloWorldThisIsMe port id tuple).
Proof.
  unfold helloWorldThisIsMe. do 3 (case_if; [done|]).
  eapply safe_bind; [apply marshal_safe|]. done.
Qed.

Lemma rok_fwdreq_loop tuple ps pk nbpkt : rok (fwdreq_loop tuple ps pk nbpkt).
Proof.
  revert pk nbpkt. induction ps as [|p ps IH]; intros pk nbpkt; cbn [fwdreq_loop]; [apply rok_ret|].
  apply rok_if; [apply IH|]. cbv zeta. eapply rok_checkr; [apply marshal_safe|]. intros raw _.
  apply rok_attempt; [apply rok_emit|]. eapply rok_checkr; [apply hello_safe|].
  intros [out|] _; [|apply rok_ret]. apply rok_attempt; [apply rok_Output|apply IH].
Qed.

Lemma rok_handleNBPFwdReq pk n : NBP.Tuples n <> [] -> rok (handleNBPFwdReq pk n).
Proof.
  intros Hn. unfold handleNBPFwdReq. destruct (NBP.Tuples n); [done|].
  apply rok_bind; [apply rok_getw|]. intros ps. apply rok_fwdreq_loop.
Qed.

Lemma unmarshal_safe fmt data :
  bytes_ok data -> safe (fun n => NBP.Tuples n <> []) (wrap_err fmt [] (NBP.Unmarshal data)).
Proof.
  intros Hd. apply safe_wrap. eapply safe_mono; [by apply Unmarshal_safe|].
  intros n (_ & _ & Hc & _). by apply count_nonempty.
Qed.

Lemma rok_HandleNBPFromAURP pk : bytes_ok (Data pk) -> rok (HandleNBPFromAURP pk).
Proof.
  intros Hd. unfold HandleNBPFromAURP. apply rok_if; [apply rok_fail|].
  eapply rok_checkr; [by apply unmarshal_safe|]. intros n Hn.
  apply rok_if; [apply rok_fail|by apply rok_handleNBPFwdReq].
Qed.

Lemma rok_brrq_loop port pk tuple routes nbpkt : rok (brrq_loop port pk tuple routes nbpkt).
Proof.
  revert nbpkt. induction routes as [|r routes IH]; intros nbpkt; cbn [brrq_loop]; [apply rok_ret|].
  destruct (Target r) as [[etPort| |]|]; cbv zeta;
    (eapply rok_checkr; [apply marshal_safe|intros raw _]);
    [|(apply rok_attempt; [apply rok_Output|apply IH])..].
  apply rok_attempt; [apply rok_emit|]. eapply rok_checkr; [apply hello_safe|].
  intros [out|] _; [|apply IH]. apply rok_attempt; [apply rok_emit|apply IH].
Qed.

Lemma rok_HandleNBP port pk : bytes_ok (Data pk) -> rok (HandleNBP port pk).
Proof.
  intros Hd. unfold HandleNBP. apply rok_if; [apply rok_fail|].
  eapply rok_checkr; [by apply unmarshal_safe|]. intros n Hn. cbv beta in Hn. cbv zeta.
  apply rok_if; [|apply rok_if; [by apply rok_handleNBPFwdReq|apply rok_if; [|apply rok_fail]]].
  - destruct (NBP.Tuples n) as [|t ts]; [done|]. eapply rok_checkr; [apply hello_safe|].
    intros [out|] _; [apply rok_emit|apply rok_ret].
  - unfold handleNBPBrRq. destruct (NBP.Tuples n) as [|t ts]; [done|].
    apply rok_bind; [apply rok_getw|intros rt]. apply rok_bind; [apply rok_getw|intros n'].
    apply rok_brrq_loop.
Qed.

Lemma rok_HandleAEP pk : rok (HandleAEP pk).
Proof.
  unfold HandleAEP. apply rok_if; [apply rok_fail|]. unfold AEP_Unmarshal, prepareAEPReply.
  destruct (Data pk) as [|f data]; [apply rok_fail|].
  rewrite zlen_cons. pose proof (zlen_nonneg data). zdec. rewrite idx_0, bind_Ok.
  rewrite slice_from_pos by lia. cbn [Z.sub Z.add Z.opp Z.pos_sub]. rewrite slice_from_0, bind_Ok.
  cbn [checkr ep_Function set_first]. rewrite bind_Ok. cbn [checkr].
  repeat apply rok_if; try apply rok_fail. apply rok_Output.
Qed.

Lemma remapIn_safe c i pk :
  ext_typed pk -> safe (fun r => exists pk', r = Some pk' /\ ext_typed pk' /\ DstNet pk' = DstNet pk)
    (remapInboundDDP c i (Some pk)).
Proof.
  intros Hp. assert (Hd : bytes_ok (Data pk)) by apply Hp. unfold remapInboundDDP.
  case_if; [by exists pk|].
  pose proof (remapped_u16 c i (SrcNet pk)) as Hu. unfold remapped in Hu.
  destruct (remapInboundNetwork c i (SrcNet pk)) as [m ok]. cbn [fst] in Hu.
  set (w := if ok then with_SrcNet m pk else pk).
  assert (Hdst : DstNet w = DstNet pk) by (unfold w; by destruct ok).
  assert (Hw : ext_typed w).
  { unfold w. destruct ok; [|done]. destruct Hp as (? & ? & ? & ? & H).
    split; [done|]. split; [done|]. split; [done|]. split; [by apply Hu|exact H]. }
  apply (safe_bind (fun r => ext_typed r.1 /\ DstNet r.1 = DstNet pk)).
  - case_if; [|done]. unfold remap_nbp.
    destruct (remap_nbp c i w ok) as [[w' ch']| |] eqn:En; unfold remap_nbp in En; rewrite En.
    + cbn [safe fst]. destruct (remap_nbp_spec c i w ok w' ch') as (n & _ & _ & [[-> _]|(data & -> & _ & _ & Hdt)]);
        [by apply Hw|exact En|done|]. split; [by apply with_Data_typed|exact Hdst].
    + done.
    + exfalso. revert En. pose proof (Unmarshal_safe (Data w) ltac:(apply Hw)) as Hs.
      destruct (NBP.Unmarshal (Data w)) as [n| |]; [|done|done]. cbn [wrap_err]. rewrite bind_Ok.
      destruct (remap_tuples c i (NBP.Tuples n)) as [ts []]; [|done].
      pose proof (Marshal_no_panic (NBP.with_Tuples ts n)). by destruct (NBP.Marshal _).
  - intros [w' ch] [Hw' Hd']. cbn [fst] in Hw', Hd'. case_if; [by exists pk|].
    eapply safe_bind; [by apply safe_verify|]. intros [] _. eexists. split; [done|].
    split; [by apply with_Cksum_typed|exact Hd'].
Qed.

Lemma rok_AURPInput ing data :
  bytes_ok data -> forall w, config w <> None -> reachable (table w) ->
  exists w' e, AURPInput_AppleTalk ing data w = Some (w', e) /\ reachable (table w').
Proof.
  intros Hd w Hc Hr. unfold AURPInput_AppleTalk. cbv zeta.
  pose proof (ExtUnmarshal_typed data Hd) as Hs.
  destruct (ExtUnmarshal data) as [pk|e|]; cbn [checkr safe] in *; [|by apply rok_fail|done].
  erewrite (r_bind (tally _ _ _)) by done. erewrite (r_bind (tally _ _ _)) by done.
  case_if; [by eexists _, _|].
  set (w1 := with_tallies _ (with_tallies _ w)).
  assert (Hc1 : config w1 <> None) by done. assert (Hr1 : reachable (table w1)) by done. clearbody w1.
  pose proof (remapIn_safe (in_timing ing) (in_ident ing) pk Hs) as Hm.
  destruct (remapInboundDDP _ _ _) as [r|e|]; cbn [checkr safe] in *; [|by apply rok_fail|done].
  destruct Hm as (pk1 & -> & Hp1 & Hd1).
  pose proof (filter_safe (in_timing ing) (in_ident ing) pk1 (str "import") Hp1) as Hf.
  destruct (filterDeviceNBP _ _ _ _) as [[f drop]|e|]; cbn [checkr safe] in *;
    [|by apply rok_fail|done].
  destruct drop; [by eexists _, _|]. destruct Hf as (pk2 & -> & Hp2 & _).
  erewrite (r_bind (getw config)) by done. destruct (config w1) as [cfg|]; [|done].
  case_if; [by eexists _, _|]. erewrite (r_bind (getw ports)) by done. cbv zeta.
  assert (Hb : bytes_ok (Data pk2)) by apply Hp2.
  case_if; [case_if; [by eexists _, _|by apply rok_HandleNBPFromAURP]|by apply rok_OutputFromAURP].
Qed.

(** ** Emitting *)

(** A step that only sends keeps the answers of the route table. *)
Definition answers_kept (w w' : RW) : Prop :=
  (forall n m, Lookup (table w') n m = Lookup (table w) n m) /\ reachable (table w') /\
  clock w' = clock w /\ sends w' = [] /\ ports w' = ports w.

Lemma Output_sends w pk :
  reachable (table w) -> sends w = [] -> Zero (Lookup (table w) (clock w) (DstNet pk)) = false ->
  exists w' t out, Output pk w = Some (w', None) /\
    Target (Lookup (table w) (clock w) (DstNet pk)) = Some t /\
    (out = pk \/ out = with_Cksum 0 pk) /\
    emitted w' = emitted w ++ [TargetForward t out] /\ answers_kept w w'.
Proof.
  intros Hr Hs Hz. pose proof (reachable_inv _ Hr) as Hinv.
  pose proof (first_route_optimal (table w) (DstNet pk) (Valid (table w) (clock w)) Hinv) as Ho.
  change (first_route _ _) with (Lookup (table w) (clock w) (DstNet pk)) in Ho.
  destruct (optimal_cases _ _ _ _ Hinv Ho) as [(_ & Hz' & _)|(_ & Hst' & _)]; [congruence|].
  destruct (stored_target _ _ Hinv Hst') as (t & Ht & _).
  destruct (prepared_forward pk _ t None w Ht Hs) as (w' & out & E & Hout & Hc & _).
  exists w', t, out. split.
  { unfold Output. erewrite (r_bind (getw table)) by done. erewrite (r_bind (getw clock)) by done.
    unfold outputRoute. rewrite bool_decide_eq_true_2 by done. cbv zeta. rewrite Hz. exact E. }
  destruct Hc as ([Hrt Hl] & Hp & _ & Hk & He & Hs'). split; [done|]. split; [done|]. split; [done|].
  split; [done|]. split; [by eapply reachable_steps|]. cbn [clock sends ports with_emitted] in *.
  split; [done|]. split; [congruence|done].
Qed.

Lemma originate_data src ss dn dd ds pr data : Data (originate src ss dn dd ds pr data) = data.
Proof. done. Qed.

(** An NBP request with one tuple, given one of its four functions. *)
Lemma request_codec n tuple f :
  NBP.pkt_typed n -> NBP.Tuples n = [tuple] -> NBP.tuple_fits tuple -> 1 <= f <= 4 ->
  exists raw, NBP.Marshal (NBP.with_Function f n) = Ok raw /\
    NBP.Unmarshal raw = Ok (NBP.with_Function f n).
Proof.
  intros (_ & Hi & Ht) E Hfit Hf. exists (enc_nbp (NBP.with_Function f n)). split.
  - apply Marshal_ok; cbn [NBP.with_Function NBP.Function_ NBP.Tuples]; rewrite ?E; [done| |].
    + unfold zlen. simpl. lia.
    + by apply Forall_cons.
  - rewrite <- (app_nil_r (enc_nbp _)). apply Unmarshal_enc.
    + split; [cbn; unfold u8; lia|]. by split.
    + cbn. lia.
    + unfold NBP.count_ok. cbn [NBP.with_Function NBP.Function_ NBP.Tuples]. rewrite E.
      unfold zlen. simpl. split; [lia|]. intros ?. lia.
Qed.

(** ** The broadcast request *)

(** What a BrRq from [pk] becomes for one route of its zone. *)
Definition brrq_output (port : Port) (pk : ExtPacket) (n : NBP.Packet) (zone : list Z) (rt : RouteTable)
    (now : Z) (r : Route) (e : Emit) : Prop :=
  match Target r with
  | Some (EtherTalkPort dev) =>
      exists p, e = PortZoneMulticast dev zone p /\
        NBP.Unmarshal (Data p) = Ok (NBP.with_Function NBP.FunctionLkUp n) /\
        DstNet p = 0 /\ DstNode p = 0xFF /\ SrcNet p = a_Network (myAddr port) /\
        SrcNode p = a_Node (myAddr port) /\ Cksum p = 0
  | _ =>
      exists t p, e = TargetForward t p /\ Target (Lookup rt now (NetStart (rkey r))) = Some t /\
        NBP.Unmarshal (Data p) = Ok (NBP.with_Function NBP.FunctionFwdReq n) /\
        DstNet p = NetStart (rkey r) /\ DstNode p = 0 /\ SrcNet p = SrcNet pk /\
        SrcNode p = SrcNode pk /\ SrcSocket p = SrcSocket pk /\ Cksum p = 0
  end.

Lemma answers_kept_trans w1 w2 w3 :
  answers_kept w1 w2 -> answers_kept w2 w3 -> answers_kept w1 w3.
Proof.
  intros (L1 & _ & K1 & _ & P1) (L2 & R2 & K2 & S2 & P2). split; [intros; by rewrite L2|].
  split; [done|]. split; [congruence|]. split; [done|congruence].
Qed.

Lemma emit_kept e w :
  reachable (table w) -> sends w = [] ->
  exists w', emit e w = Some (w', None) /\ emitted w' = emitted w ++ [e] /\ answers_kept w w'.
Proof. intros Hr Hs. eexists. split; [by apply emit_ok|]. done. Qed.

(** The zone's routes answer lookups of the first network of their range. *)
Lemma zone_route_start rt now z r :
  rt_inv rt -> r ∈ RoutesForZone rt now z -> Zero (Lookup rt now (NetStart (rkey r))) = false.
Proof.
  intros Hinv (n & _ & _ & <- & Hz)%elem_of_routes_for.
  pose proof (first_route_optimal rt n (Valid rt now) Hinv) as Ho.
  change (first_route _ _) with (Lookup rt now n) in Ho.
  destruct (optimal_cases _ _ _ _ Hinv Ho) as [(_ & Hz' & _)|(_ & Hst & Hc & Hv & _)]; [congruence|].
  set (r := Lookup rt now n) in *.
  pose proof (first_route_optimal rt (NetStart (rkey r)) (Valid rt now) Hinv) as Ho'.
  change (first_route _ _) with (Lookup rt now (NetStart (rkey r))) in Ho'.
  destruct (optimal_cases _ _ _ _ Hinv Ho') as [(_ & _ & Hn)|(Hz' & _)]; [|done].
  exfalso. apply (Hn r); [done| |done]. unfold covers in *. lia.
Qed.

Lemma brrq_output_kept port pk n zone w w1 r e :
  answers_kept w w1 ->
  brrq_output port pk n zone (table w1) (clock w1) r e ->
  brrq_output port pk n zone (table w) (clock w) r e.
Proof. intros (Hl & _ & -> & _). unfold brrq_output. destruct (Target r) as [[]|]; by rewrite ?Hl. Qed.

Lemma with_Function_twice f g n : NBP.with_Function f (NBP.with_Function g n) = NBP.with_Function f n.
Proof. done. Qed.

Lemma brrq_port port n tuple dev g w :
  NBP.pkt_typed n -> NBP.Tuples n = [tuple] -> NBP.tuple_fits tuple ->
  reachable (table w) -> sends w = [] ->
  exists raw w1, NBP.Marshal (NBP.with_Function NBP.FunctionLkUp (NBP.with_Function g n)) = Ok raw /\
    let p := originate (myAddr port) 2 0 0xFF 2 ProtoNBP raw in
    emit (PortZoneMulticast dev (NBP.Zone tuple) p) w = Some (w1, None) /\
    emitted w1 = emitted w ++ [PortZoneMulticast dev (NBP.Zone tuple) p] /\ answers_kept w w1 /\
    NBP.Unmarshal raw = Ok (NBP.with_Function NBP.FunctionLkUp n).
Proof.
  intros Ht E Hf Hr Hs.
  destruct (request_codec n tuple NBP.FunctionLkUp Ht E Hf ltac:(done)) as (raw & Em & Eu).
  destruct (emit_kept (PortZoneMulticast dev (NBP.Zone tuple)
    (originate (myAddr port) 2 0 0xFF 2 ProtoNBP raw)) w Hr Hs) as (w1 & E1 & He & Hk).
  exists raw, w1. rewrite with_Function_twice. by split.
Qed.

Lemma brrq_remote pk n tuple r g w :
  NBP.pkt_typed n -> NBP.Tuples n = [tuple] -> NBP.tuple_fits tuple ->
  reachable (table w) -> sends w = [] ->
  Zero (Lookup (table w) (clock w) (NetStart (rkey r))) = false ->
  exists raw w1 t out,
    NBP.Marshal (NBP.with_Function NBP.FunctionFwdReq (NBP.with_Function g n)) = Ok raw /\
    let p := originate (MkAddr (SrcNet pk) (SrcNode pk)) (SrcSocket pk) (NetStart (rkey r)) 0 2
               ProtoNBP raw in
    Output p w = Some (w1, None) /\ (out = p \/ out = with_Cksum 0 p) /\
    Target (Lookup (table w) (clock w) (NetStart (rkey r))) = Some t /\
    emitted w1 = emitted w ++ [TargetForward t out] /\ answers_kept w w1 /\
    NBP.Unmarshal raw = Ok (NBP.with_Function NBP.FunctionFwdReq n).
Proof.
  intros Ht E Hf Hr Hs Hz.
  destruct (request_codec n tuple NBP.FunctionFwdReq Ht E Hf ltac:(done)) as (raw & Em & Eu).
  destruct (Output_sends w (originate (MkAddr (SrcNet pk) (SrcNode pk)) (SrcSocket pk)
    (NetStart (rkey r)) 0 2 ProtoNBP raw) Hr Hs Hz) as (w1 & t & out & E1 & Ht1 & Ho & He & Hk).
  exists raw, w1, t, out. rewrite with_Function_twice. do 6 (split; [done|]). done.
Qed.

Lemma brrq_loop_spec port pk n tuple :
  NBP.pkt_typed n -> NBP.Tuples n = [tuple] -> NBP.tuple_fits tuple ->
  helloWorldThisIsMe port (NBP.NBPID n) tuple = Ok None ->
  forall routes g w, reachable (table w) -> sends w = [] ->
  Forall (fun r => Zero (Lookup (table w) (clock w) (NetStart (rkey r))) = false) routes ->
  exists w' outs, brrq_loop port pk tuple routes (NBP.with_Function g n) w = Some (w', None) /\
    Forall2 (brrq_output port pk n (NBP.Zone tuple) (table w) (clock w)) routes outs /\
    emitted w' = emitted w ++ outs /\ answers_kept w w'.
Proof.
  intros Ht E Hf Hh routes. induction routes as [|r routes IH]; intros g w Hr Hs Hz; cbn [brrq_loop].
  { exists w, []. rewrite app_nil_r. by repeat (split; [done|]). }
  apply Forall_cons in Hz as [Hz Hzs].
  assert (Hstep : exists w1 e g',
    brrq_loop port pk tuple (r :: routes) (NBP.with_Function g n) w =
      brrq_loop port pk tuple routes (NBP.with_Function g' n) w1 /\
    brrq_output port pk n (NBP.Zone tuple) (table w) (clock w) r e /\
    emitted w1 = emitted w ++ [e] /\ answers_kept w w1).
  { unfold brrq_output. cbn [brrq_loop]. destruct (Target r) as [[dev| |]|] eqn:Et; cbv zeta.
    1: { destruct (brrq_port port n tuple dev g w Ht E Hf Hr Hs) as (raw & w1 & Em & E1 & He & Hk & Eu).
         exists w1, (PortZoneMulticast dev (NBP.Zone tuple) (originate (myAddr port) 2 0 0xFF 2 ProtoNBP raw)),
           NBP.FunctionLkUp.
         rewrite Em. cbn [wrap_err checkr]. rewrite (r_bind _ _ _ _ _ E1). cbv beta iota.
         cbn [NBP.NBPID NBP.with_Function]. rewrite Hh. cbn [checkr]. split; [done|].
         split; [by eexists|]. by split. }
    all: destruct (brrq_remote pk n tuple r g w Ht E Hf Hr Hs Hz)
           as (raw & w1 & t & out & Em & E1 & Ho & Htt & He & Hk & Eu);
         exists w1, (TargetForward t out), NBP.FunctionFwdReq;
         rewrite Em; cbn [wrap_err checkr]; rewrite (r_bind _ _ _ _ _ E1); cbv beta iota;
         split; [done|]; split; [|by split];
         exists t, out; split; [done|]; split; [done|]; by destruct Ho as [-> | ->]. }
  destruct Hstep as (w1 & e & g' & Erun & Hout & He & Hk).
  destruct (IH g' w1) as (w' & outs & Erun' & Houts & He' & Hk').
  { apply Hk. } { apply Hk. }
  { eapply Forall_impl; [exact Hzs|]. intros r' Hr'. cbv beta.
    destruct Hk as (Hl & _ & -> & _). by rewrite Hl. }
  exists w', (e :: outs). cbn [brrq_loop] in Erun. rewrite Erun. split; [exact Erun'|].
  split; [constructor; [done|]|split; [by rewrite He', He, <- app_assoc|by eapply answers_kept_trans]].
  eapply Forall2_impl; [exact Houts|]. intros r' e'. by apply brrq_output_kept.
Qed.

(** * Properties *)


(** The lookup a forward request is turned into. *)
Definition fwdreq_lookup (pk : ExtPacket) (n : NBP.Packet) : ExtPacket :=
  with_Data (enc_nbp (NBP.with_Function NBP.FunctionLkUp n)) (with_DstNode 0xFF (with_DstNet 0 pk)).

(** A forward request for a zone becomes a lookup on the first port of
    that zone and on no other: the loop over the ports returns as soon as the
    router itself does not match the name asked for, so that a second attached
    network of the same zone is never searched.  The lookup keeps the checksum
    of the request. *)
Theorem fwdreq_first_port_only (w : RW) (pk : ExtPacket) (n : NBP.Packet) (tuple : NBP.Tuple)
    (before after : list Port) (port : Port) :
  sends w = [] -> NBP.pkt_typed n -> NBP.Tuples n = [tuple] -> NBP.tuple_fits tuple ->
  ports w = before ++ port :: after ->
  Forall (fun p => NBP.Zone tuple ∉ availableZones p) before ->
  NBP.Zone tuple ∈ availableZones port ->
  helloWorldThisIsMe port (NBP.NBPID n) tuple = Ok None ->
  exists w', handleNBPFwdReq pk n w = Some (w', None) /\
    emitted w' = emitted w ++ [PortZoneMulticast (device port) (NBP.Zone tuple) (fwdreq_lookup pk n)] /\
    Cksum (fwdreq_lookup pk n) = Cksum pk.
Proof.
  intros Hs Ht E Hf Hp Hb Hin Hh.
  destruct (request_codec n tuple NBP.FunctionLkUp Ht E Hf ltac:(done)) as (raw & Em & _).
  assert (Er : raw = enc_nbp (NBP.with_Function NBP.FunctionLkUp n)) by by apply Marshal_inv in Em as (_ & _ & _ & ->).
  unfold handleNBPFwdReq. rewrite E. erewrite (r_bind (getw ports)) by done. rewrite Hp. clear Hp.
  induction Hb as [|p before Hp _ IH]; cbn [app fwdreq_loop].
  - rewrite bool_decide_eq_true_2 by done. cbn [negb]. cbv zeta. rewrite Em. cbn [wrap_err checkr].
    rewrite (r_bind _ _ _ _ _ (emit_ok _ w Hs)). cbv beta iota. cbn [NBP.NBPID NBP.with_Function].
    rewrite Hh. cbn [checkr]. eexists. split; [done|]. by subst raw.
  - rewrite bool_decide_eq_false_2 by done. exact IH.
Qed.

(** An echo request is answered with its own data, from the address and
    the socket it was sent to, to the one it came from, without a checksum, and
    the answer is routed like any other packet. *)
Theorem aep_echo_exact (w : RW) (pk : ExtPacket) (data : list Z) :
  reachable (table w) -> sends w = [] -> Proto pk = ProtoAEP -> Data pk = EchoRequest :: data ->
  Zero (Lookup (table w) (clock w) (SrcNet pk)) = false ->
  exists w' t out, HandleAEP pk w = Some (w', None) /\
    Target (Lookup (table w) (clock w) (SrcNet pk)) = Some t /\
    emitted w' = emitted w ++ [TargetForward t out] /\
    out = MkExt (Size pk) 0 (SrcNet pk) (DstNet pk) (SrcNode pk) (DstNode pk) (SrcSocket pk)
            (DstSocket pk) ProtoAEP (EchoReply :: data).
Proof.
  intros Hr Hs Hp Hd Hz.
  set (reply := MkExt (Size pk) 0 (SrcNet pk) (DstNet pk) (SrcNode pk) (DstNode pk) (SrcSocket pk)
            (DstSocket pk) ProtoAEP (EchoReply :: data)).
  destruct (Output_sends w reply Hr Hs Hz) as (w' & t & out & E & Ht & Ho & He & _).
  exists w', t, out. split.
  - unfold HandleAEP. rewrite Hp, Z.eqb_refl. cbn [negb]. unfold AEP_Unmarshal, prepareAEPReply.
    rewrite Hd, zlen_cons. pose proof (zlen_nonneg data). zdec. rewrite idx_0, bind_Ok.
    rewrite slice_from_pos by lia. cbn [Z.sub Z.add Z.opp Z.pos_sub].
    rewrite slice_from_0, bind_Ok. cbn [checkr ep_Function set_first]. rewrite bind_Ok, Hp. exact E.
  - split; [done|]. split; [done|]. by destruct Ho as [-> | ->].
Qed.

(** Whatever bytes come out of a tunnel, the router deals with them: the
    input step returns, never crashes, and leaves the routing table well-formed;
    and nothing at all is sent for a packet that comes from a network hidden on
    import or is addressed to a hidden network. *)
Theorem tunnel_input_total (w : RW) (ing : Ingress) (data : list Z) (cfg : AURPConfig) :
  bytes_ok data -> config w = Some cfg -> reachable (table w) ->
  exists w' e, AURPInput_AppleTalk ing data w = Some (w', e) /\ reachable (table w') /\
    forall pk, ExtUnmarshal data = Ok pk ->
      importNetworkHidden (in_timing ing) (in_ident ing) (SrcNet pk) = true \/
      networkHidden cfg (DstNet pk) = true ->
      emitted w' = emitted w.
Proof.
  intros Hd Hc Hr.
  destruct (rok_AURPInput ing data Hd w ltac:(by rewrite Hc) Hr) as (w' & e & E & Hr').
  exists w', e. split; [done|]. split; [done|]. intros pk Epk Hhid. revert E.
  pose proof (ExtUnmarshal_typed data Hd) as Hs. unfold AURPInput_AppleTalk. cbv zeta.
  rewrite Epk in *. cbn [checkr safe] in *.
  erewrite (r_bind (tally _ _ _)) by done. erewrite (r_bind (tally _ _ _)) by done.
  case_if; [by intros [= <- _]|]. destruct Hhid as [?|Hhid]; [congruence|].
  set (w1 := with_tallies _ (with_tallies _ w)).
  assert (Hw1 : config w1 = Some cfg) by done. assert (He1 : emitted w1 = emitted w) by done.
  clearbody w1. pose proof (remapIn_safe (in_timing ing) (in_ident ing) pk Hs) as Hm.
  destruct (remapInboundDDP _ _ _) as [r|er|]; cbn [checkr safe] in *; [|by intros [= <- _]|done].
  destruct Hm as (pk1 & -> & Hp1 & Hd1).
  pose proof (filter_safe (in_timing ing) (in_ident ing) pk1 (str "import") Hp1) as Hf.
  destruct (filterDeviceNBP _ _ _ _) as [[f drop]|er|]; cbn [checkr safe] in *; [|by intros [= <- _]|done].
  destruct drop; [by intros [= <- _]|]. destruct Hf as (pk2 & -> & _ & _ & Hd2).
  erewrite (r_bind (getw config)) by done. rewrite Hw1, Hd2, Hd1, Hhid. by intros [= <- _].
Qed.
End Spec.

(** ** Witnesses *)

#[local] Instance wit_sort : GoSort := insertion_sort.
#[local] Instance wit_strings : GoStrings := ascii_strings.

Definition wit_port (dev : string) (ns ne cs ce : Z) : Port :=
  {| device := str dev; netStart := ns; netEnd := ne; cableStart := cs; cableEnd := ce;
     myAddr := MkAddr cs 9; defaultZoneName := str "home"; availableZones := {[str "home"]};
     aarpAddress := Some (MkAddr cs 9); operationalRange := Some (cs, ce); seed := None |}.

(** Networks 20-21 attached at en0 and networks 3-5 behind other routers, in
    one zone. *)
Definition wit_rt1 : RouteTable :=
  (AddZonesToNetwork 0 20 [str "home"]
    (run_upsert 0 (EtherTalkPort (str "en0")) true 20 21 0 wit_rt)).1.

Lemma wit_rt1_reachable : reachable wit_rt1.
Proof.
  eapply rtc_r; [|apply step_add_zones; unfold u16; lia].
  apply run_upsert_reachable; [unfold u16; lia..|unfold u8; lia|exact wit_reachable].
Qed.

Definition wit_rw (ps : list Port) : RW :=
  {| table := wit_rt1; ports := ps; config := Some wit_config; clock := 5; emitted := [];
     sends := []; tallies := []; probes := Loop.MkProbes ∅ ∅; loopSignals := []; notes := [] |}.

Definition wit_en0 : Port := wit_port "en0" 20 21 20 21.
Definition wit_en1 : Port := wit_port "en1" 30 31 30 31.

Definition wit_name : NBP.Tuple := NBP.MkTuple 20 7 200 0 (str "Mac") (str "AFPServer") (str "home").
Definition wit_request (f : Z) : NBP.Packet := NBP.MkPacket f 42 [wit_name].
Lemma wit_request_typed f : u8 f -> NBP.pkt_typed (wit_request f).
Proof. intros Hf. split; [exact Hf|]. split; [const_widths|]. constructor; [const_widths|constructor]. Qed.
Lemma wit_name_fits : NBP.tuple_fits wit_name.
Proof. const_widths. Qed.

(** A request from node 20.7 with a valid checksum. *)
Definition wit_ddp (f cksum dst : Z) : ExtPacket :=
  MkExt (13 + 26) cksum dst 20 0 7 2 200 ProtoNBP (enc_nbp (wit_request f)).


Example wit_zone_routes : zlen (RoutesForZone wit_rt1 5 (str "home")) = 2.
Proof. vm_compute. reflexivity. Qed.

(** Two attached networks of the zone: only the first is searched. *)
Example fwdreq_first_port_only_witness :
  exists w', handleNBPFwdReq (wit_ddp 4 0 20) (wit_request 4) (wit_rw [wit_en0; wit_en1]) = Some (w', None) /\
    emitted w' = [] ++ [PortZoneMulticast (str "en0") (str "home") (fwdreq_lookup (wit_ddp 4 0 20) (wit_request 4))] /\
    Cksum (fwdreq_lookup (wit_ddp 4 0 20) (wit_request 4)) = Cksum (wit_ddp 4 0 20).
Proof.
  apply (fwdreq_first_port_only (wit_rw [wit_en0; wit_en1]) (wit_ddp 4 0 20) (wit_request 4) wit_name
    [] [wit_en1] wit_en0);
    first [reflexivity|exact wit_name_fits|by apply elem_of_singleton|by apply Forall_nil|
           apply wit_request_typed; const_widths].
Defined.

Definition wit_echo : ExtPacket := MkExt (13 + 3) 0 20 3 9 7 4 77 ProtoAEP [1; 5; 6].

Example aep_echo_exact_witness :
  exists w' t out, HandleAEP wit_echo (wit_rw [wit_en0]) = Some (w', None) /\
    Target (Lookup wit_rt1 5 3) = Some t /\ emitted w' = [] ++ [TargetForward t out] /\
    out = MkExt (13 + 3) 0 3 20 7 9 77 4 ProtoAEP [2; 5; 6].
Proof.
  apply (aep_echo_exact (wit_rw [wit_en0]) wit_echo [5; 6]);
    [exact wit_rt1_reachable|reflexivity|reflexivity|reflexivity|vm_compute; reflexivity].
Defined.

Example tunnel_input_total_witness :
  exists w' e, AURPInput_AppleTalk wit_ingress (wire (wit_ddp 4 0 55)) (wit_rw [wit_en0]) = Some (w', e) /\
    reachable (table w') /\
    forall pk, ExtUnmarshal (wire (wit_ddp 4 0 55)) = Ok pk ->
      importNetworkHidden wit_config (in_ident wit_ingress) (SrcNet pk) = true \/
      networkHidden wit_config (DstNet pk) = true ->
      emitted w' = [].
Proof.
  apply (tunnel_input_total (wit_rw [wit_en0]) wit_ingress (wire (wit_ddp 4 0 55)) wit_config);
    first [exact wit_rt1_reachable|reflexivity|const_widths].
Defined.

(** The checksum bug in a run: a forward request whose checksum is valid
    is multicast as a lookup whose checksum is not. *)
Theorem fwdreq_emits_stale_checksum :
  exists (w w' : RW) (pk p : ExtPacket) dev zone,
    reachable (table w) /\ ext_typed pk /\ Cksum pk <> 0 /\ verifyDDPChecksum (Some pk) = Ok tt /\
    HandleNBPFromAURP pk w = Some (w', None) /\ emitted w' = [PortZoneMulticast dev zone p] /\
    exists e, verifyDDPChecksum (Some p) = Err e.
Proof.
  set (pk := wit_ddp 4 (ref_checksum (covered (wit_ddp 4 0 20))) 20).
  destruct (clean_run (r := HandleNBPFromAURP pk (wit_rw [wit_en0]))
    (out := [PortZoneMulticast (str "en0") (str "home") (fwdreq_lookup pk (wit_request 4))]))
    as (w' & E & He); [vm_compute; reflexivity|].
  exists (wit_rw [wit_en0]), w', pk, (fwdreq_lookup pk (wit_request 4)), (str "en0"), (str "home").
  split; [exact wit_rt1_reachable|]. split; [const_widths|]. split; [vm_compute; discriminate|].
  split; [vm_compute; reflexivity|]. split; [exact E|]. split; [exact He|].
  eexists. vm_compute. reflexivity.
Qed.

(** A port that learned its cable range instead of having it configured
    is not recognised: a forward request that comes out of a tunnel for its
    network is put on the cable as it is, and no lookup is made. *)
Theorem dynamic_port_misses_fwdreq :
  exists (w w' : RW) (ing : Ingress) (port : Port) (pk : ExtPacket) (t : RouteTarget),
    reachable (table w) /\ ports w = [port] /\ cableStart port <= DstNet pk <= cableEnd port /\
    DstNode pk = 0 /\ DstSocket pk = 2 /\ NBP.Unmarshal (Data pk) = Ok (wit_request NBP.FunctionFwdReq) /\
    NBP.Zone wit_name ∈ availableZones port /\
    AURPInput_AppleTalk ing (wire pk) w = Some (w', None) /\
    emitted w' = [TargetForward (port_target port) pk].
Proof.
  set (port := wit_port "en0" 0 0 20 21). set (pk := with_DstNode 0 (wit_ddp 4 0 20)).
  destruct (clean_run (r := AURPInput_AppleTalk wit_ingress (wire pk) (wit_rw [port]))
    (out := [TargetForward (port_target port) pk])) as (w' & E & He); [vm_compute; reflexivity|].
  exists (wit_rw [port]), w', wit_ingress, port, pk, (port_target port).
  split; [exact wit_rt1_reachable|]. split; [done|]. split; [cbn; lia|].
  do 2 (split; [done|]). split; [vm_compute; reflexivity|].
  split; [vm_compute; reflexivity|]. by split.
Qed.
