(* ===== verification/EtherTalk.v ===== *)
(** * EtherTalk ports ([router/etalk_port.go], the seed loop of [router/seed.go])

    Creation of a port, what it does with each frame it reads, the adoption of
    a cable range and the loop that seeds the cable.  A step runs in a [P]: the
    port's AARP machine and outboxes ([Aarp.EW]) beside the router ([Router.RW]).
    The pointer to a port is its device name; its record in the router's ports
    also holds what its AARP machine answers, which [refresh] brings up to
    date.  Reading and writing frames is outside. *)
From S2P Require Import Prelude Wtacc AurpHeaders AurpTuples PeerPolicy GoSort RouteTable.
From S2P Require Import AtalkNbp Atalk AtalkRtmp AtalkAtp AtalkZip RouteExport PeerState PeerZones DdpPolicy.
From S2P Require Import Seed LoopProbe Aarp Outbox Router Cluster Rtmp Zip Services.
Import RT Policy DDP Tunnel Router Cluster.

Module EtherTalk.

Record CW := { ether : Aarp.EW; routing : RW }.

Definition P (A : Type) : Type := CW -> option (CW * A).

#[global] Instance P_ret : MRet P := fun A a w => Some (w, a).
#[global] Instance P_bind : MBind P := fun A B f m w =>
  match m w with Some (w', a) => f a w' | None => None end.

Definition inE {A} (m : Aarp.E A) : P A := fun w =>
  match m (ether w) with
  | Some (e, a) => Some ({| ether := e; routing := routing w |}, a)
  | None => None
  end.
Definition inR {A} (m : R A) : P A := fun w =>
  match m (routing w) with
  | Some (r, a) => Some ({| ether := ether w; routing := r |}, a)
  | None => None
  end.

(** What the AARP machine of a port answers. *)
Definition port_view (a : Aarp.AARPMachine) (p : Port) : Port :=
  let '(addr, ok) := Aarp.Address a in
  let '(start, end_, operational) := Aarp.OperationalRange a in
  {| device := device p; netStart := netStart p; netEnd := netEnd p; cableStart := cableStart p;
     cableEnd := cableEnd p; myAddr := myAddr p; defaultZoneName := defaultZoneName p;
     availableZones := availableZones p;
     aarpAddress := if ok then Some (Aarp.PairProto addr) else None;
     operationalRange := if operational then Some (start, end_) else None; seed := seed p |}.

Definition port_of (dev : list Z) (ps : list Port) : option Port :=
  List.find (fun p => bool_decide (device p = dev)) ps.

(** [if addr, ok := port.aarpMachine.Address(); ok { port.myAddr = addr.Proto }]. *)
Definition take_address (p : Port) : Port :=
  match aarpAddress p with Some a => port_with_addr a p | None => p end.

Section Port.
Context {GStr : GoStrings} {GS : GoSort} {MO : MapOrder} `{MT : Multitalk} `{ET : Aarp.Ethertalk}.

Definition add_zones (n : Z) (zs : list (list Z)) : R unit :=
  now ← getw clock;
  on_table (fun rt => let '(rt, ns) := AddZonesToNetwork now n zs rt in Some (tt, rt, ns)).

(** ** Adopting a cable range *)

Definition activateConfiguredZones (port : Port) : R error :=
  let start := cableStart port in
  if (start =? 0) || (Aarp.phase2StartupStart <=? start) then mret None
  else _ ← add_zones start (set_range (availableZones port)); mret None.

Definition activateCableRange (port : Port) (start end_ : Z) : R error :=
  if (start =? 0) || (end_ =? 0) || Aarp.isPhase2StartupRange start end_ then
    fail_with (Errorf "refusing to activate invalid/startup cable range %d-%d" [AInt start; AInt end_])
  else
    let oldStart := cableStart port in let oldEnd := cableEnd port in
    rt ← getw table; now ← getw clock;
    attempt
      (if negb (oldStart =? 0) && negb (Aarp.isPhase2StartupRange oldStart oldEnd) &&
          (negb (oldStart =? start) || negb (oldEnd =? end_)) &&
          negb (Zero (find rt (port_target port) oldStart))
       then
         r ← on_table (DeleteRoute now (port_target port) oldStart);
         match r with Ok _ => mret None | Err e => fail_with e | Panic => fun _ => None end
       else mret None);;
    _ ← modport (device port) (setCableRange start end_);
    let port := setCableRange start end_ port in
    r ← on_table (UpsertRoute now (port_target port) true start end_ 0);
    checkr r fail_with (fun _ =>
      if ZipService.seedAuthorityActive port then activateConfiguredZones port
      else match seed port with
           | None => mret None
           | Some state =>
               if bool_decide (Seed.observedZone state <> [])
               then _ ← add_zones start [Seed.observedZone state]; mret None
               else mret None
           end).

(** The new port, and the error with which the process exits. *)
Definition NewEtherTalkPort (dev : list Z) (netStart netEnd : Z) (defaultZoneName : list Z)
    (availableZones : gset (list Z)) (seedMode : Seed.SeedMode) (softSeedDelay : Z) : R (Port * error) :=
  let port :=
    {| device := dev; netStart := netStart; netEnd := netEnd; cableStart := 0; cableEnd := 0;
       myAddr := MkAddr 0 0; defaultZoneName := defaultZoneName; availableZones := availableZones;
       aarpAddress := None; operationalRange := None;
       seed := Some (Seed.newSeedController seedMode softSeedDelay netStart netEnd defaultZoneName) |} in
  let hard := bool_decide (seedMode = Seed.SeedModeHard) in
  let port :=
    if hard then setCableRange netStart netEnd port
    else setCableRange Aarp.phase2StartupStart Aarp.phase2StartupEnd port in
  _ ← modw (fun w => with_ports (ports w ++ [port]) w);
  if hard then err ← activateCableRange port netStart netEnd; mret (port, err)
  else mret (port, None).

(** ** Frames *)

(** The switch on the destination socket; errors are logged. *)
Definition to_socket (port : Port) (ddpkt : ExtPacket) : R unit :=
  let s := DstSocket ddpkt in
  if s =? 1 then _ ← Rtmp.HandleRTMP port ddpkt; mret tt
  else if s =? 2 then _ ← Services.HandleNBP port ddpkt; mret tt
  else if s =? 4 then _ ← Services.HandleAEP ddpkt; mret tt
  else if s =? 6 then _ ← ZipService.HandleZIP port ddpkt; mret tt
  else mret tt.

(** An AppleTalk packet once the port has an address. *)
Definition dispatch (port : Port) (ddpkt : ExtPacket) : R unit :=
  if negb (DstNet ddpkt =? 0) &&
     negb ((cableStart port <=? DstNet ddpkt) && (DstNet ddpkt <=? cableEnd port)) then
    '(handled, err) ←
      (if (Proto ddpkt =? ProtoNBP) && (DstSocket ddpkt =? 2) then handleClusteredNBPFwdReq ddpkt
       else mret (false, None));
    match err with
    | Some _ => mret tt
    | None => if handled : bool then mret tt else _ ← Router.Forward ddpkt; mret tt
    end
  else if negb (DstNode ddpkt =? 0) && negb (DstNode ddpkt =? 0xff) &&
          negb (DstNode ddpkt =? a_Node (myAddr port)) then mret tt
  else to_socket port ddpkt.

(** [payload[:2]] and the length it holds: a short payload is only logged, and
    the slice expression reads the bytes behind it, up to the capacity. *)
Definition ddp_size (payload behind : list Z) : res Z :=
  head ← slice_to (payload ++ behind) 2;
  size ← be16 head;
  Ok (Z.land size 0x3ff).

Definition trim_ddp (payload behind : list Z) : res (list Z) :=
  size ← ddp_size payload behind;
  Ok (if size <? zlen payload then take (Z.to_nat size) payload else payload).

(** The packet that [Serve] reads from the payload of a frame. *)
Definition read_ddp (payload behind : list Z) : res ExtPacket :=
  payload ← trim_ddp payload behind; ExtUnmarshal payload.

Section Device.
Variable dev : list Z.

Definition refresh : P Port := fun w =>
  let w' := {| ether := ether w;
               routing := with_ports (map (fun p => if bool_decide (device p = dev)
                                                   then port_view (Aarp.machine (ether w)) p else p)
                                          (ports (routing w))) (routing w) |} in
  match port_of dev (ports (routing w')) with Some p => Some (w', p) | None => None end.

(** The AppleTalk case of [Serve]; [behind] is what follows the payload in its
    buffer. *)
Definition serve_appletalk (src : Aarp.HWAddr) (payload behind : list Z) : P unit :=
  port ← refresh;
  match read_ddp payload behind with
  | Panic => fun _ => None
  | Err _ => mret tt
  | Ok ddpkt =>
      _ ← (if (cableStart port <=? SrcNet ddpkt) && (SrcNet ddpkt <=? cableEnd port)
           then inE (Aarp.learn (MkAddr (SrcNet ddpkt) (SrcNode ddpkt)) src)
           else mret tt);
      match aarpAddress port with
      | None => mret tt
      | Some addr =>
          _ ← inR (modport dev (port_with_addr addr));
          inR (dispatch (port_with_addr addr port) ddpkt)
      end
  end.

(** One frame; an AARP frame is queued for [Run], which is run here at once. *)
Definition serve (rawPkt behind : list Z) : P unit :=
  match Aarp.EthUnmarshal rawPkt with
  | Panic => fun _ => None
  | Err _ => mret tt
  | Ok ethFrame =>
      fun w =>
        (if bool_decide (Aarp.FrameSrc ethFrame = Aarp.Hardware (Aarp.myAddr (Aarp.machine (ether w)))) then mret tt
         else if bool_decide (Aarp.SNAPProto ethFrame = Aarp.AARPProto) then
           inE (Aarp.on_frame (Aarp.Payload ethFrame))
         else if bool_decide (Aarp.SNAPProto ethFrame = Aarp.AppleTalkProto) then
           serve_appletalk (Aarp.FrameSrc ethFrame) (Aarp.Payload ethFrame) behind
         else mret tt) w
  end.

(** ** The seed loop *)

Definition sendSeedDiscovery (port : Port) : R error :=
  match seed port, aarpAddress port with
  | Some _, Some addr =>
      _ ← modport dev (port_with_addr addr);
      checkr (ZIP.GetNetInfoPacket_Marshal (ZIP.MkGetNetInfo (defaultZoneName port))) fail_with (fun body =>
        emit (PortBroadcast dev (originate addr 6 0 0xff 6 ProtoZIP body)))
  | _, _ => mret None
  end.

(** The local variables of [RunSeedState]; [None] is the zero time. *)
Record SeedLoop := { promotionEligibleAt : option Z; promotionRequested : bool }.

Definition five_seconds : Z := 5 * Aarp.Second.

(** [RunSeedState] once an address is assigned, up to its loop; [None] when it
    returns before. *)
Definition seed_start : P (option SeedLoop) :=
  port ← refresh;
  match seed port with
  | None => mret None
  | Some s =>
      _ ← inR (sendSeedDiscovery port);
      now ← inR (getw clock);
      if bool_decide (Seed.mode s = Seed.SeedModeHard) then mret None
      else mret (Some {| promotionEligibleAt := Some (now + Seed.delay s); promotionRequested := false |})
  end.

Definition authorityTimeout (delay : Z) : Z := Z.max (3 * delay) (90 * Aarp.Second).

(** If the machine is operational in exactly this range, adopt it; the flag is
    whether it was. *)
Definition adopt_range (start end_ : Z) : P (bool * error) :=
  port ← refresh;
  if bool_decide (operationalRange port = Some (start, end_)) then
    _ ← inR (modport dev take_address);
    err ← inR (activateCableRange (take_address port) start end_);
    mret (true, err)
  else mret (false, None).

Definition rebind (start end_ : Z) : P unit := inE (Aarp.modm (Aarp.Rebind start end_)).

(** The loop goes on with these variables, or [RunSeedState] returns an error. *)
Abbreviation Outcome := (goerr + SeedLoop)%type.
Definition continue (l : SeedLoop) : P Outcome := mret (inr l).

(** The promotion half of a turn, for a soft seed that is not active; [state] is
    the snapshot. *)
Definition seed_promotion (state : Seed.seedController) (l : SeedLoop) (now : Z) : P Outcome :=
  if promotionRequested l then
    '(operational, err) ← adopt_range (Seed.configuredStart state) (Seed.configuredEnd state);
    match err with
    | Some e => mret (inl e)
    | None =>
        if operational : bool then
          port ← refresh;
          let l := {| promotionEligibleAt := promotionEligibleAt l; promotionRequested := false |} in
          match seed port with
          | None => fun _ => None
          | Some s =>
              let '(s, promoted) := Seed.promoteSoft s in
              _ ← inR (modport dev (port_with_seed (Some s)));
              if promoted : bool then
                err ← inR (activateConfiguredZones (port_with_seed (Some s) port));
                match err with Some e => mret (inl e) | None => continue l end
              else continue l
          end
        else continue l
    end
  else
    match promotionEligibleAt l with
    | None => continue {| promotionEligibleAt := Some (now + Seed.delay state); promotionRequested := false |}
    | Some at_ =>
        if now <? at_ then continue l
        else if (Seed.configuredStart state =? 0) || (Seed.configuredEnd state =? 0) then continue l
        else
          _ ← rebind (Seed.configuredStart state) (Seed.configuredEnd state);
          continue {| promotionEligibleAt := None; promotionRequested := true |}
    end.

(** [case <-probe.C]. *)
Definition seed_tick (l : SeedLoop) : P Outcome :=
  port ← refresh;
  now ← inR (getw clock);
  _ ← inR (sendSeedDiscovery port);
  match seed port with
  | None => fun _ => None
  | Some s =>
      let soft := bool_decide (Seed.mode s = Seed.SeedModeSoft) in
      let '(s, expired) :=
        if soft then Seed.expireExternalAuthority now (authorityTimeout (Seed.delay s)) s else (s, false) in
      _ ← inR (modport dev (port_with_seed (Some s)));
      let l := if expired
               then {| promotionEligibleAt := Some (now + Seed.delay s); promotionRequested := false |} else l in
      let state := s in
      if Seed.conflict state then continue l
      else
        let observed := negb (Seed.observedStart state =? 0) && negb (Seed.observedEnd state =? 0) in
        r ← (if observed : bool then
               _ ← rebind (Seed.observedStart state) (Seed.observedEnd state);
               adopt_range (Seed.observedStart state) (Seed.observedEnd state)
             else mret (false, None));
        match r.2 with
        | Some e => mret (inl e)
        | None =>
            if observed && Seed.externalAuthority state then
              continue {| promotionEligibleAt := None; promotionRequested := false |}
            else if negb soft then continue l
            else if bool_decide (Seed.effective state = "soft-seed-active"%string) then continue l
            else seed_promotion state l now
        end
  end.

End Device.
End Port.
End EtherTalk.
