(* ===== verification/EtherTalkSpec.v ===== *)
(** * EtherTalk ports: properties of module EtherTalk *)
From S2P Require Import Prelude Wtacc AurpHeaders AurpTuples PeerPolicy GoSort RouteTable.
From S2P Require Import RouteTableInv RouteTableOps RouteTableSpec.
From S2P Require Import AtalkNbp Atalk AtalkRtmp AtalkAtp AtalkZip RouteExport PeerState PeerZones DdpPolicy.
From S2P Require Import TunnelSpec Seed LoopProbe Aarp AarpWire AarpSpec Outbox Router RouterSpec Cluster.
From S2P Require Import Rtmp RtmpSpec Zip ZipSpec Services ServicesSpec EtherTalk.
Import RT Policy DDP Tunnel Router Cluster EtherTalk.

(** ** Every handler returns *)

Section Returns.
Context {GStr : GoStrings} {GS : GoSort} {MO : MapOrder} `{MT : Multitalk} {ML : MultitalkLaws}.

Lemma rok_wrapr fmt (m : R error) : rok m -> rok (Rtmp.wrapr fmt m).
Proof. intros Hm. apply rok_bind; [done|]. intros [e|]; apply rok_ret. Qed.

Lemma rok_still {A} (m : R A) : (forall w, exists w' a, m w = Some (w', a) /\ table w' = table w) -> rok m.
Proof. intros Hm w Hw. destruct (Hm w) as (w' & a & E & Et). exists w', a. by rewrite Et. Qed.

Lemma rok_Forward pk : rok (Router.Forward pk).
Proof. unfold Router.Forward. apply rok_if; [apply rok_fail|apply rok_Output]. Qed.

Lemma rok_clustered pk : bytes_ok (Data pk) -> rok (handleClusteredNBPFwdReq pk).
Proof.
  intros Hd. unfold handleClusteredNBPFwdReq. apply rok_bind; [apply rok_getw|]. intros [cfg|]; [|apply rok_ret].
  destruct (clusterForNetwork cfg (DstNet pk)) as [cluster|]; [|apply rok_ret].
  pose proof (unmarshal_safe "unmarshal clustered NBP FwdReq: %w" (Data pk) Hd) as Hs.
  destruct (wrap_err _ _ _) as [n|e|]; cbn [checkr safe] in *; [|apply rok_ret|done].
  case_if; [apply rok_ret|]. destruct (NBP.Tuples n) as [|t ts] eqn:Et; [done|].
  apply rok_bind; [apply rok_getw|]. intros rt. apply rok_bind; [apply rok_getw|]. intros now.
  apply rok_bind; [|intros err; apply rok_ret].
  induction (ValidRoutesForClass rt now TargetClassAURPPeer) as [|r rs IH]; cbn [cluster_requests]; [apply rok_ret|].
  apply rok_bind; [apply rok_getw|]. intros rt'. apply rok_if; [done|].
  apply rok_attempt; [apply rok_Forward|done].
Qed.

Lemma rok_send_data mfmt send pkts : (forall raw, rok (send raw)) -> rok (Rtmp.send_data mfmt send pkts).
Proof.
  intros Hs. induction pkts as [|p pkts IH]; cbn [Rtmp.send_data]; [apply rok_ret|].
  cbn. by apply rok_attempt.
Qed.

Lemma rtmpDataPackets_return cfg rt now port sh :
  rt_inv rt -> exists pkts, Rtmp.rtmpDataPackets cfg rt now port sh = Ok pkts.
Proof.
  intros Hinv. unfold Rtmp.rtmpDataPackets.
  destruct (rtmp_routes_spec port sh (ValidRoutes rt now)) as (kept & -> & _).
  { apply Forall_forall. intros r [_ Hr]%elem_of_ValidRoutes; [|done].
    destruct (stored_target rt r Hinv Hr) as (t & -> & _). by eexists. }
  cbn [mbind res_bind]. case_if; [by eexists|].
  destruct (data_chunks_spec _ _ (le_n (length (buildRTMPTuplesWithClusters rt (default Rtmp.no_config cfg)
    (HopCountReduction (default Rtmp.no_config cfg)) kept)))) as (cs & -> & _). by eexists.
Qed.

Lemma rok_probe_return port token : rok (Rtmp.handleLoopProbeReturn port token).
Proof.
  apply rok_still. intros w. unfold Rtmp.handleLoopProbeReturn.
  erewrite (r_bind (getw probes)) by done. destruct (Loop.handleLoopProbeReturn _ _ _) as [m' [i|]]; by eexists _, _.
Qed.

Lemma rok_request port pkt req : rok (Rtmp.handle_request port pkt req).
Proof.
  unfold Rtmp.handle_request. apply rok_if; [|apply rok_if; [|apply rok_if; [|apply rok_ret]]].
  - eapply (rok_checkr (fun _ => True)).
    + unfold RTMP.ResponsePacket_Marshal. by repeat case_if.
    + intros raw _. apply rok_wrapr, rok_Output.
  - intros w Hw. erewrite (r_bind (getw config)) by done. erewrite (r_bind (getw table)) by done.
    erewrite (r_bind (getw clock)) by done.
    destruct (rtmpDataPackets_return (config w) (table w) (clock w) port
                (RTMP.Function_ req =? RTMP.FunctionRDRSplitHorizon) (reachable_inv _ Hw)) as [pkts ->].
    revert w Hw. apply rok_send_data. intros raw. apply rok_wrapr, rok_Output.
  - apply rok_bind; [apply rok_probe_return|]. intros []. apply rok_ret.
Qed.

(** Tuples that do not make the range loop of the route table run forever. *)
Definition ends_early (nt : RTMP.NetworkTuple) : Prop := RTMP.RangeEnd nt <> 65535.

Lemma learn_return peer nts noZones w :
  Forall RTMP.nt_typed nts -> Forall ends_early nts -> Forall u16 noZones -> reachable (table w) ->
  exists w' r, Rtmp.learn_tuples peer nts noZones w = Some (w', r) /\ reachable (table w') /\
    match r with inr nz => Forall u16 nz | inl _ => True end.
Proof.
  revert noZones w. induction nts as [|nt nts IH]; intros noZones w Ht He Hz Hw; cbn [Rtmp.learn_tuples].
  { by eexists _, _. }
  apply Forall_cons in Ht as [(Hs & Hre & Hd) Ht]. apply Forall_cons in He as [He1 He].
  assert (Hd' : u8 (wrap8 (RTMP.Distance nt + 1))) by (by apply Z.mod_pos_bound).
  erewrite (r_bind (getw clock)) by done. pose proof (reachable_inv _ Hw) as Hinv.
  destruct (upsert_error_or_ok (clock w) peer (RTMP.Extended nt) _ _ _ (table w) Hs Hre Hd') as
    [[err E1]|(Hr & Hext & Hdist)].
  { erewrite r_bind by (unfold on_table; rewrite E1; reflexivity). by eexists _, _. }
  unfold u16, ends_early in *.
  destruct (UpsertRoute_ok (table w) Hinv (clock w) peer (RTMP.Extended nt) (RTMP.RangeStart nt)
    (RTMP.RangeEnd nt) (wrap8 (RTMP.Distance nt + 1))) as (tr & rt' & notes' & E1 & _);
    [lia|lia|done|done|].
  erewrite r_bind by (unfold on_table; rewrite E1; reflexivity). cbv beta iota.
  erewrite (r_bind (getw table)) by done.
  apply IH; [done|done| |].
  - case_bool_decide; [|done]. apply Forall_app. split; [done|]. constructor; [|done]. cbn. lia.
  - cbn. eapply rtc_r; [exact Hw|]. eapply step_upsert; [..|exact E1]; done.
Qed.

Lemma rok_send_queries port pkt qs : rok (Rtmp.send_queries port pkt qs).
Proof.
  induction qs as [|q qs IH]; cbn [Rtmp.send_queries]; [apply rok_ret|].
  apply rok_attempt; [apply rok_wrapr, rok_emit|done].
Qed.

(** What an RTMP Data packet must not contain. *)
Definition no_endless_range (pkt : ExtPacket) : Prop :=
  forall dp, RTMP.UnmarshalDataPacket (Data pkt) = Ok dp -> Forall ends_early (RTMP.NetworkTuples dp).

Lemma rok_HandleRTMP port pkt : bytes_ok (Data pkt) -> no_endless_range pkt -> rok (Rtmp.HandleRTMP port pkt).
Proof.
  intros Hb He. unfold Rtmp.HandleRTMP. apply rok_if; [|apply rok_if; [|apply rok_fail]].
  - destruct (operationalRange port); [|apply rok_ret].
    eapply rok_checkr; [|intros req _; apply rok_request].
    pose proof (request_safe (Data pkt) Hb) as Hs. by destruct (RTMP.UnmarshalRequestPacket _).
  - pose proof (UnmarshalData_safe (Data pkt) Hb) as Hs.
    destruct (RTMP.UnmarshalDataPacket (Data pkt)) as [dp|e|] eqn:Ed; cbn [safe wrap_err checkr] in *;
      [|apply rok_fail|done].
    destruct Hs as [[_ Ht] _]. unfold Rtmp.handle_data. apply rok_bind.
    { apply rok_still. intros w. destruct (RTMP.NetworkTuples dp); by eexists _, _. }
    intros []. intros w Hw.
    edestruct learn_return as (w1 & r & E1 & Hw1 & Hr); [exact Ht|exact (He dp Ed)|constructor|exact Hw|].
    rewrite (r_bind _ _ _ _ _ E1). destruct r as [e|nz]; [by eexists _, _|].
    case_if; [|by eexists _, _]. destruct (queries_spec nz Hr) as (nss & raws & -> & _).
    by apply rok_send_queries.
Qed.

(** ** Frames *)

(** The bytes of a packet, and an RTMP tuple that ends at 65535. *)
Lemma dispatch_returns port pkt w :
  bytes_ok (Data pkt) -> no_endless_range pkt -> reachable (table w) -> names_short (table w) ->
  exists w', dispatch port pkt w = Some (w', tt) /\ reachable (table w').
Proof.
  intros Hb He Hr Hn.
  assert (Hrok : forall (m : R error), rok m -> exists w', (_ ← m; mret tt) w = Some (w', tt) /\ reachable (table w')).
  { intros m Hm. destruct (Hm w Hr) as (w' & e & R1 & Hw'). exists w'. by rewrite (r_bind _ _ _ _ _ R1). }
  unfold dispatch. case_if.
  - assert (Hc : rok (if (Proto pkt =? ProtoNBP) && (DstSocket pkt =? 2) then handleClusteredNBPFwdReq pkt
                      else mret (false, None))).
    { apply rok_if; [by apply rok_clustered|apply rok_ret]. }
    destruct (Hc w Hr) as (w1 & [handled err] & R1 & Hw1). rewrite (r_bind _ _ _ _ _ R1).
    destruct err; [by exists w1|]. destruct handled; [by exists w1|].
    destruct (rok_Forward pkt w1 Hw1) as (w2 & e & R2 & Hw2). exists w2. by rewrite (r_bind _ _ _ _ _ R2).
  - case_if; [by exists w|]. unfold to_socket.
    case_if; [by apply Hrok, rok_HandleRTMP|]. case_if; [by apply Hrok, rok_HandleNBP|].
    case_if; [by apply Hrok, rok_HandleAEP|]. case_if; [|by exists w].
    destruct (zip_total port pkt w Hr Hn Hb) as (w' & e & R1 & Hw' & _). exists w'. by rewrite (r_bind _ _ _ _ _ R1).
Qed.

(** ** The composed state *)

Lemma p_bind {A B} (m : P A) (f : A -> P B) w w' a : m w = Some (w', a) -> (m ≫= f) w = f a w'.
Proof. intros H. unfold mbind, P_bind. by rewrite H. Qed.

Lemma in_R {A} (m : R A) w r a :
  m (routing w) = Some (r, a) -> inR m w = Some ({| ether := ether w; routing := r |}, a).
Proof. intros H. unfold inR. by rewrite H. Qed.

Lemma in_E {A} (m : Aarp.E A) w e a :
  m (ether w) = Some (e, a) -> inE m w = Some ({| ether := e; routing := routing w |}, a).
Proof. intros H. unfold inE. by rewrite H. Qed.

Lemma port_of_map dev f ps :
  (forall p, device (f p) = device p) ->
  port_of dev (map (fun p => if bool_decide (device p = dev) then f p else p) ps) = f <$> port_of dev ps.
Proof.
  intros Hf. unfold port_of. induction ps as [|p ps IH]; cbn [map List.find]; [done|].
  destruct (decide (device p = dev)) as [Hd|Hd].
  - rewrite (bool_decide_true (device p = dev)) by done. by rewrite bool_decide_true by (by rewrite Hf).
  - by rewrite !(bool_decide_false (device p = dev)) by done.
Qed.

Lemma port_of_device dev ps p : port_of dev ps = Some p -> device p = dev.
Proof. intros [_ H]%List.find_some. by apply bool_decide_eq_true in H. Qed.

(** The ports once the record of [dev] is up to date. *)
Definition refreshed (dev : list Z) (w : CW) : CW :=
  {| ether := ether w;
     routing := with_ports (map (fun p => if bool_decide (device p = dev)
                                          then port_view (Aarp.machine (ether w)) p else p)
                                (ports (routing w))) (routing w) |}.

Lemma refresh_runs dev w p :
  port_of dev (ports (routing w)) = Some p ->
  refresh dev w = Some (refreshed dev w, port_view (Aarp.machine (ether w)) p) /\
  port_of dev (ports (routing (refreshed dev w))) = Some (port_view (Aarp.machine (ether w)) p).
Proof.
  intros Hp. unfold refresh, refreshed. cbn [routing ports with_ports].
  rewrite port_of_map, Hp by done. done.
Qed.

(** ** [Serve] *)

Section Serve.
Context `{ET : Aarp.Ethertalk} {EL : Aarp.EthertalkLaws}.
Variable dev : list Z.

Lemma ddp_size_ok payload behind :
  2 <= zlen (payload ++ behind) -> exists size, ddp_size payload behind = Ok size.
Proof.
  intros H. unfold ddp_size, slice_to. zdec. cbn [andb].
  destruct (payload ++ behind) as [|a [|b rest]] eqn:E1;
    [rewrite zlen_nil in H; lia|rewrite zlen_cons, zlen_nil in H; lia|].
  change (Z.to_nat 2) with 2%nat. by eexists.
Qed.

Lemma read_ddp_safe payload behind :
  bytes_ok payload -> 2 <= zlen (payload ++ behind) ->
  safe ext_typed (read_ddp payload behind).
Proof.
  intros Hb Hl. unfold read_ddp, trim_ddp. destruct (ddp_size_ok _ _ Hl) as [size ->]. cbn [mbind res_bind].
  apply ExtUnmarshal_typed. case_if; [by apply Forall_take|done].
Qed.


(** A payload of less than two bytes is logged and read on: with nothing behind
    it the slice expression panics. *)
Lemma short_payload_panics src payload behind w p :
  port_of dev (ports (routing w)) = Some p -> zlen (payload ++ behind) < 2 ->
  serve_appletalk dev src payload behind w = None.
Proof.
  intros Hp Hl. unfold serve_appletalk. destruct (refresh_runs dev w p Hp) as [Rf _].
  rewrite (p_bind _ _ _ _ _ Rf). unfold read_ddp, trim_ddp, ddp_size, slice_to. by zdec.
Qed.

End Serve.
(** ** The seed loop *)

Section Seeding.
Context `{ET : Aarp.Ethertalk} {EL : Aarp.EthertalkLaws}.
Variable dev : list Z.

(** The same port but for its address and what its machine answers. *)
Definition like (p p' : Port) : Prop :=
  device p' = device p /\ seed p' = seed p /\ cableStart p' = cableStart p /\ cableEnd p' = cableEnd p /\
  availableZones p' = availableZones p /\ aarpAddress p' = aarpAddress p /\
  operationalRange p' = operationalRange p.

Lemma modport_port_of f w p :
  (forall q, device (f q) = device q) -> port_of dev (ports w) = Some p ->
  exists w', modport dev f w = Some (w', tt) /\ port_of dev (ports w') = Some (f p) /\
    table w' = table w /\ clock w' = clock w.
Proof.
  intros Hf Hp. eexists. split; [done|]. cbn [ports with_ports]. by rewrite port_of_map, Hp.
Qed.

Lemma discovery_runs p w :
  port_of dev (ports w) = Some p ->
  exists w' err p', sendSeedDiscovery dev p w = Some (w', err) /\ port_of dev (ports w') = Some p' /\
    like p p' /\ table w' = table w /\ clock w' = clock w.
Proof.
  intros Hp. unfold sendSeedDiscovery.
  destruct (seed p) as [s|]; [|by exists w, None, p].
  destruct (aarpAddress p) as [a|] eqn:Ea; [|by exists w, None, p].
  destruct (modport_port_of (port_with_addr a) w p) as (w1 & E1 & Hp1 & Ht & Hc); [done|done|].
  rewrite (r_bind _ _ _ _ _ E1). unfold checkr, ZIP.GetNetInfoPacket_Marshal.
  case_if; [by eexists w1, _, (port_with_addr a p)|].
  unfold emit. destruct (sends w1) as [|[] ?];
    (eexists _, _, (port_with_addr a p); split; [done|]; split; [done|]; split; [|done]); done.
Qed.

(** A soft seed that has heard nothing. *)
Definition waiting (s : Seed.seedController) : Prop :=
  Seed.mode s = Seed.SeedModeSoft /\ Seed.active s = false /\ Seed.externalAuthority s = false /\
  Seed.conflict s = false /\ Seed.observedStart s = 0 /\ Seed.observedZone s = [].

Lemma waiting_expire s now t : waiting s -> Seed.expireExternalAuthority now t s = (s, false).
Proof.
  intros (_ & _ & He & _). unfold Seed.expireExternalAuthority. rewrite He.
  by destruct (Seed.lastAuthorityObservation s).
Qed.

(** A turn of a waiting soft seed is its promotion half. *)
Lemma tick_waiting l w p s :
  port_of dev (ports (routing w)) = Some p -> seed p = Some s -> waiting s ->
  exists w' p', seed_tick dev l w = seed_promotion dev s l (clock (routing w)) w' /\
    ether w' = ether w /\ table (routing w') = table (routing w) /\ clock (routing w') = clock (routing w) /\
    port_of dev (ports (routing w')) = Some p' /\ like (port_view (Aarp.machine (ether w)) p) p'.
Proof.
  intros Hp Hs Hw. pose proof Hw as (Hm & Ha & He & Hc & Ho & Hz). unfold seed_tick.
  destruct (refresh_runs dev w p Hp) as [Rf Hp1]. rewrite (p_bind _ _ _ _ _ Rf).
  set (p1 := port_view (Aarp.machine (ether w)) p) in *. set (w1 := refreshed dev w) in *.
  rewrite (p_bind (inR (getw clock)) _ w1 w1 (clock (routing w))) by done.
  destruct (discovery_runs p1 (routing w1) Hp1) as (r2 & err & p2 & Ed & Hp2 & Hl & Ht2 & Hc2).
  rewrite (p_bind _ _ _ _ _ (in_R _ w1 _ _ Ed)).
  assert (Hs1 : seed p1 = Some s) by done. rewrite Hs1. rewrite Hm, bool_decide_true by done.
  rewrite (waiting_expire s) by done. cbv iota beta.
  set (w2 := {| ether := ether w1; routing := r2 |}).
  destruct (modport_port_of (port_with_seed (Some s)) r2 p2) as (r3 & E3 & Hp3 & Ht3 & Hc3); [done|done|].
  rewrite (p_bind _ _ _ _ _ (in_R _ w2 _ _ E3)). rewrite Hc, Ho. cbn [negb Z.eqb andb].
  set (w3 := {| ether := ether w2; routing := r3 |}).
  rewrite (p_bind (mret _) _ w3 w3 (false, None)) by done. cbn [snd negb].
  rewrite bool_decide_false.
  2: { unfold Seed.effective. rewrite Hc, Ha, Hm, He. cbn. by destruct (bool_decide _). }
  exists w3, (port_with_seed (Some s) p2). split; [done|]. cbn [ether routing w3].
  split; [done|]. split; [by rewrite Ht3, Ht2|]. split; [by rewrite Hc3, Hc2|]. split; [done|].
  destruct Hl as (L1 & L2 & L3 & L4 & L5 & L6 & L7). by split_and!.
Qed.

Definition direct_key (p : Port) (start : Z) : TargetClass * RouteKey :=
  (Class_ (port_target p), key_of (port_target p) start).

(** A port in the start-up range adopts a range: its route is installed. *)
Lemma activate_runs p q start end_ s w :
  port_of dev (ports w) = Some q -> device p = dev ->
  Aarp.isPhase2StartupRange (cableStart p) (cableEnd p) = true ->
  1 <= start <= end_ -> end_ < Aarp.phase2StartupStart ->
  seed p = Some s -> waiting s -> reachable (table w) ->
  exists w' r, activateCableRange p start end_ w = Some (w', None) /\
    port_of dev (ports w') = Some (setCableRange start end_ q) /\ reachable (table w') /\
    byClass (table w') !! direct_key p start = Some r /\ NetEnd r = end_ /\ Distance r = 0 /\
    clock w' = clock w.
Proof.
  intros Hq Hd Hst Hse He Hs Hw Hr. unfold activateCableRange, Aarp.phase2StartupStart in *.
  assert (Hns : Aarp.isPhase2StartupRange start end_ = false).
  { unfold Aarp.isPhase2StartupRange, Aarp.phase2StartupStart. by zdec. }
  rewrite Hns. zdec. cbn [orb]. rewrite (r_bind (getw table) _ w w (table w)) by done.
  rewrite (r_bind (getw clock) _ w w (clock w)) by done. rewrite Hst, andb_false_r. cbn [andb].
  rewrite (r_bind (mret None) _ w w None) by done. cbv iota beta.
  destruct (modport_port_of (setCableRange start end_) w q) as (w1 & E1 & Hq1 & Ht1 & Hc1); [done|done|].
  rewrite Hd. rewrite (r_bind _ _ _ _ _ E1).
  destruct (UpsertRoute_ok (table w1)) with (now := clock w) (t := port_target (setCableRange start end_ p))
    (ext := true) (s := start) (e := end_) (d := 0) as (tr & rt' & notes' & E2 & _ & _ & Hby & _);
    [rewrite Ht1; by apply reachable_inv|lia|lia|done|unfold maxRouteDistance; lia|].
  erewrite r_bind by (unfold on_table; rewrite E2; reflexivity). cbn [checkr].
  destruct Hw as (_ & Ha & _ & _ & _ & Hz).
  unfold ZipService.seedAuthorityActive, Seed.activeAuthority. cbn [seed setCableRange]. rewrite Hs, Ha. cbn [andb].
  rewrite Hz, bool_decide_false by (by intros []).
  eexists _, _. split; [done|]. split; [done|]. cbn [table with_notes with_table clock].
  split; [|split; [rewrite Hby; apply lookup_insert_eq|done]].
  eapply rtc_r; [rewrite <- Ht1 in Hr; exact Hr|]. eapply step_upsert; [..|exact E2]; unfold u16, u8; lia.
Qed.

(** The second half of a promotion: AARP owns an address in the range. *)
Lemma promotion_runs l now p s w start end_ :
  port_of dev (ports (routing w)) = Some p -> seed p = Some s -> waiting s ->
  Seed.configuredStart s = start -> Seed.configuredEnd s = end_ ->
  1 <= start <= end_ -> end_ < Aarp.phase2StartupStart ->
  Aarp.isPhase2StartupRange (cableStart p) (cableEnd p) = true ->
  Aarp.OperationalRange (Aarp.machine (ether w)) = (start, end_, true) ->
  reachable (table (routing w)) -> promotionRequested l = true ->
  exists w' l' p' r, seed_promotion dev s l now w = Some (w', inr l') /\
    port_of dev (ports (routing w')) = Some p' /\ ZipService.seedAuthorityActive p' = true /\
    cableStart p' = start /\ cableEnd p' = end_ /\
    byClass (table (routing w')) !! direct_key p start = Some r /\ NetEnd r = end_ /\ Distance r = 0 /\
    availableZones p ⊆ ZoneNames (net_at (table (routing w')) start).
Proof.
  intros Hp Hs Hw Hcs Hce Hse He Hst Hop Hr Hreq. unfold seed_promotion. rewrite Hreq, Hcs, Hce.
  set (m := Aarp.machine (ether w)) in *. set (p1 := port_view m p).
  assert (Hop1 : operationalRange p1 = Some (start, end_)).
  { unfold p1, port_view. rewrite Hop. by destruct (Aarp.Address m). }
  pose proof (port_of_device _ _ _ Hp) as Hd.
  destruct (refresh_runs dev w p Hp) as [Rf Hp1]. fold m p1 in Rf, Hp1. set (w1 := refreshed dev w) in *.
  destruct (modport_port_of take_address (routing w1) p1) as (r2 & E2 & Hp2 & Ht2 & Hc2); [|done|].
  { intros q. unfold take_address. by destruct (aarpAddress q). }
  set (w2 := {| ether := ether w1; routing := r2 |}).
  assert (Hdt : device (take_address p1) = dev).
  { unfold take_address. destruct (aarpAddress p1); [|]; unfold p1, port_view; rewrite Hop;
      destruct (Aarp.Address m); exact Hd. }
  assert (Hlike : seed (take_address p1) = Some s /\ cableStart (take_address p1) = cableStart p /\
                  cableEnd (take_address p1) = cableEnd p /\ availableZones (take_address p1) = availableZones p).
  { unfold take_address. destruct (aarpAddress p1); [|]; unfold p1, port_view; rewrite Hop;
      destruct (Aarp.Address m); by split_and!. }
  destruct Hlike as (Hs1 & Hcs1 & Hce1 & Hz1).
  destruct (activate_runs (take_address p1) (take_address p1) start end_ s r2) as
    (r3 & r & E3 & Hp3 & Hr3 & Hby & Hne & Hdi & Hc3); try done; [by rewrite Hcs1, Hce1|by rewrite Ht2|].
  assert (Ea : adopt_range dev start end_ w = Some ({| ether := ether w; routing := r3 |}, (true, None))).
  { unfold adopt_range. rewrite (p_bind _ _ _ _ _ Rf). rewrite bool_decide_true by done.
    rewrite (p_bind _ _ _ _ _ (in_R _ w1 _ _ E2)). by rewrite (p_bind _ _ _ _ _ (in_R _ w2 _ _ E3)). }
  rewrite (p_bind _ _ _ _ _ Ea). cbv iota beta. set (w3 := {| ether := ether w; routing := r3 |}).
  destruct (refresh_runs dev w3 _ Hp3) as [Rf4 Hp4]. rewrite (p_bind _ _ _ _ _ Rf4).
  change (Aarp.machine (ether w3)) with m in *.
  set (w4 := refreshed dev w3) in *. set (p4 := port_view m (setCableRange start end_ (take_address p1))) in *.
  assert (Hlike4 : seed p4 = Some s /\ cableStart p4 = start /\ cableEnd p4 = end_ /\
                   availableZones p4 = availableZones p).
  { unfold p4, port_view. destruct (Aarp.OperationalRange _) as [[? ?] ?], (Aarp.Address _).
    cbn [seed cableStart cableEnd availableZones setCableRange]. by rewrite Hs1, Hz1. }
  destruct Hlike4 as (Hs4 & Hcs4 & Hce4 & Hz4). rewrite Hs4.
  destruct Hw as (Hm & Hact & Hext & Hconf & _ & _).
  assert (Hprom : Seed.promoteSoft s = (Seed.with_flags true false false s, true)).
  { unfold Seed.promoteSoft. by rewrite Hm, bool_decide_true, Hext, Hconf, Hact. }
  rewrite Hprom. set (s' := Seed.with_flags true false false s).
  destruct (modport_port_of (port_with_seed (Some s')) (routing w4) p4) as (r5 & E5 & Hp5 & Ht5 & Hc5); [done|done|].
  rewrite (p_bind _ _ _ _ _ (in_R _ w4 _ _ E5)). set (w5 := {| ether := ether w4; routing := r5 |}).
  unfold Aarp.phase2StartupStart in He.
  set (q := port_with_seed (Some s') p4) in *.
  pose proof (AddZones_spec (table r5)) as HZ. specialize (HZ ltac:(rewrite Ht5; by apply reachable_inv)).
  specialize (HZ (clock r5) start (set_range (availableZones p4))).
  destruct (AddZonesToNetwork (clock r5) start (set_range (availableZones p4)) (table r5)) as [rt' notes'] eqn:EA.
  destruct HZ as (_ & [Hby' _] & _ & HZ & _).
  assert (Ez : activateConfiguredZones q r5 = Some (with_notes (notes r5 ++ notes') (with_table rt' r5), None)).
  { unfold activateConfiguredZones, Aarp.phase2StartupStart. cbn [cableStart q port_with_seed]. rewrite Hcs4. zdec.
    cbn [orb]. unfold add_zones, on_table, mbind, R_bind, getw. cbn [availableZones q port_with_seed]. by rewrite EA. }
  rewrite (p_bind _ _ _ _ _ (in_R _ w5 _ _ Ez)). cbv iota beta.
  eexists _, _, q, r. split; [done|]. cbn [routing ports with_notes with_table table].
  split; [done|]. split; [done|]. split; [done|]. split; [done|]. split.
  { rewrite Hby', Ht5. cbn. rewrite <- Hby. unfold direct_key, port_target. by rewrite Hdt, Hd. }
  split; [done|]. split; [done|]. rewrite HZ. rewrite decide_True by done. intros zn Hzn. apply elem_of_union_r.
  apply elem_of_list_to_set. rewrite set_range_perm, Hz4. by apply elem_of_elements.
Qed.

(** The first half: the range is asked for. *)
Lemma request_runs l s w start end_ t :
  Seed.configuredStart s = start -> Seed.configuredEnd s = end_ -> 1 <= start <= end_ ->
  end_ < Aarp.phase2StartupStart -> promotionRequested l = false -> promotionEligibleAt l = Some t ->
  t <= clock (routing w) -> Aarp.rangeCh (Aarp.machine (ether w)) = None ->
  seed_promotion dev s l (clock (routing w)) w =
    Some ({| ether := Aarp.with_machine (Aarp.with_rangeCh (Some (start, end_)) (Aarp.machine (ether w))) (ether w);
             routing := routing w |},
          inr {| promotionEligibleAt := None; promotionRequested := true |}).
Proof.
  intros Hcs Hce Hse He Hreq Ht Hle Hch. unfold seed_promotion, Aarp.phase2StartupStart in *.
  rewrite Hreq, Ht, Hcs, Hce. zdec. cbn [orb].
  unfold rebind, Aarp.modm, Aarp.modw, inE, mbind, P_bind. unfold Aarp.Rebind.
  assert (Hns : Aarp.isPhase2StartupRange start end_ = false).
  { unfold Aarp.isPhase2StartupRange, Aarp.phase2StartupStart. by zdec. }
  rewrite Hns. zdec. cbn [orb]. by rewrite Hch.
Qed.

(** A machine in the start-up range that finds a range in its channel moves there. *)
Lemma range_taken start end_ w :
  valid_range start end_ -> end_ < Aarp.phase2StartupStart -> AarpSpec.inv w ->
  Aarp.isPhase2StartupRange (Aarp.rangeStart (Aarp.machine w)) (Aarp.rangeEnd (Aarp.machine w)) = true ->
  Aarp.rangeCh (Aarp.machine w) = Some (start, end_) ->
  exists w', Aarp.turn Aarp.ERange w = Some (w', tt) /\ AarpSpec.inv w' /\
    Aarp.PairProto (Aarp.myAddr (Aarp.machine w')) = MkAddr start 1 /\
    Aarp.rangeStart (Aarp.machine w') = start /\ Aarp.rangeEnd (Aarp.machine w') = end_.
Proof.
  intros Hv He I Hst Hch. destruct Hv as [Hv1 Hv2].
  assert (Hne : Aarp.rangeStart (Aarp.machine w) <> start).
  { unfold Aarp.isPhase2StartupRange, Aarp.phase2StartupStart in *. intros Eq. rewrite Eq in Hst. zbool. lia. }
  assert (Er : exists w', Aarp.turn Aarp.ERange w = Some (w', tt) /\
    Aarp.PairProto (Aarp.myAddr (Aarp.machine w')) = MkAddr start 1 /\
    Aarp.rangeStart (Aarp.machine w') = start /\ Aarp.rangeEnd (Aarp.machine w') = end_).
  { unfold Aarp.turn. rewrite (e_bind (Aarp.getw Aarp.machine) _ w w (Aarp.machine w)) by done. rewrite Hch.
    unfold Aarp.on_range.
    rewrite (e_bind (Aarp.modm _) _ w (Aarp.with_machine (Aarp.with_rangeCh None (Aarp.machine w)) w) tt) by done.
    erewrite (e_bind (Aarp.getw Aarp.machine)) by done.
    cbn [Aarp.rangeStart Aarp.with_rangeCh Aarp.machine Aarp.with_machine].
    rewrite (proj2 (Z.eqb_neq _ _) Hne). by eexists. }
  destruct Er as (w' & Er & Ha). exists w'. split; [done|]. split; [|done].
  by apply (turn_inv Aarp.ERange w).
Qed.

(** C32: a soft seed takes over a silent cable.  A soft-seed port that is still
    in the start-up range and has heard no other router asks AARP for its
    configured range at the first turn of the seed loop after its delay; once
    AARP has taken the range and eleven undisturbed ticks have passed, the next
    turn makes the port the authority of the cable: it has the range, the direct
    route to it at distance zero is in the route table, and the network has the
    configured zones. *)
Theorem soft_seed_takes_over (p : Port) (w : CW) (delay t start end_ : Z) (zone : list Z)
    (es : list Aarp.Event) :
  port_of dev (ports (routing w)) = Some p ->
  seed p = Some (Seed.newSeedController Seed.SeedModeSoft delay start end_ zone) ->
  Aarp.isPhase2StartupRange (cableStart p) (cableEnd p) = true ->
  1 <= start <= end_ -> end_ < Aarp.phase2StartupStart -> t <= clock (routing w) ->
  reachable (table (routing w)) -> AarpSpec.inv (ether w) ->
  Aarp.isPhase2StartupRange (Aarp.rangeStart (Aarp.machine (ether w)))
    (Aarp.rangeEnd (Aarp.machine (ether w))) = true ->
  Aarp.rangeCh (Aarp.machine (ether w)) = None ->
  Forall (undisturbed (MkAddr start 1)) es -> 11 <= ticks es ->
  exists w1 l1 e2 w2 l2 p' r,
    seed_tick dev {| promotionEligibleAt := Some t; promotionRequested := false |} w = Some (w1, inr l1) /\
    Aarp.run (Aarp.ERange :: es) (ether w1) = Some (e2, tt) /\
    seed_tick dev l1 {| ether := e2; routing := routing w1 |} = Some (w2, inr l2) /\
    port_of dev (ports (routing w2)) = Some p' /\ ZipService.seedAuthorityActive p' = true /\
    cableStart p' = start /\ cableEnd p' = end_ /\
    byClass (table (routing w2)) !! direct_key p' start = Some r /\ NetEnd r = end_ /\ Distance r = 0 /\
    availableZones p ⊆ ZoneNames (net_at (table (routing w2)) start).
Proof.
  intros Hp Hs Hst Hse He Ht Hr I Hms Hch Hes Hticks. set (s := Seed.newSeedController _ _ _ _ _) in *.
  assert (Hwait : waiting s) by done.
  set (l := {| promotionEligibleAt := Some t; promotionRequested := false |}).
  destruct (tick_waiting l w p s Hp Hs Hwait) as (w0 & p0 & E0 & Ee0 & Et0 & Ec0 & Hp0 & Hl0).
  rewrite <- Ec0 in E0. rewrite (request_runs l s w0 start end_ t) in E0; try done; [|by rewrite Ec0|by rewrite Ee0].
  rewrite Ee0 in E0. set (e1 := Aarp.with_machine _ (ether w)) in E0.
  assert (I1 : AarpSpec.inv e1).
  { apply (turn_inv (Aarp.ERebind start end_) (ether w)); [|done|].
    - unfold Aarp.phase2StartupStart in He. split; unfold u16; lia.
    - unfold Aarp.turn. rewrite (e_bind (Aarp.getw Aarp.machine) _ (ether w) (ether w) (Aarp.machine (ether w))) by done.
      unfold Aarp.modm, Aarp.modw, Aarp.Rebind, Aarp.phase2StartupStart in *.
      assert (Hns : Aarp.isPhase2StartupRange start end_ = false).
      { unfold Aarp.isPhase2StartupRange, Aarp.phase2StartupStart. by zdec. }
      rewrite Hns. zdec. cbn [orb]. by rewrite Hch. }
  assert (Hv : valid_range start end_) by (unfold Aarp.phase2StartupStart in He; split; lia).
  destruct (range_taken start end_ e1 Hv He I1 Hms eq_refl) as (e1' & Er & I1' & Ha' & Hrs & Hre).
  destruct (acquired es e1') as (e2 & Erun & I2 & _ & Hop); [by rewrite Ha'|done|done|].
  assert (Hns : Aarp.isPhase2StartupRange start end_ = false).
  { unfold Aarp.isPhase2StartupRange, Aarp.phase2StartupStart in *. by zdec. }
  rewrite Hrs, Hre, Hns in Hop. cbn [negb] in Hop.
  destruct Hl0 as (Ld & Ls & Lcs & Lce & Lz & _).
  assert (Hview : forall m q, seed (port_view m q) = seed q /\ cableStart (port_view m q) = cableStart q /\
    cableEnd (port_view m q) = cableEnd q /\ availableZones (port_view m q) = availableZones q /\
    device (port_view m q) = device q).
  { intros m q. unfold port_view. by destruct (Aarp.Address m), (Aarp.OperationalRange m) as [[? ?] ?]. }
  destruct (Hview (Aarp.machine (ether w)) p) as (V1 & V2 & V3 & V4 & V5).
  set (l1 := {| promotionEligibleAt := None; promotionRequested := true |}) in E0.
  destruct (tick_waiting l1 {| ether := e2; routing := routing w0 |} p0 s) as
    (w3 & p3 & E3 & Ee3 & Et3 & Ec3 & Hp3 & Hl3); [done|by rewrite Ls, V1|done|].
  cbn [ether routing] in *. destruct Hl3 as (Kd & Ks & Kcs & Kce & Kz & _).
  destruct (Hview (Aarp.machine e2) p0) as (U1 & U2 & U3 & U4 & U5).
  destruct (promotion_runs l1 (clock (routing w0)) p3 s w3 start end_) as
    (w4 & l4 & p4 & r & E4 & Hp4 & Hact & Hc1 & Hc2 & Hby & Hne & Hdi & Hz); try done.
  { by rewrite Ks, U1, Ls, V1. }
  { by rewrite Kcs, Kce, U2, U3, Lcs, Lce, V2, V3. }
  { by rewrite Ee3. }
  { by rewrite Et3, Et0. }
  eexists _, _, e2, w4, l4, p4, r. split; [exact E0|]. split.
  { cbn [Aarp.run]. by rewrite (e_bind _ _ _ _ _ Er). }
  split; [cbn [routing]; by rewrite E3|]. split; [done|]. split; [done|]. split; [done|]. split; [done|].
  split; [|split; [done|split; [done|]]].
  - assert (Hdk : direct_key p4 start = direct_key p3 start).
    { unfold direct_key, port_target. by rewrite (port_of_device _ _ _ Hp4), (port_of_device _ _ _ Hp3). }
    by rewrite Hdk.
  - by rewrite <- V4, <- Lz, <- U4, <- Kz.
Qed.
End Seeding.
End Returns.

(** ** Concrete runs *)

#[local] Instance wit_sort : GoSort := insertion_sort.
#[local] Instance wit_strings : GoStrings := ascii_strings.
#[local] Instance wit_order : MapOrder := ascending_order.

(** A machine that owns 1.1, and draws left for a new address. *)
Definition wit_tentative : Aarp.EW := started wit_hw 1 2 0 [0; 1; 2].
Definition wit_owning : Aarp.EW :=
  match Aarp.run (replicate 11 Aarp.ETick) wit_tentative with Some (w, _) => w | None => wit_tentative end.

Lemma wit_owning_inv : AarpSpec.inv wit_owning.
Proof.
  destruct (started_inv wit_hw 1 2 0 [0; 1; 2] wit_hw_ok) as [I0 P0]; [done|].
  apply (run_invariant (replicate 11 Aarp.ETick) wit_tentative); [repeat constructor|done|done|].
  vm_compute; reflexivity.
Qed.

Lemma wit_lucky : lucky [0; 1; 2].
Proof.
  intros node. cbn [tail]. change (1 mod 253 + 1) with 2 in *.
  destruct (decide (node = 2)) as [->|Hn]; [right; left; discriminate|left; by apply not_eq_sym].
Qed.

(** A zone query from 1.7 in a frame of its own. *)
Definition wit_frame : list Z :=
  match Aarp.EthMarshal (Aarp.MkFrame wit_hw [2; 0; 0; 0; 0; 7] atalk_snap (wire ZipSpec.wit_query)) with
  | Ok raw => raw
  | _ => []
  end.
Definition wit_serving : CW := {| ether := wit_owning; routing := RtmpSpec.wit_world |}.


(** A soft seed for 3-5 in the start-up range, with an empty route table. *)
Definition wit_soft_port : Port :=
  {| device := str "en0"; netStart := 3; netEnd := 5; cableStart := 0xff00; cableEnd := 0xfffe;
     myAddr := MkAddr 0 0; defaultZoneName := str "home"; availableZones := {[str "home"]};
     aarpAddress := None; operationalRange := None;
     seed := Some (Seed.newSeedController Seed.SeedModeSoft 30 3 5 (str "home")) |}.
Definition wit_silent : CW :=
  {| ether := started wit_hw 0xff00 0xfffe 0 [];
     routing := with_ports [wit_soft_port] (with_table NewRouteTable RtmpSpec.wit_world) |}.

Example soft_seed_takes_over_witness :
  exists w1 l1 e2 w2 l2 p' r,
    seed_tick (str "en0") {| promotionEligibleAt := Some 5; promotionRequested := false |} wit_silent
      = Some (w1, inr l1) /\
    Aarp.run (Aarp.ERange :: replicate 11 Aarp.ETick) (ether w1) = Some (e2, tt) /\
    seed_tick (str "en0") l1 {| ether := e2; routing := routing w1 |} = Some (w2, inr l2) /\
    port_of (str "en0") (ports (routing w2)) = Some p' /\ ZipService.seedAuthorityActive p' = true /\
    cableStart p' = 3 /\ cableEnd p' = 5 /\
    byClass (table (routing w2)) !! direct_key p' 3 = Some r /\ NetEnd r = 5 /\ Distance r = 0 /\
    availableZones wit_soft_port ⊆ ZoneNames (net_at (table (routing w2)) 3).
Proof.
  apply (soft_seed_takes_over (str "en0") wit_soft_port wit_silent 30 5 3 5 (str "home")
           (replicate 11 Aarp.ETick)).
  - reflexivity.
  - reflexivity.
  - reflexivity.
  - lia.
  - reflexivity.
  - vm_compute; discriminate.
  - apply rtc_refl.
  - apply started_inv; [exact wit_hw_ok|done].
  - reflexivity.
  - reflexivity.
  - repeat constructor.
  - vm_compute; discriminate.
Defined.
