(* ===== verification/PeerTable.v ===== *)
(** * The table of AURP peers ([router/aurp_peer_table.go])

    Peers live in a store: a pointer to an [AURPPeer] is a [positive], [Node] the
    struct it points to ([PS.Peer] with the fields that belong to the table and
    the input loop).  An operation runs in a [T]: the table and the store, the
    router ([Router.RW], which has the route table and the clock), the answers
    of the coming DNS lookups, the random numbers, and the peers whose [Handle]
    was started in a goroutine.  [None] is a run-time panic.  The route table of
    every peer is the router's, as in [main.go].  Each operation that holds the
    table's lock is one step; status pages are left out. *)
From S2P Require Import Prelude Wtacc AurpHeaders AurpTuples AurpZoneInfo AurpPacket.
From S2P Require Import AurpTransport PeerPolicy GoSort RouteTable RouteExport PeerState.
From S2P Require Import AtalkNbp Atalk DdpPolicy Seed LoopProbe Router.
Import RT Policy Router.

(** [net.IP.String]; only the form of an IPv4 address is relied upon. *)
Definition dotted (ip : list Z) : list Z :=
  match ip with
  | [] => []
  | a :: ip => decimal a ++ concat (map (fun b => str "." ++ decimal b) ip)
  end.

Class GoNet := {
  IP_String : list Z -> list Z;
  IP_String_v4 ip v4 : To4 ip = Some v4 -> IP_String ip = dotted v4 }.

#[export] Instance v4_net : GoNet.
Proof.
  refine {| IP_String ip := match To4 ip with Some v4 => dotted v4 | None => str "?" end |}.
  by intros ip v4 ->.
Defined.

Module Peers.

(** ** Errors *)

(** An [error] of these operations: a [*net.DNSError] or any other. *)
Inductive Error := Plain (e : goerr) | DNSError (IsNotFound IsTimeout IsTemporary : bool).

#[global] Instance Error_eq_dec : EqDecision Error.
Proof. solve_decision. Defined.

Definition errDNSBackoff : goerr := Errorf "DNS lookup is in backoff" [].
Definition errPeerCandidateConflict : goerr :=
  Errorf "configured peer candidate identity conflict" [].

(** [errors.Is] walks the chain of wrapped errors. *)
Fixpoint wraps (target e : goerr) : bool :=
  bool_decide (e = target) || match e with Wrapf _ _ inner => wraps target inner | _ => false end.

Definition errors_Is (e : Error) (target : goerr) : bool :=
  match e with Plain e => wraps target e | DNSError _ _ _ => false end.

Definition dnsErrorKind (err : Error) : list Z :=
  if errors_Is err errPeerCandidateConflict then str "identity-conflict"
  else match err with
  | Plain _ => str "error"
  | DNSError notFound timeout temporary =>
      if notFound then str "not-found"
      else if timeout then str "timeout"
      else if temporary then str "temporary"
      else str "dns-error"
  end.

(** ** State *)

(** The fields of [AURPPeer] that [PS.Peer] does not have; [reconnectCh] says
    whether the one slot of the channel is taken. *)
Record Node := MkNode {
  peer : PS.Peer;
  remoteAddr : list Z;
  running : bool;
  reconnectCh : bool;
  ReceiveCh : list Packet;
  receiveQueueHighWater : Z }.

Definition with_peer (v : PS.Peer) (n : Node) : Node :=
  MkNode v (remoteAddr n) (running n) (reconnectCh n) (ReceiveCh n) (receiveQueueHighWater n).
Definition with_remoteAddr (v : list Z) (n : Node) : Node :=
  MkNode (peer n) v (running n) (reconnectCh n) (ReceiveCh n) (receiveQueueHighWater n).
Definition with_running (v : bool) (n : Node) : Node :=
  MkNode (peer n) (remoteAddr n) v (reconnectCh n) (ReceiveCh n) (receiveQueueHighWater n).
Definition with_reconnectCh (v : bool) (n : Node) : Node :=
  MkNode (peer n) (remoteAddr n) (running n) v (ReceiveCh n) (receiveQueueHighWater n).
Definition with_ReceiveCh (v : list Packet) (n : Node) : Node :=
  MkNode (peer n) (remoteAddr n) (running n) (reconnectCh n) v (receiveQueueHighWater n).
Definition with_receiveQueueHighWater (v : Z) (n : Node) : Node :=
  MkNode (peer n) (remoteAddr n) (running n) (reconnectCh n) (ReceiveCh n) v.

Definition ConfiguredAddr (n : Node) : list Z := Policy.ConfiguredAddr (PS.ident (peer n)).
Definition TunnelID (n : Node) : list Z := tunnelID (PS.ident (peer n)).

(** [peer.ConfiguredAddr = addr]; the tunnel ID never changes. *)
Definition with_ConfiguredAddr (addr : list Z) (n : Node) : Node :=
  let p := peer n in
  with_peer {| PS.pid := PS.pid p;
               PS.ident := {| tunnelID := tunnelID (PS.ident p); Policy.ConfiguredAddr := addr |};
               PS.timing := PS.timing p; PS.tr := PS.tr p; PS.snd := PS.snd p; PS.rcv := PS.rcv p;
               PS.tm := PS.tm p; PS.diag := PS.diag p; PS.loopDisabled := PS.loopDisabled p |} n.

Record configuredDNSState := MkDNS { failures : Z; next : option Z; kind : list Z }.

(** The zero value of the struct, which a missing map entry reads as. *)
Definition zero_dns : configuredDNSState := MkDNS 0 None [].

Record AURPPeerTable := MkTable {
  peersByIP : gmap (list Z) positive;
  peersByConfigured : gmap (list Z) positive;
  dnsByConfigured : gmap (list Z) configuredDNSState;
  nextConnID : Z;
  timing : AURPConfig }.

Definition with_peersByIP (v : gmap (list Z) positive) (t : AURPPeerTable) : AURPPeerTable :=
  MkTable v (peersByConfigured t) (dnsByConfigured t) (nextConnID t) (timing t).
Definition with_peersByConfigured (v : gmap (list Z) positive) (t : AURPPeerTable) :
    AURPPeerTable :=
  MkTable (peersByIP t) v (dnsByConfigured t) (nextConnID t) (timing t).
Definition with_dnsByConfigured (v : gmap (list Z) configuredDNSState) (t : AURPPeerTable) :
    AURPPeerTable :=
  MkTable (peersByIP t) (peersByConfigured t) v (nextConnID t) (timing t).
Definition with_nextConnID (v : Z) (t : AURPPeerTable) : AURPPeerTable :=
  MkTable (peersByIP t) (peersByConfigured t) (dnsByConfigured t) v (timing t).

(** The answers of [net.LookupIP], in order; past the end a lookup fails. *)
Record TW := MkTW {
  heap : gmap positive Node;
  peers : AURPPeerTable;
  routing : RW;
  answers : list (Error + list (list Z));
  draws : list Z;
  handlers : list positive }.

Definition with_heap (v : gmap positive Node) (w : TW) : TW :=
  MkTW v (peers w) (routing w) (answers w) (draws w) (handlers w).
Definition with_peers (v : AURPPeerTable) (w : TW) : TW :=
  MkTW (heap w) v (routing w) (answers w) (draws w) (handlers w).
Definition with_routing (v : RW) (w : TW) : TW :=
  MkTW (heap w) (peers w) v (answers w) (draws w) (handlers w).
Definition with_answers (v : list (Error + list (list Z))) (w : TW) : TW :=
  MkTW (heap w) (peers w) (routing w) v (draws w) (handlers w).
Definition with_draws (v : list Z) (w : TW) : TW :=
  MkTW (heap w) (peers w) (routing w) (answers w) v (handlers w).
Definition with_handlers (v : list positive) (w : TW) : TW :=
  MkTW (heap w) (peers w) (routing w) (answers w) (draws w) v.

Definition T (A : Type) : Type := TW -> option (TW * A).

#[global] Instance T_ret : MRet T := fun A a w => Some (w, a).
#[global] Instance T_bind : MBind T := fun A B f m w =>
  match m w with Some (w', a) => f a w' | None => None end.

Definition panic {A} : T A := fun _ => None.
Definition gett {A} (f : TW -> A) : T A := fun w => Some (w, f w).
Definition modt (f : TW -> TW) : T unit := fun w => Some (f w, tt).
Definition modtable (f : AURPPeerTable -> AURPPeerTable) : T unit :=
  modt (fun w => with_peers (f (peers w)) w).
(** Reading and writing through a pointer. *)
Definition deref (p : positive) : T Node := fun w =>
  match heap w !! p with Some n => Some (w, n) | None => None end.
Definition store (p : positive) (f : Node -> Node) : T unit := fun w =>
  match heap w !! p with
  | Some n => Some (with_heap (<[p := f n]> (heap w)) w, tt)
  | None => None
  end.
Definition inR {A} (m : R A) : T A := fun w =>
  match m (routing w) with Some (r, a) => Some (with_routing r w, a) | None => None end.
Definition time_now : T Z := gett (fun w => clock (routing w)).
Definition draw : T Z := fun w => Some (with_draws (tail (draws w)) w, hd 0 (draws w)).
Definition go_Handle (p : positive) : T unit := modt (fun w => with_handlers (handlers w ++ [p]) w).

(** ** DNS backoff *)

Definition dnsBackoffCap : Z := 30 * 60 * PS.second.
Definition dnsJitterPct : Z := 10.

Definition dnsBackoffSteps : list Z :=
  [30 * PS.second; 60 * PS.second; 2 * 60 * PS.second; 5 * 60 * PS.second; 10 * 60 * PS.second;
   30 * 60 * PS.second].

Definition dnsBackoff (failures : Z) : Z :=
  if failures <=? 0 then 0
  else
    let idx := Z.min (failures - 1) (zlen dnsBackoffSteps - 1) in
    Z.min (nth (Z.to_nat idx) dnsBackoffSteps 0) dnsBackoffCap.

(** [rand.Int64N(2*span+1)] is [r mod (2*span+1)] for the random number [r]. *)
Definition jitterDNSBackoff (d : Z) : T Z :=
  if d <=? 0 then mret 0
  else
    let span := Z.quot (d * dnsJitterPct) 100 in
    if span <=? 0 then mret d
    else r ← draw; mret (d + (r mod (2 * span + 1) - span)).

Definition dns_of (t : AURPPeerTable) (peerAddr : list Z) : configuredDNSState :=
  default zero_dns (dnsByConfigured t !! peerAddr).

Definition set_dns (peerAddr : list Z) (s : configuredDNSState) : T unit :=
  modtable (fun t => with_dnsByConfigured (<[peerAddr := s]> (dnsByConfigured t)) t).

(** [if _, ok := m[addr]; !ok { m[addr] = configuredDNSState{} }]. *)
Definition track (peerAddr : list Z) : T unit :=
  modtable (fun t =>
    match dnsByConfigured t !! peerAddr with
    | Some _ => t
    | None => with_dnsByConfigured (<[peerAddr := zero_dns]> (dnsByConfigured t)) t
    end).

Definition TrackConfiguredAddress (peerAddr : list Z) : T unit :=
  if bool_decide (peerAddr = []) then mret tt else track peerAddr.

Definition dnsReady (t : AURPPeerTable) (peerAddr : list Z) (now : Z) : bool :=
  match next (dns_of t peerAddr) with None => true | Some n => negb (now <? n) end.

Definition noteDNSFailure (peerAddr : list Z) (now : Z) (err : Error) : T unit :=
  t ← gett peers;
  let state := dns_of t peerAddr in
  delay ← jitterDNSBackoff (dnsBackoff (failures state + 1));
  set_dns peerAddr (MkDNS (failures state + 1) (Some (now + delay)) (dnsErrorKind err)).

Definition resetDNSBackoff (peerAddr : list Z) : T unit := set_dns peerAddr zero_dns.

Section Table.
Context {GStr : GoStrings} {GS : GoSort} {MO : MapOrder} {GN : GoNet}.

(** ** Ranging over the table *)

Definition configuredAddresses (t : AURPPeerTable) : list (list Z) :=
  set_range (dom (dnsByConfigured t)).

Definition configuredPeer (t : AURPPeerTable) (peerAddr : list Z) : option positive :=
  peersByConfigured t !! peerAddr.

(** [for key, peer := range t.peersByIP]. *)
Definition ip_range (t : AURPPeerTable) : list (list Z * positive) :=
  omap (fun key => (fun p => (key, p)) <$> peersByIP t !! key) (set_range (dom (peersByIP t))).

Fixpoint unique (seen : list positive) (entries : list (list Z * positive)) : list positive :=
  match entries with
  | [] => []
  | (_, p) :: entries =>
      if bool_decide (p ∈ seen) then unique seen entries else p :: unique (p :: seen) entries
  end.

Definition uniquePeersLocked (t : AURPPeerTable) : list positive := unique [] (ip_range t).

Fixpoint start_all (ps : list positive) : T unit :=
  match ps with [] => mret tt | p :: ps => _ ← go_Handle p; start_all ps end.

Definition RunAll : T unit := t ← gett peers; start_all (uniquePeersLocked t).

(** ** Creation of the table *)

Definition applyDefaults (c : AURPConfig) : AURPConfig :=
  let or_default v d := if v =? 0 then d else v in
  {| LastHeardFromTimeout := or_default (LastHeardFromTimeout c) PS.lastHeardFromTimer;
     RetryInterval := or_default (RetryInterval c) PS.sendRetryTimer;
     SendRetryLimit := or_default (SendRetryLimit c) PS.sendRetryLimit;
     TickleRetryLimit := or_default (TickleRetryLimit c) PS.tickleRetryLimit;
     ZoneInfoRetryInterval := or_default (ZoneInfoRetryInterval c) PS.aurpZoneInfoRetryTimer;
     UpdateInterval := or_default (UpdateInterval c) PS.updateTimer;
     HiddenNetworks := HiddenNetworks c; HopCountReduction := HopCountReduction c;
     HopCountWeight := HopCountWeight c; RemapRules := RemapRules c;
     HiddenDevices := HiddenDevices c; Clusters := Clusters c; BackupPeers := BackupPeers c;
     HiddenImportNetworks := HiddenImportNetworks c;
     HiddenExportNetworks := HiddenExportNetworks c |}.

(** [for t.nextConnID == 0 { t.nextConnID = uint16(rand.UintN(0x10000)) }] on
    the random numbers to come; [None] when none of them is usable. *)
Fixpoint first_conn_id (rs : list Z) : option Z :=
  match rs with
  | [] => None
  | r :: rs => let id := r mod 0x10000 in if id =? 0 then first_conn_id rs else Some id
  end.

Definition NewAURPPeerTable (cfg : AURPConfig) (rs : list Z) : option AURPPeerTable :=
  id ← first_conn_id rs; Some (MkTable ∅ ∅ ∅ id (applyDefaults cfg)).

(** ** Lookup and creation *)

Definition DI_String (di : DomainIdentifier) : list Z :=
  match di with NullDomainIdentifier => str "(null DI)" | IPDomainIdentifier ip => IP_String ip end.

Definition conflict (peerAddr raddr4 owner : list Z) : Error :=
  Plain (Wrapf "%w: configured peer %q candidate %v already belongs to %q"
           [AStr peerAddr; AStr raddr4; AStr owner] errPeerCandidateConflict).

(** The struct literal of a new peer; the fields it leaves out are zero. *)
Definition new_peer (ptr : positive) (t : AURPPeerTable) (peerAddr raddr4 : list Z)
    (localDI remoteDI : DomainIdentifier) : Node :=
  let id := if bool_decide (peerAddr = []) then str "di:" ++ DI_String remoteDI
            else str "cfg:" ++ ToLower peerAddr in
  {| peer :=
       {| PS.pid := ptr;
          PS.ident := {| tunnelID := id; Policy.ConfiguredAddr := peerAddr |};
          PS.timing := timing t;
          PS.tr := NewTransport localDI remoteDI (nextConnID t) 0;
          PS.snd := {| PS.sstate := PS.SenderUnconnected;
                       PS.queue := {| Exp.pendingEvents := ∅; Exp.suiFlags := 0 |};
                       PS.pendingRIRsp := []; PS.pendingRIUpd := []; PS.lastRISent := None;
                       PS.restartProbe := false |};
          PS.rcv := {| PS.rstate := PS.ReceiverUnconnected; PS.pendingZoneInfo := ∅ |};
          PS.tm := {| PS.lastReconnect := None; PS.lastHeardFrom := None; PS.lastSend := None;
                      PS.lastUpdate := None; PS.lastSuccess := None; PS.nextReconnect := None;
                      PS.sendRetries := 0; PS.reconnectFailures := 0 |};
          PS.diag := {| PS.counters := []; PS.chatLog := [] |};
          PS.loopDisabled := false |};
     remoteAddr := raddr4; running := false; reconnectCh := false; ReceiveCh := [];
     receiveQueueHighWater := 0 |}.

Definition link_ip (key : list Z) (p : positive) : T unit :=
  modtable (fun t => with_peersByIP (<[key := p]> (peersByIP t)) t).
Definition link_configured (peerAddr : list Z) (p : positive) : T unit :=
  modtable (fun t => with_peersByConfigured (<[peerAddr := p]> (peersByConfigured t)) t).

(** The last part of [LookupOrCreate]: no peer was found. *)
Definition create_peer (peerAddr key : list Z) (localDI : DomainIdentifier)
    (remoteDI : option DomainIdentifier) : T positive :=
  t ← gett peers; h ← gett heap;
  let ptr := fresh (dom h) in
  let remoteDI := default (IPDomainIdentifier key) remoteDI in
  _ ← modt (fun w =>
        with_heap (<[ptr := new_peer ptr t peerAddr key localDI remoteDI]> (heap w)) w);
  _ ← link_ip key ptr;
  _ ← (if bool_decide (peerAddr = []) then mret tt else link_configured peerAddr ptr);
  _ ← modtable (fun t => with_nextConnID (Succ (nextConnID t)) t);
  mret ptr.

(** The middle part: [p] has the address. *)
Definition adopt_peer (peerAddr key : list Z) (p : positive) : T (Error + positive) :=
  if bool_decide (peerAddr = []) then mret (inr p)
  else
    n ← deref p;
    if bool_decide (ConfiguredAddr n <> []) && bool_decide (ConfiguredAddr n <> peerAddr)
    then mret (inl (conflict peerAddr key (ConfiguredAddr n)))
    else
      _ ← store p (with_ConfiguredAddr peerAddr);
      _ ← link_configured peerAddr p;
      mret (inr p).

Definition LookupOrCreate (peerAddr raddr : list Z) (localDI : DomainIdentifier)
    (remoteDI : option DomainIdentifier) : T (Error + positive) :=
  match To4 raddr with
  | None => mret (inl (Plain (Errorf "remote addr %v is not an IPv4 address" [AStr raddr])))
  | Some key =>
      _ ← (if bool_decide (peerAddr = []) then mret tt else track peerAddr);
      t ← gett peers;
      match (if bool_decide (peerAddr = []) then None else peersByConfigured t !! peerAddr) with
      | Some p =>
          match peersByIP t !! key with
          | Some other =>
              if bool_decide (other <> p) then
                n ← deref other; mret (inl (conflict peerAddr key (ConfiguredAddr n)))
              else _ ← link_ip key p; mret (inr p)
          | None => _ ← link_ip key p; mret (inr p)
          end
      | None =>
          match peersByIP t !! key with
          | Some p => adopt_peer peerAddr key p
          | None => p ← create_peer peerAddr key localDI remoteDI; mret (inr p)
          end
      end
  end.

(** [inr None] is the nil peer. *)
Definition Lookup (t : AURPPeerTable) (raddr : list Z) : Error + option positive :=
  match To4 raddr with
  | None => inl (Plain (Errorf "remote addr %v is not an IPv4 address" [AStr raddr]))
  | Some key => inr (peersByIP t !! key)
  end.

(** ** Resolving configured names *)

(** [net.LookupIP]: the next answer. *)
Definition LookupIP : T (Error + list (list Z)) := fun w =>
  Some (with_answers (tail (answers w)) w, hd (inl (DNSError false false false)) (answers w)).

(** [net.IP.Equal]: the 4-byte and the 16-byte form of an address are equal. *)
Definition v4InV6Prefix : list Z := replicate 10 0 ++ [255; 255].
Definition ip_Equal (a b : list Z) : bool :=
  if zlen a =? zlen b then bool_decide (a = b)
  else if (zlen a =? 4) && (zlen b =? 16) then bool_decide (v4InV6Prefix ++ a = b)
  else if (zlen a =? 16) && (zlen b =? 4) then bool_decide (v4InV6Prefix ++ b = a)
  else false.

Fixpoint normalize_loop (seen : gset (list Z)) (addrs : list (list Z)) : list (list Z) :=
  match addrs with
  | [] => []
  | addr :: addrs =>
      match To4 addr with
      | None => normalize_loop seen addrs
      | Some key =>
          if bool_decide (key ∈ seen) then normalize_loop seen addrs
          else key :: normalize_loop ({[key]} ∪ seen) addrs
      end
  end.
Definition normalizeIPv4Candidates (addrs : list (list Z)) : list (list Z) :=
  normalize_loop ∅ addrs.

(** [localIP != nil && localIP.Equal(raddr4)]. *)
Definition is_local (localDI : DomainIdentifier) (raddr4 : list Z) : bool :=
  match localDI with
  | NullDomainIdentifier => false
  | IPDomainIdentifier ip => bool_decide (ip <> []) && ip_Equal ip raddr4
  end.

Definition fail_dns {A} (peerAddr : list Z) (e : Error) : T (Error + A) :=
  now ← time_now; _ ← noteDNSFailure peerAddr now e; mret (inl e).

(** The loop over the candidates; [found] is the variable [peer]. *)
Fixpoint create_candidates (peerAddr : list Z) (localDI : DomainIdentifier)
    (candidates : list (list Z)) (found : option positive) : T (Error + option positive) :=
  match candidates with
  | [] => mret (inr found)
  | raddr4 :: candidates =>
      if is_local localDI raddr4 then create_candidates peerAddr localDI candidates found
      else
        r ← LookupOrCreate peerAddr raddr4 localDI None;
        match r with
        | inl e => fail_dns peerAddr e
        | inr p =>
            create_candidates peerAddr localDI candidates
              (match found with None => Some p | Some _ => found end)
        end
  end.

Definition ResolveConfiguredPeer (peerAddr : list Z) (localDI : DomainIdentifier) :
    T (Error + positive) :=
  t ← gett peers; now ← time_now;
  if negb (dnsReady t peerAddr now) then mret (inl (Plain errDNSBackoff))
  else
    resolved ← LookupIP;
    match resolved with
    | inl e => fail_dns peerAddr e
    | inr resolved =>
        let candidates := normalizeIPv4Candidates resolved in
        if zlen candidates =? 0 then
          fail_dns peerAddr
            (Plain (Errorf "configured peer %q has no IPv4 candidates" [AStr peerAddr]))
        else
          r ← create_candidates peerAddr localDI candidates None;
          match r with
          | inl e => mret (inl e)
          | inr None =>
              fail_dns peerAddr
                (Plain (Errorf "configured peer %q resolved only to local address" [AStr peerAddr]))
          | inr (Some p) => _ ← resetDNSBackoff peerAddr; mret (inr p)
          end
    end.

(** ** Refreshing the candidates of a configured peer *)

(** [for key := range desired]: the first address of another peer. *)
Fixpoint foreign_candidate (t : AURPPeerTable) (ptr : positive) (keys : list (list Z)) :
    option (list Z * positive) :=
  match keys with
  | [] => None
  | key :: keys =>
      match peersByIP t !! key with
      | Some other =>
          if bool_decide (other <> ptr) then Some (key, other) else foreign_candidate t ptr keys
      | None => foreign_candidate t ptr keys
      end
  end.

(** The loop that deletes the addresses no longer listed, on the entries of the
    table, and the one that enters the listed ones. *)
Fixpoint prune (ptr : positive) (desired : gset (list Z)) (entries : list (list Z * positive))
    (m : gmap (list Z) positive) : gmap (list Z) positive :=
  match entries with
  | [] => m
  | (key, mapped) :: entries =>
      if bool_decide (mapped <> ptr) || bool_decide (key ∈ desired)
      then prune ptr desired entries m
      else prune ptr desired entries (delete key m)
  end.
Fixpoint enter (ptr : positive) (keys : list (list Z)) (m : gmap (list Z) positive) :
    gmap (list Z) positive :=
  match keys with [] => m | key :: keys => enter ptr keys (<[key := ptr]> m) end.

(** [peer.RouteTable.DeleteTarget(peer)]. *)
Definition delete_target (n : Node) : R unit :=
  now ← getw clock;
  on_table (fun rt =>
    match DeleteTarget now (PS.self (peer n)) rt with
    | Some (rt, ns) => Some (tt, rt, ns)
    | None => None
    end).

Definition store_nextReconnect (v : option Z) (n : Node) : Node :=
  with_peer (PS.with_tm (PS.with_nextReconnect v (PS.tm (peer n))) (peer n)) n.

Definition active_listed (n : Node) (desired : gset (list Z)) : bool :=
  match To4 (remoteAddr n) with Some active4 => bool_decide (active4 ∈ desired) | None => false end.

Definition switch_endpoint (ptr : positive) (n : Node) (candidates : list (list Z)) :
    T (Error + bool) :=
  _ ← inR (delete_target n);
  match candidates with
  | [] => panic
  | first :: _ =>
      _ ← store ptr (with_remoteAddr first);
      _ ← store ptr (store_nextReconnect None);
      mret (inr true)
  end.

(** The part that holds the lock; [candidates] are normalized. *)
Definition refresh (ptr : positive) (candidates : list (list Z)) : T (Error + bool) :=
  let desired : gset (list Z) := list_to_set candidates in
  n ← deref ptr;
  t ← gett peers;
  if bool_decide (peersByConfigured t !! ConfiguredAddr n <> Some ptr) then
    mret (inl (Plain (Errorf "configured peer mapping changed for %q" [AStr (ConfiguredAddr n)])))
  else
    match foreign_candidate t ptr (set_range desired) with
    | Some (key, other) =>
        o ← deref other; mret (inl (conflict (ConfiguredAddr n) key (ConfiguredAddr o)))
    | None =>
        _ ← modtable (fun t => with_peersByIP (prune ptr desired (ip_range t) (peersByIP t)) t);
        _ ← modtable (fun t => with_peersByIP (enter ptr (set_range desired) (peersByIP t)) t);
        if active_listed n desired then mret (inr false : Error + bool)
        else switch_endpoint ptr n candidates
    end.

Definition setConfiguredCandidates (ptr : positive) (addrs : list (list Z)) : T (Error + bool) :=
  let candidates := normalizeIPv4Candidates addrs in
  n ← deref ptr;
  if bool_decide (ConfiguredAddr n = []) then
    mret (inl (Plain (Errorf "peer has no configured address" [])))
  else if zlen candidates =? 0 then
    mret (inl (Plain (Errorf "configured peer %q has no IPv4 candidates" [AStr (ConfiguredAddr n)])))
  else refresh ptr candidates.

(** A send on a channel with one slot, or nothing when it is taken. *)
Definition signalReconnect (ptr : positive) : T unit := store ptr (with_reconnectCh true).

(** Its error is always nil. *)
Definition reconnectPeer (ptr : positive) : T unit :=
  n ← deref ptr;
  if bool_decide (ConfiguredAddr n = []) then mret tt
  else
    t ← gett peers; now ← time_now;
    if negb (dnsReady t (ConfiguredAddr n) now) then mret tt
    else
      resolved ← LookupIP;
      match resolved with
      | inl e => noteDNSFailure (ConfiguredAddr n) now e
      | inr resolved =>
          let candidates := normalizeIPv4Candidates resolved in
          if zlen candidates =? 0 then
            noteDNSFailure (ConfiguredAddr n) now
              (Plain (Errorf "resolved peer has no IPv4 addresses" []))
          else
            switched ← setConfiguredCandidates ptr candidates;
            match switched with
            | inl e => noteDNSFailure (ConfiguredAddr n) now e
            | inr _ =>
                _ ← resetDNSBackoff (ConfiguredAddr n);
                n ← deref ptr;
                if running n then signalReconnect ptr else go_Handle ptr
            end
      end.

(** One configured name at a tick of [PeriodicallyAttemptConnections]. *)
Definition attempt_connection (localDI : DomainIdentifier) (peerAddr : list Z) : T unit :=
  t ← gett peers;
  match configuredPeer t peerAddr with
  | None =>
      now ← time_now;
      if negb (dnsReady t peerAddr now) then mret tt
      else
        r ← ResolveConfiguredPeer peerAddr localDI;
        match r with
        | inl _ => mret tt
        | inr p => n ← deref p; if running n then mret tt else go_Handle p
        end
  | Some p =>
      n ← deref p;
      if bool_decide (PS.rstate (PS.rcv (peer n)) = PS.ReceiverUnconnected)
      then reconnectPeer p else mret tt
  end.

Fixpoint attempt_all (localDI : DomainIdentifier) (names : list (list Z)) : T unit :=
  match names with
  | [] => mret tt
  | name :: names => _ ← attempt_connection localDI name; attempt_all localDI names
  end.

Definition PeriodicallyAttemptConnections (localDI : DomainIdentifier) : T unit :=
  t ← gett peers; attempt_all localDI (configuredAddresses t).

End Table.
End Peers.
