(* ===== verification/PeerTableInv.v ===== *)
(** * The table of AURP peers: invariant and steps

    The table's operations hold its lock one at a time, in any order and from
    any goroutine: [table_step] is one of them, or anything the rest of the
    program does to peers and routes.  [table_ok] is the invariant; [total] and
    [steps] say that a program returns from a consistent table, leaves one, and
    is a sequence of steps, and carry the lemmas about each operation. *)
From S2P Require Import Prelude Wtacc AurpHeaders AurpTuples AurpZoneInfo AurpPacket.
From S2P Require Import AurpTransport PeerPolicy GoSort RouteTable RouteTableInv RouteTableOps.
From S2P Require Import RouteTableSpec RouteExport PeerState.
From S2P Require Import AtalkNbp Atalk DdpPolicy Seed LoopProbe Router RouterSpec PeerTable.
Import RT Policy Router Peers.

Lemma t_bind {A B} (m : T A) (f : A -> T B) w w' a :
  m w = Some (w', a) -> (m ≫= f) w = f a w'.
Proof. intros E. unfold mbind, T_bind. by rewrite E. Qed.
Lemma t_deref {B} p n (f : Node -> T B) w : heap w !! p = Some n -> (deref p ≫= f) w = f n w.
Proof. intros E. apply t_bind. unfold deref. by rewrite E. Qed.

Lemma To4_length ip v4 : To4 ip = Some v4 -> zlen v4 = 4.
Proof.
  unfold To4. case_if; [intros [= <-]; by zbool|]. case_if; [|done]. intros [= <-].
  zbool. unfold zlen in *. rewrite length_drop. lia.
Qed.
Lemma To4_idem v4 : zlen v4 = 4 -> To4 v4 = Some v4.
Proof. intros E. unfold To4. by rewrite (proj2 (Z.eqb_eq _ _) E). Qed.

Section Spec.
Context {GStr : GoStrings} {GS : GoSort} {MO : MapOrder} {GN : GoNet}.

(** ** The invariant *)

Definition dns_ok (s : configuredDNSState) : Prop :=
  0 <= failures s /\ (failures s = 0 <-> next s = None).

(** Every address in the table leads to a peer; a peer with a configured name
    is the one filed under it, which makes the pairing of names and peers one
    to one; every peer is reachable under its active endpoint. *)
Record table_ok (w : TW) : Prop := {
  ok_ip key p : peersByIP (peers w) !! key = Some p -> zlen key = 4 /\ is_Some (heap w !! p);
  ok_named c p : peersByConfigured (peers w) !! c = Some p <->
    c <> [] /\ exists n, heap w !! p = Some n /\ ConfiguredAddr n = c;
  ok_tracked c : is_Some (peersByConfigured (peers w) !! c) -> is_Some (dnsByConfigured (peers w) !! c);
  ok_active p n : heap w !! p = Some n -> peersByIP (peers w) !! remoteAddr n = Some p;
  ok_pid p n : heap w !! p = Some n -> PS.pid (peer n) = p;
  ok_dns c s : dnsByConfigured (peers w) !! c = Some s -> dns_ok s;
  ok_conn : 1 <= nextConnID (peers w) <= 65535;
  ok_routes : reachable (table (routing w)) }.

(** What no operation takes away: peers, their tunnel IDs, and names once given. *)
Record grows (w w' : TW) : Prop := {
  g_heap p n : heap w !! p = Some n -> exists n', heap w' !! p = Some n' /\
    TunnelID n' = TunnelID n /\ (ConfiguredAddr n <> [] -> ConfiguredAddr n' = ConfiguredAddr n);
  g_named c p : peersByConfigured (peers w) !! c = Some p ->
    peersByConfigured (peers w') !! c = Some p }.

#[export] Instance grows_preorder : PreOrder grows.
Proof.
  split.
  - intros w. split; [|done]. intros p n E. by exists n.
  - intros w1 w2 w3 [H1 N1] [H2 N2]. split; [|by auto]. intros p n E.
    destruct (H1 p n E) as (n' & E' & Ht & Hc). destruct (H2 p n' E') as (n2 & E2 & Ht2 & Hc2).
    exists n2. split_and!; [done|congruence|]. intros Hn. rewrite Hc2; [by auto|by rewrite Hc].
Qed.

(** The rest of the program changes neither the table nor whom a peer is. *)
Definition same_node (n n' : Node) : Prop :=
  PS.pid (peer n') = PS.pid (peer n) /\ PS.ident (peer n') = PS.ident (peer n) /\
  remoteAddr n' = remoteAddr n.

Definition elsewhere (w w' : TW) : Prop :=
  peers w' = peers w /\ (forall p, option_relation same_node (fun _ => False) (fun _ => False) (heap w !! p) (heap w' !! p)) /\
  (reachable (table (routing w)) -> reachable (table (routing w'))).

Inductive table_step (w : TW) : TW -> Prop :=
| st_track addr w' : TrackConfiguredAddress addr w = Some (w', tt) -> table_step w w'
| st_failure addr now e w' : noteDNSFailure addr now e w = Some (w', tt) -> table_step w w'
| st_reset addr w' : resetDNSBackoff addr w = Some (w', tt) -> table_step w w'
| st_lookup addr raddr ldi rdi w' r : LookupOrCreate addr raddr ldi rdi w = Some (w', r) -> table_step w w'
| st_refresh ptr addrs w' r : setConfiguredCandidates ptr addrs w = Some (w', r) -> table_step w w'
| st_elsewhere w' : elsewhere w w' -> table_step w w'.

(** [m] returns from a consistent table, by steps that [R] relates. *)
Definition total {A} (m : T A) (w : TW) (Q : TW -> A -> Prop) : Prop :=
  exists w' a, m w = Some (w', a) /\ table_ok w' /\ grows w w' /\ Q w' a.

(** ** Frames *)

Lemma elsewhere_ok w w' : elsewhere w w' -> table_ok w -> table_ok w' /\ grows w w'.
Proof.
  intros (Ep & Eh & Hr) [H1 H2 H3 H4 H5 H6 H7 H8].
  assert (Hfwd : forall p n, heap w !! p = Some n ->
            exists n', heap w' !! p = Some n' /\ same_node n n').
  { intros p n E. specialize (Eh p). rewrite E in Eh. destruct (heap w' !! p) as [n'|]; [|done].
    by exists n'. }
  assert (Hbwd : forall p n', heap w' !! p = Some n' ->
            exists n, heap w !! p = Some n /\ same_node n n').
  { intros p n E. specialize (Eh p). rewrite E in Eh. destruct (heap w !! p) as [n'|]; [|done].
    by exists n'. }
  split; [split; rewrite ?Ep; try done|split].
  - intros key p Hk. destruct (H1 key p Hk) as (Hl & n & E). split; [done|].
    destruct (Hfwd p n E) as (n' & E' & _). by exists n'.
  - intros c p. rewrite (H2 c p). apply and_iff_compat_l. unfold ConfiguredAddr. split.
    + intros (n & E & Hc). destruct (Hfwd p n E) as (n' & E' & _ & Hi & _). exists n'. by rewrite Hi.
    + intros (n & E & Hc). destruct (Hbwd p n E) as (n' & E' & _ & Hi & _). exists n'. by rewrite <- Hi.
  - intros p n E. destruct (Hbwd p n E) as (n' & E' & _ & _ & ->). by apply H4.
  - intros p n E. destruct (Hbwd p n E) as (n' & E' & -> & _ & _). by apply H5.
  - by apply Hr.
  - intros p n E. destruct (Hfwd p n E) as (n' & E' & _ & Hi & _). exists n'.
    unfold TunnelID, ConfiguredAddr. by rewrite Hi.
  - by rewrite Ep.
Qed.

(** A write to a peer that leaves whom it is. *)
Lemma insert_elsewhere w w' p n n' : heap w !! p = Some n -> same_node n n' ->
  peers w' = peers w -> heap w' = <[p := n']> (heap w) ->
  (reachable (table (routing w)) -> reachable (table (routing w'))) -> elsewhere w w'.
Proof.
  intros E Hs Ep Eh Hr. split; [done|]. split; [|done]. intros q. rewrite Eh.
  destruct (decide (p = q)) as [<-|].
  - by rewrite E, lookup_insert_eq.
  - rewrite lookup_insert_ne by done. by destruct (heap w !! q).
Qed.

End Spec.

(** [elsewhere] for a write through the pointer that [E] looks up. *)
Ltac write_elsewhere E := eapply insert_elsewhere; [exact E| |reflexivity|reflexivity|]; try done.

Section Spec.
Context {GStr : GoStrings} {GS : GoSort} {MO : MapOrder} {GN : GoNet}.

(** A change of the table's DNS part. *)
Lemma dns_frame w addr s :
  table_ok w -> dns_ok s ->
  let w' := with_peers (with_dnsByConfigured (<[addr := s]> (dnsByConfigured (peers w))) (peers w)) w in
  table_ok w' /\ grows w w'.
Proof.
  intros [H1 H2 H3 H4 H5 H6 H7 H8] Hs. split; [split; cbn; try done|split; cbn; [|done]].
  - intros c Hc. destruct (decide (c = addr)) as [->|];
      [by rewrite lookup_insert_eq|rewrite lookup_insert_ne by done; by apply H3].
  - intros c s'. destruct (decide (c = addr)) as [->|];
      [rewrite lookup_insert_eq; by intros [= <-]|rewrite lookup_insert_ne by done; apply H6].
  - intros p n E. by exists n.
Qed.

Lemma peers_eta w : with_peers (peers w) w = w.
Proof. by destruct w. Qed.

Lemma track_total w addr : table_ok w -> total (track addr) w (fun w' _ =>
  is_Some (dnsByConfigured (peers w') !! addr) /\ heap w' = heap w /\
  peersByIP (peers w') = peersByIP (peers w) /\ peersByConfigured (peers w') = peersByConfigured (peers w) /\
  nextConnID (peers w') = nextConnID (peers w) /\ timing (peers w') = timing (peers w) /\
  routing w' = routing w).
Proof.
  intros Hw. unfold total, track, modtable, modt. destruct (dnsByConfigured (peers w) !! addr) as [s|] eqn:E.
  - exists w, tt. rewrite peers_eta. split; [done|]. split_and!; try done.
  - destruct (dns_frame w addr zero_dns Hw) as [Hok Hg]; [done|].
    eexists _, _. split; [done|]. split_and!; try done; cbn. rewrite lookup_insert_eq. by eexists.
Qed.

(** ** The backoff of DNS lookups *)

Lemma steps_nth k : (k < 6)%nat -> 30 * PS.second <= nth k dnsBackoffSteps 0 <= dnsBackoffCap.
Proof. do 6 (destruct k; [vm_compute; split; congruence|]). lia. Qed.

Lemma dnsBackoff_range n : 0 < n -> 30 * PS.second <= dnsBackoff n <= dnsBackoffCap.
Proof.
  intros Hn. unfold dnsBackoff. zdec. change (zlen dnsBackoffSteps) with 6.
  pose proof (steps_nth (Z.to_nat (Z.min (n - 1) (6 - 1))) ltac:(lia)). lia.
Qed.

Lemma jitter_total d w : 30 * PS.second <= d <= dnsBackoffCap ->
  exists w' v, jitterDNSBackoff d w = Some (w', v) /\ w' = with_draws (tail (draws w)) w /\ 9 * d <= 10 * v <= 11 * d.
Proof.
  unfold PS.second, dnsBackoffCap. intros Hd. unfold jitterDNSBackoff. zdec. cbv zeta.
  assert (Hq : Z.quot (d * dnsJitterPct) 100 = d / 10).
  { unfold dnsJitterPct. rewrite Z.quot_div_nonneg by lia.
    replace (d * 10) with (d * 10) by done. change 100 with (10 * 10). by rewrite Z.div_mul_cancel_r. }
  rewrite Hq. pose proof (Z.div_mod d 10 ltac:(lia)). pose proof (Z.mod_pos_bound d 10 ltac:(lia)).
  zdec. eexists _, _. split; [by rewrite (t_bind _ _ w (with_draws (tail (draws w)) w) (hd 0 (draws w)))|].
  split; [done|]. pose proof (Z.mod_pos_bound (hd 0 (draws w)) (2 * (d / 10) + 1) ltac:(lia)). lia.
Qed.

Lemma note_total w addr now e : table_ok w -> total (noteDNSFailure addr now e) w (fun w' _ =>
  heap w' = heap w /\ routing w' = routing w /\ answers w' = answers w /\
  peersByIP (peers w') = peersByIP (peers w) /\ peersByConfigured (peers w') = peersByConfigured (peers w) /\
  exists delay, 9 * dnsBackoff (failures (dns_of (peers w) addr) + 1) <= 10 * delay
                <= 11 * dnsBackoff (failures (dns_of (peers w) addr) + 1) /\
    dnsByConfigured (peers w') = <[addr := MkDNS (failures (dns_of (peers w) addr) + 1)
      (Some (now + delay)) (dnsErrorKind e)]> (dnsByConfigured (peers w))).
Proof.
  intros Hw. set (k := failures (dns_of (peers w) addr)).
  assert (Hk : 0 <= k).
  { unfold k, dns_of. destruct (dnsByConfigured (peers w) !! addr) as [s|] eqn:E; [|done].
    apply (ok_dns w Hw addr s E). }
  destruct (jitter_total (dnsBackoff (k + 1)) w) as (w1 & d & E & -> & Hd); [apply dnsBackoff_range; lia|].
  set (w1 := with_draws _ w) in *.
  assert (Hw1 : table_ok w1) by (destruct Hw; by split).
  destruct (dns_frame w1 addr (MkDNS (k + 1) (Some (now + d)) (dnsErrorKind e)) Hw1) as [Hok Hg];
    [split; cbn; [lia|split; [lia|done]]|].
  eexists _, _. split.
  - unfold noteDNSFailure. rewrite (t_bind (gett peers) _ w w (peers w)) by done. cbv zeta.
    by rewrite (t_bind _ _ _ _ _ E).
  - split; [exact Hok|]. split; [by destruct Hg; split|]. split_and!; try done. by exists d.
Qed.

Lemma reset_total w addr : table_ok w -> total (resetDNSBackoff addr) w (fun w' _ =>
  heap w' = heap w /\ routing w' = routing w /\
  peersByIP (peers w') = peersByIP (peers w) /\ peersByConfigured (peers w') = peersByConfigured (peers w)).
Proof.
  intros Hw. destruct (dns_frame w addr zero_dns Hw) as [Hok Hg]; [done|].
  eexists _, _. split; [done|]. by split_and!.
Qed.

(** ** [LookupOrCreate] *)

Lemma ok_ip_eta w : table_ok w -> forall key p, peersByIP (peers w) !! key = Some p ->
  exists n, heap w !! p = Some n.
Proof. intros Hw key p E. by destruct (ok_ip w Hw key p E) as (_ & n & En); exists n. Qed.

(** A free address, or one that is the peer's already, is filed under a peer. *)
Lemma link_total w key p : table_ok w -> zlen key = 4 -> is_Some (heap w !! p) ->
  peersByIP (peers w) !! key = None \/ peersByIP (peers w) !! key = Some p ->
  total (link_ip key p) w (fun w' _ =>
    heap w' = heap w /\ routing w' = routing w /\
    peersByIP (peers w') = <[key := p]> (peersByIP (peers w)) /\
    peersByConfigured (peers w') = peersByConfigured (peers w)).
Proof.
  intros Hw Hl Hp Hf. eexists _, _. split; [done|]. split; [|split; [|by split_and!]].
  - destruct Hw as [H1 H2 H3 H4 H5 H6 H7 H8]. split; cbn; try done.
    + intros k q. destruct (decide (k = key)) as [->|].
      * rewrite lookup_insert_eq. by intros [= <-].
      * rewrite lookup_insert_ne by done. apply H1.
    + intros q n E. pose proof (H4 q n E) as Ha. destruct (decide (remoteAddr n = key)) as [Hk|].
      * rewrite Hk in Ha |- *. rewrite lookup_insert_eq. destruct Hf as [Hf|Hf]; congruence.
      * by rewrite lookup_insert_ne.
  - split; cbn; [|done]. intros q n E. by exists n.
Qed.


(** An unconfigured peer gets a name that no peer has. *)
Lemma name_total w c p n : table_ok w -> c <> [] -> is_Some (dnsByConfigured (peers w) !! c) ->
  peersByConfigured (peers w) !! c = None -> heap w !! p = Some n -> ConfiguredAddr n = [] ->
  total (_ ← store p (with_ConfiguredAddr c); link_configured c p) w (fun w' _ =>
    heap w' = <[p := with_ConfiguredAddr c n]> (heap w) /\ routing w' = routing w /\
    peersByIP (peers w') = peersByIP (peers w) /\
    peersByConfigured (peers w') = <[c := p]> (peersByConfigured (peers w))).
Proof.
  intros Hw Hc Hd Hn Hp He. eexists _, _. split.
  { erewrite t_bind; [|unfold store; by rewrite Hp]. reflexivity. }
  split; [|split; [|by split_and!]].
  - destruct Hw as [H1 H2 H3 H4 H5 H6 H7 H8]. split; cbn; try done.
    + intros k q E. destruct (H1 k q E) as (Hl & Hs). split; [done|].
      apply lookup_insert_is_Some'. by right.
    + intros c' q. destruct (decide (c' = c)) as [->|Hne].
      * rewrite lookup_insert_eq. split.
        -- intros [= <-]. split; [done|]. eexists. by rewrite lookup_insert_eq.
        -- intros (_ & m & E & Hm). destruct (decide (p = q)) as [->|Hpq]; [done|].
           rewrite lookup_insert_ne in E by done.
           assert (Hs : peersByConfigured (peers w) !! c = Some q) by (apply H2; eauto). congruence.
      * rewrite lookup_insert_ne by done. rewrite (H2 c' q).
        destruct (decide (p = q)) as [<-|]; [|by rewrite lookup_insert_ne].
        rewrite lookup_insert_eq. split.
        -- intros (Hc' & m & E & Hm). rewrite Hp in E. injection E as <-. congruence.
        -- intros (_ & m & [= <-] & Hm). by destruct Hne.
    + intros c' Hc'. destruct (decide (c' = c)) as [->|]; [done|].
      rewrite lookup_insert_ne in Hc' by done. by apply H3.
    + intros q m. destruct (decide (p = q)) as [->|]; [|rewrite lookup_insert_ne by done; apply H4].
      rewrite lookup_insert_eq. intros [= <-]. by apply (H4 q n).
    + intros q m. destruct (decide (p = q)) as [->|]; [|rewrite lookup_insert_ne by done; apply H5].
      rewrite lookup_insert_eq. intros [= <-]. by apply (H5 q n).
  - split; cbn.
    + intros q m E. destruct (decide (p = q)) as [->|]; [|rewrite lookup_insert_ne by done; by exists m].
      rewrite lookup_insert_eq. eexists. split; [done|]. rewrite Hp in E. injection E as ->. done.
    + intros c' q E. rewrite lookup_insert_ne; [done|]. congruence.
Qed.

(** The table after a new peer was entered. *)
Definition entered (w : TW) (ptr : positive) (n : Node) (c key : list Z) : TW :=
  let t := peers w in
  with_peers (MkTable (<[key := ptr]> (peersByIP t))
                (if bool_decide (c = []) then peersByConfigured t else <[c := ptr]> (peersByConfigured t))
                (dnsByConfigured t) (Succ (nextConnID t)) (timing t))
    (with_heap (<[ptr := n]> (heap w)) w).

Lemma entered_ok w n c key : table_ok w -> zlen key = 4 ->
  let ptr := fresh (dom (heap w)) in
  peersByIP (peers w) !! key = None -> ConfiguredAddr n = c -> remoteAddr n = key ->
  PS.pid (peer n) = ptr ->
  (c <> [] -> is_Some (dnsByConfigured (peers w) !! c) /\ peersByConfigured (peers w) !! c = None) ->
  table_ok (entered w ptr n c key) /\ grows w (entered w ptr n c key).
Proof.
  intros Hw Hl ptr Hk Hc Ha Hpid Hd.
  assert (Hf : heap w !! ptr = None) by (apply not_elem_of_dom, is_fresh).
  destruct Hw as [H1 H2 H3 H4 H5 H6 H7 H8].
  assert (Hnp : forall q m, heap w !! q = Some m -> ptr <> q) by (intros q m E <-; congruence).
  assert (Hnn : forall c', peersByConfigured (peers w) !! c' = Some ptr -> False).
  { intros c' E. apply H2 in E as (_ & m & E & _). congruence. }
  unfold entered. split; [split; cbn; try done|split; cbn].
  - intros k q. destruct (decide (k = key)) as [->|].
    + rewrite lookup_insert_eq. intros [= <-]. rewrite lookup_insert_eq. eauto.
    + rewrite lookup_insert_ne by done. intros E. destruct (H1 k q E) as (Hl' & Hs).
      split; [done|]. apply lookup_insert_is_Some'. by right.
  - intros c' q. destruct (decide (ptr = q)) as [<-|Hq].
    + rewrite lookup_insert_eq. split.
      * case_bool_decide as Hce; [by intros E%Hnn|]. intros E.
        destruct (decide (c' = c)) as [->|]; [by eauto|]. rewrite lookup_insert_ne in E by done.
        by apply Hnn in E.
      * intros (Hne & m & [= <-] & Hm). rewrite bool_decide_eq_false_2 by congruence.
        rewrite <- Hc, Hm. by rewrite lookup_insert_eq.
    + rewrite lookup_insert_ne by done. rewrite <- (H2 c' q). case_bool_decide as Hce; [done|].
      destruct (decide (c' = c)) as [->|]; [|by rewrite lookup_insert_ne].
      rewrite lookup_insert_eq. destruct (Hd Hce) as (_ & ->). split; congruence.
  - intros c' Hc'. case_bool_decide as Hce; [by apply H3|].
    destruct (decide (c' = c)) as [->|]; [by apply Hd|]. rewrite lookup_insert_ne in Hc' by done.
    by apply H3.
  - intros q m. destruct (decide (ptr = q)) as [<-|Hq].
    + rewrite lookup_insert_eq. intros [= <-]. rewrite Ha. by rewrite lookup_insert_eq.
    + rewrite lookup_insert_ne by done. intros E. rewrite lookup_insert_ne; [by apply H4|].
      intros Hk'. rewrite Hk', (H4 q m E) in Hk. done.
  - intros q m. destruct (decide (ptr = q)) as [<-|Hq].
    + rewrite lookup_insert_eq. by intros [= <-].
    + rewrite lookup_insert_ne by done. apply H5.
  - pose proof (Succ_range (nextConnID (peers w)) ltac:(unfold u16; lia)). lia.
  - intros q m E. rewrite lookup_insert_ne by eauto. by exists m.
  - intros c' q E. case_bool_decide as Hce; [done|]. rewrite lookup_insert_ne; [done|].
    destruct (Hd Hce) as (_ & Hn). congruence.
Qed.

Lemma create_run w c key ldi rdi :
  let ptr := fresh (dom (heap w)) in
  create_peer c key ldi rdi w =
    Some (entered w ptr (new_peer ptr (peers w) c key ldi (default (IPDomainIdentifier key) rdi)) c key, ptr).
Proof.
  unfold create_peer, entered. cbv zeta. destruct w as [h [ip cf dns conn tm] r a d hs].
  by case_bool_decide.
Qed.

(** Who owns an address that a name may not have: another name, or a peer
    without a name when the name has a peer already. *)
Definition conflict_with (w : TW) (c key : list Z) : option (list Z) :=
  if bool_decide (c = []) then None
  else
    q ← peersByIP (peers w) !! key;
    n ← heap w !! q;
    if bool_decide (ConfiguredAddr n = c) then None
    else if bool_decide (ConfiguredAddr n = []) && bool_decide (peersByConfigured (peers w) !! c = None)
    then None
    else Some (ConfiguredAddr n).

(** The peer a name or an address leads to. *)
Definition known_peer (w : TW) (c key : list Z) : option positive :=
  match (if bool_decide (c = []) then None else peersByConfigured (peers w) !! c) with
  | Some p => Some p
  | None => peersByIP (peers w) !! key
  end.

(** What [LookupOrCreate] does with an IPv4 address: refuse a conflict, or file
    the known peer or a new one under address and name. *)
Definition looked_up (w : TW) (c key : list Z) (ldi : DomainIdentifier) (rdi : option DomainIdentifier)
    (w' : TW) (r : Error + positive) : Prop :=
  routing w' = routing w /\
  match conflict_with w c key with
  | Some owner =>
      r = inl (conflict c key owner) /\ heap w' = heap w /\
      peersByIP (peers w') = peersByIP (peers w) /\
      peersByConfigured (peers w') = peersByConfigured (peers w)
  | None => exists p,
      r = inr p /\
      peersByIP (peers w') = <[key := p]> (peersByIP (peers w)) /\
      peersByConfigured (peers w') =
        (if bool_decide (c = []) then peersByConfigured (peers w)
         else <[c := p]> (peersByConfigured (peers w))) /\
      match known_peer w c key with
      | Some q => p = q /\ exists n, heap w !! p = Some n /\
          heap w' = (if bool_decide (c = []) then heap w else <[p := with_ConfiguredAddr c n]> (heap w))
      | None => heap w !! p = None /\
          heap w' = <[p := new_peer p (peers w) c key ldi (default (IPDomainIdentifier key) rdi)]> (heap w)
      end
  end.

Lemma rename_same n : with_ConfiguredAddr (ConfiguredAddr n) n = n.
Proof. by destruct n as [[? [] ? ? ? ? ? ? ?] ? ? ? ? ?]. Qed.

(** [total] with the program run from the state a first step left. *)
Lemma total_bind {A B} (m : T A) (f : A -> T B) w (Q : TW -> A -> Prop) (Q' : TW -> B -> Prop) :
  total m w Q ->
  (forall w1 a, table_ok w1 -> grows w w1 -> Q w1 a -> total (f a) w1 Q') ->
  total (m ≫= f) w Q'.
Proof.
  intros (w1 & a & E & Hok & Hg & Hq) Hf. destruct (Hf w1 a Hok Hg Hq) as (w2 & b & E2 & Hok2 & Hg2 & Hq2).
  exists w2, b. rewrite (t_bind _ _ _ _ _ E). split_and!; [done..| |done]. by etrans.
Qed.
Lemma total_ret {A} (a : A) w (Q : TW -> A -> Prop) : table_ok w -> Q w a -> total (mret a) w Q.
Proof. intros Hw Hq. by exists w, a. Qed.
Lemma total_gett {A B} (g : TW -> A) (f : A -> T B) w Q : total (f (g w)) w Q -> total (gett g ≫= f) w Q.
Proof. done. Qed.
Lemma total_deref {B} p n (f : Node -> T B) w Q :
  heap w !! p = Some n -> total (f n) w Q -> total (deref p ≫= f) w Q.
Proof.
  intros E (w' & a & H & Hq). exists w', a. split; [|done].
  by rewrite (t_bind _ _ w w n) by (unfold deref; by rewrite E).
Qed.
Lemma total_mono {A} (m : T A) w (Q Q' : TW -> A -> Prop) :
  total m w Q -> (forall w' a, table_ok w' -> grows w w' -> Q w' a -> Q' w' a) -> total m w Q'.
Proof. intros (w' & a & E & Hok & Hg & Hq) H. exists w', a. split_and!; auto. Qed.

Lemma same_insert {V} (m : gmap (list Z) V) k v : m !! k = Some v -> <[k := v]> m = m.
Proof. apply insert_id. Qed.

Lemma total_assoc {A B C} (m : T A) (f : A -> T B) (k : B -> T C) w Q :
  total ((m ≫= f) ≫= k) w Q -> total (m ≫= fun a => f a ≫= k) w Q.
Proof.
  intros (w' & c & E & H). exists w', c. split; [|done]. rewrite <- E.
  unfold mbind, T_bind. by destruct (m w) as [[w1 a]|].
Qed.

Lemma conflict_owned w c key q n :
  peersByIP (peers w) !! key = Some q -> heap w !! q = Some n ->
  conflict_with w c key =
    if bool_decide (c = []) then None
    else if bool_decide (ConfiguredAddr n = c) then None
    else if bool_decide (ConfiguredAddr n = []) && bool_decide (peersByConfigured (peers w) !! c = None)
    then None
    else Some (ConfiguredAddr n).
Proof. intros Hk Hq. unfold conflict_with. rewrite Hk. cbn. by rewrite Hq. Qed.
Lemma conflict_free w c key : peersByIP (peers w) !! key = None -> conflict_with w c key = None.
Proof. intros Hk. unfold conflict_with. rewrite Hk. by case_bool_decide. Qed.

Lemma adopt_total w c key q n ldi rdi : table_ok w ->
  peersByIP (peers w) !! key = Some q -> heap w !! q = Some n ->
  (c <> [] -> is_Some (dnsByConfigured (peers w) !! c) /\ peersByConfigured (peers w) !! c = None) ->
  total (adopt_peer c key q) w (looked_up w c key ldi rdi).
Proof.
  intros Hw Hk Hq Hd. unfold adopt_peer, looked_up. rewrite (conflict_owned w c key q n Hk Hq).
  unfold known_peer. case_bool_decide as Hc; rewrite Hk.
  - apply total_ret; [done|]. split; [done|]. exists q. rewrite (insert_id _ _ _ Hk). split_and!; try done.
    by exists n.
  - destruct (Hd Hc) as (Ht & Hn). rewrite Hn. apply (total_deref _ n); [done|].
    assert (Hne : ConfiguredAddr n <> c).
    { intros He. assert (E : peersByConfigured (peers w) !! c = Some q) by (apply (ok_named w Hw); eauto).
      congruence. }
    rewrite (bool_decide_eq_false_2 _ Hne), (bool_decide_eq_true_2 (ConfiguredAddr n <> c)) by done.
    rewrite (bool_decide_eq_true_2 (None = None)) by done. rewrite !andb_true_r.
    case_bool_decide as He.
    + rewrite bool_decide_eq_false_2 by done. by apply total_ret.
    + rewrite bool_decide_eq_true_2 by (by destruct (ConfiguredAddr n); [|destruct He]).
      apply total_assoc. eapply total_bind.
      { apply (name_total w c q n); [done..|]. by destruct (ConfiguredAddr n); [|destruct He]. }
      intros w1 [] Hw1 Hg1 (Eh & Er & Ei & Ec). apply total_ret; [done|]. split; [done|].
      exists q. rewrite Ei, (insert_id _ _ _ Hk). split_and!; try done. by exists n.
Qed.

(** A name that has a peer: the address goes to that peer unless it is taken. *)
Lemma file_total w c key p ldi rdi : table_ok w -> zlen key = 4 -> c <> [] ->
  peersByConfigured (peers w) !! c = Some p ->
  total (match peersByIP (peers w) !! key with
         | Some other =>
             if bool_decide (other <> p) then
               n ← deref other; mret (inl (conflict c key (ConfiguredAddr n)))
             else _ ← link_ip key p; mret (inr p)
         | None => _ ← link_ip key p; mret (inr p)
         end) w (looked_up w c key ldi rdi).
Proof.
  intros Hw Hl Hc Hn. pose proof (ok_named w Hw c p) as [H _]. destruct (H Hn) as (_ & n & Hp & Hcn).
  assert (Hlink : peersByIP (peers w) !! key = None \/ peersByIP (peers w) !! key = Some p ->
    total (_ ← link_ip key p; mret (inr p)) w (looked_up w c key ldi rdi)).
  { intros Hf. eapply total_bind; [by apply link_total|].
    intros w1 [] Hw1 Hg1 (Eh & Er & Ei & Ec). apply total_ret; [done|]. split; [done|].
    assert (Hcf : conflict_with w c key = None).
    { destruct Hf as [Hf|Hf]; [by apply conflict_free|]. rewrite (conflict_owned w c key p n Hf Hp).
      rewrite (bool_decide_eq_true_2 (ConfiguredAddr n = c)) by done. by case_bool_decide. }
    rewrite Hcf. exists p. rewrite Ei, Ec, Eh. unfold known_peer.
    rewrite (bool_decide_eq_false_2 _ Hc), Hn.
    split; [done|]. split; [done|]. split; [symmetry; by apply insert_id|]. split; [done|]. exists n. split; [done|]. rewrite <- Hcn, rename_same. symmetry. by apply insert_id. }
  destruct (peersByIP (peers w) !! key) as [q|] eqn:Hk; [|by apply Hlink; left].
  case_bool_decide as Hq; [|apply Hlink; right; by destruct (decide (q = p)) as [->|]].
  destruct (ok_ip_eta w Hw key q Hk) as (m & Em). apply (total_deref _ m); [done|].
  apply total_ret; [done|]. split; [done|]. rewrite (conflict_owned w c key q m Hk Em).
  rewrite (bool_decide_eq_false_2 (c = [])) by done. rewrite Hn.
  rewrite (bool_decide_eq_false_2 (Some p = None)) by done. rewrite andb_false_r.
  rewrite bool_decide_eq_false_2; [done|]. intros Hm.
  assert (E : peersByConfigured (peers w) !! c = Some q) by (apply (ok_named w Hw); eauto). congruence.
Qed.

Lemma create_total w c key ldi rdi : table_ok w -> zlen key = 4 ->
  peersByIP (peers w) !! key = None ->
  (c <> [] -> is_Some (dnsByConfigured (peers w) !! c) /\ peersByConfigured (peers w) !! c = None) ->
  total (p ← create_peer c key ldi rdi; mret (inr p)) w (looked_up w c key ldi rdi).
Proof.
  intros Hw Hl Hk Hd.
  destruct (entered_ok w (new_peer (fresh (dom (heap w))) (peers w) c key ldi
              (default (IPDomainIdentifier key) rdi)) c key Hw Hl) as (Hok & Hg); [done..|].
  eexists _, _. split; [by rewrite (t_bind _ _ _ _ _ (create_run w c key ldi rdi))|].
  split; [exact Hok|]. split; [exact Hg|]. split; [done|]. rewrite conflict_free by done.
  eexists. split; [done|]. split; [done|]. split; [done|].
  assert (En : known_peer w c key = None).
  { unfold known_peer. case_bool_decide as Hc; [done|]. by rewrite (proj2 (Hd Hc)). }
  rewrite En. split; [apply not_elem_of_dom, is_fresh|done].
Qed.

Lemma looked_up_track w w1 c key ldi rdi w' r :
  heap w1 = heap w -> peersByIP (peers w1) = peersByIP (peers w) ->
  peersByConfigured (peers w1) = peersByConfigured (peers w) ->
  nextConnID (peers w1) = nextConnID (peers w) -> timing (peers w1) = timing (peers w) ->
  routing w1 = routing w ->
  looked_up w1 c key ldi rdi w' r -> looked_up w c key ldi rdi w' r.
Proof.
  intros E1 E2 E3 E4 E5 E6. unfold looked_up, conflict_with, known_peer, new_peer.
  by rewrite E1, E2, E3, E4, E5, E6.
Qed.

Lemma lookup_total w c raddr ldi rdi key : table_ok w -> To4 raddr = Some key ->
  total (LookupOrCreate c raddr ldi rdi) w (looked_up w c key ldi rdi).
Proof.
  intros Hw E4. pose proof (To4_length _ _ E4) as Hl. unfold LookupOrCreate. rewrite E4.
  eapply (total_bind _ _ _ (fun w1 _ =>
    (c <> [] -> is_Some (dnsByConfigured (peers w1) !! c)) /\
    forall w' r, looked_up w1 c key ldi rdi w' r -> looked_up w c key ldi rdi w' r)).
  { case_bool_decide; [by apply total_ret|]. eapply total_mono; [by apply track_total|].
    intros w1 [] _ _ (Hd & E1 & E2 & E3 & E5 & E6 & E7). split; [done|].
    intros w' r. by apply looked_up_track. }
  intros w1 [] Hw1 Hg1 (Hd & Hback). apply total_gett.
  eapply total_mono.
  { instantiate (1 := looked_up w1 c key ldi rdi). case_bool_decide as Hc.
    - destruct (peersByIP (peers w1) !! key) as [q|] eqn:Hk; [|by apply create_total].
      destruct (ok_ip_eta w1 Hw1 key q Hk) as (n & En). by apply (adopt_total w1 c key q n).
    - destruct (peersByConfigured (peers w1) !! c) as [p|] eqn:Hn; [by apply file_total|].
      destruct (peersByIP (peers w1) !! key) as [q|] eqn:Hk; [|apply create_total; auto].
      destruct (ok_ip_eta w1 Hw1 key q Hk) as (n & En). apply (adopt_total w1 c key q n); auto. }
  auto.
Qed.

(** ** Refreshing *)

Lemma normalize_spec seen addrs :
  NoDup (normalize_loop seen addrs) /\
  forall k, k ∈ normalize_loop seen addrs <-> (k ∉ seen) /\ exists a, a ∈ addrs /\ To4 a = Some k.
Proof.
  revert seen. induction addrs as [|a addrs IH]; intros seen; cbn [normalize_loop].
  { split; [constructor|]. intros k. rewrite elem_of_nil. set_solver. }
  destruct (To4 a) as [v|] eqn:E.
  - case_bool_decide as Hv.
    + destruct (IH seen) as (Hn & Hk). split; [done|]. intros k. rewrite Hk.
      setoid_rewrite elem_of_cons. naive_solver.
    + destruct (IH ({[v]} ∪ seen)) as (Hn & Hk). split.
      * constructor; [|done]. rewrite Hk. set_solver.
      * intros k. rewrite elem_of_cons, Hk. setoid_rewrite elem_of_cons.
        destruct (decide (k = v)) as [->|]; [|set_solver]. split; [|by left]. intros _.
        split; [done|]. exists a. auto.
  - destruct (IH seen) as (Hn & Hk). split; [done|]. intros k. rewrite Hk.
    setoid_rewrite elem_of_cons. naive_solver.
Qed.

Lemma candidates_length addrs k : k ∈ normalizeIPv4Candidates addrs -> zlen k = 4.
Proof. intros Hk. apply normalize_spec in Hk as (_ & a & _ & E). by eapply To4_length. Qed.

Lemma elem_of_set_range (s : gset (list Z)) k : k ∈ set_range s <-> k ∈ s.
Proof. rewrite (set_range_perm s). apply elem_of_elements. Qed.

Lemma elem_of_ip_range t key p : (key, p) ∈ ip_range t <-> peersByIP t !! key = Some p.
Proof.
  unfold ip_range. rewrite list_elem_of_omap. split.
  - intros (k & _ & E). destruct (peersByIP t !! k) as [q|] eqn:Ek; [|done]. by injection E as <- <-.
  - intros E. exists key. rewrite E. split; [|done]. apply elem_of_set_range. by apply elem_of_dom_2 in E.
Qed.

Lemma prune_lookup ptr desired entries m k :
  prune ptr desired entries m !! k =
    if decide ((k, ptr) ∈ entries /\ k ∉ desired) then None else m !! k.
Proof.
  revert m. induction entries as [|[key q] entries IH]; intros m; cbn [prune].
  { rewrite decide_False; [done|]. rewrite elem_of_nil. tauto. }
  destruct (bool_decide (q <> ptr) || bool_decide (key ∈ desired)) eqn:E; rewrite IH; clear IH.
  - apply orb_true_iff in E. rewrite !bool_decide_eq_true in E.
    destruct (decide ((k, ptr) ∈ entries /\ k ∉ desired)) as [H|H].
    + rewrite decide_True; [done|]. rewrite elem_of_cons. tauto.
    + rewrite decide_False; [done|]. rewrite elem_of_cons. intros [[[= <- <-]|] ?]; tauto.
  - apply orb_false_iff in E. rewrite !bool_decide_eq_false in E. destruct E as [Hq Hd].
    destruct (decide (q = ptr)) as [->|]; [clear Hq|tauto].
    destruct (decide (k = key)) as [->|Hk].
    + rewrite lookup_delete_eq. rewrite (decide_True (P := (key, ptr) ∈ (key, ptr) :: entries /\ _)).
      * by case_decide.
      * rewrite elem_of_cons. auto.
    + rewrite lookup_delete_ne by done. apply decide_ext. rewrite elem_of_cons.
      split; [tauto|]. intros [[Heq|] ?]; [by injection Heq|tauto].
Qed.

Lemma enter_lookup ptr keys m k :
  enter ptr keys m !! k = if decide (k ∈ keys) then Some ptr else m !! k.
Proof.
  revert m. induction keys as [|key keys IH]; intros m; cbn [enter].
  { rewrite decide_False; [done|]. apply not_elem_of_nil. }
  rewrite IH. destruct (decide (k ∈ keys)) as [H|H].
  - rewrite decide_True; [done|]. rewrite elem_of_cons. auto.
  - destruct (decide (k = key)) as [->|Hk].
    + rewrite lookup_insert_eq, decide_True; [done|]. rewrite elem_of_cons. auto.
    + rewrite lookup_insert_ne by done. rewrite decide_False; [done|]. rewrite elem_of_cons. tauto.
Qed.

Lemma foreign_candidate_spec t ptr keys :
  match foreign_candidate t ptr keys with
  | Some (key, other) => key ∈ keys /\ peersByIP t !! key = Some other /\ other <> ptr
  | None => forall key other, key ∈ keys -> peersByIP t !! key = Some other -> other = ptr
  end.
Proof.
  induction keys as [|key keys IH]; cbn [foreign_candidate].
  { intros key other H. by apply not_elem_of_nil in H. }
  assert (Hskip : (forall other, peersByIP t !! key = Some other -> other = ptr) ->
    match foreign_candidate t ptr keys with
    | Some (k, other) => k ∈ key :: keys /\ peersByIP t !! k = Some other /\ other <> ptr
    | None => forall k other, k ∈ key :: keys -> peersByIP t !! k = Some other -> other = ptr
    end).
  { intros Hkey. destruct (foreign_candidate t ptr keys) as [[k other]|].
    - rewrite elem_of_cons. naive_solver.
    - intros k other [->|Hk]%elem_of_cons; eauto. }
  destruct (peersByIP t !! key) as [other|] eqn:E; [|by apply Hskip].
  case_bool_decide as Hne.
  - rewrite elem_of_cons. auto.
  - apply Hskip. intros o [= <-]. by destruct (decide (other = ptr)).
Qed.

(** The addresses of a refreshed table. *)
Lemma refreshed_ip t ptr desired k :
  (forall key other, key ∈ desired -> peersByIP t !! key = Some other -> other = ptr) ->
  enter ptr (set_range desired) (prune ptr desired (ip_range t) (peersByIP t)) !! k =
    if decide (k ∈ desired) then Some ptr
    else if decide (peersByIP t !! k = Some ptr) then None else peersByIP t !! k.
Proof.
  intros Hd. rewrite enter_lookup, prune_lookup.
  destruct (decide (k ∈ desired)) as [H|H].
  - rewrite decide_True; [done|]. by apply elem_of_set_range.
  - rewrite decide_False by (by rewrite elem_of_set_range).
    apply decide_ext. rewrite elem_of_ip_range. tauto.
Qed.

Lemma delete_target_run n r : reachable (table r) ->
  exists r', delete_target n r = Some (r', tt) /\ reachable (table r') /\
    (forall route, stored (table r') route <->
       stored (table r) route /\ TargetKey (rkey route) <> RouteTargetKey (AURPPeer (TunnelID n))).
Proof.
  intros Hr. destruct (DeleteTarget_spec (table r) (reachable_inv _ Hr) (clock r) (PS.self (peer n)))
    as (rt' & notes & E & _).
  pose proof (DeleteTarget_stored (table r) (reachable_inv _ Hr) rt' _ _ notes E) as Hst.
  eexists. split.
  - unfold delete_target. rewrite (r_bind (getw clock) _ r r (clock r)) by done.
    unfold on_table. by rewrite E.
  - split; [|exact Hst]. eapply rtc_r; [exact Hr|]. by eapply step_delete_target.
Qed.

Lemma active_four w p n : table_ok w -> heap w !! p = Some n -> To4 (remoteAddr n) = Some (remoteAddr n).
Proof. intros Hw E. by eapply To4_idem, (ok_ip w Hw), (ok_active w Hw). Qed.

(** The state a refresh leaves: the addresses [cs] lead to [ptr], whose struct
    is [n'], and none else does. *)
Definition with_candidates (w : TW) (ptr : positive) (n' : Node) (m : gmap (list Z) positive) (r : RW) : TW :=
  with_routing r (with_heap (<[ptr := n']> (heap w)) (with_peers (with_peersByIP m (peers w)) w)).

Lemma candidates_ok w ptr n n' (cs : list (list Z)) m r :
  table_ok w -> heap w !! ptr = Some n ->
  PS.pid (peer n') = PS.pid (peer n) -> PS.ident (peer n') = PS.ident (peer n) ->
  (forall key, key ∈ cs -> zlen key = 4) ->
  (forall key other, key ∈ cs -> peersByIP (peers w) !! key = Some other -> other = ptr) ->
  (forall key, m !! key = if decide (key ∈ cs) then Some ptr
      else if decide (peersByIP (peers w) !! key = Some ptr) then None
      else peersByIP (peers w) !! key) ->
  remoteAddr n' ∈ cs -> reachable (table r) ->
  table_ok (with_candidates w ptr n' m r) /\ grows w (with_candidates w ptr n' m r).
Proof.
  intros Hw E Hp Hi Hl Hf Hm Ha Hr. unfold with_candidates. split; [|split; cbn; [|done]].
  - destruct Hw as [H1 H2 H3 H4 H5 H6 H7 H8]. split; cbn; try done.
    + intros key q. rewrite Hm. destruct (decide (key ∈ cs)) as [Hk|Hk].
      * intros [= <-]. rewrite lookup_insert_eq. eauto.
      * case_decide; [done|]. intros Hq. destruct (H1 key q Hq) as (Hl' & Hs). split; [done|].
        apply lookup_insert_is_Some'. by right.
    + intros c q. rewrite (H2 c q). destruct (decide (ptr = q)) as [<-|]; [|by rewrite lookup_insert_ne].
      rewrite lookup_insert_eq. apply and_iff_compat_l. unfold ConfiguredAddr. split.
      * intros (x & Ex & Hx). exists n'. split; [done|]. rewrite Hi. congruence.
      * intros (x & [= <-] & Hx). exists n. split; [done|]. by rewrite <- Hi.
    + intros q x. destruct (decide (ptr = q)) as [<-|Hne].
      * rewrite lookup_insert_eq. intros [= <-]. by rewrite Hm, decide_True.
      * rewrite lookup_insert_ne by done. intros Ex. pose proof (H4 q x Ex) as Hq. rewrite Hm.
        rewrite decide_False by (intros Hin; by destruct Hne; rewrite (Hf _ _ Hin Hq)).
        rewrite decide_False by (rewrite Hq; congruence). done.
    + intros q x. destruct (decide (ptr = q)) as [<-|]; [|rewrite lookup_insert_ne by done; apply H5].
      rewrite lookup_insert_eq. intros [= <-]. rewrite Hp. by apply H5.
  - intros q x Ex. unfold TunnelID, ConfiguredAddr.
    destruct (decide (ptr = q)) as [<-|]; [|rewrite lookup_insert_ne by done; by exists x].
    rewrite lookup_insert_eq. eexists. split; [done|]. rewrite Hi. rewrite E in Ex. by injection Ex as ->.
Qed.

(** What a refresh with the candidates [cs] does to the peer [n] at [ptr]. *)
Definition refreshed (w : TW) (ptr : positive) (n : Node) (cs : list (list Z)) (w' : TW)
    (r : Error + bool) : Prop :=
  dnsByConfigured (peers w') = dnsByConfigured (peers w) /\
  peersByConfigured (peers w') = peersByConfigured (peers w) /\
  ((exists key other o, key ∈ cs /\ peersByIP (peers w) !! key = Some other /\ other <> ptr /\
      heap w !! other = Some o /\
      r = inl (conflict (ConfiguredAddr n) key (ConfiguredAddr o)) /\ w' = w) \/
   (forall key other, key ∈ cs -> peersByIP (peers w) !! key = Some other -> other = ptr) /\
   (forall key, peersByIP (peers w') !! key =
      if decide (key ∈ cs) then Some ptr
      else if decide (peersByIP (peers w) !! key = Some ptr) then None
      else peersByIP (peers w) !! key) /\
   if decide (remoteAddr n ∈ cs) then r = inr false /\ heap w' = heap w /\ routing w' = routing w
   else exists first, head cs = Some first /\ r = inr true /\
     heap w' = <[ptr := store_nextReconnect None (with_remoteAddr first n)]> (heap w) /\
     forall route, stored (table (routing w')) route <->
       stored (table (routing w)) route /\
       TargetKey (rkey route) <> RouteTargetKey (AURPPeer (TunnelID n))).

Lemma active_listed_spec w ptr n (cs : list (list Z)) : table_ok w -> heap w !! ptr = Some n ->
  active_listed n (list_to_set cs) = bool_decide (remoteAddr n ∈ cs).
Proof.
  intros Hw E. unfold active_listed. rewrite (active_four w ptr n Hw E).
  apply bool_decide_ext. apply elem_of_list_to_set.
Qed.

Lemma switch_run w ptr n c cs : reachable (table (routing w)) -> heap w !! ptr = Some n ->
  exists r, switch_endpoint ptr n (c :: cs) w =
    Some (with_routing r (with_heap (<[ptr := store_nextReconnect None (with_remoteAddr c n)]> (heap w)) w),
          inr true) /\ reachable (table r) /\
    (forall route, stored (table r) route <->
       stored (table (routing w)) route /\ TargetKey (rkey route) <> RouteTargetKey (AURPPeer (TunnelID n))).
Proof.
  intros Hw E. destruct (delete_target_run n (routing w) Hw) as (r & Ed & Hr & Hst).
  exists r. split; [|by split]. unfold switch_endpoint.
  rewrite (t_bind _ _ w (with_routing r w) tt) by (unfold inR; by rewrite Ed).
  rewrite (t_bind _ _ _ (with_routing r (with_heap (<[ptr := with_remoteAddr c n]> (heap w)) w)) tt)
    by (unfold store; cbn; by rewrite E).
  erewrite t_bind by (unfold store; cbn; by rewrite lookup_insert_eq).
  cbn. by rewrite insert_insert_eq.
Qed.

Lemma refresh_total w ptr n cs : table_ok w -> heap w !! ptr = Some n -> ConfiguredAddr n <> [] ->
  cs <> [] -> (forall key, key ∈ cs -> zlen key = 4) ->
  total (refresh ptr cs) w (refreshed w ptr n cs).
Proof.
  intros Hw E Hc Hne Hl. unfold refresh. apply (total_deref _ n); [done|]. apply total_gett.
  rewrite bool_decide_eq_false_2.
  2:{ intros H. apply H. apply (ok_named w Hw). eauto. }
  pose proof (foreign_candidate_spec (peers w) ptr (set_range (list_to_set cs))) as Hf.
  destruct (foreign_candidate _ _ _) as [[key other]|].
  - destruct Hf as (Hk & Ek & Ho). apply elem_of_set_range, elem_of_list_to_set in Hk.
    destruct (ok_ip_eta w Hw key other Ek) as (o & Eo). apply (total_deref _ o); [done|].
    apply total_ret; [done|]. split; [done|]. split; [done|]. left. exists key, other, o. by split_and!.
  - assert (Hf' : forall key other, key ∈ cs -> peersByIP (peers w) !! key = Some other -> other = ptr).
    { intros key other Hk. apply Hf. by apply elem_of_set_range, elem_of_list_to_set. }
    set (m := enter ptr (set_range (list_to_set cs)) (prune ptr (list_to_set cs) (ip_range (peers w)) (peersByIP (peers w)))).
    assert (Hm : forall key, m !! key = if decide (key ∈ cs) then Some ptr
      else if decide (peersByIP (peers w) !! key = Some ptr) then None else peersByIP (peers w) !! key).
    { intros key. unfold m. rewrite refreshed_ip.
      - apply decide_ext. apply elem_of_list_to_set.
      - intros k o Hk. apply Hf'. by apply elem_of_list_to_set in Hk. }
    set (w1 := with_peers (with_peersByIP m (peers w)) w).
    enough (Hgo : exists w' a, (if active_listed n (list_to_set cs) then mret (inr false)
                         else switch_endpoint ptr n cs) w1 = Some (w', a) /\
                       table_ok w' /\ grows w w' /\ refreshed w ptr n cs w' a).
    { destruct Hgo as (w' & a & Ew & H). exists w', a. split; [|done]. by rewrite <- Ew. }
    rewrite (active_listed_spec w ptr n cs Hw E). unfold refreshed. case_bool_decide as Ha.
    + destruct (candidates_ok w ptr n n cs m (routing w)) as (Hok & Hg); try done; [by destruct Hw|].
      assert (Ew : with_candidates w ptr n m (routing w) = w1).
      { unfold with_candidates. rewrite (insert_id _ _ _ E). by destruct w. }
      rewrite Ew in Hok, Hg. exists w1, (inr false). split_and!; [done..|]. right.
      split; [done|]. split; [exact Hm|]. by rewrite decide_True.
    + destruct cs as [|c cs]; [done|].
      destruct (switch_run w1 ptr n c cs (ok_routes w Hw) E) as (r & Es & Hr & Hst).
      eexists _, _. split; [exact Es|].
      destruct (candidates_ok w ptr n (store_nextReconnect None (with_remoteAddr c n)) (c :: cs) m r)
        as (Hok & Hg); try done; [by left|].
      split_and!; [done..|]. right. split; [done|]. split; [exact Hm|]. rewrite decide_False by done.
      exists c. by split_and!.
Qed.

Lemma candidates_total w ptr n addrs : table_ok w -> heap w !! ptr = Some n ->
  ConfiguredAddr n <> [] -> normalizeIPv4Candidates addrs <> [] ->
  total (setConfiguredCandidates ptr addrs) w (refreshed w ptr n (normalizeIPv4Candidates addrs)).
Proof.
  intros Hw E Hc Hne. unfold setConfiguredCandidates. apply (total_deref _ n); [done|].
  rewrite bool_decide_eq_false_2 by done.
  replace (zlen (normalizeIPv4Candidates addrs) =? 0) with false.
  - apply refresh_total; try done. intros key. apply candidates_length.
  - symmetry. apply Z.eqb_neq. unfold zlen. destruct (normalizeIPv4Candidates addrs); [done|]. cbn. lia.
Qed.

(** Without candidates or a name nothing happens. *)
Lemma candidates_refused w ptr n addrs : heap w !! ptr = Some n ->
  ConfiguredAddr n = [] \/ normalizeIPv4Candidates addrs = [] ->
  exists e, setConfiguredCandidates ptr addrs w = Some (w, inl e).
Proof.
  intros E H. unfold setConfiguredCandidates.
  rewrite (t_bind _ _ w w n) by (unfold deref; by rewrite E).
  case_bool_decide as Hc; [by eexists|]. destruct H as [H|H]; [done|]. rewrite H. by eexists.
Qed.

(** ** Resolving: the loops return and are sequences of steps *)

(** [m] returns from [w], by steps. *)
Definition steps {A} (m : T A) (w : TW) (Q : TW -> A -> Prop) : Prop :=
  total m w (fun w' a => rtc table_step w w' /\ Q w' a).

Lemma steps_bind {A B} (m : T A) (f : A -> T B) w Q Q' :
  steps m w Q ->
  (forall w1 a, table_ok w1 -> grows w w1 -> Q w1 a -> steps (f a) w1 Q') ->
  steps (m ≫= f) w Q'.
Proof.
  intros Hm Hf. eapply total_bind; [exact Hm|]. intros w1 a Hok Hg (Hs & Hq).
  eapply total_mono; [by apply Hf|]. intros w2 b _ _ (Hs2 & Hq2). split; [by etrans|done].
Qed.
Lemma steps_ret {A} (a : A) w (Q : TW -> A -> Prop) : table_ok w -> Q w a -> steps (mret a) w Q.
Proof. intros Hw Hq. by apply total_ret. Qed.
Lemma steps_one {A} (m : T A) w (Q : TW -> A -> Prop) :
  total m w Q -> (forall w' a, m w = Some (w', a) -> table_step w w') -> steps m w Q.
Proof.
  intros (w' & a & E & Hok & Hg & Hq) Hs. exists w', a. split_and!; try done.
  by apply rtc_once, (Hs w' a).
Qed.
Lemma steps_mono {A} (m : T A) w (Q Q' : TW -> A -> Prop) :
  steps m w Q -> (forall w' a, table_ok w' -> grows w w' -> Q w' a -> Q' w' a) -> steps m w Q'.
Proof. intros Hm H. eapply total_mono; [exact Hm|]. intros w' a Hw Hg (Hs & Hq). auto. Qed.

Lemma elsewhere_steps {A} (m : T A) w w' a (Q : TW -> A -> Prop) :
  table_ok w -> m w = Some (w', a) -> elsewhere w w' -> Q w' a -> steps m w Q.
Proof.
  intros Hw E He Hq. destruct (elsewhere_ok w w' He Hw) as (Hok & Hg).
  exists w', a. split_and!; try done. by apply rtc_once, st_elsewhere.
Qed.
Lemma elsewhere_same w w' : peers w' = peers w -> heap w' = heap w -> routing w' = routing w -> elsewhere w w'.
Proof.
  intros E1 E2 E3. unfold elsewhere. rewrite E1, E2, E3. split_and!; [done| |done].
  intros p. by destruct (heap w !! p).
Qed.

Lemma note_steps addr now e w : table_ok w -> steps (noteDNSFailure addr now e) w (fun _ _ => True).
Proof.
  intros Hw. apply steps_one; [by eapply total_mono; [by apply note_total|]|].
  intros w' [] E. by eapply st_failure.
Qed.
Lemma reset_steps addr w : table_ok w -> steps (resetDNSBackoff addr) w (fun w' _ => heap w' = heap w).
Proof.
  intros Hw. apply steps_one; [eapply total_mono; [by apply reset_total|]|].
  - by intros w' [] _ _ (E & _).
  - intros w' [] E. by eapply st_reset.
Qed.
Lemma answer_steps w : table_ok w -> steps LookupIP w (fun _ _ => True).
Proof. intros Hw. by eapply elsewhere_steps; [| |apply elsewhere_same|]. Qed.
Lemma go_steps p w : table_ok w -> steps (go_Handle p) w (fun _ _ => True).
Proof. intros Hw. by eapply elsewhere_steps; [| |apply elsewhere_same|]. Qed.
Lemma fail_steps {A} c e w (Q : TW -> Error + A -> Prop) :
  table_ok w -> (forall w', table_ok w' -> Q w' (inl e)) -> steps (fail_dns c e) w Q.
Proof.
  intros Hw Hq. unfold fail_dns. apply (steps_bind _ _ w (fun w' a => w' = w)); [by apply steps_ret|].
  intros w1 now Hw1 _ _. eapply steps_bind; [by apply note_steps|].
  intros w2 [] Hw2 _ _. apply steps_ret; auto.
Qed.

Lemma signal_steps p w : table_ok w -> is_Some (heap w !! p) -> steps (signalReconnect p) w (fun _ _ => True).
Proof.
  intros Hw [n E]. unfold signalReconnect. eapply elsewhere_steps; [done|unfold store; by rewrite E| |done].
  write_elsewhere E.
Qed.

(** A returned peer is in the store. *)
Definition has_peer (w : TW) (r : Error + positive) : Prop :=
  match r with inr p => is_Some (heap w !! p) | inl _ => True end.

Lemma grows_is_Some w w' p : grows w w' -> is_Some (heap w !! p) -> is_Some (heap w' !! p).
Proof. intros [H _] [n E]. destruct (H p n E) as (n' & E' & _). by exists n'. Qed.

Lemma lookup_steps c raddr ldi rdi w : table_ok w ->
  steps (LookupOrCreate c raddr ldi rdi) w has_peer.
Proof.
  intros Hw. destruct (To4 raddr) as [key|] eqn:E4.
  2:{ unfold LookupOrCreate. rewrite E4. by apply steps_ret. }
  apply steps_one; [|intros w' a Ew; by eapply st_lookup].
  eapply total_mono; [by apply lookup_total|]. intros w' r Hw' Hg (_ & H).
  destruct (conflict_with w c key); [by destruct H as (-> & _)|].
  destruct H as (p & -> & Ei & _). apply (ok_ip w' Hw' key). rewrite Ei. apply lookup_insert_eq.
Qed.

Lemma create_candidates_steps c ldi cs found w : table_ok w ->
  (forall p, found = Some p -> is_Some (heap w !! p)) ->
  steps (create_candidates c ldi cs found) w (fun w' r =>
    forall p, r = inr (Some p) -> is_Some (heap w' !! p)).
Proof.
  revert found w. induction cs as [|a cs IH]; intros found w Hw Hf; cbn [create_candidates].
  { apply steps_ret; [done|]. intros p [= ->]. by apply Hf. }
  destruct (is_local ldi a); [by apply IH|].
  eapply steps_bind; [by apply lookup_steps|]. intros w1 [e|p] Hw1 Hg Hp.
  - by apply fail_steps.
  - apply IH; [done|]. intros q. destruct found as [f|]; intros [= <-]; [|done].
    apply (grows_is_Some w); auto.
Qed.

Lemma resolve_steps c ldi w : table_ok w -> steps (ResolveConfiguredPeer c ldi) w has_peer.
Proof.
  intros Hw. unfold ResolveConfiguredPeer.
  apply (steps_bind _ _ w (fun w' a => w' = w)); [by apply steps_ret|]. intros ? t _ _ ->.
  apply (steps_bind _ _ w (fun w' a => w' = w)); [by apply steps_ret|]. intros ? now _ _ ->.
  destruct (negb _); [by apply steps_ret|].
  eapply steps_bind; [by apply answer_steps|]. intros w1 [e|resolved] Hw1 _ _; [by apply fail_steps|].
  cbv zeta. case_if; [by apply fail_steps|].
  eapply steps_bind; [by apply create_candidates_steps|].
  intros w2 [e|[p|]] Hw2 _ Hp; [by apply steps_ret| |by apply fail_steps].
  eapply steps_bind; [by apply reset_steps|]. intros w3 [] Hw3 _ Eh. apply steps_ret; [done|].
  cbn. rewrite Eh. by apply Hp.
Qed.

Lemma candidates_steps ptr addrs w n : table_ok w -> heap w !! ptr = Some n ->
  steps (setConfiguredCandidates ptr addrs) w (fun _ _ => True).
Proof.
  intros Hw E. apply steps_one; [|intros w' a Ew; by eapply st_refresh].
  destruct (decide (ConfiguredAddr n = [] \/ normalizeIPv4Candidates addrs = [])) as [H|H].
  - destruct (candidates_refused w ptr n addrs E H) as (e & Ee). by exists w, (inl e).
  - eapply total_mono; [apply candidates_total; [done..| |]; tauto|done].
Qed.

Lemma reconnect_steps ptr w : table_ok w -> is_Some (heap w !! ptr) ->
  steps (reconnectPeer ptr) w (fun _ _ => True).
Proof.
  intros Hw [n E]. unfold reconnectPeer. apply (total_deref _ n); [done|].
  case_bool_decide; [by apply steps_ret|].
  apply (steps_bind _ _ w (fun w' a => w' = w)); [by apply steps_ret|]. intros ? t _ _ ->.
  apply (steps_bind _ _ w (fun w' a => w' = w)); [by apply steps_ret|]. intros ? now _ _ ->.
  destruct (negb _); [by apply steps_ret|].
  eapply steps_bind; [by apply answer_steps|]. intros w1 [e|resolved] Hw1 Hg1 _; [by apply note_steps|].
  cbv zeta. case_if; [by apply note_steps|].
  destruct (grows_is_Some w w1 ptr Hg1) as [n1 E1]; [by exists n|].
  eapply steps_bind; [by eapply candidates_steps|]. intros w2 [e|b] Hw2 Hg2 _; [by apply note_steps|].
  eapply steps_bind; [by apply reset_steps|]. intros w3 [] Hw3 Hg3 _.
  destruct (grows_is_Some w2 w3 ptr Hg3) as [n3 E3]; [apply (grows_is_Some w1); [done|by exists n1]|].
  apply (total_deref _ n3); [done|]. case_match; [apply signal_steps|by apply go_steps]; [done|by exists n3].
Qed.

Lemma attempt_steps ldi c w : table_ok w -> steps (attempt_connection ldi c) w (fun _ _ => True).
Proof.
  intros Hw. unfold attempt_connection.
  apply (steps_bind _ _ w (fun w' a => w' = w /\ a = peers w)); [by apply steps_ret|].
  intros ? t _ _ (-> & ->). unfold configuredPeer.
  destruct (peersByConfigured (peers w) !! c) as [p|] eqn:Ec.
  - destruct (proj1 (ok_named w Hw c p) Ec) as (_ & n & E & _).
    apply (total_deref _ n); [done|]. case_bool_decide; [|by apply steps_ret].
    apply reconnect_steps; [done|by exists n].
  - apply (steps_bind _ _ w (fun w' a => w' = w)); [by apply steps_ret|]. intros ? now _ _ ->.
    destruct (negb _); [by apply steps_ret|].
    eapply steps_bind; [by apply resolve_steps|]. intros w1 [e|p] Hw1 _ Hp; [by apply steps_ret|].
    destruct Hp as [n E]. apply (total_deref _ n); [done|]. case_match; [by apply steps_ret|by apply go_steps].
Qed.

Lemma scan_steps ldi w : table_ok w -> steps (PeriodicallyAttemptConnections ldi) w (fun _ _ => True).
Proof.
  intros Hw. unfold PeriodicallyAttemptConnections.
  apply (steps_bind _ _ w (fun w' a => w' = w)); [by apply steps_ret|]. intros ? t _ _ ->.
  generalize (configuredAddresses t). intros names. revert w Hw.
  induction names as [|c names IH]; intros w Hw; cbn [attempt_all]; [by apply steps_ret|].
  eapply steps_bind; [by apply attempt_steps|]. intros w1 [] Hw1 _ _. by apply IH.
Qed.

(** ** Every step keeps the invariant *)

Lemma total_result {A} (m : T A) w Q w' a :
  total m w Q -> m w = Some (w', a) -> table_ok w' /\ grows w w' /\ Q w' a.
Proof. intros (w1 & b & E & H) E'. rewrite E in E'. injection E' as -> ->. exact H. Qed.

Lemma step_ok w w' : table_ok w -> table_step w w' -> table_ok w' /\ grows w w'.
Proof.
  intros Hw [addr w1 E|addr now e w1 E|addr w1 E|addr raddr ldi rdi w1 r E|ptr addrs w1 r E|w1 He].
  - unfold TrackConfiguredAddress in E. case_bool_decide; [by injection E as <-|].
    by destruct (total_result _ _ _ _ _ (track_total w addr Hw) E) as (Hok & Hg & _).
  - by destruct (total_result _ _ _ _ _ (note_total w addr now e Hw) E) as (Hok & Hg & _).
  - by destruct (total_result _ _ _ _ _ (reset_total w addr Hw) E) as (Hok & Hg & _).
  - by destruct (total_result _ _ _ _ _ (lookup_steps addr raddr ldi rdi w Hw) E) as (Hok & Hg & _).
  - destruct (heap w !! ptr) as [n|] eqn:En.
    + by destruct (total_result _ _ _ _ _ (candidates_steps ptr addrs w n Hw En) E) as (Hok & Hg & _).
    + unfold setConfiguredCandidates in E. cbv zeta in E. unfold mbind, T_bind, deref in E.
      by rewrite En in E.
  - by apply elsewhere_ok.
Qed.

Lemma rtc_step_ok w w' : table_ok w -> rtc table_step w w' -> table_ok w' /\ grows w w'.
Proof.
  intros Hw Hs. induction Hs as [w|w w1 w2 H _ IH]; [done|].
  destruct (step_ok _ _ Hw H) as (Hok & Hg). destruct (IH Hok) as (Hok2 & Hg2).
  split; [done|]. by etrans.
Qed.
End Spec.
