(* ===== verification/PeerTableSpec.v ===== *)
(** * The table of AURP peers: properties of module Peers *)
From S2P Require Import Prelude Wtacc AurpHeaders AurpTuples AurpZoneInfo AurpPacket.
From S2P Require Import AurpTransport PeerPolicy GoSort RouteTable RouteTableInv RouteTableOps.
From S2P Require Import RouteTableSpec RouteExport PeerState.
From S2P Require Import AtalkNbp Atalk DdpPolicy Seed LoopProbe Router RouterSpec PeerTable PeerTableInv.
Import RT Policy Router Peers.

Section Spec.
Context {GStr : GoStrings} {GS : GoSort} {MO : MapOrder} {GN : GoNet}.

(** ** Consistency *)

Lemma first_conn_id_range rs id : first_conn_id rs = Some id -> 1 <= id <= 65535.
Proof.
  induction rs as [|r rs IH]; cbn [first_conn_id]; [done|]. destruct (r mod 0x10000 =? 0) eqn:E; [done|].
  intros [= <-]. zbool. pose proof (Z.mod_pos_bound r 0x10000 ltac:(lia)). lia.
Qed.

Lemma new_table_ok w cfg rs :
  NewAURPPeerTable cfg rs = Some (peers w) -> heap w = ∅ -> reachable (table (routing w)) -> table_ok w.
Proof.
  unfold NewAURPPeerTable. destruct (first_conn_id rs) as [id|] eqn:E; [|done]. cbn. intros [= Ep] Eh Hr.
  split; rewrite <- ?Ep; cbn; rewrite ?Eh; try done.
  - intros c p. rewrite lookup_empty. split; [done|]. intros (_ & n & En & _). by rewrite lookup_empty in En.
  - intros c [p Hp]. by rewrite lookup_empty in Hp.
  - by eapply first_conn_id_range.
Qed.

Lemma unique_spec seen entries :
  NoDup (unique seen entries) /\
  forall p, p ∈ unique seen entries <-> (p ∉ seen) /\ exists k, (k, p) ∈ entries.
Proof.
  revert seen. induction entries as [|[k q] entries IH]; intros seen; cbn [unique].
  { split; [constructor|]. intros p. split; [by intros ?%not_elem_of_nil|].
    intros (_ & k & H). by apply not_elem_of_nil in H. }
  assert (Hcons : forall p, (exists k', (k', p) ∈ (k, q) :: entries) <-> p = q \/ exists k', (k', p) ∈ entries).
  { intros p. setoid_rewrite elem_of_cons. split.
    - intros (k' & [H|H]); [left; by injection H|eauto].
    - intros [->|(k' & H)]; eauto. }
  case_bool_decide as Hq.
  - destruct (IH seen) as (Hn & Hp). split; [done|]. intros p. rewrite Hp, Hcons.
    split; [tauto|]. intros (? & [->|]); tauto.
  - destruct (IH (q :: seen)) as (Hn & Hp). split.
    + constructor; [|done]. rewrite Hp, elem_of_cons. tauto.
    + intros p. rewrite elem_of_cons, Hp, Hcons, elem_of_cons.
      destruct (decide (p = q)) as [->|]; tauto.
Qed.

Lemma unique_peers w : table_ok w ->
  NoDup (uniquePeersLocked (peers w)) /\
  forall p, p ∈ uniquePeersLocked (peers w) <-> is_Some (heap w !! p).
Proof.
  intros Hw. destruct (unique_spec [] (ip_range (peers w))) as (Hn & Hp). split; [exact Hn|].
  intros p. unfold uniquePeersLocked. rewrite Hp. split.
  - intros (_ & k & Hk). apply elem_of_ip_range in Hk. by apply (ok_ip w Hw) in Hk as (_ & ?).
  - intros [n E]. split; [apply not_elem_of_nil|]. exists (remoteAddr n). apply elem_of_ip_range.
    by apply (ok_active w Hw).
Qed.

(** The nodes in the order the table lists the peers. *)
Lemma listed_nodes w : table_ok w -> exists ns,
  Forall2 (fun p n => heap w !! p = Some n) (uniquePeersLocked (peers w)) ns /\ ns ≡ₚ (map_to_list (heap w)).*2.
Proof.
  intros Hw. destruct (unique_peers w Hw) as [Hnd Hin]. set (ps := uniquePeersLocked (peers w)) in *.
  assert (Hns : exists ns, Forall2 (fun p n => heap w !! p = Some n) ps ns).
  { assert (Ha : Forall (fun p => is_Some (heap w !! p)) ps) by (apply Forall_forall; intros p; apply Hin).
    clear -Ha. induction Ha as [|p ps [n E] _ [ns IH]]; [by exists []|]. exists (n :: ns). by constructor. }
  destruct Hns as [ns Hns]. exists ns. split; [done|].
  assert (Hlen : length ps = length ns) by (by eapply Forall2_length).
  assert (Hz : zip ps ns ≡ₚ map_to_list (heap w)).
  { apply NoDup_Permutation; [|apply NoDup_map_to_list|].
    - apply (NoDup_fmap_1 fst). rewrite fst_zip by lia. exact Hnd.
    - intros [p n]. rewrite elem_of_map_to_list. split.
      + intros (i & Hi)%list_elem_of_lookup. apply lookup_zip_with_Some in Hi as (p' & n' & [= -> ->] & H1 & H2).
        by eapply (Forall2_lookup_lr _ _ _ i p' n' Hns).
      + intros E. assert (Hp : p ∈ ps) by (apply Hin; by exists n). apply list_elem_of_lookup in Hp as [i Hi].
        destruct (Forall2_lookup_l _ _ _ i p Hns Hi) as (n' & Hi' & E'). rewrite E in E'. injection E' as <-.
        apply list_elem_of_lookup. exists i. apply lookup_zip_with_Some. by exists p, n. }
  rewrite <- Hz, snd_zip by lia. done.
Qed.

(** C17: whatever operations run on the table, in whatever order: addresses lead
    to peers, a configured name has at most one peer and a peer at most one
    name, every peer is found under its active endpoint, the connection ID for
    the next peer is in range, and the list of peers has each of them once; and
    peers, their tunnel IDs and the names they were given stay. *)
Theorem peer_table_consistent (w0 w w' : TW) (cfg : AURPConfig) (rs : list Z) :
  NewAURPPeerTable cfg rs = Some (peers w0) -> heap w0 = ∅ -> reachable (table (routing w0)) ->
  rtc table_step w0 w -> rtc table_step w w' ->
  table_ok w' /\ grows w w' /\
  NoDup (uniquePeersLocked (peers w')) /\
  (forall p, p ∈ uniquePeersLocked (peers w') <-> is_Some (heap w' !! p)) /\
  (forall c d p, peersByConfigured (peers w') !! c = Some p ->
     peersByConfigured (peers w') !! d = Some p -> c = d).
Proof.
  intros Ht Eh Hr H1 H2.
  destruct (rtc_step_ok _ _ (new_table_ok w0 cfg rs Ht Eh Hr) H1) as (Hw & _).
  destruct (rtc_step_ok _ _ Hw H2) as (Hw' & Hg). destruct (unique_peers w' Hw') as (Hn & Hp).
  split_and!; try done. intros c d p Hc Hd.
  apply (ok_named w' Hw') in Hc as (_ & n & En & <-). apply (ok_named w' Hw') in Hd as (_ & m & Em & <-).
  congruence.
Qed.

(** A scan for configured peers to connect returns whatever the DNS
    answers: no nil peer is dereferenced and the loops end; it is a sequence
    of steps of the table and leaves it consistent, with all the peers it had. *)
Theorem connection_attempts_return (w : TW) (localDI : DomainIdentifier) :
  table_ok w ->
  exists w', PeriodicallyAttemptConnections localDI w = Some (w', tt) /\
    rtc table_step w w' /\ table_ok w' /\ grows w w'.
Proof.
  intros Hw. destruct (scan_steps localDI w Hw) as (w' & [] & E & Hok & Hg & Hs & _). eauto.
Qed.

(** ** Looking up and creating *)

(** [LookupOrCreate] refuses an address that another peer has, leaving
    addresses, names and peers alone, and otherwise files exactly one peer under
    the address and the name: the one that has the name, or the one that has the
    address (which takes the name), or a new one with the next connection ID;
    afterwards both [Lookup] and a second [LookupOrCreate] return that peer. *)
Theorem lookup_or_create_exact (w : TW) (c raddr key : list Z) (ldi : DomainIdentifier)
    (rdi : option DomainIdentifier) :
  table_ok w -> To4 raddr = Some key ->
  exists w' r, LookupOrCreate c raddr ldi rdi w = Some (w', r) /\ table_ok w' /\ grows w w' /\
    looked_up w c key ldi rdi w' r /\
    forall p, r = inr p -> Lookup (peers w') raddr = inr (Some p) /\
      exists w2, LookupOrCreate c raddr ldi rdi w' = Some (w2, inr p) /\
        heap w2 = heap w' /\ peersByIP (peers w2) = peersByIP (peers w') /\
        peersByConfigured (peers w2) = peersByConfigured (peers w').
Proof.
  intros Hw E4. destruct (lookup_total w c raddr ldi rdi key Hw E4) as (w' & r & E & Hok & Hg & Hl).
  exists w', r. split_and!; try done. intros p ->.
  destruct Hl as (_ & Hl). destruct (conflict_with w c key) as [o|] eqn:Ec; [by destruct Hl|].
  destruct Hl as (p' & [= <-] & Ei & En & Hh).
  assert (Hk : peersByIP (peers w') !! key = Some p) by (rewrite Ei; apply lookup_insert_eq).
  split; [unfold Lookup; by rewrite E4, Hk|].
  destruct (ok_ip_eta w' Hok key p Hk) as (n & Hn).
  assert (Hc : c <> [] -> peersByConfigured (peers w') !! c = Some p).
  { intros Hc. rewrite En, bool_decide_eq_false_2 by done. apply lookup_insert_eq. }
  assert (Hcn : c <> [] -> ConfiguredAddr n = c).
  { intros Hne. apply (ok_named w' Hok) in Hc as (_ & m & Em & Hm); [congruence|done]. }
  destruct (lookup_total w' c raddr ldi rdi key Hok E4) as (w2 & r2 & E2 & _ & _ & _ & Hl2).
  rewrite (conflict_owned w' c key p n Hk Hn) in Hl2. unfold known_peer in Hl2.
  case_bool_decide as Hce.
  - rewrite Hk in Hl2. destruct Hl2 as (q & -> & Ei2 & En2 & -> & m & _ & Eh).
    exists w2. split_and!; try done. rewrite Ei2. by apply insert_id.
  - rewrite bool_decide_eq_true_2 in Hl2 by auto. rewrite (Hc Hce) in Hl2.
    destruct Hl2 as (q & -> & Ei2 & En2 & <- & m & Em & Eh). exists w2. rewrite Ei2, En2, Eh.
    split_and!; [done| |by apply insert_id|apply insert_id; auto].
    rewrite Hn in Em. injection Em as <-. rewrite <- (Hcn Hce), rename_same. by apply insert_id.
Qed.

(** ** Refreshing the candidates *)

(** C14: refreshing the addresses of a configured peer is all or nothing.  When
    one of them belongs to another peer the refresh is refused and changes
    nothing.  Otherwise exactly the listed addresses lead to the peer and the
    other peers keep theirs; an active endpoint that is still listed stays,
    with the connection and the routes; one that is gone gives way to the
    first listed address, at once eligible for an attempt, and exactly the
    routes of the tunnel are dropped, while the transport and the failure count
    stay.  DNS state and names never change. *)
Theorem candidates_refreshed (w : TW) (ptr : positive) (n : Node) (addrs : list (list Z)) :
  table_ok w -> heap w !! ptr = Some n -> ConfiguredAddr n <> [] ->
  normalizeIPv4Candidates addrs <> [] ->
  exists w' r, setConfiguredCandidates ptr addrs w = Some (w', r) /\ table_ok w' /\ grows w w' /\
    refreshed w ptr n (normalizeIPv4Candidates addrs) w' r.
Proof. intros Hw E Hc Hn. exact (candidates_total w ptr n addrs Hw E Hc Hn). Qed.

(** ** Backoff *)

Lemma steps_sorted i j : (i <= j < 6)%nat -> nth i dnsBackoffSteps 0 <= nth j dnsBackoffSteps 0.
Proof.
  intros [Hij Hj]. do 6 (destruct j; [do 6 (destruct i; [first [exfalso; lia|vm_compute; congruence]|]); lia|]). lia.
Qed.

Lemma dnsBackoff_mono m n : 0 <= m <= n -> dnsBackoff m <= dnsBackoff n.
Proof.
  intros H. destruct (decide (m = 0)) as [->|].
  { destruct (decide (n = 0)) as [->|]; [done|]. pose proof (dnsBackoff_range n ltac:(lia)).
    unfold PS.second in *. change (dnsBackoff 0) with 0. lia. }
  unfold dnsBackoff. zdec. change (zlen dnsBackoffSteps) with 6.
  pose proof (steps_sorted (Z.to_nat (Z.min (m - 1) (6 - 1))) (Z.to_nat (Z.min (n - 1) (6 - 1))) ltac:(lia)).
  lia.
Qed.

Lemma dnsReady_blocked t c now s n :
  dnsByConfigured t !! c = Some s -> next s = Some n -> now < n -> dnsReady t c now = false.
Proof. intros E En Hl. unfold dnsReady, dns_of. rewrite E. cbn. rewrite En. by zdec. Qed.

(** A failed lookup is counted and the next one is put off by the schedule
    for that many failures in a row, give or take a tenth: between 27 seconds and
    33 minutes, never less for more failures; until then resolving the name asks
    no DNS and changes nothing. *)
Theorem failed_lookup_backs_off (w : TW) (c : list Z) (ldi : DomainIdentifier) (e : Error)
    (rest : list (Error + list (list Z))) :
  table_ok w -> dnsReady (peers w) c (clock (routing w)) = true -> answers w = inl e :: rest ->
  let k := failures (dns_of (peers w) c) + 1 in
  (forall j, 0 <= j <= k -> dnsBackoff j <= dnsBackoff k) /\
  exists w' delay, ResolveConfiguredPeer c ldi w = Some (w', inl e) /\ answers w' = rest /\
    table_ok w' /\ heap w' = heap w /\ routing w' = routing w /\
    dnsByConfigured (peers w') = <[c := MkDNS k (Some (clock (routing w) + delay)) (dnsErrorKind e)]>
      (dnsByConfigured (peers w)) /\
    9 * dnsBackoff k <= 10 * delay <= 11 * dnsBackoff k /\
    27 * PS.second <= delay <= 33 * 60 * PS.second /\
    forall w2, peers w2 = peers w' -> clock (routing w2) < clock (routing w) + delay ->
      ResolveConfiguredPeer c ldi w2 = Some (w2, inl (Plain errDNSBackoff)).
Proof.
  intros Hw Hr Ha. cbv zeta. set (k := failures (dns_of (peers w) c) + 1).
  assert (Hk : 0 < k).
  { unfold k, dns_of. destruct (dnsByConfigured (peers w) !! c) as [s|] eqn:E; [|done].
    pose proof (ok_dns w Hw c s E) as [? _]. cbn. lia. }
  split; [intros j Hj; by apply dnsBackoff_mono|].
  set (w1 := with_answers rest w).
  assert (Hw1 : table_ok w1) by (destruct Hw; by split).
  destruct (note_total w1 c (clock (routing w)) e Hw1) as (w' & [] & E & Hok & _ & Eh & Er & Ea & _ & _ & d & Hd & Ed).
  change (dns_of (peers w1) c) with (dns_of (peers w) c) in Hd, Ed.
  fold k in Hd, Ed. exists w', d. pose proof (dnsBackoff_range k Hk) as Hb.
  split_and!; try done.
  - unfold ResolveConfiguredPeer.
    rewrite (t_bind (gett peers) _ w w (peers w)) by done.
    rewrite (t_bind time_now _ w w (clock (routing w))) by done. rewrite Hr. cbn [negb].
    rewrite (t_bind LookupIP _ w w1 (inl e)) by (unfold LookupIP; by rewrite Ha).
    unfold fail_dns. rewrite (t_bind time_now _ w1 w1 (clock (routing w))) by done.
    by rewrite (t_bind _ _ _ _ _ E).
  - lia.
  - lia.
  - unfold dnsBackoffCap, PS.second in *. lia.
  - unfold dnsBackoffCap, PS.second in *. lia.
  - intros w2 Ep Hc. unfold ResolveConfiguredPeer.
    rewrite (t_bind (gett peers) _ w2 w2 (peers w2)) by done.
    rewrite (t_bind time_now _ w2 w2 (clock (routing w2))) by done.
    rewrite (dnsReady_blocked (peers w2) c _ (MkDNS k (Some (clock (routing w) + d)) (dnsErrorKind e))
               (clock (routing w) + d)); [done| |done|done].
    rewrite Ep, Ed. apply lookup_insert_eq.
Qed.

(** ** Two peers that are one to the route table *)

(** With open peering the tunnel ID of a peer is made from the domain
    identifier the packet claims, so two addresses that claim the same one
    become two peers with one key: the routes of one are the routes of the
    other, and go when it disconnects. *)
Lemma open_peers_share_target (w : TW) (a b ka kb : list Z) (ldi d : DomainIdentifier) :
  table_ok w -> To4 a = Some ka -> To4 b = Some kb -> ka <> kb ->
  peersByIP (peers w) !! ka = None -> peersByIP (peers w) !! kb = None ->
  exists w1 w2 p q n m,
    LookupOrCreate [] a ldi (Some d) w = Some (w1, inr p) /\
    LookupOrCreate [] b ldi (Some d) w1 = Some (w2, inr q) /\
    p <> q /\ heap w2 !! p = Some n /\ heap w2 !! q = Some m /\
    TunnelID n = str "di:" ++ DI_String d /\ TunnelID m = TunnelID n /\
    PS.self (peer n) = PS.self (peer m) /\
    exists r, delete_target n (routing w2) = Some (r, tt) /\
      forall route, stored (table r) route -> TargetKey (rkey route) <> RouteTargetKey (PS.self (peer m)).
Proof.
  intros Hw Ea Eb Hne Ha Hb.
  destruct (lookup_total w [] a ldi (Some d) ka Hw Ea) as (w1 & r1 & E1 & Hw1 & _ & Er1 & Hl1).
  rewrite conflict_free in Hl1 by done. unfold known_peer in Hl1. cbn in Hl1. rewrite Ha in Hl1.
  destruct Hl1 as (p & -> & Ei1 & _ & Hp & Eh1).
  assert (Hb1 : peersByIP (peers w1) !! kb = None) by (by rewrite Ei1, lookup_insert_ne).
  destruct (lookup_total w1 [] b ldi (Some d) kb Hw1 Eb) as (w2 & r2 & E2 & Hw2 & _ & Er2 & Hl2).
  rewrite conflict_free in Hl2 by done. unfold known_peer in Hl2. cbn in Hl2. rewrite Hb1 in Hl2.
  destruct Hl2 as (q & -> & _ & _ & Hq & Eh2).
  assert (Hpq : p <> q) by (intros <-; rewrite Eh1, lookup_insert_eq in Hq; done).
  set (n := new_peer p (peers w) [] ka ldi d). set (m := new_peer q (peers w1) [] kb ldi d).
  destruct (delete_target_run n (routing w2) (ok_routes w2 Hw2)) as (r & Ed & _ & Hst).
  exists w1, w2, p, q, n, m. split_and!; try done.
  - by rewrite Eh2, lookup_insert_ne, Eh1, lookup_insert_eq.
  - by rewrite Eh2, lookup_insert_eq.
  - exists r. split; [exact Ed|]. intros route Hr. by apply Hst in Hr as (_ & ?).
Qed.

(** ** The router as its own peer *)

(** The first resolution of a name leaves out the router's own address, a
    refresh does not: an answer that holds nothing else is refused by the one
    and makes the router's own address the endpoint in the other. *)
Lemma refresh_selects_own_address (w : TW) (c k : list Z) (p : positive) (n : Node)
    (rest : list (Error + list (list Z))) :
  table_ok w -> heap w !! p = Some n -> ConfiguredAddr n = c -> c <> [] -> zlen k = 4 ->
  peersByIP (peers w) !! k = None ->
  dnsReady (peers w) c (clock (routing w)) = true -> answers w = inr [k] :: rest ->
  (exists w' e, ResolveConfiguredPeer c (IPDomainIdentifier k) w = Some (w', inl e) /\ heap w' = heap w) /\
  (exists w' n', reconnectPeer p w = Some (w', tt) /\ heap w' !! p = Some n' /\ remoteAddr n' = k /\
     Lookup (peers w') k = inr (Some p)).
Proof.
  intros Hw E Hc Hne Hl Hk Hr Ha. set (w1 := with_answers rest w).
  assert (Hw1 : table_ok w1) by (destruct Hw; by split).
  assert (En : normalizeIPv4Candidates [k] = [k]).
  { unfold normalizeIPv4Candidates. cbn. by rewrite (To4_idem k Hl). }
  assert (Eip : ip_Equal k k = true) by (unfold ip_Equal; rewrite Z.eqb_refl; by apply bool_decide_eq_true).
  split.
  - assert (Eloc : is_local (IPDomainIdentifier k) k = true).
    { unfold is_local. rewrite Eip. rewrite bool_decide_eq_true_2; [done|]. by intros ->. }
    destruct (note_total w1 c (clock (routing w)) (Plain (Errorf "configured peer %q resolved only to local address" [AStr c])) Hw1)
      as (w' & [] & Ew & _ & _ & Eh & _).
    exists w'. eexists. split; [|done]. unfold ResolveConfiguredPeer.
    rewrite (t_bind (gett peers) _ w w (peers w)) by done.
    rewrite (t_bind time_now _ w w (clock (routing w))) by done. rewrite Hr. cbn [negb].
    rewrite (t_bind LookupIP _ w w1 (inr [k])) by (unfold LookupIP; by rewrite Ha).
    cbv zeta. rewrite En. change (zlen [k] =? 0) with false; cbv iota.
    rewrite (t_bind (create_candidates _ _ _ _) _ w1 w1 (inr None)).
    2:{ cbn [create_candidates]. by rewrite Eloc. }
    unfold fail_dns. rewrite (t_bind time_now _ w1 w1 (clock (routing w))) by done.
    by rewrite (t_bind _ _ _ _ _ Ew).
  - destruct (candidates_total w1 p n [k] Hw1 E ltac:(by rewrite Hc)) as (w2 & r & Es & Hw2 & _ & _ & _ & Hq);
      [by rewrite En|].
    rewrite En in Hq. destruct Hq as [(key & other & o & Hkey & Hko & _)|(_ & Hip & Hact)].
    { apply list_elem_of_singleton in Hkey as ->. change (peers w1) with (peers w) in Hko. congruence. }
    rewrite decide_False in Hact.
    2:{ intros Hin%list_elem_of_singleton. pose proof (ok_active w Hw p n E). congruence. }
    destruct Hact as (first & [= <-] & -> & Eh & _).
    destruct (reset_total w2 c Hw2) as (w3 & [] & E3 & _ & _ & Eh3 & _ & Ei3 & _).
    set (n3 := store_nextReconnect None (with_remoteAddr k n)) in *.
    assert (E3n : heap w3 !! p = Some n3) by (rewrite Eh3, Eh; apply lookup_insert_eq).
    assert (Hk3 : peersByIP (peers w3) !! k = Some p).
    { rewrite Ei3, Hip, decide_True; [done|]. by apply list_elem_of_singleton. }
    assert (Erun : reconnectPeer p w = (if running n3 then signalReconnect p else go_Handle p) w3).
    { unfold reconnectPeer. rewrite (t_bind _ _ w w n) by (unfold deref; by rewrite E).
      rewrite Hc, bool_decide_eq_false_2 by done.
      rewrite (t_bind (gett peers) _ w w (peers w)) by done.
      rewrite (t_bind time_now _ w w (clock (routing w))) by done. rewrite Hr. cbn [negb].
      rewrite (t_bind LookupIP _ w w1 (inr [k])) by (unfold LookupIP; by rewrite Ha).
      cbv zeta. rewrite En. change (zlen [k] =? 0) with false; cbv iota.
      rewrite (t_bind _ _ _ _ _ Es), (t_bind _ _ _ _ _ E3).
      by rewrite (t_bind _ _ w3 w3 n3) by (unfold deref; by rewrite E3n). }
    assert (Hlook : Lookup (peers w3) k = inr (Some p)) by (unfold Lookup; by rewrite (To4_idem k Hl), Hk3).
    destruct (running n3).
    + exists (with_heap (<[p := with_reconnectCh true n3]> (heap w3)) w3), (with_reconnectCh true n3).
      split; [rewrite Erun; unfold signalReconnect, store; by rewrite E3n|].
      split; [apply lookup_insert_eq|done].
    + exists (with_handlers (handlers w3 ++ [p]) w3), n3. split; [by rewrite Erun|done].
Qed.
End Spec.

(** ** Witnesses *)

#[local] Existing Instances ascii_strings insertion_sort.

Definition wit_router : RW :=
  {| table := wit_rt; ports := []; config := Some wit_config; clock := 1000 * PS.second; emitted := [];
     sends := []; tallies := []; probes := Loop.MkProbes ∅ ∅; loopSignals := []; notes := [] |}.

Definition wit_id : DomainIdentifier := IPDomainIdentifier [10; 0; 0; 1].
Definition wit_name : list Z := str "peer.example".
Definition wit_ip (k : Z) : list Z := [192; 0; 2; k].

(** The table as [main] makes it, the router running, and the DNS about to answer. *)
Definition wit_w0 (ans : list (Error + list (list Z))) : TW :=
  MkTW ∅ (match NewAURPPeerTable wit_config [0; 65536; 7] with Some t => t | None => MkTable ∅ ∅ ∅ 0 wit_config end)
    wit_router ans [] [].

Definition run_t {A} (m : T A) (w : TW) : TW := match m w with Some (w', _) => w' | None => w end.
Definition ran_t {A} (m : T A) (w : TW) : bool := match m w with Some _ => true | None => false end.
Lemma run_t_some {A} (m : T A) w : ran_t m w = true -> exists a, m w = Some (run_t m w, a).
Proof. unfold ran_t, run_t. destruct (m w) as [[w' a]|]; [eauto|done]. Qed.

Lemma run_t_result {A} (m : T A) w a : option_map Datatypes.snd (m w) = Some a -> m w = Some (run_t m w, a).
Proof. unfold run_t. destruct (m w) as [[w' b]|]; [|done]. by intros [= ->]. Qed.

(** A stranger, then a configured peer with two addresses. *)
Definition wit_steps (w : TW) : TW :=
  run_t (LookupOrCreate wit_name (wit_ip 8) wit_id None)
    (run_t (LookupOrCreate wit_name (wit_ip 7) wit_id None)
      (run_t (LookupOrCreate [] (wit_ip 5) wit_id (Some (IPDomainIdentifier (wit_ip 5)))) w)).

Lemma wit_table : NewAURPPeerTable wit_config [0; 65536; 7] = Some (peers (wit_w0 [])).
Proof. reflexivity. Qed.

Lemma wit_rtc ans : rtc table_step (wit_w0 ans) (wit_steps (wit_w0 ans)).
Proof.
  unfold wit_steps. set (w := wit_w0 ans).
  assert (H : forall c a d w1, rtc table_step w w1 -> ran_t (LookupOrCreate c a wit_id d) w1 = true ->
            rtc table_step w (run_t (LookupOrCreate c a wit_id d) w1)).
  { intros c a d w1 Hr Hran. eapply rtc_r; [exact Hr|]. destruct (run_t_some _ _ Hran) as [r E].
    by eapply st_lookup. }
  apply H; [apply H; [apply H; [done|]|]|]; by vm_compute.
Qed.

Lemma wit_ok0 ans : table_ok (wit_w0 ans).
Proof. apply (new_table_ok _ wit_config [0; 65536; 7]); [done|done|exact wit_reachable]. Qed.

Lemma wit_ok ans : table_ok (wit_steps (wit_w0 ans)).
Proof. by destruct (rtc_step_ok _ _ (wit_ok0 ans) (wit_rtc ans)). Qed.

Lemma peer_table_consistent_witness :
  let w := wit_steps (wit_w0 []) in
  table_ok w /\ grows (wit_w0 []) w /\ NoDup (uniquePeersLocked (peers w)) /\
  (forall p, p ∈ uniquePeersLocked (peers w) <-> is_Some (heap w !! p)) /\
  (forall c d p, peersByConfigured (peers w) !! c = Some p ->
     peersByConfigured (peers w) !! d = Some p -> c = d).
Proof.
  apply (peer_table_consistent (wit_w0 []) (wit_w0 []) _ wit_config [0; 65536; 7]);
    [exact wit_table|done|exact wit_reachable|done|apply wit_rtc].
Defined.

Lemma connection_attempts_return_witness :
  exists w', PeriodicallyAttemptConnections wit_id (wit_steps (wit_w0 [])) = Some (w', tt) /\
    rtc table_step (wit_steps (wit_w0 [])) w' /\ table_ok w' /\ grows (wit_steps (wit_w0 [])) w'.
Proof. apply connection_attempts_return. apply wit_ok. Defined.

Lemma lookup_or_create_exact_witness :
  let w := wit_steps (wit_w0 []) in
  exists w' r, LookupOrCreate (str "other") (wit_ip 7) wit_id None w = Some (w', r) /\ table_ok w' /\
    grows w w' /\ looked_up w (str "other") (wit_ip 7) wit_id None w' r /\
    forall p, r = inr p -> Lookup (peers w') (wit_ip 7) = inr (Some p) /\
      exists w2, LookupOrCreate (str "other") (wit_ip 7) wit_id None w' = Some (w2, inr p) /\
        heap w2 = heap w' /\ peersByIP (peers w2) = peersByIP (peers w') /\
        peersByConfigured (peers w2) = peersByConfigured (peers w').
Proof. apply lookup_or_create_exact; [apply wit_ok|reflexivity]. Defined.

(** The second peer, which has the name. *)
Definition wit_ptr : positive := default 1%positive (peersByConfigured (peers (wit_steps (wit_w0 []))) !! wit_name).
Definition wit_node : Node :=
  default (new_peer 1 (peers (wit_w0 [])) [] [] wit_id wit_id) (heap (wit_steps (wit_w0 [])) !! wit_ptr).

Lemma candidates_refreshed_witness :
  let w := wit_steps (wit_w0 []) in
  exists w' r, setConfiguredCandidates wit_ptr [wit_ip 9; wit_ip 8] w = Some (w', r) /\ table_ok w' /\
    grows w w' /\ refreshed w wit_ptr wit_node (normalizeIPv4Candidates [wit_ip 9; wit_ip 8]) w' r.
Proof.
  apply candidates_refreshed; [apply wit_ok|by vm_compute|by vm_compute|by vm_compute].
Defined.

Lemma failed_lookup_backs_off_witness :
  let e := DNSError false true false in let w := wit_w0 [inl e] in let c := wit_name in
  let k := failures (dns_of (peers w) c) + 1 in
  (forall j, 0 <= j <= k -> dnsBackoff j <= dnsBackoff k) /\
  exists w' delay, ResolveConfiguredPeer c wit_id w = Some (w', inl e) /\ answers w' = [] /\
    table_ok w' /\ heap w' = heap w /\ routing w' = routing w /\
    dnsByConfigured (peers w') = <[c := MkDNS k (Some (clock (routing w) + delay)) (dnsErrorKind e)]>
      (dnsByConfigured (peers w)) /\
    9 * dnsBackoff k <= 10 * delay <= 11 * dnsBackoff k /\
    27 * PS.second <= delay <= 33 * 60 * PS.second /\
    forall w2, peers w2 = peers w' -> clock (routing w2) < clock (routing w) + delay ->
      ResolveConfiguredPeer c wit_id w2 = Some (w2, inl (Plain errDNSBackoff)).
Proof.
  apply (failed_lookup_backs_off (wit_w0 [inl (DNSError false true false)]) wit_name wit_id
           (DNSError false true false) []); [apply wit_ok0|by vm_compute|done].
Defined.
