(* ===== verification/AurpInput.v ===== *)
(** * The AURP input loop ([AURPInput] of [router/aurp.go]) and the goroutines
      of the peers

    Every datagram is parsed, attributed to a peer and either queued for the
    goroutine that runs the peer's [Handle] or routed as AppleTalk traffic.  A
    step is one datagram; a send to a full queue blocks the loop until the
    peer takes a packet or the context is cancelled.  Logging and the metrics of
    the input loop are left out. *)
From S2P Require Import Prelude Wtacc AurpHeaders AurpTuples AurpZoneInfo AurpPacket.
From S2P Require Import AurpTransport PeerPolicy GoSort RouteTable RouteExport PeerState PeerFSM.
From S2P Require Import AtalkNbp Atalk DdpPolicy Seed LoopProbe Router Services PeerTable.
Import RT Policy Router Peers.

Module Input.

(** [make(chan aurp.RoutingPacket, 1024)] and [make([]byte, 4096)]. *)
Definition receiveChCap : Z := 1024.
Definition pktbufLen : Z := 4096.

(** How a turn of the loop ends; [Blocked] is in the send to the queue of a peer. *)
Inductive Turn := Continue | Blocked (p : positive) (pkt : Packet).

Section Input.
Context {GStr : GoStrings} {GS : GoSort} {MO : MapOrder} {GN : GoNet} `{MT : DDP.Multitalk}.

(** ** Goroutines of a peer *)

(** The start of [Handle]: a loop-disabled peer is not run, and one goroutine at
    most runs a peer. *)
Definition Handle_begin (p : positive) : T bool :=
  n ← deref p;
  if PS.loopDisabled (peer n) then mret false
  else if running n then mret false
  else _ ← store p (with_running true); mret true.

(** The deferred [p.running.Store(false)]. *)
Definition Handle_end (p : positive) : T unit := store p (with_running false).

(** [case pkt := <-p.ReceiveCh]. *)
Definition receive (p : positive) : T (option Packet) :=
  n ← deref p;
  match ReceiveCh n with
  | [] => mret None
  | pkt :: rest => _ ← store p (with_ReceiveCh rest); mret (Some pkt)
  end.

(** ** One datagram *)

(** The peer the datagram is from: with open peering a stranger becomes one. *)
Definition input_peer (openPeering : bool) (identity : DomainIdentifier) (raddr : list Z)
    (source : DomainIdentifier) : T (option positive) :=
  if openPeering then
    r ← LookupOrCreate [] raddr identity (Some source);
    mret (match r with inl _ => None | inr p => Some p end)
  else
    t ← gett peers;
    mret (match Lookup t raddr with inl _ => None | inr p => p end).

(** [peer.Transport.SetRemoteDI(dh.SourceDI)]. *)
Definition set_remote_di (p : positive) (di : DomainIdentifier) : T unit :=
  n ← deref p;
  match SetRemoteDI di (PS.tr (peer n)) with
  | Ok tr => store p (fun n => with_peer (PS.with_tr tr (peer n)) n)
  | _ => panic
  end.

(** The send on [peer.ReceiveCh] with [noteReceiveQueueDepth]. *)
Definition enqueue (p : positive) (pkt : Packet) : T Turn :=
  n ← deref p;
  if zlen (ReceiveCh n) <? receiveChCap then
    _ ← store p (with_ReceiveCh (ReceiveCh n ++ [pkt]));
    _ ← store p (fun n =>
          with_receiveQueueHighWater (Z.max (receiveQueueHighWater n) (zlen (ReceiveCh n))) n);
    mret Continue
  else mret (Blocked p pkt).

Definition ingress_of (n : Node) : Ingress :=
  {| in_ident := PS.ident (peer n); in_timing := PS.timing (peer n) |}.

Definition dispatch (p : positive) (dh : DomainHeader) (pkt : Packet) : T Turn :=
  match pkt with
  | AppleTalkPacket _ data =>
      if negb (PacketType dh =? PacketTypeAppleTalk) then mret Continue
      else
        n ← deref p;
        _ ← inR (Services.AURPInput_AppleTalk (ingress_of n) data);
        mret Continue
  | _ =>
      if negb (PacketType dh =? PacketTypeRouting) then mret Continue
      else enqueue p pkt
  end.

Definition datagram (openPeering : bool) (identity : DomainIdentifier) (raddr data : list Z) : T Turn :=
  match ParsePacket (take (Z.to_nat pktbufLen) data) with
  | Panic => panic
  | Err _ => mret Continue
  | Ok (dh, pkt) =>
      found ← input_peer openPeering identity raddr (SourceDI dh);
      match found with
      | None => mret Continue
      | Some p =>
          _ ← set_remote_di p (SourceDI dh);
          n ← deref p;
          _ ← (if running n then mret tt else go_Handle p);
          dispatch p dh pkt
      end
  end.

(** ** The loop *)

(** What a turn meets: a cancelled context, the read deadline, a failed read or
    a datagram with the address of its sender. *)
Inductive read := Cancelled | Deadline | ReadError | Datagram (raddr data : list Z).

(** Where the loop stands when the reads are used up: waiting for the next one,
    returned, or blocked with the reads still to come. *)
Inductive Loop := Reading | Returned | Stuck (p : positive) (pkt : Packet) (rest : list read).

Fixpoint AURPInput (openPeering : bool) (identity : DomainIdentifier) (reads : list read) : T Loop :=
  match reads with
  | [] => mret Reading
  | Cancelled :: _ | ReadError :: _ => mret Returned
  | Deadline :: reads => AURPInput openPeering identity reads
  | Datagram raddr data :: reads =>
      turn ← datagram openPeering identity raddr data;
      match turn with
      | Continue => AURPInput openPeering identity reads
      | Blocked p pkt => mret (Stuck p pkt reads)
      end
  end.

(** A blocked [select] is tried again: it returns on a cancelled context or
    sends when there is room. *)
Definition unblock (openPeering : bool) (identity : DomainIdentifier) (cancelled : bool) (l : Loop) :
    T Loop :=
  match l with
  | Stuck p pkt rest =>
      if cancelled then mret Returned
      else
        turn ← enqueue p pkt;
        match turn with
        | Continue => AURPInput openPeering identity rest
        | Blocked _ _ => mret l
        end
  | _ => mret l
  end.

End Input.
End Input.
