(* ===== verification/AurpInputSpec.v ===== *)
(** * The AURP input loop: properties of module Input *)
From S2P Require Import Prelude Wtacc AurpHeaders AurpTuples AurpZoneInfo AurpPacket.
From S2P Require Import AurpTransport PeerPolicy GoSort RouteTable RouteTableInv RouteTableOps.
From S2P Require Import RouteTableSpec RouteExport PeerState PeerFSM.
From S2P Require Import AtalkNbp Atalk DdpPolicy TunnelSpec Seed LoopProbe Router RouterSpec Services ServicesSpec.
From S2P Require Import PeerTable PeerTableInv PeerTableSpec AurpInput.
Import RT Policy Router Peers Input.

Section Spec.
Context {GStr : GoStrings} {GS : GoSort} {MO : MapOrder} {GN : GoNet} `{MT : DDP.Multitalk} {ML : DDP.MultitalkLaws}.

Lemma t_none {A B} (m : T A) (f : A -> T B) w : m w = None -> (m ≫= f) w = None.
Proof. intros E. unfold mbind, T_bind. by rewrite E. Qed.
Lemma t_inv {A B} (m : T A) (f : A -> T B) w r :
  (m ≫= f) w = Some r -> exists w1 a, m w = Some (w1, a) /\ f a w1 = Some r.
Proof. unfold mbind, T_bind. destruct (m w) as [[w1 a]|]; [eauto|done]. Qed.

(** The rest of the program, as one step. *)
Lemma elsewhere_total {A} (m : T A) w w' a (Q : TW -> A -> Prop) :
  table_ok w -> m w = Some (w', a) -> elsewhere w w' -> Q w' a -> total m w Q.
Proof.
  intros Hw E He Hq. destruct (elsewhere_ok w w' He Hw) as (Hok & Hg). by exists w', a.
Qed.

(** A write to a peer that leaves whom it is. *)
Lemma store_total p n f w (Q : TW -> unit -> Prop) : table_ok w -> heap w !! p = Some n ->
  same_node n (f n) -> Q (with_heap (<[p := f n]> (heap w)) w) tt -> total (store p f) w Q.
Proof.
  intros Hw E Hs Hq. eapply elsewhere_total; [done|unfold store; by rewrite E| |done].
  write_elsewhere E.
Qed.

Definition queued (pkt : Packet) (n : Node) : Node :=
  with_receiveQueueHighWater (Z.max (receiveQueueHighWater n) (zlen (ReceiveCh n) + 1))
    (with_ReceiveCh (ReceiveCh n ++ [pkt]) n).

Lemma enqueue_total p n pkt w : table_ok w -> heap w !! p = Some n ->
  total (enqueue p pkt) w (fun w' turn =>
    if zlen (ReceiveCh n) <? receiveChCap then
      turn = Continue /\ peers w' = peers w /\ routing w' = routing w /\ handlers w' = handlers w /\
      heap w' = <[p := queued pkt n]> (heap w)
    else turn = Blocked p pkt /\ w' = w).
Proof.
  intros Hw E. unfold enqueue. apply (total_deref _ n); [done|].
  destruct (zlen (ReceiveCh n) <? receiveChCap); [|by apply total_ret].
  eapply total_bind.
  { by apply (store_total p n _ w (fun w1 _ =>
      w1 = with_heap (<[p := with_ReceiveCh (ReceiveCh n ++ [pkt]) n]> (heap w)) w)). }
  intros w1 [] Hw1 _ ->. eapply total_bind.
  { eapply (store_total p _ _ _ (fun w2 _ => w2 = with_heap (<[p := _]> (heap w)) w));
      [done|cbn; apply lookup_insert_eq|done|]. cbn. by rewrite insert_insert_eq. }
  intros w2 [] Hw2 _ ->. apply total_ret; [done|]. cbn. unfold queued. rewrite zlen_app.
  change (zlen [pkt]) with 1. by split_and!.
Qed.

(** The type in the domain header is that of the packet: the conflict that the
    loop looks for does not occur. *)
Lemma parse_kind b dh pkt : bytes_ok b -> ParsePacket b = Ok (dh, pkt) ->
  pkt_parsed pkt /\
  PacketType dh = (if PS.is_routing pkt then PacketTypeRouting else PacketTypeAppleTalk) /\ di_wf (SourceDI dh).
Proof.
  intros Hb E. pose proof (parse_packet_safe b Hb) as Hs. rewrite E in Hs. cbn [safe] in Hs.
  destruct Hs as (Hp & Hdh). split; [done|]. split.
  - revert E. unfold ParsePacket. pose proof (parse_dh_safe b Hb) as Hs.
    destruct (ParseDomainHeader b) as [[dh' p]|e|]; [|done|done]. cbn [safe] in Hs. rewrite bind_Ok.
    destruct (negb (Version dh' =? 1)); [done|].
    destruct (PacketType dh' =? PacketTypeAppleTalk) eqn:E2; [intros [= <- <-]; by zbool|].
    destruct (PacketType dh' =? PacketTypeRouting) eqn:E3; [|done].
    destruct (parseTrHeader dh' p) as [[tr p']|e|] eqn:Et; [|done|done]. rewrite bind_Ok.
    destruct (parseHeader tr p') as [[h p'']|e|] eqn:Eh; [|done|done]. rewrite bind_Ok.
    destruct (parseRoutingPacket h p'') as [pkt'|e|] eqn:Er; [|done|done]. rewrite bind_Ok.
    intros [= <- <-]. zbool. destruct pkt'; cbn [PS.is_routing]; try done.
    exfalso. revert Er. unfold parseRoutingPacket.
    repeat first [progress intros|case_match|unfold mbind, res_bind in *]; congruence.
  - rewrite Hdh. apply Hp.
Qed.

Definition di_of (n : Node) : DomainIdentifier := remoteDI (PS.tr (peer n)).

Definition with_di (di : DomainIdentifier) (n : Node) : Node :=
  let t := PS.tr (peer n) in
  with_peer (PS.with_tr {| localDI := localDI t; remoteDI := di; localConnID := localConnID t;
    remoteConnID := remoteConnID t; localSeq := localSeq t; remoteSeq := remoteSeq t |} (peer n)) n.

(** What becomes of a packet from the peer [n] at [p]: the identifier is taken
    over, the peer is started unless it runs, a routing packet goes to the end
    of its queue (or the loop is blocked) and an AppleTalk packet is routed. *)
Definition delivered (w : TW) (p : positive) (n : Node) (dh : DomainHeader) (pkt : Packet)
    (o : option (TW * Turn)) : Prop :=
  if same_di_type (di_of n) (SourceDI dh) then
    let n1 := with_di (SourceDI dh) n in
    exists w' turn, o = Some (w', turn) /\ table_ok w' /\ grows w w' /\ peers w' = peers w /\
      handlers w' = (if running n then handlers w else handlers w ++ [p]) /\
      match pkt with
      | AppleTalkPacket _ data => turn = Continue /\ heap w' = <[p := n1]> (heap w) /\
          exists e, Services.AURPInput_AppleTalk (ingress_of n) data (routing w) = Some (routing w', e)
      | _ => routing w' = routing w /\
          if zlen (ReceiveCh n) <? receiveChCap
          then turn = Continue /\ heap w' = <[p := queued pkt n1]> (heap w)
          else turn = Blocked p pkt /\ heap w' = <[p := n1]> (heap w)
      end
  else o = None.

Lemma set_remote_di_run p n di w : heap w !! p = Some n ->
  set_remote_di p di w =
    if same_di_type (di_of n) di then Some (with_heap (<[p := with_di di n]> (heap w)) w, tt) else None.
Proof.
  intros E. unfold set_remote_di. rewrite (t_deref p n) by done. unfold SetRemoteDI. fold (di_of n).
  destruct (same_di_type _ _); [|done]. unfold store. by rewrite E.
Qed.

Lemma dispatch_delivered w p n dh pkt b : table_ok w -> heap w !! p = Some n ->
  config (routing w) <> None -> bytes_ok b -> ParsePacket b = Ok (dh, pkt) ->
  total (dispatch p dh pkt) w (fun w' turn =>
    peers w' = peers w /\ handlers w' = handlers w /\
    match pkt with
    | AppleTalkPacket _ data => turn = Continue /\ heap w' = heap w /\
        exists e, Services.AURPInput_AppleTalk (ingress_of n) data (routing w) = Some (routing w', e)
    | _ => routing w' = routing w /\
        if zlen (ReceiveCh n) <? receiveChCap
        then turn = Continue /\ heap w' = <[p := queued pkt n]> (heap w)
        else turn = Blocked p pkt /\ heap w' = heap w
    end).
Proof.
  intros Hw E Hc Hb Ep. destruct (parse_kind b dh pkt Hb Ep) as (Hp & Ht & _).
  destruct pkt as [dh' data| | | | | | | | | | | | | | |].
  2-16: cbn [PS.is_routing] in Ht; unfold dispatch; rewrite Ht; change (negb (PacketTypeRouting =? PacketTypeRouting)) with false;
    cbv iota; eapply total_mono; [by apply enqueue_total|]; intros w' turn _ _;
    destruct (zlen (ReceiveCh n) <? receiveChCap);
    [intros (-> & Epe & Er & Eh & Ehe); by split_and!|intros (-> & ->); by split_and!].
  cbn [PS.is_routing] in Ht. unfold dispatch. rewrite Ht.
  change (negb (PacketTypeAppleTalk =? PacketTypeAppleTalk)) with false. cbv iota.
  apply (total_deref _ n); [done|].
  destruct (rok_AURPInput (ingress_of n) data ltac:(apply Hp) (routing w) Hc (ok_routes w Hw)) as (r & e & Er & Hr).
  eapply total_bind.
  - eapply (elsewhere_total _ w (with_routing r w) e (fun w1 e1 => w1 = with_routing r w /\ e1 = e));
      [done|unfold inR; by rewrite Er| |done].
    split; [done|]. split; [|done]. intros q. cbn. by destruct (heap w !! q).
  - intros w1 e1 Hw1 _ (-> & ->). apply total_ret; [done|]. split_and!; try done. by exists e.
Qed.

(** From the peer on, a datagram is dealt with in the same way. *)
Definition deal (p : positive) (dh : DomainHeader) (pkt : Packet) : T Turn :=
  _ ← set_remote_di p (SourceDI dh);
  n ← deref p;
  _ ← (if running n then mret tt else go_Handle p);
  dispatch p dh pkt.

Lemma deal_delivered w p n dh pkt b : table_ok w -> heap w !! p = Some n ->
  config (routing w) <> None -> bytes_ok b -> ParsePacket b = Ok (dh, pkt) ->
  delivered w p n dh pkt (deal p dh pkt w).
Proof.
  intros Hw E Hc Hb Ep. unfold delivered, deal. pose proof (set_remote_di_run p n (SourceDI dh) w E) as Es.
  destruct (same_di_type (di_of n) (SourceDI dh)) eqn:Ed; [|by apply t_none].
  set (n1 := with_di (SourceDI dh) n) in *. set (w1 := with_heap (<[p := n1]> (heap w)) w) in *.
  enough (Ht : total (deal p dh pkt) w (fun w' turn => peers w' = peers w /\
      handlers w' = (if running n then handlers w else handlers w ++ [p]) /\
      match pkt with
      | AppleTalkPacket _ data => turn = Continue /\ heap w' = <[p := n1]> (heap w) /\
          exists e, Services.AURPInput_AppleTalk (ingress_of n) data (routing w) = Some (routing w', e)
      | _ => routing w' = routing w /\
          if zlen (ReceiveCh n) <? receiveChCap
          then turn = Continue /\ heap w' = <[p := queued pkt n1]> (heap w)
          else turn = Blocked p pkt /\ heap w' = <[p := n1]> (heap w)
      end)).
  { destruct Ht as (w' & turn & Ew & Hok & Hg & H). exists w', turn. split; [exact Ew|]. by split. }
  unfold deal. eapply total_bind.
    { eapply (elsewhere_total _ w w1 tt (fun w2 _ => w2 = w1)); [done|exact Es| |done].
      write_elsewhere E. }
    intros ? [] Hw1 _ ->. assert (E1 : heap w1 !! p = Some n1) by apply lookup_insert_eq.
    apply (total_deref _ n1); [done|]. change (running n1) with (running n).
    eapply (total_bind _ _ _ (fun w2 _ => w2 = with_handlers (if running n then handlers w else handlers w ++ [p]) w1)).
    { destruct (running n).
      - apply total_ret; [done|]. reflexivity.
      - eapply elsewhere_total; [done|done|by apply elsewhere_same|done]. }
    intros w2 [] Hw2 _ ->. eapply total_mono; [by apply (dispatch_delivered _ p n1 dh pkt b)|].
    intros w' turn _ _ (Ep' & Ehd & Hk). split; [done|]. split; [done|].
    destruct pkt; [exact Hk|..]; change (ReceiveCh n1) with (ReceiveCh n) in Hk;
      destruct (zlen (ReceiveCh n) <? receiveChCap); destruct Hk as (Er & Et & Eh); split_and!; try done;
      rewrite Eh; cbn; by rewrite insert_insert_eq.
Qed.

Lemma datagram_deal op id raddr data w w1 p dh pkt :
  ParsePacket (take (Z.to_nat pktbufLen) data) = Ok (dh, pkt) ->
  input_peer op id raddr (SourceDI dh) w = Some (w1, Some p) ->
  datagram op id raddr data w = deal p dh pkt w1.
Proof. intros Ep Ei. unfold datagram. rewrite Ep. by rewrite (t_bind _ _ _ _ _ Ei). Qed.

Lemma datagram_drop op id raddr data w dh pkt :
  ParsePacket (take (Z.to_nat pktbufLen) data) = Ok (dh, pkt) ->
  input_peer op id raddr (SourceDI dh) w = Some (w, None) ->
  datagram op id raddr data w = Some (w, Continue).
Proof. intros Ep Ei. unfold datagram. rewrite Ep. by rewrite (t_bind _ _ _ _ _ Ei). Qed.

Lemma input_known op id raddr src w key p : To4 raddr = Some key ->
  peersByIP (peers w) !! key = Some p -> input_peer op id raddr src w = Some (w, Some p).
Proof.
  intros E4 Ek. unfold input_peer, Lookup, LookupOrCreate. rewrite E4. destruct op.
  - rewrite bool_decide_eq_true_2 by done.
    rewrite (t_bind _ _ w w (inr p)); [done|].
    rewrite (t_bind (mret tt) _ w w tt) by done. rewrite (t_bind (gett peers) _ w w (peers w)) by done.
    rewrite Ek. unfold adopt_peer. by rewrite bool_decide_eq_true_2.
  - rewrite (t_bind (gett peers) _ w w (peers w)) by done. by rewrite Ek.
Qed.

(** C15: every datagram is dealt with in one way.  One that does not parse
    changes nothing, nor does one from a stranger unless peering is open, which
    makes the stranger a peer; a routing packet goes to the end of the queue of
    the one peer its address leads to, or blocks the loop when the queue is
    full; an AppleTalk packet is routed; the peer is started unless it runs.
    The only datagram that crashes the loop is one whose source identifier is
    not of the type stored for the peer. *)
Theorem input_datagram_exact (w : TW) (openPeering : bool) (identity : DomainIdentifier)
    (raddr data : list Z) :
  table_ok w -> config (routing w) <> None -> bytes_ok data ->
  let o := datagram openPeering identity raddr data w in
  match ParsePacket (take (Z.to_nat pktbufLen) data) with
  | Ok (dh, pkt) =>
      match Lookup (peers w) raddr with
      | inl _ => o = Some (w, Continue)
      | inr (Some p) => exists n, heap w !! p = Some n /\ delivered w p n dh pkt o
      | inr None =>
          if openPeering then
            exists w1 p n, LookupOrCreate [] raddr identity (Some (SourceDI dh)) w = Some (w1, inr p) /\
              heap w !! p = None /\ heap w1 = <[p := n]> (heap w) /\ di_of n = SourceDI dh /\
              routing w1 = routing w /\ delivered w1 p n dh pkt o
          else o = Some (w, Continue)
      end
  | _ => o = Some (w, Continue)
  end.
Proof.
  intros Hw Hc Hb. cbv zeta. assert (Hb' : bytes_ok (take (Z.to_nat pktbufLen) data)) by by apply Forall_take.
  pose proof (ParsePacket_total _ Hb') as Hpt.
  destruct (ParsePacket (take (Z.to_nat pktbufLen) data)) as [[dh pkt]|e|] eqn:Ep; [|by unfold datagram; rewrite Ep|done].
  clear Hpt. unfold Lookup. destruct (To4 raddr) as [key|] eqn:E4.
  2:{ eapply datagram_drop; [done|]. unfold input_peer, LookupOrCreate, Lookup. rewrite E4. by destruct openPeering. }
  destruct (peersByIP (peers w) !! key) as [p|] eqn:Ek.
  - destruct (ok_ip_eta w Hw key p Ek) as (n & En). exists n. split; [done|].
    rewrite (datagram_deal _ _ _ _ _ w p dh pkt Ep) by (by eapply input_known).
    by eapply deal_delivered.
  - destruct openPeering.
    + destruct (lookup_total w [] raddr identity (Some (SourceDI dh)) key Hw E4)
        as (w1 & r & E & Hw1 & _ & Er & Hl).
      rewrite conflict_free in Hl by done. unfold known_peer in Hl. cbn in Hl. rewrite Ek in Hl.
      destruct Hl as (p & -> & _ & _ & Hp & Eh). exists w1, p. eexists. split; [done|]. split; [done|].
      split; [exact Eh|]. split; [done|]. split; [done|].
      rewrite (datagram_deal _ _ _ _ _ w1 p dh pkt Ep).
      * eapply deal_delivered; [done| |by rewrite Er|exact Hb'|exact Ep]. rewrite Eh. apply lookup_insert_eq.
      * unfold input_peer. by rewrite (t_bind _ _ _ _ _ E).
    + eapply datagram_drop; [done|]. unfold input_peer, Lookup. rewrite E4.
      rewrite (t_bind (gett peers) _ w w (peers w)) by done. by rewrite Ek.
Qed.

(** ** The queues over a run of the loop *)

(** The packets a read adds to the queue of [p]. *)
Definition from_peer (t : AURPPeerTable) (p : positive) (r : read) : list Packet :=
  match r with
  | Datagram raddr data =>
      match ParsePacket (take (Z.to_nat pktbufLen) data), Lookup t raddr with
      | Ok (_, pkt), inr (Some q) => if bool_decide (q = p) && PS.is_routing pkt then [pkt] else []
      | _, _ => []
      end
  | _ => []
  end.

Definition queues_extended (t : AURPPeerTable) (w w' : TW) (rs : list read) : Prop :=
  peers w' = t /\
  forall q n, heap w !! q = Some n -> exists n', heap w' !! q = Some n' /\
    ReceiveCh n' = ReceiveCh n ++ concat (map (from_peer t q) rs).

Lemma enqueue_run p n pkt w : heap w !! p = Some n ->
  enqueue p pkt w =
    if zlen (ReceiveCh n) <? receiveChCap then
      Some (with_heap (<[p := with_receiveQueueHighWater
              (Z.max (receiveQueueHighWater n) (zlen (ReceiveCh n ++ [pkt])))
              (with_ReceiveCh (ReceiveCh n ++ [pkt]) n)]> (heap w)) w, Continue)
    else Some (w, Blocked p pkt).
Proof.
  intros E. unfold enqueue. rewrite (t_deref p n) by done. destruct (zlen (ReceiveCh n) <? receiveChCap); [|done].
  rewrite (t_bind _ _ _ (with_heap (<[p := with_ReceiveCh (ReceiveCh n ++ [pkt]) n]> (heap w)) w) tt)
    by (unfold store; by rewrite E).
  erewrite t_bind by (unfold store; cbn; by rewrite lookup_insert_eq).
  cbn. by rewrite insert_insert_eq.
Qed.

(** A packet from the peer at [p] changes no queue but its own. *)
Lemma deal_queue w p dh pkt b w' turn :
  bytes_ok b -> ParsePacket b = Ok (dh, pkt) -> deal p dh pkt w = Some (w', turn) ->
  peers w' = peers w /\
  exists n n', heap w !! p = Some n /\ heap w' = <[p := n']> (heap w) /\
    if PS.is_routing pkt then
      if zlen (ReceiveCh n) <? receiveChCap
      then turn = Continue /\ ReceiveCh n' = ReceiveCh n ++ [pkt]
      else turn = Blocked p pkt /\ ReceiveCh n' = ReceiveCh n
    else turn = Continue /\ ReceiveCh n' = ReceiveCh n.
Proof.
  intros Hb Ep E. destruct (parse_kind b dh pkt Hb Ep) as (_ & Ht & _). revert E. unfold deal.
  destruct (heap w !! p) as [n|] eqn:En.
  2:{ rewrite t_none; [done|]. unfold set_remote_di. rewrite t_none; [done|]. unfold deref. by rewrite En. }
  pose proof (set_remote_di_run p n (SourceDI dh) w En) as Es.
  destruct (same_di_type _ _); [|by rewrite (t_none _ _ _ Es)]. rewrite (t_bind _ _ _ _ _ Es).
  set (n1 := with_di (SourceDI dh) n). set (w1 := with_heap _ w).
  assert (E1 : heap w1 !! p = Some n1) by apply lookup_insert_eq. rewrite (t_deref p n1) by done.
  set (w2 := if running n1 then w1 else with_handlers (handlers w1 ++ [p]) w1).
  rewrite (t_bind _ _ w1 w2 tt) by (unfold w2; by destruct (running n1)).
  assert (E2 : heap w2 = <[p := n1]> (heap w)) by (unfold w2; by destruct (running n1)).
  assert (Ep2 : peers w2 = peers w) by (unfold w2; by destruct (running n1)).
  assert (E2n : heap w2 !! p = Some n1) by (rewrite E2; apply lookup_insert_eq). clearbody w2.
  destruct (PS.is_routing pkt) eqn:Er.
  - assert (Ed : dispatch p dh pkt = enqueue p pkt).
    { unfold dispatch. rewrite Ht. by destruct pkt. }
    rewrite Ed, (enqueue_run p n1 pkt w2 E2n). change (ReceiveCh n1) with (ReceiveCh n).
    destruct (zlen (ReceiveCh n) <? receiveChCap) eqn:Ez; intros [= <- <-]; (split; [done|]).
    + eexists n, _. split; [done|]. rewrite Ez. split; [cbn; by rewrite E2, insert_insert_eq|done].
    + exists n, n1. split; [done|]. by rewrite Ez.
  - destruct pkt as [dh' data| | | | | | | | | | | | | | |]; try done.
    unfold dispatch. rewrite Ht. change (negb (PacketTypeAppleTalk =? PacketTypeAppleTalk)) with false. cbv iota.
    rewrite (t_deref p n1) by done. unfold mbind, T_bind, inR.
    destruct (Services.AURPInput_AppleTalk _ _ _) as [[r e]|]; [|done]. intros [= <- <-].
    split; [done|]. exists n, n1. by split_and!.
Qed.

Lemma datagram_queue id raddr data w w' turn :
  bytes_ok data -> datagram false id raddr data w = Some (w', turn) ->
  queues_extended (peers w) w w' (match turn with Continue => [Datagram raddr data] | _ => [] end) /\
  match turn with
  | Continue => True
  | Blocked p pkt => from_peer (peers w) p (Datagram raddr data) = [pkt] /\
      exists n, heap w' !! p = Some n /\ receiveChCap <= zlen (ReceiveCh n)
  end.
Proof.
  intros Hb E. assert (Hb' : bytes_ok (take (Z.to_nat pktbufLen) data)) by by apply Forall_take.
  assert (Hsame : (forall q, from_peer (peers w) q (Datagram raddr data) = []) ->
    Some (w, Continue) = Some (w', turn) ->
    queues_extended (peers w) w w' (match turn with Continue => [Datagram raddr data] | _ => [] end) /\
    match turn with Continue => True | Blocked p pkt => from_peer (peers w) p (Datagram raddr data) = [pkt] /\
      exists n, heap w' !! p = Some n /\ receiveChCap <= zlen (ReceiveCh n) end).
  { intros Hq [= <- <-]. split; [|done]. split; [done|]. intros q n En. exists n. split; [done|].
    cbn [map concat]. by rewrite Hq, !app_nil_r. }
  destruct (ParsePacket (take (Z.to_nat pktbufLen) data)) as [[dh pkt]|e|] eqn:Ep.
  2:{ apply Hsame; [intros q; unfold from_peer; by rewrite Ep|]. revert E. unfold datagram. by rewrite Ep. }
  2:{ revert E. unfold datagram. by rewrite Ep. }
  destruct (Lookup (peers w) raddr) as [e|[p|]] eqn:El.
  1,3: apply Hsame; [intros q; unfold from_peer; by rewrite Ep, El|];
    rewrite <- E; symmetry; eapply datagram_drop; [exact Ep|]; unfold input_peer;
    rewrite (t_bind (gett peers) _ w w (peers w)) by done; by rewrite El.
  rewrite (datagram_deal _ _ _ _ _ w p dh pkt Ep) in E.
  2:{ unfold input_peer. rewrite (t_bind (gett peers) _ w w (peers w)) by done. by rewrite El. }
  destruct (deal_queue w p dh pkt _ w' turn Hb' Ep E) as (Epe & n & n' & En & Eh & H).
  assert (Hfp : forall q, from_peer (peers w) q (Datagram raddr data) =
                 if bool_decide (p = q) && PS.is_routing pkt then [pkt] else []).
  { intros q. unfold from_peer. by rewrite Ep, El. }
  split.
  - split; [done|]. intros q m Em. rewrite Eh. destruct (decide (p = q)) as [<-|Hne].
    + exists n'. rewrite lookup_insert_eq. split; [done|]. rewrite En in Em. injection Em as <-.
      destruct (PS.is_routing pkt) eqn:Er; [destruct (zlen (ReceiveCh n) <? receiveChCap)|];
        destruct H as (-> & ->); cbn [map concat]; rewrite ?Hfp, ?bool_decide_eq_true_2, ?app_nil_r by done; done.
    + exists m. rewrite lookup_insert_ne by done. split; [done|].
      destruct turn; cbn [map concat]; rewrite ?Hfp, ?bool_decide_eq_false_2, ?app_nil_r by done; done.
  - destruct turn as [|p' pkt']; [done|].
    destruct (PS.is_routing pkt) eqn:Er; [|by destruct H].
    destruct (zlen (ReceiveCh n) <? receiveChCap) eqn:Ez; [by destruct H|].
    destruct H as ([= -> ->] & Hr). split; [by rewrite Hfp, bool_decide_eq_true_2|].
    exists n'. rewrite Eh, lookup_insert_eq, Hr. split; [done|]. by zbool.
Qed.

(** C16: without open peering, whatever is read, the loop hands every routing
    packet to the one peer its sender's address leads to, each exactly once and
    in the order of arrival, up to where it stands; it stands still only
    when it has read everything, was told to stop, could not read, or when the
    packet at hand is for a peer with a full queue. *)
Theorem input_keeps_order (w w' : TW) (identity : DomainIdentifier) (reads : list read) (l : Loop) :
  Forall (fun r => match r with Datagram _ data => bytes_ok data | _ => True end) reads ->
  AURPInput false identity reads w = Some (w', l) ->
  exists taken rest, reads = taken ++ rest /\ queues_extended (peers w) w w' taken /\
    match l with
    | Reading => rest = []
    | Returned => head rest = Some Cancelled \/ head rest = Some ReadError
    | Stuck p pkt later => exists r n, rest = r :: later /\ from_peer (peers w) p r = [pkt] /\
        heap w' !! p = Some n /\ receiveChCap <= zlen (ReceiveCh n)
    end.
Proof.
  intros Hr. revert w. induction Hr as [|r reads Hb Hr IH]; intros w E; cbn [AURPInput] in E.
  { injection E as <- <-. exists [], []. split; [done|]. split; [|done]. split; [done|].
    intros q n En. exists n. by rewrite app_nil_r. }
  assert (Hskip : forall w1 w2 ts ts', queues_extended (peers w1) w1 w2 ts' -> queues_extended (peers w) w w1 ts ->
            queues_extended (peers w) w w2 (ts ++ ts')).
  { intros w1 w2 ts ts' (E2 & H2) (E1 & H1). split; [congruence|]. intros q n En.
    destruct (H1 q n En) as (n1 & En1 & Er1). destruct (H2 q n1 En1) as (n2 & En2 & Er2). exists n2.
    split; [done|]. rewrite Er2, Er1, map_app, concat_app, app_assoc. by rewrite E1. }
  assert (Hnil : queues_extended (peers w) w w []).
  { split; [done|]. intros q n En. exists n. by rewrite app_nil_r. }
  destruct r as [| | |raddr data].
  - injection E as <- <-. exists [], (Cancelled :: reads). auto.
  - destruct (IH w E) as (ts & rest & -> & Hq & Hl). exists (Deadline :: ts), rest. split; [done|].
    split; [|done]. by apply (Hskip w w' [Deadline] ts).
  - injection E as <- <-. exists [], (ReadError :: reads). auto.
  - apply t_inv in E as (w1 & turn & Ed & E).
    destruct (datagram_queue _ _ _ _ _ _ Hb Ed) as (Hq & Ht). destruct turn as [|p pkt].
    + destruct (IH w1 E) as (ts & rest & -> & Hq' & Hl). exists (Datagram raddr data :: ts), rest.
      split; [done|]. split; [by apply (Hskip w1 w' [Datagram raddr data] ts)|].
      destruct Hq as (Ep & _). by rewrite <- Ep.
    + injection E as <- <-. exists [], (Datagram raddr data :: reads). split; [done|]. split; [done|].
      destruct Ht as (Hf & n & En & Hn). by exists (Datagram raddr data), n.
Qed.

(** ** A disabled peer stops the input of all *)

(** A peer that a confirmed routing loop disabled is not run again, so nobody
    empties its queue; when it is full the next routing packet from it blocks
    the loop, and with it the packets of every other peer, for good. *)
Lemma disabled_peer_blocks_input (w : TW) (op : bool) (id : DomainIdentifier) (p : positive) (n : Node)
    (raddr data : list Z) (dh : DomainHeader) (pkt : Packet) (later : list read) :
  table_ok w -> heap w !! p = Some n -> PS.loopDisabled (peer n) = true ->
  receiveChCap <= zlen (ReceiveCh n) -> config (routing w) <> None -> bytes_ok data ->
  Lookup (peers w) raddr = inr (Some p) -> same_di_type (di_of n) (SourceDI dh) = true ->
  ParsePacket (take (Z.to_nat pktbufLen) data) = Ok (dh, pkt) -> PS.is_routing pkt = true ->
  exists w', AURPInput op id (Datagram raddr data :: later) w = Some (w', Stuck p pkt later) /\
    Handle_begin p w' = Some (w', false) /\
    unblock op id false (Stuck p pkt later) w' = Some (w', Stuck p pkt later).
Proof.
  intros Hw En Hd Hfull Hc Hb El Hdi Ep Hr.
  pose proof (input_datagram_exact w op id raddr data Hw Hc Hb) as H. cbv zeta in H. rewrite Ep, El in H.
  destruct H as (m & Em & H). rewrite En in Em. injection Em as <-. unfold delivered in H. rewrite Hdi in H.
  destruct H as (w' & turn & Ew & Hw' & _ & Epe & _ & Hk).
  assert (Hb2 : turn = Blocked p pkt /\ heap w' = <[p := with_di (SourceDI dh) n]> (heap w)).
  { destruct pkt; try done; destruct Hk as (_ & Hk); revert Hk; by zdec. }
  destruct Hb2 as (-> & Eh). set (n' := with_di (SourceDI dh) n) in *.
  assert (En' : heap w' !! p = Some n') by (rewrite Eh; apply lookup_insert_eq).
  exists w'. split_and!.
  - cbn [AURPInput]. by rewrite (t_bind _ _ _ _ _ Ew).
  - unfold Handle_begin. rewrite (t_deref p n') by done. by rewrite (Hd : PS.loopDisabled (peer n') = true).
  - unfold unblock. pose proof (enqueue_run p n' pkt w' En') as Eq.
    change (ReceiveCh n') with (ReceiveCh n) in Eq. revert Eq. zdec. intros Eq. by rewrite (t_bind _ _ _ _ _ Eq).
Qed.
End Spec.

(** ** Witnesses *)

#[local] Existing Instances ascii_strings insertion_sort wire_multitalk.

(** An Open-Req as the configured peer of [PeerTableSpec] sends it. *)
Definition wit_sender : Transport := NewTransport (IPDomainIdentifier (wit_ip 7)) wit_id 9 0.
Definition wit_datagram : list Z := (Packet_WriteTo (NewOpenReqPacket wit_sender []) []).1.

Lemma wit_datagram_bytes : bytes_ok wit_datagram.
Proof. vm_compute. repeat constructor; done. Qed.

Lemma wit_parses : exists dh pkt, ParsePacket (take (Z.to_nat pktbufLen) wit_datagram) = Ok (dh, pkt).
Proof. vm_compute. by do 2 eexists. Qed.
Lemma wit_looked_up : Lookup (peers (wit_steps (wit_w0 []))) (wit_ip 7) = inr (Some wit_ptr).
Proof. by vm_compute. Qed.
Lemma wit_config_set : config (routing (wit_steps (wit_w0 []))) <> None.
Proof. by vm_compute. Qed.

Lemma input_datagram_exact_witness :
  let w := wit_steps (wit_w0 []) in
  exists dh pkt n, ParsePacket (take (Z.to_nat pktbufLen) wit_datagram) = Ok (dh, pkt) /\
    heap w !! wit_ptr = Some n /\
    delivered w wit_ptr n dh pkt (datagram false wit_id (wit_ip 7) wit_datagram w).
Proof.
  cbv zeta. pose proof (input_datagram_exact (wit_steps (wit_w0 [])) false wit_id (wit_ip 7) wit_datagram (wit_ok [])
    wit_config_set wit_datagram_bytes) as H. cbv zeta in H.
  destruct wit_parses as (dh & pkt & Ep). rewrite Ep, wit_looked_up in H. destruct H as (n & En & Hd).
  by exists dh, pkt, n.
Defined.

Definition wit_reads : list read :=
  [Deadline; Datagram (wit_ip 7) wit_datagram; Datagram (wit_ip 99) wit_datagram;
   Datagram (wit_ip 8) wit_datagram; Cancelled].
Definition wit_run : TW := run_t (AURPInput false wit_id wit_reads) (wit_steps (wit_w0 [])).

Lemma wit_run_some : AURPInput false wit_id wit_reads (wit_steps (wit_w0 [])) = Some (wit_run, Returned).
Proof.
  refine (run_t_result (AURPInput false wit_id wit_reads) (wit_steps (wit_w0 [])) Returned _).
  vm_compute. reflexivity.
Qed.

Lemma input_keeps_order_witness :
  exists taken rest, wit_reads = taken ++ rest /\
    queues_extended (peers (wit_steps (wit_w0 []))) (wit_steps (wit_w0 [])) wit_run taken /\
    (head rest = Some Cancelled \/ head rest = Some ReadError).
Proof.
  apply (input_keeps_order _ _ wit_id wit_reads Returned); [|exact wit_run_some].
  repeat first [apply wit_datagram_bytes|constructor].
Defined.

(** Two packets of the peer are in its queue, from two of its addresses; the
    stranger's is not. *)
Lemma wit_run_queue : option_map (fun n => zlen (ReceiveCh n)) (heap wit_run !! wit_ptr) = Some 2.
Proof. by vm_compute. Qed.
