(* ===== verification/System.v ===== *)
(** * The whole router: many peers, one table of peers, one route table

    The components run side by side on one state: the goroutine of each peer
    ([PeerFSM] on its struct), the input loop ([AurpInput]), the operations of
    the table of peers ([PeerTable]) and the rest of the router ([Router.R]).
    What the route table tells its observers reaches the queues of the peers
    before the next step, as the calls in [route_table.go] are made under its
    lock. *)
From S2P Require Import Prelude Wtacc AurpHeaders AurpTuples AurpZoneInfo AurpPacket.
From S2P Require Import AurpTransport PeerPolicy GoSort RouteTable RouteTableInv RouteTableOps RouteTableSpec.
From S2P Require Import RouteExport PeerState PeerZones PeerFSM.
From S2P Require Import AtalkNbp Atalk DdpPolicy Seed LoopProbe Router Services PeerTable AurpInput.
Import RT Policy Router Peers Input.

Module Sys.

(** [udp] are the outcomes of the coming UDP writes, [wire] the packets written
    with the address they went to, [suspects] the pairs of routes peers found
    to be copies of each other. *)
Record System := MkSys {
  state : TW;
  udp : list bool;
  wire : list (list Z * Packet);
  suspects : list (positive * (Route * Route)) }.

Definition with_state (v : TW) (s : System) : System := MkSys v (udp s) (wire s) (suspects s).

Section System.
Context {GStr : GoStrings} {GS : GoSort} {MO : MapOrder} {GN : GoNet} `{MT : DDP.Multitalk}.

(** ** Notifications *)

Fixpoint deliver_notes (ns : list (positive * Note)) (h : gmap positive Node) : gmap positive Node :=
  match ns with
  | [] => h
  | (o, e) :: ns => deliver_notes ns (alter (fun n => with_peer (PS.deliver e (peer n)) n) o h)
  end.

Definition settle (w : TW) : TW :=
  with_heap (deliver_notes (notes (routing w)) (heap w)) (with_routing (with_notes [] (routing w)) w).

(** ** A handler of one peer on the shared state *)

(** What the handler of the peer [n] sees. *)
Definition peer_world (s : System) (n : Node) : PS.World :=
  {| PS.pr := peer n; PS.rtab := table (routing (state s)); PS.sent := []; PS.io := udp s;
     PS.now := clock (routing (state s)); PS.rnd := hd 0 (draws (state s)); PS.others := [];
     PS.loops := [] |}.

(** The fields of the struct that handlers write. *)
Definition resume (n : Node) (p : PS.Peer) : Node :=
  with_peer {| PS.pid := PS.pid (peer n); PS.ident := PS.ident (peer n); PS.timing := PS.timing (peer n);
               PS.tr := PS.tr p; PS.snd := PS.snd p; PS.rcv := PS.rcv p; PS.tm := PS.tm p;
               PS.diag := PS.diag p; PS.loopDisabled := PS.loopDisabled p |} n.

Definition put_back (p : positive) (n : Node) (v : PS.World) (s : System) : System :=
  let w := state s in
  let r := with_notes (notes (routing w) ++ PS.others v) (with_table (PS.rtab v) (routing w)) in
  {| state := settle (with_draws (tail (draws w))
                (with_heap (<[p := resume n (PS.pr v)]> (heap w)) (with_routing r w)));
     udp := PS.io v;
     wire := wire s ++ map (fun pkt => (remoteAddr n, pkt)) (PS.sent v);
     suspects := suspects s ++ map (fun l => (p, l)) (PS.loops v) |}.

Definition on_peer {A} (p : positive) (m : PS.M A) (s : System) : option (System * A) :=
  n ← heap (state s) !! p;
  match m (peer_world s n) with
  | Some (v, a) => Some (put_back p n v s, a)
  | None => None
  end.

(** What [Handle], its shutdown and [Forward] run on a peer, the packets aside. *)
Inductive handler : PS.M PS.error -> Prop :=
| h_start : handler FSM.handle_start
| h_rticker : handler FSM.rtickerTasks
| h_sticker : handler FSM.stickerTasks
| h_reconnect : handler FSM.handle_reconnect
| h_shutdown : handler FSM.startSenderShutdown
| h_abandon : handler (_ ← PS.disconnectSender; mret None)
| h_loop : handler (_ ← FSM.handleConfirmedRoutingLoop; mret None)
| h_forward pk : handler (Tunnel.Forward pk)
| h_stop : handler (_ ← PS.RemoveObserver_self; mret None).

(** [case pkt := <-p.ReceiveCh: p.handlePacket(pkt)]. *)
Definition handle_received (p : positive) (s : System) : option (System * PS.error) :=
  match receive p (state s) with
  | Some (w, Some pkt) => on_peer p (FSM.handlePacket pkt) (with_state w s)
  | _ => None
  end.

(** ** Steps *)

(** A step of the router other than its peers: it leaves a route table that the
    table's operations can build; the clock and the ports are its to change. *)
Definition router_op {A} (m : R A) : Prop :=
  forall r r' a, m r = Some (r', a) -> reachable (table r) -> reachable (table r').

Inductive sys_step (s : System) : System -> Prop :=
| sy_track addr w : TrackConfiguredAddress addr (state s) = Some (w, tt) -> sys_step s (with_state w s)
| sy_failure addr now e w : noteDNSFailure addr now e (state s) = Some (w, tt) -> sys_step s (with_state w s)
| sy_reset addr w : resetDNSBackoff addr (state s) = Some (w, tt) -> sys_step s (with_state w s)
| sy_lookup addr raddr ldi rdi w r : bytes_ok raddr -> di_wf ldi ->
    match rdi with Some d => di_wf d | None => True end ->
    LookupOrCreate addr raddr ldi rdi (state s) = Some (w, r) -> sys_step s (with_state w s)
| sy_refresh p addrs w r : setConfiguredCandidates p addrs (state s) = Some (w, r) ->
    sys_step s (with_state (settle w) s)
| sy_signal p w : signalReconnect p (state s) = Some (w, tt) -> sys_step s (with_state w s)
| sy_begin p w b : Handle_begin p (state s) = Some (w, b) -> sys_step s (with_state w s)
| sy_end p w : Handle_end p (state s) = Some (w, tt) -> sys_step s (with_state w s)
| sy_datagram openPeering identity raddr data w turn :
    bytes_ok raddr -> bytes_ok data -> di_wf identity -> config (routing (state s)) <> None ->
    datagram openPeering identity raddr data (state s) = Some (w, turn) ->
    sys_step s (with_state (settle w) s)
| sy_unblocked p pkt w : pkt_parsed pkt -> enqueue p pkt (state s) = Some (w, Continue) ->
    sys_step s (with_state w s)
| sy_received p s' err : handle_received p s = Some (s', err) -> sys_step s s'
| sy_handler p m s' err : handler m -> on_peer p m s = Some (s', err) -> sys_step s s'
| sy_router {A} (m : R A) w a : router_op m -> inR m (state s) = Some (w, a) ->
    sys_step s (with_state (settle w) s)
| sy_world l ans rs hs :
    sys_step s (MkSys (with_handlers hs (with_draws rs (with_answers ans (state s)))) l (wire s) (suspects s)).

End System.
End Sys.
