(* ===== verification/SystemSpec.v ===== *)
(** * The whole router: properties of module Sys *)
From S2P Require Import Prelude Wtacc AurpHeaders AurpTuples AurpZoneInfo AurpPacket.
From S2P Require Import AurpTransport PeerPolicy GoSort RouteTable RouteTableInv RouteTableOps RouteTableSpec.
From S2P Require Import RouteExport PeerState PeerZones PeerFSM PeerInv PeerKeeps PeerTotal PeerSpec.
From S2P Require Import AtalkNbp Atalk DdpPolicy TunnelSpec Seed LoopProbe Router RouterSpec Services ServicesSpec.
From S2P Require Import PeerTable PeerTableInv PeerTableSpec AurpInput AurpInputSpec System.
Import RT Policy Router Peers Input Sys.

Section Spec.
Context {GStr : GoStrings} {GS : GoSort} {MO : MapOrder} {GN : GoNet} `{MT : DDP.Multitalk} {ML : DDP.MultitalkLaws}.

(** ** The invariant *)

(** What the goroutine of a peer relies on. *)
Definition node_ok (n : Node) : Prop :=
  transport_ok (PS.tr (peer n)) /\
  outstanding (PS.tr (peer n)) (PS.sstate (PS.snd (peer n))) (PS.lastRISent (PS.snd (peer n))) /\
  Forall pkt_parsed (ReceiveCh n).

Record sys_ok (s : System) : Prop := {
  sys_table : table_ok (state s);
  sys_nodes p n : heap (state s) !! p = Some n -> node_ok n }.

(** The part of a peer the invariant speaks of. *)
Definition vital (n : Node) := (PS.tr (peer n), PS.sstate (PS.snd (peer n)), PS.lastRISent (PS.snd (peer n)), ReceiveCh n).

Lemma node_ok_vital n n' : vital n' = vital n -> node_ok n -> node_ok n'.
Proof. unfold vital, node_ok. intros [= -> -> -> ->]. done. Qed.

Lemma nodes_insert (h : gmap positive Node) p n :
  (forall q m, h !! q = Some m -> node_ok m) -> node_ok n ->
  forall q m, <[p := n]> h !! q = Some m -> node_ok m.
Proof.
  intros Hh Hn q m. destruct (decide (p = q)) as [<-|].
  - rewrite lookup_insert_eq. by intros [= <-].
  - rewrite lookup_insert_ne by done. apply Hh.
Qed.

(** *** Notifications *)

Definition informed (n n' : Node) : Prop := same_node n n' /\ vital n' = vital n.

Lemma deliver_informed e n : informed n (with_peer (PS.deliver e (peer n)) n).
Proof. by repeat split. Qed.

Lemma deliver_notes_spec ns h p :
  match h !! p, deliver_notes ns h !! p with
  | Some n, Some n' => informed n n'
  | None, None => True
  | _, _ => False
  end.
Proof.
  revert h. induction ns as [|[o e] ns IH]; intros h; cbn [deliver_notes].
  { by destruct (h !! p); repeat split. }
  specialize (IH (alter (fun n => with_peer (PS.deliver e (peer n)) n) o h)).
  destruct (decide (o = p)) as [->|Hne].
  - rewrite lookup_alter_eq in IH. destruct (h !! p) as [n|]; [|exact IH]. cbn in IH.
    destruct (deliver_notes _ _ !! p) as [n'|]; [|done].
    destruct IH as ((H1 & H2 & H3) & H4). destruct (deliver_informed e n) as ((K1 & K2 & K3) & K4).
    split; [split_and!; congruence|congruence].
  - by rewrite lookup_alter_ne in IH.
Qed.

Lemma settle_elsewhere w : elsewhere w (settle w).
Proof.
  split; [done|]. split; [|done]. intros p. cbn.
  pose proof (deliver_notes_spec (notes (routing w)) (heap w) p) as H.
  destruct (heap w !! p), (deliver_notes _ _ !! p); try done. by destruct H.
Qed.

Lemma settle_ok s w : sys_ok (with_state w s) -> sys_ok (with_state (settle w) s).
Proof.
  intros [Hw Hn]. cbn in *. destruct (elsewhere_ok _ _ (settle_elsewhere w) Hw) as (Hok & _).
  split; [exact Hok|]. intros p n' E. cbn in E.
  pose proof (deliver_notes_spec (notes (routing w)) (heap w) p) as H. rewrite E in H.
  destruct (heap w !! p) as [n|] eqn:En; [|done]. destruct H as (_ & Hv).
  eapply node_ok_vital; [exact Hv|]. by eapply Hn.
Qed.

(** ** Operations on the table *)

Lemma new_peer_ok w ptr c key ldi rdi : 1 <= nextConnID (peers w) <= 65535 -> di_wf ldi -> di_wf rdi ->
  node_ok (new_peer ptr (peers w) c key ldi rdi).
Proof.
  intros Hc Hl Hr. split; [|split; [done|constructor]]. cbn. unfold transport_ok, u16. cbn.
  split_and!; try done; lia.
Qed.

Lemma lookup_nodes w c raddr ldi rdi w' r :
  table_ok w -> bytes_ok raddr -> di_wf ldi -> match rdi with Some d => di_wf d | None => True end ->
  LookupOrCreate c raddr ldi rdi w = Some (w', r) ->
  (forall p n, heap w !! p = Some n -> node_ok n) -> forall p n, heap w' !! p = Some n -> node_ok n.
Proof.
  intros Hw Hb Hl Hr E Hn. destruct (To4 raddr) as [key|] eqn:E4.
  2:{ unfold LookupOrCreate in E. rewrite E4 in E. by injection E as <- _. }
  destruct (total_result _ _ _ _ _ (lookup_total w c raddr ldi rdi key Hw E4) E) as (_ & _ & _ & H).
  destruct (conflict_with w c key); [destruct H as (_ & -> & _); exact Hn|].
  destruct H as (p & _ & _ & _ & H). destruct (known_peer w c key) as [q|].
  - destruct H as (<- & n & En & ->). case_bool_decide; [exact Hn|]. apply nodes_insert; [exact Hn|].
    by apply (node_ok_vital n), (Hn p).
  - destruct H as (_ & ->). apply nodes_insert; [exact Hn|]. apply new_peer_ok; [apply Hw|done|].
    destruct rdi as [d|]; [done|]. cbn. pose proof (To4_length _ _ E4) as Hlen. unfold zlen in Hlen.
    split; [lia|]. revert E4. unfold To4. case_if; [by intros [= <-]|]. case_if; [|done].
    intros [= <-]. by apply Forall_drop.
Qed.

Lemma refresh_nodes w p addrs w' r :
  table_ok w -> setConfiguredCandidates p addrs w = Some (w', r) ->
  (forall q n, heap w !! q = Some n -> node_ok n) -> forall q n, heap w' !! q = Some n -> node_ok n.
Proof.
  intros Hw E Hn. destruct (heap w !! p) as [n|] eqn:En.
  2:{ unfold setConfiguredCandidates in E. cbv zeta in E. unfold mbind, T_bind, deref in E. by rewrite En in E. }
  destruct (decide (ConfiguredAddr n = [] \/ normalizeIPv4Candidates addrs = [])) as [H|H].
  { destruct (candidates_refused w p n addrs En H) as (e & Ee). rewrite Ee in E. by injection E as <- _. }
  destruct (total_result _ _ _ _ _ (candidates_total w p n addrs Hw En ltac:(tauto) ltac:(tauto)) E)
    as (_ & _ & _ & _ & [(key & other & o & _ & _ & _ & _ & _ & ->)|(_ & _ & H')]); [exact Hn|].
  case_decide; [by destruct H' as (_ & -> & _)|]. destruct H' as (first & _ & _ & -> & _).
  apply nodes_insert; [exact Hn|]. by apply (node_ok_vital n), (Hn p).
Qed.

(** ** The input loop *)

Lemma with_di_ok n di : di_wf di -> node_ok n -> node_ok (with_di di n).
Proof.
  intros Hd ((H1 & H2 & H3) & Ho & Hq). split; [exact (conj H1 (conj Hd H3))|]. split; [|exact Hq].
  intros Hwt. destruct (Ho Hwt) as (pk & E & Hk & h & Hh & Hc & Hs). exists pk. split; [done|].
  split; [done|]. by exists h.
Qed.

Lemma queued_ok n pkt : pkt_parsed pkt -> node_ok n -> node_ok (queued pkt n).
Proof. intros Hp (Ht & Ho & Hq). split; [done|]. split; [done|]. cbn. apply Forall_app. by split; [|constructor]. Qed.

Lemma delivered_nodes w p n dh pkt w' turn b :
  heap w !! p = Some n -> bytes_ok b -> ParsePacket b = Ok (dh, pkt) ->
  delivered w p n dh pkt (Some (w', turn)) ->
  (forall q m, heap w !! q = Some m -> node_ok m) ->
  table_ok w' /\ forall q m, heap w' !! q = Some m -> node_ok m.
Proof.
  intros En Hb Ep. destruct (parse_kind b dh pkt Hb Ep) as (Hp & _ & Hd). unfold delivered.
  destruct (same_di_type _ _); [|done]. intros (w1 & t1 & [= <- <-] & Hw' & _ & _ & _ & Hk) Hn.
  split; [done|]. assert (Hn1 : node_ok (with_di (SourceDI dh) n)) by (by apply with_di_ok, (Hn p)).
  destruct pkt; [destruct Hk as (_ & -> & _); by apply nodes_insert|..];
    destruct Hk as (_ & Hk); destruct (zlen (ReceiveCh n) <? receiveChCap); destruct Hk as (_ & ->);
    apply nodes_insert; try done; by apply queued_ok.
Qed.

Lemma datagram_nodes op id raddr data w w' turn :
  table_ok w -> config (routing w) <> None -> bytes_ok raddr -> bytes_ok data -> di_wf id ->
  datagram op id raddr data w = Some (w', turn) ->
  (forall q m, heap w !! q = Some m -> node_ok m) ->
  table_ok w' /\ forall q m, heap w' !! q = Some m -> node_ok m.
Proof.
  intros Hw Hc Hr Hb Hid E Hn. pose proof (input_datagram_exact w op id raddr data Hw Hc Hb) as H.
  cbv zeta in H. rewrite E in H.
  assert (Hb' : bytes_ok (take (Z.to_nat pktbufLen) data)) by by apply Forall_take.
  destruct (ParsePacket (take (Z.to_nat pktbufLen) data)) as [[dh pkt]|e|] eqn:Ep.
  2,3: injection H as -> _; done.
  destruct (Lookup (peers w) raddr) as [e|[p|]]; [by injection H as -> _| |].
  - destruct H as (n & En & Hd). by eapply delivered_nodes.
  - destruct op; [|by injection H as -> _].
    destruct H as (w1 & p & n & El & _ & Eh & _ & _ & Hd). eapply delivered_nodes; [|exact Hb'|exact Ep|exact Hd|].
    + rewrite Eh. apply lookup_insert_eq.
    + eapply lookup_nodes; [exact Hw|exact Hr|exact Hid| |exact El|exact Hn].
      by destruct (parse_kind _ _ _ Hb' Ep) as (_ & _ & ?).
Qed.

(** ** The goroutines of the peers *)

Lemma handler_keeps m : handler m -> keeps m.
Proof.
  intros []; auto using keeps_start, keeps_rticker, keeps_sticker, keeps_reconnect, keeps_shutdown,
    @keeps_Forward.
  - apply keeps_bind; [apply keeps_disconnectSender|intros; apply keeps_ret].
  - apply keeps_bind; [apply keeps_loop|intros; apply keeps_ret].
  - apply keeps_bind; [apply keeps_observer_remove|intros; apply keeps_ret].
Qed.

Lemma put_back_ok s p n v : sys_ok s -> heap (state s) !! p = Some n -> winv v -> sys_ok (put_back p n v s).
Proof.
  intros [Hw Hn] En ((Hr & Ht) & Ho). unfold put_back. cbv zeta.
  set (w := with_draws _ _). apply (settle_ok (MkSys w _ _ _) w). split; cbn.
  - apply (elsewhere_ok (state s)); [|exact Hw]. write_elsewhere En.
  - apply nodes_insert; [exact Hn|]. split; [exact Ht|]. split; [exact Ho|]. apply (Hn p n En).
Qed.

Lemma peer_world_winv s n p : sys_ok s -> heap (state s) !! p = Some n -> winv (peer_world s n).
Proof.
  intros [Hw Hn] En. destruct (Hn p n En) as (Ht & Ho & _). split; [|exact Ho]. split; [apply Hw|exact Ht].
Qed.

Lemma on_peer_ok {A} p (m : PS.M A) s s' a : keeps m -> sys_ok s -> on_peer p m s = Some (s', a) -> sys_ok s'.
Proof.
  intros Hm Hs. unfold on_peer. destruct (heap (state s) !! p) as [n|] eqn:En; [|done]. cbn.
  pose proof (Hm _ (peer_world_winv s n p Hs En)) as Hv.
  destruct (m (peer_world s n)) as [[v a']|]; [|done]. intros [= <- _]. by apply put_back_ok.
Qed.

(** A write to the fields that are neither identity nor vital. *)
Lemma store_ok s p f w : (forall n, same_node n (f n)) -> (forall n, node_ok n -> node_ok (f n)) ->
  sys_ok s -> store p f (state s) = Some (w, tt) -> sys_ok (with_state w s).
Proof.
  intros Hf Hk [Hw Hn]. unfold store. destruct (heap (state s) !! p) as [n|] eqn:En; [|done]. intros [= <-].
  split; cbn.
  - apply (elsewhere_ok (state s)); [|exact Hw]. write_elsewhere En.
  - apply nodes_insert; [exact Hn|]. by apply Hk, (Hn p).
Qed.

Lemma receive_parsed s p w pkt : sys_ok s -> receive p (state s) = Some (w, Some pkt) ->
  pkt_parsed pkt /\ sys_ok (with_state w s).
Proof.
  intros Hs. unfold receive. destruct (heap (state s) !! p) as [n|] eqn:En.
  2:{ unfold mbind, T_bind, deref. by rewrite En. }
  rewrite (t_deref p n) by done. destruct (ReceiveCh n) as [|pkt' rest] eqn:Eq; [done|].
  unfold mbind, T_bind. destruct (store p _ (state s)) as [[w1 []]|] eqn:Es; [|done]. intros [= <- <-].
  destruct (sys_nodes s Hs p n En) as (Ht & Ho & Hq). rewrite Eq in Hq. inversion Hq; subst.
  split; [done|]. destruct Hs as [Hw Hn]. unfold store in Es. rewrite En in Es. injection Es as <-.
  split; cbn.
  - apply (elsewhere_ok (state s)); [|exact Hw]. write_elsewhere En.
  - apply nodes_insert; [exact Hn|]. by split_and!.
Qed.

(** The services of the router are such steps. *)
Lemma rok_router_op {A} (m : R A) : rok m -> router_op m.
Proof.
  intros Hm r r' a E Hr. destruct (Hm r Hr) as (r1 & a1 & E1 & Hr1). rewrite E in E1.
  by injection E1 as <- _.
Qed.

Lemma kept_nodes s w : table_ok w -> heap w = heap (state s) -> sys_ok s -> sys_ok (with_state w s).
Proof. intros Hw Eh [_ Hn]. split; [exact Hw|]. intros p n. cbn. rewrite Eh. apply Hn. Qed.

Lemma sys_step_ok s s' : sys_ok s -> sys_step s s' -> sys_ok s'.
Proof.
  intros Hs Hstep. pose proof Hs as [Hw Hn].
  destruct Hstep as [addr w E|addr now e w E|addr w E|addr raddr ldi rdi w r Hb Hl Hr E|p addrs w r E|p w E
    |p w b E|p w E|op id raddr data w turn Hb Hd Hid Hc E|p pkt w Hp E|p s' err E|p m s' err Hm E|A m w a Hm E|l ans rs hs].
  - unfold TrackConfiguredAddress in E. case_bool_decide; [by injection E as <-|].
    destruct (total_result _ _ _ _ _ (track_total _ addr Hw) E) as (Hok & _ & _ & Eh & _).
    by apply kept_nodes.
  - destruct (total_result _ _ _ _ _ (note_total _ addr now e Hw) E) as (Hok & _ & Eh & _). by apply kept_nodes.
  - destruct (total_result _ _ _ _ _ (reset_total _ addr Hw) E) as (Hok & _ & Eh & _). by apply kept_nodes.
  - split; [|by eapply lookup_nodes].
    eapply step_ok; [exact Hw|by eapply st_lookup].
  - apply settle_ok. split; [|by eapply refresh_nodes]. eapply step_ok; [exact Hw|by eapply st_refresh].
  - by apply (store_ok s p (with_reconnectCh true)).
  - revert E. unfold Handle_begin. destruct (heap (state s) !! p) as [n|] eqn:En.
    2:{ unfold mbind, T_bind, deref. by rewrite En. }
    rewrite (t_deref p n) by done. case_match; [by intros [= <- _]|]. case_match; [by intros [= <- _]|].
    unfold mbind, T_bind. destruct (store p _ (state s)) as [[w1 []]|] eqn:Es; [|done]. intros [= <- _].
    by apply (store_ok s p (with_running true)).
  - by apply (store_ok s p (with_running false)).
  - apply settle_ok. destruct (datagram_nodes _ _ _ _ _ _ _ Hw Hc Hb Hd Hid E Hn). by split.
  - revert E. destruct (heap (state s) !! p) as [n|] eqn:En.
    2:{ unfold enqueue, mbind, T_bind, deref. by rewrite En. }
    intros E. destruct (total_result _ _ _ _ _ (enqueue_total p n pkt _ Hw En) E) as (Hok & _ & H).
    destruct (zlen (ReceiveCh n) <? receiveChCap); [|by destruct H].
    destruct H as (_ & _ & _ & _ & Eh). split; [exact Hok|]. cbn. rewrite Eh.
    apply nodes_insert; [exact Hn|]. by apply queued_ok, (Hn p).
  - unfold handle_received in E. destruct (receive p (state s)) as [[w [pkt|]]|] eqn:Er; [|done|done].
    destruct (receive_parsed s p w pkt Hs Er) as (Hp & Hs'). eapply on_peer_ok; [|exact Hs'|exact E].
    by apply keeps_handlePacket.
  - eapply on_peer_ok; [by apply handler_keeps|exact Hs|exact E].
  - apply settle_ok. revert E. unfold inR. destruct (m (routing (state s))) as [[r b]|] eqn:Em; [|done].
    intros [= <- _]. split; [|exact Hn]. apply (elsewhere_ok (state s)); [|exact Hw].
    split; [done|]. split; [intros q; cbn; by destruct (heap (state s) !! q)|].
    by eapply Hm.
  - split; [|exact Hn]. cbn. apply (elsewhere_ok (state s)); [|exact Hw]. by apply elsewhere_same.
Qed.

(** A system as [main] starts it: an empty table of peers. *)
Definition started (s : System) : Prop :=
  heap (state s) = ∅ /\ reachable (table (routing (state s))) /\
  exists cfg rs, NewAURPPeerTable cfg rs = Some (peers (state s)).

Lemma started_ok s : started s -> sys_ok s.
Proof.
  intros (Eh & Hr & cfg & rs & Et). split; [by eapply new_table_ok|]. intros p n. by rewrite Eh, lookup_empty.
Qed.

Lemma reached_ok s0 s : started s0 -> rtc sys_step s0 s -> sys_ok s.
Proof. intros H0%started_ok Hs. induction Hs; eauto using sys_step_ok. Qed.


End Spec.

(** ** Witnesses *)

#[local] Existing Instances ascii_strings insertion_sort wire_multitalk.

Definition wit_s0 : System := MkSys (wit_w0 []) [] [] [].

Lemma wit_started : started wit_s0.
Proof. split; [done|]. split; [exact wit_reachable|]. exists wit_config, [0; 65536; 7]. exact wit_table. Qed.

(** A step that looks a peer up or reads a datagram, as the function it is. *)
Definition sys_lookup (c a : list Z) (d : option DomainIdentifier) (s : System) : System :=
  with_state (run_t (LookupOrCreate c a wit_id d) (state s)) s.
Definition sys_read (a data : list Z) (s : System) : System :=
  with_state (settle (run_t (datagram false wit_id a data) (state s))) s.

Lemma wit_id_wf : di_wf wit_id.
Proof. split; [done|]. repeat constructor; done. Qed.
Lemma wit_ip_bytes k : 0 <= k < 256 -> bytes_ok (wit_ip k).
Proof. intros Hk. repeat (constructor; [unfold u8; lia|]). constructor. Qed.

Lemma sys_lookup_step c a d s s0 : bytes_ok a -> match d with Some d => di_wf d | None => True end ->
  ran_t (LookupOrCreate c a wit_id d) (state s) = true -> rtc sys_step s0 s -> rtc sys_step s0 (sys_lookup c a d s).
Proof.
  intros Ha Hd Hran Hr. eapply rtc_r; [exact Hr|]. destruct (run_t_some _ _ Hran) as [r E].
  eapply sy_lookup; [exact Ha|exact wit_id_wf|exact Hd|exact E].
Qed.
Lemma sys_read_step a data s s0 : bytes_ok a -> bytes_ok data -> config (routing (state s)) <> None ->
  ran_t (datagram false wit_id a data) (state s) = true -> rtc sys_step s0 s -> rtc sys_step s0 (sys_read a data s).
Proof.
  intros Ha Hd Hc Hran Hr. eapply rtc_r; [exact Hr|]. destruct (run_t_some _ _ Hran) as [r E].
  eapply sy_datagram; [exact Ha|exact Hd|exact wit_id_wf|exact Hc|exact E].
Qed.

(** Two peers, and the Open-Req of the second in its queue. *)
Definition wit_s1 : System :=
  sys_lookup wit_name (wit_ip 7) None (sys_lookup [] (wit_ip 5) (Some (IPDomainIdentifier (wit_ip 5))) wit_s0).
Definition wit_s2 : System := sys_read (wit_ip 7) wit_datagram wit_s1.

Lemma wit_run2 : rtc sys_step wit_s0 wit_s2.
Proof.
  unfold wit_s2. apply sys_read_step; [apply wit_ip_bytes; lia|apply wit_datagram_bytes|by vm_compute|by vm_compute|].
  unfold wit_s1. apply sys_lookup_step; [apply wit_ip_bytes; lia|exact I|by vm_compute|].
  apply sys_lookup_step; [apply wit_ip_bytes; lia| |by vm_compute|done].
  split; [done|]. apply wit_ip_bytes; lia.
Qed.


Definition wit_p2 : positive := default 1%positive (peersByConfigured (peers (state wit_s2)) !! wit_name).
Definition wit_n2 : Node := default wit_node (heap (state wit_s2) !! wit_p2).
Definition wit_head : Packet := default wit_open (head (ReceiveCh wit_n2)).

Lemma wit_n2_queue : ReceiveCh wit_n2 = [wit_head].
Proof. vm_compute. reflexivity. Qed.
Lemma wit_n2_at : heap (state wit_s2) !! wit_p2 = Some wit_n2.
Proof. vm_compute. reflexivity. Qed.
Lemma wit_head_ends : pkt_ends (PS.timing (peer wit_n2)) (PS.ident (peer wit_n2)) wit_head.
Proof. vm_compute. exact I. Qed.

