(* ===== verification/GoParse.v ===== *)
(** * Numbers and durations in text: what the configuration uses of the standard
      library's [strconv], [strings] and [time]

    A parsing function returns the number and the error beside it, as in Go.
    [uint64] arithmetic wraps; the fraction of a duration goes through [float64],
    here the IEEE double of [SpecFloat]. *)
From Stdlib Require Import Floats.SpecFloat.
From stdpp Require Import pretty.
From S2P Require Import Prelude.

Module GoParse.

Definition wrap64 (z : Z) : Z := z mod 2 ^ 64.
Definition to_int64 (z : Z) : Z := (z + 2 ^ 63) mod 2 ^ 64 - 2 ^ 63.
Definition i64 (z : Z) : Prop := - 2 ^ 63 <= z < 2 ^ 63.

Definition digit (c : Z) : bool := (48 <=? c) && (c <=? 57).

(** A byte in hexadecimal. *)
Definition hex_digit (d : Z) : Z := if d <? 10 then 48 + d else 87 + d.
Definition hex_byte (b : Z) : list Z := [hex_digit (b / 16); hex_digit (b mod 16)].

(** ** [strings] *)

(** [strings.SplitN(s, sep, 2)] for a separator of one byte. *)
Fixpoint cut (sep : Z) (s : list Z) : list Z * option (list Z) :=
  match s with
  | [] => ([], None)
  | c :: s =>
      if c =? sep then ([], Some s)
      else let '(a, b) := cut sep s in (c :: a, b)
  end.
Definition SplitN2 (s : list Z) (sep : Z) : list (list Z) :=
  match cut sep s with (a, None) => [a] | (a, Some b) => [a; b] end.

(** ** [strconv] in base 10 *)

Definition syntaxError (fn s : list Z) : goerr :=
  Errorf "strconv.%s: parsing %q: invalid syntax" [AStr fn; AStr s].
Definition rangeError (fn s : list Z) : goerr :=
  Errorf "strconv.%s: parsing %q: value out of range" [AStr fn; AStr s].

Inductive NumErr := ErrSyntax | ErrRange.

Fixpoint uint_loop (maxVal n : Z) (s : list Z) : Z * option NumErr :=
  match s with
  | [] => (n, None)
  | c :: s =>
      if negb (digit c) then (0, Some ErrSyntax)
      else if (2 ^ 64 - 1) / 10 + 1 <=? n then (maxVal, Some ErrRange)
      else
        let n := wrap64 (n * 10) in
        let n1 := wrap64 (n + (c - 48)) in
        if (n1 <? n) || (maxVal <? n1) then (maxVal, Some ErrRange)
        else uint_loop maxVal n1 s
  end.
Definition parse_uint (s : list Z) (bitSize : Z) : Z * option NumErr :=
  match s with [] => (0, Some ErrSyntax) | _ => uint_loop (2 ^ bitSize - 1) 0 s end.

Definition num_error (fn s : list Z) (e : NumErr) : goerr :=
  match e with ErrSyntax => syntaxError fn s | ErrRange => rangeError fn s end.

(** [strconv.ParseUint(s, 10, bitSize)]. *)
Definition ParseUint (s : list Z) (bitSize : Z) : Z * option goerr :=
  let '(n, err) := parse_uint s bitSize in (n, num_error (str "ParseUint") s <$> err).

(** [strconv.ParseInt(s, 10, 64)]. *)
Definition ParseInt (s : list Z) : Z * option goerr :=
  let fn := str "ParseInt" in
  match s with
  | [] => (0, Some (syntaxError fn s))
  | c :: rest =>
      let neg := c =? 45 in
      let digits := if (c =? 43) || neg then rest else s in
      let '(un, err) := parse_uint digits 64 in
      match err with
      | Some ErrSyntax => (0, Some (syntaxError fn s))
      | _ =>
          let cutoff := 2 ^ 63 in
          if negb neg && (cutoff <=? un) then (cutoff - 1, Some (rangeError fn s))
          else if neg && (cutoff <? un) then (- cutoff, Some (rangeError fn s))
          else (if neg then - un else un, None)
      end
  end.

(** ** [time.ParseDuration] *)

Definition Nanosecond : Z := 1.
Definition Microsecond : Z := 1000 * Nanosecond.
Definition Millisecond : Z := 1000 * Microsecond.
Definition Second : Z := 1000 * Millisecond.
Definition Minute : Z := 60 * Second.
Definition Hour : Z := 60 * Minute.

(** The micro sign and the Greek letter mu in UTF-8. *)
Definition unitMap : list (list Z * Z) :=
  [(str "ns", Nanosecond); (str "us", Microsecond); ([194; 181; 115], Microsecond);
   ([206; 188; 115], Microsecond); (str "ms", Millisecond); (str "s", Second); (str "m", Minute);
   (str "h", Hour)].

Definition unit_of (u : list Z) : option Z :=
  snd <$> List.find (fun e => bool_decide (fst e = u)) unitMap.

(** [leadingInt]: the number and the rest, or an overflow. *)
Fixpoint leading_loop (x : Z) (s : list Z) : option (Z * list Z) :=
  match s with
  | c :: s' =>
      if negb (digit c) then Some (x, s)
      else if 2 ^ 63 / 10 <? x then None
      else
        let x := wrap64 (x * 10 + c - 48) in
        if 2 ^ 63 <? x then None else leading_loop x s'
  | [] => Some (x, [])
  end.
Definition leadingInt (s : list Z) : option (Z * list Z) := leading_loop 0 s.

Definition float := spec_float.
Definition float64 (z : Z) : float := binary_normalize 53 1024 z 0 false.
Definition fmul : float -> float -> float := SFmul 53 1024.
Definition fdiv : float -> float -> float := SFdiv 53 1024.
(** [uint64(f)] of a finite non-negative number below 2^64. *)
Definition uint64_of (f : float) : Z :=
  match f with S754_finite false m e => Z.shiftl (Z.pos m) e | _ => 0 end.

Fixpoint fraction_loop (x : Z) (scale : float) (overflow : bool) (s : list Z) : Z * float * list Z :=
  match s with
  | c :: s' =>
      if negb (digit c) then (x, scale, s)
      else if overflow then fraction_loop x scale true s'
      else if (2 ^ 63 - 1) / 10 <? x then fraction_loop x scale true s'
      else
        let y := wrap64 (x * 10 + c - 48) in
        if 2 ^ 63 <? y then fraction_loop x scale true s'
        else fraction_loop y (fmul scale (float64 10)) false s'
  | [] => (x, scale, [])
  end.
Definition leadingFraction (s : list Z) : Z * float * list Z := fraction_loop 0 (float64 1) false s.

(** The bytes up to the next digit or period. *)
Fixpoint span_unit (s : list Z) : list Z * list Z :=
  match s with
  | c :: s' =>
      if (c =? 46) || digit c then ([], s) else let '(u, rest) := span_unit s' in (c :: u, rest)
  | [] => ([], [])
  end.

Definition invalid (orig : list Z) : goerr := Errorf "time: invalid duration %q" [AStr orig].

(** One number with its unit, in nanoseconds, and the rest. *)
Definition duration_term (orig s : list Z) : goerr + (Z * list Z) :=
  match s with
  | [] => inl (invalid orig)
  | c :: _ =>
      if negb ((c =? 46) || digit c) then inl (invalid orig)
      else match leadingInt s with
      | None => inl (invalid orig)
      | Some (v, s1) =>
          let pre := negb (zlen s =? zlen s1) in
          let '(f, scale, s2, post) :=
            match s1 with
            | 46 :: s1' =>
                let '(f, scale, s2) := leadingFraction s1' in
                (f, scale, s2, negb (zlen s1' =? zlen s2))
            | _ => (0, float64 1, s1, false)
            end in
          if negb pre && negb post then inl (invalid orig)
          else
            let '(u, s3) := span_unit s2 in
            match u with
            | [] => inl (Errorf "time: missing unit in duration %q" [AStr orig])
            | _ =>
                match unit_of u with
                | None => inl (Errorf "time: unknown unit %q in duration %q" [AStr u; AStr orig])
                | Some unit =>
                    if 2 ^ 63 / unit <? v then inl (invalid orig)
                    else
                      let v := v * unit in
                      let v :=
                        if 0 <? f
                        then v + uint64_of (fmul (float64 f) (fdiv (float64 unit) scale))
                        else v in
                      if (0 <? f) && (2 ^ 63 <? v) then inl (invalid orig) else inr (v, s3)
                end
            end
      end
  end.

(** The loop; every turn reads at least a byte. *)
Fixpoint duration_loop (fuel : nat) (orig : list Z) (d : Z) (s : list Z) : goerr + Z :=
  match s, fuel with
  | [], _ => inr d
  | _, O => inl (invalid orig)
  | _, S fuel =>
      match duration_term orig s with
      | inl e => inl e
      | inr (v, rest) =>
          let d := wrap64 (d + v) in
          if 2 ^ 63 <? d then inl (invalid orig) else duration_loop fuel orig d rest
      end
  end.

Definition ParseDuration (orig : list Z) : goerr + Z :=
  let neg := match orig with c :: _ => c =? 45 | [] => false end in
  let s := match orig with c :: rest => if (c =? 45) || (c =? 43) then rest else orig | [] => [] end in
  if bool_decide (s = str "0") then inr 0
  else match s with
  | [] => inl (invalid orig)
  | _ =>
      match duration_loop (length s) orig 0 s with
      | inl e => inl e
      | inr d =>
          if neg then inr (to_int64 (- d))
          else if 2 ^ 63 - 1 <? d then inl (invalid orig)
          else inr d
      end
  end.

(** ** Examples *)

Example parse_u16 : ParseUint (str "65279") 16 = (65279, None) /\
  ParseUint (str "65536") 16 = (65535, Some (rangeError (str "ParseUint") (str "65536"))).
Proof. by vm_compute. Qed.

Example parse_durations :
  ParseDuration (str "1m30s") = inr (90 * Second) /\ ParseDuration (str "1.5h") = inr (90 * Minute) /\
  ParseDuration (str "-250ms") = inr (-250 * Millisecond) /\
  ParseDuration (str "0.3s") = inr 300000000.
Proof. vm_compute. done. Qed.
End GoParse.

Import GoParse.

(** * Lemmas *)

Lemma digit_spec c : digit c = true <-> 48 <= c <= 57.
Proof. unfold digit. zbool. lia. Qed.

(** Quotient [q] and remainder [r] of a number by ten. *)
Ltac by_ten x q r :=
  pose proof (N.div_mod x 10 ltac:(done)); pose proof (N.mod_lt x 10 ltac:(done));
  set (q := (x / 10)%N) in *; set (r := (x mod 10)%N) in *; clearbody q r.

(** The decimal digits of a number, before [s]. *)
Definition digits_before (x : N) (s : string) : list Z := str (pretty_N_go x s).

Lemma digits_step x s : (0 < x)%N ->
  digits_before x s = digits_before (x / 10) (String (pretty_N_char (x mod 10)) s).
Proof. intros. unfold digits_before. by rewrite pretty_N_go_step. Qed.

Lemma char_byte r : (r < 10)%N -> Z.of_N (Ascii.N_of_ascii (pretty_N_char r)) = 48 + Z.of_N r.
Proof.
  intros H. assert (r = 0 \/ r = 1 \/ r = 2 \/ r = 3 \/ r = 4 \/ r = 5 \/ r = 6 \/ r = 7 \/ r = 8 \/ r = 9)%N
    as Hr by lia. by destruct_or! Hr; subst.
Qed.

(** What a loop over digits does to the decimal digits of a number, from what it
    does to one digit. *)
Lemma digits_loop {A} (loop : Z -> list Z -> A) (max : Z) :
  (forall x c s, 0 <= x -> 48 <= c <= 57 -> x * 10 + (c - 48) <= max ->
    loop x (c :: s) = loop (x * 10 + (c - 48)) s) ->
  forall x s, Z.of_N x <= max -> loop 0 (digits_before x s) = loop (Z.of_N x) (str s).
Proof.
  intros Hstep x. induction (N.lt_wf_0 x) as [x _ IH]. intros s Hx.
  destruct (decide (x = 0%N)) as [->|Hne]; [done|].
  rewrite digits_step by lia. by_ten x q r.
  rewrite IH; [|lia..]. cbn [str].
  rewrite char_byte by done. rewrite Hstep; [|lia..]. f_equal. lia.
Qed.

Lemma str_pretty n : 0 < n -> str (pretty n) = digits_before (Z.to_N n) "".
Proof.
  intros H. by destruct n as [|p|p]; try lia.
Qed.

Lemma digits_head x s : (0 < x)%N -> exists c rest, 48 <= c <= 57 /\ digits_before x s = c :: rest.
Proof.
  revert s. induction (N.lt_wf_0 x) as [x _ IH]. intros s Hx. rewrite digits_step by done.
  by_ten x q r. destruct (decide (q = 0)%N) as [->|Hne].
  - exists (48 + Z.of_N r), (str s). split; [lia|]. unfold digits_before.
    rewrite pretty_N_go_0. cbn [str]. by rewrite char_byte.
  - apply IH; lia.
Qed.

Lemma pretty_head n : 0 <= n -> exists c rest, 48 <= c <= 57 /\ str (pretty n) = c :: rest.
Proof.
  intros H. destruct (decide (n = 0)) as [->|]; [by exists 48, []|].
  rewrite str_pretty by lia. apply digits_head. lia.
Qed.

Lemma digits_all x s : Forall (fun c => 48 <= c <= 57) (str s) ->
  Forall (fun c => 48 <= c <= 57) (digits_before x s).
Proof.
  revert s. induction (N.lt_wf_0 x) as [x _ IH]. intros s Hs.
  destruct (decide (x = 0%N)) as [->|Hne]; [done|]. rewrite digits_step by lia.
  by_ten x q r. apply IH; [lia|]. cbn [str]. constructor; [|done]. rewrite char_byte by done. lia.
Qed.

Lemma pretty_digits n : 0 <= n -> Forall (fun c => 48 <= c <= 57) (str (pretty n)).
Proof.
  intros H. destruct (decide (n = 0)) as [->|]; [by repeat constructor|].
  rewrite str_pretty by lia. by apply digits_all.
Qed.

(** ** [strconv] *)

Lemma uint_step max x c s : max < 2 ^ 64 -> 0 <= x -> 48 <= c <= 57 -> x * 10 + (c - 48) <= max ->
  uint_loop max x (c :: s) = uint_loop max (x * 10 + (c - 48)) s.
Proof.
  intros Hmax Hx Hc Hle. cbn [uint_loop]. rewrite (proj2 (digit_spec c)) by done. cbn [negb].
  change ((2 ^ 64 - 1) / 10 + 1) with 1844674407370955162. change (2 ^ 64) with 18446744073709551616 in *.
  destruct (Z.leb_spec 1844674407370955162 x); [lia|]. cbv zeta. unfold wrap64.
  change (2 ^ 64) with 18446744073709551616. rewrite (Z.mod_small (x * 10)), Z.mod_small by lia.
  destruct (Z.ltb_spec (x * 10 + (c - 48)) (x * 10)); [lia|].
  by destruct (Z.ltb_spec max (x * 10 + (c - 48))); [lia|].
Qed.

Lemma parse_uint_decimal n bits : 0 <= bits <= 64 -> 0 <= n < 2 ^ bits ->
  parse_uint (str (pretty n)) bits = (n, None).
Proof.
  intros Hb Hn. destruct (pretty_head n) as (c & rest & _ & E); [lia|]. unfold parse_uint.
  rewrite E, <- E.
  pose proof (Z.pow_le_mono_r 2 bits 64 ltac:(lia) ltac:(lia)). destruct (decide (n = 0)) as [->|].
  { change (str (pretty 0)) with [48]. rewrite uint_step; [done|lia..]. }
  rewrite str_pretty by lia.
  rewrite (digits_loop (uint_loop (2 ^ bits - 1)) (2 ^ bits - 1)); [by rewrite Z2N.id by lia| |lia].
  intros. apply uint_step; lia.
Qed.

(** A number parsed without an error fits. *)
Lemma uint_loop_range max n s m : max < 2 ^ 64 -> 0 <= n <= max -> uint_loop max n s = (m, None) -> 0 <= m <= max.
Proof.
  intros Hmax. revert n. induction s as [|c s IH]; intros n Hn; cbn [uint_loop]; [by intros [= <-]|].
  destruct (negb (digit c)); [done|]. destruct (_ <=? n); [done|]. cbv zeta.
  destruct (_ || _) eqn:E; [done|]. apply IH. apply orb_false_iff in E as [_ E%Z.ltb_ge].
  split; [apply Z.mod_pos_bound; lia|exact E].
Qed.
Lemma parse_uint_range s bits n : 0 <= bits <= 64 -> parse_uint s bits = (n, None) -> 0 <= n < 2 ^ bits.
Proof.
  intros Hb. unfold parse_uint. destruct s; [done|]. intros H.
  pose proof (Z.pow_le_mono_r 2 bits 64). pose proof (Z.pow_pos_nonneg 2 bits).
  apply uint_loop_range in H; lia.
Qed.

(** ** [strings] *)

Lemma cut_here sep a b : Forall (fun c => c <> sep) a -> cut sep (a ++ sep :: b) = (a, Some b).
Proof.
  induction 1 as [|c a Hc _ IH]; cbn [cut app]; [by rewrite Z.eqb_refl|].
  rewrite (proj2 (Z.eqb_neq c sep)) by done. by rewrite IH.
Qed.
Lemma cut_none sep a : Forall (fun c => c <> sep) a -> cut sep a = (a, None).
Proof.
  induction 1 as [|c a Hc _ IH]; cbn [cut]; [done|]. rewrite (proj2 (Z.eqb_neq c sep)) by done. by rewrite IH.
Qed.

(** ** [time.ParseDuration] *)

Lemma leading_step x c s : 0 <= x -> 48 <= c <= 57 -> x * 10 + (c - 48) <= 2 ^ 63 ->
  leading_loop x (c :: s) = leading_loop (x * 10 + (c - 48)) s.
Proof.
  intros Hx Hc Hle. cbn [leading_loop]. rewrite (proj2 (digit_spec c)) by done. cbn [negb].
  change (2 ^ 63 / 10) with 922337203685477580. change (2 ^ 63) with 9223372036854775808 in *.
  destruct (Z.ltb_spec 922337203685477580 x); [lia|]. cbv zeta. unfold wrap64.
  change (2 ^ 64) with 18446744073709551616. rewrite Z.mod_small by lia.
  replace (x * 10 + c - 48) with (x * 10 + (c - 48)) by lia.
  by destruct (Z.ltb_spec 9223372036854775808 (x * 10 + (c - 48))); [lia|].
Qed.

Lemma digits_app x s : digits_before x s = digits_before x "" ++ str s.
Proof.
  assert (Hg : forall x s t, pretty_N_go x (s +:+ t) = pretty_N_go x s +:+ t).
  { clear. intros x. induction (N.lt_wf_0 x) as [x _ IH]. intros s t.
    destruct (decide (x = 0%N)) as [->|Hne]; [done|]. rewrite !(pretty_N_go_step x) by lia.
    rewrite <- IH by (apply N.div_lt; lia). done. }
  assert (Hs : forall s t, str (s +:+ t) = str s ++ str t).
  { clear. induction s as [|c s IH]; intros t; [done|]. cbn. by rewrite <- IH. }
  unfold digits_before. by rewrite <- Hs, <- Hg.
Qed.

Lemma pretty_loop {A} (loop : Z -> list Z -> A) (max : Z) :
  (forall x c s, 0 <= x -> 48 <= c <= 57 -> x * 10 + (c - 48) <= max ->
    loop x (c :: s) = loop (x * 10 + (c - 48)) s) ->
  forall n s, 0 <= n <= max -> loop 0 (str (pretty n) ++ str s) = loop n (str s).
Proof.
  intros Hstep n s Hn. destruct (decide (n = 0)) as [->|Hne].
  - change (str (pretty 0) ++ str s) with (48 :: str s). rewrite Hstep by lia. done.
  - rewrite str_pretty, <- digits_app, (digits_loop loop max Hstep) by lia. by rewrite Z2N.id by lia.
Qed.

(** A number that the loop accepts on the way, and the first that it refuses. *)
Lemma leading_above n s : 2 ^ 63 < n < 2 ^ 63 * 10 -> leadingInt (str (pretty n) ++ str s) = None.
Proof.
  intros Hn. set (q := n / 10). set (r := n mod 10).
  assert (Hq : n = 10 * q + r /\ 0 <= r < 10) by (split; [apply Z.div_mod; lia|apply Z.mod_pos_bound; lia]).
  assert (E : str (pretty n) ++ str s = str (pretty q) ++ (48 + r) :: str s).
  { rewrite (str_pretty n), (str_pretty q), <- (digits_app _ s) by lia.
    rewrite digits_step by lia.
    replace (Z.to_N n / 10)%N with (Z.to_N q) by (by unfold q; rewrite Z2N.inj_div by lia).
    replace (Z.to_N n mod 10)%N with (Z.to_N r) by (by unfold r; rewrite Z2N.inj_mod by lia).
    rewrite digits_app. cbn [str]. rewrite char_byte by lia. by rewrite Z2N.id by lia. }
  rewrite E. unfold leadingInt. change (2 ^ 63) with 9223372036854775808 in *.
  pose proof (pretty_loop leading_loop (2 ^ 63) leading_step q (String (pretty_N_char (Z.to_N r)) s)) as HL.
  cbn [str] in HL. rewrite char_byte, Z2N.id in HL by lia. rewrite HL by lia.
  cbn [leading_loop]. rewrite (proj2 (digit_spec _)) by lia. cbn [negb].
  change (2 ^ 63 / 10) with 922337203685477580.
  destruct (Z.ltb_spec 922337203685477580 q); [done|]. cbv zeta. unfold wrap64.
  change (2 ^ 64) with 18446744073709551616. rewrite Z.mod_small by lia. change (2 ^ 63) with 9223372036854775808.
  by destruct (Z.ltb_spec 9223372036854775808 (q * 10 + (48 + r) - 48)); [|lia].
Qed.
