(* ===== verification/Config.v ===== *)
(** * The configuration file ([router/config.go])

    The YAML library is an interface: a node with its kind, tag and value, and
    what [Decode] makes of one.  The [UnmarshalYAML] methods are functions on
    nodes, [LoadConfig] a function of the contents of the file.  A null entry
    in the list of ports is a nil pointer, [None] of a port; [None] of
    [LoadConfig] is the panic of a nil dereference.  The errors are kept as the
    list [errors.Join] is called with: it gives nil for the empty list. *)
From S2P Require Import Prelude Wtacc AurpHeaders AurpTuples AurpZoneInfo AurpPacket AurpTransport.
From S2P Require Import PeerPolicy GoSort RouteTable RouteExport PeerState AtalkNbp Atalk DdpPolicy.
From S2P Require Import Seed LoopProbe Router PeerTable GoParse.
Import Policy GoParse.

Module Config.

(** ** Data *)

Definition SeedModeHard : list Z := str "hard".
Definition SeedModeSoft : list Z := str "soft".
Definition SeedModeNone : list Z := str "none".

Record EtherTalkConfig := MkEtherTalk {
  SeedMode : list Z; SoftSeedDelay : Z; EthAddr : list Z; Device : list Z;
  DefaultZoneName : list Z; ExtraZones : list (list Z); NetStart : Z; NetEnd : Z }.

Record Config := MkConfig {
  ListenPort : Z; MonitoringAddr : list Z; LocalIP : list Z;
  EtherTalk : list (option EtherTalkConfig); OpenPeering : bool; AURP : AURPConfig;
  Peers : list (list Z); PeerListURL : list Z }.

(** The struct [raw] of [AURPConfig.UnmarshalYAML]. *)
Record RawAURP := {
  raw_LastHeardFromTimeout : Z; raw_RetryInterval : Z; raw_SendRetryLimit : Z;
  raw_TickleRetryLimit : Z; raw_ZoneInfoRetryInterval : Z; raw_UpdateInterval : Z;
  raw_HiddenNetworks : list AURPNetworkRange; raw_HopCountReduction : bool;
  raw_HopCountWeight : Z; raw_RemapRules : list AURPRemapRule;
  raw_HiddenDevices : list AURPDeviceHideRule; raw_Clusters : list AURPClusterRule;
  raw_BackupPeers : list AURPBackupPeerRule; raw_HiddenImportNetworks : list AURPHideRule;
  raw_HiddenExportNetworks : list AURPHideRule }.

(** ... and that of [EtherTalkConfig.UnmarshalYAML]. *)
Record RawEtherTalk := {
  raw_SeedMode : list Z; raw_SoftSeedDelay : Z; raw_EthAddr : list Z; raw_Device : list Z;
  raw_DefaultZoneName : list Z; raw_ExtraZones : list (list Z); raw_NetStart : Z; raw_NetEnd : Z }.

(** ** The YAML library *)

Inductive Kind := DocumentNode | SequenceNode | MappingNode | ScalarNode | AliasNode.

#[global] Instance Kind_eq_dec : EqDecision Kind.
Proof. solve_decision. Defined.

Class Yaml := {
  Node : Type;
  node_Kind : Node -> Kind;
  node_Tag : Node -> list Z;
  node_Value : Node -> list Z;
  kind_number : Kind -> Z;
  decode_aurp : Node -> goerr + RawAURP;
  decode_ethertalk : Node -> goerr + RawEtherTalk;
  decode_ports : Node -> goerr + list (option EtherTalkConfig);
  decode_config : list Z -> goerr + Config }.

Section Yaml.
Context {GStr : GoStrings} {Y : Yaml}.

(** ** [UnmarshalYAML] *)

Definition EtherTalkConfig_UnmarshalYAML (n : Node) : goerr + EtherTalkConfig :=
  match decode_ethertalk n with
  | inl e => inl e
  | inr raw =>
      inr {| SeedMode := raw_SeedMode raw; SoftSeedDelay := raw_SoftSeedDelay raw;
             EthAddr := raw_EthAddr raw; Device := raw_Device raw;
             DefaultZoneName := raw_DefaultZoneName raw; ExtraZones := raw_ExtraZones raw;
             NetStart := raw_NetStart raw; NetEnd := raw_NetEnd raw |}
  end.

(** On the ports [cs] there are. *)
Definition EtherTalkConfigs_UnmarshalYAML (cs : list (option EtherTalkConfig)) (n : Node) :
    goerr + list (option EtherTalkConfig) :=
  match node_Kind n with
  | SequenceNode => decode_ports n
  | MappingNode =>
      match EtherTalkConfig_UnmarshalYAML n with
      | inl e => inl e
      | inr v => inr (cs ++ [Some v])
      end
  | kind =>
      inl (Errorf "invalid YAML kind for 'ethertalk' %v, want either a sequence or a mapping"
             [AInt (kind_number kind)])
  end.

Definition YAMLDuration_UnmarshalYAML (n : Node) : goerr + Z :=
  if negb (bool_decide (node_Kind n = ScalarNode)) then
    inl (Errorf "duration must be a scalar, got YAML kind %v" [AInt (kind_number (node_Kind n))])
  else if bool_decide (node_Tag n = str "!!int") then
    match ParseInt (node_Value n) with
    | (_, Some err) => inl (Wrapf "invalid duration seconds %q: %w" [AStr (node_Value n)] err)
    | (seconds, None) => inr (to_int64 (seconds * Second))
    end
  else
    match ParseDuration (node_Value n) with
    | inl err => inl (Wrapf "invalid duration %q: %w" [AStr (node_Value n)] err)
    | inr v => inr v
    end.

(** The closure [parse]. *)
Definition parse_network (s : list Z) : goerr + Z :=
  match ParseUint (TrimSpace s) 16 with
  | (_, Some err) => inl (Wrapf "invalid AppleTalk network %q: %w" [AStr s] err)
  | (v, None) =>
      let network := wrap16 v in
      if (network =? 0) || (0xff00 <=? network) then
        inl (Errorf "AppleTalk network %d is not valid for AURP hiding" [AInt network])
      else inr network
  end.

Definition parse_range (value : list Z) : goerr + AURPNetworkRange :=
  let parts := SplitN2 (TrimSpace value) 45 in
  match parse_network (hd [] parts) with
  | inl e => inl e
  | inr start =>
      match (match parts with [_; second] => parse_network second | _ => inr start end) with
      | inl e => inl e
      | inr end_ =>
          if end_ <? start then
            inl (Errorf "AURP hidden network range is reversed (%d-%d)" [AInt start; AInt end_])
          else inr {| nr_Start := start; nr_End := end_ |}
      end
  end.

Definition AURPNetworkRange_UnmarshalYAML (n : Node) : goerr + AURPNetworkRange :=
  if negb (bool_decide (node_Kind n = ScalarNode)) then
    inl (Errorf "AURP network range must be a scalar, got YAML kind %v" [AInt (kind_number (node_Kind n))])
  else parse_range (node_Value n).

Definition AURPConfig_UnmarshalYAML (n : Node) : goerr + AURPConfig :=
  match decode_aurp n with
  | inl e => inl e
  | inr raw =>
      inr {| LastHeardFromTimeout := raw_LastHeardFromTimeout raw;
             RetryInterval := raw_RetryInterval raw;
             SendRetryLimit := raw_SendRetryLimit raw;
             TickleRetryLimit := raw_TickleRetryLimit raw;
             ZoneInfoRetryInterval := raw_ZoneInfoRetryInterval raw;
             UpdateInterval := raw_UpdateInterval raw;
             HiddenNetworks := raw_HiddenNetworks raw;
             HopCountReduction := raw_HopCountReduction raw;
             HopCountWeight := raw_HopCountWeight raw;
             RemapRules := raw_RemapRules raw;
             HiddenDevices := raw_HiddenDevices raw;
             Clusters := raw_Clusters raw;
             BackupPeers := raw_BackupPeers raw;
             HiddenImportNetworks := raw_HiddenImportNetworks raw;
             HiddenExportNetworks := raw_HiddenExportNetworks raw |}
  end.

(** ** Validation

    Each loop of [LoadConfig] as the errors it appends. *)

Definition check (b : bool) (e : goerr) : list goerr := if b then [e] else [].

(** [for i, x := range xs]. *)
Definition indexed {A} (f : Z -> A -> list goerr) (xs : list A) : list goerr :=
  concat (imap (fun i x => f (Z.of_nat i) x) xs).

(** [for i := range xs { for j := i + 1; ... }]. *)
Fixpoint pairs_from {A} (f : Z -> Z -> A -> A -> list goerr) (i : Z) (xs : list A) : list goerr :=
  match xs with
  | [] => []
  | a :: rest =>
      concat (imap (fun k b => f i (i + 1 + Z.of_nat k) a b) rest) ++ pairs_from f (i + 1) rest
  end.
Definition pairs {A} (f : Z -> Z -> A -> A -> list goerr) (xs : list A) : list goerr := pairs_from f 0 xs.

Definition timing_errors (c : AURPConfig) : list goerr :=
  check (LastHeardFromTimeout c <? 30 * PS.second)
    (Errorf "aurp.last_heard_from_timeout must be at least 30s, got %v" [AInt (LastHeardFromTimeout c)]) ++
  check (RetryInterval c <? 2 * PS.second)
    (Errorf "aurp.retry_interval must be at least 2s, got %v" [AInt (RetryInterval c)]) ++
  check (SendRetryLimit c <=? 0)
    (Errorf "aurp.send_retry_limit must be positive, got %d" [AInt (SendRetryLimit c)]) ++
  check (TickleRetryLimit c <=? 0)
    (Errorf "aurp.tickle_retry_limit must be positive, got %d" [AInt (TickleRetryLimit c)]) ++
  check (ZoneInfoRetryInterval c <=? 0)
    (Errorf "aurp.zone_info_retry_interval must be positive, got %v" [AInt (ZoneInfoRetryInterval c)]) ++
  (if UpdateInterval c <? PS.updateRateUnit then
     [Errorf "aurp.update_interval must be at least %v, got %v" [AInt PS.updateRateUnit; AInt (UpdateInterval c)]]
   else if negb (Z.rem (UpdateInterval c) PS.updateRateUnit =? 0) then
     [Errorf "aurp.update_interval must be a multiple of %v, got %v" [AInt PS.updateRateUnit; AInt (UpdateInterval c)]]
   else if 0x7fff <? Z.quot (UpdateInterval c) PS.updateRateUnit then
     [Errorf "aurp.update_interval is too large for the Open-Rsp rate field: %v" [AInt (UpdateInterval c)]]
   else []) ++
  check (RT.maxRouteDistance <=? HopCountWeight c)
    (Errorf "aurp.hop_count_weight must be less than %d, got %d" [AInt RT.maxRouteDistance; AInt (HopCountWeight c)]).

Definition remap_error (i : Z) (rule : AURPRemapRule) : list goerr :=
  let remoteSize := RemoteEnd rule - RemoteStart rule in
  let localSize := LocalEnd rule - LocalStart rule in
  if (RemoteStart rule =? 0) || (LocalStart rule =? 0) then
    [Errorf "aurp.remap[%d] may not use network 0" [AInt i]]
  else if RemoteEnd rule <? RemoteStart rule then
    [Errorf "aurp.remap[%d] remote range is reversed (%d-%d)"
       [AInt i; AInt (RemoteStart rule); AInt (RemoteEnd rule)]]
  else if LocalEnd rule <? LocalStart rule then
    [Errorf "aurp.remap[%d] local range is reversed (%d-%d)"
       [AInt i; AInt (LocalStart rule); AInt (LocalEnd rule)]]
  else if negb (remoteSize =? localSize) then
    [Errorf "aurp.remap[%d] ranges have different sizes" [AInt i]]
  else if (0xff00 <=? LocalStart rule) || (0xff00 <=? LocalEnd rule) then
    [Errorf "aurp.remap[%d] local range overlaps the Phase 2 startup range" [AInt i]]
  else [].

Definition hide_error (fmt : string) (i : Z) (hidden : AURPHideRule) : list goerr :=
  check ((hr_Start hidden =? 0) || (hr_End hidden <? hr_Start hidden) || (0xff00 <=? hr_End hidden))
    (Errorf fmt [AInt i; AInt (hr_Start hidden); AInt (hr_End hidden)]).

Definition import_error : Z -> AURPHideRule -> list goerr :=
  hide_error "aurp.hidden_import_networks[%d] has invalid range %d-%d".
Definition export_error : Z -> AURPHideRule -> list goerr :=
  hide_error "aurp.hidden_export_networks[%d] has invalid range %d-%d".

Definition backup_error (i : Z) (backup : AURPBackupPeerRule) : list goerr :=
  check (bool_decide (TrimSpace (bp_Peer backup) = []))
    (Errorf "aurp.backup_peers[%d] requires a peer selector" [AInt i]) ++
  check ((bp_Penalty backup =? 0) || (RT.maxRouteDistance <=? bp_Penalty backup))
    (Errorf "aurp.backup_peers[%d] penalty must be between 1 and %d, got %d"
       [AInt i; AInt (RT.maxRouteDistance - 1); AInt (bp_Penalty backup)]).

(** [for n := cluster.Start; n <= cluster.End; n++] with a [uint16]: the first
    network no rule covers; [None] when the fuel does not suffice. *)
Fixpoint uncovered_loop (rules : list AURPRemapRule) (fuel : nat) (n end_ : Z) : option (option Z) :=
  match fuel with
  | O => None
  | S fuel =>
      if negb (n <=? end_) then Some None
      else if existsb (fun rule => contains (localRange rule) n) rules
           then uncovered_loop rules fuel (wrap16 (n + 1)) end_
           else Some (Some n)
  end.

(** [None]: the loop does not end. *)
Definition cluster_error (rules : list AURPRemapRule) (i : Z) (cluster : AURPClusterRule) :
    option (list goerr) :=
  if (cl_Start cluster =? 0) || (cl_End cluster <? cl_Start cluster) || (0xff00 <=? cl_End cluster) then
    Some [Errorf "aurp.clusters[%d] has invalid range %d-%d" [AInt i; AInt (cl_Start cluster); AInt (cl_End cluster)]]
  else
    match uncovered_loop rules (Z.to_nat 65536) (cl_Start cluster) (cl_End cluster) with
    | None => None
    | Some None => Some []
    | Some (Some n) =>
        Some [Errorf "aurp.clusters[%d] network %d is not covered by a remap rule" [AInt i; AInt n]]
    end.

Fixpoint cluster_errors (rules : list AURPRemapRule) (i : Z) (clusters : list AURPClusterRule) :
    option (list goerr) :=
  match clusters with
  | [] => Some []
  | cluster :: clusters =>
      errs ← cluster_error rules i cluster;
      rest ← cluster_errors rules (i + 1) clusters;
      Some (errs ++ rest)
  end.

Definition cluster_pair_error (i j : Z) (a b : AURPClusterRule) : list goerr :=
  check (cluster_contains a (cl_Start b) || cluster_contains b (cl_Start a))
    (Errorf "aurp.clusters[%d] and aurp.clusters[%d] overlap" [AInt i; AInt j]).

Definition device_error (i : Z) (rule : AURPDeviceHideRule) : list goerr :=
  let direction := ToLower (TrimSpace (dh_Direction rule)) in
  check (negb (bool_decide (direction = []) || bool_decide (direction = str "both") ||
               bool_decide (direction = str "import") || bool_decide (direction = str "export")))
    (Errorf "aurp.hidden_devices[%d] direction %q must be import, export, or both"
       [AInt i; AStr (dh_Direction rule)]).

Definition remap_pair_error (i j : Z) (a b : AURPRemapRule) : list goerr :=
  check (overlaps (localRange a) (LocalStart b) (LocalEnd b))
    (Errorf "aurp.remap[%d] and aurp.remap[%d] local ranges overlap" [AInt i; AInt j]) ++
  check (EqualFold (rr_Peer a) (rr_Peer b) && overlaps (remoteRange a) (RemoteStart b) (RemoteEnd b))
    (Errorf "aurp.remap[%d] and aurp.remap[%d] remote ranges overlap for peer %q" [AInt i; AInt j; AStr (rr_Peer a)]).

(** *** Ports *)

(** The fields of a port that the loop sets. *)
Definition port_defaults (port : EtherTalkConfig) : EtherTalkConfig :=
  let mode := if bool_decide (SeedMode port = []) then SeedModeHard else SeedMode port in
  {| SeedMode := ToLower mode;
     SoftSeedDelay := if SoftSeedDelay port =? 0 then 30 * PS.second else SoftSeedDelay port;
     EthAddr := EthAddr port; Device := Device port; DefaultZoneName := DefaultZoneName port;
     ExtraZones := ExtraZones port; NetStart := NetStart port; NetEnd := NetEnd port |}.

Definition extra_zone_errors (port : EtherTalkConfig) (zn : list Z) : list goerr :=
  check (32 <? zlen zn)
    (Errorf "port %q extra zone name %q (length %d) is too long; cannot be more than 32 characters"
       [AStr (Device port); AStr zn; AInt (zlen zn)]) ++
  check (bool_decide (zn = []) || bool_decide (zn = str "*"))
    (Errorf "port %q zone name %q is invalid; cannot be empty or *" [AStr (Device port); AStr (DefaultZoneName port)]).

Definition range_errors (port : EtherTalkConfig) : list goerr :=
  check (NetEnd port <? NetStart port)
    (Errorf "the network number range used for port %q is backwards (start %d > end %d)"
       [AStr (Device port); AInt (NetStart port); AInt (NetEnd port)]) ++
  check ((NetStart port =? 0xffff) || (NetEnd port =? 0xffff))
    (Errorf "invalid network number 65535 used for port %q" [AStr (Device port)]) ++
  check ((0xff00 <=? NetStart port) && (NetStart port <=? 0xfffe) ||
         (0xff00 <=? NetEnd port) && (NetEnd port <=? 0xfffe))
    (Errorf "invalid network number range (%d - %d) used for port %q; it must not overlap the startup range (65280 - 65534)"
       [AInt (NetStart port); AInt (NetEnd port); AStr (Device port)]).

(** Of a port that has its defaults. *)
Definition port_errors (port : EtherTalkConfig) : list goerr :=
  let dev := AStr (Device port) in
  let none := bool_decide (SeedMode port = SeedModeNone) in
  let hasNetStart := negb (NetStart port =? 0) in
  let hasNetEnd := negb (NetEnd port =? 0) in
  let zoneCount := zlen (ExtraZones port) + 1 in
  check (negb (bool_decide (SeedMode port = SeedModeHard) || bool_decide (SeedMode port = SeedModeSoft) || none))
    (Errorf "invalid seed_mode %q for port %q; want hard, soft, or none" [AStr (SeedMode port); dev]) ++
  check (SoftSeedDelay port <? 0)
    (Errorf "soft_seed_delay for port %q must not be negative" [dev]) ++
  check (negb (Bool.eqb hasNetStart hasNetEnd))
    (Errorf "port %q must configure both net_start and net_end, or neither" [dev]) ++
  check (negb none && negb hasNetStart && negb hasNetEnd)
    (Errorf "seed_mode %q on port %q requires net_start and net_end" [AStr (SeedMode port); dev]) ++
  (if hasNetStart && hasNetEnd then range_errors port else []) ++
  check (255 <? zoneCount)
    (Errorf "too many zones (%d > 255) for port %q" [AInt zoneCount; dev]) ++
  check (32 <? zlen (DefaultZoneName port))
    (Errorf "port %q zone name %q (length %d) is too long; cannot be more than 32 characters"
       [dev; AStr (DefaultZoneName port); AInt (zlen (DefaultZoneName port))]) ++
  check (bool_decide (DefaultZoneName port = str "*") || (negb none && bool_decide (DefaultZoneName port = [])))
    (Errorf "port %q zone name %q is invalid for seed_mode %q"
       [dev; AStr (DefaultZoneName port); AStr (SeedMode port)]) ++
  concat (map (extra_zone_errors port) (ExtraZones port)).

Definition remap_port_error (i : Z) (rule : AURPRemapRule) (port : EtherTalkConfig) : list goerr :=
  if (NetStart port =? 0) || (NetEnd port =? 0) then []
  else
    check (overlaps (localRange rule) (NetStart port) (NetEnd port))
      (Errorf "aurp.remap[%d] local range %d-%d overlaps EtherTalk port %q range %d-%d"
         [AInt i; AInt (LocalStart rule); AInt (LocalEnd rule); AStr (Device port);
          AInt (NetStart port); AInt (NetEnd port)]).

(** ** [LoadConfig] *)

(** The assignments before the validation. *)
Definition set_defaults (c : Config) : Config :=
  {| ListenPort := if ListenPort c =? 0 then 387 else ListenPort c;
     MonitoringAddr := MonitoringAddr c; LocalIP := LocalIP c; EtherTalk := EtherTalk c;
     OpenPeering := OpenPeering c; AURP := Peers.applyDefaults (AURP c);
     Peers := Config.Peers c; PeerListURL := PeerListURL c |}.

Definition with_ports (ports : list EtherTalkConfig) (c : Config) : Config :=
  {| ListenPort := ListenPort c; MonitoringAddr := MonitoringAddr c; LocalIP := LocalIP c;
     EtherTalk := map Some ports; OpenPeering := OpenPeering c; AURP := AURP c;
     Peers := Config.Peers c; PeerListURL := PeerListURL c |}.

(** The errors on the [AURP] section by itself. *)
Definition aurp_errors (a : AURPConfig) : option (list goerr) :=
  clusters ← cluster_errors (RemapRules a) 0 (Clusters a);
  Some (timing_errors a ++ indexed remap_error (RemapRules a) ++
        indexed import_error (HiddenImportNetworks a) ++ indexed export_error (HiddenExportNetworks a) ++
        indexed backup_error (BackupPeers a) ++ clusters ++ pairs cluster_pair_error (Clusters a) ++
        indexed device_error (HiddenDevices a) ++ pairs remap_pair_error (RemapRules a)).

(** The configuration with its defaults, and the validation errors. *)
Definition validate (c : Config) : option (Config * list goerr) :=
  let c := set_defaults c in
  errs ← aurp_errors (AURP c);
  ports ← mapM id (EtherTalk c);
  let ports := map port_defaults ports in
  Some (with_ports ports c,
        errs ++ concat (map port_errors ports) ++
        indexed (fun i rule => concat (map (remap_port_error i rule) ports)) (RemapRules (AURP c))).

Inductive loaded := NotLoaded (e : goerr) | Loaded (c : Config) (errs : list goerr).

(** [file] is what opening the file gives. *)
Definition LoadConfig (file : goerr + list Z) : option loaded :=
  match file with
  | inl e => Some (NotLoaded e)
  | inr text =>
      match decode_config text with
      | inl e => Some (NotLoaded e)
      | inr c => '(c, errs) ← validate c; Some (Loaded c errs)
      end
  end.

End Yaml.
End Config.
