(* ===== verification/ConfigSpec.v ===== *)
(** * The configuration: what an accepted file guarantees ([router/config.go]) *)
From S2P Require Import Prelude Wtacc AurpHeaders AurpTuples AurpZoneInfo AurpPacket AurpTransport.
From S2P Require Import PeerPolicy GoSort RouteTable RouteTableInv RouteExport PeerState PeerRecv.
From S2P Require Import AtalkNbp Atalk DdpPolicy Seed LoopProbe Router Cluster RtmpSpec PeerTable GoParse Config.
Import Policy GoParse Config.

(** Tests of the goal as propositions. *)
Ltac tests := rewrite ?Z.eqb_neq, ?Z.ltb_ge, ?Z.leb_gt, ?Z.eqb_eq, ?Z.leb_le, ?Z.ltb_lt.

(** ** Lists of errors *)

Lemma check_nil b e : check b e = [] <-> b = false.
Proof. by destruct b. Qed.

Lemma concat_nil_iff {A} (ls : list (list A)) : concat ls = [] <-> Forall (fun l => l = []) ls.
Proof.
  induction ls as [|l ls IH]; cbn [concat]; [by split|]. rewrite app_nil, IH, Forall_cons. done.
Qed.

Lemma app_nil_iff {A} (l k : list A) : l ++ k = [] <-> l = [] /\ k = [].
Proof. by rewrite app_nil. Qed.

Lemma concat_map_nil {A} (f : A -> list goerr) (P : A -> Prop) xs :
  (forall x, f x = [] <-> P x) -> concat (map f xs) = [] <-> Forall P xs.
Proof.
  intros H. rewrite concat_nil_iff, Forall_map. apply Forall_iff. exact H.
Qed.

Lemma Forall_given {A} (P Q R : A -> Prop) xs : Forall R xs -> (forall x, R x -> P x <-> Q x) ->
  Forall P xs <-> Forall Q xs.
Proof.
  intros HR H. rewrite !Forall_forall. rewrite Forall_forall in HR.
  split; intros G x Hx; specialize (H x (HR x Hx)); apply H, G, Hx.
Qed.

(** Every two elements, in order. *)
Fixpoint each_pair {A} (P : A -> A -> Prop) (xs : list A) : Prop :=
  match xs with [] => True | a :: rest => Forall (P a) rest /\ each_pair P rest end.

Lemma each_pair_lookup {A} (P : A -> A -> Prop) xs :
  each_pair P xs <-> forall i j a b, (i < j)%nat -> xs !! i = Some a -> xs !! j = Some b -> P a b.
Proof.
  induction xs as [|x xs IH]; [split; [by intros _ ? ? ? ? ? [=]|done]|]. cbn [each_pair].
  rewrite IH, Forall_lookup. split.
  - intros [H1 H2] [|i] [|j] a b Hij Ha Hb; cbn in *; [lia| |lia|].
    + injection Ha as <-. by eapply H1.
    + eapply (H2 i j); [lia|done..].
  - intros H. split.
    + intros i b Hb. by apply (H 0%nat (S i) x b); [lia|..].
    + intros i j a b Hij Ha Hb. by apply (H (S i) (S j)); [lia|..].
Qed.

Lemma indexed_nil {A} (f : Z -> A -> list goerr) (P Q : A -> Prop) xs :
  Forall Q xs -> (forall i x, Q x -> f i x = [] <-> P x) -> indexed f xs = [] <-> Forall P xs.
Proof.
  intros HQ H. unfold indexed. rewrite concat_nil_iff, !Forall_lookup. setoid_rewrite list_lookup_imap.
  split; intros G k y Hy.
  - apply (H (Z.of_nat k)); [by eapply Forall_lookup_1|]. apply (G k). by rewrite Hy.
  - destruct (xs !! k) as [x|] eqn:E; [|done]. injection Hy as <-. apply H; [by eapply Forall_lookup_1|by eapply G].
Qed.

Lemma pairs_nil {A} (f : Z -> Z -> A -> A -> list goerr) (P : A -> A -> Prop) (Q : A -> Prop) xs :
  Forall Q xs -> (forall i j a b, Q a -> Q b -> f i j a b = [] <-> P a b) ->
  pairs f xs = [] <-> each_pair P xs.
Proof.
  intros HQ H. unfold pairs. generalize 0. induction HQ as [|x xs Hx HQ IH]; intros i; [done|].
  cbn [pairs_from each_pair]. rewrite app_nil_iff, (IH (i + 1)). f_equiv.
  apply (indexed_nil (fun k b => f i (i + 1 + k) x b) (P x) Q); [done|]. intros. by apply H.
Qed.

Section Spec.
Context {GStr : GoStrings} {Y : Yaml}.

(** ** What a valid configuration is *)

Definition in_range (n a b : Z) : Prop := a <= n <= b.

(** No number is in both ranges. *)
Definition apart (a b c d : Z) : Prop := forall n, ~ (in_range n a b /\ in_range n c d).

(** A range of AppleTalk networks below the startup range. *)
Definition cable_range (a b : Z) : Prop := 0 < a <= b /\ b < 0xff00.

Record timing_valid (a : AURPConfig) : Prop := {
  tv_heard : 30 * PS.second <= LastHeardFromTimeout a;
  tv_retry : 2 * PS.second <= RetryInterval a;
  tv_send : 0 < SendRetryLimit a;
  tv_tickle : 0 < TickleRetryLimit a;
  tv_zone : 0 < ZoneInfoRetryInterval a;
  tv_update : exists k, 1 <= k <= 0x7fff /\ UpdateInterval a = k * PS.updateRateUnit;
  tv_weight : HopCountWeight a < 15 }.

Definition rule_valid (r : AURPRemapRule) : Prop :=
  0 < RemoteStart r <= RemoteEnd r /\ cable_range (LocalStart r) (LocalEnd r) /\
  RemoteEnd r - RemoteStart r = LocalEnd r - LocalStart r.

Definition rules_apart (a b : AURPRemapRule) : Prop :=
  apart (LocalStart a) (LocalEnd a) (LocalStart b) (LocalEnd b) /\
  (EqualFold (rr_Peer a) (rr_Peer b) = true ->
   apart (RemoteStart a) (RemoteEnd a) (RemoteStart b) (RemoteEnd b)).

Definition covered (rules : list AURPRemapRule) (n : Z) : Prop :=
  exists r, r ∈ rules /\ in_range n (LocalStart r) (LocalEnd r).

Record aurp_valid (a : AURPConfig) : Prop := {
  av_timing : timing_valid a;
  av_rules : Forall rule_valid (RemapRules a);
  av_imports : Forall (fun h => cable_range (hr_Start h) (hr_End h)) (HiddenImportNetworks a);
  av_exports : Forall (fun h => cable_range (hr_Start h) (hr_End h)) (HiddenExportNetworks a);
  av_backups : Forall (fun b => TrimSpace (bp_Peer b) <> [] /\ 0 < bp_Penalty b < 15) (BackupPeers a);
  av_clusters : Forall (fun c => cable_range (cl_Start c) (cl_End c) /\
    forall n, in_range n (cl_Start c) (cl_End c) -> covered (RemapRules a) n) (Clusters a);
  av_apart : each_pair (fun x y => apart (cl_Start x) (cl_End x) (cl_Start y) (cl_End y)) (Clusters a);
  av_devices : Forall (fun d => ToLower (TrimSpace (dh_Direction d)) ∈
    [[]; str "both"; str "import"; str "export"]) (HiddenDevices a);
  av_rules_apart : each_pair rules_apart (RemapRules a) }.

Definition zone_valid (z : list Z) : Prop := z <> [] /\ z <> str "*" /\ zlen z <= 32.

Record port_valid (p : EtherTalkConfig) : Prop := {
  pv_mode : SeedMode p ∈ [SeedModeHard; SeedModeSoft; SeedModeNone];
  pv_delay : 0 <= SoftSeedDelay p;
  pv_range : cable_range (NetStart p) (NetEnd p) \/
    SeedMode p = SeedModeNone /\ NetStart p = 0 /\ NetEnd p = 0;
  pv_default : zone_valid (DefaultZoneName p) \/ SeedMode p = SeedModeNone /\ DefaultZoneName p = [];
  pv_extra : Forall zone_valid (ExtraZones p) /\ zlen (ExtraZones p) <= 254 }.

(** A port without a range has none to clash with. *)
Definition rule_off_port (r : AURPRemapRule) (p : EtherTalkConfig) : Prop :=
  NetStart p <> 0 -> NetEnd p <> 0 -> apart (LocalStart r) (LocalEnd r) (NetStart p) (NetEnd p).

Definition config_valid (c : Config) (ports : list EtherTalkConfig) : Prop :=
  aurp_valid (AURP c) /\ Forall port_valid ports /\
  Forall (fun r => Forall (rule_off_port r) ports) (RemapRules (AURP c)).

(** ** What decoding gives *)

Record aurp_typed (a : AURPConfig) : Prop := {
  at_durations : Forall i64 [LastHeardFromTimeout a; RetryInterval a; ZoneInfoRetryInterval a; UpdateInterval a];
  at_limits : i64 (SendRetryLimit a) /\ i64 (TickleRetryLimit a);
  at_weight : u8 (HopCountWeight a);
  at_rules : Forall rule_widths (RemapRules a);
  at_imports : Forall (fun h => u16 (hr_Start h) /\ u16 (hr_End h)) (HiddenImportNetworks a);
  at_exports : Forall (fun h => u16 (hr_Start h) /\ u16 (hr_End h)) (HiddenExportNetworks a);
  at_backups : Forall (fun b => u8 (bp_Penalty b)) (BackupPeers a);
  at_clusters : Forall (fun c => u16 (cl_Start c) /\ u16 (cl_End c)) (Clusters a) }.

Definition port_typed (p : EtherTalkConfig) : Prop :=
  i64 (SoftSeedDelay p) /\ u16 (NetStart p) /\ u16 (NetEnd p).

(** The library fills fields with values of their types, and makes those of a
    type that has an [UnmarshalYAML] with it. *)
Class YamlLaws := {
  decode_typed text c : decode_config text = inr c ->
    u16 (ListenPort c) /\ aurp_typed (AURP c) /\ Forall (fun p => default True (port_typed <$> p)) (EtherTalk c);
  decode_hidden text c : decode_config text = inr c ->
    Forall (fun r => exists n, AURPNetworkRange_UnmarshalYAML n = inr r) (HiddenNetworks (AURP c)) }.

(** ** The checks, one by one *)

Lemma apart_overlaps a b c d : a <= b -> c <= d ->
  (overlaps {| nr_Start := a; nr_End := b |} c d = false <-> apart a b c d).
Proof.
  intros Hab Hcd. unfold overlaps, apart, in_range. cbn. split.
  - intros E n. zbool; lia.
  - intros H. apply andb_false_iff. destruct (Z.leb_spec c b); [|by left]. right. apply Z.leb_gt.
    destruct (Z.lt_ge_cases d a); [done|]. exfalso. apply (H (Z.max a c)). lia.
Qed.

Lemma remap_error_nil i r : rule_widths r -> remap_error i r = [] <-> rule_valid r.
Proof.
  unfold rule_widths, remap_error, rule_valid, cable_range, u16. intros H. cbv zeta.
  repeat case_if; split; intros G; try done; zbool; try lia.
Qed.

Lemma hide_error_nil fmt i h : u16 (hr_Start h) /\ u16 (hr_End h) ->
  hide_error fmt i h = [] <-> cable_range (hr_Start h) (hr_End h).
Proof.
  unfold hide_error, cable_range, u16. intros H. rewrite check_nil, !orb_false_iff. tests. lia.
Qed.

Lemma backup_error_nil i b : u8 (bp_Penalty b) ->
  backup_error i b = [] <-> TrimSpace (bp_Peer b) <> [] /\ 0 < bp_Penalty b < 15.
Proof.
  unfold backup_error, u8. intros H. rewrite app_nil_iff, !check_nil, orb_false_iff, bool_decide_eq_false.
  unfold RT.maxRouteDistance. f_equiv. tests. lia.
Qed.

Lemma device_error_nil i d : device_error i d = [] <->
  ToLower (TrimSpace (dh_Direction d)) ∈ [[]; str "both"; str "import"; str "export"].
Proof.
  unfold device_error. cbv zeta. rewrite check_nil, negb_false_iff, !orb_true_iff, !bool_decide_eq_true.
  rewrite !elem_of_cons, elem_of_nil. tauto.
Qed.

Lemma remap_pair_nil i j a b : rule_valid a -> rule_valid b ->
  remap_pair_error i j a b = [] <-> rules_apart a b.
Proof.
  intros [Ha1 [Ha2 Ha3]] [Hb1 [Hb2 Hb3]]. unfold remap_pair_error, rules_apart, cable_range in *.
  rewrite app_nil_iff, !check_nil, andb_false_iff. unfold localRange, remoteRange.
  rewrite !apart_overlaps by lia. f_equiv. destruct (EqualFold _ _).
  - split; [intros [?|H] _; [done|exact H]|right; auto].
  - split; [done|by left].
Qed.

Lemma cluster_pair_nil i j a b : cl_Start a <= cl_End a -> cl_Start b <= cl_End b ->
  cluster_pair_error i j a b = [] <-> apart (cl_Start a) (cl_End a) (cl_Start b) (cl_End b).
Proof.
  intros Ha Hb. unfold cluster_pair_error, cluster_contains, apart, in_range.
  rewrite check_nil, orb_false_iff, !andb_false_iff. tests. split; [lia|].
  intros H. pose proof (H (cl_Start a)). pose proof (H (cl_Start b)). lia.
Qed.

Lemma timing_nil a : aurp_typed a -> timing_errors a = [] <-> timing_valid a.
Proof.
  intros Ht. unfold timing_errors. rewrite !app_nil_iff, !check_nil. split.
  - intros (H1 & H2 & H3 & H4 & H5 & H6 & H7). zbool. split; try done.
    revert H6. repeat case_if; try done. intros _. zbool.
    exists (Z.quot (UpdateInterval a) PS.updateRateUnit).
    change PS.updateRateUnit with 10000000000 in *. Z.to_euclidean_division_equations. lia.
  - intros [H1 H2 H3 H4 H5 (k & Hk & E) H7]. split_and!; tests; try done.
    rewrite E, Z.rem_mul, Z.quot_mul by done. change PS.updateRateUnit with 10000000000.
    repeat case_if; try done; zbool; lia.
Qed.

(** *** Clusters *)

Lemma covered_exists rules n :
  existsb (fun rule => contains (localRange rule) n) rules = true <-> covered rules n.
Proof.
  rewrite existsb_ex. unfold covered, contains, localRange, in_range. cbn.
  split; intros (r & Hr & H); exists r; (split; [done|]);
    revert H; rewrite andb_true_iff; tests; done.
Qed.

Lemma uncovered_spec rules fuel n e : 0 <= n -> e < 0xff00 -> (Z.to_nat (e + 1 - n) < fuel)%nat ->
  exists r : option Z, uncovered_loop rules fuel n e = Some r /\
    (r = None <-> forall m, in_range m n e -> covered rules m).
Proof.
  revert n. induction fuel as [|fuel IH]; intros n Hn He Hf; [lia|]. cbn [uncovered_loop]. unfold in_range.
  destruct (Z.leb_spec n e) as [Hle|Hgt]; cbn [negb].
  2:{ exists None. split; [done|]. split; [|done]. intros _ m Hm. lia. }
  destruct (existsb _ rules) eqn:E.
  - unfold wrap16. rewrite Z.mod_small by lia. destruct (IH (n + 1)) as (r & Er & Hr); [lia..|].
    exists r. split; [done|]. rewrite Hr. apply covered_exists in E. split; intros H m Hm; [|apply H; unfold in_range in *; lia].
    destruct (decide (m = n)) as [->|]; [done|]. apply H. unfold in_range. lia.
  - exists (Some n). split; [done|]. split; [done|]. intros H. specialize (H n ltac:(lia)).
    apply covered_exists in H. congruence.
Qed.

Definition cluster_valid (rules : list AURPRemapRule) (c : AURPClusterRule) : Prop :=
  cable_range (cl_Start c) (cl_End c) /\ forall n, in_range n (cl_Start c) (cl_End c) -> covered rules n.

Lemma cluster_error_spec rules i c : u16 (cl_Start c) /\ u16 (cl_End c) ->
  exists errs, cluster_error rules i c = Some errs /\ (errs = [] <-> cluster_valid rules c).
Proof.
  unfold u16, cluster_error, cluster_valid, cable_range. intros [Hs He]. destruct (_ || _) eqn:E.
  { eexists. split; [done|]. split; [done|]. intros [H _]. exfalso. revert E.
    rewrite !orb_true_iff. tests. lia. }
  zbool. destruct (uncovered_spec rules (Z.to_nat 65536) (cl_Start c) (cl_End c)) as (r & Er & Hr); [lia..|].
  rewrite Er. destruct r as [n|]; eexists; (split; [done|]); split; try done.
  - intros [_ Hcov]. by apply Hr in Hcov.
  - intros _. split; [lia|]. by apply Hr.
Qed.

Lemma cluster_errors_spec rules i cs : Forall (fun c => u16 (cl_Start c) /\ u16 (cl_End c)) cs ->
  exists errs, cluster_errors rules i cs = Some errs /\ (errs = [] <-> Forall (cluster_valid rules) cs).
Proof.
  intros H. revert i. induction H as [|c cs Hc _ IH]; intros i; cbn [cluster_errors].
  { exists []. split; [done|]. by split. }
  destruct (cluster_error_spec rules i c Hc) as (errs & E & He). destruct (IH (i + 1)) as (rest & Er & Hr).
  rewrite E. cbn. rewrite Er. cbn. eexists. split; [done|]. rewrite app_nil_iff, Forall_cons. tauto.
Qed.

(** *** Ports *)

Lemma extra_zone_nil p z : extra_zone_errors p z = [] <-> zone_valid z.
Proof.
  unfold extra_zone_errors, zone_valid. rewrite app_nil_iff, !check_nil, orb_false_iff, !bool_decide_eq_false.
  tests. split; intros H; split_and!; apply H.
Qed.

Lemma range_errors_nil p : u16 (NetStart p) /\ u16 (NetEnd p) -> NetStart p <> 0 -> NetEnd p <> 0 ->
  range_errors p = [] <-> cable_range (NetStart p) (NetEnd p).
Proof.
  unfold range_errors, cable_range, u16. intros H Hs He.
  rewrite !app_nil_iff, !check_nil, !orb_false_iff, !andb_false_iff. tests. lia.
Qed.

(** The tests on the range of a port, by what the port has. *)
Lemma port_range_nil p (none : bool) : u16 (NetStart p) /\ u16 (NetEnd p) ->
  let hasStart := negb (NetStart p =? 0) in
  let hasEnd := negb (NetEnd p =? 0) in
  (negb (Bool.eqb hasStart hasEnd) = false /\ negb none && negb hasStart && negb hasEnd = false /\
   (if hasStart && hasEnd then range_errors p else []) = []) <->
  cable_range (NetStart p) (NetEnd p) \/ none = true /\ NetStart p = 0 /\ NetEnd p = 0.
Proof.
  intros Hu. cbv zeta. pose proof (range_errors_nil p Hu) as Hr. unfold cable_range in *.
  destruct (Z.eqb_spec (NetStart p) 0), (Z.eqb_spec (NetEnd p) 0), none; cbn;
    (split; [intros (H1 & H2 & H3); try discriminate; first [by right | left; by apply Hr]
            |intros [H|(H1 & H2 & H3)]; try discriminate; try lia; split_and!; try done; by apply Hr]).
Qed.

Lemma default_zone_nil (none : bool) (z : list Z) :
  (32 <? zlen z) = false /\ bool_decide (z = str "*") || (negb none && bool_decide (z = [])) = false <->
  zone_valid z \/ none = true /\ z = [].
Proof.
  unfold zone_valid. rewrite orb_false_iff, bool_decide_eq_false. tests.
  destruct (decide (z = [])) as [->|Hz].
  - rewrite bool_decide_true by done. destruct none; cbn.
    + split; [by right|done].
    + split; [by intros (_ & _ & H)|]. by intros [(H & _)|(H & _)].
  - rewrite (bool_decide_false (z = [])) by done. rewrite andb_false_r. split.
    + intros (H1 & H2 & _). by left.
    + intros [(_ & H1 & H2)|(_ & H)]; done.
Qed.

Lemma port_errors_nil p : u16 (NetStart p) /\ u16 (NetEnd p) -> port_errors p = [] <-> port_valid p.
Proof.
  intros Hu. unfold port_errors. cbv zeta. rewrite !app_nil_iff, !check_nil.
  rewrite (concat_map_nil _ zone_valid) by apply extra_zone_nil.
  rewrite negb_false_iff, !orb_true_iff, !bool_decide_eq_true.
  rewrite (Z.ltb_ge (SoftSeedDelay p)), (Z.ltb_ge 255).
  pose proof (port_range_nil p (bool_decide (SeedMode p = SeedModeNone)) Hu) as Hr.
  pose proof (default_zone_nil (bool_decide (SeedMode p = SeedModeNone)) (DefaultZoneName p)) as Hz.
  cbv zeta in Hr. rewrite bool_decide_eq_true in Hr, Hz. split.
  - intros (H1 & H2 & H3 & H4 & H5 & H6 & H7 & H8 & H9). split; [|done|apply Hr|apply Hz|]; [|done..|split; [done|lia]].
    rewrite !elem_of_cons. destruct H1 as [[H1|H1]|H1]; auto.
  - intros [H1 H2 H3 H4 [H5 H6]]. apply Hr in H3 as (? & ? & ?). apply Hz in H4 as [? ?].
    split_and!; try done; [|lia]. revert H1. rewrite !elem_of_cons, elem_of_nil. tauto.
Qed.

Lemma remap_port_nil i r p : rule_valid r -> port_valid p ->
  remap_port_error i r p = [] <-> rule_off_port r p.
Proof.
  intros [_ [Hr _]] Hp. unfold remap_port_error, rule_off_port, cable_range in *.
  destruct (_ || _) eqn:E.
  - apply orb_true_iff in E. revert E. tests. split; [lia|done].
  - apply orb_false_iff in E. revert E. tests. intros E. rewrite check_nil. unfold localRange.
    destruct (pv_range p Hp) as [[H _]|(_ & H & _)]; [|lia]. rewrite apart_overlaps by lia. tauto.
Qed.

(** *** The whole *)

Lemma aurp_errors_spec a : aurp_typed a ->
  exists errs, aurp_errors a = Some errs /\ (errs = [] <-> aurp_valid a).
Proof.
  intros Ht. unfold aurp_errors.
  destruct (cluster_errors_spec (RemapRules a) 0 (Clusters a) (at_clusters a Ht)) as (cs & Ec & Hc).
  rewrite Ec. cbn. eexists. split; [done|]. rewrite !app_nil_iff, Hc, timing_nil by done.
  rewrite (indexed_nil remap_error rule_valid rule_widths) by (apply Ht || apply remap_error_nil).
  rewrite (indexed_nil import_error _ _ _ (at_imports a Ht) (hide_error_nil _)).
  rewrite (indexed_nil export_error _ _ _ (at_exports a Ht) (hide_error_nil _)).
  rewrite (indexed_nil backup_error _ _ _ (at_backups a Ht) backup_error_nil).
  rewrite (indexed_nil device_error _ (fun _ => True) _ (Forall_true _ _ (fun _ => I)) (fun i d _ => device_error_nil i d)). split.
  - intros (H1 & H2 & H3 & H4 & H5 & H6 & H7 & H8 & H9). split; try done.
    + revert H7. apply (pairs_nil _ _ (cluster_valid (RemapRules a))); [done|].
      intros i j x y [[Hx _] _] [[Hy _] _]. apply cluster_pair_nil; lia.
    + revert H9. apply (pairs_nil _ _ rule_valid); [done|]. intros i j x y. apply remap_pair_nil.
  - intros [H1 H2 H3 H4 H5 H6 H7 H8 H9]. split_and!; try done.
    + revert H7. apply (pairs_nil _ _ (cluster_valid (RemapRules a))); [done|].
      intros i j x y [[Hx _] _] [[Hy _] _]. apply cluster_pair_nil; lia.
    + revert H9. apply (pairs_nil _ _ rule_valid); [done|]. intros i j x y. apply remap_pair_nil.
Qed.

Lemma defaults_typed a : aurp_typed a -> aurp_typed (Peers.applyDefaults a).
Proof.
  intros [H1 [H2 H3] H4 H5 H6 H7 H8 H9]. rewrite !Forall_cons in H1. destruct H1 as (A & B & C & D & _).
  unfold i64 in *. split; try done; cbn -[Z.mul Z.pow].
  - rewrite !Forall_cons. unfold i64. split_and!; try case_if; first [apply Forall_nil_2|lia|by vm_compute].
  - unfold i64. split_and!; case_if; first [lia|by vm_compute].
Qed.

Lemma mapM_id_none {A} (xs : list (option A)) : None ∈ xs -> mapM id xs = None.
Proof.
  induction xs as [|[x|] xs IH]; intros H; [by apply elem_of_nil in H| |done].
  apply elem_of_cons in H as [H|H]; [done|]. cbn. by rewrite IH.
Qed.

Lemma all_some {A} (xs : list (option A)) : None ∈ xs \/ exists ys, xs = map Some ys.
Proof.
  induction xs as [|[x|] xs IH]; [by right; exists []| |left; apply list_elem_of_here].
  destruct IH as [H|(ys & ->)]; [left; by apply list_elem_of_further|]. right. by exists (x :: ys).
Qed.

Lemma mapM_id_some {A} (xs : list A) : mapM id (map Some xs) = Some xs.
Proof. induction xs as [|x xs IH]; [done|]. cbn. by rewrite IH. Qed.

(** The configuration [LoadConfig] returns for what it decoded. *)
Definition completed (c : Config) (ports : list EtherTalkConfig) : Config :=
  with_ports (map port_defaults ports) (set_defaults c).

Lemma validate_exact c ports : aurp_typed (AURP c) -> EtherTalk c = map Some ports -> Forall port_typed ports ->
  exists errs, validate c = Some (completed c ports, errs) /\
    (errs = [] <-> config_valid (completed c ports) (map port_defaults ports)).
Proof.
  intros Ha Ep Hp. unfold validate. cbv zeta.
  destruct (aurp_errors_spec (AURP (set_defaults c))) as (errs & Ee & He); [by apply defaults_typed|].
  rewrite Ee. cbn [mbind option_bind]. change (EtherTalk (set_defaults c)) with (EtherTalk c). rewrite Ep.
  rewrite mapM_id_some. cbn [mbind option_bind]. eexists. split; [done|]. rewrite !app_nil_iff, He.
  unfold config_valid, completed. cbn [AURP with_ports].
  set (a := AURP (set_defaults c)). set (qs := map port_defaults ports).
  assert (Hq : Forall (fun p => u16 (NetStart p) /\ u16 (NetEnd p)) qs).
  { apply Forall_map, (Forall_impl _ _ _ Hp). by intros x [_ H]. }
  assert (Hports : concat (map port_errors qs) = [] <-> Forall port_valid qs).
  { rewrite concat_nil_iff, Forall_map. by apply (Forall_given _ _ _ _ Hq), port_errors_nil. }
  rewrite Hports. split; intros (H1 & H2 & H3); (split; [done|]); (split; [done|]); revert H3;
    apply (indexed_nil _ _ rule_valid _ (av_rules a H1)); intros i r Hr; rewrite concat_nil_iff, Forall_map;
    apply (Forall_given _ _ _ _ H2); intros x Hx; by apply remap_port_nil.
Qed.

Context {YL : YamlLaws}.

Lemma load_runs text c : decode_config text = inr c ->
  (None ∈ EtherTalk c -> LoadConfig (inr text) = None) /\
  forall ports, EtherTalk c = map Some ports ->
  exists errs, LoadConfig (inr text) = Some (Loaded (completed c ports) errs) /\
    (errs = [] <-> config_valid (completed c ports) (map port_defaults ports)).
Proof.
  intros Ed. unfold LoadConfig. rewrite Ed. destruct (decode_typed text c Ed) as (_ & Ha & Hp). split.
  - intros Hnone. unfold validate. cbv zeta.
    destruct (aurp_errors_spec (AURP (set_defaults c))) as (errs & -> & _); [by apply defaults_typed|].
    cbn [mbind option_bind]. change (EtherTalk (set_defaults c)) with (EtherTalk c).
    by rewrite mapM_id_none.
  - intros ports Ep. rewrite Ep, Forall_map in Hp.
    destruct (validate_exact c ports Ha Ep Hp) as (errs & -> & He). by exists errs.
Qed.


(** *** An accepted configuration *)

Lemma accepted_inv text c : LoadConfig (inr text) = Some (Loaded c []) ->
  exists d ports, decode_config text = inr d /\ EtherTalk d = map Some ports /\ c = completed d ports /\
    config_valid c (map port_defaults ports) /\ aurp_typed (AURP c) /\ Forall port_typed ports.
Proof.
  intros H. destruct (decode_config text) as [e|d] eqn:Ed; [by unfold LoadConfig in H; rewrite Ed in H|].
  destruct (load_runs text d Ed) as [L0 L].
  destruct (decode_typed text d Ed) as (_ & Ha & Hp).
  destruct (all_some (EtherTalk d)) as [Hn|(ports & Ep)]; [rewrite L0 in H by done; done|].
  destruct (L ports Ep) as (errs & E & He). rewrite H in E.
  injection E as -> <-. exists d, ports. split_and!; try done.
  - by apply He.
  - by apply defaults_typed.
  - by rewrite Ep, Forall_map in Hp.
Qed.

(** What the other components ask of a configuration. *)

Lemma rule_valid_ok r : rule_valid r -> remap_rule_ok r = true.
Proof.
  unfold rule_valid, cable_range, remap_rule_ok. intros H.
  rewrite !andb_true_iff, !negb_true_iff, !orb_false_iff. tests. lia.
Qed.

Lemma rules_apart_ok a b : rule_valid a -> rule_valid b -> rules_apart a b -> remap_pair_ok a b = true.
Proof.
  intros Ha Hb H. apply (remap_pair_nil 0 1) in H; [|done..]. unfold remap_pair_error in H.
  rewrite app_nil_iff, !check_nil in H. unfold remap_pair_ok. by destruct H as [-> ->].
Qed.

Lemma remap_pairs_valid rules : Forall rule_valid rules -> each_pair rules_apart rules ->
  remap_pairs_ok rules = true.
Proof.
  induction 1 as [|r rules Hr Hrs IH]; cbn [each_pair remap_pairs_ok]; [done|]. intros [H1 H2].
  rewrite IH, andb_true_r by done. apply forallb_forall. intros x Hx%list_elem_of_In.
  rewrite Forall_forall in H1, Hrs. by apply rules_apart_ok; auto.
Qed.

Lemma remap_validated a : aurp_valid a -> validate_remap (RemapRules a) = true.
Proof.
  intros Ha. unfold validate_remap. rewrite (remap_pairs_valid _ (av_rules a Ha) (av_rules_apart a Ha)), andb_true_r.
  apply forallb_forall. intros x Hx%list_elem_of_In.
  apply rule_valid_ok. exact (proj1 (Forall_forall _ _) (av_rules a Ha) x Hx).
Qed.

Lemma clusters_validated a : aurp_valid a -> aurp_typed a -> clusters_valid a.
Proof.
  intros Ha Ht. pose proof (av_clusters a Ha) as Hc. split; [split|].
  - apply (Forall_impl _ _ _ Hc). intros c [[Hr He] Hcov]. unfold Cluster.cluster_rule_ok.
    rewrite andb_true_iff, negb_true_iff, !orb_false_iff. tests. split; [lia|].
    apply forallb_forall. intros n Hn%list_elem_of_In%elem_of_seqZ. apply covered_exists, Hcov.
    unfold in_range. lia.
  - pose proof (av_apart a Ha) as Hp. revert Hp. induction Hc as [|c cs Hc Hcs IH]; [done|].
    cbn [each_pair Cluster.cluster_pairs_ok]. intros [H1 H2]. rewrite IH, andb_true_r by done.
    apply forallb_forall. intros x Hx%list_elem_of_In. rewrite Forall_forall in H1, Hcs.
    specialize (H1 x Hx). destruct (Hcs x Hx) as [[Hx1 _] _]. destruct Hc as [[Hc1 _] _].
    apply (cluster_pair_nil 0 1) in H1; [|lia..]. unfold cluster_pair_error in H1. rewrite check_nil in H1.
    unfold Cluster.cluster_pair_ok. by rewrite H1.
  - apply (Forall_impl _ _ _ (at_clusters a Ht)). by intros c [H _].
Qed.

Lemma penalty_bound a (i : PeerIdent) : aurp_valid a -> 0 <= PS.first_penalty i (BackupPeers a) <= 14.
Proof.
  intros Ha. induction (av_backups a Ha) as [|b bs [_ Hb] _ IH]; cbn [PS.first_penalty]; [lia|].
  case_match; lia.
Qed.

Lemma hidden_range_valid n r : AURPNetworkRange_UnmarshalYAML n = inr r -> cable_range (nr_Start r) (nr_End r).
Proof.
  assert (Hp : forall s v, parse_network s = inr v -> 0 < v < 0xff00).
  { intros s v. unfold parse_network, ParseUint. destruct (parse_uint _ 16) as [u [e|]] eqn:E; [done|].
    apply parse_uint_range in E; [|lia]. cbn. unfold wrap16. rewrite Z.mod_small by lia.
    destruct (_ || _) eqn:Et; [done|]. intros [= <-]. apply orb_false_iff in Et. revert Et. tests. lia. }
  unfold AURPNetworkRange_UnmarshalYAML, parse_range. cbv zeta. destruct (negb _); [done|].
  destruct (parse_network (hd [] _)) as [|start] eqn:Es; [done|]. apply Hp in Es.
  destruct (match SplitN2 _ _ with [] => _ | _ => _ end) as [|end_] eqn:Ee; [done|].
  assert (He : 0 < end_ < 0xff00).
  { revert Ee. destruct (SplitN2 _ _) as [|x [|y [|z l]]]; [by intros [= <-]|by intros [= <-]|apply Hp|by intros [= <-]]. }
  destruct (Z.ltb_spec end_ start); [done|]. intros [= <-]. unfold cable_range. cbn. lia.
Qed.

Lemma response_rate p k : 1 <= k <= 0x7fff -> UpdateInterval (PS.timing p) = k * 10000000000 ->
  PS.openResponseRate p = k.
Proof.
  intros Hk E. assert (Eu : PS.updateInterval p = k * 10000000000).
  { unfold PS.updateInterval. rewrite E. by destruct (Z.ltb_spec 0 (k * 10000000000)); [|lia]. }
  unfold PS.openResponseRate. rewrite Eu. change PS.updateRateUnit with 10000000000.
  rewrite Z.quot_mul by lia. cbv zeta. destruct (Z.ltb_spec k 1); [lia|].
  by destruct (Z.ltb_spec 0x7fff k); [lia|].
Qed.

End Spec.

(** ** Witnesses *)

Definition wit_node : Type := Kind * list Z * list Z.

Definition wit_aurp : AURPConfig :=
  {| LastHeardFromTimeout := 0; RetryInterval := 0; SendRetryLimit := 0; TickleRetryLimit := 0;
     ZoneInfoRetryInterval := 0; UpdateInterval := 30 * Second;
     HiddenNetworks := [{| nr_Start := 50; nr_End := 60 |}]; HopCountReduction := true; HopCountWeight := 2;
     RemapRules := [{| rr_Peer := str "far"; RemoteStart := 1; RemoteEnd := 9; LocalStart := 101; LocalEnd := 109 |}];
     HiddenDevices := [{| dh_Peer := []; dh_Object := str "="; dh_Type := str "LaserWriter"; dh_Direction := str "Export" |}];
     Clusters := [{| cl_Start := 101; cl_End := 104 |}];
     BackupPeers := [{| bp_Peer := str "spare"; bp_Penalty := 4 |}];
     HiddenImportNetworks := []; HiddenExportNetworks := [{| hr_Peer := []; hr_Start := 3; hr_End := 3 |}] |}.

Definition wit_port : EtherTalkConfig :=
  {| SeedMode := []; SoftSeedDelay := 0; EthAddr := []; Device := str "eth0";
     DefaultZoneName := str "Home"; ExtraZones := [str "Attic"]; NetStart := 3; NetEnd := 5 |}.

Definition wit_soft_port : EtherTalkConfig :=
  {| SeedMode := str "Soft"; SoftSeedDelay := 0; EthAddr := []; Device := str "eth1";
     DefaultZoneName := str "Shed"; ExtraZones := []; NetStart := 20; NetEnd := 20 |}.

Definition wit_config : Config :=
  {| ListenPort := 0; MonitoringAddr := []; LocalIP := []; EtherTalk := [Some wit_port; Some wit_soft_port];
     OpenPeering := true; AURP := wit_aurp; Config.Peers := [str "far"]; PeerListURL := [] |}.

Definition wit_null : Config :=
  {| ListenPort := 0; MonitoringAddr := []; LocalIP := []; EtherTalk := [Some wit_port; None];
     OpenPeering := true; AURP := wit_aurp; Config.Peers := []; PeerListURL := [] |}.

(** A YAML library that reads this configuration from the file [ok], and one
    with a null port from any other. *)
Definition wit_yaml : Yaml :=
  {| Node := wit_node;
     node_Kind n := fst (fst n); node_Tag n := snd (fst n); node_Value := snd;
     kind_number k := match k with DocumentNode => 1 | SequenceNode => 2 | MappingNode => 4 | ScalarNode => 8 | AliasNode => 16 end;
     decode_aurp _ := inl (Errorf "" []); decode_ethertalk _ := inl (Errorf "" []);
     decode_ports _ := inr [Some wit_port];
     decode_config text :=
       if bool_decide (text = str "ok") then inr wit_config
       else inr wit_null |}.

#[local] Existing Instances ascii_strings wit_yaml.

Lemma wit_aurp_typed : aurp_typed wit_aurp.
Proof. split; repeat (constructor || split); done. Qed.

#[export] Instance wit_yaml_laws : YamlLaws.
Proof.
  split; intros text c; cbn [decode_config wit_yaml]; destruct (bool_decide _); intros [= <-].
  1,2: split; [done|]; split; [exact wit_aurp_typed|]; repeat constructor; done.
  1,2: constructor; [|constructor]; exists (ScalarNode, str "!!str", str "50-60"); by vm_compute.
Qed.

Definition wit_loaded : Config := completed wit_config [wit_port; wit_soft_port].

Lemma wit_accepted : LoadConfig (inr (str "ok")) = Some (Loaded wit_loaded []).
Proof. vm_compute. reflexivity. Qed.


