(* ===== verification/ConfigText.v ===== *)
(** * The configuration: ranges and durations as they are written
      ([UnmarshalYAML] of [AURPNetworkRange] and [YAMLDuration]) *)
From S2P Require Import Prelude PeerPolicy RouteTable PeerState GoParse Config ConfigSpec.
Import Policy GoParse Config.

(** [strings.TrimSpace] on ASCII text. *)
Class AsciiTrim {GStr : GoStrings} :=
  trim_ascii s : Forall (fun b => 0 <= b < 128) s -> TrimSpace s = TrimSpace (GoStrings := ascii_strings) s.

#[local] Instance ascii_trim : AsciiTrim (GStr := ascii_strings).
Proof. by intros s _. Defined.

Section Text.
Context {GStr : GoStrings} {AT : AsciiTrim} {Y : Yaml}.

(** ** Trimming *)

Definition spaces (s : list Z) : Prop := Forall (fun b => ascii_space b = true) s.
Definition solid (b : Z) : Prop := ascii_space b = false.

Lemma space_spec b : ascii_space b = true <-> b = 32 \/ 9 <= b <= 13.
Proof. unfold ascii_space. rewrite orb_true_iff, andb_true_iff. tests. lia. Qed.

Lemma drop_spaces_app p s : spaces p -> drop_spaces (p ++ s) = drop_spaces s.
Proof. induction 1 as [|b p Hb _ IH]; [done|]. cbn. by rewrite Hb. Qed.

Lemma drop_spaces_solid b s : solid b -> drop_spaces (b :: s) = b :: s.
Proof. intros H. cbn. by rewrite H. Qed.

(** Spaces around a text that begins and ends with something else. *)
Lemma trim_padded p s q : spaces p -> spaces q -> Forall (fun b => 0 <= b < 128) s ->
  (exists b s', s = b :: s' /\ solid b) -> (exists b s', rev s = b :: s' /\ solid b) ->
  TrimSpace (p ++ s ++ q) = s.
Proof.
  intros Hp Hq Hs (b & s' & E & Hb) (c & t & Er & Hc).
  assert (Ha : forall x, spaces x -> Forall (fun b => 0 <= b < 128) x).
  { intros x Hx. apply (Forall_impl _ _ _ Hx). intros y Hy%space_spec. lia. }
  rewrite trim_ascii by (rewrite !Forall_app; auto). cbn. rewrite drop_spaces_app by done.
  rewrite E at 1. cbn [app]. rewrite drop_spaces_solid by done.
  change (b :: s' ++ q) with ((b :: s') ++ q). rewrite <- E, rev_app_distr.
  rewrite drop_spaces_app by (by apply Forall_rev). by rewrite Er, drop_spaces_solid, <- Er, rev_involutive.
Qed.

(** ** Ranges of networks *)

Lemma decimal_solid n : 0 <= n -> Forall (fun c => 48 <= c <= 57) (RT.decimal n).
Proof. apply pretty_digits. Qed.

Lemma decimal_ends n : 0 <= n ->
  (exists b s', RT.decimal n = b :: s' /\ solid b) /\ (exists b s', rev (RT.decimal n) = b :: s' /\ solid b).
Proof.
  intros Hn. pose proof (decimal_solid n Hn) as Hd.
  assert (Hs : forall b, 48 <= b <= 57 -> solid b).
  { intros b Hb. unfold solid. apply not_true_iff_false. rewrite space_spec. lia. }
  destruct (pretty_head n Hn) as (c & rest & Hc & E). split; [exists c, rest; split; [exact E|auto]|].
  apply Forall_rev in Hd. destruct (rev (RT.decimal n)) as [|b s'] eqn:Er.
  - apply (f_equal (@rev Z)) in Er. rewrite rev_involutive in Er. unfold RT.decimal in Er. by rewrite E in Er.
  - apply Forall_cons in Hd as [Hb _]. eauto.
Qed.

Lemma decimal_ascii n : 0 <= n -> Forall (fun b => 0 <= b < 128) (RT.decimal n).
Proof. intros Hn. apply (Forall_impl _ _ _ (decimal_solid n Hn)). lia. Qed.

(** A network as [parse] reads it. *)
Definition usable (n : Z) : Prop := 0 < n < 0xff00.

Lemma parse_network_spec p n q : u16 n -> spaces p -> spaces q ->
  match parse_network (p ++ RT.decimal n ++ q) with inr v => v = n /\ usable n | inl _ => ~ usable n end.
Proof.
  unfold u16. intros Hn Hp Hq. destruct (decimal_ends n ltac:(lia)) as [H1 H2].
  unfold parse_network, ParseUint, usable. rewrite trim_padded by (try done; apply decimal_ascii; lia).
  unfold RT.decimal. rewrite parse_uint_decimal by lia. cbn. unfold wrap16. rewrite Z.mod_small by lia.
  destruct (_ || _) eqn:E; [apply orb_true_iff in E|apply orb_false_iff in E]; revert E; tests; lia.
Qed.

(** The text of a range: one network, or two with a hyphen between them. *)
Definition single_text (p : list Z) (a : Z) (q : list Z) : list Z := p ++ RT.decimal a ++ q.
Definition range_text (p : list Z) (a : Z) (q r : list Z) (b : Z) (t : list Z) : list Z :=
  p ++ (RT.decimal a ++ q ++ 45 :: r ++ RT.decimal b) ++ t.

Lemma no_hyphen n q : 0 <= n -> spaces q -> Forall (fun c => c <> 45) (RT.decimal n ++ q).
Proof.
  intros Hn Hq. rewrite Forall_app. split.
  - apply (Forall_impl _ _ _ (decimal_solid n Hn)). lia.
  - apply (Forall_impl _ _ _ Hq). intros b Hb%space_spec. lia.
Qed.

Lemma split_single p a q : 0 <= a -> spaces p -> spaces q ->
  SplitN2 (TrimSpace (single_text p a q)) 45 = [RT.decimal a].
Proof.
  intros Ha Hp Hq. destruct (decimal_ends a Ha) as [H1 H2]. unfold single_text, SplitN2.
  rewrite trim_padded by (try done; by apply decimal_ascii).
  pose proof (no_hyphen a [] Ha ltac:(by constructor)) as Hh. rewrite app_nil_r in Hh. by rewrite cut_none.
Qed.

Lemma split_range p a q r b t : 0 <= a -> 0 <= b -> spaces p -> spaces q -> spaces r -> spaces t ->
  SplitN2 (TrimSpace (range_text p a q r b t)) 45 = [RT.decimal a ++ q; r ++ RT.decimal b].
Proof.
  intros Ha Hb Hp Hq Hr Ht. destruct (decimal_ends a Ha) as [(c & s & E & Hc) _].
  destruct (decimal_ends b Hb) as [_ (c' & s' & E' & Hc')]. unfold range_text, SplitN2.
  assert (Hsp : forall x, spaces x -> Forall (fun b => 0 <= b < 128) x).
  { intros x Hx. apply (Forall_impl _ _ _ Hx). intros y Hy%space_spec. lia. }
  rewrite trim_padded; try done.
  - rewrite (app_assoc (RT.decimal a) q). by rewrite cut_here by by apply no_hyphen.
  - rewrite !Forall_app, Forall_cons, Forall_app. split_and!; try lia; auto using decimal_ascii.
  - exists c, (s ++ q ++ 45 :: r ++ RT.decimal b). by rewrite E.
  - rewrite app_comm_cons, !app_assoc, rev_app_distr, E'. eauto.
Qed.

(** An item of [hidden_networks] as it is written, with any white space
    around its numbers: one network stands for the range of that network, two
    with a hyphen for the range between them, and it is accepted exactly when
    the numbers are valid network numbers below the startup range, in order. *)
Theorem network_range_exact (n1 n2 : Node) (p q r t : list Z) (a b : Z) :
  u16 a -> u16 b -> spaces p -> spaces q -> spaces r -> spaces t ->
  node_Kind n1 = ScalarNode -> node_Value n1 = single_text p a q ->
  node_Kind n2 = ScalarNode -> node_Value n2 = range_text p a q r b t ->
  match AURPNetworkRange_UnmarshalYAML n1 with
  | inr g => g = {| nr_Start := a; nr_End := a |} /\ usable a
  | inl _ => ~ usable a
  end /\
  match AURPNetworkRange_UnmarshalYAML n2 with
  | inr g => g = {| nr_Start := a; nr_End := b |} /\ usable a /\ usable b /\ a <= b
  | inl _ => ~ (usable a /\ usable b /\ a <= b)
  end.
Proof.
  intros Ha Hb Hp Hq Hr Ht K1 V1 K2 V2. assert (Hnil : spaces []) by by constructor.
  pose proof (parse_network_spec [] a [] Ha Hnil Hnil) as Pa. pose proof (parse_network_spec [] a q Ha Hnil Hq) as Pq.
  pose proof (parse_network_spec r b [] Hb Hr Hnil) as Pb. cbn [app] in Pa, Pq. rewrite app_nil_r in Pa, Pb.
  unfold u16 in *. unfold AURPNetworkRange_UnmarshalYAML, parse_range. cbv zeta.
  rewrite K1, V1, K2, V2, split_single, split_range by (done || lia). rewrite bool_decide_true by done.
  cbn [negb hd]. split.
  - destruct (parse_network (RT.decimal a)) as [e|v]; [done|]. destruct Pa as [-> Pa].
    destruct (Z.ltb_spec a a); [lia|done].
  - destruct (parse_network (RT.decimal a ++ q)) as [e|v]; [tauto|]. destruct Pq as [-> Pq].
    destruct (parse_network (r ++ RT.decimal b)) as [e|v]; [tauto|]. destruct Pb as [-> Pb].
    destruct (Z.ltb_spec b a); [lia|done].
Qed.

(** ** Durations *)

Lemma parse_int_decimal s : 0 <= s < 2 ^ 63 -> ParseInt (RT.decimal s) = (s, None).
Proof.
  intros Hs. unfold RT.decimal. destruct (pretty_head s) as (c & rest & Hc & E); [lia|].
  unfold ParseInt. rewrite E. destruct (Z.eqb_spec c 45), (Z.eqb_spec c 43); try lia. cbn [orb].
  rewrite <- E, parse_uint_decimal by lia. cbn [negb andb].
  by destruct (Z.leb_spec (2 ^ 63) s); [lia|].
Qed.

Definition maxSeconds : Z := 9223372036.

Lemma seconds_digits s : 0 <= s < 2 ^ 63 * 10 ->
  leadingInt (RT.decimal s ++ str "s") = if s <=? 2 ^ 63 then Some (s, str "s") else None.
Proof.
  intros Hs. unfold RT.decimal. destruct (Z.leb_spec s (2 ^ 63)); [|apply leading_above; split; [done|apply Hs]].
  unfold leadingInt. rewrite (pretty_loop leading_loop (2 ^ 63) leading_step); [done|lia].
Qed.

Lemma seconds_term orig s : 0 <= s < 2 ^ 63 * 10 ->
  duration_term orig (RT.decimal s ++ str "s") =
    if s <=? maxSeconds then inr (s * Second, []) else inl (invalid orig).
Proof.
  intros Hs. destruct (pretty_head s) as (c & rest & Hc & E); [lia|].
  unfold duration_term. rewrite seconds_digits by done. unfold RT.decimal. rewrite E. cbn [app].
  rewrite (proj2 (digit_spec c)), orb_true_r by lia. cbn [negb]. unfold maxSeconds.
  destruct (Z.leb_spec s (2 ^ 63)) as [Hle|Hgt]; [|by destruct (Z.leb_spec s 9223372036); [lia|]].
  change (str "s") with [115]. rewrite zlen_cons, zlen_app, zlen_cons, zlen_nil. pose proof (zlen_nonneg rest).
  destruct (Z.eqb_spec (zlen rest + (0 + 1) + 1) (0 + 1)); [lia|].
  cbn -[Z.pow Z.div Z.mul Z.ltb unit_of].
  assert (Eu : unit_of [115] = Some Second) by (vm_compute; reflexivity). rewrite Eu.
  change (2 ^ 63 / Second) with 9223372036.
  destruct (Z.ltb_spec 9223372036 s), (Z.leb_spec s 9223372036); done || lia.
Qed.

Lemma parse_unsigned c t : 48 <= c <= 57 -> t <> [] ->
  ParseDuration (c :: t) =
    match duration_term (c :: t) (c :: t) with
    | inl e => inl e
    | inr (v, rest) =>
        let d := wrap64 (0 + v) in
        if 2 ^ 63 <? d then inl (invalid (c :: t))
        else match duration_loop (length t) (c :: t) d rest with
             | inl e => inl e
             | inr d => if 2 ^ 63 - 1 <? d then inl (invalid (c :: t)) else inr d
             end
    end.
Proof.
  intros Hc Ht. unfold ParseDuration. destruct (Z.eqb_spec c 45), (Z.eqb_spec c 43); try lia. cbn [orb].
  rewrite bool_decide_false by (by destruct t). cbn [length duration_loop].
  destruct (duration_term _ _) as [e|[v rest]]; [done|]. cbv zeta. by destruct (2 ^ 63 <? _).
Qed.

Lemma parse_seconds s : 0 <= s < 2 ^ 63 * 10 ->
  ParseDuration (RT.decimal s ++ str "s") =
    if s <=? maxSeconds then inr (s * Second) else inl (invalid (RT.decimal s ++ str "s")).
Proof.
  intros Hs. pose proof (seconds_term (RT.decimal s ++ str "s") s Hs) as Ht.
  destruct (pretty_head s) as (c & rest & Hc & E); [lia|]. fold (RT.decimal s) in E.
  rewrite E in *. cbn [app] in *. rewrite parse_unsigned, Ht by (done || by destruct rest).
  unfold maxSeconds. destruct (Z.leb_spec s 9223372036); [|done]. cbv zeta. rewrite Z.add_0_l.
  assert (Es : s * Second = s * 1000000000) by done. rewrite Es. unfold wrap64.
  change (2 ^ 64) with 18446744073709551616. rewrite Z.mod_small by lia.
  change (2 ^ 63) with 9223372036854775808.
  destruct (Z.ltb_spec 9223372036854775808 (s * 1000000000)); [lia|].
  assert (El : forall k o d, duration_loop k o d [] = inr d) by (by intros []). rewrite El.
  by destruct (Z.ltb_spec (9223372036854775808 - 1) (s * 1000000000)); [lia|].
Qed.

(** The two ways to write a duration of whole seconds, a bare integer and a
    number with the unit, mean the same as long as the duration fits; beyond
    that the one with the unit is refused, but the bare integer is accepted
    modulo 2^64 nanoseconds - any number of seconds and that number plus 2^55
    are the same. *)
Theorem duration_forms (n1 n2 : Node) (s : Z) :
  0 <= s < 2 ^ 63 ->
  node_Kind n1 = ScalarNode -> node_Tag n1 = str "!!int" -> node_Value n1 = RT.decimal s ->
  node_Kind n2 = ScalarNode -> node_Tag n2 <> str "!!int" -> node_Value n2 = RT.decimal s ++ str "s" ->
  (s <= maxSeconds ->
     YAMLDuration_UnmarshalYAML n1 = inr (s * Second) /\ YAMLDuration_UnmarshalYAML n2 = inr (s * Second)) /\
  (maxSeconds < s ->
     exists d, YAMLDuration_UnmarshalYAML n1 = inr d /\ i64 d /\ d mod 2 ^ 64 = (s * Second) mod 2 ^ 64 /\
       (forall s', s = s' + 2 ^ 55 -> 0 <= s' <= maxSeconds -> d = s' * Second) /\
       exists e, YAMLDuration_UnmarshalYAML n2 = inl e).
Proof.
  intros Hs K1 T1 V1 K2 T2 V2. unfold YAMLDuration_UnmarshalYAML. rewrite K1, T1, V1, K2, V2.
  rewrite !bool_decide_true, bool_decide_false by done. cbn [negb].
  rewrite parse_int_decimal, parse_seconds by (done || lia).
  assert (Es : forall x, x * Second = x * 1000000000) by done. rewrite !Es. unfold maxSeconds, to_int64, i64.
  change (2 ^ 64) with 18446744073709551616. change (2 ^ 63) with 9223372036854775808 in *.
  destruct (Z.leb_spec s 9223372036) as [Hle|Hgt]; split; intros H; try lia.
  - rewrite Z.mod_small by lia. split; [f_equal; lia|done].
  - eexists. split; [done|]. split_and!.
    + pose proof (Z.mod_pos_bound (s * 1000000000 + 9223372036854775808) 18446744073709551616 ltac:(lia)). lia.
    + pose proof (Z.mod_pos_bound (s * 1000000000 + 9223372036854775808) 18446744073709551616 ltac:(lia)). lia.
    + rewrite Zminus_mod_idemp_l. f_equal. lia.
    + intros s' -> Hs'. change (2 ^ 55) with 36028797018963968. change Second with 1000000000.
      replace ((s' + 36028797018963968) * 1000000000 + 9223372036854775808)
        with (s' * 1000000000 + 9223372036854775808 + 1953125 * 18446744073709551616) by lia.
      rewrite Z.mod_add, Z.mod_small by lia. lia.
    + by eexists.
Qed.
End Text.

(** ** Witnesses *)

#[local] Existing Instances ascii_strings wit_yaml.

Definition wit_pair : wit_node := (ScalarNode, str "!!str", str " 7 - 12 ").

Lemma wit_spaces k : spaces (replicate k 32).
Proof. induction k; constructor; done. Qed.

Lemma network_range_exact_witness :
  match AURPNetworkRange_UnmarshalYAML wit_pair with
  | inr g => g = {| nr_Start := 7; nr_End := 12 |} /\ usable 7 /\ usable 12 /\ 7 <= 12
  | inl _ => ~ (usable 7 /\ usable 12 /\ 7 <= 12)
  end.
Proof.
  apply (network_range_exact (Y := wit_yaml) (ScalarNode, str "!!int", str " 7 ") wit_pair [32] [32] [32] [32] 7 12);
    [split; done|split; done|exact (wit_spaces 1)..|done|by vm_compute|done|by vm_compute].
Defined.

Lemma duration_forms_witness :
  exists d, YAMLDuration_UnmarshalYAML (ScalarNode, str "!!int", str "36028797018963998") = inr d /\ d = 30 * Second.
Proof.
  destruct (duration_forms (Y := wit_yaml) (ScalarNode, str "!!int", str "36028797018963998")
    (ScalarNode, str "!!str", str "36028797018963998s") 36028797018963998) as [_ H];
    [split; done|done|done|by vm_compute|done|done|by vm_compute|].
  destruct (H ltac:(done)) as (d & Ed & _ & _ & Hd & _). exists d. split; [exact Ed|].
  apply Hd; [done|split; done].
Defined.
