(* ===== verification/Startup.v ===== *)
(** * Start-up ([main.go], [pcap_device_other.go])

    From the configuration to the router as its goroutines find it: the local
    identity, the ports with their routes, the list of peers and their first
    resolution.  [Host] is the machine the program starts on: its interfaces,
    the capture library and the conversion of a hardware address to the
    library's type.  Creating ports runs in [R]; an [Exit] is [os.Exit(1)].
    Flags, logging, the HTTP server and signals are left out. *)
From S2P Require Import Prelude Wtacc AurpHeaders AurpTuples AurpZoneInfo AurpPacket AurpTransport.
From S2P Require Import PeerPolicy GoSort RouteTable RouteExport PeerState PeerZones AtalkNbp Atalk AtalkRtmp AtalkZip.
From S2P Require Import DdpPolicy Seed LoopProbe Aarp Outbox Router Cluster Rtmp Zip Services EtherTalk PeerTable.
From S2P Require Import GoParse Config.
Import RT Policy Router Peers GoParse Config.

Module Startup.

Record Interface := MkIface { Name : list Z; HardwareAddr : list Z }.

(** [InterfaceAddrs] has the address of each [*net.IPNet], [None] for another
    kind of [net.Addr].  [ethernet_Addr] is [None] when the conversion panics. *)
Class Host := {
  InterfaceAddrs : goerr + list (option (list Z));
  InterfaceByName : list Z -> goerr + Interface;
  ParseIP : list Z -> option (list Z);
  ParseMAC : list Z -> goerr + list Z;
  ethernet_Addr : list Z -> option (list Z);
  OpenLive : list Z -> goerr + unit;
  SetBPFFilter : list Z -> list Z -> option goerr }.

Inductive outcome (A : Type) := Exit | Runs (a : A).
Arguments Exit {A}.
Arguments Runs {A}.

(** ** Addresses ([net]) *)

Definition IPv4bcast : list Z := v4InV6Prefix ++ [255; 255; 255; 255].
Definition IPv4zero : list Z := v4InV6Prefix ++ [0; 0; 0; 0].
Definition IPv6unspecified : list Z := replicate 16 0.
Definition IPv6loopback : list Z := replicate 15 0 ++ [1].

Definition byte_at (ip : list Z) (i : nat) : Z := nth i ip 0.

Definition IsUnspecified (ip : list Z) : bool := ip_Equal ip IPv4zero || ip_Equal ip IPv6unspecified.
Definition IsLoopback (ip : list Z) : bool :=
  match To4 ip with Some ip4 => byte_at ip4 0 =? 127 | None => ip_Equal ip IPv6loopback end.
Definition IsMulticast (ip : list Z) : bool :=
  match To4 ip with
  | Some ip4 => Z.land (byte_at ip4 0) 0xf0 =? 0xe0
  | None => (zlen ip =? 16) && (byte_at ip 0 =? 0xff)
  end.
Definition IsLinkLocalUnicast (ip : list Z) : bool :=
  match To4 ip with
  | Some ip4 => (byte_at ip4 0 =? 169) && (byte_at ip4 1 =? 254)
  | None => (zlen ip =? 16) && (byte_at ip 0 =? 0xfe) && (Z.land (byte_at ip 1) 0xc0 =? 0x80)
  end.
Definition IsGlobalUnicast (ip : list Z) : bool :=
  ((zlen ip =? 4) || (zlen ip =? 16)) && negb (ip_Equal ip IPv4bcast) && negb (IsUnspecified ip) &&
  negb (IsLoopback ip) && negb (IsMulticast ip) && negb (IsLinkLocalUnicast ip).

Section Startup.
Context {GStr : GoStrings} {GS : GoSort} {MO : MapOrder} {GN : GoNet} `{MT : DDP.Multitalk} `{ET : Aarp.Ethertalk}.
Context {H : Host} {Y : Yaml}.

(** ** The local identity *)

(** The first global unicast IPv4 address; [None] is nil. *)
Fixpoint first_unicast (iaddrs : list (option (list Z))) : option (list Z) :=
  match iaddrs with
  | [] => None
  | None :: iaddrs => first_unicast iaddrs
  | Some ip :: iaddrs =>
      if negb (IsGlobalUnicast ip) then first_unicast iaddrs
      else match To4 ip with None => first_unicast iaddrs | Some ip => Some ip end
  end.

Definition defaultDomainIdentifier : outcome (option (list Z)) :=
  match InterfaceAddrs with
  | inl _ => Exit
  | inr iaddrs => Runs (first_unicast iaddrs)
  end.

Definition local_identity (cfg : Config) : outcome (list Z) :=
  match ParseIP (LocalIP cfg) ≫= To4 with
  | Some ip => Runs ip
  | None =>
      match defaultDomainIdentifier with
      | Exit | Runs None => Exit
      | Runs (Some ip) => Runs ip
      end
  end.

(** ** EtherTalk ports *)

(** [pcap_device_other.go]. *)
Definition pcapDeviceName (iface : Interface) : goerr + list Z := inr (Name iface).

(** [fmt.Sprintf("%s", addr)], colon-separated hexadecimal. *)
Definition hw_string (a : list Z) : list Z :=
  match a with [] => [] | b :: a => hex_byte b ++ concat (map (fun b => 58 :: hex_byte b) a) end.

Definition bpfFilter (myHWAddr : list Z) : list Z :=
  str "(atalk or aarp) and (ether multicast or ether dst " ++ hw_string myHWAddr ++ str ")".

(** The hardware address of a port; [None] is the panic of the conversion. *)
Definition port_hwaddr (etcfg : EtherTalkConfig) (iface : Interface) : option (outcome (list Z)) :=
  myHWAddr ← ethernet_Addr (HardwareAddr iface);
  if bool_decide (EthAddr etcfg = []) then Some (Runs myHWAddr)
  else match ParseMAC (EthAddr etcfg) with
  | inl _ => Some Exit
  | inr mac => myHWAddr ← ethernet_Addr mac; Some (Runs myHWAddr)
  end.

(** What the loop does before [NewEtherTalkPort]: the hardware address. *)
Definition open_device (etcfg : EtherTalkConfig) : option (outcome (list Z)) :=
  match InterfaceByName (Device etcfg) with
  | inl _ => Some Exit
  | inr iface =>
      hw ← port_hwaddr etcfg iface;
      match hw with
      | Exit => Some Exit
      | Runs myHWAddr =>
          match pcapDeviceName iface with
          | inl _ => Some Exit
          | inr captureDevice =>
              match OpenLive captureDevice with
              | inl _ => Some Exit
              | inr _ =>
                  match SetBPFFilter captureDevice (bpfFilter myHWAddr) with
                  | Some _ => Some Exit
                  | None => Some (Runs myHWAddr)
                  end
              end
          end
      end
  end.

(** [router.MakeSet(etcfg.ExtraZones...)] and the default zone. *)
Definition port_zones (etcfg : EtherTalkConfig) : gset (list Z) :=
  let zones := list_to_set (ExtraZones etcfg) in
  if bool_decide (DefaultZoneName etcfg = []) then zones else {[DefaultZoneName etcfg]} ∪ zones.

(** The mode of a validated port; any other string acts like [none]. *)
Definition mode_of (s : list Z) : Seed.SeedMode :=
  if bool_decide (s = SeedModeHard) then Seed.SeedModeHard
  else if bool_decide (s = SeedModeSoft) then Seed.SeedModeSoft
  else Seed.SeedModeNone.

(** One turn of the loop; the port comes with its hardware address. *)
Definition create_port (etcfg : EtherTalkConfig) : R (outcome (list Z * list Z)) :=
  match open_device etcfg with
  | None => fun _ => None
  | Some Exit => mret Exit
  | Some (Runs myHWAddr) =>
      r ← EtherTalk.NewEtherTalkPort (Device etcfg) (NetStart etcfg) (NetEnd etcfg) (DefaultZoneName etcfg)
            (port_zones etcfg) (mode_of (SeedMode etcfg)) (SoftSeedDelay etcfg);
      match snd r with
      | Some _ => mret Exit
      | None => mret (Runs (device (fst r), myHWAddr))
      end
  end.

Fixpoint createEtherTalkPorts (etcfgs : list EtherTalkConfig) : R (outcome (list (list Z * list Z))) :=
  match etcfgs with
  | [] => mret (Runs [])
  | etcfg :: etcfgs =>
      r ← create_port etcfg;
      match r with
      | Exit => mret Exit
      | Runs p =>
          rest ← createEtherTalkPorts etcfgs;
          match rest with Exit => mret Exit | Runs ps => mret (Runs (p :: ps)) end
      end
  end.

(** ** The list of peers *)

(** [body] is what [http.Get] and the scanner give: the lines, and the error
    after them. *)
Definition fetchPeerListURL (body : goerr + (list (list Z) * option goerr)) (cfg : Config) :
    outcome (list (list Z)) :=
  if bool_decide (PeerListURL cfg = []) then Runs (Config.Peers cfg)
  else match body with
  | inl _ => Exit
  | inr (lines, err) =>
      let peers := Config.Peers cfg ++ filter (fun p => p <> []) (map TrimSpace lines) in
      match err with Some _ => Exit | None => Runs peers end
  end.

(** ** The first resolution of the peers

    The main goroutine sends the names to workers, which track and resolve
    them; a worker's resolution is one step here. *)

Inductive worker := Waiting | Got (peerStr : list Z) | Tracked (peerStr : list Z) | Stopped.

Record Pool := MkPool {
  names : list (list Z);
  workers : list worker;
  cancelled : bool;
  table_of : TW }.

Definition set_worker (i : nat) (v : worker) (p : Pool) : Pool :=
  MkPool (names p) (<[i := v]> (workers p)) (cancelled p) (table_of p).
Definition pool_table (w : TW) (p : Pool) : Pool := MkPool (names p) (workers p) (cancelled p) w.

(** A worker stops at the close of the channel, or at any turn when the context
    is done; so does the sender, with names left. *)
Inductive pool_step (localDI : DomainIdentifier) (p : Pool) : Pool -> Prop :=
| ps_skip rest : names p = [] :: rest ->
    pool_step localDI p (MkPool rest (workers p) (cancelled p) (table_of p))
| ps_send i peerStr rest : names p = peerStr :: rest -> peerStr <> [] -> workers p !! i = Some Waiting ->
    pool_step localDI p (set_worker i (Got peerStr) (MkPool rest (workers p) (cancelled p) (table_of p)))
| ps_track i peerStr w : workers p !! i = Some (Got peerStr) ->
    TrackConfiguredAddress peerStr (table_of p) = Some (w, tt) ->
    pool_step localDI p (pool_table w (set_worker i (Tracked peerStr) p))
| ps_resolve i peerStr w r : workers p !! i = Some (Tracked peerStr) ->
    ResolveConfiguredPeer peerStr localDI (table_of p) = Some (w, r) ->
    pool_step localDI p (pool_table w (set_worker i Waiting p))
| ps_closed i : names p = [] -> workers p !! i = Some Waiting ->
    pool_step localDI p (set_worker i Stopped p)
| ps_cancel : cancelled p = false ->
    pool_step localDI p (MkPool (names p) (workers p) true (table_of p))
| ps_abandon : cancelled p = true -> names p <> [] ->
    pool_step localDI p (MkPool [] (workers p) (cancelled p) (table_of p))
| ps_done i : cancelled p = true -> workers p !! i = Some Waiting ->
    pool_step localDI p (set_worker i Stopped p).

(** [GOMAXPROCS] workers at the start. *)
Definition resolvePeerHostnames (procs : nat) (peers : list (list Z)) (w : TW) : Pool :=
  MkPool peers (replicate procs Waiting) false w.

Definition finished (p : Pool) : Prop := names p = [] /\ Forall (fun v => v = Stopped) (workers p).

(** ** [main], up to the goroutines *)

Record Started := MkStarted {
  identity : DomainIdentifier;
  s_ports : list (list Z * list Z);
  s_peers : list (list Z);
  world : TW }.

(** The router before its ports. *)
Definition new_router (cfg : Config) (now : Z) : RW :=
  {| table := NewRouteTable; ports := []; config := Some (AURP cfg); clock := now; emitted := [];
     sends := []; tallies := []; probes := Loop.MkProbes ∅ ∅; loopSignals := []; notes := [] |}.

(** [udp] is the error of [net.ListenUDP], [rs] the random numbers. *)
Definition main (file : goerr + list Z) (udp : option goerr) (rs : list Z) (now : Z)
    (body : goerr + (list (list Z) * option goerr)) : option (outcome Started) :=
  loaded ← LoadConfig file;
  match loaded with
  | NotLoaded _ | Loaded _ (_ :: _) => Some Exit
  | Loaded cfg [] =>
      match local_identity cfg with
      | Exit => Some Exit
      | Runs localDI =>
          match udp with
          | Some _ => Some Exit
          | None =>
              t ← NewAURPPeerTable (AURP cfg) rs;
              if bool_decide (EtherTalk cfg = []) then Some Exit
              else
                etcfgs ← mapM id (EtherTalk cfg);
                '(r, made) ← createEtherTalkPorts etcfgs (new_router cfg now);
                match made with
                | Exit => Some Exit
                | Runs ps =>
                    match fetchPeerListURL body cfg with
                    | Exit => Some Exit
                    | Runs peers =>
                        Some (Runs (MkStarted (IPDomainIdentifier localDI) ps peers (MkTW ∅ t r [] [] [])))
                    end
                end
          end
      end
  end.

End Startup.
End Startup.
