(* ===== verification/StartupSpec.v ===== *)
(** * Start-up: the router that [main] hands to its goroutines *)
From S2P Require Import Prelude Wtacc AurpHeaders AurpTuples AurpZoneInfo AurpPacket AurpTransport.
From S2P Require Import PeerPolicy GoSort RouteTable RouteTableInv RouteTableOps RouteTableSpec RouteExport.
From S2P Require Import PeerState PeerZones PeerFSM PeerInv PeerKeeps PeerTotal PeerSpec PeerRecv.
From S2P Require Import AtalkNbp Atalk AtalkRtmp AtalkZip DdpPolicy TunnelSpec Seed LoopProbe Aarp Outbox.
From S2P Require Import Router RouterSpec Cluster Rtmp RtmpSpec Zip Services ServicesSpec EtherTalk.
From S2P Require Import PeerTable PeerTableInv PeerTableSpec AurpInput AurpInputSpec System SystemSpec.
From S2P Require Import GoParse Config ConfigSpec Startup.
Import RT Policy Router Peers Config Startup.

Create HintDb remembers.

Section Spec.
Context {GStr : GoStrings} {GS : GoSort} {MO : MapOrder} {GN : GoNet} `{MT : DDP.Multitalk} `{ET : Aarp.Ethertalk}.
Context {H : Host} {Y : Yaml} {YL : YamlLaws}.

(** ** One port *)

Definition hard (p : EtherTalkConfig) : Prop := SeedMode p = SeedModeHard.

(** The port [NewEtherTalkPort] makes of its configuration. *)
Definition port_record (p : EtherTalkConfig) : Port :=
  let hard := bool_decide (mode_of (SeedMode p) = Seed.SeedModeHard) in
  {| device := Device p; netStart := NetStart p; netEnd := NetEnd p;
     cableStart := if hard then NetStart p else Aarp.phase2StartupStart;
     cableEnd := if hard then NetEnd p else Aarp.phase2StartupEnd;
     myAddr := DDP.MkAddr 0 0; defaultZoneName := DefaultZoneName p; availableZones := port_zones p;
     aarpAddress := None; operationalRange := None;
     seed := Some (Seed.newSeedController (mode_of (SeedMode p)) (SoftSeedDelay p) (NetStart p) (NetEnd p)
                     (DefaultZoneName p)) |}.

Lemma mode_hard p : mode_of (SeedMode p) = Seed.SeedModeHard <-> hard p.
Proof.
  unfold mode_of, hard. case_bool_decide as E; [done|]. by case_bool_decide.
Qed.

Definition port_key (p : EtherTalkConfig) : TargetClass * RouteKey :=
  (TargetClassDirect, key_of (EtherTalkPort (Device p)) (NetStart p)).

Lemma port_key_device p q : port_key p = port_key q -> Device p = Device q.
Proof. unfold port_key, key_of. intros [= E _]. done. Qed.

(** The table after the ports [ps], all of whose routes are theirs. *)
Record built (ps : list EtherTalkConfig) (rt : RouteTable) : Prop := {
  b_reachable : reachable rt;
  b_installed p : p ∈ ps -> hard p -> exists r, byClass rt !! port_key p = Some r /\
    Target r = Some (EtherTalkPort (Device p)) /\ RT.NetEnd r = NetEnd p /\ Distance r = 0 /\
    port_zones p ⊆ ZoneNames (net_at rt (NetStart p));
  b_only ck r : byClass rt !! ck = Some r -> exists p, p ∈ ps /\ hard p /\ ck = port_key p /\ RT.NetEnd r = NetEnd p }.

Lemma built_skip ps p rt : built ps rt -> ~ hard p -> built (ps ++ [p]) rt.
Proof.
  intros [H1 H2 H3] Hp. split; [done| |].
  - intros q Hq Hh. apply H2; [|done]. apply elem_of_app in Hq as [Hq|Hq%list_elem_of_singleton]; [done|by subst].
  - intros ck r E. destruct (H3 ck r E) as (q & Hq & Hr). exists q. split; [by apply elem_of_app; left|done].
Qed.

Lemma modport_last dev f (p : Port) ps w :
  ports w = ps ++ [p] -> Forall (fun q => device q <> dev) ps -> device p = dev -> f p = p ->
  modport dev f w = Some (w, tt).
Proof.
  intros E Hps Hd Hf. unfold modport, modw. rewrite E, map_app. cbn [map]. rewrite bool_decide_true, Hf by done.
  replace (map _ ps) with ps; [by rewrite <- E; destruct w|]. clear E.
  induction Hps as [|q ps Hq _ IH]; [done|]. cbn [map]. by rewrite bool_decide_false, <- IH.
Qed.

Lemma port_hard_runs ps p w :
  built ps (table w) -> ports w = map port_record ps ++ [port_record p] ->
  Forall (fun q => Device q <> Device p) ps -> hard p -> cable_range (NetStart p) (NetEnd p) ->
  exists w', EtherTalk.activateCableRange (port_record p) (NetStart p) (NetEnd p) w = Some (w', None) /\
    built (ps ++ [p]) (table w') /\ ports w' = ports w /\ config w' = config w /\ clock w' = clock w.
Proof.
  intros [Hr Hi Ho] Ep Hd Hh [Hse He]. pose proof (proj2 (mode_hard p) Hh) as Hm.
  assert (Hcs : cableStart (port_record p) = NetStart p /\ cableEnd (port_record p) = NetEnd p).
  { unfold port_record. by rewrite Hm, bool_decide_true. }
  destruct Hcs as [Hcs Hce]. unfold EtherTalk.activateCableRange.
  assert (Hns : Aarp.isPhase2StartupRange (NetStart p) (NetEnd p) = false).
  { unfold Aarp.isPhase2StartupRange, Aarp.phase2StartupStart. by zdec. }
  rewrite Hns, Hcs, Hce, !Z.eqb_refl, andb_false_r. cbn [andb negb orb].
  destruct (Z.eqb_spec (NetStart p) 0), (Z.eqb_spec (NetEnd p) 0); try lia. cbn [orb].
  rewrite (r_bind (getw table) _ w w (table w)) by done. rewrite (r_bind (getw clock) _ w w (clock w)) by done.
  rewrite (r_bind (mret None) _ w w None) by done. cbv iota beta.
  assert (Hset : setCableRange (NetStart p) (NetEnd p) (port_record p) = port_record p).
  { unfold setCableRange, port_record. by rewrite Hm, bool_decide_true. }
  assert (Hm1 : modport (device (port_record p)) (setCableRange (NetStart p) (NetEnd p)) w = Some (w, tt)).
  { eapply modport_last; [exact Ep|by rewrite Forall_map|done|exact Hset]. }
  rewrite (r_bind _ _ _ _ _ Hm1). rewrite Hset.
  destruct (UpsertRoute_ok (table w)) with (now := clock w) (t := port_target (port_record p))
    (ext := true) (s := NetStart p) (e := NetEnd p) (d := 0) as (tr & rt' & notes' & E2 & Hinv & _ & Hby & _ & Hz & _);
    [by apply reachable_inv|lia|lia|done|unfold maxRouteDistance; lia|].
  change (Class_ (port_target (port_record p)), key_of (port_target (port_record p)) (NetStart p))
    with (port_key p) in *.
  assert (Hnew : byClass (table w) !! port_key p = None).
  { destruct (byClass (table w) !! port_key p) as [r|] eqn:E; [|done]. destruct (Ho _ _ E) as (q & Hq & _ & Ek & _).
    rewrite Forall_forall in Hd. by destruct (Hd q Hq); apply port_key_device. }
  rewrite Hnew in Hz.
  assert (Hzn : forall m, ZoneNames (net_at rt' m) = ZoneNames (net_at (table w) m)).
  { intros m. destruct (Hz m) as [_ Hc]. destruct (decide (ZoneNames (net_at rt' m) = ZoneNames (net_at (table w) m))) as [|Hn]; [done|].
    destruct (Hc Hn) as (((o & Ho' & _) & _) & _). done. }
  assert (Hr2 : reachable rt').
  { eapply rtc_r; [exact Hr|]. eapply step_upsert; [..|exact E2]; unfold u16, u8; lia. }
  erewrite r_bind by (unfold on_table; rewrite E2; reflexivity). cbn [checkr].
  assert (Hauth : ZipService.seedAuthorityActive (port_record p) = true).
  { unfold ZipService.seedAuthorityActive, port_record, Seed.activeAuthority. cbn. by rewrite Hm. }
  rewrite Hauth. unfold EtherTalk.activateConfiguredZones. rewrite Hcs. unfold Aarp.phase2StartupStart.
  destruct (Z.eqb_spec (NetStart p) 0), (Z.leb_spec 0xff00 (NetStart p)); try lia. cbn [orb].
  set (w2 := with_notes _ _). pose proof (AddZones_spec rt' Hinv (clock w2) (NetStart p) (set_range (port_zones p))) as HA.
  pose proof (step_add_zones rt' (clock w2) (NetStart p) (set_range (port_zones p)) ltac:(unfold u16; lia)) as Hs3.
  destruct (AddZonesToNetwork (clock w2) (NetStart p) (set_range (port_zones p)) rt') as [rt3 notes3] eqn:EA.
  destruct HA as (_ & [Hby3 _] & _ & HZ3 & _).
  assert (Ez : EtherTalk.add_zones (NetStart p) (set_range (availableZones (port_record p))) w2
               = Some (with_notes (notes w2 ++ notes3) (with_table rt3 w2), tt)).
  { unfold EtherTalk.add_zones, on_table, mbind, R_bind, getw. change (table w2) with rt'.
    change (availableZones (port_record p)) with (port_zones p). by rewrite EA. }
  rewrite (r_bind _ _ _ _ _ Ez). eexists. split; [done|]. cbn [table with_notes with_table ports config clock].
  split; [|done]. split.
  - eapply rtc_r; [exact Hr2|exact Hs3].
  - intros q Hq Hqh. rewrite Hby3, Hby. apply elem_of_app in Hq as [Hq|Hq%list_elem_of_singleton].
    + destruct (Hi q Hq Hqh) as (r & Er & Ht & Hne & Hdi & Hzo). exists r. split.
      * rewrite lookup_insert_ne; [done|]. intros Ek%port_key_device. rewrite Forall_forall in Hd. by destruct (Hd q Hq).
      * split_and!; try done. rewrite HZ3. case_decide as En; [|by rewrite Hzn].
        rewrite En, Hzn in *. intros z Hz'. by apply elem_of_union_l, Hzo.
    + subst q. eexists. split; [apply lookup_insert_eq|]. split_and!; try done. rewrite HZ3, decide_True by done.
      intros z Hz'. apply elem_of_union_r, elem_of_list_to_set. by rewrite set_range_perm, elem_of_elements.
  - intros ck r. rewrite Hby3, Hby. destruct (decide (ck = port_key p)) as [->|Hne].
    + rewrite lookup_insert_eq. intros [= <-]. exists p. split; [by apply elem_of_app; right; apply list_elem_of_singleton|done].
    + rewrite lookup_insert_ne by done. intros Er. destruct (Ho ck r Er) as (q & Hq & Hrest).
      exists q. split; [by apply elem_of_app; left|done].
Qed.

(** ** All ports *)

Definition opens (p : EtherTalkConfig) : Prop := exists hw, open_device p = Some (Runs hw).

Lemma create_port_runs ps p w :
  built ps (table w) -> ports w = map port_record ps -> Forall (fun q => Device q <> Device p) ps ->
  port_valid p -> opens p ->
  exists w' hw, create_port p w = Some (w', Runs (Device p, hw)) /\
    built (ps ++ [p]) (table w') /\ ports w' = map port_record (ps ++ [p]) /\ config w' = config w /\ clock w' = clock w.
Proof.
  intros Hb Ep Hd Hv [hw Eo].
  assert (Hnew : exists w', EtherTalk.NewEtherTalkPort (Device p) (NetStart p) (NetEnd p) (DefaultZoneName p)
      (port_zones p) (mode_of (SeedMode p)) (SoftSeedDelay p) w = Some (w', (port_record p, None)) /\
    built (ps ++ [p]) (table w') /\ ports w' = map port_record (ps ++ [p]) /\ config w' = config w /\ clock w' = clock w).
  { unfold EtherTalk.NewEtherTalkPort. cbv zeta. set (w1 := Router.with_ports (ports w ++ [port_record p]) w).
    destruct (decide (hard p)) as [Hh|Hh].
    - pose proof (proj2 (mode_hard p) Hh) as Hm.
      destruct (pv_range p Hv) as [Hrange|(Hn & _)]; [|by rewrite Hh in Hn].
      destruct (port_hard_runs ps p w1) as (w2 & E2 & Hb2 & Ep2 & Ec2 & Ek2); try done; [by cbn; rewrite Ep|].
      unfold port_record in E2. exists w2. split; [|split; [done|]].
      + rewrite Hm, !bool_decide_true in * by done. rewrite (r_bind _ _ w w1 tt).
        * rewrite (r_bind _ _ _ _ _ E2). unfold port_record. by rewrite Hm, bool_decide_true.
        * unfold w1, port_record. by rewrite Hm, bool_decide_true.
      + rewrite Ep2. cbn. by rewrite Ep, map_app.
    - assert (Hm : mode_of (SeedMode p) <> Seed.SeedModeHard) by (by intros ?%mode_hard).
      exists w1. split; [|split; [by apply built_skip|cbn; by rewrite Ep, map_app]].
      rewrite !bool_decide_false by done. rewrite (r_bind _ _ w w1 tt).
      + unfold port_record. by rewrite bool_decide_false.
      + unfold w1, port_record. by rewrite bool_decide_false. }
  destruct Hnew as (w' & E & Hrest). exists w', hw. split; [|exact Hrest].
  unfold create_port. rewrite Eo. by rewrite (r_bind _ _ _ _ _ E).
Qed.

Lemma create_ports_run ps qs w :
  built ps (table w) -> ports w = map port_record ps -> NoDup (map Device (ps ++ qs)) ->
  Forall port_valid qs -> Forall opens qs ->
  exists w' made, createEtherTalkPorts qs w = Some (w', Runs made) /\ map fst made = map Device qs /\
    built (ps ++ qs) (table w') /\ ports w' = map port_record (ps ++ qs) /\ config w' = config w /\ clock w' = clock w.
Proof.
  revert ps w. induction qs as [|q qs IH]; intros ps w Hb Ep Hnd Hv Hop; cbn [createEtherTalkPorts].
  { exists w, []. rewrite app_nil_r. done. }
  apply Forall_cons in Hv as [Hq Hv]. apply Forall_cons in Hop as [Hoq Hop].
  destruct (create_port_runs ps q w) as (w1 & hw & E1 & Hb1 & Ep1 & Ec1 & Ek1); try done.
  { rewrite map_app in Hnd. cbn [map] in Hnd. apply NoDup_app in Hnd as (_ & Hnd & _).
    apply Forall_forall. intros x Hx Ex. apply (Hnd (Device x)); [by apply list_elem_of_fmap_2|].
    rewrite Ex. apply list_elem_of_here. }
  destruct (IH (ps ++ [q]) w1) as (w2 & made & E2 & Em & Hb2 & Ep2 & Ec2 & Ek2); try done.
  { by rewrite <- app_assoc. }
  rewrite <- app_assoc in Hb2, Ep2. exists w2, ((Device q, hw) :: made).
  rewrite (r_bind _ _ _ _ _ E1). rewrite (r_bind _ _ _ _ _ E2). split; [done|]. cbn [map fst]. by rewrite Em, Ec2, Ek2.
Qed.

Lemma built_nothing : built [] NewRouteTable.
Proof.
  split; [apply rtc_refl|by intros p ?%elem_of_nil|]. intros ck r. cbn. by rewrite lookup_empty.
Qed.

(** ** [main] *)


(** ** The first resolution *)

Definition tracked (w : TW) (c : list Z) : Prop := is_Some (dnsByConfigured (PeerTable.Peers.peers w) !! c).

(** Whatever [m] does, no configured name is forgotten. *)
Definition remembers {A} (m : T A) : Prop :=
  forall w w' a, m w = Some (w', a) -> forall c, tracked w c -> tracked w' c.

Lemma remembers_bind {A B} (m : T A) (f : A -> T B) :
  remembers m -> (forall a, remembers (f a)) -> remembers (m ≫= f).
Proof.
  intros Hm Hf w w' b. unfold mbind, T_bind. destruct (m w) as [[w1 a]|] eqn:E; [|done].
  intros E2 c Hc. apply (Hf a _ _ _ E2), (Hm _ _ _ E), Hc.
Qed.
Lemma remembers_still {A} (m : T A) :
  (forall w w' a, m w = Some (w', a) -> dnsByConfigured (PeerTable.Peers.peers w') = dnsByConfigured (PeerTable.Peers.peers w)) ->
  remembers m.
Proof. intros Hm w w' a E c. unfold tracked. by rewrite (Hm _ _ _ E). Qed.
Lemma remembers_dns f : (forall t c, is_Some (dnsByConfigured t !! c) -> is_Some (dnsByConfigured (f t) !! c)) ->
  remembers (modtable f).
Proof. intros Hf w w' a. unfold modtable, modt. intros [= <- _] c. apply Hf. Qed.

Lemma remembers_ret {A} (a : A) : remembers (mret a).
Proof. apply remembers_still. by intros w w' b [= <- _]. Qed.
Lemma remembers_gett {A} (f : TW -> A) : remembers (gett f).
Proof. apply remembers_still. by intros w w' b [= <- _]. Qed.
Lemma remembers_modt f : (forall w, PeerTable.Peers.peers (f w) = PeerTable.Peers.peers w) -> remembers (modt f).
Proof. intros Hf. apply remembers_still. intros w w' b [= <- _]. by rewrite Hf. Qed.
Lemma remembers_deref p : remembers (deref p).
Proof. apply remembers_still. intros w w' b. unfold deref. case_match; [|done]. by intros [= <- _]. Qed.
Lemma remembers_store p f : remembers (store p f).
Proof. apply remembers_still. intros w w' b. unfold store. case_match; [|done]. by intros [= <- _]. Qed.
Lemma remembers_table f : (forall t, dnsByConfigured (f t) = dnsByConfigured t) -> remembers (modtable f).
Proof. intros Hf. apply remembers_dns. intros t c. by rewrite Hf. Qed.
Lemma remembers_draw : remembers draw.
Proof. apply remembers_still. by intros w w' b [= <- _]. Qed.
Lemma remembers_lookup_ip : remembers LookupIP.
Proof. apply remembers_still. by intros w w' b [= <- _]. Qed.
Lemma remembers_set_dns c s : remembers (set_dns c s).
Proof.
  apply remembers_dns. intros t d Hd. cbn. destruct (decide (d = c)) as [->|];
    [by rewrite lookup_insert_eq|by rewrite lookup_insert_ne].
Qed.
Lemma remembers_track c : remembers (track c).
Proof.
  apply remembers_dns. intros t d Hd. destruct (dnsByConfigured t !! c); [done|]. cbn.
  destruct (decide (d = c)) as [->|]; [by rewrite lookup_insert_eq|by rewrite lookup_insert_ne].
Qed.

#[local] Hint Resolve remembers_bind remembers_ret remembers_gett remembers_deref remembers_store remembers_draw
  remembers_lookup_ip remembers_set_dns remembers_track : remembers.

Ltac remember_steps :=
  repeat first
    [ progress intros
    | solve [auto with remembers]
    | apply remembers_bind
    | apply remembers_table; done
    | apply remembers_modt; done
    | progress cbv zeta
    | match goal with |- remembers (match ?x with _ => _ end) => destruct x end ].

Lemma remembers_note c now e : remembers (noteDNSFailure c now e).
Proof. unfold noteDNSFailure, jitterDNSBackoff. remember_steps. Qed.
Lemma remembers_fail {A} c e : remembers (fail_dns (A := A) c e).
Proof. unfold fail_dns. pose proof remembers_note. unfold time_now. remember_steps. Qed.
Lemma remembers_lookup c raddr ldi rdi : remembers (LookupOrCreate c raddr ldi rdi).
Proof. unfold LookupOrCreate, adopt_peer, create_peer, link_ip, link_configured. remember_steps. Qed.
Lemma remembers_candidates c ldi cs found : remembers (create_candidates c ldi cs found).
Proof.
  pose proof @remembers_fail. pose proof remembers_lookup.
  revert found. induction cs; cbn [create_candidates]; remember_steps.
Qed.
Lemma remembers_resolve c ldi : remembers (ResolveConfiguredPeer c ldi).
Proof.
  pose proof @remembers_fail. pose proof remembers_candidates.
  unfold ResolveConfiguredPeer, resetDNSBackoff, time_now. remember_steps.
Qed.

(** *** The pool of workers *)

#[local] Instance worker_eq_dec : EqDecision worker.
Proof. solve_decision. Defined.

Record pool_ok (all : list (list Z)) (procs : nat) (p : Pool) : Prop := {
  po_table : table_ok (table_of p);
  po_procs : length (workers p) = procs;
  po_got i n : workers p !! i = Some (Got n) -> n <> [];
  po_tracked i n : workers p !! i = Some (Tracked n) -> tracked (table_of p) n;
  po_names n : cancelled p = false -> n ∈ all -> n <> [] ->
    n ∈ names p \/ (exists i, workers p !! i = Some (Got n)) \/ tracked (table_of p) n;
  po_stopped i : workers p !! i = Some Stopped -> names p = [] \/ cancelled p = true }.

Lemma set_lookup (ws : list worker) i j v u : <[i := v]> ws !! j = Some u ->
  (j = i /\ u = v /\ (i < length ws)%nat) \/ (j <> i /\ ws !! j = Some u).
Proof.
  destruct (decide (j = i)) as [->|Hne]; [|by rewrite list_lookup_insert_ne by done; right].
  intros E. left. apply lookup_lt_Some in E as Hl. rewrite length_insert in Hl.
  rewrite list_lookup_insert in E. destruct (decide _) as [|Hn]; [|by destruct Hn].
  by injection E as ->.
Qed.

(** A worker that had no name takes or drops one. *)
Lemma got_kept (ws : list worker) i v j n : ws !! j = Some (Got n) -> ws !! i <> Some (Got n) ->
  exists j, <[i := v]> ws !! j = Some (Got n).
Proof. intros E Hi. exists j. rewrite list_lookup_insert_ne; [done|]. by intros ->. Qed.

Lemma track_runs w n : table_ok w -> n <> [] ->
  exists w', TrackConfiguredAddress n w = Some (w', tt) /\ table_ok w' /\ tracked w' n.
Proof.
  intros Hw Hn. unfold TrackConfiguredAddress. rewrite bool_decide_false by done.
  destruct (track_total w n Hw) as (w' & [] & E & Hok & _ & Ht & _). by exists w'.
Qed.

Lemma resolution_runs w n ldi : table_ok w ->
  exists w' r, ResolveConfiguredPeer n ldi w = Some (w', r) /\ table_ok w'.
Proof. intros Hw. destruct (resolve_steps n ldi w Hw) as (w' & r & E & Hok & _). by exists w', r. Qed.

Lemma pool_start all procs w : table_ok w -> pool_ok all procs (resolvePeerHostnames procs all w).
Proof.
  intros Hw. split; cbn; [done|by rewrite length_replicate| | | |].
  - intros i n [E _]%lookup_replicate. done.
  - intros i n [E _]%lookup_replicate. done.
  - intros n _ Hn _. by left.
  - intros i [E _]%lookup_replicate. done.
Qed.

(** One worker changes, the table moves on. *)
Lemma pool_worker_ok all procs p i u v w :
  pool_ok all procs p -> workers p !! i = Some u -> table_ok w ->
  (forall c, tracked (table_of p) c -> tracked w c) ->
  match v with
  | Got _ => False
  | Tracked n => tracked w n
  | Stopped => names p = [] \/ cancelled p = true
  | Waiting => True
  end ->
  (forall n, u = Got n -> tracked w n) ->
  pool_ok all procs (pool_table w (set_worker i v p)).
Proof.
  intros [Ht Hp Hg Hk Hn Hs] Ei Hw Hkeep Hv Hu. split; cbn; rewrite ?length_insert; try done.
  - intros j n [(_ & Ev & _)|(_ & Ej)]%set_lookup; [by subst v|by eapply Hg].
  - intros j n [(_ & Ev & _)|(_ & Ej)]%set_lookup; [by subst v|by eapply Hkeep, Hk].
  - intros n Hc Hm Hm0. destruct (Hn n Hc Hm Hm0) as [Hin|[(j & Ej)|Htr]]; [by left| |by right; right; apply Hkeep].
    right. destruct (decide (j = i)) as [->|Hne].
    + right. rewrite Ei in Ej. injection Ej as ->. by apply Hu.
    + left. exists j. by rewrite list_lookup_insert_ne.
  - intros j [(_ & Ev & _)|(_ & Ej)]%set_lookup; [by subst v|by eapply Hs].
Qed.

Lemma pool_step_ok ldi all procs p p' : pool_ok all procs p -> pool_step ldi p p' -> pool_ok all procs p'.
Proof.
  intros Hok [rest E|i n rest E Hne Ei|i n w Ei Ew|i n w r Ei Ew|i E Ei|Ec|Ec E|i Ec Ei]; pose proof Hok as [Ht Hp Hg Hk Hn Hs].
  - split; cbn; try done.
    + intros m Hc Hm Hm0. destruct (Hn m Hc Hm Hm0) as [Hin|Hin]; [|by right]. rewrite E in Hin.
      apply elem_of_cons in Hin as [->|Hin]; [done|by left].
    + intros i Hi. destruct (Hs i Hi) as [E'|Hc]; [by rewrite E in E'|by right].
  - split; cbn; rewrite ?length_insert; try done.
    + intros j m [(_ & [= ->] & _)|(_ & Ej)]%set_lookup; [done|by eapply Hg].
    + intros j m [(_ & [=] & _)|(_ & Ej)]%set_lookup. by eapply Hk.
    + intros m Hc Hm Hm0. destruct (Hn m Hc Hm Hm0) as [Hin|[(j & Ej)|Htr]]; [| |by right; right].
      * rewrite E in Hin. apply elem_of_cons in Hin as [->|Hin]; [|by left]. right. left. exists i.
        rewrite list_lookup_insert, decide_True; [done|]. split; [done|]. by eapply lookup_lt_Some.
      * right. left. eapply got_kept; [exact Ej|]. by rewrite Ei.
    + intros j [(_ & [=] & _)|(_ & Ej)]%set_lookup. destruct (Hs j Ej) as [E'|Hc]; [by rewrite E in E'|by right].
  - destruct (track_runs _ n Ht (Hg i n Ei)) as (w' & Ew' & Hw & Htr). rewrite Ew in Ew'. injection Ew' as <-.
    eapply pool_worker_ok; [done|exact Ei|done| |done|by intros m [= ->]].
    intros c. unfold TrackConfiguredAddress in Ew. case_bool_decide; [by destruct (Hg i n Ei)|].
    by apply (remembers_track n _ _ _ Ew).
  - destruct (resolution_runs _ n ldi Ht) as (w' & r' & Ew' & Hw). rewrite Ew in Ew'. injection Ew' as <- _.
    eapply pool_worker_ok; [done|exact Ei|done|apply (remembers_resolve n ldi _ _ _ Ew)|done|done].
  - apply (pool_worker_ok all procs p i Waiting Stopped (table_of p)); auto. done.
  - split; cbn; try done. intros j _. by right.
  - split; cbn; try done; [|by left]. intros m Hc. congruence.
  - apply (pool_worker_ok all procs p i Waiting Stopped (table_of p)); auto. done.
Qed.

(** *** Steps left *)

Definition work (v : worker) : nat := match v with Waiting => 1 | Got _ => 3 | Tracked _ => 2 | Stopped => 0 end.
Definition steps_left (p : Pool) : nat :=
  4 * length (names p) + sum_list_with work (workers p) + (if cancelled p then 0 else 1).

Lemma work_set (ws : list worker) i u v : ws !! i = Some u ->
  (sum_list_with work (<[i := v]> ws) + work u = sum_list_with work ws + work v)%nat.
Proof.
  revert i. induction ws as [|x ws IH]; intros [|i] E; cbn -[work] in *; try done.
  - injection E as ->. lia.
  - etrans; [symmetry; apply Nat.add_assoc|]. rewrite <- Nat.add_assoc. exact (f_equal (Nat.add (work x)) (IH i E)).
Qed.

Lemma pool_step_left ldi p p' : pool_step ldi p p' -> (steps_left p' < steps_left p)%nat.
Proof.
  intros [rest E|i n rest E Hne Ei|i n w Ei Ew|i n w r Ei Ew|i E Ei|Ec|Ec E|i Ec Ei]; unfold steps_left; cbn -[Nat.mul].
  - rewrite E. cbn [length]. lia.
  - rewrite E. pose proof (work_set _ i _ (Got n) Ei). cbn [length work] in *. lia.
  - pose proof (work_set _ i _ (Tracked n) Ei). cbn [work] in *. lia.
  - pose proof (work_set _ i _ Waiting Ei). cbn [work] in *. lia.
  - pose proof (work_set _ i _ Stopped Ei). cbn [work] in *. lia.
  - rewrite Ec. lia.
  - rewrite Ec. destruct (names p); [done|]. cbn [length]. lia.
  - pose proof (work_set _ i _ Stopped Ei). cbn [work] in *. lia.
Qed.

Lemma pool_progress ldi all procs p : (0 < procs)%nat -> pool_ok all procs p -> ~ finished p ->
  exists p', pool_step ldi p p'.
Proof.
  intros Hpos [Ht Hp Hg Hk Hn Hs] Hf.
  assert (Hcases : (exists i v, workers p !! i = Some v /\ v <> Stopped) \/ Forall (fun v => v = Stopped) (workers p)).
  { clear. induction (workers p) as [|v ws IH]; [by right|]. destruct (decide (v = Stopped)) as [->|Hv].
    - destruct IH as [(i & u & E & Hu)|IH]; [left; by exists (S i), u|right; by constructor].
    - left. by exists 0%nat, v. }
  destruct Hcases as [(i & v & Ei & Hv)|Hall].
  - destruct v as [|n|n|]; [| | |done].
    + destruct (names p) as [|[|b n] rest] eqn:E; eexists.
      * by eapply (ps_closed ldi p i).
      * by eapply ps_skip.
      * by eapply (ps_send ldi p i (b :: n)).
    + destruct (track_runs _ n Ht (Hg i n Ei)) as (w & Ew & _). eexists. by eapply ps_track.
    + destruct (resolution_runs _ n ldi Ht) as (w & r & Ew & _). eexists. by eapply ps_resolve.
  - destruct (workers p) as [|v ws] eqn:E; [cbn in Hp; lia|]. inversion Hall as [|? ? Hv _]; subst v.
    destruct (Hs 0%nat eq_refl) as [En|Hc]; [by destruct Hf; split; [|by rewrite E]|].
    destruct (names p) as [|n rest] eqn:En; [by destruct Hf; split; [|by rewrite E]|].
    eexists. eapply ps_abandon; [done|by rewrite En].
Qed.

End Spec.

(** ** Witnesses *)

#[local] Existing Instances ascii_strings insertion_sort wire_multitalk wit_yaml wit_yaml_laws.

(** A machine with two interfaces and one global address. *)
#[local] Instance wit_host : Host := {|
  InterfaceAddrs := inr [None; Some [127; 0; 0; 1]; Some (v4InV6Prefix ++ [192; 0; 2; 9])];
  InterfaceByName n := inr (MkIface n [2; 0; 0; 0; 0; 1]);
  ParseIP _ := None; ParseMAC _ := inl (Errorf "" []); ethernet_Addr a := Some a;
  OpenLive _ := inr tt; SetBPFFilter _ _ := None |}.

Definition wit_ports : list EtherTalkConfig := map port_defaults [wit_port; wit_soft_port].

Lemma wit_opens : Forall opens wit_ports.
Proof. repeat (constructor; [by eexists|]). constructor. Qed.

Lemma wit_devices : NoDup (map Device wit_ports).
Proof. apply (bool_decide_unpack _). by vm_compute. Qed.


(** Two workers; the first name cannot be resolved. *)
Definition wit_tw : TW := wit_w0 [inl (DNSError true false false)].

Lemma wit_tw_ok : table_ok wit_tw.
Proof. eapply new_table_ok; [exact wit_table|reflexivity|exact wit_reachable]. Qed.

