(* ===== verification/Health.v ===== *)
(** * Health and readiness ([router/health.go], [operationalSummary] of
      [router/aurp_peer_table.go])

    The snapshot the monitoring endpoints answer with, and when the router says
    it is ready.  The counters of a peer are read atomically, as the argument
    [loads]; the JSON encoding and the HTTP server are outside, an answer is its
    status and its value. *)
From S2P Require Import Prelude Wtacc AurpHeaders AurpTuples AurpZoneInfo AurpPacket AurpTransport.
From S2P Require Import PeerPolicy GoSort RouteTable RouteTableInv RouteTableSpec RouteExport PeerState.
From S2P Require Import AtalkNbp Atalk DdpPolicy Seed LoopProbe Router PeerTable PeerTableInv PeerTableSpec.
Import RT Policy Router Peers.

Module Health.

Record AURPPolicySummary := {
  hs_HiddenNetworks : Z; hs_HiddenImportNetworks : Z; hs_HiddenExportNetworks : Z;
  hs_HiddenDevices : Z; hs_RemapRules : Z; hs_Clusters : Z; hs_BackupPeers : Z;
  hs_HopCountReduction : bool; hs_HopCountWeight : Z }.

Record aurpOperationalSummary := MkSummary {
  Configured : Z; Resolved : Z; Running : Z; ReceiverConnected : Z; SenderConnected : Z;
  LoopDisabled : Z; ReceiveQueue : Z; ReceiveQueueHighWater : Z;
  DDPPacketsIn : Z; DDPPacketsOut : Z; DDPBytesIn : Z; DDPBytesOut : Z }.

Record RouterHealthSnapshot := MkSnapshot {
  Status : string; Ready : bool; EtherTalkPorts : Z; OperationalPorts : Z; Routes_ : Z;
  AURP_ : aurpOperationalSummary; Policies : AURPPolicySummary }.

(** The atomic counters of one peer. *)
Record Loads := { in_packets : Z; out_packets : Z; in_bytes : Z; out_bytes : Z }.

Section Health.
Context {MO : MapOrder}.
Variable loads : positive -> Loads.

Definition count (b : bool) (n : Z) : Z := if b then n + 1 else n.
Definition add64 (a b : Z) : Z := (a + b) mod 2 ^ 64.

(** The body of the loop over the peers. *)
Definition add_peer (p : positive) (n : Node) (s : aurpOperationalSummary) : aurpOperationalSummary :=
  {| Configured := Configured s;
     Resolved := Resolved s + 1;
     Running := count (running n) (Running s);
     ReceiverConnected :=
       count (bool_decide (PS.rstate (PS.rcv (peer n)) = PS.ReceiverConnected)) (ReceiverConnected s);
     SenderConnected :=
       count (bool_decide (PS.sstate (PS.snd (peer n)) = PS.SenderConnected)) (SenderConnected s);
     LoopDisabled := count (PS.loopDisabled (peer n)) (LoopDisabled s);
     ReceiveQueue := ReceiveQueue s + zlen (ReceiveCh n);
     ReceiveQueueHighWater := Z.max (ReceiveQueueHighWater s) (receiveQueueHighWater n);
     DDPPacketsIn := add64 (DDPPacketsIn s) (in_packets (loads p));
     DDPPacketsOut := add64 (DDPPacketsOut s) (out_packets (loads p));
     DDPBytesIn := add64 (DDPBytesIn s) (in_bytes (loads p));
     DDPBytesOut := add64 (DDPBytesOut s) (out_bytes (loads p)) |}.

Fixpoint add_peers (ps : list positive) (s : aurpOperationalSummary) : T aurpOperationalSummary :=
  match ps with
  | [] => mret s
  | p :: ps => n ← deref p; add_peers ps (add_peer p n s)
  end.

Definition operationalSummary : T aurpOperationalSummary :=
  t ← gett peers;
  add_peers (uniquePeersLocked t)
    (MkSummary (Z.of_nat (size (dnsByConfigured t))) 0 0 0 0 0 0 0 0 0 0 0).

Definition no_policies : AURPPolicySummary :=
  {| hs_HiddenNetworks := 0; hs_HiddenImportNetworks := 0; hs_HiddenExportNetworks := 0;
     hs_HiddenDevices := 0; hs_RemapRules := 0; hs_Clusters := 0; hs_BackupPeers := 0;
     hs_HopCountReduction := false; hs_HopCountWeight := 0 |}.

Definition policies (cfg : option AURPConfig) : AURPPolicySummary :=
  match cfg with
  | None => no_policies
  | Some cfg =>
      {| hs_HiddenNetworks := zlen (HiddenNetworks cfg);
         hs_HiddenImportNetworks := zlen (HiddenImportNetworks cfg);
         hs_HiddenExportNetworks := zlen (HiddenExportNetworks cfg);
         hs_HiddenDevices := zlen (HiddenDevices cfg);
         hs_RemapRules := zlen (RemapRules cfg);
         hs_Clusters := zlen (Clusters cfg);
         hs_BackupPeers := zlen (BackupPeers cfg);
         hs_HopCountReduction := HopCountReduction cfg;
         hs_HopCountWeight := HopCountWeight cfg |}
  end.

Fixpoint operational_ports (ps : list Port) : Z :=
  match ps with
  | [] => 0
  | p :: ps => count (match operationalRange p with Some _ => true | None => false end) (operational_ports ps)
  end.

Definition HealthSnapshot : T RouterHealthSnapshot :=
  r ← gett routing;
  aurp ← operationalSummary;
  let ready := (0 <? zlen (ports r)) && (0 <? operational_ports (ports r)) && (LoopDisabled aurp =? 0) in
  mret (MkSnapshot (if ready then "ok" else "not-ready") ready (zlen (ports r))
          (operational_ports (ports r)) (zlen (Dump (table r))) aurp (policies (config r))).

Definition StatusOK : Z := 200.
Definition StatusServiceUnavailable : Z := 503.

Definition HealthHandler : T (Z * RouterHealthSnapshot) :=
  snapshot ← HealthSnapshot; mret (StatusOK, snapshot).

Definition ReadyHandler : T (Z * RouterHealthSnapshot) :=
  snapshot ← HealthSnapshot;
  mret (if negb (Ready snapshot) then StatusServiceUnavailable else StatusOK, snapshot).

Definition AURPSummaryHandler : T (Z * (aurpOperationalSummary * AURPPolicySummary)) :=
  snapshot ← HealthSnapshot; mret (StatusOK, (AURP_ snapshot, Policies snapshot)).

End Health.
End Health.

Import Health.

(** * Lemmas *)

Section Spec.
Context {GStr : GoStrings} {GS : GoSort} {MO : MapOrder} {GN : GoNet}.
Variable loads : positive -> Loads.

(** How many nodes have a property. *)
Definition number (f : Node -> bool) (ns : list Node) : Z := zlen (List.filter f ns).

Lemma number_nil f : number f [] = 0.
Proof. done. Qed.
Lemma number_cons f n ns : number f (n :: ns) = number f ns + (if f n then 1 else 0).
Proof. unfold number. cbn [List.filter]. destruct (f n); rewrite ?zlen_cons; lia. Qed.

Lemma number_perm f ns ms : ns ≡ₚ ms -> number f ns = number f ms.
Proof.
  induction 1 as [|x l k _ IH|x y l|l k m _ IH1 _ IH2]; rewrite ?number_cons; lia || done.
Qed.

Lemma number_bounds f ns : 0 <= number f ns <= zlen ns.
Proof.
  induction ns as [|n ns IH]; [done|]. rewrite number_cons, zlen_cons. destruct (f n); lia.
Qed.

Lemma number_zero f ns : number f ns = 0 <-> forall n, n ∈ ns -> f n = false.
Proof.
  induction ns as [|n ns IH]; [split; [by intros _ ? ?%elem_of_nil|done]|]. rewrite number_cons.
  pose proof (number_bounds f ns). split.
  - intros Hz m Hm. destruct (f n) eqn:E; [lia|]. apply elem_of_cons in Hm as [->|Hm]; [done|]. apply IH; [lia|done].
  - intros Hf. rewrite (Hf n) by apply list_elem_of_here.
    rewrite (proj2 IH); [done|]. intros m Hm. by apply Hf, list_elem_of_further.
Qed.

(** What the loop adds up. *)
Record summed (s s' : aurpOperationalSummary) (ns : list Node) : Prop := {
  su_configured : Configured s' = Configured s;
  su_resolved : Resolved s' = Resolved s + zlen ns;
  su_running : Running s' = Running s + number running ns;
  su_receiver : ReceiverConnected s' = ReceiverConnected s
    + number (fun n => bool_decide (PS.rstate (PS.rcv (peer n)) = PS.ReceiverConnected)) ns;
  su_sender : SenderConnected s' = SenderConnected s
    + number (fun n => bool_decide (PS.sstate (PS.snd (peer n)) = PS.SenderConnected)) ns;
  su_disabled : LoopDisabled s' = LoopDisabled s + number (fun n => PS.loopDisabled (peer n)) ns;
  su_mark n : n ∈ ns -> receiveQueueHighWater n <= ReceiveQueueHighWater s' }.

Lemma add_peers_mark ps s s' w w' : add_peers loads ps s w = Some (w', s') ->
  ReceiveQueueHighWater s <= ReceiveQueueHighWater s'.
Proof.
  revert s. induction ps as [|p ps IH]; intros s; cbn [add_peers]; [by intros [= _ <-]|].
  unfold mbind, T_bind, deref. destruct (heap w !! p) as [n|]; [|done]. intros E%IH. cbn in E. lia.
Qed.

Lemma add_peers_runs w ps ns s : Forall2 (fun p n => heap w !! p = Some n) ps ns ->
  exists s', add_peers loads ps s w = Some (w, s') /\ summed s s' ns.
Proof.
  intros Hps. revert s. induction Hps as [|p n ps ns E _ IH]; intros s; cbn [add_peers].
  { exists s. split; [done|]. split; rewrite ?number_nil, ?zlen_nil; try lia. by intros ? ?%elem_of_nil. }
  rewrite (t_deref p n) by done. destruct (IH (add_peer loads p n s)) as (s' & E' & [H1 H2 H3 H4 H5 H6 H7]).
  exists s'. split; [exact E'|]. pose proof (add_peers_mark _ _ _ _ _ E') as Hm.
  unfold count in *. split; cbn in *; rewrite ?number_cons, ?zlen_cons; unfold count in *;
    try (repeat match goal with |- context [if ?b then _ else _] => destruct b end; lia).
  intros m [->|Hin]%elem_of_cons; [lia|by apply H7].
Qed.

Lemma operational_spec ps :
  0 <= operational_ports ps <= zlen ps /\
  (0 < operational_ports ps <-> exists p, p ∈ ps /\ operationalRange p <> None).
Proof.
  induction ps as [|p ps [IH1 IH2]]; cbn [operational_ports].
  { split; [done|]. split; [lia|]. by intros (p & ?%elem_of_nil & _). }
  rewrite zlen_cons. unfold count. destruct (operationalRange p) as [r|] eqn:E.
  - split; [lia|]. split; [|lia]. intros _. exists p. split; [apply list_elem_of_here|by rewrite E].
  - split; [lia|]. rewrite IH2. split; intros (q & Hq & Hr); exists q; (split; [|done]).
    + by apply list_elem_of_further.
    + apply elem_of_cons in Hq as [->|Hq]; [by rewrite E in Hr|done].
Qed.

(** C37: the answers of the monitoring endpoints: each peer of the table is
    counted once, whatever number of addresses it is filed under, and the
    router is ready - status 200, and 503 otherwise - exactly when it has a
    port, some port has an operational address, and no peer was disabled for a
    routing loop.  The health endpoint always answers 200. *)
Theorem health_exact (w : TW) :
  table_ok w ->
  let ns := (map_to_list (heap w)).*2 in
  exists s, HealthSnapshot loads w = Some (w, s) /\
    Resolved (AURP_ s) = zlen ns /\ Running (AURP_ s) = number running ns /\
    ReceiverConnected (AURP_ s) =
      number (fun n => bool_decide (PS.rstate (PS.rcv (peer n)) = PS.ReceiverConnected)) ns /\
    SenderConnected (AURP_ s) =
      number (fun n => bool_decide (PS.sstate (PS.snd (peer n)) = PS.SenderConnected)) ns /\
    LoopDisabled (AURP_ s) = number (fun n => PS.loopDisabled (peer n)) ns /\
    Configured (AURP_ s) = Z.of_nat (size (dnsByConfigured (peers w))) /\
    OperationalPorts s <= EtherTalkPorts s /\
    (Ready s = true <->
       (exists port, port ∈ ports (routing w) /\ operationalRange port <> None) /\
       forall p n, heap w !! p = Some n -> PS.loopDisabled (peer n) = false) /\
    HealthHandler loads w = Some (w, (200, s)) /\
    ReadyHandler loads w = Some (w, (if Ready s then 200 else 503, s)).
Proof.
  intros Hw. cbv zeta. destruct (listed_nodes w Hw) as (ns & Hns & Hperm).
  destruct (add_peers_runs w _ ns (MkSummary (Z.of_nat (size (dnsByConfigured (peers w)))) 0 0 0 0 0 0 0 0 0 0 0) Hns)
    as (s & Es & [H1 H2 H3 H4 H5 H6 _]). cbn in H1, H2, H3, H4, H5, H6.
  rewrite !(number_perm _ _ _ Hperm) in *.
  assert (Hlen : zlen ns = zlen (map_to_list (heap w)).*2) by (unfold zlen; by rewrite (Permutation_length Hperm)).
  destruct (operational_spec (ports (routing w))) as [Ho1 Ho2].
  assert (Eh : exists h, HealthSnapshot loads w = Some (w, h) /\ AURP_ h = s /\
      EtherTalkPorts h = zlen (ports (routing w)) /\ OperationalPorts h = operational_ports (ports (routing w)) /\
      Ready h = (0 <? zlen (ports (routing w))) && (0 <? operational_ports (ports (routing w))) && (LoopDisabled s =? 0)).
  { eexists. unfold HealthSnapshot, operationalSummary.
    rewrite (t_bind _ _ w w (routing w)) by done. rewrite (t_bind _ _ w w s); [done|].
    rewrite (t_bind _ _ w w (peers w)) by done. exact Es. }
  destruct Eh as (h & Eh & <- & E1 & E2 & E3). exists h. split; [exact Eh|]. split_and!; try done; try lia.
  - rewrite E3, !andb_true_iff, !Z.ltb_lt, Z.eqb_eq, H6, Z.add_0_l, number_zero, Ho2. split.
    + intros [[_ Hp] Hd]. split; [exact Hp|]. intros p n E. apply Hd, list_elem_of_fmap. exists (p, n).
      split; [done|]. by apply elem_of_map_to_list.
    + intros [Hp Hd]. split; [split; [apply Ho2 in Hp; lia|exact Hp]|].
      intros n Hn. apply list_elem_of_fmap in Hn as ([p n'] & -> & Hin%elem_of_map_to_list). by eapply Hd.
  - unfold HealthHandler. by rewrite (t_bind _ _ _ _ _ Eh).
  - unfold ReadyHandler. rewrite (t_bind _ _ _ _ _ Eh). by destruct (Ready h).
Qed.
End Spec.

(** ** Witness *)

#[local] Existing Instances ascii_strings insertion_sort.

Lemma health_exact_witness :
  let w := run_t (LookupOrCreate wit_name (wit_ip 7) wit_id None) (wit_w0 []) in
  exists s, HealthSnapshot (fun _ => {| in_packets := 0; out_packets := 0; in_bytes := 0; out_bytes := 0 |}) w
    = Some (w, s) /\ Resolved (AURP_ s) = 1.
Proof.
  intros w. assert (Hw : table_ok w).
  { destruct (run_t_some (LookupOrCreate wit_name (wit_ip 7) wit_id None) (wit_w0 [])) as [r E]; [by vm_compute|].
    eapply step_ok; [|eapply st_lookup; exact E].
    eapply new_table_ok; [exact wit_table|reflexivity|exact wit_reachable]. }
  destruct (health_exact (fun _ => {| in_packets := 0; out_packets := 0; in_bytes := 0; out_bytes := 0 |}) w Hw)
    as (s & E & Hr & _). exists s. split; [exact E|]. rewrite Hr. vm_compute. reflexivity.
Defined.
