(* ===== verification/Metrics.v ===== *)
(** * The metrics of the table of peers ([router/aurp_peer_metrics.go])

    What a scrape of [/metrics] gets from [AURPPeerTable.Collect].  The
    Prometheus library is an interface: a sample is made by [NewConstMetric],
    which refuses a number of labels that is not that of its descriptor and a
    label that is not UTF-8.  The counters of a peer are atomics that other
    goroutines increment: [loads] is what the scrape reads of them. *)
From S2P Require Import Prelude Wtacc AurpHeaders AurpTuples AurpZoneInfo AurpPacket AurpTransport.
From S2P Require Import PeerPolicy GoSort RouteTable RouteTableInv RouteTableSpec RouteExport PeerState.
From S2P Require Import AtalkNbp Atalk DdpPolicy Seed LoopProbe Router PeerTable PeerTableInv PeerTableSpec.
From S2P Require Import GoParse.
Import RT Policy Router Peers GoParse.

(** The package [prometheus]. *)
Record Desc := NewDesc { fqName : list Z; help : list Z; variableLabels : list (list Z) }.

#[global] Instance Desc_eq_dec : EqDecision Desc.
Proof. solve_decision. Defined.

Inductive ValueType := GaugeValue | CounterValue.

Record Metric := MkMetric {
  m_desc : Desc; m_type : ValueType; m_value : float; m_labels : list (list Z) }.

Class Prometheus := {
  ValidString : list Z -> bool;
  NewConstMetric : Desc -> ValueType -> float -> list (list Z) -> goerr + Metric }.

(** The documentation of [NewConstMetric], and of label values. *)
Class PrometheusLaws `{Prometheus} := {
  metric_valid d vt v ls : length ls = length (variableLabels d) -> forallb ValidString ls = true ->
    NewConstMetric d vt v ls = inr (MkMetric d vt v ls);
  metric_invalid d vt v ls : forallb ValidString ls = false ->
    exists e, NewConstMetric d vt v ls = inl e }.

Module Metrics.

(** ** Descriptors *)

Definition aurpPeerReceiverConnectedDesc : Desc :=
  NewDesc (str "jrouter_aurp_peer_receiver_connected")
    (str "0 if the receiver state for this peer is unconnected, 1 otherwise")
    [str "peer"].
Definition aurpPeerSenderConnectedDesc : Desc :=
  NewDesc (str "jrouter_aurp_peer_sender_connected")
    (str "0 if the sender state for this peer is unconnected, 1 otherwise")
    [str "peer"].
Definition aurpPeerSendRetriesDesc : Desc :=
  NewDesc (str "jrouter_aurp_peer_send_retries")
    (str "current send retries for each peer")
    [str "peer"].
Definition aurpPeerLastHeardFromDesc : Desc :=
  NewDesc (str "jrouter_aurp_peer_last_heard_from_timestamp_seconds")
    (str "timestamp of lastHeardFrom")
    [str "peer"].
Definition aurpPeerLastReconnectDesc : Desc :=
  NewDesc (str "jrouter_aurp_peer_last_reconnect_timestamp_seconds")
    (str "timestamp of lastReconnect")
    [str "peer"].
Definition aurpPeerLastSendDesc : Desc :=
  NewDesc (str "jrouter_aurp_peer_last_send_timestamp_seconds")
    (str "timestamp of lastSend")
    [str "peer"].
Definition aurpPeerLastUpdateDesc : Desc :=
  NewDesc (str "jrouter_aurp_peer_last_update_timestamp_seconds")
    (str "timestamp of lastUpdate")
    [str "peer"].
Definition aurpPeerLastSuccessDesc : Desc :=
  NewDesc (str "jrouter_aurp_peer_last_success_timestamp_seconds")
    (str "timestamp of last completed RI-Rsp exchange")
    [str "peer"].
Definition aurpPeerReconnectFailuresDesc : Desc :=
  NewDesc (str "jrouter_aurp_peer_reconnect_failures")
    (str "consecutive failed receiver connection attempts")
    [str "peer"].
Definition aurpPeerNextReconnectDesc : Desc :=
  NewDesc (str "jrouter_aurp_peer_next_reconnect_timestamp_seconds")
    (str "earliest scheduled reconnect time, or 0 when immediately eligible")
    [str "peer"].
Definition aurpPeerDuplicateRoutingDesc : Desc :=
  NewDesc (str "jrouter_aurp_peer_duplicate_routing_packets_total")
    (str "routing packets received with sequence n-1")
    [str "peer"].
Definition aurpPeerReacksSentDesc : Desc :=
  NewDesc (str "jrouter_aurp_peer_reacks_sent_total")
    (str "RI-Acks retransmitted for duplicate routing packets")
    [str "peer"].
Definition aurpPeerStaleRoutingDesc : Desc :=
  NewDesc (str "jrouter_aurp_peer_stale_routing_packets_total")
    (str "stale routing packets dropped outside n-1/n/n+1")
    [str "peer"].
Definition aurpPeerFutureRoutingDesc : Desc :=
  NewDesc (str "jrouter_aurp_peer_future_routing_packets_total")
    (str "routing packets received with sequence n+1")
    [str "peer"].
Definition aurpPeerConnIDMismatchDesc : Desc :=
  NewDesc (str "jrouter_aurp_peer_connection_id_mismatches_total")
    (str "routing packets dropped for connection ID mismatch")
    [str "peer"].
Definition aurpPeerReceiveQueueDesc : Desc :=
  NewDesc (str "jrouter_aurp_peer_receive_queue_length")
    (str "current queued routing packets waiting for the peer handler")
    [str "peer"].
Definition aurpPeerReceiveQueueHighWaterDesc : Desc :=
  NewDesc (str "jrouter_aurp_peer_receive_queue_high_water")
    (str "highest observed routing-packet queue depth for this peer")
    [str "peer"].
Definition aurpPeerDDPPacketsInDesc : Desc :=
  NewDesc (str "jrouter_aurp_peer_ddp_packets_in_total")
    (str "valid encapsulated DDP packets received from this peer")
    [str "peer"].
Definition aurpPeerDDPPacketsOutDesc : Desc :=
  NewDesc (str "jrouter_aurp_peer_ddp_packets_out_total")
    (str "DDP packets successfully sent to this peer")
    [str "peer"].
Definition aurpPeerDDPBytesInDesc : Desc :=
  NewDesc (str "jrouter_aurp_peer_ddp_bytes_in_total")
    (str "valid encapsulated DDP bytes received from this peer")
    [str "peer"].
Definition aurpPeerDDPBytesOutDesc : Desc :=
  NewDesc (str "jrouter_aurp_peer_ddp_bytes_out_total")
    (str "DDP bytes successfully sent to this peer")
    [str "peer"].
Definition aurpPeerLateTickleAcksDesc : Desc :=
  NewDesc (str "jrouter_aurp_peer_late_tickle_acks_total")
    (str "late or duplicate Tickle-Ack packets received")
    [str "peer"].
Definition aurpPeerSenderRouterDownsDesc : Desc :=
  NewDesc (str "jrouter_aurp_peer_sender_router_downs_total")
    (str "sender-originated Router Down packets received")
    [str "peer"].
Definition aurpPeerReceiverRouterDownsDesc : Desc :=
  NewDesc (str "jrouter_aurp_peer_receiver_router_downs_total")
    (str "receiver-originated Router Down packets received")
    [str "peer"].
Definition aurpPeerRouterDownAcksDesc : Desc :=
  NewDesc (str "jrouter_aurp_peer_router_down_acks_total")
    (str "RI-Acks sent for sender-originated Router Down packets")
    [str "peer"].
Definition aurpPeerEarlyRIUpdatesDesc : Desc :=
  NewDesc (str "jrouter_aurp_peer_early_ri_updates_total")
    (str "RI-Upd packets received before the routing baseline was ready")
    [str "peer"].
Definition aurpPeerEarlyRIUpdateAcksDesc : Desc :=
  NewDesc (str "jrouter_aurp_peer_early_ri_update_acks_total")
    (str "early RI-Upd packets acknowledged during RI-Rsp synchronization")
    [str "peer"].
Definition aurpPeerExtendedZIFragmentsDesc : Desc :=
  NewDesc (str "jrouter_aurp_peer_extended_zi_fragments_total")
    (str "extended ZI-Rsp fragments received")
    [str "peer"].
Definition aurpPeerExtendedZICompletedDesc : Desc :=
  NewDesc (str "jrouter_aurp_peer_extended_zi_completed_total")
    (str "extended zone lists completed and published")
    [str "peer"].
Definition aurpPeerZoneTuplesAcceptedDesc : Desc :=
  NewDesc (str "jrouter_aurp_peer_zone_tuples_accepted_total")
    (str "zone tuples accepted for routes owned by this peer")
    [str "peer"].
Definition aurpPeerZoneTuplesIgnoredDesc : Desc :=
  NewDesc (str "jrouter_aurp_peer_zone_tuples_ignored_total")
    (str "zone tuples ignored because they were invalid or not owned by this peer")
    [str "peer"].
Definition aurpPeerLoopIndicativeDesc : Desc :=
  NewDesc (str "jrouter_aurp_peer_loop_indicative_routes_total")
    (str "completed AURP route/zone sets matching a directly attached local range signature")
    [str "peer"].
Definition aurpPeerHopCountReductionsDesc : Desc :=
  NewDesc (str "jrouter_aurp_peer_hop_count_reductions_total")
    (str "DDP packets whose hop count was reduced after AURP ingress")
    [str "peer"].
Definition aurpPeerHopCountWeightedPacketsDesc : Desc :=
  NewDesc (str "jrouter_aurp_peer_hop_count_weighted_packets_total")
    (str "DDP packets sent through AURP with configured hop-count weighting")
    [str "peer"].
Definition aurpPeerAlternativePathForwardsDesc : Desc :=
  NewDesc (str "jrouter_aurp_peer_alternative_path_forwards_total")
    (str "packets forwarded over an alternative route to avoid reflection to the ingress AURP tunnel")
    [str "peer"].
Definition aurpPeerReflectionDropsDesc : Desc :=
  NewDesc (str "jrouter_aurp_peer_reflection_drops_total")
    (str "packets dropped because the only route would reflect to the ingress AURP tunnel")
    [str "peer"].
Definition aurpPeerHopCountReductionEnabledDesc : Desc :=
  NewDesc (str "jrouter_aurp_peer_hop_count_reduction_enabled")
    (str "1 when hop-count reduction is configured for this peer, 0 otherwise")
    [str "peer"].
Definition aurpPeerHopCountWeightDesc : Desc :=
  NewDesc (str "jrouter_aurp_peer_hop_count_weight")
    (str "configured additional AURP hop-count weight")
    [str "peer"].
Definition aurpConfiguredPeerDNSFailuresDesc : Desc :=
  NewDesc (str "jrouter_aurp_configured_peer_dns_failures")
    (str "consecutive DNS resolution failures for a configured peer")
    [str "configured_peer"].
Definition aurpConfiguredPeerNextDNSDesc : Desc :=
  NewDesc (str "jrouter_aurp_configured_peer_next_dns_retry_timestamp_seconds")
    (str "next DNS retry time for a configured peer, or 0 when immediately eligible")
    [str "configured_peer"].

Definition Describe : list Desc :=
  [aurpPeerReceiverConnectedDesc; aurpPeerSenderConnectedDesc;
   aurpPeerSendRetriesDesc; aurpPeerLastHeardFromDesc;
   aurpPeerLastReconnectDesc; aurpPeerLastSendDesc;
   aurpPeerLastUpdateDesc; aurpPeerLastSuccessDesc;
   aurpPeerReconnectFailuresDesc; aurpPeerNextReconnectDesc;
   aurpPeerDuplicateRoutingDesc; aurpPeerReacksSentDesc;
   aurpPeerStaleRoutingDesc; aurpPeerFutureRoutingDesc;
   aurpPeerConnIDMismatchDesc; aurpPeerReceiveQueueDesc;
   aurpPeerReceiveQueueHighWaterDesc; aurpPeerDDPPacketsInDesc;
   aurpPeerDDPPacketsOutDesc; aurpPeerDDPBytesInDesc;
   aurpPeerDDPBytesOutDesc; aurpPeerLateTickleAcksDesc;
   aurpPeerSenderRouterDownsDesc; aurpPeerReceiverRouterDownsDesc;
   aurpPeerRouterDownAcksDesc; aurpPeerEarlyRIUpdatesDesc;
   aurpPeerEarlyRIUpdateAcksDesc; aurpPeerExtendedZIFragmentsDesc;
   aurpPeerExtendedZICompletedDesc; aurpPeerZoneTuplesAcceptedDesc;
   aurpPeerZoneTuplesIgnoredDesc; aurpPeerLoopIndicativeDesc;
   aurpPeerHopCountReductionsDesc; aurpPeerHopCountWeightedPacketsDesc;
   aurpPeerAlternativePathForwardsDesc; aurpPeerReflectionDropsDesc;
   aurpPeerHopCountReductionEnabledDesc; aurpPeerHopCountWeightDesc;
   aurpConfiguredPeerDNSFailuresDesc; aurpConfiguredPeerNextDNSDesc].

(** ** Values *)

Definition metricTimestamp (t : option Z) : float :=
  match t with None => float64 0 | Some t => float64 (t / Second) end.

(** The counters of [AURPPeer]: those the peer increments, and those the router
    increments on packets from it. *)
Definition Atomic : Type := PS.Counter + IngressCounter.

Definition ReceiverConnected (n : Node) : bool :=
  let rstate := PS.rstate (PS.rcv (peer n)) in
  negb (bool_decide (rstate = PS.ReceiverUnconnected)) && negb (bool_decide (rstate = PS.ReceiverWaitForOpenRsp)).
Definition SenderConnected (n : Node) : bool :=
  let sstate := PS.sstate (PS.snd (peer n)) in
  negb (bool_decide (sstate = PS.SenderUnconnected)) && negb (bool_decide (sstate = PS.SenderWaitForRDAck)).

Section Metrics.
Context {MO : MapOrder} {GN : GoNet} {PM : Prometheus}.
Variable loads : positive -> Atomic -> Z.

(** [p.RemoteAddr().String()]. *)
Definition RemoteAddrString (n : Node) : list Z :=
  match remoteAddr n with [] => str "<nil>" | addr => IP_String addr end.

Definition metricPeerLabel (n : Node) : list Z :=
  if negb (bool_decide (TunnelID n = [])) then TunnelID n
  else
    let addr := RemoteAddrString n in
    if negb (bool_decide (addr = [])) && negb (bool_decide (addr = str "<nil>")) then str "endpoint:" ++ addr
    else str "unknown".

(** ** [Collect] *)

Definition MustNewConstMetric (d : Desc) (vt : ValueType) (v : float) (labels : list (list Z)) : T Metric :=
  match NewConstMetric d vt v labels with inl _ => panic | inr m => mret m end.

Definition Sample : Type := Desc * ValueType * float.

(** The samples of the body of the loop over the peers, in order. *)
Definition peer_samples (p : positive) (n : Node) : list Sample :=
  let t := PS.tm (peer n) in
  let rconn := if ReceiverConnected n then 1 else 0 in
  let sconn := if SenderConnected n then 1 else 0 in
  let hcrEnabled := if HopCountReduction (PS.timing (peer n)) then float64 1 else float64 0 in
    [(aurpPeerReceiverConnectedDesc, GaugeValue, float64 rconn);
     (aurpPeerSenderConnectedDesc, GaugeValue, float64 sconn);
     (aurpPeerSendRetriesDesc, GaugeValue, float64 (PS.sendRetries t));
     (aurpPeerLastHeardFromDesc, GaugeValue, metricTimestamp (PS.lastHeardFrom t));
     (aurpPeerLastReconnectDesc, GaugeValue, metricTimestamp (PS.lastReconnect t));
     (aurpPeerLastSendDesc, GaugeValue, metricTimestamp (PS.lastSend t));
     (aurpPeerLastUpdateDesc, GaugeValue, metricTimestamp (PS.lastUpdate t));
     (aurpPeerLastSuccessDesc, GaugeValue, metricTimestamp (PS.lastSuccess t));
     (aurpPeerReconnectFailuresDesc, GaugeValue, float64 (PS.reconnectFailures t));
     (aurpPeerNextReconnectDesc, GaugeValue, metricTimestamp (PS.nextReconnect t));
     (aurpPeerDuplicateRoutingDesc, CounterValue, float64 (loads p (inl PS.duplicateRoutingPackets)));
     (aurpPeerReacksSentDesc, CounterValue, float64 (loads p (inl PS.reacksSent)));
     (aurpPeerStaleRoutingDesc, CounterValue, float64 (loads p (inl PS.staleRoutingPackets)));
     (aurpPeerFutureRoutingDesc, CounterValue, float64 (loads p (inl PS.futureRoutingPackets)));
     (aurpPeerConnIDMismatchDesc, CounterValue, float64 (loads p (inl PS.connectionIDMismatches)));
     (aurpPeerReceiveQueueDesc, GaugeValue, float64 (zlen (ReceiveCh n)));
     (aurpPeerReceiveQueueHighWaterDesc, GaugeValue, float64 (receiveQueueHighWater n));
     (aurpPeerDDPPacketsInDesc, CounterValue, float64 (loads p (inr ddpPacketsIn)));
     (aurpPeerDDPPacketsOutDesc, CounterValue, float64 (loads p (inl PS.ddpPacketsOut)));
     (aurpPeerDDPBytesInDesc, CounterValue, float64 (loads p (inr ddpBytesIn)));
     (aurpPeerDDPBytesOutDesc, CounterValue, float64 (loads p (inl PS.ddpBytesOut)));
     (aurpPeerLateTickleAcksDesc, CounterValue, float64 (loads p (inl PS.lateTickleAcks)));
     (aurpPeerSenderRouterDownsDesc, CounterValue, float64 (loads p (inl PS.senderRouterDowns)));
     (aurpPeerReceiverRouterDownsDesc, CounterValue, float64 (loads p (inl PS.receiverRouterDowns)));
     (aurpPeerRouterDownAcksDesc, CounterValue, float64 (loads p (inl PS.routerDownAcks)));
     (aurpPeerEarlyRIUpdatesDesc, CounterValue, float64 (loads p (inl PS.earlyRIUpdates)));
     (aurpPeerEarlyRIUpdateAcksDesc, CounterValue, float64 (loads p (inl PS.earlyRIUpdateAcks)));
     (aurpPeerExtendedZIFragmentsDesc, CounterValue, float64 (loads p (inl PS.extendedZIFragments)));
     (aurpPeerExtendedZICompletedDesc, CounterValue, float64 (loads p (inl PS.extendedZICompleted)));
     (aurpPeerZoneTuplesAcceptedDesc, CounterValue, float64 (loads p (inl PS.zoneTuplesAccepted)));
     (aurpPeerZoneTuplesIgnoredDesc, CounterValue, float64 (loads p (inl PS.zoneTuplesIgnored)));
     (aurpPeerLoopIndicativeDesc, CounterValue, float64 (loads p (inl PS.loopIndicativeRoutes)));
     (aurpPeerHopCountReductionsDesc, CounterValue, float64 (loads p (inr hopCountReductions)));
     (aurpPeerHopCountWeightedPacketsDesc, CounterValue, float64 (loads p (inl PS.hopCountWeightedPackets)));
     (aurpPeerAlternativePathForwardsDesc, CounterValue, float64 (loads p (inr alternativePathForwards)));
     (aurpPeerReflectionDropsDesc, CounterValue, float64 (loads p (inr reflectionDrops)));
     (aurpPeerHopCountReductionEnabledDesc, GaugeValue, hcrEnabled);
     (aurpPeerHopCountWeightDesc, GaugeValue, float64 (HopCountWeight (PS.timing (peer n))))].

Definition dns_samples (dns : configuredDNSState) : list Sample :=
  [(aurpConfiguredPeerDNSFailuresDesc, GaugeValue, float64 (failures dns));
   (aurpConfiguredPeerNextDNSDesc, GaugeValue, metricTimestamp (next dns))].

(** [ch <- prometheus.MustNewConstMetric(...)] for each of them. *)
Fixpoint send_samples (label : list Z) (samples : list Sample) : T (list Metric) :=
  match samples with
  | [] => mret []
  | (d, vt, v) :: samples =>
      m ← MustNewConstMetric d vt v [label];
      ms ← send_samples label samples;
      mret (m :: ms)
  end.

Fixpoint collect_peers (ps : list positive) : T (list Metric) :=
  match ps with
  | [] => mret []
  | p :: ps =>
      n ← deref p;
      ms ← send_samples (metricPeerLabel n) (peer_samples p n);
      rest ← collect_peers ps;
      mret (ms ++ rest)
  end.

Fixpoint collect_names (t : AURPPeerTable) (names : list (list Z)) : T (list Metric) :=
  match names with
  | [] => mret []
  | c :: names =>
      ms ← send_samples c (dns_samples (dns_of t c));
      rest ← collect_names t names;
      mret (ms ++ rest)
  end.

Definition Collect : T (list Metric) :=
  t ← gett peers;
  ms ← collect_peers (uniquePeersLocked t);
  rest ← collect_names t (configuredAddresses t);
  mret (ms ++ rest).

End Metrics.
End Metrics.
