(* ===== verification/MetricsSpec.v ===== *)
(** * The metrics of the table of peers: properties of module Metrics *)
From S2P Require Import Prelude Wtacc AurpHeaders AurpTuples AurpZoneInfo AurpPacket AurpTransport.
From S2P Require Import PeerPolicy GoSort RouteTable RouteTableInv RouteTableSpec RouteExport PeerState.
From S2P Require Import AtalkNbp Atalk DdpPolicy Seed LoopProbe Router PeerTable PeerTableInv PeerTableSpec.
From S2P Require Import GoParse Metrics.
Import RT Policy Router Peers GoParse Metrics.

(** What tells the samples of a scrape apart. *)
Definition series (m : Metric) : Desc * list (list Z) := (m_desc m, m_labels m).

Definition peer_descs : list Desc := firstn 38 Describe.
Definition dns_descs : list Desc := skipn 38 Describe.

Lemma describe_split : Describe = peer_descs ++ dns_descs.
Proof. symmetry. apply take_drop. Qed.

Lemma describe_nodup : NoDup Describe.
Proof. apply (bool_decide_unpack _). vm_compute. exact I. Qed.

Lemma descs_labels :
  Forall (fun d => variableLabels d = [str "peer"]) peer_descs /\
  Forall (fun d => variableLabels d = [str "configured_peer"]) dns_descs.
Proof. split; apply (bool_decide_unpack _); vm_compute; exact I. Qed.

Lemma descs_apart : NoDup peer_descs /\ NoDup dns_descs /\ forall d, d ∈ peer_descs -> d ∉ dns_descs.
Proof. pose proof describe_nodup as H. rewrite describe_split, NoDup_app in H. tauto. Qed.

Lemma in_describe d : d ∈ peer_descs \/ d ∈ dns_descs <-> d ∈ Describe.
Proof. by rewrite describe_split, elem_of_app. Qed.

Lemma peer_desc_spec d : d ∈ peer_descs <-> d ∈ Describe /\ variableLabels d = [str "peer"].
Proof.
  destruct descs_labels as [H1 H2]. rewrite Forall_forall in H1, H2. rewrite <- in_describe. split; [by auto|].
  intros [[Hd|Hd] E]; [done|]. rewrite (H2 d Hd) in E. by vm_compute in E.
Qed.
Lemma dns_desc_spec d : d ∈ dns_descs <-> d ∈ Describe /\ variableLabels d = [str "configured_peer"].
Proof.
  destruct descs_labels as [H1 H2]. rewrite Forall_forall in H1, H2. rewrite <- in_describe. split; [by auto|].
  intros [[Hd|Hd] E]; [|done]. rewrite (H1 d Hd) in E. by vm_compute in E.
Qed.

(** ** Series of a list of labels *)

Definition series_of (ds : list Desc) (l : list Z) : list (Desc * list (list Z)) := map (fun d => (d, [l])) ds.
Definition series_all (ds : list Desc) (ls : list (list Z)) : list (Desc * list (list Z)) :=
  concat (map (series_of ds) ls).

Lemma elem_of_series_of ds l d x : (d, x) ∈ series_of ds l <-> d ∈ ds /\ x = [l].
Proof.
  unfold series_of. rewrite list_elem_of_fmap. split; [intros (? & [= -> ->] & ?)|intros [? ->]]; eauto.
Qed.
Lemma elem_of_series_all ds ls d x : (d, x) ∈ series_all ds ls <-> d ∈ ds /\ exists l, l ∈ ls /\ x = [l].
Proof.
  unfold series_all. induction ls as [|l ls IH]; cbn [map concat].
  - split; [by intros ?%elem_of_nil|by intros (_ & l & ?%elem_of_nil & _)].
  - rewrite elem_of_app, IH, elem_of_series_of. setoid_rewrite elem_of_cons. naive_solver.
Qed.

Lemma series_of_nodup ds l : NoDup ds -> NoDup (series_of ds l).
Proof. intros H. apply (NoDup_fmap_2_strong _ _); [|done]. by intros x y _ _ [= ->]. Qed.

Lemma series_nodup ds ls : ds <> [] -> NoDup ds -> NoDup (series_all ds ls) <-> NoDup ls.
Proof.
  intros Hne Hds. induction ls as [|l ls IH]; [split; constructor|]. change (series_all ds (l :: ls))
    with (series_of ds l ++ series_all ds ls). rewrite NoDup_app, NoDup_cons, IH. split.
  - intros (_ & Hdis & Hls). split; [|done]. intros Hl. destruct ds as [|d ds]; [done|].
    apply (Hdis (d, [l])); [apply list_elem_of_here|]. apply elem_of_series_all.
    split; [apply list_elem_of_here|by exists l].
  - intros [Hl Hls]. split; [by apply series_of_nodup|]. split; [|done].
    intros [d x] [_ ->]%elem_of_series_of (_ & l' & Hl' & [= ->])%elem_of_series_all. by apply Hl.
Qed.

Lemma nodup_map_inj {A B} (f : A -> B) xs :
  NoDup xs -> NoDup (map f xs) <-> forall x y, x ∈ xs -> y ∈ xs -> f x = f y -> x = y.
Proof.
  intros Hnd. split.
  - intros Hf x y Hx Hy E. apply list_elem_of_lookup in Hx as [i Hi], Hy as [j Hj].
    assert (Hij : i = j).
    { apply (NoDup_lookup (map f xs) i j (f x)); [done| |]; change (@map A B) with (@fmap list _ A B);
        rewrite list_lookup_fmap; [by rewrite Hi|by rewrite Hj, E]. }
    congruence.
  - intros Hinj. apply NoDup_fmap_2_strong; [|done]. intros x y Hx Hy. by apply Hinj.
Qed.

Section Spec.
Context {GStr : GoStrings} {GS : GoSort} {MO : MapOrder} {GN : GoNet} {PM : Prometheus} {PL : PrometheusLaws}.
Variable loads : positive -> Atomic -> Z.

Definition sample (l : list Z) (s : Sample) : Metric := MkMetric (s.1.1) (s.1.2) (s.2) [l].

Lemma send_spec l ss w : ss <> [] -> Forall (fun s : Sample => length (variableLabels s.1.1) = 1%nat) ss ->
  send_samples l ss w = if ValidString l then Some (w, map (sample l) ss) else None.
Proof.
  intros Hne Hs. assert (Hv : ValidString l = true -> send_samples l ss w = Some (w, map (sample l) ss)).
  { intros Hl. clear Hne. induction Hs as [|[[d vt] v] ss Hd _ IH]; [done|]. cbn [send_samples map].
    unfold MustNewConstMetric. rewrite metric_valid by (cbn in *; by rewrite ?Hd, ?Hl).
    rewrite (t_bind (mret _) _ w w (sample l (d, vt, v))) by done. by rewrite (t_bind _ _ _ _ _ IH). }
  destruct (ValidString l) eqn:El; [by apply Hv|]. destruct ss as [|[[d vt] v] ss]; [done|]. cbn [send_samples].
  unfold MustNewConstMetric. destruct (metric_invalid d vt v [l]) as [e ->]; [cbn; by rewrite El|done].
Qed.

Lemma sample_series l ss : map series (map (sample l) ss) = series_of (map (fun s : Sample => s.1.1) ss) l.
Proof. unfold series_of. rewrite !map_map. apply map_ext. by intros [[d vt] v]. Qed.

Lemma peer_samples_descs p n : map (fun s : Sample => s.1.1) (peer_samples loads p n) = peer_descs.
Proof. reflexivity. Qed.
Lemma dns_samples_descs s : map (fun s : Sample => s.1.1) (dns_samples s) = dns_descs.
Proof. reflexivity. Qed.

Lemma one_label {ds : list Desc} (ss : list Sample) lab : map (fun s : Sample => s.1.1) ss = ds ->
  Forall (fun d => variableLabels d = [lab]) ds -> Forall (fun s : Sample => length (variableLabels s.1.1) = 1%nat) ss.
Proof. intros <- H. apply Forall_map in H. apply (Forall_impl _ _ _ H). by intros s ->. Qed.

Lemma collect_peers_spec w ps ns : Forall2 (fun p n => heap w !! p = Some n) ps ns ->
  if forallb (fun n => ValidString (metricPeerLabel n)) ns then
    exists ms, collect_peers loads ps w = Some (w, ms) /\ map series ms = series_all peer_descs (map metricPeerLabel ns)
  else collect_peers loads ps w = None.
Proof.
  induction 1 as [|p n ps ns E _ IH]; [by exists []|]. cbn [collect_peers forallb]. rewrite (t_deref p n) by done.
  pose proof (send_spec (metricPeerLabel n) (peer_samples loads p n) w ltac:(done)
    (one_label _ _ (peer_samples_descs p n) (proj1 descs_labels))) as Es.
  destruct (ValidString (metricPeerLabel n)); cbn [andb]; [|unfold mbind, T_bind; by rewrite Es].
  rewrite (t_bind _ _ _ _ _ Es). destruct (forallb _ ns).
  - destruct IH as (ms & Em & Hm). rewrite (t_bind _ _ _ _ _ Em). eexists. split; [done|].
    by rewrite map_app, Hm, sample_series, peer_samples_descs.
  - unfold mbind, T_bind. by rewrite IH.
Qed.

Lemma collect_names_spec w t cs :
  if forallb ValidString cs then
    exists ms, collect_names t cs w = Some (w, ms) /\ map series ms = series_all dns_descs cs
  else collect_names t cs w = None.
Proof.
  induction cs as [|c cs IH]; [by exists []|]. cbn [collect_names forallb].
  pose proof (send_spec c (dns_samples (dns_of t c)) w ltac:(done)
    (one_label _ _ (dns_samples_descs _) (proj2 descs_labels))) as Es.
  destruct (ValidString c); cbn [andb]; [|unfold mbind, T_bind; by rewrite Es].
  rewrite (t_bind _ _ _ _ _ Es). destruct (forallb _ cs).
  - destruct IH as (ms & Em & Hm). rewrite (t_bind _ _ _ _ _ Em). eexists. split; [done|].
    by rewrite map_app, Hm, sample_series, dns_samples_descs.
  - unfold mbind, T_bind. by rewrite IH.
Qed.

(** ** Labels *)

(** The labels a scrape of this table uses. *)
Definition label_of (w : TW) (l : list Z) : Prop :=
  (exists p n, heap w !! p = Some n /\ metricPeerLabel n = l) \/ is_Some (dnsByConfigured (peers w) !! l).

Lemma elem_of_addresses t c : c ∈ configuredAddresses t <-> is_Some (dnsByConfigured t !! c).
Proof. unfold configuredAddresses. by rewrite elem_of_set_range, elem_of_dom. Qed.
Lemma addresses_nodup t : NoDup (configuredAddresses t).
Proof. unfold configuredAddresses. rewrite set_range_perm. apply NoDup_elements. Qed.

Lemma elem_of_nodes (w : TW) ns n : ns ≡ₚ (map_to_list (heap w)).*2 -> n ∈ ns <-> exists p, heap w !! p = Some n.
Proof.
  intros ->. rewrite list_elem_of_fmap. split.
  - intros ([p m] & -> & H%elem_of_map_to_list). by exists p.
  - intros [p H%elem_of_map_to_list]. by exists (p, n).
Qed.

Lemma labels_nodup (w : TW) ns : ns ≡ₚ (map_to_list (heap w)).*2 ->
  NoDup (map metricPeerLabel ns) <->
  forall p q n m, heap w !! p = Some n -> heap w !! q = Some m -> metricPeerLabel n = metricPeerLabel m -> p = q.
Proof.
  intros Hp. assert (E : map metricPeerLabel ns ≡ₚ map (fun e => metricPeerLabel e.2) (map_to_list (heap w))).
  { rewrite Hp. change (fmap snd) with (@map (positive * Node) Node snd). by rewrite map_map. }
  rewrite E, nodup_map_inj by apply NoDup_map_to_list. split.
  - intros H p q n m Hn Hm El. apply elem_of_map_to_list in Hn, Hm.
    specialize (H (p, n) (q, m) Hn Hm El). by injection H.
  - intros H [p n] [q m] Hn%elem_of_map_to_list Hm%elem_of_map_to_list El.
    pose proof (H p q n m Hn Hm El) as ->. congruence.
Qed.

(** C39: a scrape of the table: when a peer or a configured name has a label that is
    not UTF-8, [Collect] panics.  Otherwise it changes nothing and sends, for
    every descriptor of [Describe] and every peer, or every configured name for
    the two descriptors of names, one sample and no other; and no two samples of
    a scrape have the same descriptor and label - which makes Prometheus refuse
    the whole scrape - exactly when no two peers share a label. *)
Theorem collect_exact (w : TW) : table_ok w ->
  ((exists l, label_of w l /\ ValidString l = false) -> Collect loads w = None) /\
  ((forall l, label_of w l -> ValidString l = true) -> exists ms, Collect loads w = Some (w, ms) /\
     (forall d ls, (d, ls) ∈ map series ms <-> d ∈ Describe /\ exists l, ls = [l] /\
        (variableLabels d = [str "peer"] /\ (exists p n, heap w !! p = Some n /\ metricPeerLabel n = l) \/
         variableLabels d = [str "configured_peer"] /\ is_Some (dnsByConfigured (peers w) !! l))) /\
     (NoDup (map series ms) <->
        forall p q n m, heap w !! p = Some n -> heap w !! q = Some m ->
          metricPeerLabel n = metricPeerLabel m -> p = q)).
Proof.
  intros Hw. destruct (listed_nodes w Hw) as (ns & Hns & Hperm).
  pose proof (collect_peers_spec w _ ns Hns) as Hc. pose proof (collect_names_spec w (peers w) (configuredAddresses (peers w))) as Hd.
  unfold Collect. rewrite (t_bind (gett peers) _ w w (peers w)) by done.
  destruct (forallb _ ns) eqn:E1.
  2:{ unfold mbind, T_bind. rewrite Hc. split; [done|]. intros Hall. exfalso. apply not_true_iff_false in E1. apply E1.
      apply forallb_forall. intros n Hn%list_elem_of_In. apply Hall. left.
      apply (elem_of_nodes w ns n Hperm) in Hn as [p Hn]. eauto. }
  destruct Hc as (m1 & Em1 & Hm1). rewrite (t_bind _ _ _ _ _ Em1). destruct (forallb ValidString _) eqn:E2.
  2:{ unfold mbind, T_bind. rewrite Hd. split; [done|]. intros Hall. exfalso. apply not_true_iff_false in E2. apply E2.
      apply forallb_forall. intros c Hin%list_elem_of_In. apply Hall. right. by apply elem_of_addresses. }
  destruct Hd as (m2 & Em2 & Hm2). rewrite (t_bind _ _ _ _ _ Em2). rewrite forallb_forall in E1, E2. split.
  - intros (l & [(p & n & En & <-)|Hl] & Hf).
    + rewrite E1 in Hf; [done|]. apply list_elem_of_In, (elem_of_nodes w ns n Hperm). eauto.
    + rewrite E2 in Hf; [done|]. by apply list_elem_of_In, elem_of_addresses.
  - intros _. exists (m1 ++ m2). split; [done|]. rewrite map_app, Hm1, Hm2. split.
    + intros d ls. rewrite elem_of_app, !elem_of_series_all, peer_desc_spec, dns_desc_spec.
      setoid_rewrite elem_of_addresses. setoid_rewrite list_elem_of_fmap.
      setoid_rewrite (elem_of_nodes w ns _ Hperm). naive_solver.
    + rewrite <- (labels_nodup w ns Hperm), NoDup_app.
      destruct descs_apart as (H1 & H2 & H3). rewrite !series_nodup by done.
      split; [tauto|]. intros Hl. split; [done|]. split; [|apply addresses_nodup].
      intros [d x] [Hd1 _]%elem_of_series_all [Hd2 _]%elem_of_series_all. by eapply H3.
Qed.

(** With open peering, two addresses that claim one domain identifier are two
    peers with one label: the scrape has samples that are the same twice. *)
Lemma open_peers_share_label (w : TW) (a b ka kb : list Z) (ldi d : DomainIdentifier) :
  table_ok w -> To4 a = Some ka -> To4 b = Some kb -> ka <> kb ->
  peersByIP (peers w) !! ka = None -> peersByIP (peers w) !! kb = None ->
  exists w1 w2 p q n m,
    LookupOrCreate [] a ldi (Some d) w = Some (w1, inr p) /\
    LookupOrCreate [] b ldi (Some d) w1 = Some (w2, inr q) /\
    p <> q /\ heap w2 !! p = Some n /\ heap w2 !! q = Some m /\ metricPeerLabel n = metricPeerLabel m.
Proof.
  intros Hw Ea Eb Hne Ha Hb.
  destruct (open_peers_share_target w a b ka kb ldi d) as (w1 & w2 & p & q & n & m & H1 & H2 & Hpq & Hn & Hm & Et & Es & _);
    try done.
  exists w1, w2, p, q, n, m. split_and!; try done. unfold metricPeerLabel. by rewrite Es, Et.
Qed.
End Spec.

(** ** Witness *)

#[local] Existing Instances ascii_strings insertion_sort.

(** Labels of ASCII characters. *)
#[export] Instance ascii_prometheus : Prometheus := {|
  ValidString := forallb (fun c => (0 <=? c) && (c <? 128));
  NewConstMetric d vt v ls :=
    if (length ls =? length (variableLabels d))%nat && forallb (forallb (fun c => (0 <=? c) && (c <? 128))) ls
    then inr (MkMetric d vt v ls) else inl (Errorf "invalid labels" []) |}.

#[export] Instance ascii_prometheus_laws : PrometheusLaws.
Proof.
  split; intros d vt v ls.
  - intros El Hv. cbn in *. by rewrite El, Nat.eqb_refl, Hv.
  - intros Hv. exists (Errorf "invalid labels" []). cbn in *. by rewrite Hv, andb_false_r.
Defined.

Definition wit_loads : positive -> Atomic -> Z := fun _ _ => 3.

(** One peer, and a name from the list of peers that is not UTF-8. *)
Definition wit_one : TW := run_t (LookupOrCreate wit_name (wit_ip 7) wit_id None) (wit_w0 []).
Definition wit_bad : TW := run_t (TrackConfiguredAddress [255]) wit_one.

Lemma wit_one_ok : table_ok wit_one.
Proof.
  destruct (run_t_some (LookupOrCreate wit_name (wit_ip 7) wit_id None) (wit_w0 [])) as [r E]; [by vm_compute|].
  eapply step_ok; [apply wit_ok0|eapply st_lookup; exact E].
Qed.
Lemma wit_bad_ok : table_ok wit_bad.
Proof.
  destruct (run_t_some (TrackConfiguredAddress [255]) wit_one) as [[] E]; [by vm_compute|].
  eapply step_ok; [apply wit_one_ok|eapply st_track; exact E].
Qed.

Lemma collect_exact_witness :
  Collect wit_loads wit_bad = None /\
  exists ms, Collect wit_loads wit_one = Some (wit_one, ms) /\ length ms = 40%nat /\ NoDup (map series ms).
Proof.
  split.
  - apply (proj1 (collect_exact wit_loads wit_bad wit_bad_ok)). exists [255]. split; [right|reflexivity].
    apply (bool_decide_unpack _). vm_compute. exact I.
  - destruct (proj2 (collect_exact wit_loads wit_one wit_one_ok)) as (ms & E & _ & Hn).
    + intros l [(p & n & En & <-)|Hl].
      * assert (Hp : (p, n) ∈ map_to_list (heap wit_one)) by by apply elem_of_map_to_list.
        revert Hp. vm_compute (map_to_list (heap wit_one)). intros Hp%list_elem_of_singleton.
        injection Hp as -> ->. vm_compute. reflexivity.
      * apply elem_of_dom, elem_of_elements in Hl. revert Hl. vm_compute (elements (dom (dnsByConfigured (peers wit_one)))).
        intros ->%list_elem_of_singleton. reflexivity.
    + exists ms. split; [exact E|]. split.
      * assert (H : option_map (fun r => length (Datatypes.snd r)) (Collect wit_loads wit_one) = Some 40%nat) by (vm_compute; reflexivity).
        rewrite E in H. by injection H.
      * apply Hn. intros p q n m Hp Hq _. apply elem_of_map_to_list in Hp, Hq. revert Hp Hq.
        vm_compute (map_to_list (heap wit_one)). intros Hp%list_elem_of_singleton Hq%list_elem_of_singleton. congruence.
Defined.
