(* ===== verification/StatusPage.v ===== *)
(** * The status pages of the peers and of the routing table ([status] of
      [router/aurp_peer_table.go], the callback of [NewRouteTable] in
      [router/route_table.go])

    What the callbacks hand to the templates; the templates and the server are
    left out.  [ParseIP] is [net.ParseIP]; [loads] is what the page reads of the
    atomic counters of a peer. *)
From S2P Require Import Prelude Wtacc AurpHeaders AurpTuples AurpZoneInfo AurpPacket AurpTransport.
From S2P Require Import PeerPolicy GoSort RouteTable RouteExport PeerState.
From S2P Require Import AtalkNbp Atalk DdpPolicy Seed LoopProbe Router PeerTable GoParse Metrics.
Import RT Policy Router Peers GoParse.

Module Page.

(** ** Text *)

Definition hex (bs : list Z) : list Z := concat (map hex_byte bs).

(** Eight digits are those of the four bytes. *)
Definition DomainIdentifierDisplay `{GN : GoNet} (di : option DomainIdentifier) : list Z :=
  match di with
  | None => str "(nil DI)"
  | Some NullDomainIdentifier => DI_String NullDomainIdentifier
  | Some (IPDomainIdentifier ip) =>
      match To4 ip with
      | Some v4 => IP_String v4 ++ str " (0x" ++ hex v4 ++ str ")"
      | None => str "IP DI (0x" ++ hex ip ++ str ")"
      end
  end.

Definition ReceiverState_String (rs : PS.ReceiverState) : list Z :=
  match rs with
  | PS.ReceiverUnconnected => str "unconnected"
  | PS.ReceiverConnected => str "connected"
  | PS.ReceiverWaitForOpenRsp => str "waiting for Open-Rsp"
  | PS.ReceiverWaitForRIRsp => str "waiting for RI-Rsp"
  | PS.ReceiverWaitForTickleAck => str "waiting for Tickle-Ack"
  end.

Definition SenderState_String (ss : PS.SenderState) : list Z :=
  match ss with
  | PS.SenderUnconnected => str "unconnected"
  | PS.SenderConnected => str "connected"
  | PS.SenderWaitForRIRspAck => str "waiting for RI-Ack for RI-Rsp"
  | PS.SenderWaitForRIUpdAck => str "waiting for RI-Ack for RI-Upd"
  | PS.SenderWaitForRDAck => str "waiting for RI-Ack for RD"
  end.

(** [strings.Join(elems, sep)]. *)
Definition Join (elems : list (list Z)) (sep : list Z) : list Z :=
  match elems with [] => [] | e :: elems => e ++ concat (map (fun e => sep ++ e) elems) end.

(** ** The rows *)

(** [Counters] are the fields from [DuplicateRoutingPackets] to
    [ReflectionDrops] and the data-plane counters. *)
Record aurpPeerStatusRow := MkRow {
  ConfiguredAddr_ : list Z; IngestSource : list Z; TunnelID_ : list Z; RemoteDI : list Z;
  CandidateAddrs : list Z; RemoteAddr : list Z; HasPeer : bool; Running : bool;
  ReceiverConnected : bool; SenderConnected : bool; ReceiverState : list Z; SenderState : list Z;
  ReceiveChLen : Z; ReceiveQueueHighWater : Z;
  LocalConnID : Z; RemoteConnID : Z; TxSeq : Z; RxSeq : Z;
  LastHeardFrom : option Z; LastReconnect : option Z; LastUpdate : option Z; LastSend : option Z;
  LastSuccess : option Z; SendRetries : Z; ReconnectFailures : Z; NextReconnect : option Z;
  DNSFailures : Z; DNSErrorKind : list Z; NextDNS : option Z;
  Counters : Metrics.Atomic -> Z; HopCountReduction_ : bool; HopCountWeight_ : Z }.

Section Page.
Context {GS : GoSort} {MO : MapOrder} {GN : GoNet}.
Variable ParseIP : list Z -> option (list Z).
Variable loads : positive -> Metrics.Atomic -> Z.

Definition candidateAddrsLocked (t : AURPPeerTable) (p : positive) : list (list Z) :=
  sort_func bytes_compare (map (fun e => IP_String e.1) (filter (fun e => e.2 = p) (ip_range t))).

Definition ingestSource (configuredAddr : list Z) : list Z :=
  if negb (bool_decide (configuredAddr = [])) then
    match ParseIP configuredAddr with Some _ => str "config-ip" | None => str "config-dns" end
  else str "aurp-open".

(** [None] is a nil peer. *)
Definition newAURPPeerStatusRow (peer : option (positive * Node)) (configuredAddr : list Z)
    (candidates : list (list Z)) (dns : configuredDNSState) : aurpPeerStatusRow :=
  match peer with
  | None =>
      {| ConfiguredAddr_ := configuredAddr; IngestSource := ingestSource configuredAddr; TunnelID_ := [];
         RemoteDI := []; CandidateAddrs := Join candidates (str ", "); RemoteAddr := []; HasPeer := false;
         Running := false; ReceiverConnected := false; SenderConnected := false;
         ReceiverState := str "unresolved"; SenderState := str "unresolved"; ReceiveChLen := 0;
         ReceiveQueueHighWater := 0; LocalConnID := 0; RemoteConnID := 0; TxSeq := 0; RxSeq := 0;
         LastHeardFrom := None; LastReconnect := None; LastUpdate := None; LastSend := None;
         LastSuccess := None; SendRetries := 0; ReconnectFailures := 0; NextReconnect := None;
         DNSFailures := failures dns; DNSErrorKind := kind dns; NextDNS := next dns;
         Counters := fun _ => 0; HopCountReduction_ := false; HopCountWeight_ := 0 |}
  | Some (p, n) =>
      let pr := Peers.peer n in
      {| ConfiguredAddr_ := configuredAddr; IngestSource := ingestSource configuredAddr;
         TunnelID_ := TunnelID n; RemoteDI := DomainIdentifierDisplay (Some (remoteDI (PS.tr pr)));
         CandidateAddrs := Join candidates (str ", "); RemoteAddr := Metrics.RemoteAddrString n;
         HasPeer := true; Running := running n;
         ReceiverConnected := bool_decide (PS.rstate (PS.rcv pr) = PS.ReceiverConnected);
         SenderConnected := bool_decide (PS.sstate (PS.snd pr) = PS.SenderConnected);
         ReceiverState := ReceiverState_String (PS.rstate (PS.rcv pr));
         SenderState := SenderState_String (PS.sstate (PS.snd pr));
         ReceiveChLen := zlen (ReceiveCh n); ReceiveQueueHighWater := receiveQueueHighWater n;
         LocalConnID := localConnID (PS.tr pr); RemoteConnID := remoteConnID (PS.tr pr);
         TxSeq := localSeq (PS.tr pr); RxSeq := remoteSeq (PS.tr pr);
         LastHeardFrom := PS.lastHeardFrom (PS.tm pr); LastReconnect := PS.lastReconnect (PS.tm pr);
         LastUpdate := PS.lastUpdate (PS.tm pr); LastSend := PS.lastSend (PS.tm pr);
         LastSuccess := PS.lastSuccess (PS.tm pr); SendRetries := PS.sendRetries (PS.tm pr);
         ReconnectFailures := PS.reconnectFailures (PS.tm pr); NextReconnect := PS.nextReconnect (PS.tm pr);
         DNSFailures := failures dns; DNSErrorKind := kind dns; NextDNS := next dns;
         Counters := loads p; HopCountReduction_ := HopCountReduction (PS.timing pr);
         HopCountWeight_ := HopCountWeight (PS.timing pr) |}
  end.

(** The loop over [t.dnsByConfigured]: the rows and the peers seen. *)
Fixpoint configured_rows (t : AURPPeerTable) (names : list (list Z)) :
    T (list aurpPeerStatusRow * list positive) :=
  match names with
  | [] => mret ([], [])
  | c :: names =>
      row ← (match peersByConfigured t !! c with
             | None => mret (newAURPPeerStatusRow None c [] (dns_of t c), [])
             | Some p =>
                 n ← deref p;
                 mret (newAURPPeerStatusRow (Some (p, n)) c (candidateAddrsLocked t p) (dns_of t c), [p])
             end);
      rest ← configured_rows t names;
      mret (fst row :: fst rest, snd row ++ snd rest)
  end.

(** The loop over the peers. *)
Fixpoint other_rows (t : AURPPeerTable) (seen ps : list positive) : T (list aurpPeerStatusRow) :=
  match ps with
  | [] => mret []
  | p :: ps =>
      if bool_decide (p ∈ seen) then other_rows t seen ps
      else
        n ← deref p;
        rest ← other_rows t seen ps;
        mret (newAURPPeerStatusRow (Some (p, n)) (ConfiguredAddr n) (candidateAddrsLocked t p) zero_dns :: rest)
  end.

Definition bool2Int (b : bool) : Z := if b then 1 else 0.

Definition row_order (a b : aurpPeerStatusRow) : comparison :=
  (CompOpp (Z.compare (bool2Int (ReceiverConnected a)) (bool2Int (ReceiverConnected b)))
   <|>c CompOpp (Z.compare (bool2Int (SenderConnected a)) (bool2Int (SenderConnected b)))
   <|>c bytes_compare (ConfiguredAddr_ a) (ConfiguredAddr_ b)
   <|>c bytes_compare (RemoteAddr a) (RemoteAddr b))%go.

Definition status : T (list aurpPeerStatusRow) :=
  t ← gett peers;
  rows ← configured_rows t (configuredAddresses t);
  others ← other_rows t (snd rows) (uniquePeersLocked t);
  mret (sort_func row_order (fst rows ++ others)).

(** [ServeHTTP]: the peer whose chat log is shown, or a not-found answer. *)
Definition ServeHTTP (ipStr : list Z) : T (option positive) :=
  t ← gett peers;
  match Lookup t (default [] (ParseIP ipStr)) with
  | inl _ | inr None => mret None
  | inr (Some p) => mret (Some p)
  end.

(** ** The routing table *)

(** The snapshot [traffic] of the counters, by key. *)
Definition traffic_snapshot (rt : RouteTable) (rs : list Route) : gmap RouteKey (Z * Z) :=
  foldl (fun m r => <[rkey r := (DDPBytesIn rt r, DDPBytesOut rt r)]> m) ∅ rs.

Definition route_order (traffic : gmap RouteKey (Z * Z)) (ra rb : Route) : comparison :=
  let a := default (0, 0) (traffic !! rkey ra) in
  let b := default (0, 0) (traffic !! rkey rb) in
  (Z.compare (wrap64 (b.1 + b.2)) (wrap64 (a.1 + a.2))
   <|>c Z.compare b.1 a.1
   <|>c Z.compare b.2 a.2
   <|>c Z.compare (NetStart (rkey ra)) (NetStart (rkey rb))
   <|>c bytes_compare (TargetKey (rkey ra)) (TargetKey (rkey rb)))%go.

(** [rs] is what [Dump] gives, in the order it happens to have. *)
Definition routing_page (rt : RouteTable) (rs : list Route) : list Route :=
  sort_func (route_order (traffic_snapshot rt rs)) rs.

End Page.
End Page.
