(* ===== verification/StatusPageSpec.v ===== *)
(** * The status pages: properties of module Page *)
From stdpp Require Import pretty sorting.
From S2P Require Import Prelude Wtacc AurpHeaders AurpTuples AurpZoneInfo AurpPacket AurpTransport.
From S2P Require Import PeerPolicy GoSort RouteTable RouteTableInv RouteTableSpec RouteExport PeerState.
From S2P Require Import AtalkNbp Atalk DdpPolicy Seed LoopProbe Router PeerTable PeerTableInv PeerTableSpec.
From S2P Require Import GoParse Metrics MetricsSpec StatusPage.
Import RT Policy Router Peers GoParse Page.

(** ** Sorting by an order without ties *)

Lemma sw_opp {A} (cmp : A -> A -> comparison) : StrictWeak cmp -> StrictWeak (fun a b => CompOpp (cmp a b)).
Proof.
  intros [H1 H2]. split; [intros a b; by rewrite (H1 a b)|]. intros a b c. rewrite <- !H1.
  intros Hab Hbc. by apply (H2 c b a).
Qed.

Lemma cmp_or_eq c1 c2 : cmp_or c1 c2 = Eq <-> c1 = Eq /\ c2 = Eq.
Proof. destruct c1, c2; cbn; intuition congruence. Qed.

(** ** Addresses as text *)

Lemma str_inj a b : str a = str b -> a = b.
Proof.
  revert b. induction a as [|c a IH]; intros [|d b]; cbn [str]; try done. intros [= Hc Hs].
  apply N2Z.inj in Hc. rewrite <- (Ascii.ascii_N_embedding c), <- (Ascii.ascii_N_embedding d), Hc. f_equal. by apply IH.
Qed.

Lemma decimal_inj a b : decimal a = decimal b -> a = b.
Proof. intros H%str_inj. by apply (inj pretty). Qed.

Lemma decimal_no_dot n : Forall (fun c => c <> 46) (decimal n).
Proof.
  assert (Hp : forall n, 0 <= n -> Forall (fun c => c <> 46) (decimal n)).
  { intros m Hm. apply (Forall_impl _ _ _ (pretty_digits m Hm)). lia. }
  destruct (decide (0 <= n)) as [H|H]; [by apply Hp|]. destruct n as [| |p]; [lia..|].
  change (decimal (Z.neg p)) with (45 :: decimal (Z.pos p)). constructor; [done|]. apply Hp. lia.
Qed.

Lemma dot_inj a b r s : decimal a ++ 46 :: r = decimal b ++ 46 :: s -> a = b /\ r = s.
Proof.
  intros E. apply (f_equal (cut 46)) in E. rewrite !cut_here in E by apply decimal_no_dot.
  injection E as H1 H2. split; [by apply decimal_inj|done].
Qed.

Lemma dotted_inj x y : zlen x = 4 -> zlen y = 4 -> dotted x = dotted y -> x = y.
Proof.
  unfold zlen. intros Hx Hy.
  destruct x as [|a [|b [|c [|d [|]]]]]; cbn in Hx; try lia. destruct y as [|a' [|b' [|c' [|d' [|]]]]]; cbn in Hy; try lia.
  cbn. rewrite !app_nil_r. intros E. apply dot_inj in E as [-> E]. apply dot_inj in E as [-> E].
  apply dot_inj in E as [-> E]. apply decimal_inj in E as ->. done.
Qed.

Lemma dotted_nonempty x : zlen x = 4 -> dotted x <> [].
Proof.
  unfold zlen. destruct x as [|a [|b x]]; cbn; [lia|lia|]. intros _ E. by apply app_nil in E as [_ E].
Qed.

Lemma filter_members {A} (P Q : A -> Prop) `{!forall x, Decision (P x), !forall x, Decision (Q x)} (l : list A) :
  (forall x, x ∈ l -> P x <-> Q x) -> filter P l = filter Q l.
Proof.
  induction l as [|x l IH]; intros Hpq; [done|].
  rewrite !filter_cons, IH by (intros y Hy; apply Hpq; by apply list_elem_of_further).
  pose proof (Hpq x (list_elem_of_here _ _)). do 2 case_decide; tauto.
Qed.

Lemma sw_rows : StrictWeak row_order.
Proof.
  unfold row_order. repeat apply sw_or; try apply sw_opp.
  - apply (sw_proj (fun r => bool2Int (ReceiverConnected r))), sw_Z.
  - apply (sw_proj (fun r => bool2Int (SenderConnected r))), sw_Z.
  - apply (sw_proj ConfiguredAddr_), sw_bytes.
  - apply (sw_proj RemoteAddr), sw_bytes.
Qed.

(** What tells two rows apart. *)
Definition row_key (r : aurpPeerStatusRow) : list Z * list Z := (ConfiguredAddr_ r, RemoteAddr r).

Lemma row_order_key a b : row_order a b = Eq -> row_key a = row_key b.
Proof.
  unfold row_order, row_key. rewrite !cmp_or_eq, !bytes_compare_eq. by intros (_ & _ & -> & ->).
Qed.

Section Spec.
Context {GStr : GoStrings} {GS : GoSort} {GN : GoNet}.
Variable ParseIP : list Z -> option (list Z).
Variable loads : positive -> Metrics.Atomic -> Z.

(** ** The order of the maps does not show *)

Lemma ip_range_any (MO1 MO2 : MapOrder) t : ip_range (MO := MO1) t ≡ₚ ip_range (MO := MO2) t.
Proof. unfold ip_range. by rewrite !set_range_perm. Qed.

Lemma candidates_any (MO1 MO2 : MapOrder) t p :
  candidateAddrsLocked (MO := MO1) t p = candidateAddrsLocked (MO := MO2) t p.
Proof.
  apply sort_func_unique; [apply sw_bytes| |].
  - apply Permutation_map. by rewrite (ip_range_any MO1 MO2).
  - intros x y _ _. apply bytes_compare_eq.
Qed.

Section Rows.
Context {MO : MapOrder}.

Definition no_row : aurpPeerStatusRow := newAURPPeerStatusRow ParseIP loads None [] [] zero_dns.

(** The row of a name and that of a peer. *)
Definition name_row (w : TW) (c : list Z) : aurpPeerStatusRow :=
  let t := peers w in
  match peersByConfigured t !! c with
  | None => newAURPPeerStatusRow ParseIP loads None c [] (dns_of t c)
  | Some p =>
      match heap w !! p with
      | None => no_row
      | Some n => newAURPPeerStatusRow ParseIP loads (Some (p, n)) c (candidateAddrsLocked t p) (dns_of t c)
      end
  end.
Definition peer_row (w : TW) (p : positive) : aurpPeerStatusRow :=
  match heap w !! p with
  | None => no_row
  | Some n => newAURPPeerStatusRow ParseIP loads (Some (p, n)) (ConfiguredAddr n) (candidateAddrsLocked (peers w) p) zero_dns
  end.

Lemma configured_rows_run w cs : table_ok w ->
  configured_rows ParseIP loads (peers w) cs w = Some (w, (map (name_row w) cs, omap (configuredPeer (peers w)) cs)).
Proof.
  intros Hw. induction cs as [|c cs IH]; [done|]. cbn [configured_rows map omap list_omap]. unfold name_row at 1, configuredPeer.
  destruct (peersByConfigured (peers w) !! c) as [p|] eqn:E.
  - destruct (proj1 (ok_named w Hw c p) E) as (_ & n & En & _). rewrite En.
    rewrite (t_bind _ _ w w (newAURPPeerStatusRow ParseIP loads (Some (p, n)) c (candidateAddrsLocked (peers w) p)
      (dns_of (peers w) c), [p])) by by rewrite (t_deref p n).
    by rewrite (t_bind _ _ _ _ _ IH).
  - rewrite (t_bind (mret _) _ w w (newAURPPeerStatusRow ParseIP loads None c [] (dns_of (peers w) c), [])) by done.
    by rewrite (t_bind _ _ _ _ _ IH).
Qed.

Lemma other_rows_run w seen ps : Forall (fun p => is_Some (heap w !! p)) ps ->
  other_rows ParseIP loads (peers w) seen ps w = Some (w, map (peer_row w) (filter (fun p => p ∉ seen) ps)).
Proof.
  induction 1 as [|p ps [n E] _ IH]; [done|]. cbn [other_rows]. rewrite filter_cons. case_bool_decide as Hs.
  - by rewrite decide_False by (intros H; by apply H).
  - rewrite decide_True by done. rewrite (t_deref p n) by done. rewrite (t_bind _ _ _ _ _ IH).
    cbn [map]. unfold peer_row at 2. by rewrite E.
Qed.

(** The peers without a name. *)
Definition unnamed (w : TW) (p : positive) : Prop := ConfiguredAddr <$> heap w !! p = Some [].

#[local] Instance unnamed_dec w p : Decision (unnamed w p).
Proof. unfold unnamed. apply _. Defined.

Lemma unseen_unnamed w p : table_ok w -> is_Some (heap w !! p) ->
  p ∉ omap (configuredPeer (peers w)) (configuredAddresses (peers w)) <-> unnamed w p.
Proof.
  intros Hw [n E]. unfold unnamed. rewrite E. cbn. rewrite list_elem_of_omap. split.
  - intros Hnot. f_equal. apply dec_stable. intros Hc. apply Hnot. exists (ConfiguredAddr n).
    assert (Ep : peersByConfigured (peers w) !! ConfiguredAddr n = Some p) by (apply (ok_named w Hw); eauto).
    split; [|done]. apply elem_of_addresses, (ok_tracked w Hw). by rewrite Ep.
  - intros [= Hc] (c & _ & Ec%(ok_named w Hw)). destruct Ec as (Hne & n' & En & <-). congruence.
Qed.

Definition unsorted (w : TW) : list aurpPeerStatusRow :=
  map (name_row w) (configuredAddresses (peers w)) ++
  map (peer_row w) (filter (unnamed w) (uniquePeersLocked (peers w))).

Lemma status_run w : table_ok w -> status ParseIP loads w = Some (w, sort_func row_order (unsorted w)).
Proof.
  intros Hw. unfold status. rewrite (t_bind (gett peers) _ w w (peers w)) by done.
  rewrite (t_bind _ _ _ _ _ (configured_rows_run w (configuredAddresses (peers w)) Hw)). cbn [fst snd].
  destruct (unique_peers w Hw) as [_ Hin].
  assert (Ha : Forall (fun p => is_Some (heap w !! p)) (uniquePeersLocked (peers w))) by (apply Forall_forall; intros p; apply Hin).
  rewrite (t_bind _ _ _ _ _ (other_rows_run w _ _ Ha)). unfold unsorted.
  rewrite <- (filter_members (fun p => p ∉ omap (configuredPeer (peers w)) (configuredAddresses (peers w))) (unnamed w)); [done|].
  intros p Hp%Hin. by apply unseen_unnamed.
Qed.

(** ** What the rows hold *)

Lemma name_row_spec w c : table_ok w -> ConfiguredAddr_ (name_row w c) = c /\
  match peersByConfigured (peers w) !! c with
  | None => HasPeer (name_row w c) = false /\ RemoteAddr (name_row w c) = []
  | Some p => exists n, heap w !! p = Some n /\ HasPeer (name_row w c) = true /\
      TunnelID_ (name_row w c) = TunnelID n /\ RemoteAddr (name_row w c) = IP_String (remoteAddr n)
  end.
Proof.
  intros Hw. unfold name_row. destruct (peersByConfigured (peers w) !! c) as [p|] eqn:E; [|done].
  destruct (proj1 (ok_named w Hw c p) E) as (_ & n & En & _). rewrite En. split; [done|]. exists n. split_and!; try done.
  cbn. unfold Metrics.RemoteAddrString. pose proof (active_four w p n Hw En) as Ha. by destruct (remoteAddr n).
Qed.

Lemma peer_row_spec w p n : table_ok w -> heap w !! p = Some n ->
  ConfiguredAddr_ (peer_row w p) = ConfiguredAddr n /\ HasPeer (peer_row w p) = true /\
  TunnelID_ (peer_row w p) = TunnelID n /\ RemoteAddr (peer_row w p) = IP_String (remoteAddr n).
Proof.
  intros Hw En. unfold peer_row. rewrite En. split_and!; try done. cbn. unfold Metrics.RemoteAddrString.
  pose proof (active_four w p n Hw En) as Ha. by destruct (remoteAddr n).
Qed.

Lemma addr_text w p n : table_ok w -> heap w !! p = Some n ->
  IP_String (remoteAddr n) = dotted (remoteAddr n) /\ zlen (remoteAddr n) = 4.
Proof.
  intros Hw En. pose proof (active_four w p n Hw En) as Ha. split; [by apply IP_String_v4|by eapply To4_length].
Qed.

Lemma unsorted_keys w : table_ok w -> NoDup (map row_key (unsorted w)).
Proof.
  intros Hw. unfold unsorted. rewrite map_app, !map_map. apply NoDup_app. split; [|split].
  - apply (nodup_map_inj (fun c => row_key (name_row w c))); [apply addresses_nodup|]. intros c d _ _ [= E _].
    by rewrite !(proj1 (name_row_spec w _ Hw)) in E.
  - intros k (c & -> & Hc)%list_elem_of_fmap (p & E & Hp)%list_elem_of_fmap.
    apply list_elem_of_filter in Hp as [Hu _]. unfold unnamed in Hu. destruct (heap w !! p) as [n|] eqn:En; [|done].
    injection Hu as Hu. destruct (peer_row_spec w p n Hw En) as (E1 & _ & _ & E2). injection E as Ek Ea.
    destruct (name_row_spec w c Hw) as [E3 H4]. rewrite E3, E1, Hu in Ek. subst c.
    destruct (peersByConfigured (peers w) !! []) as [q|] eqn:Eq; [by destruct (proj1 (ok_named w Hw [] q) Eq)|].
    destruct H4 as [_ H4]. destruct (addr_text w p n Hw En) as [Et El].
    apply (dotted_nonempty (remoteAddr n) El). by rewrite <- Et, <- E2, <- Ea.
  - destruct (unique_peers w Hw) as [Hnd Hin].
    apply (nodup_map_inj (fun p => row_key (peer_row w p))); [by apply NoDup_filter|].
    intros p q [_ Hp]%list_elem_of_filter [_ Hq]%list_elem_of_filter [= _ E]. apply Hin in Hp as [n En], Hq as [m Em].
    rewrite (proj2 (proj2 (proj2 (peer_row_spec w p n Hw En)))), (proj2 (proj2 (proj2 (peer_row_spec w q m Hw Em)))) in E.
    destruct (addr_text w p n Hw En) as [T1 L1], (addr_text w q m Hw Em) as [T2 L2]. rewrite T1, T2 in E.
    apply dotted_inj in E; [|done..]. pose proof (ok_active w Hw p n En). pose proof (ok_active w Hw q m Em). congruence.
Qed.

Lemma unsorted_length w : table_ok w -> length (unsorted w) =
  (size (dnsByConfigured (peers w)) + length (filter (fun n => ConfiguredAddr n = []) (map_to_list (heap w)).*2))%nat.
Proof.
  intros Hw. unfold unsorted. rewrite length_app, !length_map. f_equal.
  - unfold configuredAddresses. rewrite set_range_perm. by rewrite <- size_dom.
  - destruct (listed_nodes w Hw) as (ns & Hns & <-). induction Hns as [|p n ps ns E _ IH]; [done|].
    assert (Hu : unnamed w p <-> ConfiguredAddr n = []) by (unfold unnamed; rewrite E; cbn; split; congruence).
    rewrite !filter_cons. do 2 case_decide; try tauto. cbn. by rewrite IH.
Qed.
End Rows.

Lemma unsorted_any (MO1 MO2 : MapOrder) w : table_ok w -> unsorted (MO := MO1) w ≡ₚ unsorted (MO := MO2) w.
Proof.
  intros Hw. unfold unsorted.
  assert (E1 : forall c, name_row (MO := MO1) w c = name_row (MO := MO2) w c).
  { intros c. unfold name_row. repeat case_match; try done. by rewrite (candidates_any MO1 MO2). }
  assert (E2 : forall p, peer_row (MO := MO1) w p = peer_row (MO := MO2) w p).
  { intros p. unfold peer_row. case_match; [|done]. by rewrite (candidates_any MO1 MO2). }
  apply Permutation_app.
  - rewrite (map_ext _ _ E1). apply Permutation_map. unfold configuredAddresses. by rewrite !set_range_perm.
  - rewrite (map_ext _ _ E2). apply Permutation_map, filter_Permutation.
    destruct (unique_peers (MO := MO1) w Hw) as [N1 I1], (unique_peers (MO := MO2) w Hw) as [N2 I2].
    apply NoDup_Permutation; [done|done|]. intros p. by rewrite I1, I2.
Qed.

End Spec.

(** ** The routing table *)

Lemma snapshot_lookup rt rs (m : gmap RouteKey (Z * Z)) r : NoDup (map rkey rs) -> r ∈ rs ->
  foldl (fun m r => <[rkey r := (DDPBytesIn rt r, DDPBytesOut rt r)]> m) m rs !! rkey r
    = Some (DDPBytesIn rt r, DDPBytesOut rt r).
Proof.
  assert (Hother : forall rs (m : gmap RouteKey (Z * Z)) k, k ∉ map rkey rs ->
    foldl (fun m r => <[rkey r := (DDPBytesIn rt r, DDPBytesOut rt r)]> m) m rs !! k = m !! k).
  { clear. induction rs as [|r rs IH]; intros m k Hk; [done|]. cbn in *. apply not_elem_of_cons in Hk as [Hk Hks].
    rewrite IH by done. by apply lookup_insert_ne. }
  revert m. induction rs as [|r' rs IH]; intros m Hnd Hr; [by apply elem_of_nil in Hr|]. cbn in *.
  apply NoDup_cons in Hnd as [Hn Hnd]. apply elem_of_cons in Hr as [->|Hr]; [|by apply IH].
  rewrite Hother by done. apply lookup_insert_eq.
Qed.

Section Routes.
Context {GS : GoSort}.

(** The bytes of a route, in, out and together as the page adds them up. *)
Definition carried (rt : RouteTable) (r : Route) : Z * Z := (DDPBytesIn rt r, DDPBytesOut rt r).

Definition talker_order (rt : RouteTable) (a b : Route) : comparison :=
  (Z.compare (wrap64 ((carried rt b).1 + (carried rt b).2)) (wrap64 ((carried rt a).1 + (carried rt a).2))
   <|>c Z.compare (carried rt b).1 (carried rt a).1
   <|>c Z.compare (carried rt b).2 (carried rt a).2
   <|>c Z.compare (NetStart (rkey a)) (NetStart (rkey b))
   <|>c bytes_compare (TargetKey (rkey a)) (TargetKey (rkey b)))%go.

Lemma sw_flip {A} (cmp : A -> A -> comparison) : StrictWeak cmp -> StrictWeak (fun a b => cmp b a).
Proof. intros [H1 H2]. split; [intros a b; apply H1|]. intros a b c Hab Hbc. by apply (H2 c b a). Qed.

Lemma sw_talkers {A} (f : A -> Z * Z) (k : A -> RouteKey) : StrictWeak (fun a b =>
  (Z.compare (wrap64 ((f b).1 + (f b).2)) (wrap64 ((f a).1 + (f a).2)) <|>c Z.compare (f b).1 (f a).1
   <|>c Z.compare (f b).2 (f a).2 <|>c Z.compare (NetStart (k a)) (NetStart (k b))
   <|>c bytes_compare (TargetKey (k a)) (TargetKey (k b)))%go).
Proof.
  repeat apply sw_or.
  - apply (sw_flip (fun a b => Z.compare (wrap64 ((f a).1 + (f a).2)) (wrap64 ((f b).1 + (f b).2)))).
    apply (sw_proj (fun a => wrap64 ((f a).1 + (f a).2))), sw_Z.
  - apply (sw_flip (fun a b => Z.compare (f a).1 (f b).1)), (sw_proj (fun a => (f a).1)), sw_Z.
  - apply (sw_flip (fun a b => Z.compare (f a).2 (f b).2)), (sw_proj (fun a => (f a).2)), sw_Z.
  - apply (sw_proj (fun a => NetStart (k a))), sw_Z.
  - apply (sw_proj (fun a => TargetKey (k a))), sw_bytes.
Qed.

Lemma sw_route_order m : StrictWeak (route_order m).
Proof. apply (sw_talkers (fun r => default (0, 0) (m !! rkey r)) rkey). Qed.

Lemma dump_spec rt : reachable rt -> NoDup (map rkey (Dump rt)) /\ forall r, r ∈ Dump rt <-> stored rt r.
Proof.
  intros Hinv%reachable_inv. unfold Dump. split.
  - change (fmap snd) with (@map (TargetClass * RouteKey * Route) Route snd). rewrite map_map.
    apply nodup_map_inj; [apply NoDup_map_to_list|]. intros [[c1 k1] r1] [[c2 k2] r2] H1%elem_of_map_to_list H2%elem_of_map_to_list E.
    cbn in E. pose proof (so_key _ _ _ (inv_stored rt Hinv _ _ _ H1)) as E1. pose proof (so_key _ _ _ (inv_stored rt Hinv _ _ _ H2)) as E2.
    rewrite E1, E2 in E. subst k2. destruct (stored_class rt Hinv _ _ _ _ _ H1 H2) as [-> ->]. done.
  - intros r. rewrite list_elem_of_fmap. unfold stored. split.
    + intros ([[c k] r'] & -> & H%elem_of_map_to_list). exists c. cbn.
      by rewrite (so_key _ _ _ (inv_stored rt Hinv _ _ _ H)).
    + intros [c H]. exists ((c, rkey r), r). split; [done|]. by apply elem_of_map_to_list.
Qed.

(** The page of the routing table lists every stored route once, by the bytes
    through it, most first; the routes with the same traffic have an order too, so
    that the page is the same whatever order [Dump] has. *)
Theorem routing_page_exact (rt : RouteTable) (rs : list Route) : reachable rt -> rs ≡ₚ Dump rt ->
  routing_page rt rs = routing_page rt (Dump rt) /\
  NoDup (map rkey (routing_page rt rs)) /\ (forall r, r ∈ routing_page rt rs <-> stored rt r) /\
  StronglySorted (fun a b => talker_order rt a b <> Gt) (routing_page rt rs).
Proof.
  intros Hr Hp. destruct (dump_spec rt Hr) as [Hnd Hst].
  assert (Hord : forall l, l ≡ₚ Dump rt -> forall a b, a ∈ l -> b ∈ l ->
            route_order (traffic_snapshot rt l) a b = talker_order rt a b).
  { intros l Hl a b Ha Hb. unfold route_order, traffic_snapshot, talker_order.
    rewrite !snapshot_lookup by (done || by rewrite Hl). done. }
  assert (Hsame : forall l, l ≡ₚ Dump rt -> routing_page rt l ≡ₚ l) by (intros l _; apply sort_func_perm, sw_route_order).
  assert (Hss : forall l, l ≡ₚ Dump rt -> StronglySorted (fun a b => talker_order rt a b <> Gt) (routing_page rt l)).
  { intros l Hl. pose proof (sorted_strongly _ (sw_route_order (traffic_snapshot rt l)) _
      (sort_func_sorted (route_order (traffic_snapshot rt l)) l (sw_route_order _))) as Hs.
    assert (Hin : forall x, x ∈ routing_page rt l -> x ∈ l) by (intros x; by rewrite Hsame).
    unfold routing_page in *. induction Hs as [|a xs Hs IH Ha]; [constructor|]. constructor.
    - apply IH. intros x Hx. apply Hin. by apply list_elem_of_further.
    - rewrite Forall_forall in Ha |- *. intros b Hb. rewrite <- (Hord l Hl); [by apply Ha| |]; apply Hin;
        [apply list_elem_of_here|by apply list_elem_of_further]. }
  split; [|split; [by rewrite (Hsame rs Hp), Hp|split; [|by apply Hss]]].
  - apply (StronglySorted_unique_strong (fun a b => talker_order rt a b <> Gt)); [|by apply Hss..|by rewrite !Hsame].
    intros a b Ha Hb Hab Hba. rewrite Hsame, Hp in Ha by done. rewrite Hsame in Hb by done.
    assert (E : talker_order rt a b = Eq).
    { pose proof (sw_antisym (sw_talkers (carried rt) rkey) b a) as Hc. fold (talker_order rt a b) in Hc.
      unfold talker_order in *. rewrite Hc in Hab |- *. cbv beta in *. by destruct (cmp_or _ _). }
    unfold talker_order in E. rewrite !cmp_or_eq, Z.compare_eq_iff, bytes_compare_eq in E.
    apply (nodup_map_inj rkey (Dump rt)); [by apply (NoDup_fmap_1 rkey)|done..|].
    destruct E as (_ & _ & _ & E1%Z.compare_eq_iff & E2). destruct (rkey a), (rkey b). cbn in *. by subst.
  - intros r. by rewrite Hsame, Hp.
Qed.
End Routes.

(** ** Witnesses *)

#[local] Existing Instances ascii_strings insertion_sort.


Lemma routing_page_exact_witness :
  routing_page wit_rt (List.rev (Dump wit_rt)) = routing_page wit_rt (Dump wit_rt) /\
  (1 < length (routing_page wit_rt (List.rev (Dump wit_rt))))%nat.
Proof.
  split; [|vm_compute; lia].
  apply (routing_page_exact wit_rt (List.rev (Dump wit_rt)) wit_reachable).
  symmetry. apply Permutation_rev.
Defined.
