(* ===== verification/Delivery.v ===== *)
(** * From the router to the wire ([Forward] of the route targets)

    The router hands packets to ports and route targets ([Router.Emit]); here
    those calls reach them: an EtherTalk port and a router behind one
    ([router/etalk_port.go], [router/etalk_peer.go]) write frames or queue the
    packet, an AURP peer ([router/aurp_peer.go]) sends it through its tunnel. *)
From S2P Require Import Prelude Wtacc AurpHeaders AurpTuples AurpZoneInfo AurpPacket AurpTransport.
From S2P Require Import PeerPolicy GoSort RouteTable RouteExport PeerState PeerFSM AtalkNbp Atalk DdpPolicy.
From S2P Require Import Seed LoopProbe Aarp Outbox Router EtherTalk.
Import RT DDP Router.

Module Delivery.

(** A port's hardware address and its AARP machine with the outboxes. *)
Record Station := MkStation { ethernetAddr : Aarp.HWAddr; ether : Aarp.EW }.

(** The ports by device, the peers by tunnel ID. *)
Record DW := MkDW { stations : gmap (list Z) Station; tunnels : gmap (list Z) PS.World }.

Abbreviation error := (option goerr).

Section Delivery.
Context {GStr : GoStrings} {MO : MapOrder} `{MT : Multitalk} `{ET : Aarp.Ethertalk}.

(** [EtherTalkPeer.Forward]. *)
Definition EtherTalkPeer_Forward (hw : Aarp.HWAddr) (PeerAddr : Addr) (pkt : ExtPacket) : Aarp.E error :=
  '(destEth, waitCh) ← Aarp.lookupOrWait PeerAddr;
  match waitCh with
  | None => Outbox.send hw destEth pkt
  | Some waitCh => _ ← Outbox.outboxPush waitCh PeerAddr pkt; mret None
  end.

(** A method of the port of a device; there is one for every device in use. *)
Definition on_port (dev : list Z) (m : Aarp.HWAddr -> Aarp.E error) (d : DW) : option (DW * error) :=
  s ← stations d !! dev;
  '(e, err) ← m (ethernetAddr s) (ether s);
  Some (MkDW (<[dev := MkStation (ethernetAddr s) e]> (stations d)) (tunnels d), err).

Definition on_tunnel (id : list Z) (m : PS.M error) (d : DW) : option (DW * error) :=
  w ← tunnels d !! id;
  '(w, err) ← m w;
  Some (MkDW (stations d) (<[id := w]> (tunnels d)), err).

(** The call that an emission stands for. *)
Definition perform (e : Emit) : DW -> option (DW * error) :=
  match e with
  | TargetForward (EtherTalkPort dev) pkt => on_port dev (fun hw => Outbox.Forward hw pkt)
  | TargetForward (EtherTalkPeer dev net node) pkt =>
      on_port dev (fun hw => EtherTalkPeer_Forward hw (MkAddr net node) pkt)
  | TargetForward (AURPPeer id) pkt => on_tunnel id (Tunnel.Forward pkt)
  | PortSend dev pkt => on_port dev (fun hw => Outbox.Send hw pkt)
  | PortBroadcast dev pkt => on_port dev (fun hw => Outbox.Broadcast hw pkt)
  | PortZoneMulticast dev zone pkt => on_port dev (fun hw => Outbox.ZoneMulticast hw zone pkt)
  end.

End Delivery.
End Delivery.
