(* ===== verification/DeliverySpec.v ===== *)
(** * From the router to the wire: properties of module Delivery

    [DeliveryLaws] are what the port relies on in the third-party packages: a
    datagram whose length field is right is read back from its bytes, and an
    EtherTalk frame carries the bytes of its datagram. *)
From S2P Require Import Prelude Wtacc AurpHeaders AurpTuples AurpZoneInfo AurpPacket AurpTransport.
From S2P Require Import PeerPolicy GoSort RouteTable RouteTableInv RouteTableSpec RouteExport PeerState PeerFSM.
From S2P Require Import PeerInv AtalkNbp Atalk DdpPolicy TunnelSpec Seed LoopProbe Aarp AarpSpec AarpWire Outbox OutboxSpec.
From S2P Require Import Router RouterSpec EtherTalk Delivery.
Import RT Policy DDP Router Delivery.

(** The length in the header of a datagram is that of its bytes. *)
Definition sized (p : ExtPacket) : Prop := Z.land (Size p) 0x3FF = 13 + zlen (Data p).

Class DeliveryLaws `{MT : Multitalk} `{ET : Aarp.Ethertalk} := {
  ExtUnmarshal_wire p : ext_typed p -> sized p -> ExtUnmarshal (wire p) = Ok p;
  AppleTalk_frame hw p raw : Aarp.hw_ok hw -> ExtMarshal p = Ok raw ->
    exists f, Aarp.AppleTalk hw p = Ok f /\ Aarp.Payload f = raw /\ Aarp.FrameSrc f = hw /\
      Aarp.SNAPProto f = Aarp.AppleTalkProto;
  AppleTalk_marshal hw p f dst : Aarp.hw_ok hw -> Aarp.AppleTalk hw p = Ok f -> Aarp.hw_ok dst ->
    exists raw, Aarp.EthMarshal (Aarp.with_FrameDst dst f) = Ok raw }.

Section Spec.
Context {GStr : GoStrings} {GS : GoSort} {MO : MapOrder} `{MT : Multitalk} {ML : MultitalkLaws}.
Context `{ET : Aarp.Ethertalk} {EL : Aarp.EthertalkLaws} {DL : DeliveryLaws}.

(** ** A frame carries its packet *)

Lemma pad_zeros raw : exists n, Aarp.pad_frame raw = raw ++ replicate n 0.
Proof. unfold Aarp.pad_frame. case_if; [by eexists|]. exists 0%nat. cbn. by rewrite app_nil_r. Qed.

Lemma wire_size p : zlen (wire p) = 13 + zlen (Data p).
Proof. unfold wire, covered, put16, zlen. rewrite !length_app. cbn [length]. lia. Qed.

Lemma read_padded p tail behind : ext_typed p -> sized p -> EtherTalk.read_ddp (wire p ++ tail) behind = Ok p.
Proof.
  intros Hp Hs. unfold EtherTalk.read_ddp, EtherTalk.trim_ddp, EtherTalk.ddp_size.
  assert (E : slice_to ((wire p ++ tail) ++ behind) 2 = Ok (put16 (Size p))).
  { unfold slice_to. pose proof (zlen_nonneg tail). pose proof (zlen_nonneg behind). pose proof (zlen_nonneg (Data p)).
    rewrite !zlen_app, wire_size. zdec. reflexivity. }
  rewrite E. cbn [mbind res_bind]. assert (Hz : u16 (Size p)) by apply Hp.
  assert (Eb : be16 (put16 (Size p)) = Ok (Size p)) by by apply be16_put16.
  rewrite Eb. cbn [mbind res_bind]. rewrite Hs, zlen_app, wire_size.
  assert (Hw : ExtUnmarshal (wire p) = Ok p) by by apply ExtUnmarshal_wire.
  case_if; zbool.
  - replace (Z.to_nat (13 + zlen (Data p))) with (length (wire p)); [by rewrite take_app_length|].
    pose proof (wire_size p) as Hl. unfold zlen in *. lia.
  - assert (Ht : tail = []) by (destruct tail; [done|rewrite zlen_cons in *; pose proof (zlen_nonneg tail); lia]).
    by rewrite Ht, app_nil_r.
Qed.

(** What a port reads from the frame that another writes. *)
Definition frame_holds (hw dst : Aarp.HWAddr) (p : ExtPacket) (raw : list Z) : Prop := exists f,
  Aarp.EthUnmarshal raw = Ok f /\ Aarp.FrameDst f = dst /\ Aarp.FrameSrc f = hw /\
  Aarp.SNAPProto f = Aarp.AppleTalkProto /\ forall behind, EtherTalk.read_ddp (Aarp.Payload f) behind = Ok p.

Lemma frame_roundtrip hw dst p : Aarp.hw_ok hw -> Aarp.hw_ok dst -> ext_typed p -> sized p ->
  exists raw, data_raw hw dst p = Some raw /\ frame_holds hw dst p raw.
Proof.
  intros Hhw Hdst Hp Hs. destruct (ExtMarshal_returns p Hp) as [bs Eb]. pose proof (ExtMarshal_layout p bs Eb) as ->.
  destruct (AppleTalk_frame hw p (wire p) Hhw Eb) as (f & Ef & Epl & Esrc & Esn).
  destruct (AppleTalk_marshal hw p f dst Hhw Ef Hdst) as [raw Er].
  unfold data_raw. rewrite Ef. cbn [frame_raw]. rewrite Er. destruct (pad_zeros raw) as [n ->].
  eexists. split; [done|]. destruct (Aarp.Eth_reads _ _ n Er) as [tail Et]. cbn in Et. rewrite Epl, Esrc, Esn in Et.
  eexists. split; [exact Et|]. split_and!; try done. intros behind. by apply read_padded.
Qed.

(** ** The targets *)

(** The node a target sends to first, on a cable. *)
Definition next_hop (t : RouteTarget) (p : ExtPacket) : Addr :=
  match t with EtherTalkPeer _ net node => MkAddr net node | _ => MkAddr (DstNet p) (DstNode p) end.

Definition broadcasts (t : RouteTarget) (p : ExtPacket) : bool :=
  match t with EtherTalkPort _ => Outbox.etherTalkBroadcastNode (DstNode p) | _ => false end.

(** The hardware address the frame goes to, when it is known. *)
Definition frame_to (e : Aarp.EW) (t : RouteTarget) (p : ExtPacket) : option Aarp.HWAddr :=
  if broadcasts t p then Some AppleTalkBroadcast
  else match Aarp.amt e !! next_hop t p with
  | Some ent => if Aarp.Valid (Aarp.clock e) ent then Some (Aarp.e_HWAddr ent) else None
  | None => None
  end.

(** A port whose writes succeed. *)
Definition station_ready (s : Station) : Prop :=
  Aarp.hw_ok (ethernetAddr s) /\ Aarp.writes (ether s) = [] /\
  forall a ent, Aarp.amt (ether s) !! a = Some ent -> Aarp.hw_ok (Aarp.e_HWAddr ent).

(** What a port does with a packet: the frame, or the place in an outbox. *)
Definition on_cable (s : Station) (t : RouteTarget) (p : ExtPacket) (e' : Aarp.EW) : Prop :=
  match frame_to (ether s) t p with
  | Some dst => exists raw, Aarp.written e' = Aarp.written (ether s) ++ [raw] /\
      frame_holds (ethernetAddr s) dst p raw
  | None => exists c ob, Aarp.outboxes e' !! c = Some ob /\ last (Aarp.packets ob) = Some p
  end.

Lemma request_returns a w : exists w' err, Aarp.request a w = Some (w', err) /\ Aarp.outboxes w' = Aarp.outboxes w.
Proof.
  unfold Aarp.request. rewrite (e_bind (Aarp.getw Aarp.machine) _ w w (Aarp.machine w)) by done.
  destruct (Aarp.AARP _ _) as [f|err|] eqn:Ef; cbn [Aarp.checke]; [|by eexists _, _|by apply Aarp.AARP_safe in Ef].
  unfold Aarp.send. destruct (Aarp.EthMarshal f) as [raw|err|] eqn:Er; cbn [Aarp.checke];
    [|by eexists _, _|by apply Aarp.EthMarshal_safe in Er].
  unfold Aarp.WritePacketData. destruct (Aarp.writes w) as [|[] rest]; by eexists _, _.
Qed.

Lemma last_append p now ob : last (Aarp.packets (Outbox.append_packet p now ob)) = Some p.
Proof.
  unfold Outbox.append_packet, Outbox.maxOutboxSize. cbn [Aarp.packets]. case_if; zbool; [|by rewrite last_snoc].
  unfold zlen in *. rewrite length_app in *. cbn [length] in *. rewrite drop_app_le by lia. by rewrite last_snoc.
Qed.

Lemma push_waits c a p w : exists w', Outbox.outboxPush c a p w = Some (w', tt) /\
  exists ob, Aarp.outboxes w' !! c = Some ob /\ last (Aarp.packets ob) = Some p.
Proof.
  unfold Outbox.outboxPush. rewrite (e_bind (Aarp.getw Aarp.clock) _ w w (Aarp.clock w)) by done.
  rewrite (e_bind (Aarp.getw Aarp.outboxes) _ w w (Aarp.outboxes w)) by done.
  destruct (Aarp.outboxes w !! c) as [ob|].
  - eexists. split; [done|]. exists (Outbox.append_packet p (Aarp.clock w) ob).
    split; [apply lookup_insert_eq|apply last_append].
  - set (ob := {| Aarp.packets := [p]; Aarp.ob_addr := a; Aarp.lastTS := Aarp.clock w |}).
    set (w1 := Aarp.with_outboxes (<[c := ob]> (Aarp.outboxes w)) w).
    rewrite (e_bind (Aarp.modw _) _ w w1 tt) by done. destruct (request_returns a w1) as (w2 & err & E2 & Eo).
    rewrite (e_bind _ _ _ _ _ E2). eexists. split; [done|]. exists ob. split; [|done]. cbn. rewrite Eo. apply lookup_insert_eq.
Qed.

Lemma lookup_result a w : exists w' hw wait, Aarp.lookupOrWait a w = Some (w', (hw, wait)) /\
  match Aarp.amt w !! a with
  | Some ent => w' = w /\ hw = Aarp.e_HWAddr ent /\
      (if Aarp.Valid (Aarp.clock w) ent then wait = None else is_Some wait)
  | None => is_Some wait
  end.
Proof.
  unfold Aarp.lookupOrWait. rewrite (e_bind (Aarp.getw Aarp.amt) _ w w (Aarp.amt w)) by done.
  rewrite (e_bind (Aarp.getw Aarp.clock) _ w w (Aarp.clock w)) by done.
  destruct (Aarp.amt w !! a) as [ent|].
  - destruct (Aarp.Valid (Aarp.clock w) ent); cbn [negb]; eexists _, _, _; (split; [done|]); by split_and!.
  - eexists _, _, _. split; [done|]. done.
Qed.

(** The next hop is asked for: its frame goes out, or the packet waits. *)
Lemma hop_runs s t p a : station_ready s -> ext_typed p -> sized p -> broadcasts t p = false -> a = next_hop t p ->
  exists e', EtherTalkPeer_Forward (ethernetAddr s) a p (ether s) = Some (e', None) /\ on_cable s t p e'.
Proof.
  intros (Hhw & Hw & Hamt) Hp Hs Hb ->. unfold on_cable, frame_to, EtherTalkPeer_Forward. rewrite Hb.
  set (a := next_hop t p). set (w := ether s) in *. destruct (lookup_result a w) as (w' & hw & wait & E & H).
  rewrite (e_bind _ _ _ _ _ E). cbn beta iota.
  assert (Hwait : forall c, wait = Some c -> exists e', (_ ← Outbox.outboxPush c a p; mret None) w' = Some (e', @None goerr) /\
            exists c ob, Aarp.outboxes e' !! c = Some ob /\ last (Aarp.packets ob) = Some p).
  { intros c _. destruct (push_waits c a p w') as (w2 & E2 & ob & Eo & Hl). exists w2.
    rewrite (e_bind _ _ _ _ _ E2). split; [done|]. by exists c, ob. }
  destruct (Aarp.amt w !! a) as [ent|] eqn:Ea.
  - destruct H as (-> & -> & H). destruct (Aarp.Valid (Aarp.clock w) ent).
    + subst wait. destruct (frame_roundtrip (ethernetAddr s) (Aarp.e_HWAddr ent) p Hhw (Hamt a ent Ea) Hp Hs) as (raw & Er & Hh).
      exists (Aarp.with_written (Aarp.written w ++ [raw]) [] w). split; [by apply data_sends|by exists raw].
    + destruct H as [c ->]. by apply Hwait.
  - destruct H as [c ->]. by apply Hwait.
Qed.

Lemma port_runs s dev p : station_ready s -> ext_typed p -> sized p -> Aarp.hw_ok AppleTalkBroadcast ->
  exists e', Outbox.Forward (ethernetAddr s) p (ether s) = Some (e', None) /\ on_cable s (EtherTalkPort dev) p e'.
Proof.
  intros Hr Hp Hs Hbc. unfold Outbox.Forward, Outbox.Send. destruct (Outbox.etherTalkBroadcastNode (DstNode p)) eqn:Eb.
  - destruct Hr as (Hhw & Hw & _). destruct (frame_roundtrip (ethernetAddr s) AppleTalkBroadcast p Hhw Hbc Hp Hs) as (raw & Er & Hh).
    eexists. split; [by apply data_sends|]. unfold on_cable, frame_to. cbn [broadcasts]. rewrite Eb. by exists raw.
  - by apply (hop_runs s (EtherTalkPort dev) p).
Qed.

(** ** Delivery *)

Definition tunnel_ready (w : PS.World) : Prop :=
  transport_ok (PS.tr (PS.pr w)) /\ PS.io w = [] /\ u8 (HopCountWeight (PS.timing (PS.pr w))).

(** What became of a packet that the router handed to a target. *)
Definition arrived (d d' : DW) (t : RouteTarget) (p : ExtPacket) : Prop :=
  match t with
  | EtherTalkPort dev | EtherTalkPeer dev _ _ => exists s e', stations d !! dev = Some s /\
      d' = MkDW (<[dev := MkStation (ethernetAddr s) e']> (stations d)) (tunnels d) /\ on_cable s t p e'
  | AURPPeer id => exists w w', tunnels d !! id = Some w /\ d' = MkDW (stations d) (<[id := w']> (tunnels d)) /\
      match tunnel_out (PS.timing (PS.pr w)) (PS.ident (PS.pr w)) p with
      | Ok (Some out) => PS.sent w' = PS.sent w ++ keep_alive w ++ [NewAppleTalkPacket (PS.tr (PS.pr w)) (wire out)]
      | _ => w' = w
      end
  end.

Definition has_target (d : DW) (t : RouteTarget) : Prop :=
  match t with
  | EtherTalkPort dev | EtherTalkPeer dev _ _ => is_Some (stations d !! dev)
  | AURPPeer id => is_Some (tunnels d !! id)
  end.

Record ready (d : DW) : Prop := {
  rd_stations dev s : stations d !! dev = Some s -> station_ready s;
  rd_tunnels id w : tunnels d !! id = Some w -> tunnel_ready w;
  rd_broadcast : Aarp.hw_ok AppleTalkBroadcast }.

Lemma perform_returns d t p : ready d -> has_target d t -> ext_typed p -> sized p ->
  exists d' e, perform (TargetForward t p) d = Some (d', e) /\ arrived d d' t p.
Proof.
  intros [Hst Htn Hbc] Ht Hp Hs. destruct t as [dev|id|dev net node]; cbn [perform has_target] in *.
  - destruct Ht as [s Es]. destruct (port_runs s dev p (Hst dev s Es) Hp Hs Hbc) as (e' & E & Ha).
    unfold on_port. rewrite Es. cbn [mbind option_bind]. rewrite E. eexists _, _. split; [done|]. by exists s, e'.
  - destruct Ht as [w Ew]. destruct (Htn id w Ew) as (H1 & H2 & H3). pose proof (tunnel_forward w p H1 H2 Hp H3) as Hf.
    unfold on_tunnel. rewrite Ew. cbn [mbind option_bind]. cbn [arrived].
    destruct (tunnel_out _ _ p) as [[out|]|err|] eqn:Eo; [|rewrite Hf..|done].
    + destruct Hf as (_ & _ & _ & w' & -> & Hsent & _). eexists _, _. split; [done|]. exists w, w'. by rewrite Eo.
    + eexists _, _. split; [done|]. exists w, w. by rewrite Eo.
    + eexists _, _. split; [done|]. exists w, w. by rewrite Eo.
  - destruct Ht as [s Es]. destruct (hop_runs s (EtherTalkPeer dev net node) p (MkAddr net node) (Hst dev s Es) Hp Hs) as (e' & E & Ha); [done..|].
    unfold on_port. rewrite Es. cbn [mbind option_bind]. rewrite E. eexists _, _. split; [done|]. by exists s, e'.
Qed.

Lemma same_sized pk out : same_but_hops pk out -> sized pk -> sized out.
Proof.
  intros [H Hl]. unfold sized. rewrite Hl. intros ->. destruct out, pk. cbn in *. by injection H as -> -> -> -> -> -> -> ->.
Qed.

End Spec.

(** ** Witness *)

#[local] Existing Instances ascii_strings insertion_sort wire_multitalk.

#[export] Instance wire_delivery : DeliveryLaws (MT := wire_multitalk) (ET := wire_ethertalk).
Proof.
  split.
  - intros p Hp _. destruct p as [sz ck dn sn dd sd ds ss pr data].
    destruct Hp as (H1 & H2 & H3 & H4 & H5 & H6 & H7 & H8 & H9 & H10).
    cbn [ExtUnmarshal wire_multitalk]. unfold wire_unmarshal.
    pose proof (wire_size (MkExt sz ck dn sn dd sd ds ss pr data)) as El. pose proof (zlen_nonneg data). cbn [Data] in El.
    rewrite El. zdec. unfold wire, covered, put16. cbn [Size Cksum DstNet SrcNet DstNode SrcNode DstSocket SrcSocket Proto Data app] in *.
    parse_fields. done.
  - intros hw p raw Hhw. cbn. intros [= <-]. by eexists.
  - intros hw p f dst [Hh _]. cbn. intros [= <-] [Hd _]. unfold wire_EthMarshal. cbn. rewrite !bool_decide_true by done. by eexists.
Defined.

(** The next router on the cable of [en0] answered two seconds ago. *)
Definition wit_ether : Aarp.EW :=
  Aarp.with_clock 2000000000
    (Aarp.with_amt {[MkAddr 1 7 := {| Aarp.e_HWAddr := [2; 0; 0; 0; 0; 7]; Aarp.LastUpdated := Some 0; Aarp.updated := 0 |}]}
      (started wit_hw 1 2 0 [])).
Definition wit_delivery : DW :=
  MkDW {[str "en0" := MkStation wit_hw wit_ether]} {[str "b" := PeerSpec.wit_world]}.

Lemma wit_delivery_ready : ready (MT := wire_multitalk) wit_delivery.
Proof.
  assert (Hb : forall h : Aarp.HWAddr, hw_okb h = true -> Aarp.hw_ok h) by (intros h; apply hw_okb_spec).
  split.
  - intros dev s Hs. change (({[str "en0" := MkStation wit_hw wit_ether]} : gmap (list Z) Station) !! dev = Some s) in Hs.
    apply lookup_singleton_Some in Hs as [_ <-]. split; [by apply Hb|]. split; [done|].
    intros a ent Ha. change (({[MkAddr 1 7 := {| Aarp.e_HWAddr := [2; 0; 0; 0; 0; 7]; Aarp.LastUpdated := Some 0; Aarp.updated := 0 |}]}
      : gmap Addr Aarp.AMTEntry) !! a = Some ent) in Ha.
    apply lookup_singleton_Some in Ha as [_ <-]. by apply Hb.
  - intros id w Hw. change (({[str "b" := PeerSpec.wit_world]} : gmap (list Z) PS.World) !! id = Some w) in Hw.
    apply lookup_singleton_Some in Hw as [_ <-]. split; [exact wit_tr_ok|]. split; [done|]. const_widths.
  - by apply Hb.
Qed.

Lemma wit_targets r t : stored (table wit_router) r -> Target r = Some t -> has_target wit_delivery t.
Proof.
  intros [c Hr] Ht. assert (H : map_Forall (fun _ r => Target r = Some (AURPPeer (str "b")) \/ Target r = Some (EtherTalkPeer (str "en0") 1 7))
    (byClass wit_rt)) by (apply (bool_decide_unpack _); vm_compute; exact I).
  destruct (H _ _ Hr) as [E|E]; rewrite Ht in E; injection E as ->; apply (bool_decide_unpack _); vm_compute; exact I.
Qed.

