(* ===== verification/StatusItems.v ===== *)
(** * The registry of status items and the pages made of it ([status/status.go])

    Items form two trees, one per page; a context names the item under which
    others are added.  Items are shared and change: they live in a store.  The
    package [html/template] is the interface [Html]; what is left out of a page is
    its head (version, host, clock) and the markup around the items. *)
From S2P Require Import Prelude Wtacc PeerPolicy GoSort.

(** Values ([any]) and parsed templates; [errorData op err item] is that struct
    as a value.  [Execute] gives the text written and the error. *)
Class Html := {
  any : Type; template : Type; request : Type;
  nil_any : any;
  errorData : list Z -> goerr -> any -> any;
  Parse : list Z -> list Z -> goerr + template;
  Execute : template -> any -> list Z * option goerr;
  errorTmpl : template }.

Module Status.

(** ** Text *)

Definition HasPrefix (s prefix : list Z) : bool := bool_decide (prefix `prefix_of` s).

(** [template.HTMLEscapeString]. *)
Definition escape_byte (c : Z) : list Z :=
  if c =? 0 then [0xEF; 0xBF; 0xBD]
  else if c =? 34 then str "&#34;"
  else if c =? 39 then str "&#39;"
  else if c =? 38 then str "&amp;"
  else if c =? 60 then str "&lt;"
  else if c =? 62 then str "&gt;"
  else [c].
Definition HTMLEscapeString (s : list Z) : list Z := concat (map escape_byte s).

(** [strings.ReplaceAll] for an [old] that is not empty; [skip] bytes of an
    occurrence are still to be passed over. *)
Fixpoint replace_from (old new : list Z) (skip : nat) (s : list Z) : list Z :=
  match s with
  | [] => []
  | c :: rest =>
      match skip with
      | S skip => replace_from old new skip rest
      | O =>
          if HasPrefix s old then new ++ replace_from old new (length old - 1) rest
          else c :: replace_from old new 0 rest
      end
  end.
Definition ReplaceAll (s old new : list Z) : list Z := replace_from old new 0 s.

Definition cleanHTMLFragment `{GStr : GoStrings} (s : list Z) : list Z :=
  let s := ReplaceAll s (str "&#x9;") (str " ") in
  let s := ReplaceAll s [9] (str " ") in
  TrimSpace s.

(** ** Items *)

Section Items.
Context {GStr : GoStrings} {GS : GoSort} {MO : MapOrder} {HT : Html}.

(** [None] is a nil context. *)
Definition ItemCallback : Type := option request -> any * option goerr.

Inductive itemKind :=
  | simpleItem (stat : list Z)
  | templatedItem (tmpl : template) (cb : ItemCallback).

Record item := MkItem { items : gmap (list Z) positive; kind : itemKind }.

Record Registry := MkRegistry { store : gmap positive item; next : positive }.

Definition rootItem : positive := 1.
Definition peeringRootItem : positive := 2.

(** The two roots are there from the start. *)
Definition initial_registry : Registry :=
  {| store := {[rootItem := MkItem ∅ (simpleItem []); peeringRootItem := MkItem ∅ (simpleItem [])]};
     next := 3 |}.

(** What a context holds under [itemCtxKey]. *)
Definition Context_ : Type := option positive.

Definition parentItem (ctx : Context_) : positive :=
  match ctx with None => rootItem | Some v => v end.
Definition PeeringContext (ctx : Context_) : Context_ := Some peeringRootItem.

Definition with_items (f : gmap (list Z) positive -> gmap (list Z) positive) (i : item) : item :=
  MkItem (f (items i)) (kind i).

Definition addSubItem (i : positive) (title : list Z) (sub : positive) (r : Registry) : Registry :=
  MkRegistry (alter (with_items (insert title sub)) i (store r)) (next r).
Definition delSubItem (i : positive) (title : list Z) (r : Registry) : Registry :=
  MkRegistry (alter (with_items (delete title)) i (store r)) (next r).

Definition new_item (k : itemKind) (r : Registry) : Registry :=
  MkRegistry (<[next r := MkItem ∅ k]> (store r)) (Pos.succ (next r)).

(** The method value [item.setStatus]. *)
Definition setStatus (i : positive) (s : list Z) (r : Registry) : Registry :=
  MkRegistry (alter (fun it => match kind it with
    | simpleItem _ => MkItem (items it) (simpleItem s)
    | templatedItem _ _ => it
    end) i (store r)) (next r).

Definition wrapInItemError (op : list Z) (err : goerr) (cb : ItemCallback) : ItemCallback := fun ctx =>
  let '(data, err2) := cb ctx in
  match err2 with
  | Some _ => (data, err2)
  | None => (errorData op err data, None)
  end.

(** The registry, the new context and what [done] deletes.  [None] is a nil
    callback. *)
Definition AddItem (parent : Context_) (title tmpl : list Z) (cb : option ItemCallback) (r : Registry) :
    Registry * (Context_ * (positive * list Z)) :=
  let cb := match cb with None => fun _ => (nil_any, None) | Some cb => cb end in
  let k :=
    match Parse title tmpl with
    | inl err => templatedItem errorTmpl (wrapInItemError (str "Could not parse item template") err cb)
    | inr tmpl => templatedItem tmpl cb
    end in
  let it := next r in
  let pitem := parentItem parent in
  (addSubItem pitem title it (new_item k r), (Some it, (pitem, title))).

(** With the item whose [setStatus] is returned. *)
Definition AddSimpleItem (parent : Context_) (title : list Z) (r : Registry) :
    Registry * (Context_ * positive * (positive * list Z)) :=
  let it := next r in
  let pitem := parentItem parent in
  (addSubItem pitem title it (new_item (simpleItem (str "Unknown status")) r), (Some it, it, (pitem, title))).

(** The closure that [AddItem] and [AddSimpleItem] return. *)
Definition done (d : positive * list Z) (r : Registry) : Registry := delSubItem (fst d) (snd d) r.

Definition DelItem (parent : Context_) (title : list Z) (r : Registry) : Registry :=
  delSubItem (parentItem parent) title r.

Definition Eval_ (ctx : option request) (i : item) : list Z :=
  match kind i with
  | simpleItem stat => HTMLEscapeString stat
  | templatedItem tmpl cb =>
      let '(data, err) := cb ctx in
      match err with
      | Some err =>
          let '(sb, _) := Execute errorTmpl (errorData (str "Error from item callback") err data) in
          cleanHTMLFragment sb
      | None =>
          let '(sb, err) := Execute tmpl data in
          match err with
          | Some err =>
              let '(sb', _) := Execute errorTmpl (errorData (str "Error while executing item template") err data) in
              cleanHTMLFragment (sb ++ sb')
          | None => cleanHTMLFragment sb
          end
      end
  end.

(** ** The order of the sections *)

Definition pagePriority (pageName title : list Z) : Z :=
  if bool_decide (pageName = str "Peering") then
    if bool_decide (title = str "AURP Peers") then 10
    else if HasPrefix title (str "Inbound on ") then 20
    else if HasPrefix title (str "Outbound on ") then 30
    else if HasPrefix title (str "RTMP on ") then 40
    else if bool_decide (title = str "Periodically Attempt Connections") then 50
    else 90
  else if HasPrefix title (str "EtherTalk on ") then 10
  else if HasPrefix title (str "AARP on ") then 20
  else if bool_decide (title = str "Routing table") then 30
  else 90.

Definition title_order (pageName a b : list Z) : comparison :=
  let pa := pagePriority pageName a in
  let pb := pagePriority pageName b in
  if negb (pa =? pb) then Z.compare pa pb else bytes_compare a b.

Definition orderedTitles (items : gmap (list Z) positive) (pageName : list Z) : list (list Z) :=
  sort_func (title_order pageName) (set_range (dom items)).

(** ** A page *)

(** What the template writes for an item: the opening of its section with the
    title, the data, the end of the section after those of the items below. *)
Inductive Token := Open (title : list Z) | ItemData (html : list Z) | Close | PageError.

(** The text so far, and whether the execution has failed. *)
Definition Out : Type := list Token * bool.
Definition write (ts : list Token) : Out := (ts, false).
Definition andThen (a : Out) (b : Out) : Out :=
  let '(ts, failed) := a in
  if failed then (ts, true) else let '(us, failed) := b in (ts ++ us, failed).

(** [range $title, $item := .] visits a map in the order of its keys. *)
Definition sorted_range (m : gmap (list Z) positive) : list (list Z * positive) :=
  sort_func (fun a b => bytes_compare (fst a) (fst b)) (map_to_list m).

(** The template "render_items".  Its [$] is the map of the items, so that [$.Ctx]
    is no request context: it is nil, or the item with that title, which [Eval]
    does not take.  [fuel] bounds the depth. *)
Fixpoint render_items (fuel : nat) (r : Registry) (m : gmap (list Z) positive) : option Out :=
  match fuel with
  | O => None
  | S fuel =>
      foldr (fun '(title, i) rest =>
        match m !! str "Ctx" with
        | Some _ => Some ([Open title], true)
        | None =>
            it ← store r !! i;
            sub ← render_items fuel r (items it);
            rest ← rest;
            Some (andThen (write [Open title; ItemData (Eval_ None it)]) (andThen sub (andThen (write [Close]) rest)))
        end) (Some (write [])) (sorted_range m)
  end.

(** The loop of the page itself. *)
Definition render_page (fuel : nat) (r : Registry) (ctx : option request) (m : gmap (list Z) positive)
    (pageName : list Z) : option Out :=
  foldr (fun title rest =>
    i ← m !! title;
    it ← store r !! i;
    sub ← render_items fuel r (items it);
    rest ← rest;
    Some (andThen (write [Open title; ItemData (Eval_ ctx it)]) (andThen sub (andThen (write [Close]) rest))))
    (Some (write [])) (orderedTitles m pageName).

(** The page while no item changes; items are no deeper than the registry is
    large. *)
Definition handlePage (ctx : option request) (root : positive) (pageName : list Z) (r : Registry) : option (list Token) :=
  rt ← store r !! root;
  '(ts, failed) ← render_page (Pos.to_nat (next r)) r ctx (items rt) pageName;
  Some (if failed : bool then ts ++ [PageError] else ts).

Definition Status_Handle (ctx : option request) : Registry -> option (list Token) := handlePage ctx rootItem (str "Status").
Definition HandlePeering (ctx : option request) : Registry -> option (list Token) :=
  handlePage ctx peeringRootItem (str "Peering").

End Items.
End Status.
