(* ===== verification/StatusItemsSpec.v ===== *)
(** * The registry of status items: properties of module Status

    A registry reached by the operations is two trees; a page of one of them is
    complete, in order and finite. *)
From stdpp Require Import sorting.
From S2P Require Import Prelude Wtacc PeerPolicy GoSort StatusItems.
Import Status.

(** ** Orders on titles and on paths *)

Lemma cmp_refl {A} (cmp : A -> A -> comparison) a : StrictWeak cmp -> cmp a a = Eq.
Proof. intros H. pose proof (sw_antisym H a a) as E. by destruct (cmp a a). Qed.

Lemma sw_titles page : StrictWeak (title_order page).
Proof.
  assert (E : forall a b, title_order page a b =
    cmp_or (Z.compare (pagePriority page a) (pagePriority page b)) (bytes_compare a b)).
  { intros a b. unfold title_order. destruct (Z.eqb_spec (pagePriority page a) (pagePriority page b)) as [->|Hn]; cbn.
    - by rewrite Z.compare_refl.
    - destruct (Z.compare_spec (pagePriority page a) (pagePriority page b)); done. }
  assert (H : StrictWeak (fun a b => cmp_or (Z.compare (pagePriority page a) (pagePriority page b)) (bytes_compare a b)))
    by (apply sw_or; [apply (sw_proj (pagePriority page)), sw_Z|apply sw_bytes]).
  destruct H as [H1 H2]. split; intros *; rewrite !E; [apply H1|apply H2].
Qed.

Lemma title_order_eq page a b : title_order page a b = Eq -> a = b.
Proof.
  unfold title_order. destruct (Z.eqb_spec (pagePriority page a) (pagePriority page b)) as [E|Hn]; cbn.
  - apply bytes_compare_eq.
  - by intros H%Z.compare_eq.
Qed.

Abbreviation path := (list (list Z)).

(** Paths in the order of a page: a section before those inside it, sections side
    by side in the order of their titles. *)
Fixpoint below (a b : path) : comparison :=
  match a, b with
  | [], [] => Eq
  | [], _ => Lt
  | _, [] => Gt
  | x :: a, y :: b => cmp_or (bytes_compare x y) (below a b)
  end.
Definition path_order (cmp : list Z -> list Z -> comparison) (a b : path) : comparison :=
  match a, b with
  | [], [] => Eq
  | [], _ => Lt
  | _, [] => Gt
  | x :: a, y :: b => cmp_or (cmp x y) (below a b)
  end.

Lemma below_order a b : path_order bytes_compare a b = below a b.
Proof. by destruct a, b. Qed.

(** ** Reading a page *)

(** The sections of a text, each with the titles it is under and its data. *)
Abbreviation section := (path * list Z)%type.

Fixpoint walk (stack : path) (ts : list Token) : list section :=
  match ts with
  | [] => []
  | Open title :: ts => walk (title :: stack) ts
  | ItemData html :: ts => (rev stack, html) :: walk stack ts
  | Close :: ts => walk (tail stack) ts
  | PageError :: ts => walk stack ts
  end.
Definition sections : list Token -> list section := walk [].

Definition under (p : path) (l : list section) : list section := map (fun s => (p ++ s.1, s.2)) l.

Lemma under_under p q l : under p (under q l) = under (p ++ q) l.
Proof. unfold under. rewrite map_map. apply map_ext. intros s. cbn. by rewrite app_assoc. Qed.

Lemma under_app p l k : under p (l ++ k) = under p l ++ under p k.
Proof. apply map_app. Qed.

Lemma elem_of_under p l q h : (q, h) ∈ under p l <-> exists q', q = p ++ q' /\ (q', h) ∈ l.
Proof.
  unfold under. rewrite list_elem_of_fmap. split.
  - intros ([q' h'] & [= -> ->] & H). by exists q'.
  - intros (q' & -> & H). by exists (q', h).
Qed.

Section Spec.
Context {GStr : GoStrings} {GS : GoSort} {HT : Html}.

(** ** The registry *)

Definition children (r : Registry) (i : positive) : gmap (list Z) positive :=
  match store r !! i with Some it => items it | None => ∅ end.

Record registry_ok (r : Registry) : Prop := {
  rk_roots : is_Some (store r !! rootItem) /\ is_Some (store r !! peeringRootItem);
  rk_next i : is_Some (store r !! i) -> (i < next r)%positive;
  rk_child i t j : children r i !! t = Some j -> (i < j)%positive /\ (2 < j)%positive /\ is_Some (store r !! j);
  rk_parent i t i' t' j : children r i !! t = Some j -> children r i' !! t' = Some j -> i = i' /\ t = t' }.

Inductive step (r : Registry) : Registry -> Prop :=
  | st_add parent title tmpl cb : is_Some (store r !! parentItem parent) -> step r (fst (AddItem parent title tmpl cb r))
  | st_simple parent title : is_Some (store r !! parentItem parent) -> step r (fst (AddSimpleItem parent title r))
  | st_status i s : step r (setStatus i s r)
  | st_done d : step r (done d r)
  | st_del parent title : step r (DelItem parent title r).

Definition reachable : Registry -> Prop := rtc step initial_registry.

Lemma children_alter f i r j : children (MkRegistry (alter (with_items f) i (store r)) (next r)) j =
  if bool_decide (i = j /\ is_Some (store r !! i)) then f (children r j) else children r j.
Proof.
  unfold children. cbn. destruct (decide (i = j)) as [->|Hn].
  - rewrite lookup_alter_eq. destruct (store r !! j) as [it|] eqn:E; cbn.
    + by rewrite bool_decide_true by eauto.
    + rewrite bool_decide_false; [done|]. by intros [_ [? ?]].
  - rewrite lookup_alter_ne by done. rewrite bool_decide_false; [done|]. by intros [? _].
Qed.

Lemma store_alter f i r j : is_Some (store (MkRegistry (alter f i (store r)) (next r)) !! j) <-> is_Some (store r !! j).
Proof. cbn. apply lookup_alter_is_Some. Qed.

Lemma initial_registry_ok : registry_ok initial_registry.
Proof.
  assert (Hc : forall i, children initial_registry i = ∅).
  { intros i. unfold children, initial_registry. cbn [store]. destruct (decide (i = rootItem)) as [->|H1]; [done|].
    destruct (decide (i = peeringRootItem)) as [->|H2]; [done|]. rewrite lookup_insert_ne by done. by rewrite lookup_singleton_ne. }
  split.
  - split; by eexists.
  - intros i [it H]. cbn [store initial_registry] in H. apply lookup_insert_Some in H as [[<- _]|[_ [<- _]%lookup_singleton_Some]]; done.
  - intros i t j. by rewrite Hc.
  - intros i t i' t' j. by rewrite Hc.
Qed.

(** A new item is put under one that exists. *)
Lemma add_ok r i t k : registry_ok r -> is_Some (store r !! i) ->
  registry_ok (addSubItem i t (next r) (new_item k r)).
Proof.
  intros Hr Hi. set (n := next r). pose proof (rk_next r Hr) as Hn.
  assert (Hfresh : store r !! n = None).
  { destruct (store r !! n) as [it|] eqn:E; [|done]. pose proof (Hn n (ex_intro _ it E)). lia. }
  assert (Hst : forall j, is_Some (store (addSubItem i t n (new_item k r)) !! j) <-> is_Some (store r !! j) \/ j = n).
  { intros j. unfold addSubItem. rewrite (store_alter _ i (new_item k r)). unfold new_item. cbn. rewrite lookup_insert_is_Some'. naive_solver. }
  assert (Hch : forall j, children (addSubItem i t n (new_item k r)) j = if bool_decide (i = j) then <[t := n]> (children r j) else children r j).
  { intros j. unfold addSubItem. rewrite (children_alter _ i (new_item k r)). assert (Hin : i <> n) by (intros ->; destruct Hi as [? E]; by rewrite Hfresh in E).
    assert (Ec : children (new_item k r) j = if bool_decide (j = n) then ∅ else children r j).
    { unfold children, new_item. cbn. fold n. case_bool_decide as E; [by rewrite E, lookup_insert_eq|by rewrite lookup_insert_ne]. }
    rewrite Ec. assert (Hsi : is_Some (store (new_item k r) !! i)) by (cbn; apply lookup_insert_is_Some'; by right).
    destruct (decide (i = j)) as [E1|E1].
    - rewrite (bool_decide_false (j = n)) by congruence. rewrite bool_decide_true by done. by rewrite bool_decide_true.
    - rewrite (bool_decide_false (i = j)) by done. rewrite bool_decide_false by (by intros [? _]).
      case_bool_decide as E2; [|done]. unfold children. by rewrite E2, Hfresh. }
  assert (Hnot : forall j t', children r j !! t' <> Some n).
  { intros j t' E. apply (rk_child r Hr) in E as (_ & _ & [it E]). by rewrite Hfresh in E. }
  assert (Hroot : (2 < n)%positive).
  { destruct (rk_roots r Hr) as [_ H]. by apply Hn in H. }
  split.
  - destruct (rk_roots r Hr). rewrite !Hst. tauto.
  - intros j Hj. apply Hst in Hj as [Hj| ->]; cbn; [|lia]. pose proof (Hn j Hj). lia.
  - intros j t' c. rewrite Hch, Hst. case_bool_decide as E; [|intros H; apply (rk_child r Hr) in H as (? & ? & ?); by eauto].
    subst j. intros [[_ <-]|[_ H]]%lookup_insert_Some; [pose proof (Hn i Hi); by eauto|].
    apply (rk_child r Hr) in H as (? & ? & ?). by eauto.
  - assert (Hat : forall a ta c, children (addSubItem i t n (new_item k r)) a !! ta = Some c ->
        a = i /\ ta = t /\ c = n \/ children r a !! ta = Some c).
    { intros a ta c. rewrite Hch. case_bool_decide; [|by right]. subst a. rewrite lookup_insert_Some. naive_solver. }
    intros a ta b tb c [(-> & -> & ->)|Ha]%Hat [(-> & -> & Hb)|Hb]%Hat; [done|by apply Hnot in Hb| |by apply (rk_parent r Hr a ta b tb c)].
    subst c. by apply Hnot in Ha.
Qed.

Lemma delete_ok r i t : registry_ok r -> registry_ok (delSubItem i t r).
Proof.
  intros Hr. assert (Hsub : forall j t' c, children (delSubItem i t r) j !! t' = Some c -> children r j !! t' = Some c).
  { intros j t' c. unfold delSubItem. rewrite children_alter. case_bool_decide; [|done]. by intros [_ ?]%lookup_delete_Some. }
  pose proof (fun j => store_alter (with_items (delete t)) i r j) as Hst. split.
  - unfold delSubItem. rewrite !Hst. apply Hr.
  - intros j Hj%Hst. by apply (rk_next r Hr).
  - intros j t' c H%Hsub. apply (rk_child r Hr) in H as (? & ? & ?). split_and!; [done..|]. by apply Hst.
  - intros a ta b tb c Ha%Hsub Hb%Hsub. by apply (rk_parent r Hr a ta b tb c).
Qed.

Lemma status_ok r i s : registry_ok r -> registry_ok (setStatus i s r).
Proof.
  intros Hr. assert (Hc : forall j, children (setStatus i s r) j = children r j).
  { intros j. unfold children, setStatus. cbn. destruct (decide (i = j)) as [->|Hn]; [|by rewrite lookup_alter_ne].
    rewrite lookup_alter_eq. destruct (store r !! j) as [[m []]|]; done. }
  assert (Hst : forall j, is_Some (store (setStatus i s r) !! j) <-> is_Some (store r !! j)) by (intros j; apply store_alter).
  split; [|intros j| |]; intros *; rewrite ?Hc, ?Hst; apply Hr.
Qed.

Lemma registry_reachable_ok r : reachable r -> registry_ok r.
Proof.
  apply rtc_ind_r; [apply initial_registry_ok|]. intros r1 r2 _ [] Hr.
  - by apply add_ok.
  - by apply add_ok.
  - by apply status_ok.
  - by apply delete_ok.
  - by apply delete_ok.
Qed.
(** ** The sections of a page *)

(** The item at a path of titles. *)
Fixpoint at_path (r : Registry) (i : positive) (p : path) : option positive :=
  match p with
  | [] => Some i
  | t :: p => j ← children r i !! t; at_path r j p
  end.

(** The data of the item at a path under one of the given items. *)
Definition shown (r : Registry) (ctx : path -> option request) (m : gmap (list Z) positive) (p : path) (h : list Z) : Prop :=
  exists t p' j i it, p = t :: p' /\ m !! t = Some j /\ at_path r j p' = Some i /\
    store r !! i = Some it /\ h = Eval_ (ctx p') it.

(** What the part [ts] of a page says: its sections, in order. *)
Definition says (cmp : list Z -> list Z -> comparison) (ts : list Token) (l : list section) : Prop :=
  (forall stack rest, walk stack (ts ++ rest) = under (rev stack) l ++ walk stack rest) /\
  StronglySorted (fun a b => path_order cmp a.1 b.1 = Lt) l /\ Forall (fun s => s.1 <> []) l.

(** One section, with what [render_items] gives for the items below it. *)
Definition section_out (r : Registry) (ctx : option request) (sub : item -> option Out) (x : list Z * positive)
    (rest : option Out) : option Out :=
  it ← store r !! snd x;
  sub ← sub it;
  rest ← rest;
  Some (andThen (write [Open (fst x); ItemData (Eval_ ctx it)]) (andThen sub (andThen (write [Close]) rest))).

Lemma section_says cmp t h ts l us k : StrictWeak cmp -> says bytes_compare ts l -> says cmp us k ->
  Forall (fun s => exists t' p, s.1 = t' :: p /\ cmp t t' = Lt) k ->
  says cmp (Open t :: ItemData h :: ts ++ Close :: us) ((([t], h) :: under [t] l) ++ k).
Proof.
  intros Hsw (Hw & Hs & Hne) (Hw' & Hs' & Hne') Hlt. pose proof (cmp_refl cmp t Hsw) as Heq. split_and!.
  - intros stack rest. cbn [walk app]. rewrite <- app_assoc, Hw. cbn [walk app tail]. rewrite Hw'.
    change (under (rev stack) (([t], h) :: under [t] l ++ k)) with ((rev stack ++ [t], h) :: under (rev stack) (under [t] l ++ k)).
    rewrite under_app, under_under. cbn [rev app]. by rewrite <- app_assoc.
  - apply StronglySorted_app_2; [|constructor|done].
    + intros [p1 h1] [p2 h2] H1 H2. rewrite Forall_forall in Hlt. destruct (Hlt _ H2) as (t' & p & E & Ht). cbn in *. subst p2.
      apply elem_of_cons in H1 as [[= -> ->]|H1]; [cbn; by rewrite Ht|].
      apply elem_of_under in H1 as (q & -> & _). cbn. by rewrite Ht.
    + clear -Hs Heq. induction Hs as [|[q hq] l Hs IH Hf]; [constructor|].
      change (under [t] ((q, hq) :: l)) with ((t :: q, hq) :: under [t] l). constructor; [done|].
      rewrite Forall_forall in *. intros [q' hq'] H. apply elem_of_under in H as (q'' & -> & Hq). cbn. rewrite Heq. cbn.
      rewrite <- below_order. apply (Hf _ Hq).
    + apply Forall_forall. intros [q hq] H. apply elem_of_under in H as (q' & -> & Hq). cbn. rewrite Heq. cbn.
      rewrite Forall_forall in Hne. pose proof (Hne _ Hq) as Hq'. cbn in Hq'. by destruct q'.
  - apply Forall_app. split; [|done]. constructor; [done|]. apply Forall_forall. intros [q hq] H.
    apply elem_of_under in H as (q' & -> & _). done.
Qed.

(** The sections of a loop over items. *)
Lemma sections_fold r cmp ctx sub (xs : list (list Z * positive)) : StrictWeak cmp ->
  StronglySorted (fun a b => cmp a.1 b.1 = Lt) xs ->
  Forall (fun x => exists it ts l, store r !! x.2 = Some it /\ sub it = Some (ts, false) /\ says bytes_compare ts l /\
    forall p h, (p, h) ∈ l <-> shown r (fun _ => None) (items it) p h) xs ->
  exists ts l, foldr (section_out r ctx sub) (Some (write [])) xs = Some (ts, false) /\ says cmp ts l /\
    forall p h, (p, h) ∈ l <-> exists t p' j i it, p = t :: p' /\ (t, j) ∈ xs /\ at_path r j p' = Some i /\
      store r !! i = Some it /\ h = Eval_ (if bool_decide (p' = []) then ctx else None) it.
Proof.
  intros Hsw Hs Hx. induction xs as [|[t j] xs IH].
  - exists [], []. split; [done|]. split; [split_and!; try constructor; done|]. intros p h. split; [by intros ?%elem_of_nil|].
    by intros (? & ? & ? & ? & ? & _ & ?%elem_of_nil & _).
  - apply StronglySorted_inv in Hs as [Hs Hlt]. apply Forall_cons in Hx as [(it & ts & l & Ei & Es & Hl & Hm) Hx].
    destruct (IH Hs Hx) as (us & k & Ek & Hk & Hmk). cbn in Ei.
    eexists _, _. split_and!.
    + cbn [foldr]. rewrite Ek. unfold section_out at 1. cbn [fst Datatypes.snd]. rewrite Ei. cbn [mbind option_bind]. rewrite Es.
      cbn [mbind option_bind andThen write app]. reflexivity.
    + apply section_says; [done|exact Hl|exact Hk|]. apply Forall_forall. intros [p h] H.
      apply Hmk in H as (t' & p' & j' & i & it' & -> & Hin & _). exists t', p'. split; [done|].
      rewrite Forall_forall in Hlt. apply (Hlt _ Hin).
    + intros p h. rewrite elem_of_app, elem_of_cons, Hmk. split.
      * intros [[[= -> ->]|(p' & -> & H)%elem_of_under]|(t' & p' & j' & i & it' & -> & Hin & Hrest)].
        -- exists t, [], j, j, it. split_and!; try done. apply list_elem_of_here.
        -- apply Hm in H as (t' & p'' & j' & i & it' & -> & Hj & Hi & Hit & ->).
           exists t, (t' :: p''), j, i, it'. split_and!; try done; [apply list_elem_of_here|].
           cbn. unfold children. rewrite Ei. by rewrite Hj.
        -- exists t', p', j', i, it'. split_and!; try apply Hrest; [done|]. by apply list_elem_of_further.
      * intros (t' & p' & j' & i & it' & -> & Hin & Hi & Hit & ->).
        apply elem_of_cons in Hin as [[= -> ->]|Hin]; [left|right; by exists t', p', j', i, it'].
        destruct p' as [|t2 p2].
        -- left. cbn in Hi. injection Hi as <-. rewrite Ei in Hit. injection Hit as <-. done.
        -- right. apply elem_of_under. exists (t2 :: p2). split; [done|]. apply Hm. cbn in Hi. unfold children in Hi. rewrite Ei in Hi.
           destruct (items it !! t2) as [j2|] eqn:E2; [|done]. by exists t2, p2, j2, i, it'.
Qed.

Lemma foldr_members {A B} (f g : A -> B -> B) b xs : (forall x c, x ∈ xs -> f x c = g x c) -> foldr f b xs = foldr g b xs.
Proof.
  induction xs as [|x xs IH]; intros H; [done|]. cbn. rewrite IH; [apply H, list_elem_of_here|].
  intros y c Hy. apply H. by apply list_elem_of_further.
Qed.

Lemma sorted_strict {A} (cmp : A -> A -> comparison) l : NoDup l ->
  (forall x y, x ∈ l -> y ∈ l -> cmp x y = Eq -> x = y) ->
  StronglySorted (cmp_le cmp) l -> StronglySorted (fun a b => cmp a b = Lt) l.
Proof.
  intros Hd He Hs. induction Hs as [|x l Hs IH Hf]; [constructor|]. apply NoDup_cons in Hd as [Hx Hd]. constructor.
  - apply IH; [done|]. intros a b Ha Hb. by apply He; apply list_elem_of_further.
  - rewrite Forall_forall in *. intros y Hy. pose proof (Hf y Hy) as Hle. unfold cmp_le in Hle.
    destruct (cmp x y) eqn:E; [|done..]. apply He in E; [by subst y|apply list_elem_of_here|by apply list_elem_of_further].
Qed.

Lemma sort_strict {A} (cmp : A -> A -> comparison) l : StrictWeak cmp -> NoDup l ->
  (forall x y, x ∈ l -> y ∈ l -> cmp x y = Eq -> x = y) -> StronglySorted (fun a b => cmp a b = Lt) (sort_func cmp l).
Proof.
  intros Hsw Hd He. apply sorted_strict.
  - by rewrite sort_func_perm.
  - intros x y. rewrite !elem_of_sort_func by done. apply He.
  - apply sorted_strongly; [done|]. by apply sort_func_sorted.
Qed.

Lemma sorted_range_spec m : (forall t j, (t, j) ∈ sorted_range m <-> m !! t = Some j) /\
  StronglySorted (fun a b => bytes_compare a.1 b.1 = Lt) (sorted_range m).
Proof.
  assert (Hsw : StrictWeak (fun a b : list Z * positive => bytes_compare a.1 b.1)) by (apply (sw_proj fst), sw_bytes).
  split.
  - intros t j. unfold sorted_range. rewrite elem_of_sort_func by done. apply elem_of_map_to_list.
  - apply sort_strict; [done|apply NoDup_map_to_list|]. intros [t j] [t' j']. rewrite !elem_of_map_to_list. cbn.
    intros H H' ->%bytes_compare_eq. rewrite H in H'. by injection H' as ->.
Qed.

(** No item but a root has an item titled "Ctx" below it. *)
Definition no_ctx (r : Registry) : Prop := forall i it, (2 < i)%positive -> store r !! i = Some it -> items it !! str "Ctx" = None.

Lemma items_children r i it : store r !! i = Some it -> items it = children r i.
Proof. unfold children. by intros ->. Qed.

Lemma items_say r fuel m : registry_ok r -> no_ctx r -> m !! str "Ctx" = None -> (0 < fuel)%nat ->
  (forall t j, m !! t = Some j -> is_Some (store r !! j) /\ (2 < j)%positive /\ (Pos.to_nat (next r) < fuel + Pos.to_nat j)%nat) ->
  exists ts l, render_items fuel r m = Some (ts, false) /\ says bytes_compare ts l /\
    forall p h, (p, h) ∈ l <-> shown r (fun _ => None) m p h.
Proof.
  intros Hr Hc. revert m. induction fuel as [|fuel IH]; intros m Hm Hf Hj; [lia|].
  destruct (sorted_range_spec m) as [Hin Hs].
  destruct (sections_fold r bytes_compare None (fun it => render_items fuel r (items it)) (sorted_range m) sw_bytes Hs) as (ts & l & E & Hl & Hmem).
  - apply Forall_forall. intros [t j] Ht%Hin. destruct (Hj t j Ht) as ([it Eit] & H2 & Hn). exists it. cbn [snd].
    assert (Hlt : (Pos.to_nat j < Pos.to_nat (next r))%nat) by (apply Pos2Nat.inj_lt, (rk_next r Hr); by eexists).
    destruct (IH (items it)) as (ts & l & E & Hl & Hmem); [by apply (Hc j)|lia| |by exists ts, l].
    intros t' j' Hc'. rewrite (items_children r j it Eit) in Hc'. apply (rk_child r Hr) in Hc' as (Hjj & H2' & Hst).
    split_and!; [done..|]. apply Pos2Nat.inj_lt in Hjj. lia.
  - exists ts, l. split_and!; [|exact Hl|].
    + cbn [render_items]. rewrite <- E. apply foldr_members. intros [t j] rest _. by rewrite Hm.
    + intros p h. rewrite Hmem. unfold shown. split.
      * intros (t & p' & j & i & it & -> & Ht%Hin & Hrest). exists t, p', j, i, it. by destruct (bool_decide (p' = [])).
      * intros (t & p' & j & i & it & -> & Ht%Hin & Hrest). exists t, p', j, i, it. by destruct (bool_decide (p' = [])).
Qed.

(** ** The sections of a page *)

Lemma at_path_snoc r i p t : at_path r i (p ++ [t]) = (j ← at_path r i p; children r j !! t).
Proof.
  revert i. induction p as [|u p IH]; intros i; cbn [at_path app].
  - cbn [mbind option_bind]. by destruct (children r i !! t).
  - destruct (children r i !! u) as [j|]; [apply IH|done].
Qed.

(** An item is in one place of one of the pages. *)
Lemma one_place r root root' p p' i : registry_ok r -> (root <= 2)%positive -> (root' <= 2)%positive ->
  at_path r root p = Some i -> at_path r root' p' = Some i -> root = root' /\ p = p'.
Proof.
  intros Hr H1 H2. revert i p'. induction p as [|t p IH] using rev_ind; intros i p'.
  - intros [= <-]. destruct p' as [|t' p' _] using rev_ind; [by intros [= <-]|]. rewrite at_path_snoc.
    destruct (at_path r root' p') as [j|]; cbn; [|done]. intros H. apply (rk_child r Hr) in H as (_ & ? & _). lia.
  - rewrite at_path_snoc. destruct (at_path r root p) as [j|] eqn:E; cbn; [|done]. intros Hj.
    destruct p' as [|t' p' _] using rev_ind.
    + intros [= <-]. apply (rk_child r Hr) in Hj as (_ & ? & _). lia.
    + rewrite at_path_snoc. destruct (at_path r root' p') as [j'|] eqn:E'; cbn; [|done]. intros Hj'.
      destruct (rk_parent r Hr _ _ _ _ _ Hj Hj') as [<- <-]. by destruct (IH j p' eq_refl E') as [-> ->].
Qed.

Lemma page_titles (page : list Z) (m : gmap (list Z) positive) (MO : MapOrder) :
  (forall t, t ∈ orderedTitles m page <-> is_Some (m !! t)) /\
  StronglySorted (fun a b => title_order page a b = Lt) (orderedTitles m page).
Proof.
  pose proof (sw_titles page) as Hsw. split.
  - intros t. unfold orderedTitles. by rewrite elem_of_sort_func, set_range_perm, elem_of_elements, elem_of_dom.
  - apply sort_strict; [done|rewrite set_range_perm; apply NoDup_elements|]. intros x y _ _. apply title_order_eq.
Qed.

(** The titles do not depend on the order of the map. *)
Lemma titles_any (MO1 MO2 : MapOrder) m (page : list Z) : orderedTitles (MO := MO1) m page = orderedTitles (MO := MO2) m page.
Proof.
  apply sort_func_unique; [apply sw_titles|by rewrite !set_range_perm|]. intros x y _ _. apply title_order_eq.
Qed.

Lemma page_says {MO : MapOrder} r root ctx page rt : registry_ok r -> no_ctx r -> store r !! root = Some rt ->
  exists ts l, render_page (Pos.to_nat (next r)) r ctx (items rt) page = Some (ts, false) /\ says (title_order page) ts l /\
    forall p h, (p, h) ∈ l <-> shown r (fun p' => if bool_decide (p' = []) then ctx else None) (items rt) p h.
Proof.
  intros Hr Hc Hrt. set (m := items rt). destruct (page_titles page m MO) as [Hin Hs].
  set (xs := map (fun t => (t, default 1%positive (m !! t))) (orderedTitles m page)).
  assert (Hxs : forall t j, (t, j) ∈ xs <-> m !! t = Some j).
  { intros t j. unfold xs. rewrite list_elem_of_fmap. split.
    - intros (t' & [= <- ->] & [c E]%Hin). by rewrite E.
    - intros E. exists t. rewrite E. split; [done|]. apply Hin. by eexists. }
  destruct (sections_fold r (title_order page) ctx (fun it => render_items (Pos.to_nat (next r)) r (items it)) xs (sw_titles page))
    as (ts & l & E & Hl & Hmem).
  - unfold xs. clear -Hs. induction Hs as [|t ts Hs IH Hf]; cbn; constructor; [done|].
    apply Forall_forall. intros [t' j'] (t2 & [= -> ->] & Ht)%list_elem_of_fmap. rewrite Forall_forall in Hf. by apply Hf.
  - apply Forall_forall. intros [t j] Ht%Hxs. unfold m in Ht. rewrite (items_children r root rt Hrt) in Ht.
    apply (rk_child r Hr) in Ht as (_ & H2 & it & Eit).
    assert (Hlt : (Pos.to_nat j < Pos.to_nat (next r))%nat) by (apply Pos2Nat.inj_lt, (rk_next r Hr); by eexists).
    destruct (items_say r (Pos.to_nat (next r)) (items it) Hr Hc) as (ts & l & E & Hl & Hmem); [by apply (Hc j)|lia| |by exists it, ts, l].
    intros t' j' Hc'. rewrite (items_children r j it Eit) in Hc'. apply (rk_child r Hr) in Hc' as (_ & ? & ?).
    split_and!; [done..|]. lia.
  - exists ts, l. split_and!; [|exact Hl|].
    + unfold render_page. rewrite <- E. unfold xs. rewrite (foldr_fmap _ _ _ (fun t => (t, default 1%positive (m !! t)))). apply foldr_members. intros t rest Ht.
      apply Hin in Ht as [j Ej]. unfold section_out. cbn [fst Datatypes.snd]. by rewrite Ej.
    + intros p h. rewrite Hmem. unfold shown. setoid_rewrite Hxs. done.
Qed.


(** ** Text *)

(** What a status says cannot open a tag or leave an attribute. *)
Lemma escaped_safe s : Forall (fun c => c ∉ [0; 34; 39; 60; 62]) (HTMLEscapeString s).
Proof.
  unfold HTMLEscapeString. apply Forall_concat, Forall_map, Forall_forall. intros c _. unfold escape_byte.
  do 6 (case_if; [apply (bool_decide_unpack _); vm_compute; exact I|]). zbool. constructor; [|done].
  rewrite !elem_of_cons, elem_of_nil. naive_solver.
Qed.

Lemma deleted r i t : children (delSubItem i t r) i !! t = None.
Proof.
  unfold children, delSubItem. cbn. rewrite lookup_alter_eq. destruct (store r !! i); cbn; [apply lookup_delete_eq|done].
Qed.

(** The function that [AddItem] returns deletes by title: an item added under the
    same title after it is what disappears. *)
Lemma done_by_title r parent title :
  let '(r1, (_, _, d)) := AddSimpleItem parent title r in
  let '(r2, _) := AddSimpleItem parent title r1 in
  children (done d r2) (parentItem parent) !! title = None.
Proof. apply deleted. Qed.
End Spec.

(** ** Witness *)

#[local] Existing Instances ascii_strings insertion_sort.

(** Templates that write their text and then the value, itself a text. *)
#[local] Instance wit_html : Html := {|
  any := list Z; template := list Z; request := unit; nil_any := [];
  errorData op err item := op ++ item;
  Parse title text := if bool_decide (text = str "{{") then inl (Errorf "template: unclosed action" []) else inr text;
  Execute tmpl data := (tmpl ++ data, None);
  errorTmpl := [] |}.

(** The items of a router with one port, whose inbound loop has reported. *)
Definition wit_registry : Registry :=
  let '(r, _) := AddItem (PeeringContext None) (str "AURP Peers") (str "none") None initial_registry in
  let '(r, _) := AddItem None (str "Routing table") (str "{{") None r in
  let '(r, (ctx, _)) := AddItem None (str "EtherTalk on en0") (str "port") None r in
  let '(r, (_, d)) := AddItem ctx (str "AARP on en0") (str "aarp") (Some (fun _ => (str " probing", None))) r in
  let '(r, (_, i, _)) := AddSimpleItem ctx (str "Inbound on en0") r in
  done d (setStatus i (str "<0 bytes>") r).

Lemma wit_registry_reachable : reachable wit_registry.
Proof.
  unfold reachable, wit_registry.
  eapply rtc_l; [eapply (st_add _ (PeeringContext None)); by eexists|]. eapply rtc_l; [eapply (st_add _ None); by eexists|].
  eapply rtc_l; [eapply (st_add _ None); by eexists|]. eapply rtc_l; [eapply (st_add _ (Some 5%positive)); by eexists|].
  eapply rtc_l; [eapply (st_simple _ (Some 5%positive)); by eexists|]. eapply rtc_l; [eapply st_status|].
  eapply rtc_l; [eapply st_done|]. apply rtc_refl.
Qed.

Lemma wit_no_ctx : no_ctx wit_registry.
Proof.
  assert (H : map_Forall (fun _ it => items it !! str "Ctx" = None) (store wit_registry)) by (apply (bool_decide_unpack _); vm_compute; exact I).
  intros i it _ E. apply (H i it E).
Qed.

Example wit_page : Status_Handle (MO := ascending_order) None wit_registry = Some
  [Open (str "EtherTalk on en0"); ItemData (str "port");
   Open (str "Inbound on en0"); ItemData (str "&lt;0 bytes&gt;"); Close; Close;
   Open (str "Routing table"); ItemData (str "Could not parse item template"); Close].
Proof. vm_compute. reflexivity. Qed.

